(* ===== verification/_CoqProject ===== *)
-Q . S2P
Prelude.v
Decimal.v
ChainID.v
Json.v
Eip712.v
Eip712Spec.v
Proto.v
AccessList.v
StateDB.v
Journal.v
StateDBSpec.v
Commit.v
Sdk.v
Schedule.v
ScheduleSpec.v
ClawbackAccount.v
VestingKeeper.v
VestingSafety.v
Dec.v
Epochs.v
Inflation.v
InflationSpec.v
FeeMarket.v
FeeMarketSpec.v
EvmKeeper.v
EvmKeeperSpec.v
EvmTx.v
EvmTxSpec.v
GasMeter.v
EvmApply.v
EvmApplySpec.v
EvmParams.v
EvmParamsSpec.v
Migrations.v
EvmGenesis.v
EvmQuery.v
EvmQuerySpec.v
EthLogs.v
LogFilter.v
FilterApi.v
TxEvents.v
TxResultCodec.v
Indexer.v
RpcTypes.v
RpcBackend.v
RpcBackendSpec.v
RpcChain.v
RpcChainSpec.v
EvmAnte.v
EvmAnteSpec.v
RpcSend.v
CosmosAnte.v
CosmosAnteSpec.v
PostHandler.v
Erc20.v
Erc20Spec.v
Erc20Ibc.v
Erc20IbcSpec.v
Revenue.v
RevenueSpec.v
Precompile.v
PrecompileSpec.v
Erc20Precompile.v
Erc20PrecompileSpec.v
StakingPrecompile.v
StakingPrecompileSpec.v
VestingPrecompile.v
VestingPrecompileSpec.v
DistributionPrecompile.v
DistributionPrecompileSpec.v
Ics20Precompile.v
Ics20PrecompileSpec.v
Outposts.v
OutpostsSpec.v
QueryPrecompiles.v
QueryPrecompilesSpec.v
