(* ===== verification/Prelude.v ===== *)
(** * Verification of the Egochain modules

    Egochain is a Cosmos chain that runs the Ethereum virtual machine.  Its own code is
    a set of Go modules under [x/], the handlers that admit and finish transactions
    under [app/], the server that shows the chain to Ethereum clients under [rpc/] and
    [indexer/], and helpers under [types/], [utils/] and [ibc/].  This library models
    the parts that decide what happens to state and money, and what users are told of
    it, and proves what they promise to each other.

    ** The program and the files that model it

    A transaction is admitted by an ante handler, executed by a message handler, and
    the modules do their own work at the beginning and end of a block.

    - Ethereum state.  [AccessList], [StateDB] and [Journal] model [x/evm/statedb]: the
      objects, the journal and the access list of the state database, with one
      definition per method.  [StateDBSpec] proves that the journal is
      indistinguishable from a database that copies its whole memory at [Snapshot];
      [Commit] that a revert restores every observation and what a commit writes.
      The store behind it is the class [Keeper]; [EvmKeeper] implements it as
      [x/evm/keeper/statedb.go] does, over the auth and bank modules ([EvmEnv]), and
      [EvmKeeperSpec] discharges the laws and follows the supply through a commit.
    - Ethereum transactions.  [EvmTx] models the three transaction types of
      [x/evm/types], their conversion, validation and fees; [EvmApply] models
      [x/evm/keeper/state_transition.go], [gas.go] and [fees.go], with go-ethereum's
      machine as the record [Vm]; [EvmQuery] models [eth_call] and the gas estimation
      of [grpc_query.go] on top of it; [GasMeter] the meter of [types/gasmeter.go].
      [EvmTxSpec], [EvmApplySpec] and [EvmQuerySpec] prove the round trip of
      transactions, what a message is charged, that an execution which fails only
      refunds gas, and that an estimate is found and suffices.
    - Parameters and genesis of the EVM.  [EvmParams] models [x/evm/types/params.go] and
      [chain_config.go] with the storage of the parameters and the tables of
      precompiles of [x/evm/keeper]; [ChainID] the identifiers of [types/chain_id.go];
      [EvmGenesis] the import and export of [x/evm/genesis.go].  [EvmParamsSpec] proves
      when an update is accepted and that active precompiles are found, [EvmGenesis]
      that an export is imported without loss.  [Migrations] models the migrations of
      the parameters ([x/evm/migrations]) and the upgrade of [app/upgrades/v16], and
      proves what they keep.
    - What is recorded.  [EthLogs] models the logs of transactions and blocks as the
      events carry them; [TxEvents] the events of Ethereum messages and their parser
      ([rpc/types/events.go]); [Indexer] the database of [indexer/kv_indexer.go], whose
      entries are encoded by the generated code of [types/indexer.pb.go]: [Proto] has
      its wire format and [TxResultCodec] the message.  [TxEvents] proves that parsing
      undoes emitting, [Proto] that unmarshalling is total and undoes marshalling.
    - The JSON-RPC server.  [RpcTypes] models block numbers and the formats of
      [rpc/types]; [RpcBackend] the blocks, transactions and receipts of [rpc/backend],
      with the node as the record [node]; [RpcChain] prices, the fee history, accounts
      and the defaults of a transaction; [RpcSend] how a raw transaction becomes one of
      the chain; [LogFilter] the search for logs and [FilterApi] the installed filters
      of [rpc/namespaces/ethereum/eth/filters].  [RpcBackendSpec] proves that the views
      of a transaction agree, [RpcChainSpec] that a suggested price covers the next
      block and what the defaults complete, [RpcSend] that what is sent has the form the
      ante handler asks for, [LogFilter] that a search is exact, and [FilterApi] that
      polls return what was delivered.
    - Admission.  [EvmAnte] models the mono decorator of [app/ante/evm] with its twelve
      steps and [app/ante/utils/claim_rewards.go]; [CosmosAnte] the decorators of
      [app/ante/cosmos] and [fee_checker.go]; [PostHandler] the fee burning of
      [app/post].  [EvmAnteSpec], [CosmosAnteSpec] and [PostHandler] prove that nothing
      is admitted twice, what is paid in advance and burned afterwards, that a failed
      transaction costs its sender a nonce and the gas it used and nothing else, and
      which messages may hide in others.
    - Fees.  [FeeMarket] models [x/feemarket]; [FeeMarketSpec] relates the base fee to
      the formula of EIP-1559.  [Revenue] models [x/revenue/v1]; [RevenueSpec] proves
      its indices and permissions, and follows the share of a fee from the hook through
      the state transition to the balances.
    - Tokens.  [Erc20] models the registry, the conversions and the contract calls of
      [x/erc20]; [Erc20Ibc] its IBC callbacks and the transfer of [x/ibc/transfer].
      [Erc20Spec] and [Erc20IbcSpec] prove that the registry is consistent, that
      tokens stay backed and that a transfer converts what is missing.
    - Precompiled contracts.  [Precompile] models [precompiles/common] and
      [precompiles/authorization]: the choice of a method, events and the checks on
      grants of the authz module ([AuthzKeeper]).  [Erc20Precompile] models
      [precompiles/erc20] and [precompiles/werc20] on the bank, [StakingPrecompile]
      models [precompiles/staking] on the staking module, both with the state database
      of the call.  [Erc20PrecompileSpec] proves that the first refines an abstract
      ERC-20 token; [StakingPrecompileSpec] proves whose grants and coins the second
      may use, and what is left of a delegator's balance after the final commit.
      [VestingPrecompile], [DistributionPrecompile] and [Ics20Precompile] model
      [precompiles/vesting] on [VestingKeeper], [precompiles/distribution] on the
      distribution module and [precompiles/ics20] on [Erc20Ibc].  Their [*Spec] files
      prove whose grant a vesting message needs, what rewards are left after the final
      commit, and that transfers stay within the grants; each also has runs in which
      coins are taken, minted or burned that should not be.  [PrecompileSpec] has the
      lemmas they share on grants and on balances after a commit.  [Outposts] models
      [precompiles/outposts], which send coins with a JSON memo through the ICS-20
      precompile; [OutpostsSpec] proves that the coins are the origin's and that the memo
      says what was asked for.  [QueryPrecompiles] models [precompiles/bank],
      [precompiles/bech32] and [precompiles/p256] with [crypto/secp256r1];
      [QueryPrecompilesSpec] proves what the bank lists and charges, and when an address
      survives the conversion to bech32 and back.
    - Sign documents.  [Eip712] models the typed data of [ethereum/eip712] that Ethereum
      wallets sign for Cosmos transactions; [Eip712Spec] proves that the inferred type
      definitions describe the whole document.  [Json] has the values and the text of
      JSON with a reader that inverts the printer, [Decimal] the numbers of [strconv].
    - Vesting.  [Schedule], [ClawbackAccount] and [VestingKeeper] model [x/vesting];
      [ScheduleSpec] reads schedules as step functions, and [ClawbackAccount] and
      [VestingSafety] prove the accounting of an account, who may claw back, and that
      every account of the store is well-formed.
    - Time and money.  [Epochs] models [x/epochs]; [Inflation] models
      [x/inflation/v1], which runs as one of its hooks; [InflationSpec] bounds the
      provision and proves how the minted coins are split.

    ** Conventions

    A Go call that returns an error or may panic has the type [outcome E A], with [Ok],
    [Err] and [Panic]; [partial] is an outcome without errors.  Contexts and stores are
    passed explicitly, and a handler that fails gives no store: the SDK drops its
    writes.  A precompile is called in the middle of a transaction: its writes to the
    stores are not undone when the machine reverts the state database.  A [uint64] or
    [int64] is a [Z] that wraps where the code can ([u64], [i64]); a [*big.Int] that may
    be nil is an option; a key-value store is a [gmap], iterated in the order of its
    keys; addresses and hashes are integers, and [EthAddress] takes the last twenty bytes
    of an address of the SDK, as go-ethereum does.  Events of the SDK, its logger and
    telemetry are left out, and messages arrive decoded.

    Code that is not in the repository is a parameter: the Cosmos SDK, its math and
    bank ([Sdk], [Dec], [EvmEnv], [VestingEnv], [InflationEnv] and the records named
    [*_env]), go-ethereum ([Geth], [Vm]), and ibc-go ([ibc_env]).  What is relied on is
    a record or class of laws ([*Laws], [*_laws]) that says what that code documents.
    The contract of a token is such a parameter too: its laws hold in the stores where it
    is deployed and in order ([tok_live]).
    The modules at the end of the files ([MapBank], [ZDec], [EvmToy], [GethToy] and the
    other [*Toy]) give concrete instances, prove their laws and evaluate the theorems
    on small runs.

    ** Fuel

    Loops over data are structural.  The searches have fuel: [BinSearch] and the gas
    search run on an interval of 64-bit numbers that halves each round, so 64 rounds
    are enough, and both files prove that the fuel never runs out.  The removal
    of the prefixes of a denomination ([remove_prefixes]) runs for the length of the
    string, which every round shortens.  The loop over a range of blocks
    ([range_loop]) runs for the number of its blocks.  A varint has at most ten bytes, so
    [encodeVarint] has nine rounds and a last byte; [skip] and [unmarshal] run for the
    length of their input, which every round shortens ([unmarshal_fuel],
    [unmarshal_total]).  [decrease_loop] runs over the indices of the slice it started
    with.  Decimal numbers are printed with as many digits as the number
    has bits.  [recursivelyAddTypesToRoot] runs for the nesting of the document, which the
    proof of [typed_data_conforms] shows to be enough; the thousand rounds of
    [find_typedef] are the limit of the code.  [read_value] takes a nesting of objects,
    and [read_print] says which is enough.

    ** What is not modelled

    - In the state transition every precompile is part of the machine [Vm].  Of the
      staking, distribution and ICS-20 precompiles the queries that pass a request on.
    - Of [rpc/] the transport: websocket connections, the registration of namespaces
      and the thin wrappers in them, tracing, proofs of storage, and [Resend].
    - [server/], [cmd/], [client/], [wallets/]: process and user interfaces around the
      state machine.
    - [crypto/] but for [crypto/secp256r1]: keys and signatures; that a signature is good
      is a parameter of the ante handlers.  Of [ethereum/eip712] the legacy encoding,
      which reads the Go types of messages by reflection, and the preprocessing of
      Ledger transactions inside an SDK transaction builder.
    - Generated protocol buffer code but for that of the indexer: only its message
      types, as records.
    - Paginated queries, the store migrations of the other modules and module
      boilerplate: calls into the SDK.
    - [app/app.go] and [app/export.go]: the wiring of the keepers. *)

From stdpp Require Export sorting gmap strings prelude.

(** ** Go values *)

Declare Scope go_scope.
Delimit Scope go_scope with go.

#[global] Open Scope Z_scope.

(** The outcome of a Go call that returns [(A, error)] and may panic. *)
Inductive outcome (E A : Type) : Type :=
| Ok (a : A)
| Err (e : E)
| Panic.
Arguments Ok {E A} a.
Arguments Err {E A} e.
Arguments Panic {E A}.

#[global] Instance outcome_ret {E} : MRet (outcome E) := fun A a => Ok a.
#[global] Instance outcome_bind {E} : MBind (outcome E) := fun A B f m =>
  match m with
  | Ok a => f a
  | Err e => Err e
  | Panic => Panic
  end.
#[global] Instance outcome_fmap {E} : FMap (outcome E) := fun A B f m =>
  match m with
  | Ok a => Ok (f a)
  | Err e => Err e
  | Panic => Panic
  end.

Definition is_Ok {E A} (m : outcome E A) : bool :=
  match m with Ok _ => true | _ => false end.

Lemma bind_Ok_inv {E A B} (m : outcome E A) (f : A → outcome E B) b :
  m ≫= f = Ok b → ∃ a, m = Ok a ∧ f a = Ok b.
Proof. destruct m; naive_solver. Qed.

(** A call that returns no error but may panic. *)
Abbreviation partial := (outcome Empty_set).

Lemma bind_Ok_intro {E A B} (m : outcome E A) (f : A → outcome E B) a :
  m = Ok a → m ≫= f = f a.
Proof. by intros ->. Qed.

Lemma Ok_bind {E A B} (a : A) (k : A → outcome E B) : Ok a ≫= k = k a.
Proof. done. Qed.

(** [inv_bind H] splits [H : m ≫= f = Ok b] into its two calls. *)
Ltac inv_bind H :=
  let a := fresh "a" in
  let H1 := fresh H "_1" in
  apply bind_Ok_inv in H; destruct H as (a & H1 & H).

(** [case_guards H]: split the [if]s and [match]es a successful call went
    through, closing the branches that return an error or panic. *)
Ltac case_guards H :=
  repeat (lazymatch type of H with
  | context [match ?x with _ => _ end] =>
      let E := fresh "Hg" in destruct x eqn:E; try discriminate H
  end).

(** ** Machine integers *)

Definition in_u64 (z : Z) : Prop := 0 <= z < 2 ^ 64.
Definition in_i64 (z : Z) : Prop := - 2 ^ 63 <= z < 2 ^ 63.

(** Wrap-around of Go's [uint64] and [int64] arithmetic. *)
Definition u64 (z : Z) : Z := z mod 2 ^ 64.
Definition i64 (z : Z) : Z := (z + 2 ^ 63) mod 2 ^ 64 - 2 ^ 63.

Definition MaxUint64 : Z := 2 ^ 64 - 1.
Definition MaxInt64 : Z := 2 ^ 63 - 1.

Lemma u64_small z : in_u64 z → u64 z = z.
Proof. apply Z.mod_small. Qed.

Lemma i64_small z : in_i64 z → i64 z = z.
Proof. unfold in_i64, i64. intros. rewrite Z.mod_small; lia. Qed.

Lemma u64_range z : in_u64 (u64 z).
Proof. apply Z.mod_pos_bound. lia. Qed.

Lemma i64_range z : in_i64 (i64 z).
Proof.
  unfold in_i64, i64.
  pose proof (Z.mod_pos_bound (z + 2 ^ 63) (2 ^ 64)). lia.
Qed.

Lemma u64_idem z : u64 (u64 z) = u64 z.
Proof. apply u64_small, u64_range. Qed.

Lemma u64_add_l a b : u64 (u64 a + b) = u64 (a + b).
Proof. apply Zplus_mod_idemp_l. Qed.

Lemma u64_add_overflow a b :
  in_u64 a → in_u64 b → u64 (a + b) < b ↔ 2 ^ 64 <= a + b.
Proof.
  unfold in_u64, u64. intros Ha Hb. split; intros H.
  - destruct (decide (a + b < 2 ^ 64)); [|lia].
    rewrite Z.mod_small in H; lia.
  - replace (a + b) with ((a + b - 2 ^ 64) + 1 * 2 ^ 64) by lia.
    rewrite Z.mod_add, Z.mod_small; lia.
Qed.

Create HintDb go.
Create Rewrite HintDb go.
#[export] Hint Resolve u64_range i64_range : go.
#[export] Hint Rewrite u64_idem : go.

(** Go's [sort.Search(n, f)]: binary search for the smallest index in [0, n)
    at which [f] holds, [n] if there is none. *)
Fixpoint search_loop (fuel : nat) (f : nat → bool) (i j : nat) : nat :=
  match fuel with
  | O => i
  | S fuel' =>
      if decide (i < j)%nat then
        let h := ((i + j) / 2)%nat in
        if f h then search_loop fuel' f i h else search_loop fuel' f (S h) j
      else i
  end.

Definition sort_Search (n : nat) (f : nat → bool) : nat := search_loop n f 0 n.

Definition monotone_pred (n : nat) (f : nat → bool) : Prop :=
  ∀ i j, (i <= j < n)%nat → f i = true → f j = true.

Lemma search_loop_spec n f fuel i j :
  monotone_pred n f → (i <= j <= n)%nat → (j - i <= fuel)%nat →
  (∀ k, (k < i)%nat → f k = false) →
  (∀ k, (j <= k < n)%nat → f k = true) →
  let r := search_loop fuel f i j in
  (r <= n)%nat ∧ (∀ k, (k < r)%nat → f k = false) ∧
  (∀ k, (r <= k < n)%nat → f k = true).
Proof.
  intros Hmono. revert i j.
  induction fuel as [|fuel IH]; intros i j Hij Hf Hlo Hhi; cbn [search_loop].
  { assert (i = j) as -> by lia. repeat split; [lia|exact Hlo|exact Hhi]. }
  case_decide as Hlt;
    [|assert (i = j) as -> by lia; repeat split; [lia|exact Hlo|exact Hhi]].
  assert (i <= (i + j) / 2 < j)%nat as Hh.
  { split; [apply Nat.div_le_lower_bound|apply Nat.Div0.div_lt_upper_bound]; lia. }
  destruct (f ((i + j) / 2)%nat) eqn:Hfh; apply IH; try lia; try done.
  - intros k Hk. destruct (decide (j <= k)%nat); [apply Hhi; lia|].
    apply (Hmono ((i + j) / 2)%nat k); [lia|done].
  - intros k Hk. destruct (f k) eqn:Hfk; [|done].
    rewrite (Hmono k ((i + j) / 2)%nat) in Hfh; [done|lia|done].
Qed.

(** On a monotone predicate [sort_Search] returns the first index at which it
    holds; its fuel [n] is enough. *)
Lemma sort_Search_spec n f :
  monotone_pred n f →
  let r := sort_Search n f in
  (r <= n)%nat ∧ (∀ k, (k < r)%nat → f k = false) ∧
  (∀ k, (r <= k < n)%nat → f k = true).
Proof. intros H. apply search_loop_spec; try done; lia. Qed.

Lemma sort_Search_first n f r :
  monotone_pred n f → (r <= n)%nat →
  (∀ k, (k < r)%nat → f k = false) → ((r < n)%nat → f r = true) →
  sort_Search n f = r.
Proof.
  intros Hm Hr Hlo Hhi. destruct (sort_Search_spec n f Hm) as (H1 & H2 & H3).
  destruct (lt_eq_lt_dec (sort_Search n f) r) as [[Hlt|]|Hlt]; [|done|].
  - specialize (H3 (sort_Search n f)). specialize (Hlo _ Hlt).
    rewrite H3 in Hlo; [done|lia].
  - specialize (H2 _ Hlt). rewrite Hhi in H2; [done|lia].
Qed.

Lemma StronglySorted_lookup {A} (R : relation A) (l : list A) i j x y :
  StronglySorted R l → l !! i = Some x → l !! j = Some y → (i < j)%nat → R x y.
Proof.
  intros Hs Hx Hy Hij. rewrite <-(take_drop j l) in Hs.
  eapply StronglySorted_app_1_elem_of; [exact Hs| |].
  - apply (list_elem_of_lookup_2 _ i). by rewrite lookup_take_lt.
  - apply (list_elem_of_lookup_2 _ 0%nat). by rewrite lookup_drop, Nat.add_0_r.
Qed.

Lemma StronglySorted_snoc {A} (R : relation A) (l : list A) x :
  StronglySorted R l → Forall (λ y, R y x) l → StronglySorted R (l ++ [x]).
Proof.
  intros Hs Hx. apply StronglySorted_app_2; [|done|repeat constructor].
  intros y z Hy Hz%list_elem_of_singleton. subst z. apply list_elem_of_lookup_1 in Hy as [i Hi].
  by eapply Forall_lookup_1 in Hx.
Qed.

Lemma StronglySorted_take {A} (R : relation A) (l : list A) n :
  StronglySorted R l → StronglySorted R (take n l).
Proof. rewrite <-(take_drop n l) at 1. apply StronglySorted_app_1_l. Qed.

(** The read of element [i] of a Go slice at an [int] index: [None] is the run-time
    panic of an index out of range. *)
Definition slice_at {A} (l : list A) (i : Z) : option A :=
  if decide (0 <= i) then l !! Z.to_nat i else None.

Lemma slice_at_nat {A} (l : list A) (i : nat) : slice_at l (Z.of_nat i) = l !! i.
Proof. unfold slice_at. case_decide; [by rewrite Nat2Z.id|lia]. Qed.

(** Ordered traversal of the keys of a Go map, as [sort.Slice] on the keys
    with [bytes.Compare] gives: keys are fixed-width big-endian byte strings,
    so the byte order is the order of the integers they encode. *)
Definition sorted_keys {V} (m : gmap Z V) : list Z :=
  merge_sort Z.le (elements (dom m)).

Lemma elem_of_sorted_keys {V} (m : gmap Z V) k :
  k ∈ sorted_keys m ↔ is_Some (m !! k).
Proof.
  unfold sorted_keys. rewrite merge_sort_Permutation, elem_of_elements.
  apply elem_of_dom.
Qed.

Lemma NoDup_sorted_keys {V} (m : gmap Z V) : NoDup (sorted_keys m).
Proof. unfold sorted_keys. rewrite merge_sort_Permutation. apply NoDup_elements. Qed.

Lemma Sorted_sorted_keys {V} (m : gmap Z V) : Sorted Z.le (sorted_keys m).
Proof. apply (Sorted_merge_sort Z.le). Qed.

(** ** Byte strings *)

Abbreviation byte := Z (only parsing).

(** [new(big.Int).SetBytes]: an unsigned big-endian number. *)
Definition SetBytes (bz : list byte) : Z := foldl (λ acc b, acc * 256 + b) 0 bz.

(** The [n] bytes of a number, most significant first. *)
Fixpoint be_bytes (n : nat) (z : Z) : list byte :=
  match n with
  | O => []
  | S n' => be_bytes n' (z / 256) ++ [z mod 256]
  end.

(** [common.BytesToHash] keeps the last 32 bytes; [Hash.Bytes] has 32. *)
Definition BytesToHash (bz : list byte) : Z := SetBytes bz mod 2 ^ 256.
Definition Hash_Bytes (h : Z) : list byte := be_bytes 32 h.

Lemma length_be_bytes n z : length (be_bytes n z) = n.
Proof. revert z; induction n; intros; [done|]. simpl. rewrite length_app, IHn. simpl. lia. Qed.

Lemma SetBytes_be_bytes n z : SetBytes (be_bytes n z) = z mod 256 ^ Z.of_nat n.
Proof.
  revert z; induction n as [|n IH]; intros z.
  { change (256 ^ Z.of_nat 0) with 1. rewrite Z.mod_1_r. reflexivity. }
  simpl be_bytes. unfold SetBytes in *. rewrite foldl_app, IH; simpl.
  rewrite Nat2Z.inj_succ, Z.pow_succ_r by lia.
  rewrite (Z.rem_mul_r z) by lia. lia.
Qed.

Lemma BytesToHash_Bytes h : 0 <= h < 2 ^ 256 → BytesToHash (Hash_Bytes h) = h.
Proof.
  intros H. unfold BytesToHash, Hash_Bytes. rewrite SetBytes_be_bytes.
  change (256 ^ Z.of_nat 32) with (2 ^ 256).
  rewrite Z.mod_mod by lia. by apply Z.mod_small.
Qed.

(** ** Strings *)

(** The keys of a store whose keys are strings, in the byte order of its iterators. *)
Definition sorted_names {V} (m : gmap string V) : list string :=
  merge_sort String.le (elements (dom m)).

Lemma elem_of_sorted_names {V} (m : gmap string V) k : k ∈ sorted_names m ↔ is_Some (m !! k).
Proof.
  unfold sorted_names. rewrite merge_sort_Permutation, elem_of_elements. apply elem_of_dom.
Qed.

Lemma NoDup_sorted_names {V} (m : gmap string V) : NoDup (sorted_names m).
Proof. unfold sorted_names. rewrite merge_sort_Permutation. apply NoDup_elements. Qed.

(** The bytes of a string. *)
Definition bytes_of (s : string) : list N := map Ascii.N_of_ascii (String.list_ascii_of_string s).

(** [strings.TrimSpace(s) == ""]: the string is made of Unicode white space, in UTF-8. *)
Fixpoint blank_bytes (bz : list N) : bool :=
  match bz with
  | [] => true
  | b :: bz1 =>
      if decide (b ∈ [9; 10; 11; 12; 13; 32]%N) then blank_bytes bz1
      else match bz1 with
           | c :: bz2 =>
               if decide ((b, c) ∈ [(194, 133); (194, 160)]%N) then blank_bytes bz2
               else match bz2 with
                    | d :: bz3 =>
                        if bool_decide ((b, c, d) ∈ [(225, 154, 128); (226, 129, 159); (227, 128, 128);
                                                (226, 128, 168); (226, 128, 169); (226, 128, 175)]%N)
                           || (bool_decide ((b, c) = (226, 128)%N) && (128 <=? d)%N && (d <=? 138)%N)
                        then blank_bytes bz3
                        else false
                    | [] => false
                    end
           | [] => false
           end
  end.

Definition blank (s : string) : bool := blank_bytes (bytes_of s).
