(* ===== verification/Decimal.v ===== *)
(** * Decimal numbers: [strconv]

    [FormatUint] and [ParseUint] in base 10, which the code uses to print and read
    heights, indices and amounts.  Printing is injective, and reading inverts it. *)

From S2P Require Import Prelude.

(** ** [strconv.FormatUint], [strconv.ParseUint] in base 10 *)

Definition digit_char (d : Z) : Ascii.ascii := Ascii.ascii_of_N (Z.to_N (48 + d)).

Definition char_digit (c : Ascii.ascii) : option Z :=
  let n := Z.of_N (Ascii.N_of_ascii c) in
  if (48 <=? n) && (n <=? 57) then Some (n - 48) else None.

(** The digits of [n], the last first; a number of [fuel] bits has at most that many. *)
Fixpoint digits_rev (fuel : nat) (n : Z) : list Z :=
  match fuel with
  | O => []
  | S fuel => n mod 10 :: (if n <? 10 then [] else digits_rev fuel (n / 10))
  end.

Definition FormatUint (n : Z) : string :=
  String.string_of_list_ascii (map digit_char (reverse (digits_rev 64 n))).

Fixpoint parse_digits (acc : Z) (l : list Ascii.ascii) : option Z :=
  match l with
  | [] => Some acc
  | c :: l => d ← char_digit c; parse_digits (acc * 10 + d) l
  end.

(** An error on an empty string, on another character and beyond [bitSize] bits. *)
Definition ParseUint (s : string) (bitSize : Z) : option Z :=
  match s with
  | EmptyString => None
  | _ =>
      n ← parse_digits 0 (String.list_ascii_of_string s);
      if n <? 2 ^ bitSize then Some n else None
  end.

Lemma char_digit_char d : 0 <= d < 10 → char_digit (digit_char d) = Some d.
Proof.
  intros Hd. unfold char_digit, digit_char. rewrite Ascii.N_ascii_embedding by lia.
  rewrite Z2N.id by lia. destruct (Z.leb_spec 48 (48 + d)), (Z.leb_spec (48 + d) 57); try lia. cbn.
  f_equal. lia.
Qed.

Lemma digits_rev_range fuel n : 0 <= n → Forall (λ d, 0 <= d < 10) (digits_rev fuel n).
Proof.
  revert n. induction fuel as [|fuel IH]; intros n Hn; cbn [digits_rev]; [constructor|].
  constructor; [apply Z.mod_pos_bound; lia|]. case_match; [constructor|]. apply IH, Z.div_pos; lia.
Qed.

Lemma parse_digits_app acc l1 l2 : parse_digits acc (l1 ++ l2) = a ← parse_digits acc l1; parse_digits a l2.
Proof.
  revert acc. induction l1 as [|c l1 IH]; intros acc; [done|]. cbn [app parse_digits].
  destruct (char_digit c); [apply IH|done].
Qed.

Lemma parse_digits_rev fuel n :
  0 <= n < 2 ^ Z.of_nat fuel → (0 < fuel)%nat →
  parse_digits 0 (map digit_char (reverse (digits_rev fuel n))) = Some n.
Proof.
  revert n. induction fuel as [|fuel IH]; intros n Hn Hf; [lia|]. cbn [digits_rev].
  rewrite reverse_cons, List.map_app, parse_digits_app.
  pose proof (Z.mod_pos_bound n 10 ltac:(lia)) as Hm.
  destruct (Z.ltb_spec n 10) as [Hlt|Hge].
  - cbn. rewrite char_digit_char by lia. cbn. f_equal. rewrite Z.mod_small by lia. lia.
  - assert (0 <= n / 10 < 2 ^ Z.of_nat fuel) as Hd.
    { split; [apply Z.div_pos; lia|]. apply Z.div_lt_upper_bound; [lia|].
      rewrite Nat2Z.inj_succ, Z.pow_succ_r in Hn by lia. lia. }
    destruct fuel as [|fuel]; [cbn in Hd; assert (n / 10 = 0) by lia; pose proof (Z.div_le_mono 10 n 10); lia|].
    rewrite IH by lia. cbn. rewrite char_digit_char by lia. cbn. f_equal.
    pose proof (Z.div_mod n 10 ltac:(lia)). lia.
Qed.

(** Printing a number and reading it back. *)
Lemma ParseUint_FormatUint n bitSize : 0 <= n < 2 ^ bitSize → bitSize <= 64 → ParseUint (FormatUint n) bitSize = Some n.
Proof.
  intros Hn Hb. unfold ParseUint. assert (parse_digits 0 (String.list_ascii_of_string (FormatUint n)) = Some n) as Hp.
  { unfold FormatUint. rewrite String.list_ascii_of_string_of_list_ascii. apply parse_digits_rev; [|lia].
    split; [lia|]. eapply Z.lt_le_trans; [apply Hn|]. apply Z.pow_le_mono_r; lia. }
  assert (FormatUint n ≠ EmptyString) as Hne.
  { unfold FormatUint. cbn [digits_rev]. rewrite reverse_cons, List.map_app. by destruct (map digit_char (reverse _)). }
  destruct (FormatUint n); [done|]. rewrite Hp. cbn. by rewrite (proj2 (Z.ltb_lt _ _)) by lia.
Qed.

Lemma FormatUint_inj n m : 0 <= n < 2 ^ 64 → 0 <= m < 2 ^ 64 → FormatUint n = FormatUint m → n = m.
Proof.
  intros Hn Hm Heq. pose proof (ParseUint_FormatUint n 64 Hn ltac:(lia)) as H. rewrite Heq, ParseUint_FormatUint in H by lia.
  congruence.
Qed.
