(* ===== verification/ChainID.v ===== *)
(** * Chain identifiers: [types/chain_id.go], [utils/utils.go], [x/evm/keeper/keeper.go]

    A chain identifier names the chain, its EIP-155 number and its epoch, as in
    [dhives_5439-1].  [ParseChainID] reads the number, [WithChainID] of the EVM keeper
    checks and keeps it.  The regular expression of the source is an anchored sequence
    of character classes, whose greedy matches [span] computes; strings are their
    bytes. *)

From S2P Require Import Prelude.

(** ** Bytes *)

Definition is_lower (b : N) : bool := (97 <=? b)%N && (b <=? 122)%N.
Definition is_digit (b : N) : bool := (48 <=? b)%N && (b <=? 57)%N.

(** The longest prefix of bytes in a class, and the rest. *)
Fixpoint span (p : N → bool) (l : list N) : list N * list N :=
  match l with
  | [] => ([], [])
  | b :: l => if p b then let '(m, r) := span p l in (b :: m, r) else ([], b :: l)
  end.

(** ** White space: [strings.TrimSpace]

    The white space of Unicode takes one, two or three bytes in UTF-8. *)

Definition space1 (b : N) : bool := bool_decide (b ∈ [9; 10; 11; 12; 13; 32]%N).
Definition space2 (b c : N) : bool := bool_decide ((b, c) ∈ [(194, 133); (194, 160)]%N).
Definition space3 (b c d : N) : bool :=
  bool_decide ((b, c, d) ∈ [(225, 154, 128); (226, 129, 159); (227, 128, 128);
                            (226, 128, 168); (226, 128, 169); (226, 128, 175)]%N)
  || (bool_decide ((b, c) = (226, 128)%N) && (128 <=? d)%N && (d <=? 138)%N).

Fixpoint trim_left (l : list N) : list N :=
  match l with
  | b :: l1 =>
      if space1 b then trim_left l1
      else match l1 with
           | c :: l2 =>
               if space2 b c then trim_left l2
               else match l2 with
                    | d :: l3 => if space3 b c d then trim_left l3 else l
                    | [] => l
                    end
           | [] => l
           end
  | [] => []
  end.

(** The same from the end, on the reversed bytes. *)
Fixpoint trim_end (l : list N) : list N :=
  match l with
  | b :: l1 =>
      if space1 b then trim_end l1
      else match l1 with
           | c :: l2 =>
               if space2 c b then trim_end l2
               else match l2 with
                    | d :: l3 => if space3 d c b then trim_end l3 else l
                    | [] => l
                    end
           | [] => l
           end
  | [] => []
  end.

Definition TrimSpace (l : list N) : list N := reverse (trim_end (reverse (trim_left l))).

(** ** [types/chain_id.go] *)

(** [[1-9][0-9]*] at the front. *)
Definition match_number (l : list N) : option (list N * list N) :=
  let '(ds, l) := span is_digit l in
  match ds with
  | d :: _ => if (d =? 48)%N then None else Some (ds, l)
  | [] => None
  end.

(** [evmosChainID.FindStringSubmatch]: the three groups. *)
Definition match_chain_id (l : list N) : option (list N * list N * list N) :=
  let '(name, l) := span is_lower l in
  match name, l with
  | _ :: _, 95%N :: l =>
      '(eip155, l) ← match_number l;
      match l with
      | 45%N :: l =>
          '(epoch, l) ← match_number l;
          match l with [] => Some (name, eip155, epoch) | _ => None end
      | _ => None
      end
  | _, _ => None
  end.

Definition IsValidChainID (chainID : string) : bool :=
  if (48 <? length (bytes_of chainID))%nat then false
  else bool_decide (is_Some (match_chain_id (bytes_of chainID))).

(** [big.Int.SetString(s, 10)] on digits. *)
Definition number (ds : list N) : Z := foldl (λ acc d, acc * 10 + (Z.of_N d - 48)) 0 ds.

Inductive chain_id_error := ErrTooLong | ErrNoMatch.

Definition ParseChainID (chainID : string) : outcome chain_id_error Z :=
  let l := TrimSpace (bytes_of chainID) in
  if (48 <? length l)%nat then Err ErrTooLong
  else match match_chain_id l with
       | Some (_, eip155, _) => Ok (number eip155)
       | None => Err ErrNoMatch
       end.

(** ** [WithChainID] *)

Definition WithChainID (chainID : string) (eip155ChainID : option Z) : partial (option Z) :=
  match ParseChainID chainID with
  | Ok n =>
      if match eip155ChainID with Some m => negb (m =? n) | None => false end then Panic
      else if negb ((n =? 5438) || (n =? 5439)) then Panic
      else Ok (Some n)
  | _ => Panic
  end.

(** ** [utils/utils.go] *)

Definition MainnetChainID : string := "dhives_5439".
Definition TestnetChainID : string := "dhives_5438".

Definition IsMainnet (chainID : string) : bool := String.prefix MainnetChainID chainID.
Definition IsTestnet (chainID : string) : bool := String.prefix TestnetChainID chainID.

(** ** What a chain identifier is *)

Definition name_ok (name : list N) : Prop := name ≠ [] ∧ Forall (λ b, is_lower b = true) name.

Definition number_ok (ds : list N) : Prop :=
  Forall (λ b, is_digit b = true) ds ∧ ∃ d ds', ds = d :: ds' ∧ d ≠ 48%N.

Lemma span_app p m r :
  Forall (λ b, p b = true) m → (∀ b r', r = b :: r' → p b = false) → span p (m ++ r) = (m, r).
Proof.
  intros Hm Hr. induction Hm as [|b m Hb Hm IH]; cbn [app span].
  - destruct r as [|b r']; [done|]. cbn. by rewrite (Hr b r').
  - by rewrite Hb, IH.
Qed.

Lemma span_inv p l m r :
  span p l = (m, r) → l = m ++ r ∧ Forall (λ b, p b = true) m ∧ ∀ b r', r = b :: r' → p b = false.
Proof.
  revert m r. induction l as [|b l IH]; intros m r; cbn [span].
  { intros [= <- <-]. split_and!; [done|constructor|done]. }
  destruct (p b) eqn:Hb.
  - destruct (span p l) as [m' r'] eqn:Hs. intros [= <- <-]. destruct (IH _ _ eq_refl) as (-> & Hm & Hr).
    split_and!; [done|by constructor|done].
  - intros [= <- <-]. split_and!; [done|constructor|]. intros b' r' H. by simplify_eq.
Qed.

Lemma match_number_app ds r :
  number_ok ds → (∀ b r', r = b :: r' → is_digit b = false) → match_number (ds ++ r) = Some (ds, r).
Proof.
  intros [Hds (d & ds' & -> & Hd)] Hr. unfold match_number. rewrite span_app by done.
  by destruct (N.eqb_spec d 48).
Qed.

Lemma match_number_inv l ds r : match_number l = Some (ds, r) → l = ds ++ r ∧ number_ok ds.
Proof.
  unfold match_number. destruct (span is_digit l) as [ds' r'] eqn:Hs.
  apply span_inv in Hs as (-> & Hds & _). destruct ds' as [|d ds']; [done|].
  destruct (N.eqb_spec d 48) as [|Hd]; [done|]. intros [= <- <-]. split; [done|]. split; [done|]. by exists d, ds'.
Qed.

Lemma match_chain_id_spec l name eip155 epoch :
  match_chain_id l = Some (name, eip155, epoch) ↔
  l = name ++ [95%N] ++ eip155 ++ [45%N] ++ epoch ∧ name_ok name ∧ number_ok eip155 ∧ number_ok epoch.
Proof.
  split.
  - unfold match_chain_id. destruct (span is_lower l) as [m r] eqn:Hs. apply span_inv in Hs as (-> & Hm & _).
    destruct m as [|b m]; [done|]. destruct r as [|c r]; [done|].
    destruct (decide (c = 95%N)) as [->|]; [|by destruct c as [|c]; [|do 7 (destruct c as [c|c|]; try done)]].
    intros H. apply bind_Some in H as ([ds r1] & Hds & H). apply match_number_inv in Hds as [-> Hds].
    destruct r1 as [|c r1]; [done|].
    destruct (decide (c = 45%N)) as [->|]; [|by destruct c as [|c]; [|do 6 (destruct c as [c|c|]; try done)]].
    apply bind_Some in H as ([es r2] & Hes & H). apply match_number_inv in Hes as [-> Hes].
    destruct r2 as [|]; [|done]. injection H as <- <- <-. rewrite app_nil_r. split_and!; [done|by split|done|done].
  - intros (-> & [Hne Hn] & Hds & Hes). unfold match_chain_id. rewrite span_app; [|done|by intros ? ? [= <- <-]].
    destruct name as [|b name]; [done|]. cbn [app].
    rewrite match_number_app; [|done|by intros ? ? [= <- <-]]. cbn.
    rewrite <-(app_nil_r epoch) at 1. by rewrite match_number_app.
Qed.

(** An identifier is accepted exactly if, without the white space around it, it has at
    most 48 bytes and the form name, underscore, number, hyphen, number; the result is
    the first number. *)
Lemma parse_chain_id_exact (chainID : string) (n : Z) :
  ParseChainID chainID = Ok n ↔
  (length (TrimSpace (bytes_of chainID)) <= 48)%nat ∧
  ∃ name eip155 epoch, TrimSpace (bytes_of chainID) = name ++ [95%N] ++ eip155 ++ [45%N] ++ epoch ∧
    name_ok name ∧ number_ok eip155 ∧ number_ok epoch ∧ n = number eip155.
Proof.
  unfold ParseChainID. set (l := TrimSpace _). destruct (Nat.ltb_spec 48 (length l)); [split; [done|lia]|].
  split.
  - destruct (match_chain_id l) as [[[name eip155] epoch]|] eqn:Hm; [|done]. intros [= <-].
    apply match_chain_id_spec in Hm as (Hl & Hn & Hd & He). split; [lia|]. by exists name, eip155, epoch.
  - intros (_ & name & eip155 & epoch & Hl & Hn & Hd & He & ->).
    by rewrite (proj2 (match_chain_id_spec l name eip155 epoch)).
Qed.

(** The keeper only ever holds one of the two numbers of the chain, and keeps it. *)
Lemma with_chain_id_fixed chainID k k' :
  WithChainID chainID k = Ok k' →
  ∃ n, k' = Some n ∧ (n = 5438 ∨ n = 5439) ∧ ParseChainID chainID = Ok n ∧ (k = None ∨ k = Some n).
Proof.
  unfold WithChainID. destruct (ParseChainID chainID) as [n| |]; [|done..].
  destruct k as [m|]; [destruct (Z.eqb_spec m n); [subst|done]|]; cbn;
    (destruct (Z.eqb_spec n 5438), (Z.eqb_spec n 5439); cbn; [..|done]);
    intros [= <-]; exists n; auto.
Qed.

Example chain_ids :
  ParseChainID "dhives_5439-1" = Ok 5439 ∧ ParseChainID " dhives_5438-12 " = Ok 5438 ∧
  ParseChainID "dhives_05439-1" = Err ErrNoMatch ∧ ParseChainID "dhives-1" = Err ErrNoMatch ∧
  IsValidChainID " dhives_5438-12" = false.
Proof. repeat split; vm_compute; reflexivity. Qed.

(** [IsMainnet] looks at a prefix of the identifier: it also holds of the chain 54390. *)
Example mainnet_prefix :
  IsMainnet "dhives_54390-1" = true ∧ ParseChainID "dhives_54390-1" = Ok 54390.
Proof. split; vm_compute; reflexivity. Qed.
