(* ===== verification/Json.v ===== *)
(** * JSON: [encoding/json]

    Parsed JSON values, and the text that [json.Marshal] makes of them: compact, with the
    characters escaped that Go escapes.  Bytes above 127 are copied, as Go does for
    UTF-8 text but for the line separators U+2028 and U+2029.  A reader inverts the
    printer ([read_print]), so that no string can end the string it is put into. *)

From Stdlib Require Import Ascii.
From S2P Require Import Prelude.

(** A parsed JSON value; a number keeps its text, an object its members in their order. *)
Inductive json :=
| JNull
| JBool (b : bool)
| JNumber (raw : string)
| JString (s : string)
| JArray (l : list json)
| JObject (members : list (string * json)).

Definition IsObject (j : json) : bool := match j with JObject _ => true | _ => false end.
Definition IsArray (j : json) : bool := match j with JArray _ => true | _ => false end.

(** The nesting of objects and arrays. *)
Fixpoint json_depth (j : json) : nat :=
  match j with
  | JArray l => S (max_list_with json_depth l)
  | JObject m => S (max_list_with (λ p, json_depth p.2) m)
  | _ => 0
  end.

(** ** Strings *)

Lemma append_cons c s t : String c s +:+ t = String c (s +:+ t).
Proof. done. Qed.

Lemma append_empty s : s +:+ EmptyString = s.
Proof. induction s as [|c s IH]; [done|]. by rewrite append_cons, IH. Qed.

Lemma append_assoc s t u : s +:+ (t +:+ u) = (s +:+ t) +:+ u.
Proof. induction s as [|c s IH]; [done|]. by rewrite !append_cons, IH. Qed.

Lemma append_inj s t u : s +:+ t = s +:+ u → t = u.
Proof. induction s as [|c s IH]; [done|]. rewrite !append_cons. intros [= Heq]. by apply IH. Qed.

Lemma append_length s t : String.length (s +:+ t) = (String.length s + String.length t)%nat.
Proof. induction s as [|c s IH]; [done|]. rewrite append_cons. cbn. by rewrite IH. Qed.

Lemma max_list_with_le {A} (f : A → nat) l a : a ∈ l → (f a <= max_list_with f l)%nat.
Proof. induction 1 as [a l|a b l _ IH]; cbn; lia. Qed.

(** ** Printing *)

Definition quote : ascii := ascii_of_N 34.
Definition backslash : ascii := ascii_of_N 92.
Definition char (n : N) : string := String (ascii_of_N n) EmptyString.
Definition hex_char (n : N) : ascii := ascii_of_N (if n <? 10 then 48 + n else 87 + n)%N.

(** Printable ASCII but for the quote, the backslash and the characters of HTML, and the
    bytes of other characters. *)
Definition html_safe (n : N) : bool :=
  (32 <=? n)%N && negb (bool_decide (n ∈ [34; 38; 60; 62; 92]%N)).

Definition escape_char (c : ascii) : string :=
  let n := N_of_ascii c in
  if html_safe n then String c EmptyString
  else if bool_decide (n ∈ [34; 92]%N) then String backslash (String c EmptyString)
  else if (n =? 10)%N then String backslash "n"
  else if (n =? 13)%N then String backslash "r"
  else if (n =? 9)%N then String backslash "t"
  else String backslash ("u00" +:+ String (hex_char (n / 16)) (String (hex_char (n mod 16)) EmptyString)).

Fixpoint escape (s : string) : string :=
  match s with EmptyString => EmptyString | String c s => escape_char c +:+ escape s end.

Definition json_string (s : string) : string := String quote (escape s +:+ String quote EmptyString).

Fixpoint separated (l : list string) : string :=
  match l with
  | [] => EmptyString
  | [s] => s
  | s :: l => s +:+ "," +:+ separated l
  end.

(** [json.Marshal] *)
Fixpoint Marshal (j : json) : string :=
  match j with
  | JNull => "null"
  | JBool b => if b then "true" else "false"
  | JNumber raw => raw
  | JString s => json_string s
  | JArray l => "[" +:+ separated (Marshal <$> l) +:+ "]"
  | JObject m => "{" +:+ separated ((λ p, json_string p.1 +:+ ":" +:+ Marshal p.2) <$> m) +:+ "}"
  end.

(** ** Reading *)

Definition unhex (c : ascii) : N := let n := N_of_ascii c in if (n <? 58)%N then (n - 48)%N else (n - 87)%N.

Definition unescape (c : ascii) : ascii :=
  let n := N_of_ascii c in
  if (n =? 110)%N then ascii_of_N 10 else if (n =? 114)%N then ascii_of_N 13 else if (n =? 116)%N then ascii_of_N 9 else c.

Definition cons_char {A} (c : ascii) (r : option (string * A)) : option (string * A) := '(s, rest) ← r; Some (String c s, rest).

(** A string up to the quote that ends it. *)
Fixpoint read_string (s : string) : option (string * string) :=
  match s with
  | EmptyString => None
  | String c s1 =>
      if Ascii.eqb c quote then Some (EmptyString, s1)
      else if Ascii.eqb c backslash then
        match s1 with
        | EmptyString => None
        | String d s2 =>
            if Ascii.eqb d "u" then
              match s2 with
              | String _ (String _ (String h (String l s3))) => cons_char (ascii_of_N (16 * unhex h + unhex l)) (read_string s3)
              | _ => None
              end
            else cons_char (unescape d) (read_string s2)
        end
      else cons_char c (read_string s1)
  end.

Definition number_char (c : ascii) : bool :=
  let n := N_of_ascii c in ((48 <=? n) && (n <=? 57))%N || bool_decide (n ∈ [43; 45; 46; 69; 101]%N).

Fixpoint span_string (p : ascii → bool) (s : string) : string * string :=
  match s with
  | EmptyString => (EmptyString, EmptyString)
  | String c s' => if p c then let '(m, r) := span_string p s' in (String c m, r) else (EmptyString, s)
  end.

(** Items with commas between them, up to the closing character. *)
Fixpoint read_seq {A} (read : string → option (A * string)) (close : ascii) (rounds : nat) (s : string) : option (list A * string) :=
  match rounds with
  | O => None
  | S rounds =>
      '(a, s) ← read s;
      match s with
      | String c s =>
          if Ascii.eqb c close then Some ([a], s)
          else if Ascii.eqb c "," then '(l, s) ← read_seq read close rounds s; Some (a :: l, s)
          else None
      | EmptyString => None
      end
  end.

Definition read_list {A} (read : string → option (A * string)) (close : ascii) (s : string) : option (list A * string) :=
  match s with
  | String c s' => if Ascii.eqb c close then Some ([], s') else read_seq read close (String.length s) s
  | EmptyString => None
  end.

Fixpoint expect {A} (text s : string) (a : A) : option (A * string) :=
  match text, s with
  | EmptyString, _ => Some (a, s)
  | String c text, String d s => if Ascii.eqb c d then expect text s a else None
  | _, EmptyString => None
  end.

Definition read_member (read : string → option (json * string)) (s : string) : option ((string * json) * string) :=
  match s with
  | String q s =>
      if Ascii.eqb q quote then
        '(k, s) ← read_string s;
        match s with
        | String c s => if Ascii.eqb c ":" then '(j, s) ← read s; Some ((k, j), s) else None
        | EmptyString => None
        end
      else None
  | EmptyString => None
  end.

(** A value in a text that nests at most [depth] deep. *)
Fixpoint read_value (depth : nat) (s : string) : option (json * string) :=
  match depth, s with
  | S depth, String c s1 =>
      if Ascii.eqb c quote then '(v, r) ← read_string s1; Some (JString v, r)
      else if Ascii.eqb c "[" then '(l, r) ← read_list (read_value depth) "]" s1; Some (JArray l, r)
      else if Ascii.eqb c "{" then '(m, r) ← read_list (read_member (read_value depth)) "}" s1; Some (JObject m, r)
      else if Ascii.eqb c "n" then expect "ull" s1 JNull
      else if Ascii.eqb c "t" then expect "rue" s1 (JBool true)
      else if Ascii.eqb c "f" then expect "alse" s1 (JBool false)
      else if number_char c then let '(n, r) := span_string number_char s in Some (JNumber n, r) else None
  | _, _ => None
  end.

(** ** The reader inverts the printer *)

Fixpoint numbers_ok (j : json) : bool :=
  match j with
  | JNumber raw => negb (bool_decide (raw = EmptyString)) && bool_decide (span_string number_char raw = (raw, EmptyString))
  | JArray l => forallb numbers_ok l
  | JObject m => forallb (λ p, numbers_ok p.2) m
  | _ => true
  end.

(** What may follow a value. *)
Definition delimited (s : string) : Prop := match s with EmptyString => True | String c _ => number_char c = false end.

Lemma read_escape_char c t : read_string (escape_char c +:+ t) = cons_char c (read_string t).
Proof. destruct c as [[] [] [] [] [] [] [] []]; reflexivity. Qed.

Lemma read_json_string s t : read_string (escape s +:+ String quote t) = Some (s, t).
Proof.
  induction s as [|c s IH]; [done|]. cbn [escape]. rewrite <-append_assoc, read_escape_char, IH. done.
Qed.

Lemma span_number raw t : span_string number_char raw = (raw, EmptyString) → delimited t → span_string number_char (raw +:+ t) = (raw, t).
Proof.
  induction raw as [|c raw IH]; intros Hs Ht.
  - destruct t as [|c t]; [done|]. cbn [delimited] in Ht. change (EmptyString +:+ ?u) with u. cbn [span_string]. by rewrite Ht.
  - rewrite append_cons. cbn [span_string] in *. destruct (number_char c); [|by injection Hs].
    destruct (span_string number_char raw) as [m r]. injection Hs as -> ->. by rewrite IH.
Qed.

Lemma separated_length l : Forall (λ s, (0 < String.length s)%nat) l → (length l <= String.length (separated l))%nat.
Proof.
  induction 1 as [|s l Hs Hl IH]; [done|]. destruct l as [|s' l]; [cbn in *; lia|].
  change (separated (s :: s' :: l)) with (s +:+ "," +:+ separated (s' :: l)). rewrite !append_length. cbn [length String.length] in *. lia.
Qed.

(** Items that are read one by one. *)
Lemma read_seq_spec {A} (print : A → string) (read : string → option (A * string)) close l rounds t :
  (∀ a, a ∈ l → ∀ t, delimited t → read (print a +:+ t) = Some (a, t)) → number_char close = false → Ascii.eqb "," close = false →
  l ≠ [] → (length l <= rounds)%nat → read_seq read close rounds (separated (print <$> l) +:+ String close t) = Some (l, t).
Proof.
  intros Hread Hclose Hcomma. revert rounds. induction l as [|a l IH]; intros rounds Hne Hl; [done|].
  destruct rounds as [|rounds]; [cbn in Hl; lia|]. cbn [read_seq]. destruct l as [|b l].
  - cbn [fmap list_fmap separated]. rewrite Hread by (left || done). cbn. by rewrite Ascii.eqb_refl.
  - change (separated (print <$> a :: b :: l)) with (print a +:+ "," +:+ separated (print <$> b :: l)).
    rewrite <-!append_assoc, Hread by (left || done). change ("," +:+ ?s) with (String "," s). cbn [mbind option_bind]. rewrite Hcomma, Ascii.eqb_refl.
    rewrite IH; [done| |done|cbn in *; lia]. intros c Hc. apply Hread. by right.
Qed.

(** What a value starts with. *)
Lemma Marshal_head j : numbers_ok j = true → ∃ c s, Marshal j = String c s ∧ Ascii.eqb c "]" = false ∧ Ascii.eqb c "}" = false.
Proof.
  destruct j as [|[]|raw|s|l|m]; intros Hn; try (by eexists _, _).
  cbn in Hn. apply andb_true_iff in Hn as [Hne Hs%bool_decide_eq_true]. destruct raw as [|c raw]; [done|]. exists c, raw.
  cbn in Hs. destruct (number_char c) eqn:Hc; [|by injection Hs]. split; [done|].
  split; [destruct (Ascii.eqb_spec c "]")|destruct (Ascii.eqb_spec c "}")]; (done || (subst; by vm_compute in Hc)).
Qed.

Lemma Marshal_length j : numbers_ok j = true → (0 < String.length (Marshal j))%nat.
Proof. intros (c & s & -> & _)%Marshal_head. cbn. lia. Qed.

(** A list, empty or not, up to its closing character. *)
Lemma read_list_spec {A} (print : A → string) (read : string → option (A * string)) close l t :
  (∀ a, a ∈ l → ∀ t, delimited t → read (print a +:+ t) = Some (a, t)) → number_char close = false → Ascii.eqb "," close = false →
  (∀ a, a ∈ l → ∃ c s, print a = String c s ∧ Ascii.eqb c close = false) →
  read_list read close (separated (print <$> l) +:+ String close t) = Some (l, t).
Proof.
  intros Hread Hclose Hcomma Hhead. destruct l as [|a l].
  { change (separated _ +:+ ?u) with u. unfold read_list. by rewrite Ascii.eqb_refl. }
  destruct (Hhead a (list_elem_of_here _ _)) as (c & s & Ha & Hc).
  assert (∃ s', separated (print <$> a :: l) = String c s') as [s' Hs'].
  { destruct l as [|b l]; [by exists s|]. rewrite !fmap_cons. cbn [separated]. rewrite Ha. eexists. by rewrite append_cons. }
  unfold read_list. rewrite Hs', append_cons, Hc, <-append_cons, <-Hs'.
  apply read_seq_spec; [done..|]. rewrite append_length.
  pose proof (separated_length (print <$> a :: l)) as Hlen. rewrite length_fmap in Hlen.
  enough (length (a :: l) <= String.length (separated (print <$> a :: l)))%nat by lia. apply Hlen.
  apply Forall_fmap, Forall_forall. intros b (c' & s2 & Hb & _)%Hhead. unfold compose. rewrite Hb. cbn. lia.
Qed.

Lemma expect_text {A} text t (a : A) : expect text (text +:+ t) a = Some (a, t).
Proof. induction text as [|c text IH]; [done|]. rewrite append_cons. cbn [expect]. by rewrite Ascii.eqb_refl. Qed.

Lemma read_member_spec (read : string → option (json * string)) k j t :
  read (Marshal j +:+ t) = Some (j, t) → read_member read ((json_string k +:+ ":" +:+ Marshal j) +:+ t) = Some ((k, j), t).
Proof.
  intros Hr. unfold json_string. rewrite append_cons, append_cons. cbn [read_member]. rewrite Ascii.eqb_refl, <-!append_assoc.
  change (String quote EmptyString +:+ ?u) with (String quote u). rewrite read_json_string. cbn [mbind option_bind].
  change (":" +:+ ?u) with (String ":" u). cbn iota. rewrite Ascii.eqb_refl, Hr. done.
Qed.

(** Reading what was printed gives the value, and the text after it. *)
Theorem read_print depth j t :
  (json_depth j < depth)%nat → numbers_ok j = true → delimited t → read_value depth (Marshal j +:+ t) = Some (j, t).
Proof.
  revert j t. induction depth as [|depth IH]; intros j t Hd Hn Ht; [lia|]. destruct j as [|[]|raw|s|l|m].
  - apply (expect_text "ull").
  - apply (expect_text "rue").
  - apply (expect_text "alse").
  - cbn in Hn. apply andb_true_iff in Hn as [Hne Hs%bool_decide_eq_true]. destruct raw as [|c raw]; [done|].
    assert (number_char c = true) as Hc by (cbn in Hs; by destruct (number_char c)).
    pose proof (span_number (String c raw) t Hs Ht) as Hsp. cbn [Marshal]. rewrite append_cons in *. cbn [read_value].
    rewrite Hc, Hsp. assert (∀ d, number_char d = false → Ascii.eqb c d = false) as Hne'.
    { intros d Hd'. destruct (Ascii.eqb_spec c d); [congruence|done]. }
    by rewrite !Hne' by reflexivity.
  - cbn [Marshal]. unfold json_string. rewrite append_cons. cbn [read_value]. rewrite Ascii.eqb_refl, <-append_assoc.
    change (String quote EmptyString +:+ t) with (String quote t). by rewrite read_json_string.
  - cbn [Marshal]. rewrite <-!append_assoc. change ("[" +:+ ?u) with (String "[" u). change ("]" +:+ t) with (String "]" t).
    cbn [read_value]. change (Ascii.eqb "[" quote) with false. rewrite Ascii.eqb_refl. cbn iota.
    cbn in Hn. rewrite forallb_forall in Hn. assert (∀ a, a ∈ l → numbers_ok a = true) as Hl by (intros a Ha; by apply Hn, list_elem_of_In).
    rewrite (read_list_spec Marshal); [done| |done|done|].
    + intros a Ha u Hu. apply IH; [|by apply Hl|done]. pose proof (max_list_with_le json_depth l a Ha). cbn in Hd. lia.
    + intros a Ha. destruct (Marshal_head a (Hl a Ha)) as (c & s & -> & H1 & _). by exists c, s.
  - cbn [Marshal]. rewrite <-!append_assoc. change ("{" +:+ ?u) with (String "{" u). change ("}" +:+ t) with (String "}" t).
    cbn [read_value]. change (Ascii.eqb "{" quote) with false. change (Ascii.eqb "{" "[") with false. rewrite Ascii.eqb_refl. cbn iota.
    cbn in Hn. rewrite forallb_forall in Hn.
    rewrite (read_list_spec (λ p, json_string p.1 +:+ ":" +:+ Marshal p.2)); [done| |done|done|].
    + intros [k j] Ha u Hu. apply read_member_spec. apply IH; [|by apply (Hn (k, j)), list_elem_of_In|done].
      pose proof (max_list_with_le (λ p, json_depth p.2) m (k, j) Ha) as Hle. cbn in Hd, Hle. lia.
    + intros [k j] _. unfold json_string. eexists _, _. rewrite append_cons. done.
Qed.

(** Different values have different texts. *)
Lemma Marshal_inj j j' : numbers_ok j = true → numbers_ok j' = true → Marshal j = Marshal j' → j = j'.
Proof.
  intros Hn Hn' Heq. pose proof (read_print (S (json_depth j + json_depth j')) j EmptyString ltac:(lia) Hn I) as H1.
  pose proof (read_print (S (json_depth j + json_depth j')) j' EmptyString ltac:(lia) Hn' I) as H2.
  rewrite Heq in H1. congruence.
Qed.
