(* ===== verification/Eip712.v ===== *)
(** * EIP-712 sign documents: [ethereum/eip712]

    A Cosmos transaction is signed by an Ethereum wallet as typed data: the JSON sign
    document with its messages flattened to fields [msg0], [msg1] and so on, and type
    definitions that are inferred from the document.  JSON documents are parsed values;
    the lookup of a path, the change of a member (gjson, sjson), the title casing of
    golang.org/x/text and the codecs of the SDK are fields of [eip_env].  The legacy
    encoding, which reads the Go types of messages by reflection, is not modelled. *)

From Stdlib Require Import Ascii.
From S2P Require Import Prelude Decimal Json ChainID.

(** [apitypes.Type], [apitypes.Types] *)
Record eip_type := mkType { ty_Name : string; ty_Type : string }.
#[export] Instance eip_type_eq_dec : EqDecision eip_type.
Proof. solve_decision. Defined.
Abbreviation eip_types := (gmap string (list eip_type)).

Record eip_domain := mkDomain {
  dm_Name : string;
  dm_Version : string;
  dm_ChainId : Z;
  dm_VerifyingContract : string;
  dm_Salt : string
}.

Record typed_data := mkTypedData {
  td_Types : eip_types;
  td_PrimaryType : string;
  td_Domain : eip_domain;
  td_Message : json
}.

(** [EErrDepth] is no error of the code: the recursion is deeper than the document, which
    happens only when a lookup does not return a part of it. *)
Inductive eip_error :=
| EErrJSON
| EErrNoMessages
| EErrMessages
| EErrField
| EErrMessage
| EErrType
| EErrDuplicates
| EErrDepth
| EErrCodec
| EErrUnsupported
| EErrSigner
| EErrChainID
| EErrUndecodable.

(** The sign documents of the SDK, decoded; a message is of any type. *)
Record std_sign_doc (msg : Type) := mkSignDoc { sd_ChainID : string; sd_Msgs : list msg }.
Arguments mkSignDoc {_}.
Arguments sd_ChainID {_}.
Arguments sd_Msgs {_}.

(** [tb_Messages] is missing when one of them cannot be unpacked, [tb_Options] counts the
    extension options of both kinds, [pd_Sequences] has an entry for each signer. *)
Record tx_body (msg : Type) := mkTxBody {
  tb_Messages : option (list msg);
  tb_Memo : string;
  tb_TimeoutHeight : Z;
  tb_Options : nat
}.
Arguments mkTxBody {_}.
Arguments tb_Messages {_}.
Arguments tb_Memo {_}.
Arguments tb_TimeoutHeight {_}.
Arguments tb_Options {_}.

Abbreviation std_fee := (list (string * Z) * Z)%type.
Abbreviation std_tip := (list (string * Z) * string)%type.

Record proto_doc (msg : Type) := mkProtoDoc {
  pd_ChainId : string;
  pd_AccountNumber : Z;
  pd_Body : tx_body msg;
  pd_Sequences : list Z;
  pd_Fee : option std_fee;
  pd_Tip : option std_tip
}.
Arguments mkProtoDoc {_}.
Arguments pd_ChainId {_}.
Arguments pd_AccountNumber {_}.
Arguments pd_Body {_}.
Arguments pd_Sequences {_}.
Arguments pd_Fee {_}.
Arguments pd_Tip {_}.

Section Eip712.
Context {msg : Type}.

Record eip_env := mkEipEnv {
  (** [gjson.ValidBytes] and [gjson.ParseBytes] *)
  ee_Parse : list N → option json;
  (** [Result.Get] of a path *)
  ee_Get : json → string → option json;
  (** [sjson.SetRaw], [sjson.Delete] *)
  ee_SetRaw : json → string → json → option json;
  ee_Delete : json → string → option json;
  (** [cases.Title(language.English, cases.NoLower)] *)
  ee_Title : string → string;
  (** whether the codecs are set; the sign documents they decode, and encode *)
  ee_codecs : bool;
  ee_AminoDoc : list N → option (std_sign_doc msg);
  ee_ProtoDoc : list N → option (proto_doc msg);
  ee_StdSignBytes : string → Z → Z → Z → std_fee → list msg → string → option std_tip → list N;
  ee_Signers : msg → list Z;
  (** [apitypes.TypedDataAndHash]: the hash and the raw data *)
  ee_TypedDataAndHash : typed_data → option (list N * list N)
}.

Variable x : eip_env.

Abbreviation eip_result A := (outcome eip_error A).
Definition of_option {A} (e : eip_error) (o : option A) : eip_result A := match o with Some a => Ok a | None => Err e end.

(** ** The payload: [message.go] *)

Definition msgFieldForIndex (i : nat) : string := "msg" +:+ FormatUint (Z.of_nat i).

Definition unmarshalBytesToJSONObject (data : list N) : eip_result json :=
  match ee_Parse x data with
  | Some payload => if IsObject payload then Ok payload else Err EErrJSON
  | None => Err EErrJSON
  end.

Definition getPayloadMessages (payload : json) : eip_result (list json) :=
  match ee_Get x payload "msgs" with
  | None => Err EErrNoMessages
  | Some (JArray msgs) => Ok msgs
  | Some _ => Err EErrMessages
  end.

Definition payloadWithNewMessage (payload msg : json) (index : nat) : eip_result json :=
  match ee_Get x payload (msgFieldForIndex index) with
  | Some _ => Err EErrField
  | None =>
      if IsObject msg then of_option EErrJSON (ee_SetRaw x payload (msgFieldForIndex index) msg) else Err EErrMessage
  end.

Definition payloadWithoutMsgsField (payload : json) : eip_result json := of_option EErrJSON (ee_Delete x payload "msgs").

(** The loop of [FlattenPayloadMessages], from index [i]. *)
Fixpoint add_messages (flattened : json) (msgs : list json) (i : nat) : eip_result json :=
  match msgs with
  | [] => Ok flattened
  | msg :: rest => flattened ← payloadWithNewMessage flattened msg i; add_messages flattened rest (S i)
  end.

Definition FlattenPayloadMessages (payload : json) : eip_result (json * nat) :=
  msgs ← getPayloadMessages payload;
  flattened ← add_messages payload msgs 0;
  flattened ← payloadWithoutMsgsField flattened;
  Ok (flattened, length msgs).

(** The payload, the number of its messages and the message of the typed data. *)
Definition createEIP712MessagePayload (data : list N) : eip_result (json * nat * json) :=
  basicPayload ← unmarshalBytesToJSONObject data;
  '(payload, numPayloadMsgs) ← FlattenPayloadMessages basicPayload;
  match payload with
  | JObject _ => Ok (payload, numPayloadMsgs, payload)
  | _ => Err EErrType
  end.

(** ** Types: [types.go] *)

(** [strings.Split] at a character. *)
Fixpoint split_at (c : Ascii.ascii) (s : string) : list string :=
  match s with
  | EmptyString => [EmptyString]
  | String d s =>
      if Ascii.eqb c d then EmptyString :: split_at c s
      else match split_at c s with
           | part :: rest => String d part :: rest
           | [] => [String d EmptyString]
           end
  end.

Definition rootPrefix : string := "_".
Definition typePrefix : string := "Type".
Definition maxDuplicateTypeDefs : nat := 1000.

Definition concat_strings (l : list string) : string := foldr String.append EmptyString l.

Definition sanitizeTypedef (str : string) : string :=
  concat_strings ((λ part,
    if decide (part = rootPrefix) then typePrefix else concat_strings (ee_Title x <$> split_at "_"%char part)) <$> split_at "."%char str).

Definition getEthTypeForJSON (j : json) : string :=
  match j with
  | JBool _ => "bool"
  | JNumber _ => "int64"
  | JString _ => "string"
  | _ => EmptyString
  end.

Definition typeDefWithIndex (typeDef : string) (index : nat) : string := typeDef +:+ FormatUint (Z.of_nat index).

Definition typesAreEqual (types1 types2 : list eip_type) : bool :=
  (length types1 =? length types2)%nat &&
  forallb (λ p, bool_decide (ty_Name p.1 = ty_Name p.2) && bool_decide (ty_Type p.1 = ty_Type p.2)) (zip types1 types2).

(** The search for a key, from index [indexAsDuplicate] with [rounds] left to the limit. *)
Fixpoint find_typedef (rounds : nat) (typeMap : eip_types) (typeDef : string) (types : list eip_type)
    (indexAsDuplicate : nat) : eip_result (string * eip_types) :=
  match rounds with
  | O => Err EErrDuplicates
  | S rounds =>
      let indexedTypeDef := typeDefWithIndex typeDef indexAsDuplicate in
      match typeMap !! indexedTypeDef with
      | Some existingTypes =>
          if typesAreEqual types existingTypes then Ok (indexedTypeDef, typeMap)
          else find_typedef rounds typeMap typeDef types (S indexAsDuplicate)
      | None => Ok (indexedTypeDef, <[indexedTypeDef := types]> typeMap)
      end
  end.

Definition addTypesToRoot (typeMap : eip_types) (typeDef : string) (types : list eip_type) : eip_result (string * eip_types) :=
  find_typedef maxDuplicateTypeDefs typeMap typeDef types 0.

Definition prefixForSubField (prefix fieldName : string) : string := prefix +:+ "." +:+ fieldName.

Definition typeDefForPrefix (prefix rootType : string) : string :=
  if decide (prefix = rootPrefix) then rootType else sanitizeTypedef prefix.

(** The keys of the map that gjson makes of an object, the greatest first. *)
Definition sort_keys (keys : list string) : list string := merge_sort (flip String.le) keys.

Definition sortedJSONKeys (j : json) : eip_result (list string) :=
  match j with
  | JObject m => Ok (sort_keys (remove_dups m.*1))
  | _ => Err EErrType
  end.

(** The loop over the fields; [add_object] adds the types of an object below. *)
Fixpoint add_fields (add_object : eip_types → string → json → eip_result (string * eip_types)) (prefix : string)
    (payload : json) (names : list string) (typesToAdd : list eip_type) (typeMap : eip_types) :
    eip_result (list eip_type * eip_types) :=
  match names with
  | [] => Ok (typesToAdd, typeMap)
  | fieldName :: rest =>
      let next typesToAdd typeMap := add_fields add_object prefix payload rest typesToAdd typeMap in
      let scalar_or_object (field : json) (suffix : string) :=
        let ethType := getEthTypeForJSON field in
        if decide (ethType = EmptyString) then
          if IsObject field then
            '(fieldTypeDef, typeMap) ← add_object typeMap (prefixForSubField prefix fieldName) field;
            next (typesToAdd ++ [mkType fieldName (sanitizeTypedef fieldTypeDef +:+ suffix)]) typeMap
          else next typesToAdd typeMap
        else next (typesToAdd ++ [mkType fieldName (ethType +:+ suffix)]) typeMap in
      match ee_Get x payload fieldName with
      | None => next typesToAdd typeMap
      | Some (JArray []) => next (typesToAdd ++ [mkType fieldName "string[]"]) typeMap
      | Some (JArray (field :: _)) => scalar_or_object field "[]"
      | Some field => scalar_or_object field EmptyString
      end
  end.

Fixpoint recursivelyAddTypesToRoot (depth : nat) (rootType : string) (typeMap : eip_types) (prefix : string) (payload : json) :
    eip_result (string * eip_types) :=
  match depth with
  | O => Err EErrDepth
  | S depth =>
      sortedFieldNames ← sortedJSONKeys payload;
      '(typesToAdd, typeMap) ←
        add_fields (recursivelyAddTypesToRoot depth rootType) prefix payload sortedFieldNames [] typeMap;
      addTypesToRoot typeMap (typeDefForPrefix prefix rootType) typesToAdd
  end.

Definition addMsgTypeDefToTxSchema (typeMap : eip_types) (msgField msgTypeDef : string) : eip_types :=
  <["Tx" := default [] (typeMap !! "Tx") ++ [mkType msgField msgTypeDef]]> typeMap.

Definition msgRootType (msg : json) : eip_result string :=
  match ee_Get x msg "type" with
  | Some (JString msgType) =>
      if decide (msgType = EmptyString) then Err EErrType
      else Ok (typePrefix +:+ default EmptyString (last (split_at "/"%char msgType)))
  | _ => Err EErrType
  end.

(** [doRecover]: a panic is returned as an error. *)
Definition doRecover {A} (r : eip_result A) : eip_result A := match r with Panic => Err EErrMessage | _ => r end.

Definition addMsgTypesToRoot (typeMap : eip_types) (msgField : string) (msg : json) : eip_result eip_types :=
  doRecover (
    if IsObject msg then
      rootType ← msgRootType msg;
      '(msgTypeDef, typeMap) ← recursivelyAddTypesToRoot (json_depth msg) rootType typeMap rootPrefix msg;
      Ok (addMsgTypeDefToTxSchema typeMap msgField msgTypeDef)
    else Err EErrMessage).

Definition initial_types : eip_types :=
  {[ "EIP712Domain" := [mkType "name" "string"; mkType "version" "string"; mkType "chainId" "uint256";
                        mkType "verifyingContract" "string"; mkType "salt" "string"];
     "Tx" := [mkType "account_number" "string"; mkType "chain_id" "string"; mkType "fee" "Fee";
              mkType "memo" "string"; mkType "sequence" "string"];
     "Fee" := [mkType "amount" "Coin[]"; mkType "gas" "string"];
     "Coin" := [mkType "denom" "string"; mkType "amount" "string"] ]}%string.

Fixpoint add_msg_types (payload : json) (remaining i : nat) (typeMap : eip_types) : eip_result eip_types :=
  match remaining with
  | O => Ok typeMap
  | S remaining =>
      let field := msgFieldForIndex i in
      typeMap ← addMsgTypesToRoot typeMap field (default JNull (ee_Get x payload field));
      add_msg_types payload remaining (S i) typeMap
  end.

Definition createEIP712Types (payload : json) (numPayloadMsgs : nat) : eip_result eip_types :=
  add_msg_types payload numPayloadMsgs 0 initial_types.

(** ** Typed data: [domain.go], [eip712.go] *)

Definition createEIP712Domain (chainID : Z) : eip_domain :=
  mkDomain "Cosmos Web3" "1.0.0" (i64 chainID) "cosmos" "0".

Definition WrapTxToTypedData (chainID : Z) (data : list N) : eip_result typed_data :=
  '(payload, numPayloadMsgs, message) ← createEIP712MessagePayload data;
  types ← createEIP712Types payload numPayloadMsgs;
  Ok (mkTypedData types "Tx" (createEIP712Domain chainID) message).

(** ** Decoding of sign documents: [encoding.go] *)

Definition validateCodecInit : eip_result () := if ee_codecs x then Ok () else Err EErrCodec.

(** The messages after the first have the one signer of the first. *)
Fixpoint same_signer (msgSigner : Z) (msgs : list msg) : eip_result () :=
  match msgs with
  | [] => Ok ()
  | m :: rest =>
      match ee_Signers x m with
      | [signer] => if decide (msgSigner = signer) then same_signer msgSigner rest else Err EErrSigner
      | _ => Err EErrSigner
      end
  end.

Definition validatePayloadMessages (msgs : list msg) : eip_result () :=
  match msgs with
  | [] => Err EErrNoMessages
  | m :: rest => match ee_Signers x m with [signer] => same_signer signer rest | _ => Err EErrSigner end
  end.

Definition chain_number (chainID : string) : eip_result Z :=
  match ParseChainID chainID with Ok n => Ok (u64 n) | Err _ => Err EErrChainID | Panic => Panic end.

Definition decodeAminoSignDoc (signDocBytes : list N) : eip_result typed_data :=
  _ ← validateCodecInit;
  aminoDoc ← of_option EErrCodec (ee_AminoDoc x signDocBytes);
  _ ← validatePayloadMessages (sd_Msgs aminoDoc);
  chainID ← chain_number (sd_ChainID aminoDoc);
  WrapTxToTypedData chainID signDocBytes.

(** The bytes of the equal Amino document are wrapped; without a fee there is a nil
    dereference. *)
Definition decodeProtobufSignDoc (signDocBytes : list N) : eip_result typed_data :=
  _ ← validateCodecInit;
  doc ← of_option EErrCodec (ee_ProtoDoc x signDocBytes);
  let body := pd_Body doc in
  if negb (tb_TimeoutHeight body =? 0) || negb (tb_Options body =? 0)%nat then Err EErrUnsupported
  else match pd_Sequences doc with
       | [sequence] =>
           msgs ← of_option EErrCodec (tb_Messages body);
           _ ← validatePayloadMessages msgs;
           chainID ← chain_number (pd_ChainId doc);
           match pd_Fee doc with
           | None => Panic
           | Some fee =>
               WrapTxToTypedData chainID
                 (ee_StdSignBytes x (pd_ChainId doc) (pd_AccountNumber doc) sequence (tb_TimeoutHeight body) fee
                    msgs (tb_Memo body) (pd_Tip doc))
           end
       | _ => Err EErrSigner
       end.

(** The message is not empty, and neither are the types; the domain has a chain id. *)
Definition isValidEIP712Payload (td : typed_data) : bool :=
  match td_Message td with JObject (_ :: _) => true | _ => false end &&
  negb (bool_decide (td_Types td = ∅)) && negb (bool_decide (td_PrimaryType td = EmptyString)).

(** The first decoding that gives typed data which is not empty. *)
Definition GetEIP712TypedDataForMsg (signDocBytes : list N) : eip_result typed_data :=
  let protobuf :=
    match decodeProtobufSignDoc signDocBytes with
    | Ok td => if isValidEIP712Payload td then Ok td else Err EErrUndecodable
    | Err _ => Err EErrUndecodable
    | Panic => Panic
    end in
  match decodeAminoSignDoc signDocBytes with
  | Ok td => if isValidEIP712Payload td then Ok td else protobuf
  | Err _ => protobuf
  | Panic => Panic
  end.

Definition GetEIP712BytesForMsg (signDocBytes : list N) : eip_result (list N) :=
  td ← GetEIP712TypedDataForMsg signDocBytes; of_option EErrType (snd <$> ee_TypedDataAndHash x td).
End Eip712.

Arguments eip_env : clear implicits.
