(* ===== verification/Eip712Spec.v ===== *)
(** * What the typed data of a sign document promises: [ethereum/eip712]

    The types that are inferred from a sign document describe it: every value of the
    message has the type the definitions give it ([typed_data_conforms]), so the wallet
    and the node hash the same fields.  Flattening the messages loses nothing
    ([flatten_recovers]), and the order of the keys of an object does not matter
    ([sort_keys_unique]). *)

From Stdlib Require Import Ascii.
From S2P Require Import Prelude Decimal Json ChainID Eip712.

(** ** Names *)

(** The characters of the field names that Amino JSON has. *)
Definition word_char (c : ascii) : bool :=
  let n := N_of_ascii c in
  ((48 <=? n) && (n <=? 57) || (65 <=? n) && (n <=? 90) || (97 <=? n) && (n <=? 122))%N.

Fixpoint all_chars (p : ascii → bool) (s : string) : bool :=
  match s with EmptyString => true | String c s => p c && all_chars p s end.

Definition name_char (c : ascii) : bool := word_char c || Ascii.eqb "_" c.
Definition plain_key (k : string) : Prop := k ≠ EmptyString ∧ all_chars name_char k = true.

(** The first letter in upper case. *)
Definition capitalise (s : string) : string :=
  match s with
  | String c s => String (if ((97 <=? N_of_ascii c) && (N_of_ascii c <=? 122))%N then ascii_of_N (N_of_ascii c - 32) else c) s
  | EmptyString => EmptyString
  end.

Lemma all_chars_app p s t : all_chars p (s +:+ t) = all_chars p s && all_chars p t.
Proof. induction s as [|c s IH]; [done|]. rewrite append_cons. cbn [all_chars]. rewrite IH. by destruct (p c). Qed.

Lemma all_chars_impl (p q : ascii → bool) s :
  (∀ c, p c = true → q c = true) → all_chars p s = true → all_chars q s = true.
Proof.
  intros Hpq. induction s as [|c s IH]; [done|]. cbn. rewrite !andb_true_iff. intros [Hc Hs]. split; [by apply Hpq|by apply IH].
Qed.

Lemma all_chars_concat p l : Forall (λ s, all_chars p s = true) l → all_chars p (concat_strings l) = true.
Proof. induction 1 as [|s l Hs _ IH]; [done|]. cbn [concat_strings foldr]. by rewrite all_chars_app, Hs. Qed.

Lemma capitalise_word s : all_chars word_char s = true → all_chars word_char (capitalise s) = true.
Proof.
  destruct s as [|c s]; [done|]. cbn. rewrite !andb_true_iff. intros [Hc Hs]. split; [|done].
  destruct ((97 <=? N_of_ascii c) && (N_of_ascii c <=? 122))%N eqn:Hl; [|done]. unfold word_char.
  apply andb_true_iff in Hl as [Hl1%N.leb_le Hl2%N.leb_le]. rewrite N_ascii_embedding by lia.
  rewrite (proj2 (N.leb_le 65 _)), (proj2 (N.leb_le _ 90)) by lia. cbn. by rewrite orb_true_r.
Qed.

(** *** Splitting *)

Lemma split_none c s : all_chars (λ d, negb (Ascii.eqb c d)) s = true → split_at c s = [s].
Proof.
  induction s as [|d s IH]; [done|]. cbn. rewrite andb_true_iff. intros [Hd Hs]. rewrite (IH Hs).
  by destruct (Ascii.eqb c d).
Qed.

(** The parts have the characters of the string, but for the one it is split at. *)
Lemma split_parts c p s : all_chars p s = true → Forall (λ t, all_chars (λ d, p d && negb (Ascii.eqb c d)) t = true) (split_at c s).
Proof.
  induction s as [|d s IH]; cbn [all_chars split_at]; [by repeat constructor|]. rewrite andb_true_iff. intros [Hd Hs].
  specialize (IH Hs). destruct (Ascii.eqb c d) eqn:Hc; [by constructor|].
  destruct (split_at c s) as [|t l]; [repeat constructor; cbn; by rewrite Hd, Hc|].
  apply Forall_cons in IH as [Ht Hl]. constructor; [|done]. cbn. by rewrite Hd, Hc, Ht.
Qed.

(** ** Members of an object *)

Fixpoint member (m : list (string * json)) (k : string) : option json :=
  match m with
  | [] => None
  | (k', j) :: m => if decide (k' = k) then Some j else member m k
  end.

Lemma member_app m m' k : member (m ++ m') k = match member m k with Some j => Some j | None => member m' k end.
Proof. induction m as [|[k' j] m IH]; [done|]. cbn. by case_decide. Qed.

Lemma member_in m k j : member m k = Some j → (k, j) ∈ m.
Proof. induction m as [|[k' j'] m IH]; [done|]. cbn. case_decide; [intros [= ->]; subst; left|intros Hm; right; by apply IH]. Qed.

Lemma member_Some m k : k ∈ m.*1 → ∃ j, member m k = Some j.
Proof.
  induction m as [|[k' j] m IH]; [by intros ?%elem_of_nil|]. rewrite fmap_cons, elem_of_cons. cbn. intros [->|Hin].
  - exists j. by rewrite decide_True.
  - case_decide; [by eexists|by apply IH].
Qed.

Lemma member_None m k : member m k = None ↔ k ∉ m.*1.
Proof.
  split; [|destruct (member m k) as [j|] eqn:Hm; [|done]].
  - intros Hm Hin. apply member_Some in Hin as [j Hj]. congruence.
  - intros Hn. destruct Hn. apply member_in in Hm. by apply (list_elem_of_fmap_2 fst _ (k, j)).
Qed.

Lemma member_NoDup m k j : NoDup m.*1 → (k, j) ∈ m → member m k = Some j.
Proof.
  induction m as [|[k' j'] m IH]; [by intros _ ?%elem_of_nil|]. rewrite fmap_cons, NoDup_cons, elem_of_cons. cbn.
  intros [Hni Hnd] [[= -> ->]|Hin]; [by rewrite decide_True|].
  rewrite decide_False; [by apply IH|]. intros ->. by apply Hni, (list_elem_of_fmap_2 fst _ (k, j)).
Qed.

Lemma member_depth m k j : member m k = Some j → (json_depth j < json_depth (JObject m))%nat.
Proof.
  intros Hm%member_in. cbn. apply Nat.lt_succ_r. by apply (max_list_with_le (λ p, json_depth p.2) _ (k, j)).
Qed.

(** ** What is relied on *)

(** gjson and sjson take a name of letters, digits and underscores as the name of a
    member; a member that is set is added at the end.  Title casing turns the first letter
    of such a word into upper case, and without lower casing leaves the others. *)
Record eip_laws {msg} (x : eip_env msg) : Prop := {
  law_Get m k : plain_key k → ee_Get x (JObject m) k = member m k;
  law_SetRaw m k j : plain_key k → k ∉ m.*1 → ee_SetRaw x (JObject m) k j = Some (JObject (m ++ [(k, j)]));
  law_Delete m k : plain_key k → NoDup m.*1 → ee_Delete x (JObject m) k = Some (JObject (filter (λ p, p.1 ≠ k) m));
  law_Title s : all_chars word_char s = true → ee_Title x s = capitalise s
}.

(** ** Shapes and types *)

(** The shape of a value: arrays have elements of one shape, and no null occurs. *)
Inductive shape :=
| SBool
| SNumber
| SString
| SEmpty
| SList (s : shape)
| SObject (fields : list (string * shape)).

Definition element (s : shape) : bool := match s with SEmpty | SList _ => false | _ => true end.

Fixpoint has_shape (s : shape) (j : json) : Prop :=
  match s, j with
  | SBool, JBool _ | SNumber, JNumber _ | SString, JString _ | SEmpty, JArray [] => True
  | SList s, JArray (a :: l) => element s = true ∧ has_shape s a ∧ Forall (has_shape s) l
  | SObject fields, JObject m =>
      NoDup m.*1 ∧ Forall plain_key m.*1 ∧ m.*1 ≡ₚ fields.*1 ∧
      (fix go (fields : list (string * shape)) : Prop :=
         match fields with
         | [] => True
         | (k, s) :: fields => (∃ j, member m k = Some j ∧ has_shape s j) ∧ go fields
         end) fields
  | _, _ => False
  end.

Lemma has_shape_object fields m :
  has_shape (SObject fields) (JObject m) ↔
  NoDup m.*1 ∧ Forall plain_key m.*1 ∧ m.*1 ≡ₚ fields.*1 ∧
  ∀ k s, (k, s) ∈ fields → ∃ j, member m k = Some j ∧ has_shape s j.
Proof.
  cbn [has_shape]. do 3 (apply and_iff_compat_l). induction fields as [|[k s] fields IH].
  - split; [intros _ k s Hin; by apply elem_of_nil in Hin|done].
  - rewrite IH. split.
    + intros [H1 H2] k' s' [[= -> ->]|Hin]%elem_of_cons; [done|by apply H2].
    + intros Hall. split; [apply Hall; left|]. intros k' s' Hin. apply Hall. by right.
Qed.

(** A value of this shape has the type of this name: the members of an object are the
    fields of its definition, and each has its type.  An empty array has any array type. *)
Fixpoint typed (types : eip_types) (T : string) (s : shape) : Prop :=
  match s with
  | SBool => T = "bool"%string
  | SNumber => T = "int64"%string
  | SString => T = "string"%string
  | SEmpty => ∃ T', T = T' +:+ "[]"
  | SList s => ∃ T', T = T' +:+ "[]" ∧ typed types T' s
  | SObject fields =>
      ∃ defs, types !! T = Some defs ∧ NoDup (ty_Name <$> defs) ∧ (ty_Name <$> defs) ≡ₚ fields.*1 ∧
      (fix go (fields : list (string * shape)) : Prop :=
         match fields with
         | [] => True
         | (k, s) :: fields => (∃ T', mkType k T' ∈ defs ∧ typed types T' s) ∧ go fields
         end) fields
  end.

Lemma typed_object types T fields :
  typed types T (SObject fields) ↔
  ∃ defs, types !! T = Some defs ∧ NoDup (ty_Name <$> defs) ∧ (ty_Name <$> defs) ≡ₚ fields.*1 ∧
    ∀ k s, (k, s) ∈ fields → ∃ T', mkType k T' ∈ defs ∧ typed types T' s.
Proof.
  cbn [typed]. apply exist_proper. intros defs. do 3 (apply and_iff_compat_l). induction fields as [|[k s] fields IH].
  - split; [intros _ k s Hin; by apply elem_of_nil in Hin|done].
  - rewrite IH. split.
    + intros [H1 H2] k' s' [[= -> ->]|Hin]%elem_of_cons; [done|by apply H2].
    + intros Hall. split; [apply Hall; left|]. intros k' s' Hin. apply Hall. by right.
Qed.

Fixpoint shape_size (s : shape) : nat :=
  match s with
  | SList s => S (shape_size s)
  | SObject fields => S (max_list_with (λ p, shape_size p.2) fields)
  | _ => 0
  end.

(** The objects for which a definition is made. *)
Fixpoint shape_objects (s : shape) : nat :=
  match s with
  | SList s => shape_objects s
  | SObject fields => S (sum_list_with (λ p, shape_objects p.2) fields)
  | _ => 0
  end.

Lemma field_size fields k s : (k, s) ∈ fields → (shape_size s < shape_size (SObject fields))%nat.
Proof. intros Hin. cbn. apply Nat.lt_succ_r. by apply (max_list_with_le (λ p, shape_size p.2) _ (k, s)). Qed.

(** More definitions change no type. *)
Lemma typed_mono types types' T s : types ⊆ types' → typed types T s → typed types' T s.
Proof.
  intros Hsub. remember (shape_size s) as n eqn:Hn. revert s Hn T. induction n as [n IH] using lt_wf_ind.
  intros s -> T. destruct s as [| | | |s|fields]; try done.
  - intros (T' & -> & Ht). exists T'. split; [done|]. apply (IH (shape_size s)); [cbn; lia|done..].
  - rewrite !typed_object. intros (defs & Hd & Hnd & Hp & Hall). exists defs. split; [by eapply lookup_weaken|].
    split; [done|]. split; [done|]. intros k s Hin. destruct (Hall k s Hin) as (T' & HT & Ht). exists T'. split; [done|].
    apply (IH (shape_size s)); [by eapply field_size|done..].
Qed.

(** ** Names of types *)

Section Types.
Context {msg : Type} (x : eip_env msg) (XL : eip_laws x).

Lemma name_dot c : name_char c = true → negb (Ascii.eqb "." c) = true.
Proof. intros Hn. destruct (Ascii.eqb_spec "." c) as [<-|]; [by vm_compute in Hn|done]. Qed.

Lemma word_under c : word_char c = true → negb (Ascii.eqb "_" c) = true.
Proof. intros Hn. destruct (Ascii.eqb_spec "_" c) as [<-|]; [by vm_compute in Hn|done]. Qed.

Lemma word_name c : word_char c = true → name_char c = true.
Proof. unfold name_char. by intros ->. Qed.

(** The characters of prefixes. *)
Definition path_char (c : ascii) : bool := name_char c || Ascii.eqb "." c.

(** Sanitizing leaves words. *)
Lemma sanitize_words s : all_chars path_char s = true → all_chars word_char (sanitizeTypedef x s) = true.
Proof.
  intros Hs%(split_parts "."%char). apply all_chars_concat. apply Forall_fmap. eapply Forall_impl; [exact Hs|].
  intros part Hp. unfold compose in *. cbn beta in *. case_decide; [done|].
  assert (all_chars name_char part = true) as Hn.
  { eapply all_chars_impl; [|exact Hp]. intros c Hc. unfold path_char in Hc. by destruct (name_char c), (Ascii.eqb "." c). }
  apply (split_parts "_"%char) in Hn. apply all_chars_concat, Forall_fmap. eapply Forall_impl; [exact Hn|].
  intros t Ht. unfold compose. cbn beta in *. assert (all_chars word_char t = true) as Hw.
  { eapply all_chars_impl; [|exact Ht]. intros c Hc. unfold name_char in Hc. by destruct (word_char c), (Ascii.eqb "_" c). }
  rewrite (law_Title x XL) by done. by apply capitalise_word.
Qed.

(** A word that starts with [Type] is as it should be. *)
Lemma sanitize_typed_word w : all_chars word_char w = true → sanitizeTypedef x (typePrefix +:+ w) = typePrefix +:+ w.
Proof.
  intros Hw. assert (all_chars word_char (typePrefix +:+ w) = true) as Ht by (by rewrite all_chars_app, Hw).
  unfold sanitizeTypedef. rewrite split_none.
  2: { eapply all_chars_impl; [|exact Ht]. intros c Hc. by apply name_dot, word_name. }
  rewrite list_fmap_singleton, decide_False by (by destruct w). rewrite split_none by (by eapply all_chars_impl; [apply word_under|]).
  rewrite list_fmap_singleton, (law_Title x XL) by done. cbn [concat_strings foldr]. by rewrite !append_empty.
Qed.

(** A prefix below the root, for which the name starts with [Type]. *)
Definition below_root (prefix : string) : Prop := ∃ rest, prefix = "_." +:+ rest ∧ all_chars path_char rest = true.

Lemma sanitize_below prefix : below_root prefix → ∃ w, sanitizeTypedef x prefix = typePrefix +:+ w ∧ all_chars word_char w = true.
Proof.
  intros (rest & -> & Hr). exists (sanitizeTypedef x rest). split; [|by apply sanitize_words]. done.
Qed.

Lemma below_root_sub prefix k : prefix = rootPrefix ∨ below_root prefix → plain_key k → below_root (prefixForSubField prefix k).
Proof.
  intros Hp [_ Hk]. assert (all_chars path_char k = true) as Hk'.
  { eapply all_chars_impl; [|exact Hk]. intros c Hc. unfold path_char. by rewrite Hc. }
  destruct Hp as [->|(rest & -> & Hr)]; [by exists k|]. exists (rest +:+ "." +:+ k). split.
  - unfold prefixForSubField. by rewrite <-append_assoc.
  - by rewrite !all_chars_app, Hr, Hk'.
Qed.

(** ** Adding definitions *)

(** Definitions are added, but none to the transaction itself. *)
Definition grows (types types' : eip_types) : Prop :=
  delete "Tx"%string types ⊆ delete "Tx"%string types' ∧ types' !! "Tx"%string = types !! "Tx"%string.

#[local] Instance grows_preorder : PreOrder grows.
Proof.
  split; [done|]. intros a b c [H1 H2] [H3 H4]. split; [by trans (delete "Tx"%string b)|congruence].
Qed.

Lemma grows_typed types types' T s :
  grows types types' → typed (delete "Tx"%string types) T s → typed (delete "Tx"%string types') T s.
Proof. intros [Hg _]. by apply typed_mono. Qed.

Lemma grows_insert types T defs : types !! T = None → T ≠ "Tx"%string → grows types (<[T := defs]> types).
Proof.
  intros Hn Hne. split; [|by rewrite lookup_insert_ne by done].
  rewrite delete_insert_ne by done. apply insert_subseteq. by rewrite lookup_delete_ne by done.
Qed.

Lemma typesAreEqual_eq l l' : typesAreEqual l l' = true → l = l'.
Proof.
  unfold typesAreEqual. rewrite andb_true_iff. intros [Hlen%Nat.eqb_eq Hf]. revert l' Hlen Hf.
  induction l as [|[n t] l IH]; intros [|[n' t'] l'] Hlen; try done. cbn. rewrite !andb_true_iff, !bool_decide_eq_true.
  cbn. intros [[-> ->] Hf]. f_equal. apply IH; [by injection Hlen|done].
Qed.

Lemma typesAreEqual_refl l : typesAreEqual l l = true.
Proof.
  unfold typesAreEqual. rewrite Nat.eqb_refl. cbn. induction l as [|[n t] l IH]; [done|]. cbn.
  by rewrite !bool_decide_true.
Qed.

Definition type_name (T : string) : Prop := ∃ w, T = typePrefix +:+ w.
Definition type_word (T : string) : Prop := ∃ w, T = typePrefix +:+ w ∧ all_chars word_char w = true.

Lemma type_name_Tx T : type_name T → T ≠ "Tx"%string.
Proof. by intros [w ->]. Qed.

Lemma FormatUint_word n : 0 <= n → all_chars word_char (FormatUint n) = true.
Proof.
  intros Hn. unfold FormatUint. pose proof (digits_rev_range 64 n Hn) as Hr. apply Forall_reverse in Hr.
  induction Hr as [|d l Hd _ IH]; [done|]. cbn [map String.string_of_list_ascii all_chars]. rewrite IH, andb_true_r.
  unfold word_char, digit_char. rewrite N_ascii_embedding by lia.
  rewrite (proj2 (N.leb_le 48 _)), (proj2 (N.leb_le _ 57)) by lia. done.
Qed.

Lemma type_name_index T i : type_name T → type_name (typeDefWithIndex T i).
Proof. intros [w ->]. eexists. unfold typeDefWithIndex. by rewrite <-append_assoc. Qed.

Lemma type_word_index T i : type_word T → type_word (typeDefWithIndex T i).
Proof.
  intros (w & -> & Hw). exists (w +:+ FormatUint (Z.of_nat i)). unfold typeDefWithIndex. rewrite <-append_assoc.
  split; [done|]. by rewrite all_chars_app, Hw, FormatUint_word by lia.
Qed.

(** When every name is taken there are many definitions. *)
Lemma names_taken (rounds : nat) (typeMap : eip_types) T :
  Z.of_nat rounds < 2 ^ 64 → (∀ j, (j < rounds)%nat → is_Some (typeMap !! typeDefWithIndex T j)) → (rounds <= size typeMap)%nat.
Proof.
  intros Hr Htaken. set (l := typeDefWithIndex T <$> seq 0 rounds).
  assert (NoDup l) as Hnd.
  { apply NoDup_alt. intros i j k Hi Hj. apply list_lookup_fmap_Some in Hi as (a & -> & [-> Ha]%lookup_seq),
      Hj as (b & Heq & [-> Hb]%lookup_seq). apply append_inj, FormatUint_inj in Heq; lia. }
  replace rounds with (size (list_to_set l : gset string)).
  2: { rewrite size_list_to_set by done. unfold l. by rewrite length_fmap, length_seq. }
  rewrite <-(size_dom (D := gset string)). apply subseteq_size. intros k. rewrite elem_of_list_to_set. unfold l.
  intros (j & -> & Hj)%list_elem_of_fmap. apply elem_of_dom, Htaken. apply elem_of_seq in Hj. lia.
Qed.

Lemma find_typedef_taken rounds typeMap T types i :
  find_typedef rounds typeMap T types i = Err EErrDuplicates →
  ∀ j, (i <= j < i + rounds)%nat → is_Some (typeMap !! typeDefWithIndex T j).
Proof.
  revert i. induction rounds as [|rounds IH]; intros i Hf j Hj; [lia|]. cbn [find_typedef] in Hf.
  destruct (typeMap !! typeDefWithIndex T i) as [e|] eqn:He; [|done]. destruct (typesAreEqual types e); [done|].
  destruct (decide (j = i)) as [->|Hne]; [by rewrite He|]. apply (IH (S i) Hf). lia.
Qed.

(** The key that is returned has the types, under a name with an index. *)
Lemma find_typedef_spec rounds typeMap T types i :
  type_name T → find_typedef rounds typeMap T types i = Err EErrDuplicates ∨
  ∃ j typeMap', find_typedef rounds typeMap T types i = Ok (typeDefWithIndex T j, typeMap') ∧ grows typeMap typeMap' ∧
    (size typeMap' <= S (size typeMap))%nat ∧ typeMap' !! typeDefWithIndex T j = Some types.
Proof.
  intros HT. revert i. induction rounds as [|rounds IH]; intros i; cbn [find_typedef]; [by left|].
  destruct (typeMap !! typeDefWithIndex T i) as [existing|] eqn:He.
  - destruct (typesAreEqual types existing) eqn:Heq; [|apply IH]. apply typesAreEqual_eq in Heq as ->.
    right. exists i, typeMap. split_and!; [done..|lia|done].
  - right. exists i, (<[typeDefWithIndex T i := types]> typeMap). split; [done|].
    split; [apply grows_insert; [done|]; by apply type_name_Tx, type_name_index|].
    split; [by rewrite map_size_insert_None|by rewrite lookup_insert_eq].
Qed.

Lemma addTypes_spec typeMap T types :
  type_name T → addTypesToRoot typeMap T types = Err EErrDuplicates ∧ (maxDuplicateTypeDefs <= size typeMap)%nat ∨
  ∃ j typeMap', addTypesToRoot typeMap T types = Ok (typeDefWithIndex T j, typeMap') ∧ grows typeMap typeMap' ∧
    (size typeMap' <= S (size typeMap))%nat ∧ typeMap' !! typeDefWithIndex T j = Some types.
Proof.
  intros HT. unfold addTypesToRoot. destruct (find_typedef_spec maxDuplicateTypeDefs typeMap T types 0 HT) as [Herr|Hok]; [left|by right].
  split; [done|]. apply (names_taken _ _ T); [vm_compute; reflexivity|].
  intros j Hj. apply (find_typedef_taken _ _ _ _ _ Herr). lia.
Qed.

(** At most [n] definitions are added to a map that is not too large, as it is when the
    names of a definition are used up. *)
Definition too_many {A} (typeMap : eip_types) (n : nat) (r : outcome eip_error A) : Prop :=
  r = Err EErrDuplicates ∧ (maxDuplicateTypeDefs <= size typeMap + n)%nat.
Definition added (typeMap : eip_types) (n : nat) (typeMap' : eip_types) : Prop :=
  grows typeMap typeMap' ∧ (size typeMap' <= size typeMap + n)%nat.

Lemma added_trans a n b k c : added a n b → added b k c → added a (n + k) c.
Proof. intros [H1 H2] [H3 H4]. split; [by trans b|lia]. Qed.

Lemma too_many_after {A B} a n b k (r : outcome eip_error A) (r' : outcome eip_error B) :
  added a n b → too_many b k r → r' = Err EErrDuplicates → too_many a (n + k) r'.
Proof. intros [_ H1] [_ H2] Hr. split; [done|lia]. Qed.

(** What the types of a value become: the definitions grow and give it the type that is
    returned, or there are too many definitions. *)
Definition adds (typeMap : eip_types) (s : shape) (P : string → Prop) (r : outcome eip_error (string * eip_types)) : Prop :=
  too_many typeMap (shape_objects s) r ∨
  ∃ T typeMap', r = Ok (T, typeMap') ∧ added typeMap (shape_objects s) typeMap' ∧ typed (delete "Tx"%string typeMap') T s ∧ P T.

Section Fields.
Context (add_object : eip_types → string → json → outcome eip_error (string * eip_types)).
Context (prefix : string) (m : list (string * json)) (d : nat).
Hypothesis add_object_spec : ∀ typeMap k fields f, plain_key k → has_shape (SObject fields) f → (json_depth f <= d)%nat →
  adds typeMap (SObject fields) type_word (add_object typeMap (prefixForSubField prefix k) f).

Abbreviation add := (add_fields x add_object prefix (JObject m)).

(** One field gets a type. *)
Definition field_added (k : string) (s : shape) (names : list string) (acc : list eip_type) (typeMap : eip_types) : Prop :=
  too_many typeMap (shape_objects s) (add (k :: names) acc typeMap) ∨
  ∃ T typeMap', add (k :: names) acc typeMap = add names (acc ++ [mkType k T]) typeMap' ∧ added typeMap (shape_objects s) typeMap' ∧
    typed (delete "Tx"%string typeMap') T s.

(** An object, alone or as the first of an array. *)
Lemma object_added k fields f suffix s names acc typeMap :
  plain_key k → has_shape (SObject fields) f → (json_depth f <= d)%nat → shape_objects s = shape_objects (SObject fields) →
  (∀ types T, typed types T (SObject fields) → typed types (T +:+ suffix) s) →
  add (k :: names) acc typeMap =
    ('(fieldTypeDef, typeMap) ← add_object typeMap (prefixForSubField prefix k) f;
     add names (acc ++ [mkType k (sanitizeTypedef x fieldTypeDef +:+ suffix)]) typeMap) →
  field_added k s names acc typeMap.
Proof.
  intros Hk Hs Hd Hn Hsuf Heq. unfold field_added. rewrite Heq, Hn.
  destruct (add_object_spec typeMap k fields f Hk Hs Hd) as [[-> Hm]|(T & typeMap' & -> & Hg & Ht & (w & -> & Hw))]; [by left|].
  right. rewrite Ok_bind, sanitize_typed_word by done. by exists ((typePrefix +:+ w) +:+ suffix), typeMap'; auto.
Qed.

Lemma scalar_added k T s names acc typeMap :
  typed (delete "Tx"%string typeMap) T s → add (k :: names) acc typeMap = add names (acc ++ [mkType k T]) typeMap →
  field_added k s names acc typeMap.
Proof. intros Ht Heq. right. exists T, typeMap. split_and!; [done| |done]. split; [done|lia]. Qed.

Lemma add_field k s j names acc typeMap :
  plain_key k → member m k = Some j → has_shape s j → (json_depth j <= d)%nat → field_added k s names acc typeMap.
Proof.
  intros Hk Hm Hs Hd. pose proof (law_Get x XL m k Hk) as Hget. rewrite Hm in Hget.
  destruct s as [| | | |s|fields].
  - destruct j; try done. apply (scalar_added _ "bool"); [done|]. cbn [add_fields]. by rewrite Hget.
  - destruct j; try done. apply (scalar_added _ "int64"); [done|]. cbn [add_fields]. by rewrite Hget.
  - destruct j; try done. apply (scalar_added _ "string"); [done|]. cbn [add_fields]. by rewrite Hget.
  - destruct j as [| | | |[|]|]; try done. apply (scalar_added _ "string[]"); [by exists "string"%string|].
    cbn [add_fields]. by rewrite Hget.
  - destruct j as [| | | |[|a l]|]; try done. destruct Hs as (He & Ha & _).
    assert (∀ types T, typed types T s → typed types (T +:+ "[]") (SList s)) as Hl by (intros types T Ht; by exists T).
    assert (json_depth a <= d)%nat as Hda by (cbn in Hd; lia).
    destruct s as [| | | |s|fields]; try done.
    + destruct a; try done. apply (scalar_added _ "bool[]"); [by apply (Hl _ "bool"%string)|]. cbn [add_fields]. by rewrite Hget.
    + destruct a; try done. apply (scalar_added _ "int64[]"); [by apply (Hl _ "int64"%string)|]. cbn [add_fields]. by rewrite Hget.
    + destruct a; try done. apply (scalar_added _ "string[]"); [by apply (Hl _ "string"%string)|]. cbn [add_fields]. by rewrite Hget.
    + eapply (object_added k fields a "[]"); [done..|]. destruct a; try done. cbn [add_fields]. by rewrite Hget.
  - apply (object_added k fields j EmptyString); [done..| |].
    + intros types T Ht. by rewrite append_empty.
    + destruct j; try done. cbn [add_fields]. by rewrite Hget.
Qed.

(** All of them, in their order. *)
Lemma add_fields_spec fields acc typeMap :
  let n := sum_list_with (λ p, shape_objects p.2) fields in
  (∀ k s, (k, s) ∈ fields → plain_key k ∧ ∃ j, member m k = Some j ∧ has_shape s j ∧ (json_depth j <= d)%nat) →
  too_many typeMap n (add fields.*1 acc typeMap) ∨
  ∃ new typeMap', add fields.*1 acc typeMap = Ok (acc ++ new, typeMap') ∧ added typeMap n typeMap' ∧
    (ty_Name <$> new) = fields.*1 ∧
    ∀ k s, (k, s) ∈ fields → ∃ T, mkType k T ∈ new ∧ typed (delete "Tx"%string typeMap') T s.
Proof.
  cbn zeta. revert acc typeMap. induction fields as [|[k s] fields IH]; intros acc typeMap Hf.
  { right. exists [], typeMap. rewrite app_nil_r. split_and!; [done|split; [done|lia]|done|].
    intros k s Hk. by apply elem_of_nil in Hk. }
  destruct (Hf k s (list_elem_of_here _ _)) as (Hp & j & Hm & Hs & Hd). rewrite fmap_cons. cbn [fst].
  destruct (add_field k s j fields.*1 acc typeMap Hp Hm Hs Hd) as [[-> Hmax]|(T & typeMap1 & -> & Hg & Ht)].
  { left. split; [done|]. cbn. lia. }
  destruct (IH (acc ++ [mkType k T]) typeMap1) as [Hmax|(new & typeMap2 & -> & Hg2 & Hn & Hall)].
  { intros k' s' Hk'. apply Hf. by right. }
  { left. eapply too_many_after; [exact Hg|exact Hmax|apply Hmax]. }
  right. exists (mkType k T :: new), typeMap2. rewrite <-(assoc_L (++)). split; [done|].
  split; [by eapply added_trans|]. split; [by rewrite fmap_cons, Hn|]. intros k' s' [[= -> ->]|Hk']%elem_of_cons.
  - exists T. split; [left|]. by eapply grows_typed; [apply Hg2|].
  - destruct (Hall k' s' Hk') as (T' & HT & Ht'). exists T'. split; [by right|done].
Qed.
End Fields.

(** *** The order of the keys *)

#[local] Instance ge_string_anti_symm : AntiSymm eq (flip String.le).
Proof. intros s t H1 H2. by apply (anti_symm String.le). Qed.
#[local] Instance ge_string_total : Total (flip String.le).
Proof. intros s t. apply (total String.le). Qed.
#[local] Instance ge_string_trans : Transitive (flip String.le).
Proof. intros s t u H1 H2. by trans t. Qed.

Lemma sort_keys_perm keys : NoDup keys → sort_keys (remove_dups keys) ≡ₚ keys.
Proof.
  intros Hnd. unfold sort_keys. rewrite merge_sort_Permutation. apply NoDup_Permutation; [apply NoDup_remove_dups|done|].
  intros k. apply elem_of_remove_dups.
Qed.

(** The order of the members of an object does not matter. *)
Lemma sort_keys_unique keys keys' : NoDup keys → keys ≡ₚ keys' → sort_keys (remove_dups keys) = sort_keys (remove_dups keys').
Proof.
  intros Hnd Hp. assert (NoDup keys') as Hnd' by (by rewrite <-Hp).
  apply (StronglySorted_unique (flip String.le)); [apply (StronglySorted_merge_sort _)..|].
  by rewrite !sort_keys_perm.
Qed.

(** ** A message *)

Definition names_ok (rootType prefix : string) : Prop := prefix = rootPrefix ∧ type_name rootType ∨ below_root prefix.

Lemma typeDef_name rootType prefix : names_ok rootType prefix → type_name (typeDefForPrefix x prefix rootType).
Proof.
  intros [[-> HT]|Hb]; unfold typeDefForPrefix; [done|].
  rewrite decide_False by (by destruct Hb as (rest & -> & _)). destruct (sanitize_below prefix Hb) as (w & -> & _). by exists w.
Qed.

Lemma typeDef_word rootType prefix i : below_root prefix → type_word (typeDefWithIndex (typeDefForPrefix x prefix rootType) i).
Proof.
  intros Hb. apply type_word_index. unfold typeDefForPrefix. rewrite decide_False by (by destruct Hb as (rest & -> & _)).
  by apply sanitize_below.
Qed.

(** The recursion does not run out of depth, and gives an object the type it returns. *)
Lemma types_added depth rootType typeMap prefix payload fields :
  has_shape (SObject fields) payload → (json_depth payload <= depth)%nat → names_ok rootType prefix →
  adds typeMap (SObject fields) (λ T, type_name T ∧ (below_root prefix → type_word T))
    (recursivelyAddTypesToRoot x depth rootType typeMap prefix payload).
Proof.
  revert typeMap prefix payload fields. induction depth as [|depth IH]; intros typeMap prefix payload fields Hs Hd Hn;
    destruct payload as [| | | | |m]; try done; [cbn in Hd; lia|].
  pose proof Hs as (Hnd & Hpk & Hperm & Hf)%has_shape_object.
  assert (sort_keys (remove_dups m.*1) ≡ₚ fields.*1) as Hnames by (by rewrite sort_keys_perm).
  apply Permutation_map_inv in Hnames as (sorted & Hsort & Hps). change (map fst sorted) with (sorted.*1) in Hsort.
  cbn [recursivelyAddTypesToRoot sortedJSONKeys]. rewrite Ok_bind, Hsort.
  assert (shape_objects (SObject fields) = S (sum_list_with (λ p, shape_objects p.2) sorted)) as Hcost by (cbn; by rewrite Hps).
  destruct (add_fields_spec (recursivelyAddTypesToRoot x depth rootType) prefix m depth) with sorted (@nil eip_type) typeMap
    as [[-> Hmax]|(new & typeMap1 & -> & Hg & Hnew & Hall)].
  - intros tm k fs f Hk Hfs Hdf.
    assert (below_root (prefixForSubField prefix k)) as Hb by (apply below_root_sub; [destruct Hn as [[? ?]|?]; auto|done]).
    destruct (IH tm _ f fs Hfs Hdf (or_intror Hb)) as [Hmax|(T & tm' & -> & Hg & Ht & _ & Hw)]; [by left|right].
    exists T, tm'. auto.
  - intros k s Hks. rewrite <-Hps in Hks. assert (k ∈ m.*1) as Hkm by (rewrite Hperm; by apply (list_elem_of_fmap_2 fst _ (k, s))).
    rewrite Forall_forall in Hpk. split; [by apply Hpk|]. destruct (Hf k s Hks) as (j & Hm & Hj). exists j. split; [done|].
    split; [done|]. apply member_depth in Hm. lia.
  - left. split; [done|]. rewrite Hcost. lia.
  - rewrite Ok_bind. destruct (addTypes_spec typeMap1 (typeDefForPrefix x prefix rootType) new)
      as [[Herr Hmax]|(i & typeMap2 & Hok & Hg2 & Hsz & Hl)]; [by apply typeDef_name|left|right].
    { split; [done|]. destruct Hg. lia. }
    eexists _, typeMap2. split; [exact Hok|]. split.
    { rewrite Hcost. split; [trans typeMap1; [apply Hg|done]|]. destruct Hg. lia. }
    split; [|split; [by apply type_name_index, typeDef_name|by apply typeDef_word]].
    apply typed_object. exists new. rewrite lookup_delete_ne by (symmetry; by apply type_name_Tx, type_name_index, typeDef_name).
    rewrite Hnew, <-Hsort, sort_keys_perm by done. do 3 (split; [done|]). intros k s Hks.
    rewrite Hps in Hks. destruct (Hall k s Hks) as (T & HT & Ht). exists T. split; [done|by eapply grows_typed].
Qed.

(** A message has a type, which is a string. *)
Definition message (fields : list (string * shape)) (j : json) : Prop :=
  has_shape (SObject fields) j ∧ ∃ m t, j = JObject m ∧ member m "type" = Some (JString t) ∧ t ≠ EmptyString.

Lemma plain_type : plain_key "type".
Proof. by split. Qed.
Lemma plain_msgs : plain_key "msgs".
Proof. by split. Qed.
Lemma plain_field i : plain_key (msgFieldForIndex i).
Proof.
  split; [done|]. unfold msgFieldForIndex. rewrite all_chars_app. cbn.
  eapply all_chars_impl; [apply word_name|]. apply FormatUint_word. lia.
Qed.

Lemma message_added typeMap txDefs field fields j :
  message fields j → typeMap !! "Tx"%string = Some txDefs →
  too_many typeMap (shape_objects (SObject fields)) (addMsgTypesToRoot x typeMap field j) ∨
  ∃ T typeMap', addMsgTypesToRoot x typeMap field j = Ok typeMap' ∧
    delete "Tx"%string typeMap ⊆ delete "Tx"%string typeMap' ∧ (size typeMap' <= size typeMap + shape_objects (SObject fields))%nat ∧
    typeMap' !! "Tx"%string = Some (txDefs ++ [mkType field T]) ∧ typed (delete "Tx"%string typeMap') T (SObject fields).
Proof.
  intros (Hs & m & t & -> & Hm & Ht) Htx. unfold addMsgTypesToRoot, msgRootType. cbn [IsObject].
  rewrite (law_Get x XL m "type" plain_type), Hm, decide_False, Ok_bind by done. set (root := typePrefix +:+ _).
  destruct (types_added (json_depth (JObject m)) root typeMap rootPrefix (JObject m) fields Hs)
    as [[-> Hmax]|(T & typeMap1 & -> & [[Hg Hgt] Hsz] & HT & _)]; [done|left; split; [done|by eexists]|by left|right].
  rewrite Ok_bind. eexists T, _. split; [done|]. unfold addMsgTypeDefToTxSchema. rewrite Hgt, Htx. cbn [default from_option id].
  rewrite delete_insert_eq, lookup_insert_eq. split_and!; [done| |done..].
  rewrite map_size_insert_Some by (rewrite Hgt; by eexists). done.
Qed.

(** ** The messages *)

Fixpoint msg_fields (i : nat) (shapes : list (list (string * shape))) : list (string * shape) :=
  match shapes with
  | [] => []
  | fields :: shapes => (msgFieldForIndex i, SObject fields) :: msg_fields (S i) shapes
  end.

Fixpoint msg_members (i : nat) (msgs : list json) : list (string * json) :=
  match msgs with
  | [] => []
  | msg :: msgs => (msgFieldForIndex i, msg) :: msg_members (S i) msgs
  end.

Definition doc_objects (shapes : list (list (string * shape))) : nat := sum_list_with (λ fields, shape_objects (SObject fields)) shapes.

Lemma messages_added payload shapes msgs i typeMap txDefs :
  Forall2 message shapes msgs → (∀ k j, (k, j) ∈ msg_members i msgs → ee_Get x payload k = Some j) →
  typeMap !! "Tx"%string = Some txDefs →
  too_many typeMap (doc_objects shapes) (add_msg_types x payload (length msgs) i typeMap) ∨
  ∃ new typeMap', add_msg_types x payload (length msgs) i typeMap = Ok typeMap' ∧
    delete "Tx"%string typeMap ⊆ delete "Tx"%string typeMap' ∧ typeMap' !! "Tx"%string = Some (txDefs ++ new) ∧
    (ty_Name <$> new) = (msg_fields i shapes).*1 ∧
    ∀ k s, (k, s) ∈ msg_fields i shapes → ∃ T, mkType k T ∈ new ∧ typed (delete "Tx"%string typeMap') T s.
Proof.
  intros Hall. revert i typeMap txDefs. induction Hall as [|fields j shapes msgs Hm _ IH]; intros i typeMap txDefs Hget Htx.
  { right. exists [], typeMap. rewrite app_nil_r. split_and!; [done..|]. intros k s Hk. by apply elem_of_nil in Hk. }
  cbn [length add_msg_types]. rewrite (Hget (msgFieldForIndex i) j) by left. cbn [default from_option id].
  destruct (message_added typeMap txDefs (msgFieldForIndex i) fields j Hm Htx)
    as [[-> Hmax]|(T & typeMap1 & -> & Hg & Hsz & Htx1 & HT)].
  { left. split; [done|]. unfold doc_objects in *. cbn in *. lia. }
  rewrite Ok_bind. destruct (IH (S i) typeMap1 (txDefs ++ [mkType (msgFieldForIndex i) T]))
    as [[-> Hmax]|(new & typeMap2 & -> & Hg2 & Htx2 & Hn & Hall)]; [|done|left|right].
  { intros k j' Hk. apply Hget. by right. }
  { split; [done|]. unfold doc_objects in *. cbn in *. lia. }
  exists (mkType (msgFieldForIndex i) T :: new), typeMap2. rewrite <-(assoc_L (++)) in Htx2.
  split; [done|]. split; [by trans (delete "Tx"%string typeMap1)|]. split; [done|]. split; [by rewrite fmap_cons, Hn|].
  intros k s [[= -> ->]|Hk]%elem_of_cons.
  - exists T. split; [left|]. by eapply typed_mono.
  - destruct (Hall k s Hk) as (T' & HT' & Ht'). exists T'. split; [by right|done].
Qed.

(** ** Flattening *)

Lemma filter_all {A} (P : A → Prop) `{∀ a, Decision (P a)} (l : list A) : Forall P l → filter P l = l.
Proof. induction 1 as [|a l Ha _ IH]; [done|]. by rewrite filter_cons_True, IH. Qed.

Lemma msg_field_inj i j : Z.of_nat i < 2 ^ 64 → Z.of_nat j < 2 ^ 64 → msgFieldForIndex i = msgFieldForIndex j → i = j.
Proof. intros Hi Hj Heq%append_inj. apply FormatUint_inj in Heq; lia. Qed.

Lemma msg_fields_keys i shapes msgs : length shapes = length msgs → (msg_fields i shapes).*1 = (msg_members i msgs).*1.
Proof. revert i msgs. induction shapes as [|s shapes IH]; intros i [|j msgs] Hl; try done. cbn. f_equal. apply IH. by injection Hl. Qed.

Lemma msg_members_key i msgs k : k ∈ (msg_members i msgs).*1 → ∃ j, k = msgFieldForIndex j ∧ (i <= j < i + length msgs)%nat.
Proof.
  revert i. induction msgs as [|m msgs IH]; intros i; [by intros ?%elem_of_nil|]. cbn. rewrite elem_of_cons. intros [->|Hk].
  - exists i. split; [done|]. lia.
  - destruct (IH (S i) Hk) as (j & -> & Hj). exists j. split; [done|]. lia.
Qed.

Lemma msg_members_NoDup i msgs : Z.of_nat (i + length msgs) < 2 ^ 64 → NoDup (msg_members i msgs).*1.
Proof.
  revert i. induction msgs as [|m msgs IH]; intros i Hl; [constructor|]. cbn in *. apply NoDup_cons. split; [|apply IH; lia].
  intros (j & Heq & Hj)%msg_members_key. apply msg_field_inj in Heq; lia.
Qed.

Lemma msg_members_lookup i msgs n j : msgs !! n = Some j → (msgFieldForIndex (i + n), j) ∈ msg_members i msgs.
Proof.
  revert i n. induction msgs as [|m msgs IH]; intros i [|n]; try done; cbn.
  - intros [= ->]. rewrite Nat.add_0_r. left.
  - intros Hn. right. replace (i + S n)%nat with (S i + n)%nat by lia. by apply IH.
Qed.

Lemma add_messages_spec m msgs i :
  Forall (λ j, IsObject j = true) msgs → Z.of_nat (i + length msgs) < 2 ^ 64 →
  (∀ k, k ∈ (msg_members i msgs).*1 → k ∉ m.*1) →
  add_messages x (JObject m) msgs i = Ok (JObject (m ++ msg_members i msgs)).
Proof.
  intros Hobj. revert m i. induction Hobj as [|j msgs Hj _ IH]; intros m i Hl Hk; cbn [add_messages msg_members]; [by rewrite app_nil_r|].
  unfold payloadWithNewMessage. rewrite (law_Get x XL) by apply plain_field.
  assert (msgFieldForIndex i ∉ m.*1) as Hni by (apply Hk; left).
  rewrite (proj2 (member_None m _) Hni), Hj, (law_SetRaw x XL) by (done || apply plain_field). cbn [of_option]. rewrite Ok_bind.
  cbn in Hl. rewrite IH; [by rewrite <-(assoc_L (++))|lia|]. intros k Hin. rewrite fmap_app, elem_of_app. intros [Hm|Hm].
  - apply (Hk k); [by right|done].
  - apply list_elem_of_singleton in Hm as ->. apply msg_members_key in Hin as (n & Heq & Hn). cbn in Heq.
    apply msg_field_inj in Heq; lia.
Qed.

Lemma msgs_no_field i : msgFieldForIndex i ≠ "msgs"%string.
Proof.
  intros Heq. change "msgs"%string with ("msg" +:+ "s") in Heq. apply append_inj in Heq.
  pose proof (FormatUint_word (Z.of_nat i) ltac:(lia)).
  unfold FormatUint in Heq. pose proof (digits_rev_range 64 (Z.of_nat i) ltac:(lia)) as Hr. apply Forall_reverse in Hr.
  destruct (reverse _) as [|d l]; [done|]. apply Forall_cons in Hr as [Hd _]. cbn in Heq. injection Heq as Hc _.
  pose proof (char_digit_char d Hd) as Hcd. by rewrite Hc in Hcd.
Qed.

(** ** Sign documents *)

Definition coin_shape : shape := SObject [("denom", SString); ("amount", SString)]%string.

(** The members of a sign document of Amino without its messages; the fee may be empty. *)
Definition std_fields (amount : shape) : list (string * shape) :=
  [("account_number", SString); ("chain_id", SString); ("fee", SObject [("amount", amount); ("gas", SString)]);
   ("memo", SString); ("sequence", SString)]%string.

Record sign_doc (m : list (string * json)) (msgs : list json) (amount : shape) : Prop := {
  sd_keys : NoDup m.*1;
  sd_perm : m.*1 ≡ₚ "msgs"%string :: (std_fields amount).*1;
  sd_msgs : member m "msgs" = Some (JArray msgs);
  sd_std k s : (k, s) ∈ std_fields amount → ∃ j, member m k = Some j ∧ has_shape s j;
  sd_amount : amount = SEmpty ∨ amount = SList coin_shape
}.

Definition flattened (m : list (string * json)) (msgs : list json) : list (string * json) :=
  filter (λ p, p.1 ≠ "msgs"%string) m ++ msg_members 0 msgs.

Lemma std_no_msg i amount : msgFieldForIndex i ∉ (std_fields amount).*1.
Proof.
  cbn. rewrite !not_elem_of_cons. split_and!; try done. apply not_elem_of_nil.
Qed.

Lemma flatten_spec m msgs amount :
  sign_doc m msgs amount → Forall (λ j, IsObject j = true) msgs → Z.of_nat (length msgs) < 2 ^ 64 →
  FlattenPayloadMessages x (JObject m) = Ok (JObject (flattened m msgs), length msgs).
Proof.
  intros D Hobj Hl. unfold FlattenPayloadMessages, getPayloadMessages.
  rewrite (law_Get x XL m "msgs" plain_msgs), (sd_msgs _ _ _ D), Ok_bind.
  assert (∀ k, k ∈ (msg_members 0 msgs).*1 → k ∉ m.*1) as Hfresh.
  { intros k (i & -> & _)%msg_members_key. rewrite (sd_perm _ _ _ D), not_elem_of_cons.
    split; [apply msgs_no_field|apply std_no_msg]. }
  rewrite add_messages_spec, Ok_bind by done. unfold payloadWithoutMsgsField. rewrite (law_Delete x XL).
  - cbn [of_option]. rewrite Ok_bind. unfold flattened. rewrite filter_app. do 4 f_equal.
    apply filter_all. apply Forall_forall. intros [k j] Hin. cbn.
    assert (k ∈ (msg_members 0 msgs).*1) as (i & -> & _)%msg_members_key by (by apply (list_elem_of_fmap_2 fst _ (k, j))).
    apply msgs_no_field.
  - apply plain_msgs.
  - rewrite fmap_app. apply NoDup_app. split_and!; [apply (sd_keys _ _ _ D)| |by apply msg_members_NoDup].
    intros k Hk Hin. by apply (Hfresh k).
Qed.

(** *** The message of the typed data *)

Lemma member_filter (m : list (string * json)) k : k ≠ "msgs"%string → member (filter (λ p, p.1 ≠ "msgs"%string) m) k = member m k.
Proof.
  intros Hk. induction m as [|[k' j] m IH]; [done|]. rewrite filter_cons. cbn [fst member].
  destruct (decide (k' ≠ "msgs"%string)) as [Hn|Hn]; cbn [member]; [by rewrite IH|].
  rewrite decide_False; [done|]. intros ->. by apply Hn.
Qed.

Lemma filter_keys (m : list (string * json)) : (filter (λ p, p.1 ≠ "msgs"%string) m).*1 = filter (λ k, k ≠ "msgs"%string) m.*1.
Proof.
  induction m as [|[k j] m IH]; [done|]. rewrite fmap_cons, !filter_cons. cbn [fst]. case_decide; [by rewrite fmap_cons, IH|done].
Qed.

Lemma flattened_keys m msgs amount shapes :
  sign_doc m msgs amount → length shapes = length msgs →
  (flattened m msgs).*1 ≡ₚ (std_fields amount ++ msg_fields 0 shapes).*1.
Proof.
  intros D Hl. unfold flattened. rewrite !fmap_app, filter_keys, (msg_fields_keys 0 shapes msgs Hl), (sd_perm _ _ _ D).
  apply Permutation_app_tail. by cbn.
Qed.

Lemma flattened_NoDup m msgs amount :
  sign_doc m msgs amount → Z.of_nat (length msgs) < 2 ^ 64 → NoDup (flattened m msgs).*1.
Proof.
  intros D Hl. unfold flattened. rewrite fmap_app, filter_keys. apply NoDup_app. split_and!.
  - apply NoDup_filter, (sd_keys _ _ _ D).
  - intros k [_ Hk]%list_elem_of_filter (i & -> & _)%msg_members_key. rewrite (sd_perm _ _ _ D) in Hk.
    apply elem_of_cons in Hk as [Hk|Hk]; [by apply msgs_no_field in Hk|by apply std_no_msg in Hk].
  - by apply msg_members_NoDup.
Qed.

Lemma flattened_std m msgs amount k s :
  sign_doc m msgs amount → (k, s) ∈ std_fields amount → ∃ j, member (flattened m msgs) k = Some j ∧ has_shape s j.
Proof.
  intros D Hk. destruct (sd_std _ _ _ D k s Hk) as (j & Hm & Hj). exists j. split; [|done].
  unfold flattened. rewrite member_app, member_filter, Hm; [done|]. intros ->. cbn in Hk.
  by repeat (apply elem_of_cons in Hk as [Hk|Hk]; [discriminate Hk|]); apply elem_of_nil in Hk.
Qed.

Lemma msg_fields_shape i shapes msgs k s :
  Forall2 message shapes msgs → (k, s) ∈ msg_fields i shapes → ∃ j, (k, j) ∈ msg_members i msgs ∧ has_shape s j.
Proof.
  intros Hall. revert i. induction Hall as [|fields j shapes msgs Hm _ IH]; intros i; [by intros ?%elem_of_nil|].
  cbn [msg_fields msg_members]. intros [[= -> ->]|Hk]%elem_of_cons.
  - exists j. split; [left|apply Hm].
  - destruct (IH (S i) Hk) as (j' & Hin & Hj). exists j'. split; [by right|done].
Qed.

Definition doc_shape (amount : shape) (shapes : list (list (string * shape))) : shape :=
  SObject (std_fields amount ++ msg_fields 0 shapes).

Lemma flattened_shape m msgs amount shapes :
  sign_doc m msgs amount → Forall2 message shapes msgs → Z.of_nat (length msgs) < 2 ^ 64 →
  has_shape (doc_shape amount shapes) (JObject (flattened m msgs)).
Proof.
  intros D Hall Hl. apply has_shape_object. split; [by eapply flattened_NoDup|].
  pose proof (flattened_keys m msgs amount shapes D (Forall2_length _ _ _ Hall)) as Hkeys. split; [|split; [done|]].
  - rewrite Hkeys, fmap_app, (msg_fields_keys 0 shapes msgs) by (by eapply Forall2_length). apply Forall_app. split.
    + by repeat constructor.
    + apply Forall_forall. intros k (i & -> & _)%msg_members_key. apply plain_field.
  - intros k s [Hk|Hk]%elem_of_app; [by eapply flattened_std|].
    destruct (msg_fields_shape 0 shapes msgs k s Hall Hk) as (j & Hin & Hj). exists j. split; [|done].
    apply member_NoDup; [by eapply flattened_NoDup|]. unfold flattened. apply elem_of_app. by right.
Qed.

(** *** Its types *)

Lemma std_typed types amount k s :
  amount = SEmpty ∨ amount = SList coin_shape → delete "Tx"%string initial_types ⊆ types → (k, s) ∈ std_fields amount →
  ∃ T, mkType k T ∈ default [] (initial_types !! "Tx"%string) ∧ typed types T s.
Proof.
  intros Ham Hsub Hk.
  assert (types !! "Fee"%string = Some [mkType "amount" "Coin[]"; mkType "gas" "string"]) as Hfee
    by (by eapply lookup_weaken, Hsub).
  assert (types !! "Coin"%string = Some [mkType "denom" "string"; mkType "amount" "string"]) as Hcoin
    by (by eapply lookup_weaken, Hsub).
  assert (typed types "Coin" coin_shape) as Htc.
  { apply typed_object. eexists. split; [exact Hcoin|]. split; [by apply (bool_decide_unpack _)|]. split; [done|].
    intros k' s' Hin. repeat (apply elem_of_cons in Hin as [[= -> ->]|Hin]); [..|by apply elem_of_nil in Hin].
    all: exists "string"%string; (split; [|done]); set_solver. }
  assert (typed types "Coin[]" amount) as Hta by (destruct Ham as [-> | ->]; by exists "Coin"%string).
  assert (typed types "Fee" (SObject [("amount", amount); ("gas", SString)]%string)) as Htf.
  { apply typed_object. eexists. split; [exact Hfee|]. split; [by apply (bool_decide_unpack _)|]. split; [done|].
    intros k' s' Hin. repeat (apply elem_of_cons in Hin as [[= -> ->]|Hin]); [..|by apply elem_of_nil in Hin].
    - exists "Coin[]"%string. split; [left|done].
    - exists "string"%string. split; [right; left|done]. }
  change (default [] _) with [mkType "account_number" "string"; mkType "chain_id" "string"; mkType "fee" "Fee";
    mkType "memo" "string"; mkType "sequence" "string"].
  repeat (apply elem_of_cons in Hk as [[= -> ->]|Hk]); [..|by apply elem_of_nil in Hk].
  3: by exists "Fee"%string; split; [set_solver|].
  all: exists "string"%string; (split; [set_solver|done]).
Qed.

(** C27.  For an Amino sign document the typed data describes the document: its message
    has a shape that the inferred definitions give the primary type to, field by field,
    and each message of the document is a member of it under its index.  The document has
    the six members of [sign_doc] and no others, with a fee of just an amount and a gas
    limit; its messages have types and a shape each, so that their keys are plain, nothing
    in them is null and the elements of an array are alike and no arrays themselves; and
    they hold fewer objects than definitions are allowed. *)
Theorem typed_data_conforms chainID data m msgs amount shapes :
  ee_Parse x data = Some (JObject m) → sign_doc m msgs amount → Forall2 message shapes msgs →
  Z.of_nat (length msgs) < 2 ^ 64 → (doc_objects shapes + 4 < maxDuplicateTypeDefs)%nat →
  ∃ td, WrapTxToTypedData x chainID data = Ok td ∧
    td_PrimaryType td = "Tx"%string ∧ dm_ChainId (td_Domain td) = i64 chainID ∧
    has_shape (doc_shape amount shapes) (td_Message td) ∧ typed (td_Types td) "Tx" (doc_shape amount shapes) ∧
    ∀ n j, msgs !! n = Some j → ∃ members, td_Message td = JObject members ∧ member members (msgFieldForIndex n) = Some j.
Proof.
  intros Hparse D Hall Hl Hmax. unfold WrapTxToTypedData, createEIP712MessagePayload, unmarshalBytesToJSONObject, createEIP712Types.
  assert (Forall (λ j, IsObject j = true) msgs) as Hobj.
  { eapply Forall2_Forall_r; [exact Hall|]. apply Forall_true. intros f j (_ & mm & t & -> & _). done. }
  rewrite Hparse. cbn [IsObject]. rewrite Ok_bind, (flatten_spec m msgs amount D Hobj Hl), Ok_bind. cbn beta iota. rewrite Ok_bind.
  pose proof (flattened_NoDup m msgs amount D Hl) as Hnd.
  assert (∀ k j, (k, j) ∈ msg_members 0 msgs → member (flattened m msgs) k = Some j) as Hmem.
  { intros k j Hk. apply member_NoDup; [done|]. unfold flattened. apply elem_of_app. by right. }
  destruct (messages_added (JObject (flattened m msgs)) shapes msgs 0 initial_types (default [] (initial_types !! "Tx"%string)))
    as [[_ Hbad]|(new & types & -> & Hsub & Htx & Hnames & Htyped)]; [done| |done| |].
  { intros k j Hk. rewrite (law_Get x XL); [by apply Hmem|].
    assert (k ∈ (msg_members 0 msgs).*1) as (i & -> & _)%msg_members_key by (by apply (list_elem_of_fmap_2 fst _ (k, j))).
    apply plain_field. }
  { exfalso. change (size initial_types) with 4%nat in Hbad. lia. }
  rewrite Ok_bind. eexists. split; [done|]. cbn [td_PrimaryType td_Domain td_Message td_Types dm_ChainId createEIP712Domain].
  split; [done|]. split; [done|]. split; [by eapply flattened_shape|]. split.
  - apply typed_object. eexists. split; [exact Htx|].
    assert ((ty_Name <$> default [] (initial_types !! "Tx"%string) ++ new) = (std_fields amount ++ msg_fields 0 shapes).*1) as ->
      by (by rewrite !fmap_app, Hnames).
    split; [by rewrite <-flattened_keys by (done || by eapply Forall2_length)|]. split; [done|].
    intros k s [Hk|Hk]%elem_of_app.
    + destruct (std_typed (delete "Tx"%string types) amount k s (sd_amount _ _ _ D) Hsub Hk) as (T & HT & Ht).
      exists T. split; [apply elem_of_app; by left|]. eapply typed_mono; [apply delete_subseteq|done].
    + destruct (Htyped k s Hk) as (T & HT & Ht). exists T. split; [apply elem_of_app; by right|].
      eapply typed_mono; [apply delete_subseteq|done].
  - intros n j Hn. eexists. split; [done|]. apply Hmem. by apply (msg_members_lookup 0).
Qed.

Lemma other_members m msgs amount : sign_doc m msgs amount → length (filter (λ p, p.1 ≠ "msgs"%string) m) = 5%nat.
Proof. intros D. rewrite <-(length_fmap fst), filter_keys, (sd_perm _ _ _ D). done. Qed.

Lemma msg_members_inj i msgs msgs' : msg_members i msgs = msg_members i msgs' → msgs = msgs'.
Proof.
  revert i msgs'. induction msgs as [|j msgs IH]; intros i [|j' msgs'] Heq; try done. injection Heq as -> Heq. f_equal. by apply (IH (S i)).
Qed.

(** Flattening loses nothing: two sign documents with the same flattened payload
    have the same messages in the same order, and the same other members. *)
Theorem flatten_recovers m m' msgs msgs' amount amount' payload n n' :
  sign_doc m msgs amount → sign_doc m' msgs' amount' →
  Forall (λ j, IsObject j = true) msgs → Forall (λ j, IsObject j = true) msgs' →
  Z.of_nat (length msgs) < 2 ^ 64 → Z.of_nat (length msgs') < 2 ^ 64 →
  FlattenPayloadMessages x (JObject m) = Ok (payload, n) → FlattenPayloadMessages x (JObject m') = Ok (payload, n') →
  n = n' ∧ msgs = msgs' ∧ ∀ k, k ≠ "msgs"%string → member m k = member m' k.
Proof.
  intros D D' Hobj Hobj' Hl Hl' Hf Hf'. rewrite (flatten_spec m msgs amount D Hobj Hl) in Hf.
  rewrite (flatten_spec m' msgs' amount' D' Hobj' Hl') in Hf'. injection Hf as <- <-. injection Hf' as Heq <-.
  unfold flattened in Heq. apply app_inj_1 in Heq as [Hstd Hmsgs]; [|by rewrite !(other_members _ _ _ D), !(other_members _ _ _ D')].
  apply msg_members_inj in Hmsgs as ->. split_and!; [done..|]. intros k Hk. by rewrite <-(member_filter m k Hk), <-Hstd, member_filter.
Qed.
End Types.

(** ** The two encodings of a document *)

Section Encodings.
Context {msg : Type} (x : eip_env msg).

(** The Amino codec reads the sign bytes of the SDK back. *)
Hypothesis amino_reads : ∀ chainID account sequence timeout fee msgs memo tip,
  ee_AminoDoc x (ee_StdSignBytes x chainID account sequence timeout fee msgs memo tip) = Some (mkSignDoc chainID msgs).

Lemma same_signer_all signer msgs : same_signer x signer msgs = Ok () → Forall (λ m, ee_Signers x m = [signer]) msgs.
Proof.
  induction msgs as [|m msgs IH]; [constructor|]. cbn. destruct (ee_Signers x m) as [|s [|]] eqn:Hs; try done.
  case_decide; [subst|done]. intros Hm. constructor; [done|by apply IH].
Qed.

(** The typed data of a Protobuf document is that of its Amino document, and one account
    signs all of its messages. *)
Lemma protobuf_as_amino signDocBytes td :
  decodeProtobufSignDoc x signDocBytes = Ok td →
  ∃ aminoBytes signer msgs, decodeAminoSignDoc x aminoBytes = Ok td ∧ sd_Msgs <$> ee_AminoDoc x aminoBytes = Some msgs ∧
    msgs ≠ [] ∧ Forall (λ m, ee_Signers x m = [signer]) msgs.
Proof.
  intros Hd. apply bind_Ok_inv in Hd as ([] & Hinit & Hd). apply bind_Ok_inv in Hd as (doc & Hdoc & Hd).
  cbn zeta in Hd. case_match; [done|]. destruct (pd_Sequences doc) as [|sequence [|]]; try done.
  apply bind_Ok_inv in Hd as (msgs & _ & Hd). apply bind_Ok_inv in Hd as ([] & Hv & Hd).
  apply bind_Ok_inv in Hd as (chainID & Hc & Hd). destruct (pd_Fee doc) as [fee|]; [|done].
  unfold validatePayloadMessages in Hv. destruct msgs as [|m msgs]; [done|].
  destruct (ee_Signers x m) as [|signer [|]] eqn:Hs; try done.
  eexists _, signer, (m :: msgs). unfold decodeAminoSignDoc. rewrite amino_reads. cbn [of_option fmap option_fmap option_map sd_Msgs].
  split; [|split; [done|split; [done|by constructor; [|apply same_signer_all]]]].
  rewrite Hinit, !Ok_bind. cbn [sd_Msgs sd_ChainID validatePayloadMessages]. rewrite Hs, Hv, Ok_bind, Hc, Ok_bind. exact Hd.
Qed.
End Encodings.

(** ** A document *)

Module EipToy.

Definition toy_eip (doc : list (string * json)) : eip_env () := {|
  ee_Parse _ := Some (JObject doc);
  ee_Get j k := match j with JObject m => member m k | _ => None end;
  ee_SetRaw j k v := match j with JObject m => Some (JObject (m ++ [(k, v)])) | _ => None end;
  ee_Delete j k := match j with JObject m => Some (JObject (filter (λ p, p.1 ≠ k) m)) | _ => None end;
  ee_Title := capitalise;
  ee_codecs := true;
  ee_AminoDoc _ := None;
  ee_ProtoDoc _ := None;
  ee_StdSignBytes _ _ _ _ _ _ _ _ := [];
  ee_Signers _ := [];
  ee_TypedDataAndHash _ := None
|}.

Lemma toy_eip_laws doc : eip_laws (toy_eip doc).
Proof. by split. Qed.

(** Two messages that send coins, one of them with a nested list. *)
Definition coin (n : string) : json := JObject [("denom", JString "aego"); ("amount", JString n)]%string.
Definition send : json :=
  JObject [("type", JString "cosmos-sdk/MsgSend");
           ("value", JObject [("amount", JArray [coin "5"; coin "7"]); ("from_address", JString "ego1a"); ("to_address", JString "ego1b")])]%string.
Definition vote : json :=
  JObject [("type", JString "cosmos-sdk/MsgVote"); ("value", JObject [("option", JNumber "1"); ("voter", JString "ego1a")])]%string.
Definition toy_doc : list (string * json) :=
  [("account_number", JString "1"); ("chain_id", JString "dhives_5439-1");
   ("fee", JObject [("amount", JArray [coin "20"]); ("gas", JString "200000")]);
   ("memo", JString EmptyString); ("msgs", JArray [send; vote]); ("sequence", JString "3")]%string.

Definition send_shape : list (string * shape) :=
  [("type", SString);
   ("value", SObject [("amount", SList coin_shape); ("from_address", SString); ("to_address", SString)])]%string.
Definition vote_shape : list (string * shape) :=
  [("type", SString); ("value", SObject [("option", SNumber); ("voter", SString)])]%string.

(** A check of [has_shape] that computes. *)
Fixpoint shaped (s : shape) (j : json) : bool :=
  match s, j with
  | SBool, JBool _ | SNumber, JNumber _ | SString, JString _ | SEmpty, JArray [] => true
  | SList s, JArray (a :: l) => element s && shaped s a && forallb (shaped s) l
  | SObject fields, JObject m =>
      bool_decide (NoDup m.*1) &&
      forallb (λ k, negb (bool_decide (k = EmptyString)) && all_chars name_char k) m.*1 &&
      bool_decide (m.*1 = fields.*1) &&
      (fix go (fields : list (string * shape)) : bool :=
         match fields with
         | [] => true
         | (k, s) :: fields => match member m k with Some j => shaped s j | None => false end && go fields
         end) fields
  | _, _ => false
  end.

Lemma shaped_sound s j : shaped s j = true → has_shape s j.
Proof.
  remember (shape_size s) as n eqn:Hn. revert s Hn j. induction n as [n IH] using lt_wf_ind. intros s -> j.
  destruct s as [| | | |s|fields].
  1-4: by destruct j as [| | | |[]|].
  - destruct j as [| | | |[|a l]|]; try done. cbn [shaped has_shape]. rewrite !andb_true_iff. intros [[He Ha] Hl].
    assert (∀ j, shaped s j = true → has_shape s j) as Hs by (intros; apply (IH (shape_size s)); [cbn; lia|done..]).
    split; [done|]. split; [by apply Hs|]. apply Forall_forall. intros b Hb. apply Hs. rewrite forallb_forall in Hl.
    by apply Hl, list_elem_of_In.
  - destruct j as [| | | | |m]; try done. rewrite has_shape_object. cbn [shaped]. rewrite !andb_true_iff, !bool_decide_eq_true.
    intros [[[Hnd Hk] Heq] Hgo]. split; [done|]. split.
    { apply Forall_forall. intros k Hin. rewrite forallb_forall in Hk. apply list_elem_of_In, Hk in Hin.
      apply andb_true_iff in Hin as [H1 H2]. split; [|done]. by apply negb_true_iff, bool_decide_eq_false in H1. }
    split; [by rewrite Heq|]. clear Heq Hnd Hk.
    assert (∀ s j, (shape_size s < shape_size (SObject fields))%nat → shaped s j = true → has_shape s j) as Hs by eauto.
    clear IH. assert (∀ k s, (k, s) ∈ fields → (shape_size s < shape_size (SObject fields))%nat) as Hsz by apply field_size.
    revert Hgo Hs Hsz. generalize (shape_size (SObject fields)). induction fields as [|[k s] fields IHf]; intros n Hgo Hs Hsz k' s'.
    { by intros ?%elem_of_nil. }
    cbn in Hgo. destruct (member m k) as [j|] eqn:Hm; [|done]. apply andb_true_iff in Hgo as [H1 H2].
    intros [[= -> ->]|Hin]%elem_of_cons.
    + exists j. split; [done|]. apply Hs; [apply (Hsz k); left|done].
    + apply (IHf n H2 Hs); [|done]. intros k2 s2 Hin2. apply (Hsz k2). by right.
Qed.

Lemma toy_messages : Forall2 message [send_shape; vote_shape] [send; vote].
Proof.
  apply Forall2_cons. split; [|apply Forall2_cons; split; [|apply Forall2_nil; exact I]].
  - split; [apply shaped_sound; vm_compute; reflexivity|by eexists _, _].
  - split; [apply shaped_sound; vm_compute; reflexivity|by eexists _, _].
Qed.

Lemma toy_sign_doc : sign_doc toy_doc [send; vote] (SList coin_shape).
Proof.
  split.
  - apply (bool_decide_unpack _). vm_compute. exact I.
  - symmetry. apply (Permutation_middle ["account_number"; "chain_id"; "fee"; "memo"]%string ["sequence"]%string).
  - reflexivity.
  - intros k s Hin. repeat (apply elem_of_cons in Hin as [[= -> ->]|Hin]); [..|by apply elem_of_nil in Hin].
    all: eexists; (split; [reflexivity|]); apply shaped_sound; vm_compute; reflexivity.
  - by right.
Qed.

Lemma typed_data_conforms_witness :
  ∃ td, WrapTxToTypedData (toy_eip toy_doc) 5439 [] = Ok td ∧
    typed (td_Types td) "Tx" (doc_shape (SList coin_shape) [send_shape; vote_shape]).
Proof.
  destruct (typed_data_conforms (toy_eip toy_doc) (toy_eip_laws toy_doc) 5439 [] toy_doc [send; vote] (SList coin_shape)
    [send_shape; vote_shape]) as (td & Htd & _ & _ & _ & Ht & _).
  - reflexivity.
  - exact toy_sign_doc.
  - exact toy_messages.
  - vm_compute. reflexivity.
  - vm_compute. lia.
  - exists td. split; [exact Htd|exact Ht].
Defined.

(** The definitions that are inferred. *)
Example toy_types :
  match WrapTxToTypedData (toy_eip toy_doc) 5439 [] with
  | Ok td => (td_Types td !! "TypeMsgSend0"%string, td_Types td !! "TypeValue0"%string, td_Types td !! "TypeValueAmount0"%string,
              td_Types td !! "TypeValue1"%string)
  | _ => (None, None, None, None)
  end =
  (Some [mkType "value" "TypeValue0"; mkType "type" "string"],
   Some [mkType "to_address" "string"; mkType "from_address" "string"; mkType "amount" "TypeValueAmount0[]"],
   Some [mkType "denom" "string"; mkType "amount" "string"],
   Some [mkType "voter" "string"; mkType "option" "int64"]).
Proof. vm_compute. reflexivity. Qed.
End EipToy.
