(* ===== verification/Proto.v ===== *)
(** * Protocol buffers: the generated code

    Every [*.pb.go] file has the same routines for the wire format: [encodeVarint],
    [sov], [skip], and for each message [MarshalToSizedBuffer], [Size] and
    [Unmarshal].  The routines are here once, with a message given by the fields it
    writes and by what it does with a field it reads; the messages are at their
    modules.  [Marshal] fills a buffer of [Size] bytes from its end, last field first;
    the model gives the bytes from the front.  A varint is read in 64 bits; for a
    narrower field the bits above are shifted out, so the field is the value cut to
    its width.

    The theorems: a varint reads back and has the length of [sov]; the bytes of a
    message read back as its fields, with unknown fields skipped; and reading always
    ends, whatever the bytes. *)

From S2P Require Import Prelude.

(** ** Varints *)

Inductive proto_error :=
| ErrIntOverflow
| ErrUnexpectedEOF
| ErrInvalidLength
| ErrUnexpectedEndOfGroup
| ErrIllegalTag
| ErrWrongWireType
| ErrIllegalWireType
| ErrField.

Abbreviation proto_result A := (outcome proto_error A).

(** [encodeVarint]: seven bits a byte, the low ones first; 64 bits take ten bytes. *)
Fixpoint varint_loop (fuel : nat) (v : Z) : list byte :=
  match fuel with
  | O => [v]
  | S fuel => if 128 <=? v then Z.lor (Z.land v 127) 128 :: varint_loop fuel (Z.shiftr v 7) else [v]
  end.

Definition encodeVarint (v : Z) : list byte := varint_loop 9 v.

(** [bits.Len64]. *)
Definition Len64 (x : Z) : Z := if x =? 0 then 0 else Z.log2 x + 1.

Definition sov (x : Z) : Z := (Len64 (Z.lor x 1) + 6) / 7.

(** The loop that reads a varint. *)
Fixpoint decode_loop (shift acc : Z) (bz : list byte) : proto_result (Z * list byte) :=
  if 64 <=? shift then Err ErrIntOverflow
  else match bz with
  | [] => Err ErrUnexpectedEOF
  | b :: bz =>
      let acc := Z.lor acc (u64 (Z.shiftl (Z.land b 127) shift)) in
      if b <? 128 then Ok (acc, bz) else decode_loop (shift + 7) acc bz
  end.

Definition decodeVarint (bz : list byte) : proto_result (Z * list byte) := decode_loop 0 0 bz.

(** ** Skipping *)

(** [n] bytes further, of a buffer of which [pos] bytes are read: an index that
    overflows is negative, one past the end is found out by the caller. *)
Definition jump (total n : Z) (bz : list byte) : proto_result (list byte) :=
  let pos := total - Z.of_nat (length bz) in
  if 2 ^ 63 <=? pos + n then Err ErrInvalidLength
  else if Z.of_nat (length bz) <? n then Err ErrUnexpectedEOF
  else Ok (drop (Z.to_nat n) bz).

(** [skip]: the rest after one field, with the groups inside of it. *)
Fixpoint skip_loop (fuel : nat) (total : Z) (depth : nat) (bz : list byte) : proto_result (list byte) :=
  match fuel with
  | O => Panic
  | S fuel =>
      match bz with
      | [] => Err ErrUnexpectedEOF
      | _ =>
          '(wire, bz) ← decodeVarint bz;
          let wireType := Z.land wire 7 in
          '(depth, bz) ←
            (if wireType =? 0 then '(_, bz) ← decodeVarint bz; Ok (depth, bz)
             else if wireType =? 1 then bz ← jump total 8 bz; Ok (depth, bz)
             else if wireType =? 2 then
               '(length, bz) ← decodeVarint bz;
               if i64 length <? 0 then Err ErrInvalidLength
               else bz ← jump total (i64 length) bz; Ok (depth, bz)
             else if wireType =? 3 then Ok (S depth, bz)
             else if wireType =? 4 then
               match depth with O => Err ErrUnexpectedEndOfGroup | S depth => Ok (depth, bz) end
             else if wireType =? 5 then bz ← jump total 4 bz; Ok (depth, bz)
             else Err ErrIllegalWireType);
          match depth with O => Ok bz | S _ => skip_loop fuel total depth bz end
      end
  end.

Definition skip (bz : list byte) : proto_result (list byte) :=
  skip_loop (S (length bz)) (Z.of_nat (length bz)) 0 bz.

(** ** Messages *)

Inductive wire := WVarint (v : Z) | WBytes (bz : list byte).

(** What [Unmarshal] does with a known field. *)
Inductive field_handler (M : Type) :=
| OnVarint (f : Z → M → M)
| OnBytes (f : list byte → M → proto_result M).
Arguments OnVarint {M} f.
Arguments OnBytes {M} f.

Definition i32_of (z : Z) : Z := (z + 2 ^ 31) mod 2 ^ 32 - 2 ^ 31.
Definition u32_of (z : Z) : Z := z mod 2 ^ 32.

(** A field is written when it is not the default. *)
Definition uint_field (n v : Z) : list (Z * wire) := if v =? 0 then [] else [(n, WVarint v)].
Definition bool_field (n : Z) (b : bool) : list (Z * wire) := if b then [(n, WVarint 1)] else [].
Definition bytes_field (n : Z) (bz : list byte) : list (Z * wire) := match bz with [] => [] | _ => [(n, WBytes bz)] end.

Definition encode_field (f : Z * wire) : list byte :=
  match f with
  | (n, WVarint v) => encodeVarint (n * 8) ++ encodeVarint v
  | (n, WBytes bz) => encodeVarint (n * 8 + 2) ++ encodeVarint (Z.of_nat (length bz)) ++ bz
  end.

Definition marshal (fields : list (Z * wire)) : list byte := flat_map encode_field fields.

(** [Size]: the tags of the fields up to 15 take one byte. *)
Definition field_size (f : Z * wire) : Z :=
  match f with
  | (n, WVarint v) => sov (n * 8) + sov v
  | (n, WBytes bz) => sov (n * 8 + 2) + Z.of_nat (length bz) + sov (Z.of_nat (length bz))
  end.

Definition size (fields : list (Z * wire)) : Z := foldr (λ f s, field_size f + s) 0 fields.

Section Unmarshal.
Context {M : Type} (handler : Z → option (field_handler M)).

(** The payload of a bytes field: a negative length and one past the end are errors. *)
Definition read_bytes (total : Z) (bz : list byte) : proto_result (list byte * list byte) :=
  '(len, bz) ← decodeVarint bz;
  if i64 len <? 0 then Err ErrInvalidLength
  else rest ← jump total (i64 len) bz; Ok (take (Z.to_nat (i64 len)) bz, rest).

Fixpoint unmarshal_loop (fuel : nat) (total : Z) (bz : list byte) (m : M) : proto_result M :=
  match fuel with
  | O => Panic
  | S fuel =>
      match bz with
      | [] => Ok m
      | _ =>
          '(wire, rest) ← decodeVarint bz;
          let fieldNum := i32_of (Z.shiftr wire 3) in
          let wireType := Z.land wire 7 in
          if wireType =? 4 then Err ErrUnexpectedEndOfGroup
          else if fieldNum <=? 0 then Err ErrIllegalTag
          else match handler fieldNum with
          | Some (OnVarint f) =>
              if negb (wireType =? 0) then Err ErrWrongWireType
              else '(v, rest) ← decodeVarint rest; unmarshal_loop fuel total rest (f v m)
          | Some (OnBytes f) =>
              if negb (wireType =? 2) then Err ErrWrongWireType
              else '(payload, rest) ← read_bytes total rest; m ← f payload m; unmarshal_loop fuel total rest m
          | None => rest ← skip bz; unmarshal_loop fuel total rest m
          end
      end
  end.

Definition unmarshal (bz : list byte) (m : M) : proto_result M :=
  unmarshal_loop (S (length bz)) (Z.of_nat (length bz)) bz m.
End Unmarshal.

(** ** Varints read back *)

Lemma land_127 v : Z.land v 127 = v mod 128.
Proof. change 127 with (Z.ones 7). by rewrite Z.land_ones by lia. Qed.

Lemma lor_shifted acc x k : 0 <= k → 0 <= acc < 2 ^ k → 0 <= x → Z.lor acc (x * 2 ^ k) = acc + x * 2 ^ k.
Proof.
  intros Hk Ha Hx. rewrite <-Z.shiftl_mul_pow2 by done. rewrite Z.add_nocarry_lxor, Z.lxor_lor; [done| |];
    apply Z.bits_inj'; intros i Hi; rewrite Z.land_spec, Z.bits_0, Z.shiftl_spec by done.
  all: destruct (Z.lt_ge_cases i k) as [Hlt|Hge]; [rewrite (Z.testbit_neg_r x (i - k)) by lia; apply andb_false_r|].
  all: destruct (Z.eq_dec acc 0) as [->|]; [by rewrite Z.bits_0|].
  all: rewrite (Z.bits_above_log2 acc i); [done|lia|].
  all: assert (Z.log2 acc < k) by (apply Z.log2_lt_pow2; lia); lia.
Qed.

Lemma continuation_byte v : 0 <= v →
  Z.lor (Z.land v 127) 128 = v mod 128 + 128 ∧ Z.land (v mod 128 + 128) 127 = v mod 128.
Proof.
  intros Hv. rewrite !land_127. pose proof (Z.mod_pos_bound v 128 ltac:(lia)). split.
  - change 128 with (1 * 2 ^ 7) at 2. rewrite lor_shifted by (cbn; lia). done.
  - rewrite <-Zplus_mod_idemp_r. cbn. by rewrite Z.add_0_r, Z.mod_mod by lia.
Qed.

Lemma decode_encode_loop fuel v shift acc rest :
  0 <= v < 2 ^ (7 * (Z.of_nat fuel + 1)) → 0 <= shift < 64 → 0 <= acc < 2 ^ shift → v * 2 ^ shift < 2 ^ 64 →
  decode_loop shift acc (varint_loop fuel v ++ rest) = Ok (acc + v * 2 ^ shift, rest).
Proof.
  revert v shift acc. induction fuel as [|fuel IH]; intros v shift acc Hv Hs Ha Ho; cbn [varint_loop].
  - assert (v < 128) by (cbn in Hv; lia). cbn [app decode_loop]. rewrite (proj2 (Z.leb_gt _ _)) by lia.
    rewrite (proj2 (Z.ltb_lt v 128)) by lia. rewrite land_127, Z.mod_small, Z.shiftl_mul_pow2 by lia.
    rewrite u64_small by (unfold in_u64; nia). by rewrite lor_shifted by lia.
  - destruct (Z.leb_spec 128 v) as [Hbig|Hsmall]; cbn [app decode_loop]; rewrite (proj2 (Z.leb_gt _ _)) by lia.
    + destruct (continuation_byte v) as [-> Hb]; [lia|]. rewrite Hb.
      pose proof (Z.mod_pos_bound v 128 ltac:(lia)) as Hm. pose proof (Z.div_mod v 128 ltac:(lia)) as Hdm.
      rewrite (proj2 (Z.ltb_ge _ _)) by lia. rewrite Z.shiftl_mul_pow2 by lia.
      assert (0 < 2 ^ shift) by (apply Z.pow_pos_nonneg; lia).
      rewrite u64_small by (unfold in_u64; nia). rewrite lor_shifted by lia.
      rewrite (Z.shiftr_div_pow2 v 7) by lia. change (2 ^ 7) with 128.
      assert (2 ^ (shift + 7) = 2 ^ shift * 128) as Hp by (rewrite Z.pow_add_r by lia; done).
      assert (1 <= v / 128) by (apply Z.div_le_lower_bound; lia).
      rewrite IH.
      * rewrite Hp. do 2 f_equal. nia.
      * replace (7 * (Z.of_nat (S fuel) + 1)) with (7 * (Z.of_nat fuel + 1) + 7) in Hv by lia.
        rewrite Z.pow_add_r in Hv by lia. split; [lia|]. apply Z.div_lt_upper_bound; lia.
      * split; [lia|]. apply (Z.pow_lt_mono_r_iff 2); [lia..|]. rewrite Hp. nia.
      * rewrite Hp. nia.
      * rewrite Hp. nia.
    + rewrite (proj2 (Z.ltb_lt v 128)) by lia. rewrite land_127, Z.mod_small, Z.shiftl_mul_pow2 by lia.
      rewrite u64_small by (unfold in_u64; nia). by rewrite lor_shifted by lia.
Qed.

(** A varint reads back. *)
Lemma decodeVarint_encode v rest : in_u64 v → decodeVarint (encodeVarint v ++ rest) = Ok (v, rest).
Proof.
  intros Hv. unfold decodeVarint, encodeVarint. rewrite decode_encode_loop; [do 2 f_equal; lia| |lia|cbn; lia|unfold in_u64 in Hv; lia].
  unfold in_u64 in Hv. split; [lia|]. eapply Z.lt_le_trans; [apply Hv|]. apply Z.pow_le_mono_r; lia.
Qed.

Lemma log2_lor_1 v : 0 <= v → Z.log2 (Z.lor v 1) = Z.log2 v.
Proof. intros Hv. rewrite Z.log2_lor by lia. cbn. pose proof (Z.log2_nonneg v). lia. Qed.

Lemma length_varint_loop fuel v :
  0 <= v < 2 ^ (7 * (Z.of_nat fuel + 1)) → Z.of_nat (length (varint_loop fuel v)) = Z.log2 v / 7 + 1.
Proof.
  assert (∀ v, 0 <= v < 128 → Z.log2 v / 7 = 0) as Hsmall.
  { intros v' Hv'. apply Z.div_small. split; [apply Z.log2_nonneg|].
    destruct (Z.eq_dec v' 0) as [->|]; [cbn; lia|]. apply Z.log2_lt_pow2; [lia|]. cbn. lia. }
  revert v. induction fuel as [|fuel IH]; intros v Hv; cbn [varint_loop].
  - rewrite Hsmall; [done|]. cbn in Hv. lia.
  - destruct (Z.leb_spec 128 v); [|by rewrite Hsmall by lia]. cbn [length]. rewrite Nat2Z.inj_succ, IH.
    + rewrite Z.log2_shiftr by lia. change 7 with (1 * 7) at 1. rewrite Z.max_r.
      * rewrite <-Z.add_opp_r, <-Z.mul_opp_l, Z.div_add by lia. lia.
      * pose proof (Z.log2_le_mono 128 v ltac:(lia)) as Hl. cbn in Hl. lia.
    + rewrite Z.shiftr_div_pow2 by lia. change (2 ^ 7) with 128.
      replace (7 * (Z.of_nat (S fuel) + 1)) with (7 * (Z.of_nat fuel + 1) + 7) in Hv by lia.
      rewrite Z.pow_add_r in Hv by lia. split; [apply Z.div_pos; lia|]. apply Z.div_lt_upper_bound; lia.
Qed.

(** The number of bytes of a varint is [sov], so [Marshal] fills its buffer exactly. *)
Lemma length_encodeVarint v : in_u64 v → Z.of_nat (length (encodeVarint v)) = sov v.
Proof.
  intros Hv. unfold encodeVarint, in_u64 in *. rewrite length_varint_loop.
  - unfold sov, Len64. pose proof (Z.log2_nonneg v). rewrite (proj2 (Z.eqb_neq _ _)).
    + rewrite log2_lor_1 by lia. replace (Z.log2 v + 1 + 6) with (Z.log2 v + 1 * 7) by lia. by rewrite Z.div_add by lia.
    + intros H0%Z.lor_eq_0_iff. lia.
  - split; [lia|]. eapply Z.lt_le_trans; [apply Hv|]. apply Z.pow_le_mono_r; lia.
Qed.

(** ** What reading consumes *)

Lemma decode_loop_consumes bz shift acc v rest :
  decode_loop shift acc bz = Ok (v, rest) → (length rest < length bz)%nat.
Proof.
  revert shift acc. induction bz as [|b bz IH]; intros shift acc; cbn [decode_loop]; destruct (64 <=? shift); try done.
  destruct (b <? 128); [intros [= <- <-]; cbn; lia|]. intros H%IH. cbn. lia.
Qed.

Lemma decodeVarint_consumes bz v rest : decodeVarint bz = Ok (v, rest) → (length rest < length bz)%nat.
Proof. apply decode_loop_consumes. Qed.

Lemma decode_loop_no_panic bz shift acc : decode_loop shift acc bz ≠ Panic.
Proof.
  revert shift acc. induction bz as [|b bz IH]; intros shift acc; cbn [decode_loop]; destruct (64 <=? shift); try done.
  by destruct (b <? 128).
Qed.

Lemma decodeVarint_no_panic bz : decodeVarint bz ≠ Panic.
Proof. apply decode_loop_no_panic. Qed.

Lemma jump_consumes total n bz rest : jump total n bz = Ok rest → (length rest <= length bz)%nat.
Proof.
  unfold jump. destruct (_ <=? _); [done|]. destruct (_ <? _); [done|]. intros [= <-]. rewrite length_drop. lia.
Qed.

Lemma jump_no_panic total n bz : jump total n bz ≠ Panic.
Proof. unfold jump. destruct (_ <=? _); [done|]. by destruct (_ <? _). Qed.

(** A bind whose parts do not panic does not. *)
Lemma bind_no_panic {E A B} (x : outcome E A) (k : A → outcome E B) :
  x ≠ Panic → (∀ a, x = Ok a → k a ≠ Panic) → x ≫= k ≠ Panic.
Proof. intros Hx Hk. destruct x as [a| |]; [|done|done]. rewrite Ok_bind. by apply Hk. Qed.

Lemma skip_loop_spec fuel total depth bz :
  (length bz < fuel)%nat →
  skip_loop fuel total depth bz ≠ Panic ∧
  ∀ rest, skip_loop fuel total depth bz = Ok rest → (length rest < length bz)%nat.
Proof.
  revert depth bz. induction fuel as [|fuel IH]; intros depth bz Hf; [lia|]. cbn [skip_loop].
  destruct bz as [|b bz0]; [done|]. set (bz := b :: bz0) in *.
  destruct (decodeVarint bz) as [[wire bz1]| |] eqn:Hd; [|done|by apply decodeVarint_no_panic in Hd].
  apply decodeVarint_consumes in Hd. rewrite Ok_bind.
  match goal with |- context [mbind _ ?x] => set (next := x) end.
  assert (next ≠ Panic ∧ ∀ d bz2, next = Ok (d, bz2) → (length bz2 < length bz)%nat) as [Hnp Hlt].
  { unfold next. clear next. pose proof (decodeVarint_no_panic bz1).
    destruct (decodeVarint bz1) as [[v bz2]| |] eqn:Hd1; try done; try apply decodeVarint_consumes in Hd1.
    all: repeat (destruct (_ =? _)); rewrite ?Ok_bind.
    all: try (split; [done|intros ? ? [= <- <-]; lia]).
    all: try by destruct depth; (split; [done|intros ? ? [= <- <-]; lia]).
    all: try done.
    all: try (match goal with |- context [jump ?t ?n ?b] => pose proof (jump_no_panic t n b); destruct (jump t n b) eqn:Hj end;
              try done; apply jump_consumes in Hj; split; [done|intros ? ? [= <- <-]; lia]).
    destruct (_ <? 0); [done|].
    match goal with |- context [jump ?t ?n ?b] => pose proof (jump_no_panic t n b); destruct (jump t n b) eqn:Hj end; try done.
    apply jump_consumes in Hj. split; [done|]. intros ? ? [= <- <-]. lia. }
  destruct next as [[d bz2]| |]; [|done..]. rewrite Ok_bind. specialize (Hlt _ _ eq_refl).
  destruct d as [|d]; [split; [done|]; by intros ? [= <-]|].
  destruct (IH (S d) bz2) as [H1 H2]; [lia|]. split; [done|]. intros rest Hr. specialize (H2 _ Hr). lia.
Qed.

Lemma skip_consumes bz rest : skip bz = Ok rest → (length rest < length bz)%nat.
Proof. apply skip_loop_spec. lia. Qed.

Lemma skip_no_panic bz : skip bz ≠ Panic.
Proof. apply skip_loop_spec. lia. Qed.

(** ** Messages read back *)

Section Roundtrip.
Context {M : Type} (handler : Z → option (field_handler M)).

Lemma read_bytes_consumes total bz payload rest :
  read_bytes total bz = Ok (payload, rest) → (length rest < length bz)%nat.
Proof.
  unfold read_bytes. destruct (decodeVarint bz) as [[len bz1]| |] eqn:Hd; [|done..]. apply decodeVarint_consumes in Hd.
  rewrite Ok_bind. destruct (_ <? 0); [done|]. destruct (jump _ _ _) as [r| |] eqn:Hj; [|done..].
  apply jump_consumes in Hj. rewrite Ok_bind. intros [= <- <-]. lia.
Qed.

Lemma read_bytes_no_panic total bz : read_bytes total bz ≠ Panic.
Proof.
  unfold read_bytes. apply bind_no_panic; [apply decodeVarint_no_panic|]. intros [len bz1] _. destruct (_ <? 0); [done|].
  apply bind_no_panic; [apply jump_no_panic|done].
Qed.

(** More fuel than bytes is enough. *)
Lemma unmarshal_fuel fuel fuel' total bz m :
  (length bz < fuel)%nat → (length bz < fuel')%nat →
  unmarshal_loop handler fuel total bz m = unmarshal_loop handler fuel' total bz m.
Proof.
  revert fuel' bz m. induction fuel as [|fuel IH]; intros [|fuel'] bz m Hf Hf'; [lia..|]. cbn [unmarshal_loop].
  destruct bz as [|b bz0]; [done|]. set (bz := b :: bz0) in *.
  destruct (decodeVarint bz) as [[wire rest]| |] eqn:Hd; [|done..]. apply decodeVarint_consumes in Hd. rewrite !Ok_bind.
  destruct (_ =? 4); [done|]. destruct (_ <=? 0); [done|]. destruct (handler _) as [[f|f]|].
  - destruct (negb _); [done|]. destruct (decodeVarint rest) as [[v rest1]| |] eqn:Hd1; [|done..].
    apply decodeVarint_consumes in Hd1. rewrite !Ok_bind. apply IH; lia.
  - destruct (negb _); [done|]. destruct (read_bytes total rest) as [[p rest1]| |] eqn:Hr; [|done..].
    apply read_bytes_consumes in Hr. rewrite !Ok_bind. destruct (f p m) as [m1| |]; [|done..]. rewrite !Ok_bind. apply IH; lia.
  - destruct (skip bz) as [rest1| |] eqn:Hs; [|done..]. apply skip_consumes in Hs. rewrite !Ok_bind. apply IH; lia.
Qed.

(** Reading ends: whatever the bytes, the result is a message or an error. *)
Lemma unmarshal_total bz m :
  (∀ n f payload m, handler n = Some (OnBytes f) → f payload m ≠ Panic) → unmarshal handler bz m ≠ Panic.
Proof.
  intros Hh. unfold unmarshal. generalize (Z.of_nat (length bz)) as total. intros total.
  assert (length bz < S (length bz))%nat as Hf by lia. revert Hf. generalize (S (length bz)) as fuel. intros fuel.
  revert bz m. induction fuel as [|fuel IH]; intros bz m Hf; [lia|]. cbn [unmarshal_loop].
  destruct bz as [|b bz0]; [done|]. set (bz := b :: bz0) in *.
  apply bind_no_panic; [apply decodeVarint_no_panic|]. intros [wire rest] Hd%decodeVarint_consumes.
  destruct (_ =? 4); [done|]. destruct (_ <=? 0); [done|]. destruct (handler _) as [[f|f]|] eqn:He.
  - destruct (negb _); [done|]. apply bind_no_panic; [apply decodeVarint_no_panic|].
    intros [v rest1] Hd1%decodeVarint_consumes. apply IH. lia.
  - destruct (negb _); [done|]. apply bind_no_panic; [apply read_bytes_no_panic|].
    intros [p rest1] Hr%read_bytes_consumes. apply bind_no_panic; [by eapply Hh|]. intros m1 _. apply IH. lia.
  - apply bind_no_panic; [apply skip_no_panic|]. intros rest1 Hs%skip_consumes. apply IH. lia.
Qed.

(** The effect of a field; a field the message does not know has none. *)
Definition apply_field (f : Z * wire) (m : M) : proto_result M :=
  match handler f.1, f.2 with
  | Some (OnVarint g), WVarint v => Ok (g v m)
  | Some (OnBytes g), WBytes bz => g bz m
  | None, _ => Ok m
  | _, _ => Err ErrWrongWireType
  end.

Fixpoint apply_fields (fs : list (Z * wire)) (m : M) : proto_result M :=
  match fs with
  | [] => Ok m
  | f :: fs => m ← apply_field f m; apply_fields fs m
  end.

Definition field_ok (f : Z * wire) : Prop :=
  0 < f.1 < 2 ^ 28 ∧ match f.2 with WVarint v => in_u64 v | WBytes bz => Z.of_nat (length bz) < 2 ^ 63 end.

Lemma tag_parts n t : 0 < n < 2 ^ 28 → 0 <= t < 8 →
  Z.land (n * 8 + t) 7 = t ∧ i32_of (Z.shiftr (n * 8 + t) 3) = n ∧ in_u64 (n * 8 + t).
Proof.
  intros Hn Ht. split_and!.
  - change 7 with (Z.ones 3). rewrite Z.land_ones by lia. change (2 ^ 3) with 8.
    rewrite Z.add_comm, Z.mod_add by lia. by apply Z.mod_small.
  - rewrite Z.shiftr_div_pow2 by lia. change (2 ^ 3) with 8. rewrite Z.div_add_l, Z.div_small by lia.
    unfold i32_of. rewrite Z.mod_small; lia.
  - unfold in_u64. lia.
Qed.

Lemma jump_payload total bz rest :
  Z.of_nat (length (bz ++ rest)) <= total < 2 ^ 63 → jump total (Z.of_nat (length bz)) (bz ++ rest) = Ok rest.
Proof.
  intros Ht. unfold jump. rewrite length_app in *. rewrite (proj2 (Z.leb_gt _ _)), (proj2 (Z.ltb_ge _ _)) by lia.
  by rewrite Nat2Z.id, drop_app_length.
Qed.

Lemma read_bytes_payload total bz rest :
  Z.of_nat (length (bz ++ rest)) <= total < 2 ^ 63 →
  read_bytes total (encodeVarint (Z.of_nat (length bz)) ++ bz ++ rest) = Ok (bz, rest).
Proof.
  intros Ht. assert (Z.of_nat (length bz) < 2 ^ 63) by (rewrite length_app in Ht; lia).
  unfold read_bytes. rewrite decodeVarint_encode, Ok_bind by (unfold in_u64; lia).
  rewrite i64_small by (unfold in_i64; lia). rewrite (proj2 (Z.ltb_ge _ _)) by lia.
  rewrite jump_payload, Ok_bind by done. by rewrite Nat2Z.id, take_app_length.
Qed.

Lemma encode_field_tag f :
  ∃ t tail, 0 <= t < 8 ∧ encode_field f = encodeVarint (f.1 * 8 + t) ++ tail ∧
    match f.2 with
    | WVarint v => t = 0 ∧ tail = encodeVarint v
    | WBytes bz => t = 2 ∧ tail = encodeVarint (Z.of_nat (length bz)) ++ bz
    end.
Proof.
  destruct f as [n [v|bz]]; cbn [encode_field fst snd].
  - exists 0, (encodeVarint v). rewrite Z.add_0_r. split_and!; [lia..|done|done|done].
  - exists 2, (encodeVarint (Z.of_nat (length bz)) ++ bz). split_and!; [lia..|done|done|done].
Qed.

(** A whole field is skipped. *)
Lemma skip_field f rest :
  field_ok f → Z.of_nat (length (encode_field f ++ rest)) < 2 ^ 63 → skip (encode_field f ++ rest) = Ok rest.
Proof.
  intros [Hn Hw] Hl. destruct (encode_field_tag f) as (t & tail & Ht & He & Hf). rewrite He in *.
  rewrite <-app_assoc in *. destruct (tag_parts f.1 t Hn Ht) as (Hland & _ & Hu).
  pose proof (decodeVarint_encode _ (tail ++ rest) Hu) as Hd.
  unfold skip. set (total := Z.of_nat _) in *. assert (Z.of_nat (length (tail ++ rest)) <= total) as Hle.
  { subst total. rewrite !length_app. lia. }
  destruct (encodeVarint (f.1 * 8 + t) ++ tail ++ rest) as [|b l]; [done|]. cbn [skip_loop]. rewrite Hd, Ok_bind, Hland.
  destruct (f.2) as [v|bz]; destruct Hf as [-> ->]; cbn [Z.eqb].
  - by rewrite decodeVarint_encode, Ok_bind by done.
  - rewrite <-!app_assoc in *. rewrite decodeVarint_encode, Ok_bind by (unfold in_u64; lia).
    rewrite i64_small by (unfold in_i64; lia). change (Pos.eqb 2 1) with false. cbn match.
    rewrite (proj2 (Z.ltb_ge _ _)) by lia. rewrite jump_payload, Ok_bind; [done|]. rewrite length_app in Hle. lia.
Qed.

Lemma unmarshal_field total f rest m fuel fuel' :
  field_ok f → (length (encode_field f ++ rest) < fuel)%nat → (length rest < fuel')%nat → Z.of_nat (length (encode_field f ++ rest)) <= total < 2 ^ 63 →
  unmarshal_loop handler fuel total (encode_field f ++ rest) m =
    m ← apply_field f m; unmarshal_loop handler fuel' total rest m.
Proof.
  intros Hok Hfuel Hfuel' Hl. destruct fuel as [|fuel]; [lia|]. pose proof (skip_field f rest Hok ltac:(lia)) as Hskip.
  pose proof Hok as [Hn Hw]. destruct (encode_field_tag f) as (t & tail & Ht & He & Hf).
  assert (encode_field f ++ rest = encodeVarint (f.1 * 8 + t) ++ tail ++ rest) as Hall by by rewrite He, <-app_assoc.
  rewrite Hall in *. destruct (tag_parts f.1 t Hn Ht) as (Hland & Hnum & Hu).
  pose proof (decodeVarint_encode _ (tail ++ rest) Hu) as Hd. pose proof (decodeVarint_consumes _ _ _ Hd) as Hc.
  set (bz := encodeVarint (f.1 * 8 + t) ++ tail ++ rest) in *. cbn [unmarshal_loop].
  destruct bz as [|b l]; [done|]. rewrite Hd, Ok_bind, Hland, Hnum.
  assert ((t =? 4) = false) as -> by (destruct (f.2); destruct Hf as [-> _]; done). rewrite (proj2 (Z.leb_gt _ _)) by lia.
  unfold apply_field. rewrite length_app in Hc. destruct (handler f.1) as [[g|g]|].
  - destruct (f.2) as [v|w]; destruct Hf as [-> ->]; [|done]. cbn [Z.eqb negb].
    rewrite decodeVarint_encode, !Ok_bind by done. apply unmarshal_fuel; lia.
  - destruct (f.2) as [v|w]; destruct Hf as [-> ->]; [done|]. cbn [Z.eqb Pos.eqb negb].
    rewrite <-app_assoc, read_bytes_payload, Ok_bind; [|rewrite !length_app in *; lia].
    destruct (g w m) as [m1| |]; [|done..]. rewrite !Ok_bind. apply unmarshal_fuel; lia.
  - rewrite Hskip, !Ok_bind. apply unmarshal_fuel; lia.
Qed.

(** The bytes of a message have the effect of its fields, in their order. *)
Lemma unmarshal_marshal fs m :
  Forall field_ok fs → Z.of_nat (length (marshal fs)) < 2 ^ 63 → unmarshal handler (marshal fs) m = apply_fields fs m.
Proof.
  intros Hok Hl. unfold unmarshal. set (total := Z.of_nat _) in *.
  assert (length (marshal fs) < S (length (marshal fs)))%nat as Hfuel by lia. revert Hfuel.
  generalize (S (length (marshal fs))) as fuel. intros fuel Hfuel. assert (Z.of_nat (length (marshal fs)) <= total) as Hle by done.
  clearbody total. revert m Hfuel Hle. induction Hok as [|f fs Hf _ IH]; intros m Hfuel Hle; cbn [marshal flat_map apply_fields].
  { destruct fuel; [lia|done]. }
  change (flat_map encode_field fs) with (marshal fs) in *. cbn [marshal flat_map] in Hfuel, Hle.
  change (flat_map encode_field fs) with (marshal fs) in *.
  rewrite (unmarshal_field _ _ _ _ _ fuel) by (done || (rewrite length_app in *; lia)). rewrite length_app in *.
  destruct (apply_field f m) as [m1| |]; [|done..]. rewrite !Ok_bind. apply IH; lia.
Qed.

(** [Size] is the length of what [Marshal] writes. *)
Lemma marshal_size fs : Forall field_ok fs → Z.of_nat (length (marshal fs)) = size fs.
Proof.
  assert (∀ f, field_ok f → Z.of_nat (length (encode_field f)) = field_size f) as Hone.
  { intros [n [v|bz]] [Hn Hw]; cbn [fst snd field_size encode_field] in *; rewrite !length_app, !Nat2Z.inj_add.
    - rewrite !length_encodeVarint by (done || (unfold in_u64; lia)). done.
    - rewrite !length_encodeVarint by (unfold in_u64; lia). lia. }
  induction 1 as [|f fs Hf _ IH]; [done|]. cbn [marshal flat_map size foldr].
  change (flat_map encode_field fs) with (marshal fs). change (foldr _ 0 fs) with (size fs).
  by rewrite length_app, Nat2Z.inj_add, IH, Hone.
Qed.
End Roundtrip.

(** ** Applying fields *)

Lemma apply_fields_app {M} (h : Z → option (field_handler M)) fs gs m :
  apply_fields h (fs ++ gs) m = m ← apply_fields h fs m; apply_fields h gs m.
Proof.
  revert m. induction fs as [|f fs IH]; intros m; [done|]. cbn [app apply_fields].
  destruct (apply_field h f m) as [m1| |]; [|done..]. rewrite !Ok_bind. apply IH.
Qed.

Lemma apply_then {M} (h : Z → option (field_handler M)) fs gs m m' :
  apply_fields h fs m = Ok m' → apply_fields h (fs ++ gs) m = apply_fields h gs m'.
Proof. intros H. by rewrite apply_fields_app, H, Ok_bind. Qed.

(** A number that is left out is zero, which is what the field starts with. *)
Lemma apply_uint {M} (h : Z → option (field_handler M)) n v g m m' :
  h n = Some (OnVarint g) → (v ≠ 0 → g v m = m') → (v = 0 → m = m') → apply_fields h (uint_field n v) m = Ok m'.
Proof.
  intros Hh Hg H0. unfold uint_field. destruct (Z.eqb_spec v 0) as [Hv|Hv]; cbn; [by rewrite H0|].
  unfold apply_field. cbn. by rewrite Hh, Ok_bind, Hg.
Qed.

Lemma apply_bool {M} (h : Z → option (field_handler M)) n b g m m' :
  h n = Some (OnVarint g) → (b = true → g 1 m = m') → (b = false → m = m') → apply_fields h (bool_field n b) m = Ok m'.
Proof.
  intros Hh Hg H0. unfold bool_field. destruct b; cbn; [|by rewrite H0]. unfold apply_field. cbn. by rewrite Hh, Ok_bind, Hg.
Qed.

Lemma i64_u64 z : in_i64 z → i64 (u64 z) = z.
Proof.
  intros Hz. unfold i64, u64, in_i64 in *. rewrite Zplus_mod_idemp_l, Z.mod_small; lia.
Qed.

Lemma i32_u64 z : - 2 ^ 31 <= z < 2 ^ 31 → i32_of (u64 z) = z.
Proof.
  intros Hz. unfold i32_of, u64. destruct (Z.lt_ge_cases z 0).
  - rewrite <-(Z.mod_add z 1), Z.mul_1_l, (Z.mod_small (z + 2 ^ 64)) by lia.
    replace (z + 2 ^ 64 + 2 ^ 31) with ((z + 2 ^ 31) + 2 ^ 32 * 2 ^ 32) by lia. rewrite Z.mod_add, Z.mod_small; lia.
  - rewrite (Z.mod_small z), Z.mod_small; lia.
Qed.

Lemma u64_zero z : in_i64 z → u64 z = 0 → z = 0.
Proof.
  unfold in_i64, u64. intros Hz H0. destruct (Z.lt_ge_cases z 0); [|rewrite Z.mod_small in H0; lia].
  rewrite <-(Z.mod_add z 1), Z.mul_1_l, Z.mod_small in H0; lia.
Qed.

Lemma uint_field_ok n v : 0 < n < 2 ^ 28 → in_u64 v → Forall field_ok (uint_field n v).
Proof. intros Hn Hv. unfold uint_field. destruct (v =? 0); [constructor|]. constructor; [by split|constructor]. Qed.

Lemma bool_field_ok n b : 0 < n < 2 ^ 28 → Forall field_ok (bool_field n b).
Proof. intros Hn. destruct b; constructor; [|constructor]. split; [done|]. cbn. unfold in_u64. lia. Qed.

Lemma bytes_field_ok n bz : 0 < n < 2 ^ 28 → Z.of_nat (length bz) < 2 ^ 63 → Forall field_ok (bytes_field n bz).
Proof. intros Hn Hl. destruct bz; cbn; [constructor|]. constructor; [by split|constructor]. Qed.

Lemma apply_bytes {M} (h : Z → option (field_handler M)) n bz g m m' :
  h n = Some (OnBytes g) → (bz ≠ [] → g bz m = Ok m') → (bz = [] → m = m') → apply_fields h (bytes_field n bz) m = Ok m'.
Proof.
  intros Hh Hg H0. unfold bytes_field. destruct bz as [|b bz]; cbn; [by rewrite H0|].
  unfold apply_field. cbn. by rewrite Hh, Hg, Ok_bind.
Qed.

(** ** Bounds *)

Lemma length_varint_le fuel v : (length (varint_loop fuel v) <= S fuel)%nat.
Proof. revert v. induction fuel as [|fuel IH]; intros v; cbn [varint_loop]; [cbn; lia|]. destruct (128 <=? v); cbn; [|lia]. specialize (IH (Z.shiftr v 7)). lia. Qed.

(** The bytes of the payloads in a list of fields. *)
Definition payload (f : Z * wire) : nat := match f.2 with WVarint _ => 0 | WBytes bz => length bz end.

Lemma length_marshal_le fs : (length (marshal fs) <= sum_list_with (λ f, 20 + payload f) fs)%nat.
Proof.
  induction fs as [|[n w] fs IH]; [done|]. cbn [marshal flat_map sum_list_with].
  change (flat_map encode_field fs) with (marshal fs). rewrite length_app.
  pose proof (length_varint_le 9) as Hv. destruct w as [v|bz]; cbn [encode_field payload snd]; rewrite !length_app;
    unfold encodeVarint; [pose proof (Hv (n * 8)); pose proof (Hv v)|pose proof (Hv (n * 8 + 2)); pose proof (Hv (Z.of_nat (length bz)))]; lia.
Qed.
