(* ===== verification/AccessList.v ===== *)
(** * The EIP-2929 access list of [x/evm/statedb/access_list.go]

    The code keeps the slots of an address in a slice of sets and the index of
    that set in a map, [-1] for an address without slots; deletion truncates
    the slice, which is right only in the reverse order of the additions.  This
    file models the structure and its operations, shows that it represents a
    set of addresses and a set of (address, slot) pairs, and that each deletion
    undoes the addition made last, exactly. *)

From S2P Require Import Prelude.

Abbreviation Address := Z (only parsing).
Abbreviation Hash := Z (only parsing).

Record accessList := mkAccessList {
  al_addresses : gmap Address Z;
  al_slots : list (gset Hash)
}.

Definition newAccessList : accessList := mkAccessList ∅ [].

Definition ContainsAddress (al : accessList) (address : Address) : bool :=
  bool_decide (is_Some (al_addresses al !! address)).

Definition Contains (al : accessList) (address : Address) (slot : Hash) :
    partial (bool * bool) :=
  match al_addresses al !! address with
  | None => Ok (false, false)
  | Some idx =>
      if decide (idx = -1) then Ok (true, false)
      else
        match slice_at (al_slots al) idx with
        | None => Panic
        | Some slotmap => Ok (true, bool_decide (slot ∈ slotmap))
        end
  end.

Definition AddAddress (al : accessList) (address : Address) : bool * accessList :=
  match al_addresses al !! address with
  | Some _ => (false, al)
  | None => (true, mkAccessList (<[address := -1]> (al_addresses al)) (al_slots al))
  end.

(** The last branch of the Go code updates the set [al.slots[idx]] in place. *)
Definition AddSlot (al : accessList) (address : Address) (slot : Hash) :
    partial (bool * bool * accessList) :=
  let fresh addrPresent :=
    Ok (negb addrPresent, true,
        mkAccessList
          (<[address := Z.of_nat (length (al_slots al))]> (al_addresses al))
          (al_slots al ++ [{[slot]}])) in
  match al_addresses al !! address with
  | None => fresh false
  | Some idx =>
      if decide (idx = -1) then fresh true
      else
        match slice_at (al_slots al) idx with
        | None => Panic
        | Some slotmap =>
            if decide (slot ∈ slotmap) then Ok (false, false, al)
            else Ok (false, true,
                     mkAccessList (al_addresses al)
                       (<[Z.to_nat idx := {[slot]} ∪ slotmap]> (al_slots al)))
        end
  end.

Definition DeleteSlot (al : accessList) (address : Address) (slot : Hash) :
    partial accessList :=
  match al_addresses al !! address with
  | None => Panic
  | Some idx =>
      match slice_at (al_slots al) idx with
      | None => Panic
      | Some slotmap =>
          let slotmap' := slotmap ∖ {[slot]} in
          if decide (size slotmap' = 0%nat) then
            Ok (mkAccessList (<[address := -1]> (al_addresses al))
                  (take (Z.to_nat idx) (al_slots al)))
          else
            Ok (mkAccessList (al_addresses al)
                  (<[Z.to_nat idx := slotmap']> (al_slots al)))
      end
  end.

Definition DeleteAddress (al : accessList) (address : Address) : accessList :=
  mkAccessList (delete address (al_addresses al)) (al_slots al).

(** ** Well-formed access lists *)

Record al_wf (al : accessList) : Prop := {
  al_wf_range a i :
    al_addresses al !! a = Some i → i = -1 ∨ ∃ n m, i = Z.of_nat n ∧ al_slots al !! n = Some m;
  al_wf_nonempty n m : al_slots al !! n = Some m → m ≠ ∅;
  al_wf_inj a b (n : nat) :
    al_addresses al !! a = Some (Z.of_nat n) →
    al_addresses al !! b = Some (Z.of_nat n) → a = b
}.

(** The pair of sets the access list stands for. *)
Record access_sets := mkAccessSets {
  as_addrs : gset Address;
  as_slots : gset (Address * Hash)
}.

Definition al_mem (al : accessList) (a : Address) (s : Hash) : Prop :=
  ∃ n m, al_addresses al !! a = Some (Z.of_nat n) ∧ al_slots al !! n = Some m ∧ s ∈ m.

Record represents (al : accessList) (S : access_sets) : Prop := {
  rep_wf : al_wf al;
  rep_addrs : as_addrs S = dom (al_addresses al);
  rep_slots a s : (a, s) ∈ as_slots S ↔ al_mem al a s
}.

Lemma new_represents : represents newAccessList (mkAccessSets ∅ ∅).
Proof.
  split; [split|done|]; simpl.
  - intros a i. by rewrite lookup_empty.
  - done.
  - intros a b n. by rewrite lookup_empty.
  - intros a s. split; [set_solver|].
    intros (n & m & H & _). simpl in H. by rewrite lookup_empty in H.
Qed.

(** Case analysis on the entry of an address in a well-formed list. *)
Lemma al_wf_cases al a :
  al_wf al →
  al_addresses al !! a = None ∨ al_addresses al !! a = Some (-1) ∨
  ∃ n m, al_addresses al !! a = Some (Z.of_nat n) ∧ al_slots al !! n = Some m ∧ m ≠ ∅.
Proof.
  intros Hwf. destruct (al_addresses al !! a) as [i|] eqn:Hi; [|by left].
  right. destruct (al_wf_range al Hwf a i Hi) as [->|(n & m & -> & Hm)]; [by left|].
  right. exists n, m. repeat split; try done. by eapply al_wf_nonempty.
Qed.

(** [Contains] reads the two sets and never panics. *)
Lemma Contains_represents al S a s :
  represents al S →
  Contains al a s = Ok (bool_decide (a ∈ as_addrs S), bool_decide ((a, s) ∈ as_slots S)).
Proof.
  intros [Hwf Ha Hs]. unfold Contains. rewrite Ha.
  destruct (al_wf_cases al a Hwf) as [H|[H|(n & m & H & Hm & _)]]; rewrite H.
  - rewrite !bool_decide_eq_false_2; [done| |by apply not_elem_of_dom].
    rewrite Hs. intros (n & m & H' & _). congruence.
  - rewrite decide_True by done.
    rewrite bool_decide_eq_true_2, bool_decide_eq_false_2; [done| |by apply elem_of_dom_2 in H].
    rewrite Hs. intros (n & m & H' & _). rewrite H in H'. injection H'. lia.
  - rewrite decide_False by lia. rewrite slice_at_nat, Hm.
    rewrite (bool_decide_eq_true_2 (a ∈ _)) by (by apply elem_of_dom_2 in H).
    do 2 f_equal. apply bool_decide_ext. rewrite Hs. unfold al_mem.
    split; [naive_solver|].
    intros (n' & m' & H' & Hm' & ?). rewrite H in H'. injection H' as H'.
    assert (n' = n) as -> by lia. congruence.
Qed.

(** [AddAddress] inserts the address and reports whether it was new. *)
Lemma AddAddress_represents al S a :
  represents al S →
  (AddAddress al a).1 = bool_decide (a ∉ as_addrs S) ∧
  represents (AddAddress al a).2 (mkAccessSets ({[a]} ∪ as_addrs S) (as_slots S)).
Proof.
  intros [Hwf Ha Hs]. unfold AddAddress.
  destruct (al_addresses al !! a) as [i|] eqn:Hi; simpl.
  - pose proof (elem_of_dom_2 _ _ _ Hi). split.
    + rewrite bool_decide_eq_false_2; set_solver.
    + split; try done. simpl. set_solver.
  - apply not_elem_of_dom in Hi as Hi'. split.
    { rewrite bool_decide_eq_true_2; set_solver. }
    split; [split|simpl; set_solver|]; simpl.
    + intros b j. rewrite lookup_insert. case_decide; [naive_solver|]. by apply al_wf_range.
    + by apply al_wf_nonempty.
    + intros b c n. rewrite !lookup_insert.
      do 2 case_decide; try naive_solver lia. by apply al_wf_inj.
    + intros b s. rewrite Hs. unfold al_mem; simpl.
      f_equiv; intros n; f_equiv; intros m. rewrite lookup_insert.
      case_decide; [subst|done]. rewrite Hi. split; [naive_solver|].
      intros ([=] & _). lia.
Qed.

Lemma al_mem_fresh al a s b t n :
  al_wf al → n = length (al_slots al) →
  (al_addresses al !! a = None ∨ al_addresses al !! a = Some (-1)) →
  al_mem (mkAccessList (<[a := Z.of_nat n]> (al_addresses al)) (al_slots al ++ [{[s]}])) b t ↔
  (b, t) = (a, s) ∨ al_mem al b t.
Proof.
  intros Hwf -> Ha. unfold al_mem; simpl. split.
  - intros (n & m & H & Hm & Ht). rewrite lookup_insert in H. case_decide; subst.
    + injection H as H. assert (n = length (al_slots al)) as -> by lia.
      rewrite list_lookup_middle in Hm by done. left. set_solver.
    + right. exists n, m. destruct (al_wf_range al Hwf b _ H) as [|(n' & m' & ? & Hm')]; [lia|].
      assert (n' = n) as -> by lia.
      rewrite lookup_app_l in Hm by (by eapply lookup_lt_Some). done.
  - intros [[= -> ->]|(n & m & H & Hm & Ht)].
    + exists (length (al_slots al)), {[s]}.
      rewrite lookup_insert_eq, list_lookup_middle by done. set_solver.
    + exists n, m. rewrite lookup_insert_ne.
      2: { intros ->. destruct Ha as [Ha|Ha]; rewrite Ha in H; [done|]. injection H. lia. }
      by rewrite lookup_app_l by (by eapply lookup_lt_Some).
Qed.

Lemma al_wf_fresh al a s :
  al_wf al →
  (al_addresses al !! a = None ∨ al_addresses al !! a = Some (-1)) →
  al_wf (mkAccessList (<[a := Z.of_nat (length (al_slots al))]> (al_addresses al))
           (al_slots al ++ [{[s]}])).
Proof.
  intros Hwf Ha. split; simpl.
  - intros b i. rewrite lookup_insert. case_decide as Hd.
    + intros [= <-]. right. exists (length (al_slots al)), {[s]}.
      by rewrite list_lookup_middle.
    + intros H. destruct (al_wf_range al Hwf b i H) as [|(n & m & -> & Hm)]; [by left|].
      right. exists n, m. by rewrite lookup_app_l by (by eapply lookup_lt_Some).
  - intros n m [H|[? H]]%lookup_app_Some; [by eapply al_wf_nonempty|].
    apply list_lookup_singleton_Some in H as [_ <-]. set_solver.
  - assert (∀ b n, al_addresses al !! b = Some (Z.of_nat n) → (n < length (al_slots al))%nat) as Hlt.
    { intros b n H. destruct (al_wf_range al Hwf b _ H) as [|(n' & m & ? & Hm)]; [lia|].
      assert (n' = n) as -> by lia. by eapply lookup_lt_Some. }
    intros b c n. rewrite !lookup_insert.
    do 2 case_decide; subst; try done; [| |by apply al_wf_inj].
    + intros [= Heq] Hc%Hlt. lia.
    + intros Hc%Hlt [= Heq]. lia.
Qed.

Lemma al_update_slot al a (n : nat) m s :
  al_wf al → al_addresses al !! a = Some (Z.of_nat n) → al_slots al !! n = Some m →
  let al' := mkAccessList (al_addresses al) (<[n := {[s]} ∪ m]> (al_slots al)) in
  al_wf al' ∧ ∀ b t, al_mem al' b t ↔ (b, t) = (a, s) ∨ al_mem al b t.
Proof.
  intros Hwf Ha Hm al'. pose proof (lookup_lt_Some _ _ _ Hm) as Hlt.
  assert (∀ k, al_slots al' !! k = if decide (n = k) then Some ({[s]} ∪ m) else al_slots al !! k)
    as Hlook.
  { intros k. unfold al'; simpl. case_decide; [subst; by apply list_lookup_insert_eq|].
    by apply list_lookup_insert_ne. }
  split; [split|].
  - intros b i H. destruct (al_wf_range al Hwf b i H) as [|(k & m' & -> & Hk)]; [by left|].
    right. exists k. rewrite Hlook. case_decide; eauto.
  - intros k m'. rewrite Hlook. case_decide; [set_solver|by apply al_wf_nonempty].
  - apply (al_wf_inj al Hwf).
  - intros b t. unfold al_mem. setoid_rewrite Hlook. simpl. split.
    + intros (k & m' & Hb & Hk & Ht). case_decide; [subst|right; eauto 10].
      injection Hk as <-. assert (b = a) as -> by (by eapply al_wf_inj).
      apply elem_of_union in Ht as [Ht|Ht]; [left; set_solver|right; eauto 10].
    + intros [[= -> ->]|(k & m' & Hb & Hk & Ht)].
      * exists n, ({[s]} ∪ m). rewrite decide_True by done. set_solver.
      * exists k. case_decide; [subst|eauto].
        exists ({[s]} ∪ m). assert (m' = m) as -> by congruence. set_solver.
Qed.

(** [AddSlot] inserts the pair and its address, reports which of them were
    new, and never panics. *)
Lemma AddSlot_represents al S a s :
  represents al S →
  ∃ al', AddSlot al a s =
           Ok (bool_decide (a ∉ as_addrs S), bool_decide ((a, s) ∉ as_slots S), al') ∧
         represents al' (mkAccessSets ({[a]} ∪ as_addrs S) ({[(a, s)]} ∪ as_slots S)).
Proof.
  intros [Hwf Ha Hs]. unfold AddSlot.
  assert (∀ m, al_addresses al !! a = m → m = None ∨ m = Some (-1) →
    ((a, s) ∉ as_slots S) ∧
    represents (mkAccessList (<[a := Z.of_nat (length (al_slots al))]> (al_addresses al))
                  (al_slots al ++ [{[s]}]))
      (mkAccessSets ({[a]} ∪ as_addrs S) ({[(a, s)]} ∪ as_slots S))) as Hfresh.
  { intros m <- Hm. split.
    - rewrite Hs. intros (n & m & H & _). rewrite H in Hm. destruct Hm as [|[=]]; [done|lia].
    - split; [by apply al_wf_fresh|simpl; set_solver|].
      intros b t. rewrite al_mem_fresh by done. simpl. rewrite <-Hs. set_solver. }
  destruct (al_wf_cases al a Hwf) as [H|[H|(n & m & H & Hm & _)]]; rewrite H.
  - destruct (Hfresh _ H) as [? ?]; [by left|]. eexists; split; [|done].
    rewrite !bool_decide_eq_true_2; [done|done|]. rewrite Ha. by apply not_elem_of_dom.
  - destruct (Hfresh _ H) as [? ?]; [by right|]. eexists; split; [|done].
    rewrite decide_True by done. rewrite bool_decide_eq_false_2, bool_decide_eq_true_2; [done..|].
    apply elem_of_dom_2 in H. set_solver.
  - rewrite decide_False by lia. rewrite slice_at_nat, Hm, Nat2Z.id.
    assert ((a, s) ∈ as_slots S ↔ s ∈ m) as Hin.
    { rewrite Hs. unfold al_mem. split; [|naive_solver].
      intros (n' & m' & H' & Hm' & ?). rewrite H in H'. injection H' as H'.
      assert (n' = n) as -> by lia. congruence. }
    assert (a ∈ as_addrs S) by (rewrite Ha; by eapply elem_of_dom_2).
    destruct (decide (s ∈ m)) as [Hsm|Hsm]; eexists; (split;
      [rewrite bool_decide_eq_false_2 by set_solver|]).
    + rewrite bool_decide_eq_false_2 by naive_solver. done.
    + replace ({[a]} ∪ as_addrs S) with (as_addrs S) by set_solver.
      replace ({[(a, s)]} ∪ as_slots S) with (as_slots S) by set_solver. by destruct S.
    + rewrite bool_decide_eq_true_2 by naive_solver. done.
    + destruct (al_update_slot al a n m s) as [Hwf' Hmem]; try done.
      split; [done|simpl; set_solver|].
      intros b t. rewrite Hmem, <-Hs. simpl. set_solver.
Qed.

(** ** Deletion undoes the addition made last *)

Lemma DeleteAddress_AddAddress al a al' :
  AddAddress al a = (true, al') → DeleteAddress al' a = al.
Proof.
  unfold AddAddress, DeleteAddress.
  destruct (al_addresses al !! a) eqn:H; [done|]. intros [= <-].
  destruct al as [m l]; simpl in *. by rewrite delete_insert_id.
Qed.

(** Undoing [AddSlot]: delete the slot when it was added, then the address
    when it was added. *)
Definition undo_AddSlot (a : Address) (s : Hash) (addrMod slotMod : bool) (al : accessList) :
    partial accessList :=
  al1 ← (if slotMod then DeleteSlot al a s else Ok al);
  Ok (if addrMod then DeleteAddress al1 a else al1).

Lemma DeleteSlot_fresh al a s :
  DeleteSlot (mkAccessList (<[a := Z.of_nat (length (al_slots al))]> (al_addresses al))
                (al_slots al ++ [{[s]}])) a s =
  Ok (mkAccessList (<[a := -1]> (al_addresses al)) (al_slots al)).
Proof.
  unfold DeleteSlot; simpl. rewrite lookup_insert_eq, slice_at_nat, list_lookup_middle by done.
  rewrite decide_True by (by rewrite difference_diag_L, size_empty).
  by rewrite insert_insert_eq, Nat2Z.id, take_app_length.
Qed.

Lemma DeleteSlot_update al a (n : nat) m s :
  al_addresses al !! a = Some (Z.of_nat n) → al_slots al !! n = Some m → m ≠ ∅ → s ∉ m →
  DeleteSlot (mkAccessList (al_addresses al) (<[n := {[s]} ∪ m]> (al_slots al))) a s = Ok al.
Proof.
  intros Ha Hm Hne Hs. pose proof (lookup_lt_Some _ _ _ Hm).
  unfold DeleteSlot; simpl. rewrite Ha, slice_at_nat, list_lookup_insert_eq by done.
  replace (({[s]} ∪ m) ∖ {[s]}) with m by set_solver.
  rewrite decide_False by (by rewrite size_empty_iff, leibniz_equiv_iff).
  rewrite Nat2Z.id, list_insert_insert_eq, list_insert_id by done. by destruct al.
Qed.

Lemma AddSlot_undo al a s addrMod slotMod al' :
  al_wf al → AddSlot al a s = Ok (addrMod, slotMod, al') →
  undo_AddSlot a s addrMod slotMod al' = Ok al.
Proof.
  intros Hwf. unfold AddSlot, undo_AddSlot.
  destruct (al_wf_cases al a Hwf) as [H|[H|(n & m & H & Hm & Hne)]]; rewrite H.
  - intros [= <- <- <-]. rewrite DeleteSlot_fresh; simpl. unfold DeleteAddress; simpl.
    rewrite delete_insert_id by done. by destruct al.
  - rewrite decide_True by done. intros [= <- <- <-]. rewrite DeleteSlot_fresh; simpl.
    rewrite insert_id by done. by destruct al.
  - rewrite decide_False by lia. rewrite slice_at_nat, Hm, Nat2Z.id.
    case_decide; intros [= <- <- <-]; [done|]. by erewrite DeleteSlot_update.
Qed.
