(* ===== verification/StateDB.v ===== *)
(** * The journalled state database of [x/evm/statedb]

    Models [state_object.go], [journal.go] and [statedb.go].  A [stateObject]
    is a Go pointer shared between the map [stateObjects] and its user; every
    method that changes one writes it back under its address ([setStateObject]).
    Objects kept in a [resetObjectChange] are no longer in the map, so they are
    frozen values.  [big.Int] balances are never updated in place.

    The store behind the database is the interface [Keeper] of
    [interfaces.go]; [Commit] is its only writer, so during the execution of a
    message the store is a constant, the section variable [ctx]. *)

From S2P Require Import Prelude AccessList.

(** ** Data *)

(** [Balance] and [CodeHash] are [nil] in the zero value [Account{}] only;
    [newObject] fills them. *)
Record Account := mkAccount {
  acc_Nonce : Z;
  acc_Balance : option Z;
  acc_CodeHash : option Hash
}.

Record stateObject := mkStateObject {
  so_address : Address;
  so_account : Account;
  so_code : option (list byte);
  so_originStorage : gmap Hash Hash;
  so_dirtyStorage : gmap Hash Hash;
  so_dirtyCode : bool;
  so_suicided : bool
}.

Record Log := mkLog {
  log_Address : Address;
  log_Topics : list Hash;
  log_Data : list byte;
  log_TxHash : Hash;
  log_BlockHash : Hash;
  log_TxIndex : Z;
  log_Index : Z
}.

Record TxConfig := mkTxConfig {
  cfg_BlockHash : Hash;
  cfg_TxHash : Hash;
  cfg_TxIndex : Z;
  cfg_LogIndex : Z
}.

(** The modifications a journal records, with what undoes them. *)
Inductive JournalEntry :=
| createObjectChange (account : Address)
| resetObjectChange (prev : stateObject)
| suicideChange (account : Address) (prev : bool) (prevbalance : Z)
| balanceChange (account : Address) (prev : Z)
| nonceChange (account : Address) (prev : Z)
| storageChange (account : Address) (key prevalue : Hash)
| codeChange (account : Address) (prevcode : option (list byte)) (prevhash : Hash)
| refundChange (prev : Z)
| addLogChange
| accessListAddAccountChange (address : Address)
| accessListAddSlotChange (address : Address) (slot : Hash).

Definition Dirtied (ch : JournalEntry) : option Address :=
  match ch with
  | createObjectChange a | suicideChange a _ _ | balanceChange a _
  | nonceChange a _ | storageChange a _ _ | codeChange a _ _ => Some a
  | resetObjectChange _ | refundChange _ | addLogChange
  | accessListAddAccountChange _ | accessListAddSlotChange _ _ => None
  end.

Record journal := mkJournal {
  j_entries : list JournalEntry;
  j_dirties : gmap Address Z
}.

Record revision := mkRevision { rev_id : Z; rev_journalIndex : nat }.

Record StateDB := mkStateDB {
  sdb_journal : journal;
  sdb_validRevisions : list revision;
  sdb_nextRevisionID : Z;
  sdb_stateObjects : gmap Address stateObject;
  sdb_txConfig : TxConfig;
  sdb_refund : Z;
  sdb_logs : list Log;
  sdb_accessList : accessList
}.

(** ** The store interface

    [keeper_Storage ctx a] lists the pairs [ForEachStorage] visits. *)
Class Keeper (store : Type) := {
  keeper_error : Type;
  keeper_GetAccount : store → Address → option Account;
  keeper_GetState : store → Address → Hash → Hash;
  keeper_GetCode : store → Hash → option (list byte);
  keeper_Storage : store → Address → list (Hash * Hash);
  keeper_SetAccount : store → Address → Account → outcome keeper_error store;
  keeper_SetState : store → Address → Hash → list byte → store;
  keeper_SetCode : store → Hash → option (list byte) → store;
  keeper_DeleteAccount : store → Address → outcome keeper_error store
}.

(** ** Field updates *)

Definition set_journal (j : journal) (s : StateDB) : StateDB :=
  mkStateDB j (sdb_validRevisions s) (sdb_nextRevisionID s) (sdb_stateObjects s)
    (sdb_txConfig s) (sdb_refund s) (sdb_logs s) (sdb_accessList s).
Definition set_stateObjects (m : gmap Address stateObject) (s : StateDB) : StateDB :=
  mkStateDB (sdb_journal s) (sdb_validRevisions s) (sdb_nextRevisionID s) m
    (sdb_txConfig s) (sdb_refund s) (sdb_logs s) (sdb_accessList s).
Definition set_refund (r : Z) (s : StateDB) : StateDB :=
  mkStateDB (sdb_journal s) (sdb_validRevisions s) (sdb_nextRevisionID s)
    (sdb_stateObjects s) (sdb_txConfig s) r (sdb_logs s) (sdb_accessList s).
Definition set_logs (l : list Log) (s : StateDB) : StateDB :=
  mkStateDB (sdb_journal s) (sdb_validRevisions s) (sdb_nextRevisionID s)
    (sdb_stateObjects s) (sdb_txConfig s) (sdb_refund s) l (sdb_accessList s).
Definition set_accessList (al : accessList) (s : StateDB) : StateDB :=
  mkStateDB (sdb_journal s) (sdb_validRevisions s) (sdb_nextRevisionID s)
    (sdb_stateObjects s) (sdb_txConfig s) (sdb_refund s) (sdb_logs s) al.
Definition set_revisions (l : list revision) (next : Z) (s : StateDB) : StateDB :=
  mkStateDB (sdb_journal s) l next (sdb_stateObjects s)
    (sdb_txConfig s) (sdb_refund s) (sdb_logs s) (sdb_accessList s).

Definition with_account (f : Account → Account) (obj : stateObject) : stateObject :=
  mkStateObject (so_address obj) (f (so_account obj)) (so_code obj)
    (so_originStorage obj) (so_dirtyStorage obj) (so_dirtyCode obj) (so_suicided obj).
Definition with_code (c : option (list byte)) (obj : stateObject) : stateObject :=
  mkStateObject (so_address obj) (so_account obj) c
    (so_originStorage obj) (so_dirtyStorage obj) (so_dirtyCode obj) (so_suicided obj).
Definition with_originStorage (m : gmap Hash Hash) (obj : stateObject) : stateObject :=
  mkStateObject (so_address obj) (so_account obj) (so_code obj)
    m (so_dirtyStorage obj) (so_dirtyCode obj) (so_suicided obj).
Definition with_suicided (b : bool) (obj : stateObject) : stateObject :=
  mkStateObject (so_address obj) (so_account obj) (so_code obj)
    (so_originStorage obj) (so_dirtyStorage obj) (so_dirtyCode obj) b.

(** ** Objects without access to the database *)

Definition markSuicided (obj : stateObject) : stateObject := with_suicided true obj.

Definition setBalance (amount : Z) : stateObject → stateObject :=
  with_account (λ a, mkAccount (acc_Nonce a) (Some amount) (acc_CodeHash a)).

Definition setNonce (nonce : Z) : stateObject → stateObject :=
  with_account (λ a, mkAccount nonce (acc_Balance a) (acc_CodeHash a)).

Definition setState (key value : Hash) (obj : stateObject) : stateObject :=
  mkStateObject (so_address obj) (so_account obj) (so_code obj)
    (so_originStorage obj) (<[key := value]> (so_dirtyStorage obj))
    (so_dirtyCode obj) (so_suicided obj).

Definition setCode (codeHash : Hash) (code : option (list byte)) (obj : stateObject) : stateObject :=
  let a := so_account obj in
  mkStateObject (so_address obj)
    (mkAccount (acc_Nonce a) (acc_Balance a) (Some codeHash)) code
    (so_originStorage obj) (so_dirtyStorage obj) true (so_suicided obj).

Definition Balance (obj : stateObject) : Z := default 0 (acc_Balance (so_account obj)).
Definition Nonce (obj : stateObject) : Z := acc_Nonce (so_account obj).
Definition CodeHash (obj : stateObject) : Hash := default 0 (acc_CodeHash (so_account obj)).

Definition newJournal : journal := mkJournal [] ∅.

(** [journal.append]: record the entry and count its dirty account. *)
Definition journal_append (entry : JournalEntry) (j : journal) : journal :=
  mkJournal (j_entries j ++ [entry])
    (match Dirtied entry with
     | Some addr => <[addr := default 0 (j_dirties j !! addr) + 1]> (j_dirties j)
     | None => j_dirties j
     end).

Definition sortedDirties (j : journal) : list Address := sorted_keys (j_dirties j).

Definition SortedKeys (st : gmap Hash Hash) : list Hash := sorted_keys st.

Definition append (entry : JournalEntry) (s : StateDB) : StateDB :=
  set_journal (journal_append entry (sdb_journal s)) s.

Definition setStateObject (obj : stateObject) (s : StateDB) : StateDB :=
  set_stateObjects (<[so_address obj := obj]> (sdb_stateObjects s)) s.

(** [statedb.New]. *)
Definition New (txConfig : TxConfig) : StateDB :=
  mkStateDB newJournal [] 0 ∅ txConfig 0 [] newAccessList.

Section Database.
Context {store : Type} `{Keeper store}.
Variable keccak : list byte → Hash.
Variable ctx : store.

Definition emptyCodeHash : Hash := keccak [].

Definition NewEmptyAccount : Account := mkAccount 0 (Some 0) (Some emptyCodeHash).

Definition IsContract (acct : Account) : bool :=
  bool_decide (acc_CodeHash acct ≠ Some emptyCodeHash).

Definition newObject (address : Address) (account : Account) : stateObject :=
  mkStateObject address
    (mkAccount (acc_Nonce account)
       (Some (default 0 (acc_Balance account)))
       (Some (default emptyCodeHash (acc_CodeHash account))))
    None ∅ ∅ false false.

Definition empty_object (obj : stateObject) : bool :=
  (Nonce obj =? 0) && (Balance obj =? 0) && (CodeHash obj =? emptyCodeHash).

(** [stateObject.Code] caches the code it loads. *)
Definition Code (obj : stateObject) : option (list byte) * stateObject :=
  match so_code obj with
  | Some code => (Some code, obj)
  | None =>
      if decide (CodeHash obj = emptyCodeHash) then (None, obj)
      else
        let code := keeper_GetCode ctx (CodeHash obj) in
        (code, with_code code obj)
  end.

(** [stateObject.GetCommittedState] caches the slot it loads. *)
Definition obj_GetCommittedState (key : Hash) (obj : stateObject) : Hash * stateObject :=
  match so_originStorage obj !! key with
  | Some value => (value, obj)
  | None =>
      let value := keeper_GetState ctx (so_address obj) key in
      (value, with_originStorage (<[key := value]> (so_originStorage obj)) obj)
  end.

Definition obj_GetState (key : Hash) (obj : stateObject) : Hash * stateObject :=
  match so_dirtyStorage obj !! key with
  | Some value => (value, obj)
  | None => obj_GetCommittedState key obj
  end.

(** ** Object methods that journal *)

Definition obj_SetBalance (amount : Z) (obj : stateObject) (s : StateDB) : StateDB :=
  let s := append (balanceChange (so_address obj) (Balance obj)) s in
  setStateObject (setBalance amount obj) s.

Definition obj_AddBalance (amount : Z) (obj : stateObject) (s : StateDB) : StateDB :=
  if amount =? 0 then s else obj_SetBalance (Balance obj + amount) obj s.

Definition obj_SubBalance (amount : Z) (obj : stateObject) (s : StateDB) : StateDB :=
  if amount =? 0 then s else obj_SetBalance (Balance obj - amount) obj s.

Definition obj_SetNonce (nonce : Z) (obj : stateObject) (s : StateDB) : StateDB :=
  let s := append (nonceChange (so_address obj) (Nonce obj)) s in
  setStateObject (setNonce nonce obj) s.

Definition obj_SetCode (codeHash : Hash) (code : option (list byte))
    (obj : stateObject) (s : StateDB) : StateDB :=
  let '(prevcode, obj) := Code obj in
  let s := append (codeChange (so_address obj) prevcode (CodeHash obj)) s in
  setStateObject (setCode codeHash code obj) s.

Definition obj_SetState (key value : Hash) (obj : stateObject) (s : StateDB) : StateDB :=
  let '(prev, obj) := obj_GetState key obj in
  if decide (prev = value) then setStateObject obj s
  else
    let s := append (storageChange (so_address obj) key prev) s in
    setStateObject (setState key value obj) s.

(** ** Finding and creating objects *)

Definition getStateObject (addr : Address) (s : StateDB) : option stateObject * StateDB :=
  match sdb_stateObjects s !! addr with
  | Some obj => (Some obj, s)
  | None =>
      match keeper_GetAccount ctx addr with
      | None => (None, s)
      | Some account =>
          let obj := newObject addr account in
          (Some obj, setStateObject obj s)
      end
  end.

Definition createObject (addr : Address) (s : StateDB) :
    stateObject * option stateObject * StateDB :=
  let '(prev, s) := getStateObject addr s in
  let newobj := newObject addr (mkAccount 0 None None) in
  let s := match prev with
           | None => append (createObjectChange addr) s
           | Some p => append (resetObjectChange p) s
           end in
  (newobj, prev, setStateObject newobj s).

Definition getOrNewStateObject (addr : Address) (s : StateDB) : stateObject * StateDB :=
  match getStateObject addr s with
  | (Some obj, s) => (obj, s)
  | (None, s) => let '(newobj, _, s) := createObject addr s in (newobj, s)
  end.

Definition CreateAccount (addr : Address) (s : StateDB) : StateDB :=
  let '(newObj, prev, s) := createObject addr s in
  match prev with
  | Some p => setStateObject (setBalance (Balance p) newObj) s
  | None => s
  end.

(** ** Queries (they cache what they load) *)

Definition Exist (addr : Address) (s : StateDB) : bool * StateDB :=
  let '(obj, s) := getStateObject addr s in (bool_decide (is_Some obj), s).

Definition Empty (addr : Address) (s : StateDB) : bool * StateDB :=
  let '(obj, s) := getStateObject addr s in
  (match obj with None => true | Some so => empty_object so end, s).

Definition GetBalance (addr : Address) (s : StateDB) : Z * StateDB :=
  let '(obj, s) := getStateObject addr s in
  (match obj with Some o => Balance o | None => 0 end, s).

Definition GetNonce (addr : Address) (s : StateDB) : Z * StateDB :=
  let '(obj, s) := getStateObject addr s in
  (match obj with Some o => Nonce o | None => 0 end, s).

Definition GetCode (addr : Address) (s : StateDB) : option (list byte) * StateDB :=
  match getStateObject addr s with
  | (Some obj, s) => let '(code, obj) := Code obj in (code, setStateObject obj s)
  | (None, s) => (None, s)
  end.

Definition GetCodeSize (addr : Address) (s : StateDB) : Z * StateDB :=
  match getStateObject addr s with
  | (Some obj, s) =>
      let '(code, obj) := Code obj in (Z.of_nat (length (default [] code)), setStateObject obj s)
  | (None, s) => (0, s)
  end.

Definition GetCodeHash (addr : Address) (s : StateDB) : Hash * StateDB :=
  let '(obj, s) := getStateObject addr s in
  (match obj with Some o => CodeHash o | None => 0 end, s).

Definition GetState (addr : Address) (key : Hash) (s : StateDB) : Hash * StateDB :=
  match getStateObject addr s with
  | (Some obj, s) => let '(v, obj) := obj_GetState key obj in (v, setStateObject obj s)
  | (None, s) => (0, s)
  end.

Definition GetCommittedState (addr : Address) (key : Hash) (s : StateDB) : Hash * StateDB :=
  match getStateObject addr s with
  | (Some obj, s) => let '(v, obj) := obj_GetCommittedState key obj in (v, setStateObject obj s)
  | (None, s) => (0, s)
  end.

Definition HasSuicided (addr : Address) (s : StateDB) : bool * StateDB :=
  let '(obj, s) := getStateObject addr s in
  (match obj with Some o => so_suicided o | None => false end, s).

(** [ForEachStorage]: run the callback over the stored pairs, dirty values
    first, until it returns [false].  (The Go test [len(value) > 0] is on a
    32-byte array and always holds.) *)
Fixpoint foreach_pairs {A} (dirty : gmap Hash Hash) (cb : A → Hash → Hash → A * bool)
    (l : list (Hash * Hash)) (acc : A) : A :=
  match l with
  | [] => acc
  | (key, value) :: l' =>
      let '(acc, go_on) := cb acc key (default value (dirty !! key)) in
      if go_on then foreach_pairs dirty cb l' acc else acc
  end.

Definition ForEachStorage {A} (addr : Address) (cb : A → Hash → Hash → A * bool)
    (acc : A) (s : StateDB) : A * StateDB :=
  match getStateObject addr s with
  | (None, s) => (acc, s)
  | (Some so, s) => (foreach_pairs (so_dirtyStorage so) cb (keeper_Storage ctx addr) acc, s)
  end.

(** ** Setters *)

Definition AddBalance (addr : Address) (amount : Z) (s : StateDB) : StateDB :=
  let '(obj, s) := getOrNewStateObject addr s in obj_AddBalance amount obj s.

Definition SubBalance (addr : Address) (amount : Z) (s : StateDB) : StateDB :=
  let '(obj, s) := getOrNewStateObject addr s in obj_SubBalance amount obj s.

Definition SetNonce (addr : Address) (nonce : Z) (s : StateDB) : StateDB :=
  let '(obj, s) := getOrNewStateObject addr s in obj_SetNonce nonce obj s.

Definition SetCode (addr : Address) (code : option (list byte)) (s : StateDB) : StateDB :=
  let '(obj, s) := getOrNewStateObject addr s in
  obj_SetCode (keccak (default [] code)) code obj s.

Definition SetState (addr : Address) (key value : Hash) (s : StateDB) : StateDB :=
  let '(obj, s) := getOrNewStateObject addr s in obj_SetState key value obj s.

Definition Suicide (addr : Address) (s : StateDB) : bool * StateDB :=
  match getStateObject addr s with
  | (None, s) => (false, s)
  | (Some obj, s) =>
      let s := append (suicideChange addr (so_suicided obj) (Balance obj)) s in
      (true, setStateObject (setBalance 0 (markSuicided obj)) s)
  end.

Definition AddLog (log : Log) (s : StateDB) : StateDB :=
  let s := append addLogChange s in
  let cfg := sdb_txConfig s in
  let log := mkLog (log_Address log) (log_Topics log) (log_Data log)
               (cfg_TxHash cfg) (cfg_BlockHash cfg) (cfg_TxIndex cfg)
               (u64 (cfg_LogIndex cfg + Z.of_nat (length (sdb_logs s)))) in
  set_logs (sdb_logs s ++ [log]) s.

Definition AddRefund (gas : Z) (s : StateDB) : StateDB :=
  let s := append (refundChange (sdb_refund s)) s in
  set_refund (u64 (sdb_refund s + gas)) s.

Definition SubRefund (gas : Z) (s : StateDB) : partial StateDB :=
  let s := append (refundChange (sdb_refund s)) s in
  if decide (gas > sdb_refund s) then Panic
  else Ok (set_refund (u64 (sdb_refund s - gas)) s).

Definition AddAddressToAccessList (addr : Address) (s : StateDB) : StateDB :=
  let '(changed, al) := AddAddress (sdb_accessList s) addr in
  let s := set_accessList al s in
  if changed then append (accessListAddAccountChange addr) s else s.

Definition AddSlotToAccessList (addr : Address) (slot : Hash) (s : StateDB) : partial StateDB :=
  '(addrMod, slotMod, al) ← AddSlot (sdb_accessList s) addr slot;
  let s := set_accessList al s in
  let s := if (addrMod : bool) then append (accessListAddAccountChange addr) s else s in
  Ok (if (slotMod : bool) then append (accessListAddSlotChange addr slot) s else s).

Definition AddressInAccessList (addr : Address) (s : StateDB) : bool :=
  ContainsAddress (sdb_accessList s) addr.

Definition SlotInAccessList (addr : Address) (slot : Hash) (s : StateDB) : partial (bool * bool) :=
  Contains (sdb_accessList s) addr slot.

Fixpoint add_slots (addr : Address) (keys : list Hash) (s : StateDB) : partial StateDB :=
  match keys with
  | [] => Ok s
  | key :: keys' => s ← AddSlotToAccessList addr key s; add_slots addr keys' s
  end.

Fixpoint add_tuples (l : list (Address * list Hash)) (s : StateDB) : partial StateDB :=
  match l with
  | [] => Ok s
  | (addr, keys) :: l' =>
      s ← add_slots addr keys (AddAddressToAccessList addr s); add_tuples l' s
  end.

Definition PrepareAccessList (sender : Address) (dst : option Address)
    (precompiles : list Address) (l : list (Address * list Hash)) (s : StateDB) : partial StateDB :=
  let s := AddAddressToAccessList sender s in
  let s := match dst with Some d => AddAddressToAccessList d s | None => s end in
  let s := foldl (λ s a, AddAddressToAccessList a s) s precompiles in
  add_tuples l s.

(** ** Undoing journal entries *)

(** Apply [f] to the object at [addr]; a method call on a [nil] object panics. *)
Definition update_object (addr : Address) (f : stateObject → stateObject) (s : StateDB) :
    partial StateDB :=
  match getStateObject addr s with
  | (Some obj, s) => Ok (setStateObject (f obj) s)
  | (None, _) => Panic
  end.

Definition entry_Revert (ch : JournalEntry) (s : StateDB) : partial StateDB :=
  match ch with
  | createObjectChange account =>
      Ok (set_stateObjects (delete account (sdb_stateObjects s)) s)
  | resetObjectChange prev => Ok (setStateObject prev s)
  | suicideChange account prev prevbalance =>
      match getStateObject account s with
      | (Some obj, s) => Ok (setStateObject (setBalance prevbalance (with_suicided prev obj)) s)
      | (None, s) => Ok s
      end
  | balanceChange account prev => update_object account (setBalance prev) s
  | nonceChange account prev => update_object account (setNonce prev) s
  | storageChange account key prevalue => update_object account (setState key prevalue) s
  | codeChange account prevcode prevhash => update_object account (setCode prevhash prevcode) s
  | refundChange prev => Ok (set_refund prev s)
  | addLogChange =>
      match sdb_logs s with
      | [] => Panic
      | _ => Ok (set_logs (take (length (sdb_logs s) - 1) (sdb_logs s)) s)
      end
  | accessListAddAccountChange address =>
      Ok (set_accessList (DeleteAddress (sdb_accessList s) address) s)
  | accessListAddSlotChange address slot =>
      al ← DeleteSlot (sdb_accessList s) address slot; Ok (set_accessList al s)
  end.

(** Drop the dirty count of an undone entry. *)
Definition undirty (ch : JournalEntry) (d : gmap Address Z) : gmap Address Z :=
  match Dirtied ch with
  | Some addr =>
      let n := default 0 (d !! addr) - 1 in
      if decide (n = 0) then delete addr d else <[addr := n]> d
  | None => d
  end.

(** The loop of [journal.Revert], over the entries from the last one on. *)
Fixpoint revert_entries (l : list JournalEntry) (s : StateDB) : partial StateDB :=
  match l with
  | [] => Ok s
  | ch :: l' =>
      s ← entry_Revert ch s;
      let j := sdb_journal s in
      revert_entries l' (set_journal (mkJournal (j_entries j) (undirty ch (j_dirties j))) s)
  end.

Definition journal_Revert (snapshot : nat) (s : StateDB) : partial StateDB :=
  s ← revert_entries (reverse (drop snapshot (j_entries (sdb_journal s)))) s;
  let j := sdb_journal s in
  Ok (set_journal (mkJournal (take snapshot (j_entries j)) (j_dirties j)) s).

Definition Snapshot (s : StateDB) : Z * StateDB :=
  let id := sdb_nextRevisionID s in
  (id, set_revisions
         (sdb_validRevisions s ++ [mkRevision id (length (j_entries (sdb_journal s)))])
         (id + 1) s).

Definition RevertToSnapshot (revid : Z) (s : StateDB) : partial StateDB :=
  let revs := sdb_validRevisions s in
  let idx := sort_Search (length revs)
               (λ i, match revs !! i with Some r => bool_decide (rev_id r >= revid) | None => false end) in
  match revs !! idx with
  | Some r =>
      if decide (rev_id r = revid) then
        s ← journal_Revert (rev_journalIndex r) s;
        Ok (set_revisions (take idx (sdb_validRevisions s)) (sdb_nextRevisionID s) s)
      else Panic
  | None => Panic
  end.

(** ** Commit *)

Fixpoint commit_storage (obj : stateObject) (keys : list Hash) (c : store) : store :=
  match keys with
  | [] => c
  | key :: keys' =>
      let value := default 0 (so_dirtyStorage obj !! key) in
      let c := if decide (value = default 0 (so_originStorage obj !! key)) then c
               else keeper_SetState c (so_address obj) key (Hash_Bytes value) in
      commit_storage obj keys' c
  end.

Definition commit_object (obj : stateObject) (c : store) : outcome keeper_error store :=
  if so_suicided obj then keeper_DeleteAccount c (so_address obj)
  else
    let c := match so_code obj with
             | Some _ =>
                 if so_dirtyCode obj then keeper_SetCode c (CodeHash obj) (so_code obj) else c
             | None => c
             end in
    c ← keeper_SetAccount c (so_address obj) (so_account obj);
    Ok (commit_storage obj (SortedKeys (so_dirtyStorage obj)) c).

Fixpoint commit_objects (s : StateDB) (addrs : list Address) (c : store) :
    outcome keeper_error store :=
  match addrs with
  | [] => Ok c
  | addr :: addrs' =>
      match sdb_stateObjects s !! addr with
      | None => Panic
      | Some obj => c ← commit_object obj c; commit_objects s addrs' c
      end
  end.

Definition Commit (s : StateDB) : outcome keeper_error store :=
  commit_objects s (sortedDirties (sdb_journal s)) ctx.

End Database.
