(* ===== verification/Journal.v ===== *)
(** * Undoing the journal of [x/evm/statedb/journal.go]

    Queries of the state database load accounts, code and storage slots into
    its objects, so undoing a change does not give back the same value but one
    that caches more.  [sdb_le s t] says that [t] differs from [s] in what it
    caches only.  Undoing the entries an operation appended leads from its
    result to a state above the one it started from ([undoes]), which is what
    [Snapshot] and [RevertToSnapshot] rest on. *)

From S2P Require Import Prelude AccessList StateDB.

Section Undo.
Context {store : Type} `{Keeper store}.
Variable keccak : list byte → Hash.
Variable ctx : store.

Local Abbreviation getStateObject := (getStateObject keccak ctx).
Local Abbreviation newObject := (newObject keccak).
Local Abbreviation entry_Revert := (entry_Revert keccak ctx).

(** ** What an object stands for *)

Definition code_view (o : stateObject) : option (list byte) := (Code keccak ctx o).1.

Definition storage_view (o : stateObject) (k : Hash) : Hash := (obj_GetState ctx k o).1.

(** [obj_wf]: cached slots are the stored ones, a dirty slot has its stored
    value cached, balance and code hash are not [nil]. *)
Record obj_wf (o : stateObject) : Prop := {
  obj_wf_origin k v :
    so_originStorage o !! k = Some v → v = keeper_GetState ctx (so_address o) k;
  obj_wf_dirty k : is_Some (so_dirtyStorage o !! k) → is_Some (so_originStorage o !! k);
  obj_wf_balance : acc_Balance (so_account o) = Some (Balance o);
  obj_wf_codehash : acc_CodeHash (so_account o) = Some (CodeHash o)
}.

(** [obj_le o1 o2]: the same account, [o2] caching at least what [o1] does. *)
Record obj_le (o1 o2 : stateObject) : Prop := {
  obj_le_address : so_address o1 = so_address o2;
  obj_le_account : so_account o1 = so_account o2;
  obj_le_suicided : so_suicided o1 = so_suicided o2;
  obj_le_code : code_view o1 = code_view o2;
  obj_le_storage k : storage_view o1 k = storage_view o2 k;
  obj_le_origin k : is_Some (so_originStorage o1 !! k) → is_Some (so_originStorage o2 !! k)
}.

#[global] Instance obj_le_preorder : PreOrder obj_le.
Proof.
  split.
  - by intros o.
  - intros o1 o2 o3 [] []. split; try congruence; naive_solver.
Qed.

#[local] Hint Extern 0 (obj_le ?o ?o) => reflexivity : core.

Lemma storage_view_alt o k :
  storage_view o k =
  default (default (keeper_GetState ctx (so_address o) k) (so_originStorage o !! k))
    (so_dirtyStorage o !! k).
Proof.
  unfold storage_view, obj_GetState, obj_GetCommittedState.
  destruct (so_dirtyStorage o !! k); [done|]. by destruct (so_originStorage o !! k).
Qed.

Lemma code_view_alt o :
  code_view o =
  match so_code o with
  | Some c => Some c
  | None => if decide (CodeHash o = emptyCodeHash keccak) then None
            else keeper_GetCode ctx (CodeHash o)
  end.
Proof. unfold code_view, Code. destruct (so_code o); [done|]. by case_decide. Qed.

Lemma code_view_ext o o' :
  so_code o = so_code o' → CodeHash o = CodeHash o' → code_view o = code_view o'.
Proof. rewrite !code_view_alt. by intros -> ->. Qed.

Lemma storage_view_ext o o' k :
  so_address o = so_address o' → so_originStorage o = so_originStorage o' →
  so_dirtyStorage o = so_dirtyStorage o' → storage_view o k = storage_view o' k.
Proof. rewrite !storage_view_alt. by intros -> -> ->. Qed.

(** An update that leaves the storage of two objects alone keeps their views equal. *)
Lemma storage_view_ext2 o1 o1' o2 o2' :
  so_address o1 = so_address o1' → so_originStorage o1 = so_originStorage o1' →
  so_dirtyStorage o1 = so_dirtyStorage o1' →
  so_address o2 = so_address o2' → so_originStorage o2 = so_originStorage o2' →
  so_dirtyStorage o2 = so_dirtyStorage o2' →
  (∀ k, storage_view o1' k = storage_view o2' k) →
  ∀ k, storage_view o1 k = storage_view o2 k.
Proof.
  intros ?????? Hv k. rewrite (storage_view_ext o1 o1'), (storage_view_ext o2 o2'); auto.
Qed.

(** ** States up to caching *)

Record sdb_le (s t : StateDB) : Prop := {
  sdb_le_present a o1 :
    sdb_stateObjects s !! a = Some o1 →
    ∃ o2, sdb_stateObjects t !! a = Some o2 ∧ obj_le o1 o2;
  sdb_le_loaded a o2 :
    sdb_stateObjects s !! a = None → sdb_stateObjects t !! a = Some o2 →
    ∃ acct, keeper_GetAccount ctx a = Some acct ∧ obj_le (newObject a acct) o2;
  sdb_le_config : sdb_txConfig s = sdb_txConfig t;
  sdb_le_refund : sdb_refund s = sdb_refund t;
  sdb_le_logs : sdb_logs s = sdb_logs t;
  sdb_le_accessList : sdb_accessList s = sdb_accessList t
}.

#[global] Instance sdb_le_preorder : PreOrder sdb_le.
Proof.
  split.
  - intros s. split; [|congruence|done..]. intros a o Ho. by exists o.
  - intros s t u Hst Htu. split; try (etrans; [apply Hst|apply Htu]).
    + intros a o1 H1. destruct (sdb_le_present _ _ Hst a o1 H1) as (o2 & H2 & Hle).
      destruct (sdb_le_present _ _ Htu a o2 H2) as (o3 & H3 & Hle').
      exists o3. split; [done|]. by etrans.
    + intros a o3 Hs Hu. destruct (sdb_stateObjects t !! a) as [o2|] eqn:Ht.
      * destruct (sdb_le_loaded _ _ Hst a o2) as (acct & ? & ?); try done.
        destruct (sdb_le_present _ _ Htu a o2 Ht) as (o3' & ? & ?).
        assert (o3' = o3) as -> by congruence.
        exists acct. split; [done|]. by etrans.
      * by apply (sdb_le_loaded _ _ Htu).
Qed.

(** [sdb_wf]: every live object is well-formed and filed under its address. *)
Record sdb_wf (s : StateDB) : Prop := {
  sdb_wf_address a o : sdb_stateObjects s !! a = Some o → so_address o = a;
  sdb_wf_object a o : sdb_stateObjects s !! a = Some o → obj_wf o
}.

Lemma newObject_wf a acct : obj_wf (newObject a acct).
Proof. split; [intros k v|intros k|done..]; simpl; rewrite lookup_empty; [done|]. by intros []. Qed.

Lemma setStateObject_wf o s : sdb_wf s → obj_wf o → sdb_wf (setStateObject o s).
Proof.
  intros Hwf Ho. split; simpl; intros a o'; rewrite lookup_insert;
    (case_decide; [intros [= <-]; done|apply Hwf]).
Qed.

(** ** [getStateObject] *)

Lemma getStateObject_le a s : sdb_le s (getStateObject a s).2.
Proof.
  unfold StateDB.getStateObject. destruct (sdb_stateObjects s !! a) eqn:Ha; [done|].
  destruct (keeper_GetAccount ctx a) as [acct|] eqn:Hk; [|done]. simpl.
  split; simpl; try done.
  - intros b o Hb. rewrite lookup_insert_ne by congruence. eauto.
  - intros b o Hb. rewrite lookup_insert. case_decide; [|congruence].
    subst. intros [= <-]. eauto.
Qed.

Lemma getStateObject_wf a s : sdb_wf s → sdb_wf (getStateObject a s).2.
Proof.
  intros Hwf. unfold StateDB.getStateObject.
  destruct (sdb_stateObjects s !! a) eqn:Ha; [done|].
  destruct (keeper_GetAccount ctx a) as [acct|] eqn:Hk; [|done].
  apply setStateObject_wf; [done|apply newObject_wf].
Qed.

Lemma getStateObject_present a s o :
  (getStateObject a s).1 = Some o → sdb_stateObjects (getStateObject a s).2 !! a = Some o.
Proof.
  unfold StateDB.getStateObject. destruct (sdb_stateObjects s !! a) eqn:Ha; [naive_solver|].
  destruct (keeper_GetAccount ctx a); simpl; [|done].
  intros [= <-]. by rewrite lookup_insert_eq.
Qed.

Lemma getStateObject_journal a s :
  sdb_journal (getStateObject a s).2 = sdb_journal s ∧
  sdb_validRevisions (getStateObject a s).2 = sdb_validRevisions s ∧
  sdb_nextRevisionID (getStateObject a s).2 = sdb_nextRevisionID s.
Proof.
  unfold StateDB.getStateObject. destruct (sdb_stateObjects s !! a); [done|].
  by destruct (keeper_GetAccount ctx a).
Qed.

(** Above a state, [getStateObject] finds the same object up to caching. *)
Lemma getStateObject_mono a s t :
  sdb_le s t →
  match (getStateObject a s).1 with
  | Some o1 => ∃ o2, (getStateObject a t).1 = Some o2 ∧ obj_le o1 o2
  | None => (getStateObject a t).1 = None
  end ∧ sdb_le (getStateObject a s).2 (getStateObject a t).2.
Proof.
  intros Hle. unfold StateDB.getStateObject.
  destruct (sdb_stateObjects s !! a) as [o1|] eqn:Hs.
  - destruct (sdb_le_present _ _ Hle a o1 Hs) as (o2 & -> & Ho). simpl. eauto.
  - destruct (sdb_stateObjects t !! a) as [o2|] eqn:Ht.
    + destruct (sdb_le_loaded _ _ Hle a o2 Hs Ht) as (acct & -> & Ho). simpl.
      split; [eauto|]. split; simpl; try apply Hle.
      * intros b o. rewrite lookup_insert. case_decide; [|apply Hle].
        intros [= <-]. subst. eauto.
      * intros b o. rewrite lookup_insert. case_decide; [done|apply Hle].
    + destruct (keeper_GetAccount ctx a) as [acct|]; simpl; [|done].
      split; [by eexists|]. split; simpl; try apply Hle.
      * intros b o. rewrite !lookup_insert. case_decide; [eauto|apply Hle].
      * intros b o. rewrite !lookup_insert. case_decide; [done|apply Hle].
Qed.

(** ** Undoing one entry *)

Lemma setStateObject_mono o1 o2 s t :
  obj_le o1 o2 → sdb_le s t → sdb_le (setStateObject o1 s) (setStateObject o2 t).
Proof.
  intros Ho Hle. split; simpl; try apply Hle; rewrite <-(obj_le_address _ _ Ho);
    intros b o; rewrite !lookup_insert; (case_decide; [|apply Hle]).
  - intros [= <-]. eauto.
  - done.
Qed.

(** Field updates of two objects related by [obj_le o1 o2] stay related. *)
Local Ltac obj_mono o1 o2 :=
  let H := fresh in intros H; destruct H as [? Hacc ? ? ? ?]; split; try done;
  [simpl; try by rewrite Hacc|..]; first
  [ by apply code_view_ext
  | etrans; [|etrans; [eassumption|]]; by apply code_view_ext
  | by apply (storage_view_ext2 _ o1 _ o2)
  | idtac ].

Lemma setBalance_mono x o1 o2 : obj_le o1 o2 → obj_le (setBalance x o1) (setBalance x o2).
Proof. obj_mono o1 o2. Qed.

Lemma setNonce_mono x o1 o2 : obj_le o1 o2 → obj_le (setNonce x o1) (setNonce x o2).
Proof. obj_mono o1 o2. Qed.

Lemma with_suicided_mono b o1 o2 :
  obj_le o1 o2 → obj_le (with_suicided b o1) (with_suicided b o2).
Proof. obj_mono o1 o2. Qed.

Lemma setCode_mono h c o1 o2 : obj_le o1 o2 → obj_le (setCode h c o1) (setCode h c o2).
Proof. obj_mono o1 o2. Qed.

Lemma setState_view k v o k' :
  storage_view (setState k v o) k' = if decide (k = k') then v else storage_view o k'.
Proof.
  rewrite !storage_view_alt. simpl. rewrite lookup_insert. by case_decide.
Qed.

Lemma setState_mono k v o1 o2 : obj_le o1 o2 → obj_le (setState k v o1) (setState k v o2).
Proof.
  obj_mono o1 o2. intros k'. rewrite !setState_view. by case_decide.
Qed.

(** The address whose object an entry puts back or changes. *)
Definition touches (ch : JournalEntry) : option Address :=
  match ch with resetObjectChange prev => Some (so_address prev) | _ => Dirtied ch end.

(** What undoing an entry relies on: the object it changes is live, the slot it
    restores has its stored value cached, the object it restores is well-formed. *)
Record entry_ok (ch : JournalEntry) (s : StateDB) : Prop := {
  entry_ok_live a : touches ch = Some a → is_Some (sdb_stateObjects s !! a);
  entry_ok_prev prev : ch = resetObjectChange prev → obj_wf prev;
  entry_ok_slot a k v o :
    ch = storageChange a k v → sdb_stateObjects s !! a = Some o → is_Some (so_originStorage o !! k)
}.

Lemma entry_ok_object ch s a o :
  sdb_stateObjects s !! a = Some o → touches ch = Some a → (∀ prev, ch ≠ resetObjectChange prev) →
  (∀ k v, ch = storageChange a k v → is_Some (so_originStorage o !! k)) → entry_ok ch s.
Proof.
  intros Ho Ha Hp Hs. split.
  - intros b Hb. assert (a = b) as <- by congruence. eauto.
  - intros prev ->. by destruct (Hp prev).
  - intros b k v o' -> Ho'. injection Ha as ->. assert (o' = o) as -> by congruence. eauto.
Qed.

Lemma entry_ok_other ch s : touches ch = None → entry_ok ch s.
Proof. intros Hn. split; [congruence|by intros ? ->|by intros ???? ->]. Qed.

Lemma entry_ok_mono ch s t : sdb_le s t → entry_ok ch s → entry_ok ch t.
Proof.
  intros Hle [Hl Hp Hs]. split; [|done|].
  - intros a Ha. destruct (Hl a Ha) as [o Ho].
    destruct (sdb_le_present _ _ Hle a o Ho) as (o' & ? & _). eauto.
  - intros a k v o2 -> H2. destruct (Hl a eq_refl) as [o1 H1].
    destruct (sdb_le_present _ _ Hle a o1 H1) as (o2' & H2' & Ho).
    assert (o2' = o2) as -> by congruence. eapply obj_le_origin; [done|]. by eapply Hs.
Qed.

Lemma update_object_mono a f s t s' :
  (∀ o1 o2, obj_le o1 o2 → obj_le (f o1) (f o2)) →
  sdb_le s t → update_object keccak ctx a f s = Ok s' →
  ∃ t', update_object keccak ctx a f t = Ok t' ∧ sdb_le s' t'.
Proof.
  intros Hf Hle. unfold update_object.
  destruct (getStateObject_mono a s t Hle) as [Ho Hle'].
  destruct (getStateObject a s) as [[o1|] s1], (getStateObject a t) as [o2 t1]; simpl in *; [|done].
  destruct Ho as (o2' & -> & ?). intros [= <-]. eexists; split; [done|].
  by apply setStateObject_mono; [apply Hf|].
Qed.

(** Undoing an entry respects [sdb_le]. *)
Lemma entry_Revert_mono ch s t s' :
  sdb_le s t → entry_Revert ch s = Ok s' →
  ∃ t', entry_Revert ch t = Ok t' ∧ sdb_le s' t'.
Proof.
  intros Hle. destruct ch as [a|p|a b x|a x|a x|a k v|a c h|r| |a|a k]; simpl.
  - intros [= <-]. eexists; split; [done|]. split; simpl; try apply Hle;
      intros b o; rewrite !lookup_delete; (case_decide; [done|apply Hle]).
  - intros [= <-]. eexists; split; [done|]. by apply setStateObject_mono.
  - destruct (getStateObject_mono a s t Hle) as [Ho Hle'].
    destruct (getStateObject a s) as [[o1|] s1], (getStateObject a t) as [o2 t1]; simpl in *.
    + destruct Ho as (o2' & -> & ?). intros [= <-]. eexists; split; [done|].
      apply setStateObject_mono; [|done]. by apply setBalance_mono, with_suicided_mono.
    + subst. intros [= <-]. eauto.
  - by apply update_object_mono; [apply setBalance_mono|].
  - by apply update_object_mono; [apply setNonce_mono|].
  - by apply update_object_mono; [apply setState_mono|].
  - by apply update_object_mono; [apply setCode_mono|].
  - intros [= <-]. eexists; split; [done|]. split; try apply Hle. done.
  - rewrite <-(sdb_le_logs _ _ Hle). destruct (sdb_logs s) eqn:Hl; [done|].
    intros [= <-]. eexists; split; [done|]. split; try apply Hle. done.
  - intros [= <-]. eexists; split; [done|]. split; try apply Hle.
    simpl. by rewrite (sdb_le_accessList _ _ Hle).
  - rewrite <-(sdb_le_accessList _ _ Hle).
    destruct (DeleteSlot _ _ _); [|done..]. intros [= <-].
    eexists; split; [done|]. split; try apply Hle. done.
Qed.

(** ** Undoing a list of entries, the newest first *)

Inductive runs : list JournalEntry → StateDB → StateDB → Prop :=
| runs_nil s : runs [] s s
| runs_cons ch l s s1 t :
    entry_ok ch s → entry_Revert ch s = Ok s1 → runs l s1 t → runs (ch :: l) s t.

Lemma runs_app l1 l2 s t u : runs l1 s t → runs l2 t u → runs (l1 ++ l2) s u.
Proof. induction 1; [done|]. intros. econstructor; eauto. Qed.

Lemma runs_app_inv l1 l2 s u : runs (l1 ++ l2) s u → ∃ t, runs l1 s t ∧ runs l2 t u.
Proof.
  revert s. induction l1 as [|ch l1 IH]; simpl; intros s Hr.
  - exists s. split; [constructor|done].
  - inversion Hr; subst. destruct (IH s1) as (t & ? & ?); [done|].
    exists t. split; [by econstructor|done].
Qed.

Lemma runs_det l s t t' : runs l s t → runs l s t' → t = t'.
Proof.
  intros Hr. revert t'. induction Hr; intros t'; inversion 1; subst; [done|].
  apply IHHr. congruence.
Qed.

Lemma runs_mono l s t s' : runs l s s' → sdb_le s t → ∃ t', runs l t t' ∧ sdb_le s' t'.
Proof.
  intros Hr. revert t. induction Hr as [|ch l s s1 u Hok Hrev Hr IH]; intros t Hle.
  - exists t. split; [constructor|done].
  - destruct (entry_Revert_mono ch s t s1 Hle Hrev) as (t1 & ? & Hle1).
    destruct (IH t1 Hle1) as (t' & ? & ?).
    exists t'. split; [|done]. econstructor; eauto using entry_ok_mono.
Qed.

(** [undoes l s' s]: undoing [l] from [s'] leads to [s], up to caching. *)
Definition undoes (l : list JournalEntry) (s' s : StateDB) : Prop :=
  ∃ t, runs l s' t ∧ sdb_le s t.

Lemma undoes_le s s' : sdb_le s s' → undoes [] s' s.
Proof. intros. exists s'. split; [constructor|done]. Qed.

Lemma undoes_trans l1 l2 s0 s1 s2 :
  undoes l2 s2 s1 → undoes l1 s1 s0 → undoes (l2 ++ l1) s2 s0.
Proof.
  intros (t1 & Hr2 & Hle1) (t0 & Hr1 & Hle0).
  destruct (runs_mono l1 s1 t1 t0) as (t0' & Hr & Hle); [done..|].
  exists t0'. split; [by eapply runs_app|]. by etrans.
Qed.

Lemma undoes_one ch s' t s :
  entry_ok ch s' → entry_Revert ch s' = Ok t → sdb_le s t → undoes [ch] s' s.
Proof. intros. exists t. split; [|done]. econstructor; [done..|constructor]. Qed.

(** ** Well-formedness is kept *)

Lemma setBalance_wf x o : obj_wf o → obj_wf (setBalance x o).
Proof. intros []. by split. Qed.

Lemma setNonce_wf x o : obj_wf o → obj_wf (setNonce x o).
Proof. intros []. by split. Qed.

Lemma with_suicided_wf b o : obj_wf o → obj_wf (with_suicided b o).
Proof. intros []. by split. Qed.

Lemma setCode_wf h c o : obj_wf o → obj_wf (setCode h c o).
Proof. intros []. by split. Qed.

Lemma setState_wf k v o :
  obj_wf o → is_Some (so_originStorage o !! k) → obj_wf (setState k v o).
Proof.
  intros [Hor Hd ? ?] Hk. split; try done. intros k'. simpl.
  rewrite lookup_insert. case_decide; [by subst|apply Hd].
Qed.

#[local] Hint Resolve setStateObject_wf setBalance_wf setNonce_wf with_suicided_wf
  setCode_wf setState_wf : core.

Lemma getStateObject_obj_wf a s o :
  sdb_wf s → (getStateObject a s).1 = Some o → so_address o = a ∧ obj_wf o.
Proof.
  intros Hwf Ho. apply getStateObject_present in Ho.
  pose proof (getStateObject_wf a s Hwf) as Hwf'. split; [by apply Hwf'|by eapply Hwf'].
Qed.

Lemma update_object_wf a f s s' :
  sdb_wf s → (∀ o, (getStateObject a s).1 = Some o → obj_wf o → obj_wf (f o)) →
  update_object keccak ctx a f s = Ok s' → sdb_wf s'.
Proof.
  intros Hwf Hf. unfold update_object.
  pose proof (getStateObject_wf a s Hwf). pose proof (getStateObject_obj_wf a s).
  destruct (getStateObject a s) as [[o|] s1]; [|done]. intros [= <-].
  apply setStateObject_wf; [done|]. naive_solver.
Qed.

Lemma entry_Revert_wf ch s s' :
  sdb_wf s → entry_ok ch s → entry_Revert ch s = Ok s' → sdb_wf s'.
Proof.
  intros Hwf Hok. destruct ch as [a|p|a b x|a x|a x|a k v|a c h|r| |a|a k]; simpl in *.
  - intros [= <-]. split; simpl; intros b o; rewrite lookup_delete;
      (case_decide; [done|apply Hwf]).
  - intros [= <-]. apply setStateObject_wf; [done|]. by apply (entry_ok_prev _ _ Hok).
  - pose proof (getStateObject_wf a s Hwf). pose proof (getStateObject_obj_wf a s).
    destruct (getStateObject a s) as [[o|] s1]; intros [= <-]; [|done].
    apply setStateObject_wf; [done|]. naive_solver.
  - apply update_object_wf; auto.
  - apply update_object_wf; auto.
  - apply update_object_wf; [done|]. intros o Ho ?. apply setState_wf; [done|].
    destruct (entry_ok_live _ _ Hok a eq_refl) as [o' Ho'].
    revert Ho. unfold StateDB.getStateObject. rewrite Ho'. intros [= <-].
    by eapply (entry_ok_slot _ _ Hok).
  - apply update_object_wf; auto.
  - intros [= <-]. split; apply Hwf.
  - destruct (sdb_logs s); [done|]. intros [= <-]. split; apply Hwf.
  - intros [= <-]. split; apply Hwf.
  - destruct (DeleteSlot _ _ _); [|done..]. intros [= <-]. split; apply Hwf.
Qed.

Lemma runs_wf l s t : runs l s t → sdb_wf s → sdb_wf t.
Proof. induction 1; eauto using entry_Revert_wf. Qed.

(** Undoing an entry brings no object into the map. *)
Lemma setStateObject_live o s a :
  is_Some (sdb_stateObjects s !! so_address o) →
  is_Some (sdb_stateObjects (setStateObject o s) !! a) → is_Some (sdb_stateObjects s !! a).
Proof. intros Ho. simpl. rewrite lookup_insert_is_Some. intros [<-|[_ ?]]; done. Qed.

Lemma update_object_live b f s t a :
  sdb_wf s → is_Some (sdb_stateObjects s !! b) → (∀ o, so_address (f o) = so_address o) →
  update_object keccak ctx b f s = Ok t →
  is_Some (sdb_stateObjects t !! a) → is_Some (sdb_stateObjects s !! a).
Proof.
  intros Hwf [o Ho] Hf. unfold update_object, StateDB.getStateObject. rewrite Ho. intros [= <-].
  apply setStateObject_live. rewrite Hf, (sdb_wf_address _ Hwf b o Ho). eauto.
Qed.

Lemma entry_Revert_live ch s t a :
  sdb_wf s → entry_ok ch s → entry_Revert ch s = Ok t →
  is_Some (sdb_stateObjects t !! a) → is_Some (sdb_stateObjects s !! a).
Proof.
  intros Hwf Hok. pose proof (entry_ok_live _ _ Hok) as Hl.
  destruct ch as [b|p|b pr x|b x|b x|b k v|b c h|r| |b|b k]; simpl in *;
    try (by apply update_object_live; eauto); try (by intros [= <-]).
  - intros [= <-]. simpl. rewrite lookup_delete_is_Some. by intros [].
  - intros [= <-]. apply setStateObject_live. eauto.
  - destruct (Hl b eq_refl) as [o Ho]. unfold StateDB.getStateObject. rewrite Ho.
    intros [= <-]. apply setStateObject_live. simpl. rewrite (sdb_wf_address _ Hwf b o Ho). eauto.
  - destruct (sdb_logs s); [done|]. by intros [= <-].
  - destruct (DeleteSlot _ _ _); [|done..]. by intros [= <-].
Qed.

(** Every entry of a journal that can be undone has its object live. *)
Lemma runs_live l s t ch a :
  runs l s t → sdb_wf s → ch ∈ l → touches ch = Some a → is_Some (sdb_stateObjects s !! a).
Proof.
  induction 1 as [|ch' l s s1 t Hok Hrev Hr IH]; [by intros ? ?%elem_of_nil|].
  intros Hwf [->|Hin]%elem_of_cons Ha; [by apply (entry_ok_live _ _ Hok)|].
  eapply entry_Revert_live; eauto using entry_Revert_wf.
Qed.

(** ** The loop of [journal.Revert] *)

(** Undoing an entry neither reads nor writes the journal. *)
Lemma getStateObject_set_journal a j s :
  getStateObject a (set_journal j s) =
  ((getStateObject a s).1, set_journal j (getStateObject a s).2).
Proof.
  unfold StateDB.getStateObject. simpl. destruct (sdb_stateObjects s !! a); [done|].
  by destruct (keeper_GetAccount ctx a).
Qed.

Lemma update_object_set_journal a f j s :
  update_object keccak ctx a f (set_journal j s) =
  set_journal j <$> update_object keccak ctx a f s.
Proof.
  unfold update_object. rewrite getStateObject_set_journal.
  by destruct (getStateObject a s) as [[o|] s1].
Qed.

Lemma entry_Revert_set_journal ch j s :
  entry_Revert ch (set_journal j s) = set_journal j <$> entry_Revert ch s.
Proof.
  destruct ch; simpl; try done; try apply update_object_set_journal.
  - rewrite getStateObject_set_journal. by destruct (getStateObject _ s) as [[o|] s1].
  - by destruct (sdb_logs s).
  - by destruct (DeleteSlot _ _ _).
Qed.

Lemma entry_Revert_frame ch s t :
  entry_Revert ch s = Ok t →
  sdb_journal t = sdb_journal s ∧ sdb_validRevisions t = sdb_validRevisions s ∧
  sdb_nextRevisionID t = sdb_nextRevisionID s.
Proof.
  assert (∀ a f, update_object keccak ctx a f s = Ok t →
    sdb_journal t = sdb_journal s ∧ sdb_validRevisions t = sdb_validRevisions s ∧
    sdb_nextRevisionID t = sdb_nextRevisionID s) as Hupd.
  { intros a f. unfold update_object. pose proof (getStateObject_journal a s).
    destruct (getStateObject a s) as [[o|] s1]; [|done]. by intros [= <-]. }
  destruct ch; simpl; try apply Hupd; try (by intros [= <-]).
  - pose proof (getStateObject_journal account s).
    destruct (getStateObject account s) as [[o|] s1]; by intros [= <-].
  - destruct (sdb_logs s); [done|]. by intros [= <-].
  - destruct (DeleteSlot _ _ _); [|done..]. by intros [= <-].
Qed.

Lemma runs_frame l s t :
  runs l s t →
  sdb_journal t = sdb_journal s ∧ sdb_validRevisions t = sdb_validRevisions s ∧
  sdb_nextRevisionID t = sdb_nextRevisionID s.
Proof.
  induction 1; [done|].
  edestruct entry_Revert_frame as (? & ? & ?); [done|]. intuition congruence.
Qed.

(** The dirty counts after undoing [l]. *)
Definition undirty_all (l : list JournalEntry) (d : gmap Address Z) : gmap Address Z :=
  foldl (λ d ch, undirty ch d) d l.

Lemma revert_entries_runs l j s t :
  runs l s t →
  revert_entries keccak ctx l (set_journal j s) =
  Ok (set_journal (mkJournal (j_entries j) (undirty_all l (j_dirties j))) t).
Proof.
  intros Hr. revert j. induction Hr as [s|ch l s s1 t Hok Hrev Hr IH]; intros j.
  - by destruct j.
  - cbn [revert_entries]. rewrite entry_Revert_set_journal, Hrev. simpl.
    change (set_journal _ (set_journal j s1)) with
      (set_journal (mkJournal (j_entries j) (undirty ch (j_dirties j))) s1).
    by rewrite IH.
Qed.

(** ** Dirty accounts

    [dirty_counts l] is what [journal.append] counts for the entries [l]. *)
Definition dirty_counts (l : list JournalEntry) : gmap Address Z :=
  foldl (λ d ch, match Dirtied ch with
                 | Some a => <[a := default 0 (d !! a) + 1]> d
                 | None => d
                 end) ∅ l.

Lemma dirty_counts_snoc l ch :
  dirty_counts (l ++ [ch]) =
  match Dirtied ch with
  | Some a => <[a := default 0 (dirty_counts l !! a) + 1]> (dirty_counts l)
  | None => dirty_counts l
  end.
Proof. unfold dirty_counts. by rewrite foldl_app. Qed.

Lemma dirty_counts_pos l a n : dirty_counts l !! a = Some n → 0 < n.
Proof.
  revert a n. induction l as [|ch l IH] using rev_ind; intros a n; [done|].
  rewrite dirty_counts_snoc. destruct (Dirtied ch) as [b|]; [|apply IH].
  rewrite lookup_insert. case_decide; [|apply IH]. intros [= <-].
  destruct (dirty_counts l !! b) eqn:E; simpl; [|lia]. apply IH in E. lia.
Qed.

Lemma undirty_snoc l ch : undirty ch (dirty_counts (l ++ [ch])) = dirty_counts l.
Proof.
  rewrite dirty_counts_snoc. unfold undirty. destruct (Dirtied ch) as [a|]; [|done].
  rewrite lookup_insert_eq. simpl. destruct (dirty_counts l !! a) as [n|] eqn:E; simpl.
  - pose proof (dirty_counts_pos _ _ _ E). rewrite decide_False by lia.
    rewrite insert_insert_eq. apply insert_id. rewrite E. f_equal. lia.
  - by rewrite delete_insert_id.
Qed.

Lemma undirty_all_app l1 l2 :
  undirty_all (reverse l2) (dirty_counts (l1 ++ l2)) = dirty_counts l1.
Proof.
  induction l2 as [|ch l2 IH] using rev_ind; [by rewrite app_nil_r|].
  rewrite reverse_snoc, app_assoc. simpl. unfold undirty_all in *. simpl.
  by rewrite undirty_snoc.
Qed.

(** An address is counted exactly when an entry of the journal dirtied it. *)
Lemma dirty_counts_elem l a :
  is_Some (dirty_counts l !! a) ↔ ∃ ch, ch ∈ l ∧ Dirtied ch = Some a.
Proof.
  induction l as [|ch l IH] using rev_ind.
  { split; [by intros []|]. intros (ch & Hin & _). by apply elem_of_nil in Hin. }
  rewrite dirty_counts_snoc. setoid_rewrite elem_of_app.
  setoid_rewrite list_elem_of_singleton.
  destruct (Dirtied ch) as [b|] eqn:Hb.
  - rewrite lookup_insert_is_Some, IH. split.
    + intros [->|[? (ch' & ? & ?)]]; eauto.
    + intros (ch' & [?| ->] & ?); destruct (decide (b = a)); naive_solver.
  - rewrite IH. naive_solver.
Qed.
End Undo.
