(* ===== verification/StateDBSpec.v ===== *)
(** * Specification and refinement of the state database

    The specification keeps plain memory (accounts, refund counter, logs and
    the two access sets) and a stack of saved memories: [Snapshot] pushes a copy
    of the memory, [RevertToSnapshot] puts a saved copy back.  The refinement
    theorem says that the journal of [x/evm/statedb] is indistinguishable from
    that: every sequence of calls returns the same results and panics at the
    same call. *)

From S2P Require Import Prelude AccessList StateDB Journal.

(** ** Specification *)

Record aobj := mkAobj {
  ao_nonce : Z;
  ao_balance : Z;
  ao_codehash : Hash;
  ao_code : option (list byte);
  ao_storage : Hash → Hash;
  ao_suicided : bool
}.

Record mem := mkMem {
  m_objs : Address → option aobj;
  m_refund : Z;
  m_logs : list Log;
  m_access : access_sets
}.

Record spec := mkSpec {
  sp_mem : mem;
  sp_stack : list (Z * mem);
  sp_next : Z
}.

(** The calls of the EVM interpreter. *)
Inductive call :=
| CCreateAccount (a : Address)
| CAddBalance (a : Address) (amount : Z)
| CSubBalance (a : Address) (amount : Z)
| CSetNonce (a : Address) (nonce : Z)
| CSetCode (a : Address) (code : option (list byte))
| CSetState (a : Address) (key value : Hash)
| CSuicide (a : Address)
| CAddLog (log : Log)
| CAddRefund (gas : Z)
| CSubRefund (gas : Z)
| CAddAddressToAccessList (a : Address)
| CAddSlotToAccessList (a : Address) (slot : Hash)
| CSnapshot
| CRevertToSnapshot (revid : Z)
| CExist (a : Address)
| CEmpty (a : Address)
| CGetBalance (a : Address)
| CGetNonce (a : Address)
| CGetCode (a : Address)
| CGetCodeSize (a : Address)
| CGetCodeHash (a : Address)
| CGetState (a : Address) (key : Hash)
| CGetCommittedState (a : Address) (key : Hash)
| CHasSuicided (a : Address)
| CGetRefund
| CAddressInAccessList (a : Address)
| CSlotInAccessList (a : Address) (slot : Hash)
| CLogs.

(** What a call returns. *)
Inductive reply :=
| RUnit
| RZ (z : Z)
| RBool (b : bool)
| RBytes (bz : option (list byte))
| RPair (p : bool * bool)
| RLogs (l : list Log).

Section Refinement.
Context {store : Type} `{Keeper store}.
Variable keccak : list byte → Hash.
Variable ctx : store.
Variable txConfig : TxConfig.

Local Abbreviation getStateObject := (getStateObject keccak ctx).
Local Abbreviation obj_le := (obj_le keccak ctx).
Local Abbreviation obj_wf := (obj_wf ctx).
Local Abbreviation sdb_le := (sdb_le keccak ctx).
Local Abbreviation sdb_wf := (sdb_wf ctx).
Local Abbreviation undoes := (undoes keccak ctx).

(** The calls on the database. *)
Definition run_call (c : call) (s : StateDB) : partial (reply * StateDB) :=
  let unit s := Ok (RUnit, s) in
  let z r := Ok (RZ r.1, r.2) in
  let b r := Ok (RBool r.1, r.2) in
  match c with
  | CCreateAccount a => unit (CreateAccount keccak ctx a s)
  | CAddBalance a v => unit (AddBalance keccak ctx a v s)
  | CSubBalance a v => unit (SubBalance keccak ctx a v s)
  | CSetNonce a n => unit (SetNonce keccak ctx a n s)
  | CSetCode a code => unit (SetCode keccak ctx a code s)
  | CSetState a k v => unit (SetState keccak ctx a k v s)
  | CSuicide a => b (Suicide keccak ctx a s)
  | CAddLog log => unit (AddLog log s)
  | CAddRefund gas => unit (AddRefund gas s)
  | CSubRefund gas => s ← SubRefund gas s; unit s
  | CAddAddressToAccessList a => unit (AddAddressToAccessList a s)
  | CAddSlotToAccessList a slot => s ← AddSlotToAccessList a slot s; unit s
  | CSnapshot => z (Snapshot s)
  | CRevertToSnapshot revid => s ← RevertToSnapshot keccak ctx revid s; unit s
  | CExist a => b (Exist keccak ctx a s)
  | CEmpty a => b (Empty keccak ctx a s)
  | CGetBalance a => z (GetBalance keccak ctx a s)
  | CGetNonce a => z (GetNonce keccak ctx a s)
  | CGetCode a => let r := GetCode keccak ctx a s in Ok (RBytes r.1, r.2)
  | CGetCodeSize a => z (GetCodeSize keccak ctx a s)
  | CGetCodeHash a => z (GetCodeHash keccak ctx a s)
  | CGetState a k => z (GetState keccak ctx a k s)
  | CGetCommittedState a k => z (GetCommittedState keccak ctx a k s)
  | CHasSuicided a => b (HasSuicided keccak ctx a s)
  | CGetRefund => Ok (RZ (sdb_refund s), s)
  | CAddressInAccessList a => Ok (RBool (AddressInAccessList a s), s)
  | CSlotInAccessList a slot => p ← SlotInAccessList a slot s; Ok (RPair p, s)
  | CLogs => Ok (RLogs (sdb_logs s), s)
  end.

(** A new object sees the slots the store holds for its address. *)
Definition ao_new (a : Address) : aobj :=
  mkAobj 0 0 (emptyCodeHash keccak) None (keeper_GetState ctx a) false.

Definition upd (a : Address) (x : aobj) (m : mem) : mem :=
  mkMem (λ b, if decide (a = b) then Some x else m_objs m b)
    (m_refund m) (m_logs m) (m_access m).

Definition get_or_new (a : Address) (m : mem) : aobj := default (ao_new a) (m_objs m a).

Definition ao_with_balance (v : Z) (x : aobj) : aobj :=
  mkAobj (ao_nonce x) v (ao_codehash x) (ao_code x) (ao_storage x) (ao_suicided x).

(** The call on memory; [None] is a panic. *)
Definition spec_mem (c : call) (m : mem) : option (reply * mem) :=
  let write a f := Some (RUnit, upd a (f (get_or_new a m)) m) in
  let read a {A} (f : aobj → A) (d : A) := from_option f d (m_objs m a) in
  match c with
  | CCreateAccount a =>
      Some (RUnit, upd a (ao_with_balance (from_option ao_balance 0 (m_objs m a)) (ao_new a)) m)
  | CAddBalance a v => write a (λ x, ao_with_balance (ao_balance x + v) x)
  | CSubBalance a v => write a (λ x, ao_with_balance (ao_balance x - v) x)
  | CSetNonce a n =>
      write a (λ x, mkAobj n (ao_balance x) (ao_codehash x) (ao_code x) (ao_storage x) (ao_suicided x))
  | CSetCode a code =>
      write a (λ x, mkAobj (ao_nonce x) (ao_balance x) (keccak (default [] code)) code
                      (ao_storage x) (ao_suicided x))
  | CSetState a k v =>
      write a (λ x, mkAobj (ao_nonce x) (ao_balance x) (ao_codehash x) (ao_code x)
                      (λ k', if decide (k = k') then v else ao_storage x k') (ao_suicided x))
  | CSuicide a =>
      match m_objs m a with
      | None => Some (RBool false, m)
      | Some x => Some (RBool true, upd a (mkAobj (ao_nonce x) 0 (ao_codehash x) (ao_code x)
                                             (ao_storage x) true) m)
      end
  | CAddLog log =>
      let log := mkLog (log_Address log) (log_Topics log) (log_Data log)
                   (cfg_TxHash txConfig) (cfg_BlockHash txConfig) (cfg_TxIndex txConfig)
                   (u64 (cfg_LogIndex txConfig + Z.of_nat (length (m_logs m)))) in
      Some (RUnit, mkMem (m_objs m) (m_refund m) (m_logs m ++ [log]) (m_access m))
  | CAddRefund gas =>
      Some (RUnit, mkMem (m_objs m) (u64 (m_refund m + gas)) (m_logs m) (m_access m))
  | CSubRefund gas =>
      if decide (gas > m_refund m) then None
      else Some (RUnit, mkMem (m_objs m) (u64 (m_refund m - gas)) (m_logs m) (m_access m))
  | CAddAddressToAccessList a =>
      let S := m_access m in
      Some (RUnit, mkMem (m_objs m) (m_refund m) (m_logs m)
                     (mkAccessSets ({[a]} ∪ as_addrs S) (as_slots S)))
  | CAddSlotToAccessList a slot =>
      let S := m_access m in
      Some (RUnit, mkMem (m_objs m) (m_refund m) (m_logs m)
                     (mkAccessSets ({[a]} ∪ as_addrs S) ({[(a, slot)]} ∪ as_slots S)))
  | CExist a => Some (RBool (bool_decide (is_Some (m_objs m a))), m)
  | CEmpty a =>
      Some (RBool (read a (λ x, (ao_nonce x =? 0) && (ao_balance x =? 0) &&
                                (ao_codehash x =? emptyCodeHash keccak)) true), m)
  | CGetBalance a => Some (RZ (read a ao_balance 0), m)
  | CGetNonce a => Some (RZ (read a ao_nonce 0), m)
  | CGetCode a => Some (RBytes (read a ao_code None), m)
  | CGetCodeSize a => Some (RZ (read a (λ x, Z.of_nat (length (default [] (ao_code x)))) 0), m)
  | CGetCodeHash a => Some (RZ (read a ao_codehash 0), m)
  | CGetState a k => Some (RZ (read a (λ x, ao_storage x k) 0), m)
  | CGetCommittedState a k => Some (RZ (read a (λ _, keeper_GetState ctx a k) 0), m)
  | CHasSuicided a => Some (RBool (read a ao_suicided false), m)
  | CGetRefund => Some (RZ (m_refund m), m)
  | CAddressInAccessList a => Some (RBool (bool_decide (a ∈ as_addrs (m_access m))), m)
  | CSlotInAccessList a slot =>
      Some (RPair (bool_decide (a ∈ as_addrs (m_access m)),
                   bool_decide ((a, slot) ∈ as_slots (m_access m))), m)
  | CLogs => Some (RLogs (m_logs m), m)
  | CSnapshot | CRevertToSnapshot _ => None
  end.

(** The call on the specification: snapshots are copies of the memory. *)
Definition spec_call (c : call) (sp : spec) : partial (reply * spec) :=
  match c with
  | CSnapshot =>
      Ok (RZ (sp_next sp),
          mkSpec (sp_mem sp) (sp_stack sp ++ [(sp_next sp, sp_mem sp)]) (sp_next sp + 1))
  | CRevertToSnapshot revid =>
      match list_find (λ p, p.1 = revid) (sp_stack sp) with
      | Some (i, (_, m)) => Ok (RUnit, mkSpec m (take i (sp_stack sp)) (sp_next sp))
      | None => Panic
      end
  | _ =>
      match spec_mem c (sp_mem sp) with
      | Some (r, m) => Ok (r, mkSpec m (sp_stack sp) (sp_next sp))
      | None => Panic
      end
  end.

(** A fresh database over the stored accounts. *)
Definition spec_init : spec :=
  mkSpec
    (mkMem (λ a, match keeper_GetAccount ctx a with
                 | None => None
                 | Some acct =>
                     let h := default (emptyCodeHash keccak) (acc_CodeHash acct) in
                     Some (mkAobj (acc_Nonce acct) (default 0 (acc_Balance acct)) h
                             (if decide (h = emptyCodeHash keccak) then None
                              else keeper_GetCode ctx h)
                             (keeper_GetState ctx a) false)
                 end) 0 [] (mkAccessSets ∅ ∅)) [] 0.

(** ** Abstraction *)

Record obj_rep (o : stateObject) (x : aobj) : Prop := {
  rep_nonce : Nonce o = ao_nonce x;
  rep_balance : Balance o = ao_balance x;
  rep_codehash : CodeHash o = ao_codehash x;
  rep_code : code_view keccak ctx o = ao_code x;
  rep_storage k : storage_view ctx o k = ao_storage x k;
  rep_suicided : so_suicided o = ao_suicided x
}.

Record mem_rep (s : StateDB) (m : mem) : Prop := {
  rep_objs a : option_Forall2 obj_rep (getStateObject a s).1 (m_objs m a);
  rep_refund : sdb_refund s = m_refund m;
  rep_logs : sdb_logs s = m_logs m;
  rep_access : represents (sdb_accessList s) (m_access m);
  rep_config : sdb_txConfig s = txConfig
}.

Lemma obj_rep_le o1 o2 x : obj_le o1 o2 → obj_rep o1 x → obj_rep o2 x.
Proof.
  intros [? Hacc Hsu Hc Hst ?] [Hn Hb Hh Hco Hs Hsui].
  split; unfold Nonce, Balance, CodeHash in *; rewrite <-?Hacc; try done; try congruence.
Qed.

Lemma mem_rep_le s t m : sdb_le s t → mem_rep s m → mem_rep t m.
Proof.
  intros Hle [Ho Hr Hl Ha Hc]. split.
  - intros a. specialize (Ho a). destruct (getStateObject_mono keccak ctx a s t Hle) as [Hm _].
    destruct (getStateObject a s).1 as [o1|].
    + destruct Hm as (o2 & -> & ?). inversion Ho; subst. constructor. by eapply obj_rep_le.
    + rewrite Hm. done.
  - by rewrite <-(sdb_le_refund _ _ _ _ Hle).
  - by rewrite <-(sdb_le_logs _ _ _ _ Hle).
  - by rewrite <-(sdb_le_accessList _ _ _ _ Hle).
  - by rewrite <-(sdb_le_config _ _ _ _ Hle).
Qed.

(** ** What an operation appends and how it is undone *)

(** [steps s s' es]: going from [s] to [s'] appends the entries [es], keeps the
    revisions and the invariant, and undoing [es] leads back. *)
Record steps (s s' : StateDB) (es : list JournalEntry) : Prop := {
  steps_journal :
    sdb_journal s' = foldl (λ j e, journal_append e j) (sdb_journal s) es;
  steps_revisions : sdb_validRevisions s' = sdb_validRevisions s;
  steps_next : sdb_nextRevisionID s' = sdb_nextRevisionID s;
  steps_undo : undoes (reverse es) s' s;
  steps_wf : sdb_wf s'
}.

Lemma steps_trans s1 s2 s3 es1 es2 :
  steps s1 s2 es1 → steps s2 s3 es2 → steps s1 s3 (es1 ++ es2).
Proof.
  intros [J1 R1 N1 U1 W1] [J2 R2 N2 U2 W2]. split; try congruence.
  - by rewrite foldl_app, <-J1.
  - rewrite reverse_app. by eapply undoes_trans.
Qed.

(** Caching only. *)
Lemma steps_cache s s' :
  sdb_le s s' → sdb_wf s' → sdb_journal s' = sdb_journal s →
  sdb_validRevisions s' = sdb_validRevisions s →
  sdb_nextRevisionID s' = sdb_nextRevisionID s → steps s s' [].
Proof. intros. split; try done. by apply undoes_le. Qed.

Lemma steps_load a s : sdb_wf s → steps s (getStateObject a s).2 [].
Proof.
  intros. destruct (getStateObject_journal keccak ctx a s) as (? & ? & ?).
  apply steps_cache; auto using getStateObject_le, getStateObject_wf.
Qed.

(** Objects that are present *)
Lemma getStateObject_found a s o :
  sdb_stateObjects s !! a = Some o → getStateObject a s = (Some o, s).
Proof. unfold StateDB.getStateObject. by intros ->. Qed.

Lemma getStateObject_set o a s :
  (getStateObject a (setStateObject o s)).1 =
  if decide (so_address o = a) then Some o else (getStateObject a s).1.
Proof.
  unfold StateDB.getStateObject. simpl. rewrite lookup_insert. case_decide; [done|].
  destruct (sdb_stateObjects s !! a); [done|]. by destruct (keeper_GetAccount ctx a).
Qed.

Lemma setStateObject_cache o o' s :
  sdb_stateObjects s !! so_address o = Some o → obj_le o o' →
  sdb_le s (setStateObject o' s).
Proof.
  intros Ho Hle. pose proof (obj_le_address _ _ _ _ Hle) as Ha.
  split; simpl; try done; intros b o1; rewrite <-Ha.
  - rewrite lookup_insert. case_decide; [|intros; by exists o1]. subst.
    rewrite Ho. intros [= <-]. eauto.
  - rewrite lookup_insert. case_decide; [subst; congruence|congruence].
Qed.

Lemma steps_write_back o o' s :
  sdb_wf s → sdb_stateObjects s !! so_address o = Some o → obj_le o o' → obj_wf o' →
  steps s (setStateObject o' s) [].
Proof.
  intros. apply steps_cache; try done.
  - by eapply setStateObject_cache.
  - by apply setStateObject_wf.
Qed.

(** Putting back an object that agrees with the one that was there. *)
Lemma setStateObject_le_restore o o' p ch s :
  sdb_stateObjects s !! so_address o = Some o → obj_le o p → so_address o' = so_address o →
  sdb_le s (setStateObject p (setStateObject o' (append ch s))).
Proof.
  intros Ho Hle Ha. split; simpl; try done; intros b o1;
    rewrite !lookup_insert, Ha, <-(obj_le_address _ _ _ _ Hle).
  - case_decide; [|intros; by exists o1]. subst. rewrite Ho. intros [= <-]. eauto.
  - case_decide; [subst; congruence|congruence].
Qed.

(** One entry that undoes an update of a present object. *)
Lemma steps_update ch f o o' s :
  sdb_wf s → sdb_stateObjects s !! so_address o = Some o →
  so_address o' = so_address o → obj_wf o' →
  (∀ t, entry_Revert keccak ctx ch t = update_object keccak ctx (so_address o) f t) →
  entry_ok ctx ch (setStateObject o' (append ch s)) →
  obj_le o (f o') →
  steps s (setStateObject o' (append ch s)) [ch].
Proof.
  intros Hwf Ho Ha Ho' Hch Hok Hle. split; try done.
  - eapply undoes_one; [done| |].
    + rewrite Hch. unfold update_object. rewrite (getStateObject_found _ _ o'); [done|].
      simpl. by rewrite Ha, lookup_insert_eq.
    + by apply (setStateObject_le_restore o).
  - apply setStateObject_wf; [|done]. split; apply Hwf.
Qed.

(** A new object over nothing, and over a previous one. *)
Lemma steps_create a o s :
  sdb_wf s → (getStateObject a s).1 = None → so_address o = a → obj_wf o →
  steps s (setStateObject o (append (createObjectChange a) s)) [createObjectChange a].
Proof.
  intros Hwf Hn Ha Ho.
  assert (sdb_stateObjects s !! a = None) as Hs.
  { revert Hn. unfold StateDB.getStateObject. by destruct (sdb_stateObjects s !! a). }
  split; try done.
  - eapply undoes_one; [|done|].
    { eapply (entry_ok_object _ _ _ a o); try done. simpl. by rewrite Ha, lookup_insert_eq. }
    split; simpl; try done; intros b o1; rewrite Ha, delete_insert_eq,
      lookup_delete; (case_decide; [congruence|]); [|congruence].
    intros; by exists o1.
  - apply setStateObject_wf; [|done]. split; apply Hwf.
Qed.

Lemma steps_reset p o s :
  sdb_wf s → sdb_stateObjects s !! so_address p = Some p → so_address o = so_address p → obj_wf o →
  steps s (setStateObject o (append (resetObjectChange p) s)) [resetObjectChange p].
Proof.
  intros Hwf Hp Ha Ho. split; try done.
  - eapply undoes_one; [|done|].
    { split; [|intros ? [= <-]; by eapply Hwf|done].
      intros b [= <-]. simpl. rewrite Ha, lookup_insert_eq. eauto. }
    split; simpl; try done; intros b o1; rewrite Ha, insert_insert_eq, (insert_id _ _ _ Hp); [|congruence].
    intros; by exists o1.
  - apply setStateObject_wf; [|done]. split; apply Hwf.
Qed.

(** ** Memory after an update *)

Lemma mem_rep_append ch s m : mem_rep s m → mem_rep (append ch s) m.
Proof. apply mem_rep_le. split; simpl; try done; [|congruence]. intros b o ?. by exists o. Qed.

Lemma mem_rep_load a s m : mem_rep s m → mem_rep (getStateObject a s).2 m.
Proof. apply mem_rep_le, getStateObject_le. Qed.

Lemma mem_rep_set o x s m :
  mem_rep s m → obj_rep o x → mem_rep (setStateObject o s) (upd (so_address o) x m).
Proof.
  intros Hm Ho. split; try apply Hm. intros b. rewrite getStateObject_set. simpl.
  case_decide; [by constructor|apply Hm].
Qed.

Lemma mem_rep_upd_same a o x s m :
  mem_rep s m → (getStateObject a s).1 = Some o → obj_rep o x → mem_rep s (upd a x m).
Proof.
  intros Hm Ho Hx. split; try apply Hm. intros b. simpl.
  case_decide; [|apply Hm]. subst. rewrite Ho. by constructor.
Qed.

Lemma mem_rep_upd_upd a x y s m : mem_rep s (upd a y (upd a x m)) → mem_rep s (upd a y m).
Proof.
  intros Hm. split; try apply Hm. intros b. pose proof (rep_objs _ _ Hm b) as Hb.
  simpl in *. by case_decide.
Qed.

Lemma newObject_rep a : obj_rep (newObject keccak a (mkAccount 0 None None)) (ao_new a).
Proof.
  split; try done. rewrite code_view_alt. simpl. by rewrite decide_True.
Qed.

(** [sim s s' m]: [s'] is reached from [s] by journalled steps and stands for [m]. *)
Definition sim (s s' : StateDB) (m : mem) : Prop := ∃ es, steps s s' es ∧ mem_rep s' m.

Lemma sim_trans s1 s2 s3 m2 m3 : sim s1 s2 m2 → sim s2 s3 m3 → sim s1 s3 m3.
Proof. intros (es1 & ? & ?) (es2 & ? & ?). exists (es1 ++ es2). eauto using steps_trans. Qed.

Lemma sim_load a s m : sdb_wf s → mem_rep s m → sim s (getStateObject a s).2 m.
Proof. intros. exists []. split; [by apply steps_load|by apply mem_rep_load]. Qed.

Lemma getOrNewStateObject_spec a s m :
  sdb_wf s → mem_rep s m →
  let '(o, s1) := getOrNewStateObject keccak ctx a s in
  so_address o = a ∧ obj_wf o ∧ sdb_stateObjects s1 !! a = Some o ∧
  obj_rep o (get_or_new a m) ∧ sim s s1 (upd a (get_or_new a m) m).
Proof.
  intros Hwf Hm. unfold getOrNewStateObject, get_or_new, createObject.
  pose proof (getStateObject_obj_wf keccak ctx a s) as Hobj.
  pose proof (getStateObject_present keccak ctx a s) as Hpr.
  pose proof (sim_load a s m Hwf Hm) as (es & Hst & Hm1).
  pose proof (getStateObject_wf keccak ctx a s Hwf) as Hwf1.
  pose proof (rep_objs _ _ Hm a) as Ha.
  destruct (getStateObject a s) as [[o|] s1] eqn:Hg; simpl in *.
  - destruct (Hobj o) as [? ?]; [done..|]. specialize (Hpr o eq_refl).
    inversion Ha as [? x Hx Hmx|]; subst. simpl. repeat (split; [done|]).
    exists es. split; [done|]. eapply mem_rep_upd_same; [done| |done].
    by rewrite (getStateObject_found _ _ o).
  - inversion Ha as [|Hmx]; subst. simpl.
    assert (getStateObject a s1 = (None, s1)) as Hg1.
    { revert Hg. unfold StateDB.getStateObject.
      destruct (sdb_stateObjects s !! a) eqn:Hsa; [done|].
      destruct (keeper_GetAccount ctx a) eqn:Hk; [done|]. intros [= <-]. by rewrite Hsa. }
    rewrite Hg1. simpl. rewrite lookup_insert_eq.
    split; [done|]. split; [apply newObject_wf|]. split; [done|].
    split; [apply newObject_rep|]. eexists. split.
    + eapply steps_trans; [done|]. apply steps_create; [done|by rewrite Hg1|done|apply newObject_wf].
    + apply (mem_rep_set (newObject keccak a (mkAccount 0 None None))); [|apply newObject_rep].
      by apply mem_rep_append.
Qed.

(** ** Setters *)

(** The setters find or create the object and then run one of its methods. *)
Lemma sim_setter a (meth : stateObject → StateDB → StateDB) y s m :
  sdb_wf s → mem_rep s m →
  (∀ o s1 m1, so_address o = a → obj_wf o → obj_rep o (get_or_new a m) →
     sdb_wf s1 → sdb_stateObjects s1 !! a = Some o → mem_rep s1 m1 →
     sim s1 (meth o s1) (upd a y m1)) →
  sim s (let '(o, s1) := getOrNewStateObject keccak ctx a s in meth o s1) (upd a y m).
Proof.
  intros Hwf Hm Hmeth. pose proof (getOrNewStateObject_spec a s m Hwf Hm) as Hg.
  destruct (getOrNewStateObject keccak ctx a s) as [o s1].
  destruct Hg as (Ha & Hwo & Ho & Hrep & (es & Hst & Hm1)).
  pose proof (steps_wf _ _ _ Hst) as Hwf1.
  destruct (Hmeth o s1 _ Ha Hwo Hrep Hwf1 Ho Hm1) as (es' & Hst' & Hm').
  exists (es ++ es'). split; [by eapply steps_trans|]. by eapply mem_rep_upd_upd.
Qed.

(** A method that writes nothing but caches. *)
Lemma sim_keep a o o' y s m :
  so_address o = a → sdb_wf s → sdb_stateObjects s !! a = Some o → mem_rep s m →
  obj_le o o' → obj_wf o' → obj_rep o y → sim s (setStateObject o' s) (upd a y m).
Proof.
  intros Ha Hwf Ho Hm Hle Hwo Hy. exists []. split.
  - apply (steps_write_back o); try done. by rewrite Ha.
  - pose proof (obj_le_address _ _ _ _ Hle) as Ha'. rewrite <-Ha, Ha'.
    apply mem_rep_set; [done|]. by eapply obj_rep_le.
Qed.

(** A method that journals one entry. *)
Lemma sim_write a ch f o o' y s m :
  so_address o = a → so_address o' = a → sdb_wf s → sdb_stateObjects s !! a = Some o →
  mem_rep s m → obj_wf o' → obj_rep o' y →
  (∀ t, entry_Revert keccak ctx ch t = update_object keccak ctx a f t) →
  touches ch = Some (so_address o) → (∀ prev, ch ≠ resetObjectChange prev) →
  (∀ k v, ch = storageChange a k v → is_Some (so_originStorage o' !! k)) →
  obj_le o (f o') →
  sim s (setStateObject o' (append ch s)) (upd a y m).
Proof.
  intros Ha Ha' Hwf Ho Hm Hwo Hy Hrev Ht Hnr Hk Hle. exists [ch]. split.
  - subst a. apply (steps_update ch f o); try done.
    eapply entry_ok_object; [|done..]. simpl. by rewrite Ha', lookup_insert_eq.
  - rewrite <-Ha'. apply mem_rep_set; [|done]. by apply mem_rep_append.
Qed.

Lemma obj_le_restore o o' :
  so_address o = so_address o' → so_account o = so_account o' →
  so_suicided o = so_suicided o' → so_code o = so_code o' →
  so_originStorage o = so_originStorage o' → so_dirtyStorage o = so_dirtyStorage o' →
  obj_le o o'.
Proof.
  intros ? Hacc ? ? Hor ?. split; try done.
  - apply code_view_ext; [done|]. unfold CodeHash. by rewrite Hacc.
  - intros k. by apply storage_view_ext.
  - intros k. by rewrite Hor.
Qed.

Lemma setBalance_rep v o x : obj_rep o x → obj_rep (setBalance v o) (ao_with_balance v x).
Proof.
  intros []. split; try done.
  - by rewrite (code_view_ext _ _ _ o).
  - intros k. by rewrite (storage_view_ext _ _ o).
Qed.

Lemma setBalance_restore v o : obj_wf o → obj_le o (setBalance (Balance o) (setBalance v o)).
Proof.
  intros Ho. apply obj_le_restore; try done. simpl.
  rewrite <-(obj_wf_balance _ _ Ho). by destruct (so_account o).
Qed.

Lemma sim_SetBalance a v o y s m :
  so_address o = a → obj_wf o → sdb_wf s → sdb_stateObjects s !! a = Some o → mem_rep s m →
  obj_rep o y → sim s (obj_SetBalance v o s) (upd a (ao_with_balance v y) m).
Proof.
  intros Ha Hwo Hwf Ho Hm Hy. unfold obj_SetBalance.
  apply (sim_write a _ (setBalance (Balance o)) o); try done.
  - by apply setBalance_wf.
  - by apply setBalance_rep.
  - intros t. simpl. by rewrite Ha.
  - by apply setBalance_restore.
Qed.

Lemma ao_with_balance_id x : ao_with_balance (ao_balance x) x = x.
Proof. by destruct x. Qed.

Lemma sim_same a o y s m :
  sdb_wf s → sdb_stateObjects s !! a = Some o → mem_rep s m → obj_rep o y → sim s s (upd a y m).
Proof.
  intros Hwf Ho Hm Hy. exists []. split; [by apply steps_cache|].
  eapply mem_rep_upd_same; [done| |done]. by rewrite (getStateObject_found _ _ o).
Qed.

Lemma sim_AddBalance a v s m :
  sdb_wf s → mem_rep s m →
  let x := get_or_new a m in
  sim s (AddBalance keccak ctx a v s) (upd a (ao_with_balance (ao_balance x + v) x) m).
Proof.
  intros Hwf Hm. apply (sim_setter a (obj_AddBalance v)); [done..|].
  intros o s1 m1 Ha Hwo Hrep Hwf1 Ho Hm1. unfold obj_AddBalance.
  rewrite <-(rep_balance _ _ Hrep). destruct (Z.eqb_spec v 0) as [->|].
  - apply (sim_same a o); try done.
    by rewrite Z.add_0_r, (rep_balance _ _ Hrep), ao_with_balance_id.
  - by apply sim_SetBalance.
Qed.

Lemma sim_SubBalance a v s m :
  sdb_wf s → mem_rep s m →
  let x := get_or_new a m in
  sim s (SubBalance keccak ctx a v s) (upd a (ao_with_balance (ao_balance x - v) x) m).
Proof.
  intros Hwf Hm. apply (sim_setter a (obj_SubBalance v)); [done..|].
  intros o s1 m1 Ha Hwo Hrep Hwf1 Ho Hm1. unfold obj_SubBalance.
  rewrite <-(rep_balance _ _ Hrep). destruct (Z.eqb_spec v 0) as [->|].
  - apply (sim_same a o); try done.
    by rewrite Z.sub_0_r, (rep_balance _ _ Hrep), ao_with_balance_id.
  - by apply sim_SetBalance.
Qed.

Lemma sim_SetNonce a n s m :
  sdb_wf s → mem_rep s m →
  let x := get_or_new a m in
  sim s (SetNonce keccak ctx a n s)
    (upd a (mkAobj n (ao_balance x) (ao_codehash x) (ao_code x) (ao_storage x) (ao_suicided x)) m).
Proof.
  intros Hwf Hm. apply (sim_setter a (obj_SetNonce n)); [done..|].
  intros o s1 m1 Ha Hwo Hrep Hwf1 Ho Hm1. unfold obj_SetNonce.
  apply (sim_write a _ (setNonce (Nonce o)) o); try done.
  - by apply setNonce_wf.
  - destruct Hrep. split; try done; [by rewrite (code_view_ext _ _ _ o)|].
    intros k. by rewrite (storage_view_ext _ _ o).
  - intros t. simpl. by rewrite Ha.
  - apply obj_le_restore; try done. unfold Nonce. simpl. by destruct (so_account o).
Qed.

(** Loading the code or a slot caches it. *)
Lemma Code_le o : obj_le o (Code keccak ctx o).2.
Proof.
  unfold Code. destruct (so_code o) eqn:Hc; [done|]. case_decide as Hh; [done|]. simpl.
  split; try done; [|intros k; by apply storage_view_ext].
  rewrite !code_view_alt. simpl. rewrite Hc, decide_False by done.
  change (CodeHash (with_code _ o)) with (CodeHash o).
  destruct (keeper_GetCode ctx (CodeHash o)) eqn:Hk; [done|]. by rewrite decide_False.
Qed.

Lemma Code_wf o : obj_wf o → obj_wf (Code keccak ctx o).2.
Proof.
  intros Ho. unfold Code. destruct (so_code o); [done|]. case_decide; [done|].
  destruct Ho. by split.
Qed.

Lemma GetCommittedState_le k o : obj_wf o → obj_le o (obj_GetCommittedState ctx k o).2.
Proof.
  intros Ho. unfold obj_GetCommittedState. destruct (so_originStorage o !! k) eqn:Hk; [done|].
  split; try done; simpl.
  - by apply code_view_ext.
  - intros k'. rewrite !storage_view_alt. simpl. rewrite lookup_insert.
    case_decide; [subst; by rewrite Hk|done].
  - intros k' ?. rewrite lookup_insert_is_Some. destruct (decide (k = k')); naive_solver.
Qed.

Lemma GetCommittedState_wf k o : obj_wf o → obj_wf (obj_GetCommittedState ctx k o).2.
Proof.
  intros Ho. unfold obj_GetCommittedState. destruct (so_originStorage o !! k) eqn:Hk; [done|].
  destruct Ho as [Hor Hd ? ?]. split; try done; simpl; intros k'.
  - intros v. rewrite lookup_insert. case_decide; [|apply Hor]. subst. by intros [= <-].
  - rewrite lookup_insert_is_Some. intros ?%Hd. destruct (decide (k = k')); naive_solver.
Qed.

Lemma GetState_le k o : obj_wf o → obj_le o (obj_GetState ctx k o).2.
Proof.
  intros Ho. unfold obj_GetState. destruct (so_dirtyStorage o !! k); [done|].
  by apply GetCommittedState_le.
Qed.

Lemma GetState_wf k o : obj_wf o → obj_wf (obj_GetState ctx k o).2.
Proof.
  intros Ho. unfold obj_GetState. destruct (so_dirtyStorage o !! k); [done|].
  by apply GetCommittedState_wf.
Qed.

(** After [GetState] the slot has its stored value cached. *)
Lemma GetState_cached k o :
  obj_wf o → is_Some (so_originStorage (obj_GetState ctx k o).2 !! k).
Proof.
  intros Ho. unfold obj_GetState. destruct (so_dirtyStorage o !! k) eqn:Hd.
  - by apply (obj_wf_dirty _ _ Ho).
  - unfold obj_GetCommittedState. destruct (so_originStorage o !! k) eqn:Hk; simpl; [done|].
    by rewrite lookup_insert_eq.
Qed.

Lemma sim_SetCode a code s m :
  sdb_wf s → mem_rep s m →
  let x := get_or_new a m in
  sim s (SetCode keccak ctx a code s)
    (upd a (mkAobj (ao_nonce x) (ao_balance x) (keccak (default [] code)) code
              (ao_storage x) (ao_suicided x)) m).
Proof.
  intros Hwf Hm. apply (sim_setter a (obj_SetCode keccak ctx _ code)); [done..|].
  intros o s1 m1 Ha Hwo Hrep Hwf1 Ho Hm1. unfold obj_SetCode.
  pose proof (Code_le o) as Hle. pose proof (Code_wf o Hwo) as Hwo2.
  assert ((Code keccak ctx o).1 = code_view keccak ctx o) as Hpc by done.
  destruct (Code keccak ctx o) as [pc o2]; simpl in *. subst pc.
  pose proof (obj_rep_le _ _ _ Hle Hrep) as Hrep2.
  pose proof (obj_le_address _ _ _ _ Hle) as Ha2.
  apply (sim_write a _ (setCode (CodeHash o2) (code_view keccak ctx o)) o); try done.
  - simpl. congruence.
  - by apply setCode_wf.
  - destruct Hrep2. split; try done.
    + rewrite code_view_alt. simpl. destruct code; [done|]. by rewrite decide_True.
    + intros k. by rewrite (storage_view_ext _ _ o2).
  - intros t. simpl. by rewrite <-Ha2, Ha.
  - simpl. by rewrite Ha2.
  - rewrite (obj_le_code _ _ _ _ Hle). etrans; [exact Hle|]. split; try done.
    + simpl. rewrite <-(obj_wf_codehash _ _ Hwo2). by destruct (so_account o2).
    + rewrite (code_view_alt _ _ (setCode _ _ _)).
      change (CodeHash (setCode (CodeHash o2) _ _)) with (CodeHash o2). simpl.
      destruct (code_view keccak ctx o2) eqn:Hv; [done|]. rewrite code_view_alt in Hv.
      by destruct (so_code o2).
    + intros k. by apply storage_view_ext.
Qed.

Lemma sim_SetState a k v s m :
  sdb_wf s → mem_rep s m →
  let x := get_or_new a m in
  sim s (SetState keccak ctx a k v s)
    (upd a (mkAobj (ao_nonce x) (ao_balance x) (ao_codehash x) (ao_code x)
              (λ k', if decide (k = k') then v else ao_storage x k') (ao_suicided x)) m).
Proof.
  intros Hwf Hm. apply (sim_setter a (obj_SetState ctx k v)); [done..|].
  intros o s1 m1 Ha Hwo Hrep Hwf1 Ho Hm1. unfold obj_SetState.
  pose proof (GetState_le k o Hwo) as Hle. pose proof (GetState_wf k o Hwo) as Hwo2.
  pose proof (GetState_cached k o Hwo) as Hk.
  assert ((obj_GetState ctx k o).1 = storage_view ctx o k) as Hpv by done.
  destruct (obj_GetState ctx k o) as [pv o2]; simpl in *. subst pv.
  pose proof (obj_rep_le _ _ _ Hle Hrep) as Hrep2.
  pose proof (obj_le_address _ _ _ _ Hle) as Ha2. case_decide as Hv.
  - eapply (sim_keep a o); try done. destruct Hrep. split; try done.
    intros k'. simpl. case_decide; [congruence|done].
  - apply (sim_write a _ (setState k (storage_view ctx o k)) o); try done.
    + simpl. congruence.
    + by apply setState_wf.
    + destruct Hrep2. split; try done; [by rewrite (code_view_ext _ _ _ o2)|].
      intros k'. rewrite setState_view. simpl. by case_decide.
    + intros t. simpl. by rewrite <-Ha2, Ha.
    + simpl. by rewrite Ha2.
    + intros k' v' [= _ -> _]. done.
    + etrans; [exact Hle|]. split; try done.
      * by apply code_view_ext.
      * intros k'. rewrite !setState_view, (obj_le_storage _ _ _ _ Hle).
        case_decide; [by subst|done].
Qed.

(** Present objects, with what the memory holds for them. *)
Lemma getStateObject_cases a s m :
  sdb_wf s → mem_rep s m →
  sim s (getStateObject a s).2 m ∧
  match (getStateObject a s).1 with
  | Some o => ∃ x, m_objs m a = Some x ∧ so_address o = a ∧ obj_wf o ∧ obj_rep o x ∧
                   sdb_stateObjects (getStateObject a s).2 !! a = Some o
  | None => m_objs m a = None ∧ (getStateObject a (getStateObject a s).2).1 = None
  end.
Proof.
  intros Hwf Hm. split; [by apply sim_load|].
  pose proof (rep_objs _ _ Hm a) as Ha.
  pose proof (rep_objs _ _ (mem_rep_load a s m Hm) a) as Ha'.
  destruct (getStateObject a s).1 as [o|] eqn:Ho, (m_objs m a) as [x|]; inversion Ha; subst.
  - exists x. destruct (getStateObject_obj_wf _ _ _ _ _ Hwf Ho).
    repeat (split; [done|]). by apply getStateObject_present.
  - by inversion Ha'.
Qed.

Lemma setStateObject_twice o o' s :
  so_address o = so_address o' → setStateObject o (setStateObject o' s) = setStateObject o s.
Proof. intros Ha. unfold setStateObject. simpl. by rewrite Ha, insert_insert_eq. Qed.

Lemma sim_CreateAccount a s m :
  sdb_wf s → mem_rep s m →
  sim s (CreateAccount keccak ctx a s)
    (upd a (ao_with_balance (from_option ao_balance 0 (m_objs m a)) (ao_new a)) m).
Proof.
  intros Hwf Hm. unfold CreateAccount, createObject.
  pose proof (getStateObject_wf keccak ctx a s Hwf) as Hwf1.
  destruct (getStateObject_cases a s m Hwf Hm) as [(es & Hst & Hm1) Hc].
  destruct (getStateObject a s) as [[p|] s1]; simpl in *.
  - destruct Hc as (x & -> & Ha & Hwp & Hx & Hp). subst a. simpl.
    set (o := setBalance _ _).
    rewrite (setStateObject_twice o) by done.
    assert (obj_rep o (ao_with_balance (ao_balance x) (ao_new (so_address p)))).
    { unfold o. rewrite (rep_balance _ _ Hx). apply setBalance_rep, newObject_rep. }
    eexists. split.
    + eapply steps_trans; [done|]. by apply (steps_reset p o).
    + apply (mem_rep_set o); [by apply mem_rep_append|done].
  - destruct Hc as [-> Hn]. simpl. eexists. split.
    + eapply steps_trans; [done|]. by apply steps_create.
    + apply (mem_rep_set (newObject keccak a (mkAccount 0 None None))); [|apply newObject_rep].
      by apply mem_rep_append.
Qed.

Lemma sim_Suicide a s m :
  sdb_wf s → mem_rep s m →
  ∃ r m', spec_mem (CSuicide a) m = Some (RBool r, m') ∧
          (Suicide keccak ctx a s).1 = r ∧ sim s (Suicide keccak ctx a s).2 m'.
Proof.
  intros Hwf Hm. unfold Suicide. simpl.
  pose proof (getStateObject_wf keccak ctx a s Hwf) as Hwf1.
  destruct (getStateObject_cases a s m Hwf Hm) as [Hsim Hc].
  destruct (getStateObject a s) as [[o|] s1]; simpl in *.
  - destruct Hc as (x & -> & Ha & Hwo & Hx & Ho). eexists _, _.
    split; [done|]. split; [done|]. destruct Hsim as (es & Hst & Hm1).
    set (o' := setBalance 0 (markSuicided o)).
    assert (obj_wf o') by (by apply setBalance_wf, with_suicided_wf).
    assert (so_address o' = a) as Ha' by done.
    exists (es ++ [suicideChange a (so_suicided o) (Balance o)]). split.
    + eapply steps_trans; [done|]. split; try done.
      * assert (sdb_stateObjects (setStateObject o'
          (append (suicideChange a (so_suicided o) (Balance o)) s1)) !! a = Some o') as Hl.
        { simpl. by rewrite Ha, lookup_insert_eq. }
        eapply undoes_one; [by eapply entry_ok_object|simpl; by rewrite (getStateObject_found _ _ _ Hl)|].
        rewrite <-Ha in *. apply (setStateObject_le_restore o); [done| |done].
        unfold o'. apply obj_le_restore; try done. simpl.
        rewrite <-(obj_wf_balance _ _ Hwo). by destruct (so_account o).
      * apply setStateObject_wf; [|done]. split; apply Hwf1.
    + rewrite <-Ha' at 2. apply mem_rep_set; [by apply mem_rep_append|].
      destruct Hx. split; try done; [by rewrite (code_view_ext _ _ _ o)|].
      intros k. by rewrite (storage_view_ext _ _ o).
  - destruct Hc as [-> _]. by eexists _, _.
Qed.

(** ** Refund counter, logs and access list *)

Lemma sdb_le_same s t :
  sdb_stateObjects s = sdb_stateObjects t → sdb_txConfig s = sdb_txConfig t →
  sdb_refund s = sdb_refund t → sdb_logs s = sdb_logs t →
  sdb_accessList s = sdb_accessList t → sdb_le s t.
Proof. intros Ho ????. split; try done; rewrite Ho; [|congruence]. intros a o ?. by exists o. Qed.

Lemma sdb_wf_same s t : sdb_stateObjects s = sdb_stateObjects t → sdb_wf s → sdb_wf t.
Proof. intros Ho []. split; by rewrite <-Ho. Qed.

(** The objects a state holds do not depend on its other fields. *)
Lemma mem_rep_other s t m m' :
  sdb_stateObjects s = sdb_stateObjects t → sdb_txConfig s = sdb_txConfig t →
  m_objs m = m_objs m' → mem_rep s m →
  sdb_refund t = m_refund m' → sdb_logs t = m_logs m' →
  represents (sdb_accessList t) (m_access m') → mem_rep t m'.
Proof.
  intros Ho Hc Hm Hs ???. split; try done; [|by rewrite <-Hc; apply Hs].
  intros a. pose proof (rep_objs _ _ Hs a) as Ha. rewrite <-Hm. revert Ha.
  unfold StateDB.getStateObject. rewrite Ho.
  destruct (sdb_stateObjects t !! a); [done|]. by destruct (keeper_GetAccount ctx a).
Qed.

Lemma sim_AddRefund gas s m :
  sdb_wf s → mem_rep s m →
  sim s (AddRefund gas s) (mkMem (m_objs m) (u64 (m_refund m + gas)) (m_logs m) (m_access m)).
Proof.
  intros Hwf Hm. exists [refundChange (sdb_refund s)]. split.
  - split; try done; [|by apply (sdb_wf_same s)].
    eapply undoes_one; [by apply entry_ok_other|done|]. by apply sdb_le_same.
  - apply (mem_rep_other s _ m); try done; try apply Hm. simpl. by rewrite (rep_refund _ _ Hm).
Qed.

Lemma sim_SubRefund gas s m :
  sdb_wf s → mem_rep s m →
  if decide (gas > m_refund m) then SubRefund gas s = Panic
  else ∃ s', SubRefund gas s = Ok s' ∧
         sim s s' (mkMem (m_objs m) (u64 (m_refund m - gas)) (m_logs m) (m_access m)).
Proof.
  intros Hwf Hm. unfold SubRefund. simpl. rewrite (rep_refund _ _ Hm).
  case_decide; [done|]. eexists. split; [done|].
  exists [refundChange (m_refund m)]. split.
  - split; try done; [|by apply (sdb_wf_same s)].
    eapply undoes_one; [by apply entry_ok_other|done|]. apply sdb_le_same; try done. apply Hm.
  - apply (mem_rep_other s _ m); try done; apply Hm.
Qed.

Lemma sim_AddLog log s m :
  sdb_wf s → mem_rep s m →
  ∃ m', spec_mem (CAddLog log) m = Some (RUnit, m') ∧ sim s (AddLog log s) m'.
Proof.
  intros Hwf Hm. eexists. split; [done|]. exists [addLogChange]. split.
  - split; try done; [|by apply (sdb_wf_same s)].
    apply (undoes_one _ _ _ _ (set_logs (sdb_logs s) (AddLog log s)));
      [by apply entry_ok_other| |by apply sdb_le_same].
    simpl. destruct (sdb_logs s ++ _) eqn:Hl; [by destruct (sdb_logs s)|].
    by rewrite <-Hl, length_app, Nat.add_sub, take_app_length.
  - apply (mem_rep_other s _ m); try done; try apply Hm. simpl.
    by rewrite (rep_logs _ _ Hm), (rep_config _ _ Hm).
Qed.

Lemma sim_AddAddress a s m :
  sdb_wf s → mem_rep s m →
  sim s (AddAddressToAccessList a s)
    (mkMem (m_objs m) (m_refund m) (m_logs m)
       (mkAccessSets ({[a]} ∪ as_addrs (m_access m)) (as_slots (m_access m)))).
Proof.
  intros Hwf Hm. unfold AddAddressToAccessList.
  destruct (AddAddress_represents _ _ a (rep_access _ _ Hm)) as [_ Hrep].
  destruct (AddAddress (sdb_accessList s) a) as [[] al] eqn:Hadd; simpl in Hrep.
  - exists [accessListAddAccountChange a]. split.
    + split; try done; [|by apply (sdb_wf_same s)].
      eapply undoes_one; [by apply entry_ok_other|done|]. apply sdb_le_same; try done. simpl.
      by rewrite (DeleteAddress_AddAddress _ _ _ Hadd).
    + apply (mem_rep_other s _ m); try done; apply Hm.
  - assert (al = sdb_accessList s) as ->.
    { revert Hadd. unfold AddAddress. destruct (_ !! _); naive_solver. }
    exists []. split; [|apply (mem_rep_other s _ m); try done; apply Hm].
    apply steps_cache; try done; [by apply sdb_le_same|by apply (sdb_wf_same s)].
Qed.

Lemma AddSlot_flags al a k addrMod slotMod al' :
  AddSlot al a k = Ok (addrMod, slotMod, al') →
  (addrMod = true → slotMod = true) ∧ (slotMod = false → al' = al).
Proof.
  unfold AddSlot. intros Hadd. case_guards Hadd; simplify_eq; (split; [done|]); intros; try done.
Qed.

Lemma sim_AddSlot a k s m :
  sdb_wf s → mem_rep s m →
  ∃ s', AddSlotToAccessList a k s = Ok s' ∧
    sim s s' (mkMem (m_objs m) (m_refund m) (m_logs m)
      (mkAccessSets ({[a]} ∪ as_addrs (m_access m)) ({[(a, k)]} ∪ as_slots (m_access m)))).
Proof.
  intros Hwf Hm. unfold AddSlotToAccessList. pose proof (rep_access _ _ Hm) as Hal.
  destruct (AddSlot_represents _ _ a k Hal) as (al & Hadd & Hrep).
  pose proof (AddSlot_undo _ _ _ _ _ _ (rep_wf _ _ Hal) Hadd) as Hundo.
  destruct (AddSlot_flags _ _ _ _ _ _ Hadd) as [Hf1 Hf2].
  rewrite Hadd. simpl. eexists. split; [done|].
  exists ((if bool_decide (a ∉ as_addrs (m_access m)) then [accessListAddAccountChange a] else []) ++
          (if bool_decide ((a, k) ∉ as_slots (m_access m)) then [accessListAddSlotChange a k] else [])).
  split; [|by repeat case_match; apply (mem_rep_other s _ m); try done; apply Hm].
  unfold undo_AddSlot in Hundo. inv_bind Hundo. injection Hundo as Hal0.
  destruct (bool_decide (a ∉ _)), (bool_decide ((a, k) ∉ _)); simpl in *.
  - split; try done; [|by apply (sdb_wf_same s)]. eexists. split.
    + eapply runs_cons; [by apply entry_ok_other|simpl; by rewrite Hundo_1|].
      eapply runs_cons; [by apply entry_ok_other|done|]. constructor.
    + by apply sdb_le_same.
  - by specialize (Hf1 eq_refl).
  - split; try done; [|by apply (sdb_wf_same s)].
    eapply undoes_one; [by apply entry_ok_other|simpl; by rewrite Hundo_1|]. by apply sdb_le_same.
  - apply steps_cache; try done; [|by apply (sdb_wf_same s)].
    apply sdb_le_same; try done. simpl. by rewrite Hf2.
Qed.

(** ** Queries *)

(** A query that only looks at the object. *)
Lemma sim_query {A} a (f : stateObject → A) (g : aobj → A) (d : A) s m :
  sdb_wf s → mem_rep s m → (∀ o x, obj_rep o x → f o = g x) →
  let '(obj, s') := getStateObject a s in
  match obj with Some o => f o | None => d end = from_option g d (m_objs m a) ∧ sim s s' m.
Proof.
  intros Hwf Hm Hfg. destruct (getStateObject_cases a s m Hwf Hm) as [Hsim Hc].
  destruct (getStateObject a s) as [[o|] s']; simpl in *.
  - destruct Hc as (x & -> & _ & _ & Hx & _). split; [by apply Hfg|done].
  - by destruct Hc as [-> _].
Qed.

(** A query that also caches in the object. *)
Lemma sim_load_query {A B} a (f : stateObject → A * stateObject) (h : A → B) (g : aobj → B) (d : B) s m :
  sdb_wf s → mem_rep s m →
  (∀ o x, so_address o = a → obj_wf o → obj_rep o x →
     h (f o).1 = g x ∧ obj_le o (f o).2 ∧ obj_wf (f o).2) →
  let r := match getStateObject a s with
           | (Some o, s) => let '(v, o) := f o in (h v, setStateObject o s)
           | (None, s) => (d, s)
           end in
  r.1 = from_option g d (m_objs m a) ∧ sim s r.2 m.
Proof.
  intros Hwf Hm Hf. pose proof (getStateObject_wf keccak ctx a s Hwf) as Hwf1.
  destruct (getStateObject_cases a s m Hwf Hm) as [Hsim Hc].
  destruct (getStateObject a s) as [[o|] s']; simpl in *.
  - destruct Hc as (x & -> & Ha & Hwo & Hx & Ho).
    destruct (Hf o x Ha Hwo Hx) as (Hv & Hle & Hwo').
    destruct (f o) as [v o']; simpl in *. split; [done|].
    eapply sim_trans; [done|]. exists []. rewrite <-Ha in Ho. split.
    + by apply (steps_write_back o).
    + destruct Hsim as (? & _ & ?). eapply mem_rep_le; [|done]. by eapply setStateObject_cache.
  - by destruct Hc as [-> _].
Qed.

(** ** One call *)

Inductive call_kind := Write | Read | Revision.

Definition kind (c : call) : call_kind :=
  match c with
  | CCreateAccount _ | CAddBalance _ _ | CSubBalance _ _ | CSetNonce _ _ | CSetCode _ _
  | CSetState _ _ _ | CSuicide _ | CAddLog _ | CAddRefund _ | CSubRefund _
  | CAddAddressToAccessList _ | CAddSlotToAccessList _ _ => Write
  | CSnapshot | CRevertToSnapshot _ => Revision
  | _ => Read
  end.

(** What a call does when it is not about revisions. *)
Definition sim_mem (c : call) (s : StateDB) (m : mem) : Prop :=
  match spec_mem c m with
  | Some (r, m') => ∃ s', run_call c s = Ok (r, s') ∧ sim s s' m'
  | None => run_call c s = Panic
  end.

Lemma sim_write_call c s m : kind c = Write → sdb_wf s → mem_rep s m → sim_mem c s m.
Proof.
  intros Hc Hwf Hm. unfold sim_mem.
  destruct c; try discriminate Hc; cbn [spec_mem run_call].
  - eauto using sim_CreateAccount.
  - eauto using sim_AddBalance.
  - eauto using sim_SubBalance.
  - eauto using sim_SetNonce.
  - eauto using sim_SetCode.
  - eauto using sim_SetState.
  - destruct (sim_Suicide a s m Hwf Hm) as (r & m' & Hs & <- & ?). cbn [spec_mem] in Hs.
    rewrite Hs. eauto.
  - destruct (sim_AddLog log s m Hwf Hm) as (m' & [= <-] & ?). eauto.
  - eauto using sim_AddRefund.
  - pose proof (sim_SubRefund gas s m Hwf Hm) as Hs. case_decide.
    + by rewrite Hs.
    + destruct Hs as (s' & -> & ?). eauto.
  - eauto using sim_AddAddress.
  - destruct (sim_AddSlot a slot s m Hwf Hm) as (s' & -> & ?). eauto.
Qed.

Lemma sim_read_call c s m : kind c = Read → sdb_wf s → mem_rep s m → sim_mem c s m.
Proof.
  intros Hc Hwf Hm. assert (sim s s m) as Hrefl.
  { exists []. split; [by apply steps_cache|done]. }
  unfold sim_mem. destruct c; try discriminate Hc; cbn [spec_mem run_call].
  - unfold Exist. pose proof (sim_query a (λ _, true) (λ _, true) false s m Hwf Hm) as Hq.
    destruct (getStateObject a s) as [obj s']. destruct Hq as [Hq ?]; [done|].
    exists s'. split; [|done]. simpl. do 3 f_equal.
    by destruct obj, (m_objs m a).
  - unfold Empty. pose proof (sim_query a (empty_object keccak) (λ x, (ao_nonce x =? 0) &&
      (ao_balance x =? 0) && (ao_codehash x =? emptyCodeHash keccak)) true s m Hwf Hm) as Hq.
    destruct (getStateObject a s) as [obj s']. destruct Hq as [<- ?]; [|eauto].
    intros o x []. unfold empty_object. congruence.
  - unfold GetBalance. pose proof (sim_query a Balance ao_balance 0 s m Hwf Hm) as Hq.
    destruct (getStateObject a s) as [obj s']. destruct Hq as [<- ?]; [by intros ?? []|eauto].
  - unfold GetNonce. pose proof (sim_query a Nonce ao_nonce 0 s m Hwf Hm) as Hq.
    destruct (getStateObject a s) as [obj s']. destruct Hq as [<- ?]; [by intros ?? []|eauto].
  - destruct (sim_load_query a (Code keccak ctx) id ao_code None s m Hwf Hm) as [Hr ?].
    { intros o x ? ? []. auto using Code_le, Code_wf. }
    rewrite <-Hr. eauto.
  - destruct (sim_load_query a (Code keccak ctx) (λ c, Z.of_nat (length (default [] c)))
      (λ x, Z.of_nat (length (default [] (ao_code x)))) 0 s m Hwf Hm) as [Hr ?].
    { intros o x ? ? Hx. rewrite <-(rep_code _ _ Hx). auto using Code_le, Code_wf. }
    rewrite <-Hr. eauto.
  - unfold GetCodeHash. pose proof (sim_query a CodeHash ao_codehash 0 s m Hwf Hm) as Hq.
    destruct (getStateObject a s) as [obj s']. destruct Hq as [<- ?]; [by intros ?? []|eauto].
  - destruct (sim_load_query a (obj_GetState ctx key) id (λ x, ao_storage x key) 0 s m Hwf Hm) as [Hr ?].
    { intros o x ? ? Hx. rewrite <-(rep_storage _ _ Hx). auto using GetState_le, GetState_wf. }
    rewrite <-Hr. eauto.
  - destruct (sim_load_query a (obj_GetCommittedState ctx key) id
      (λ _, keeper_GetState ctx a key) 0 s m Hwf Hm) as [Hr ?].
    { intros o x <- Ho ?. split; [|auto using GetCommittedState_le, GetCommittedState_wf].
      unfold obj_GetCommittedState. destruct (so_originStorage o !! key) eqn:Hk; [|done].
      by eapply obj_wf_origin. }
    rewrite <-Hr. eauto.
  - unfold HasSuicided. pose proof (sim_query a so_suicided ao_suicided false s m Hwf Hm) as Hq.
    destruct (getStateObject a s) as [obj s']. destruct Hq as [<- ?]; [by intros ?? []|eauto].
  - rewrite (rep_refund _ _ Hm). eauto.
  - unfold AddressInAccessList, ContainsAddress. exists s. split; [|done]. do 3 f_equal.
    rewrite (rep_addrs _ _ (rep_access _ _ Hm)). apply bool_decide_ext. by rewrite elem_of_dom.
  - unfold SlotInAccessList. rewrite (Contains_represents _ _ _ _ (rep_access _ _ Hm)). eauto.
  - rewrite (rep_logs _ _ Hm). eauto.
Qed.

(** ** The simulation *)

(** [saved s rev p]: undoing the journal down to the revision [rev] leads to a
    state that stands for the memory saved in [p]. *)
Definition saved (s : StateDB) (rev : revision) (p : Z * mem) : Prop :=
  rev_id rev = p.1 ∧ (rev_journalIndex rev <= length (j_entries (sdb_journal s)))%nat ∧
  ∃ s0, undoes (reverse (drop (rev_journalIndex rev) (j_entries (sdb_journal s)))) s s0 ∧
        mem_rep s0 p.2.

(** Ids increase and journal indexes do not decrease. *)
Definition rev_before (r1 r2 : revision) : Prop :=
  rev_id r1 < rev_id r2 ∧ (rev_journalIndex r1 <= rev_journalIndex r2)%nat.

Record refines (s : StateDB) (sp : spec) : Prop := {
  ref_wf : sdb_wf s;
  ref_mem : mem_rep s (sp_mem sp);
  ref_dirties : j_dirties (sdb_journal s) = dirty_counts (j_entries (sdb_journal s));
  ref_undo : ∃ t, runs keccak ctx (reverse (j_entries (sdb_journal s))) s t;
  ref_next : sdb_nextRevisionID s = sp_next sp;
  ref_saved : Forall2 (saved s) (sdb_validRevisions s) (sp_stack sp);
  ref_bound : Forall (λ r, rev_id r < sdb_nextRevisionID s) (sdb_validRevisions s);
  ref_sorted : StronglySorted rev_before (sdb_validRevisions s)
}.

Lemma foldl_append_entries es j :
  j_entries (foldl (λ j e, journal_append e j) j es) = j_entries j ++ es.
Proof.
  revert j. induction es as [|e es IH]; intros j; simpl; [by rewrite app_nil_r|].
  rewrite IH. simpl. by rewrite <-app_assoc.
Qed.

Lemma foldl_append_dirties es j :
  j_dirties j = dirty_counts (j_entries j) →
  j_dirties (foldl (λ j e, journal_append e j) j es) = dirty_counts (j_entries j ++ es).
Proof.
  revert j. induction es as [|e es IH]; intros j Hj; simpl; [by rewrite app_nil_r|].
  rewrite IH; simpl; [by rewrite <-app_assoc|]. by rewrite dirty_counts_snoc, Hj.
Qed.

Lemma refines_sim s sp s' m' :
  refines s sp → sim s s' m' → refines s' (mkSpec m' (sp_stack sp) (sp_next sp)).
Proof.
  intros [Hwf Hm Hd Hun Hn Hs Hb Hso] (es & [Hj Hr Hnx Hu Hwf'] & Hm').
  split; simpl; rewrite ?Hr, ?Hnx; try done.
  - rewrite Hj, foldl_append_entries. by apply foldl_append_dirties.
  - rewrite Hj, foldl_append_entries, reverse_app. destruct Hun as [t Ht].
    destruct (undoes_trans keccak ctx (reverse (j_entries (sdb_journal s))) (reverse es) t s s')
      as (t' & ? & _); [done|by exists t|eauto].
  - eapply Forall2_impl; [exact Hs|]. intros r p (Hid & Hlen & s0 & Hu0 & Hm0).
    split; [done|]. rewrite Hj, foldl_append_entries, length_app. split; [lia|].
    exists s0. split; [|done]. rewrite drop_app_le, reverse_app by done.
    by eapply undoes_trans.
Qed.

Lemma refines_Snapshot s sp :
  refines s sp →
  (Snapshot s).1 = sp_next sp ∧
  refines (Snapshot s).2
    (mkSpec (sp_mem sp) (sp_stack sp ++ [(sp_next sp, sp_mem sp)]) (sp_next sp + 1)).
Proof.
  intros [Hwf Hm Hd Hun Hn Hs Hb Hso]. split; [done|].
  assert (sdb_le s (Snapshot s).2) as Hle by (by apply sdb_le_same).
  split; simpl; try done.
  - by apply (sdb_wf_same s).
  - by apply (mem_rep_le s).
  - destruct Hun as [t Ht]. destruct (runs_mono _ _ _ _ _ _ Ht Hle) as (t' & ? & _). eauto.
  - by rewrite Hn.
  - apply Forall2_app.
    + eapply Forall2_impl; [exact Hs|]. intros r p (Hid & Hlen & s0 & (t & Hrun & Ht) & Hm0).
      split; [done|]. split; [done|]. exists s0. split; [|done].
      destruct (runs_mono _ _ _ _ _ _ Hrun Hle) as (t' & ? & ?). exists t'.
      split; [done|]. by etrans.
    + constructor; [|done]. split; [done|]. split; [done|]. simpl. exists s.
      rewrite drop_all. split; [by apply undoes_le|done].
  - apply Forall_app. split; [|by constructor; [simpl; lia|]].
    eapply Forall_impl; [exact Hb|]. simpl. lia.
  - apply StronglySorted_snoc; [done|]. apply Forall_lookup. intros i r Hi.
    rewrite Forall_lookup in Hb. specialize (Hb i r Hi).
    destruct (Forall2_lookup_l _ _ _ _ _ Hs Hi) as (p & _ & _ & Hlen & _).
    split; simpl; [lia|done].
Qed.

(** The search of [RevertToSnapshot] finds the revision with the given id. *)
Lemma search_revision revs i r :
  StronglySorted rev_before revs → revs !! i = Some r →
  sort_Search (length revs)
    (λ j, match revs !! j with Some q => bool_decide (rev_id q >= rev_id r) | None => false end) = i.
Proof.
  intros Hs Hi. pose proof (lookup_lt_Some _ _ _ Hi). apply sort_Search_first; [|lia|..].
  - intros j k Hjk. destruct (revs !! j) as [q1|] eqn:Hj; [|done].
    destruct (lookup_lt_is_Some_2 revs k) as [q2 Hk]; [lia|]. rewrite Hk, !bool_decide_eq_true.
    destruct (decide (j = k)); [naive_solver|].
    destruct (StronglySorted_lookup _ _ _ _ _ _ Hs Hj Hk); lia.
  - intros k Hk. destruct (revs !! k) as [q|] eqn:Hq; [|done]. apply bool_decide_eq_false.
    destruct (StronglySorted_lookup _ _ _ _ _ _ Hs Hq Hi); lia.
  - intros _. rewrite Hi. apply bool_decide_eq_true. lia.
Qed.

(** Undoing the journal down to index [n] from a state whose older revisions
    are saved keeps them saved. *)
Lemma saved_undone s t n rev p :
  (n <= length (j_entries (sdb_journal s)))%nat →
  runs keccak ctx (reverse (drop n (j_entries (sdb_journal s)))) s t →
  saved s rev p → (rev_journalIndex rev <= n)%nat →
  ∀ s', sdb_le t s' → j_entries (sdb_journal s') = take n (j_entries (sdb_journal s)) →
  saved s' rev p.
Proof.
  intros Hn Hrun (Hid & Hlen & s0 & (u & Hu & Hle0) & Hm0) Hidx s' Hle Hj.
  split; [done|]. rewrite Hj, length_take. split; [lia|]. exists s0. split; [|done].
  set (es := j_entries (sdb_journal s)) in *.
  rewrite <-(take_drop n es), drop_app_le, reverse_app in Hu by (rewrite length_take; lia).
  apply runs_app_inv in Hu as (t' & Ht' & Hu).
  rewrite (runs_det _ _ _ _ _ _ Ht' Hrun) in Hu.
  destruct (runs_mono _ _ _ _ _ _ Hu Hle) as (u' & ? & ?). exists u'. split; [done|]. by etrans.
Qed.

Lemma refines_Revert s sp i r p :
  refines s sp → sdb_validRevisions s !! i = Some r → sp_stack sp !! i = Some p →
  ∃ s', RevertToSnapshot keccak ctx (rev_id r) s = Ok s' ∧
        refines s' (mkSpec p.2 (take i (sp_stack sp)) (sp_next sp)).
Proof.
  intros [Hwf Hm Hd Hun Hn Hs Hb Hso] Hr Hp.
  pose proof (Forall2_lookup_lr _ _ _ _ _ _ Hs Hr Hp) as (Hid & Hlen & s0 & (t & Hrun & Hle) & Hm0).
  unfold RevertToSnapshot. rewrite (search_revision _ _ _ Hso Hr), Hr, decide_True by done.
  unfold journal_Revert. set (es := j_entries (sdb_journal s)) in *.
  set (n := rev_journalIndex r) in *.
  destruct (runs_frame _ _ _ _ _ Hrun) as (HJ & HR & HN).
  pose proof (revert_entries_runs _ _ _ (sdb_journal s) _ _ Hrun) as Hrev.
  replace (set_journal (sdb_journal s) s) with s in Hrev by (by destruct s).
  rewrite Hrev. simpl.
  eexists. split; [done|]. fold es. rewrite HR, HN.
  set (s' := set_revisions _ _ _).
  assert (sdb_le t s') as Ht by (by apply sdb_le_same).
  split; simpl; fold es; try done.
  - apply (sdb_wf_same t); [done|]. by eapply runs_wf.
  - eapply mem_rep_le; [exact Ht|]. by eapply mem_rep_le.
  - rewrite Hd. fold es. rewrite <-(take_drop n es) at 2. apply undirty_all_app.
  - destruct Hun as [u Hu]. fold es in Hu. rewrite <-(take_drop n es), reverse_app in Hu.
    apply runs_app_inv in Hu as (t' & Ht' & Hu). rewrite (runs_det _ _ _ _ _ _ Ht' Hrun) in Hu.
    destruct (runs_mono _ _ _ _ _ _ Hu Ht) as (u' & ? & _). eauto.
  - apply Forall2_same_length_lookup_2.
    { rewrite !length_take. by rewrite (Forall2_length _ _ _ Hs). }
    intros j q x Hq Hx. apply lookup_take_Some in Hq as [Hq Hj].
    apply lookup_take_Some in Hx as [Hx _].
    apply (saved_undone s t n); try done.
    + by eapply Forall2_lookup_lr.
    + by destruct (StronglySorted_lookup _ _ _ _ _ _ Hso Hq Hr Hj).
  - by apply Forall_take.
  - by apply StronglySorted_take.
Qed.

(** Every call takes related states to related states, with the same reply. *)
Lemma refines_call c s sp :
  refines s sp →
  match spec_call c sp with
  | Ok (r, sp') => ∃ s', run_call c s = Ok (r, s') ∧ refines s' sp'
  | Err e => False
  | Panic => run_call c s = Panic
  end.
Proof.
  intros Href.
  assert (kind c ≠ Revision → sim_mem c s (sp_mem sp)) as Hsim.
  { intros. destruct Href. destruct (kind c) eqn:Hk; [|..|done].
    - by apply sim_write_call.
    - by apply sim_read_call. }
  unfold sim_mem in Hsim.
  destruct c; try (specialize (Hsim ltac:(done)); unfold spec_call;
    destruct (spec_mem _ _) as [[r m']|]; [|done];
    destruct Hsim as (s' & -> & ?); eauto using refines_sim).
  - destruct (refines_Snapshot s sp Href) as [Hid Hs]. cbn [run_call spec_call].
    eexists. split; [|exact Hs]. by rewrite Hid.
  - clear Hsim. cbn [run_call spec_call].
    destruct (list_find _ _) as [[i [id m]]|] eqn:Hf.
    + apply list_find_Some in Hf as (Hp & Hid & _). simpl in Hid.
      destruct (Forall2_lookup_r _ _ _ _ _ (ref_saved _ _ Href) Hp) as (r & Hr & Hrid & _).
      simpl in Hrid. destruct (refines_Revert s sp i r _ Href Hr Hp) as (s' & Hs' & ?).
      rewrite Hrid, Hid in Hs'. rewrite Hs'. simpl. eauto.
    + apply list_find_None in Hf. unfold RevertToSnapshot.
      destruct (_ !! _) as [r|] eqn:Hr; [|done].
      destruct (Forall2_lookup_l _ _ _ _ _ (ref_saved _ _ Href) Hr) as (p & Hp & Hrid & _).
      rewrite decide_False; [done|]. rewrite Hrid.
      by apply (Forall_lookup_1 _ _ _ _ Hf Hp).
Qed.

(** ** Runs *)

Fixpoint run_calls (l : list call) (s : StateDB) : list (partial reply) :=
  match l with
  | [] => []
  | c :: l' =>
      match run_call c s with
      | Ok (r, s') => Ok r :: run_calls l' s'
      | _ => [Panic]
      end
  end.

Fixpoint spec_calls (l : list call) (sp : spec) : list (partial reply) :=
  match l with
  | [] => []
  | c :: l' =>
      match spec_call c sp with
      | Ok (r, sp') => Ok r :: spec_calls l' sp'
      | _ => [Panic]
      end
  end.

Lemma refines_calls l s sp : refines s sp → run_calls l s = spec_calls l sp.
Proof.
  revert s sp. induction l as [|c l IH]; intros s sp Href; [done|]. simpl.
  pose proof (refines_call c s sp Href) as Hc.
  destruct (spec_call c sp) as [[r sp']| |]; [|done|by rewrite Hc].
  destruct Hc as (s' & -> & ?). f_equal. by apply IH.
Qed.

Lemma refines_New : refines (New txConfig) spec_init.
Proof.
  split; simpl; try constructor; try done.
  - intros a. simpl. unfold StateDB.getStateObject. simpl. rewrite lookup_empty.
    destruct (keeper_GetAccount ctx a) as [acct|]; constructor.
    split; try done. rewrite code_view_alt. done.
  - apply new_represents.
  - eexists. apply runs_nil.
Qed.

(** C1.  On every sequence of calls the journalled database returns the replies
    of the specification that saves whole copies of the memory at [Snapshot]
    and restores them at [RevertToSnapshot], and panics at the same call. *)
Theorem statedb_refines_copies l : run_calls l (New txConfig) = spec_calls l spec_init.
Proof. apply refines_calls, refines_New. Qed.
End Refinement.
