(* ===== verification/Commit.v ===== *)
(** * Snapshots and [Commit] of the state database

    What a sequence of calls on a new database ends in: a revert gives back
    every observation, the dirty accounts are live, and [Commit] writes exactly
    the dirty accounts and their storage to the store behind the database. *)

From S2P Require Import Prelude AccessList StateDB Journal StateDBSpec.

(** ** What [Commit] relies on of its store *)

Definition same_account {store} `{Keeper store} (kept : store → Address → Hash → Hash)
    (c c' : store) (a : Address) : Prop :=
  keeper_GetAccount c' a = keeper_GetAccount c a ∧
  (∀ k, keeper_GetState c' a k = keeper_GetState c a k) ∧
  (∀ h, kept c' a h = kept c a h).

(** [kept_code c a h] is the code hash read back after writing [h] to the
    account [a]: an account type without a code hash drops it. *)
Class KeeperLaws (store : Type) `{Keeper store} := {
  kept_code : store → Address → Hash → Hash;
  law_SetAccount c a n b h c' :
    keeper_SetAccount c a (mkAccount n (Some b) (Some h)) = Ok c' →
    keeper_GetAccount c' a = Some (mkAccount n (Some b) (Some (kept_code c a h))) ∧
    (∀ k, keeper_GetState c' a k = keeper_GetState c a k) ∧
    (∀ a', a' ≠ a → same_account kept_code c c' a') ∧
    (∀ h', keeper_GetCode c' h' = keeper_GetCode c h');
  law_SetState c a k bz :
    bz ≠ [] →
    let c' := keeper_SetState c a k bz in
    keeper_GetAccount c' a = keeper_GetAccount c a ∧
    (∀ k', keeper_GetState c' a k' = if decide (k = k') then BytesToHash bz else keeper_GetState c a k') ∧
    (∀ a', a' ≠ a → same_account kept_code c c' a') ∧
    (∀ h', keeper_GetCode c' h' = keeper_GetCode c h');
  law_SetCode c h code :
    let c' := keeper_SetCode c h code in
    (∀ a, same_account kept_code c c' a) ∧
    (∀ h', keeper_GetCode c' h' =
       if decide (h = h') then match code with Some (b :: bz) => Some (b :: bz) | _ => None end
       else keeper_GetCode c h');
  law_DeleteAccount c a c' :
    keeper_DeleteAccount c a = Ok c' →
    keeper_GetAccount c' a = None ∧
    (is_Some (keeper_GetAccount c a) → ∀ k, keeper_GetState c' a k = 0) ∧
    (∀ a', a' ≠ a → same_account kept_code c c' a') ∧
    (∀ h', keeper_GetCode c' h' = keeper_GetCode c h')
}.

Section Commit.
Context {store : Type} `{KeeperLaws store}.
Variable keccak : list byte → Hash.
Variable ctx : store.
Variable txConfig : TxConfig.

Local Abbreviation same_at := (same_account kept_code).

Lemma same_at_trans c1 c2 c3 a : same_at c1 c2 a → same_at c2 c3 a → same_at c1 c3 a.
Proof.
  intros (A1 & S1 & K1) (A2 & S2 & K2). split; [congruence|]. split; intros; congruence.
Qed.

(** ** The loops *)

Lemma Hash_Bytes_not_nil h : Hash_Bytes h ≠ [].
Proof. intros Hn. pose proof (length_be_bytes 32 h) as Hl. unfold Hash_Bytes in Hn. by rewrite Hn in Hl. Qed.

(** The value [Commit] leaves in a slot. *)
Definition committed_slot (o : stateObject) (c : store) (k : Hash) : Hash :=
  match so_dirtyStorage o !! k with
  | Some v => if decide (v = default 0 (so_originStorage o !! k)) then keeper_GetState c (so_address o) k
              else BytesToHash (Hash_Bytes v)
  | None => keeper_GetState c (so_address o) k
  end.

Lemma commit_storage_spec o keys c :
  NoDup keys → (∀ k, k ∈ keys → is_Some (so_dirtyStorage o !! k)) →
  let c' := commit_storage o keys c in
  let a := so_address o in
  keeper_GetAccount c' a = keeper_GetAccount c a ∧
  (∀ k, keeper_GetState c' a k =
     if decide (k ∈ keys) then committed_slot o c k else keeper_GetState c a k) ∧
  (∀ a', a' ≠ a → same_at c c' a') ∧
  (∀ h, keeper_GetCode c' h = keeper_GetCode c h).
Proof.
  revert c. induction keys as [|k keys IH]; intros c Hnd Hdom; [done|].
  apply NoDup_cons in Hnd as [Hk Hnd].
  destruct (Hdom k) as [v Hv]; [by left|]. cbn [commit_storage]. rewrite Hv. simpl.
  assert (∀ k, k ∈ keys → is_Some (so_dirtyStorage o !! k)) as Hdom' by (intros; apply Hdom; by right).
  case_decide as Heq.
  - destruct (IH c Hnd Hdom') as (A & S & F & C). split; [done|]. split; [|done].
    intros k'. rewrite S. destruct (decide (k' = k)) as [->|].
    + rewrite decide_False, decide_True by (done || by left).
      unfold committed_slot. by rewrite Hv, decide_True.
    + apply decide_ext. rewrite elem_of_cons. naive_solver.
  - set (c1 := keeper_SetState c (so_address o) k (Hash_Bytes v)).
    destruct (law_SetState c (so_address o) k (Hash_Bytes v)) as (A1 & S1 & F1 & C1);
      [apply Hash_Bytes_not_nil|]. fold c1 in A1, S1, F1, C1.
    destruct (IH c1 Hnd Hdom') as (A & S & F & C). split; [congruence|].
    split; [|split; [intros a' Ha'; eapply same_at_trans; [by apply F1|by apply F]|congruence]].
    intros k'. rewrite S. destruct (decide (k' = k)) as [->|].
    + rewrite decide_False, decide_True, S1, decide_True by (done || by left).
      unfold committed_slot. by rewrite Hv, decide_False.
    + unfold committed_slot. rewrite !S1, !(decide_False (P := k = k')) by done.
      apply decide_ext. rewrite elem_of_cons. naive_solver.
Qed.

(** What [Commit] does at the address of an object. *)
Definition commits (o : stateObject) (c c' : store) : Prop :=
  let a := so_address o in
  if so_suicided o then
    keeper_GetAccount c' a = None ∧
    (is_Some (keeper_GetAccount c a) → ∀ k, keeper_GetState c' a k = 0)
  else
    keeper_GetAccount c' a =
      Some (mkAccount (Nonce o) (Some (Balance o)) (Some (kept_code c a (CodeHash o)))) ∧
    ∀ k, keeper_GetState c' a k = committed_slot o c k.

Definition writes_code (o : stateObject) : bool :=
  negb (so_suicided o) && so_dirtyCode o && bool_decide (is_Some (so_code o)).

Definition nonempty_code (code : option (list byte)) : option (list byte) :=
  match code with Some (b :: bz) => Some (b :: bz) | _ => None end.

Lemma commit_object_spec o c c' :
  obj_wf ctx o → commit_object o c = Ok c' →
  commits o c c' ∧ (∀ a', a' ≠ so_address o → same_at c c' a') ∧
  (∀ h, keeper_GetCode c' h =
     if decide (writes_code o = true ∧ h = CodeHash o) then nonempty_code (so_code o)
     else keeper_GetCode c h).
Proof.
  intros Hwf. unfold commit_object, commits, writes_code.
  destruct (so_suicided o) eqn:Hs; cbn [negb andb].
  { intros (A & S & F & C)%law_DeleteAccount. split; [done|]. split; [done|].
    intros h. rewrite decide_False; [done|]. by intros []. }
  set (c1 := match so_code o with Some _ => _ | None => c end). intros Hc. inv_bind Hc.
  injection Hc as <-.
  assert ((∀ b, same_at c c1 b) ∧
    ∀ h, keeper_GetCode c1 h =
      if decide (so_dirtyCode o && bool_decide (is_Some (so_code o)) = true ∧ h = CodeHash o)
      then nonempty_code (so_code o) else keeper_GetCode c h) as [F1 C1].
  { unfold c1. destruct (so_code o) as [code|] eqn:Hcode, (so_dirtyCode o); cbn [andb];
      try (split; [done|]; intros h; rewrite decide_False; [done|]; by intros []).
    destruct (law_SetCode c (CodeHash o) (Some code)) as [F C]. split; [done|].
    intros h. rewrite C. rewrite bool_decide_eq_true_2 by done. apply decide_ext. naive_solver. }
  assert (so_account o = mkAccount (Nonce o) (Some (Balance o)) (Some (CodeHash o))) as Hacc.
  { rewrite <-(obj_wf_balance _ _ Hwf), <-(obj_wf_codehash _ _ Hwf). unfold Nonce.
    by destruct (so_account o). }
  rewrite Hacc in Hc_1. apply law_SetAccount in Hc_1 as (A2 & S2 & F2 & C2).
  destruct (commit_storage_spec o (SortedKeys (so_dirtyStorage o)) a) as (A3 & S3 & F3 & C3).
  { apply NoDup_sorted_keys. }
  { intros k. unfold SortedKeys. by rewrite elem_of_sorted_keys. }
  destruct (F1 (so_address o)) as (A1 & S1 & K1).
  split; [split|split].
  - by rewrite A3, A2, K1.
  - intros k. rewrite S3. unfold committed_slot.
    destruct (decide (k ∈ _)) as [Hk|Hk]; unfold SortedKeys in Hk;
      rewrite elem_of_sorted_keys in Hk.
    + by rewrite S2, S1.
    + apply eq_None_not_Some in Hk. by rewrite Hk, S2, S1.
  - intros b Hb. eapply same_at_trans; [apply F1|].
    eapply same_at_trans; [by apply F2|by apply F3].
  - intros h. by rewrite C3, C2, C1.
Qed.

Lemma committed_slot_same o c c' k :
  same_at c c' (so_address o) → committed_slot o c' k = committed_slot o c k.
Proof. intros (_ & S & _). unfold committed_slot. destruct (_ !! _); rewrite ?S; done. Qed.

Lemma commits_frame o c0 c c' c1 :
  same_at c0 c (so_address o) → same_at c' c1 (so_address o) → commits o c c' → commits o c0 c1.
Proof.
  intros Hs (A1 & S1 & _). pose proof Hs as (A0 & S0 & K0). unfold commits.
  destruct (so_suicided o).
  - intros [A S]. split; [congruence|]. intros Hin k. rewrite S1. apply S. by rewrite A0.
  - intros [A S]. split; [by rewrite A1, A, K0|]. intros k. rewrite S1, S.
    by apply committed_slot_same.
Qed.

(** The object at one of the addresses [l] that writes the code with hash [h]. *)
Definition code_writer (s : StateDB) (l : list Address) (h : Hash) (o : stateObject) : Prop :=
  ∃ a, a ∈ l ∧ sdb_stateObjects s !! a = Some o ∧ writes_code o = true ∧ h = CodeHash o.

Definition code_committed (s : StateDB) (l : list Address) (c c' : store) (h : Hash) : Prop :=
  ((¬ ∃ o, code_writer s l h o) ∧ keeper_GetCode c' h = keeper_GetCode c h) ∨
  ∃ o, code_writer s l h o ∧ keeper_GetCode c' h = nonempty_code (so_code o).

Lemma code_writer_cons s a l h o :
  code_writer s (a :: l) h o ↔
  (sdb_stateObjects s !! a = Some o ∧ writes_code o = true ∧ h = CodeHash o) ∨ code_writer s l h o.
Proof.
  unfold code_writer. split.
  - intros (b & [->|Hb]%elem_of_cons & Hr); [by left|right; by exists b].
  - intros [Hr|(b & Hb & Hr)]; [exists a|exists b]; rewrite elem_of_cons; auto.
Qed.

Lemma commit_objects_spec s l c c' :
  sdb_wf ctx s → NoDup l → commit_objects s l c = Ok c' →
  (∀ a o, a ∈ l → sdb_stateObjects s !! a = Some o → commits o c c') ∧
  (∀ a, a ∉ l → same_at c c' a) ∧ (∀ h, code_committed s l c c' h).
Proof.
  intros Hwf. revert c. induction l as [|a l IH]; intros c Hnd; simpl.
  { intros [= <-]. split; [by intros ?? ?%elem_of_nil|]. split; [done|].
    intros h. left. split; [|done]. intros (o & b & Hb & _). by apply elem_of_nil in Hb. }
  apply NoDup_cons in Hnd as [Ha Hnd].
  destruct (sdb_stateObjects s !! a) as [o|] eqn:Ho; [|done]. intros Hc. inv_bind Hc. rename a0 into c1.
  pose proof (sdb_wf_address _ _ Hwf a o Ho) as Hoa. pose proof (sdb_wf_object _ _ Hwf a o Ho) as Hwo.
  apply commit_object_spec in Hc_1 as (E1 & F1 & C1); [|done]. rewrite Hoa in F1.
  destruct (IH c1 Hnd Hc) as (E2 & F2 & C2). split; [|split].
  - intros b o' [->|Hb]%elem_of_cons Ho'.
    + assert (o' = o) as -> by congruence.
      apply (commits_frame o c c c1); [done|rewrite Hoa; by apply F2|done].
    + assert (b ≠ a) by (intros ->; done).
      pose proof (sdb_wf_address _ _ Hwf b o' Ho') as Hb'.
      apply (commits_frame o' c c1 c'); [rewrite Hb'; by apply F1|done|by apply (E2 b)].
  - intros b [Hba Hb]%not_elem_of_cons. eapply same_at_trans; [by apply F1|by apply F2].
  - intros h. destruct (C2 h) as [[Hno Hh]|(o' & Hw & Hh)].
    + rewrite C1 in Hh. unfold code_committed. setoid_rewrite code_writer_cons. rewrite Ho.
      destruct (decide (writes_code o = true ∧ h = CodeHash o)) as [[Hw ->]|Hw].
      * right. exists o. auto.
      * left. split; [|done]. intros (o' & [([= <-] & Hw')|Hw']); [done|]. apply Hno. eauto.
    + right. exists o'. split; [|done]. apply code_writer_cons. by right.
Qed.

(** ** Runs from a new database *)

Local Abbreviation run_call := (run_call keccak ctx).
Local Abbreviation spec_call := (spec_call keccak ctx txConfig).
Local Abbreviation refines := (refines keccak ctx txConfig).

Fixpoint run_all (l : list call) (s : StateDB) : partial StateDB :=
  match l with
  | [] => Ok s
  | c :: l' => '(_, s) ← run_call c s; run_all l' s
  end.

Fixpoint spec_all (l : list call) (sp : spec) : partial spec :=
  match l with
  | [] => Ok sp
  | c :: l' => '(_, sp) ← spec_call c sp; spec_all l' sp
  end.

Lemma run_all_refines l s sp s' :
  refines s sp → run_all l s = Ok s' → ∃ sp', spec_all l sp = Ok sp' ∧ refines s' sp'.
Proof.
  revert s sp. induction l as [|c l IH]; intros s sp Href; simpl.
  { intros [= <-]. eauto. }
  intros Hrun. inv_bind Hrun. destruct a as [r s1]. pose proof (refines_call _ _ _ c s sp Href) as Hc.
  destruct (spec_call c sp) as [[r' sp1]| |]; [|done|congruence].
  destruct Hc as (s1' & Hc & Href1). assert (s1' = s1) as -> by congruence. simpl. by apply (IH s1).
Qed.

Lemma reached_refines l s : run_all l (New txConfig) = Ok s → ∃ sp, refines s sp.
Proof. intros Hr. apply (run_all_refines _ _ _ _ (refines_New _ _ _)) in Hr as (sp & _ & ?). eauto. Qed.

(** A call that does not revert past the revision [id]. *)
Definition keeps_revision (id : Z) (c : call) : Prop :=
  match c with CRevertToSnapshot revid => id < revid | _ => True end.

Lemma spec_call_stack c sp r sp' base id m ext :
  spec_call c sp = Ok (r, sp') → keeps_revision id c →
  sp_stack sp = base ++ (id, m) :: ext → Forall (λ p, p.1 < id) base →
  ∃ ext', sp_stack sp' = base ++ (id, m) :: ext'.
Proof.
  intros Hc Hk Hst Hb.
  destruct c; cbn [StateDBSpec.spec_call] in Hc;
    try (destruct (spec_mem _ _ _ _ _) as [[]|] in Hc; simplify_eq; simpl; by eauto).
  - simplify_eq. simpl. rewrite Hst, <-app_assoc. simpl. eauto.
  - destruct (list_find _ _) as [[i [id' m']]|] eqn:Hf; [|done]. simplify_eq. simpl in *.
    apply list_find_Some in Hf as (Hi & Hid & _). simpl in Hid. subst id'.
    rewrite Hst in Hi |- *.
    assert (length base < i)%nat as Hlt.
    { destruct (decide (i < length base)%nat) as [Hlt|].
      - rewrite lookup_app_l in Hi by done. apply (Forall_lookup_1 _ _ _ _ Hb) in Hi. simpl in Hi. lia.
      - destruct (decide (i = length base)) as [->|]; [|lia].
        rewrite list_lookup_middle in Hi by done. simplify_eq. lia. }
    exists (take (i - S (length base)) ext). rewrite take_app_ge by lia. f_equal.
    by replace (i - length base)%nat with (S (i - S (length base))) by lia.
Qed.

Lemma spec_all_stack l sp sp' base id m ext :
  spec_all l sp = Ok sp' → Forall (keeps_revision id) l →
  sp_stack sp = base ++ (id, m) :: ext → Forall (λ p, p.1 < id) base →
  ∃ ext', sp_stack sp' = base ++ (id, m) :: ext'.
Proof.
  revert sp ext. induction l as [|c l IH]; intros sp ext; simpl.
  { intros [= <-]. eauto. }
  intros Hrun [Hk Hl]%Forall_cons Hst Hb. inv_bind Hrun. destruct a as [r sp1].
  destruct (spec_call_stack _ _ _ _ _ _ _ _ Hrun_1 Hk Hst Hb) as [ext' Hst']. by eapply IH.
Qed.

(** Replies to calls that are not about revisions depend on the memory only. *)
Lemma spec_calls_mem q sp sp' :
  Forall (λ c, kind c ≠ Revision) q → sp_mem sp = sp_mem sp' →
  spec_calls keccak ctx txConfig q sp = spec_calls keccak ctx txConfig q sp'.
Proof.
  intros Hq. revert sp sp'. induction Hq as [|c q Hc Hq IH]; intros sp sp' Hm; [done|]. simpl.
  destruct c; try done; cbn [StateDBSpec.spec_call]; rewrite Hm;
    (destruct (spec_mem _ _ _ _ _) as [[]|]; [f_equal; by apply IH|done]).
Qed.

Lemma stack_ids s sp : refines s sp → Forall (λ p, p.1 < sp_next sp) (sp_stack sp).
Proof.
  intros [_ _ _ _ Hn Hs Hb _]. apply Forall_lookup. intros i p Hp.
  destruct (Forall2_lookup_r _ _ _ _ _ Hs Hp) as (r & Hr & Hid & _).
  apply (Forall_lookup_1 _ _ _ _ Hb) in Hr. lia.
Qed.

(** C2.  After [Snapshot], whatever calls follow (nested snapshots and their
    reverts included), [RevertToSnapshot] of its id succeeds, and from there on
    every sequence of reads and writes is answered as in the snapshotted state. *)
Theorem revert_restores l0 l s s1 :
  run_all l0 (New txConfig) = Ok s →
  Forall (keeps_revision (Snapshot s).1) l → run_all l (Snapshot s).2 = Ok s1 →
  ∃ s2, RevertToSnapshot keccak ctx (Snapshot s).1 s1 = Ok s2 ∧
    ∀ q, Forall (λ c, kind c ≠ Revision) q → run_calls keccak ctx q s2 = run_calls keccak ctx q s.
Proof.
  intros (sp & Href)%reached_refines Hl Hrun.
  destruct (refines_Snapshot _ _ _ _ _ Href) as [Hid Href1]. rewrite Hid in *.
  destruct (run_all_refines _ _ _ _ Href1 Hrun) as (sp1 & Hsp1 & Href2).
  destruct (spec_all_stack _ _ _ (sp_stack sp) (sp_next sp) (sp_mem sp) [] Hsp1 Hl) as [ext Hst];
    [done|by eapply stack_ids|].
  assert (sp_stack sp1 !! length (sp_stack sp) = Some (sp_next sp, sp_mem sp)) as Hp.
  { rewrite Hst. by apply list_lookup_middle. }
  destruct (Forall2_lookup_r _ _ _ _ _ (ref_saved _ _ _ _ _ Href2) Hp) as (r & Hr & Hrid & _).
  destruct (refines_Revert _ _ _ _ _ _ _ _ Href2 Hr Hp) as (s2 & Hrev & Href3).
  simpl in Hrid. rewrite Hrid in Hrev. exists s2. split; [done|]. intros q Hq.
  rewrite (refines_calls _ _ _ _ _ _ Href3), (refines_calls _ _ _ _ _ _ Href).
  by apply spec_calls_mem.
Qed.

(** ** Commit *)

(** An entry of the journal that was not undone dirtied the account. *)
Definition dirtied (s : StateDB) (a : Address) : Prop :=
  ∃ ch, ch ∈ j_entries (sdb_journal s) ∧ Dirtied ch = Some a.

Lemma sortedDirties_dirtied s sp a :
  refines s sp → a ∈ sortedDirties (sdb_journal s) ↔ dirtied s a.
Proof.
  intros Href. unfold sortedDirties. rewrite elem_of_sorted_keys, (ref_dirties _ _ _ _ _ Href).
  apply dirty_counts_elem.
Qed.

(** A dirtied account has its object in the map, also after reverts. *)
Lemma dirtied_live s sp a : refines s sp → dirtied s a → is_Some (sdb_stateObjects s !! a).
Proof.
  intros Href (ch & Hch & Ha). destruct (ref_undo _ _ _ _ _ Href) as [t Ht].
  eapply runs_live; [exact Ht|apply Href|by rewrite elem_of_reverse|]. by destruct ch.
Qed.

Lemma commit_objects_no_panic s l c :
  (∀ c a acct, keeper_SetAccount c a acct ≠ Panic) → (∀ c a, keeper_DeleteAccount c a ≠ Panic) →
  (∀ a, a ∈ l → is_Some (sdb_stateObjects s !! a)) → commit_objects s l c ≠ Panic.
Proof.
  intros Hs Hd. revert c. induction l as [|a l IH]; intros c Hl; simpl; [done|].
  destruct (Hl a) as [o ->]; [by left|].
  assert (∀ c, commit_objects s l c ≠ Panic) as Hrest by (intros; apply IH; intros; apply Hl; by right).
  unfold commit_object. destruct (so_suicided o).
  - specialize (Hd c (so_address o)). by destruct (keeper_DeleteAccount c (so_address o)); simpl.
  - set (c1 := match so_code o with Some _ => _ | None => _ end).
    specialize (Hs c1 (so_address o) (so_account o)). by destruct (keeper_SetAccount _ _ _); simpl.
Qed.

(** [Commit] never dereferences a missing object: after any calls, reverts
    included, every dirty address is in the map. *)
Theorem commit_no_nil_object l s :
  run_all l (New txConfig) = Ok s →
  (∀ c a acct, keeper_SetAccount c a acct ≠ Panic) → (∀ c a, keeper_DeleteAccount c a ≠ Panic) →
  Commit ctx s ≠ Panic.
Proof.
  intros (sp & Href)%reached_refines ??. apply commit_objects_no_panic; try done.
  intros a Ha. eapply dirtied_live; [done|]. by eapply sortedDirties_dirtied.
Qed.

(** Slots are 32-byte arrays. *)
Definition slots_in_range (s : StateDB) : Prop :=
  map_Forall (λ _ o, map_Forall (λ _ v, 0 <= v < 2 ^ 256) (so_dirtyStorage o)) (sdb_stateObjects s).

Lemma committed_slot_view o k :
  obj_wf ctx o → (∀ k v, so_dirtyStorage o !! k = Some v → 0 <= v < 2 ^ 256) →
  committed_slot o ctx k = storage_view ctx o k.
Proof.
  intros Hwf Hr. rewrite storage_view_alt. unfold committed_slot.
  destruct (so_dirtyStorage o !! k) as [v|] eqn:Hv; simpl.
  - destruct (obj_wf_dirty _ _ Hwf k) as [w Hw]; [eauto|]. rewrite Hw. simpl. case_decide as Heq.
    + subst. symmetry. by apply (obj_wf_origin _ _ Hwf).
    + apply BytesToHash_Bytes. eauto.
  - destruct (so_originStorage o !! k) as [w|] eqn:Hw; simpl; [|done].
    symmetry. by apply (obj_wf_origin _ _ Hwf).
Qed.

(** C3.  A [Commit] that succeeds leaves, for every account the journal dirtied,
    the nonce, the balance, the code hash and all the slots the database showed
    (or no account and cleared slots, when it was suicided), writes the dirty
    codes under their hash, and changes nothing at any other address. *)
Theorem commit_writes_dirty_accounts l s c' :
  run_all l (New txConfig) = Ok s → slots_in_range s → Commit ctx s = Ok c' →
  (∀ a, dirtied s a → ∃ o, sdb_stateObjects s !! a = Some o ∧
     if so_suicided o then
       keeper_GetAccount c' a = None ∧
       (is_Some (keeper_GetAccount ctx a) → ∀ k, keeper_GetState c' a k = 0)
     else
       keeper_GetAccount c' a =
         Some (mkAccount (Nonce o) (Some (Balance o)) (Some (kept_code ctx a (CodeHash o)))) ∧
       ∀ k, keeper_GetState c' a k = storage_view ctx o k) ∧
  (∀ a, ¬ dirtied s a → same_account kept_code ctx c' a) ∧
  (∀ h, code_committed s (sortedDirties (sdb_journal s)) ctx c' h).
Proof.
  intros (sp & Href)%reached_refines Hrange Hc.
  pose proof (ref_wf _ _ _ _ _ Href) as Hwf.
  apply commit_objects_spec in Hc as (E & F & C); [|done|apply NoDup_sorted_keys].
  split; [|split; [|done]].
  - intros a Ha. destruct (dirtied_live _ _ _ Href Ha) as [o Ho]. exists o. split; [done|].
    pose proof (sdb_wf_address _ _ Hwf a o Ho) as Hoa. apply (sortedDirties_dirtied _ _ _ Href) in Ha.
    specialize (E a o Ha Ho). unfold commits in E. rewrite Hoa in E.
    destruct (so_suicided o); [done|]. destruct E as [E S]. split; [done|]. intros k. rewrite S.
    apply committed_slot_view; [by eapply Hwf|]. exact (Hrange a o Ho).
  - intros a Ha. apply F. by rewrite sortedDirties_dirtied.
Qed.
End Commit.

(** ** A store of finite maps *)

Record map_store := mkMapStore {
  ms_accounts : gmap Address Account;
  ms_slots : gmap (Address * Hash) Hash;
  ms_codes : gmap Hash (list byte)
}.

#[export] Instance map_keeper : Keeper map_store := {
  keeper_error := Empty_set;
  keeper_GetAccount c a := ms_accounts c !! a;
  keeper_GetState c a k := default 0 (ms_slots c !! (a, k));
  keeper_GetCode c h := ms_codes c !! h;
  keeper_Storage c a :=
    (λ p, (p.1.2, p.2)) <$> filter (λ p, p.1.1 = a) (map_to_list (ms_slots c));
  keeper_SetAccount c a acct :=
    Ok (mkMapStore (<[a := acct]> (ms_accounts c)) (ms_slots c) (ms_codes c));
  keeper_SetState c a k bz :=
    mkMapStore (ms_accounts c) (<[(a, k) := BytesToHash bz]> (ms_slots c)) (ms_codes c);
  keeper_SetCode c h code :=
    mkMapStore (ms_accounts c) (ms_slots c)
      (match code with Some (b :: bz) => <[h := b :: bz]> (ms_codes c) | _ => delete h (ms_codes c) end);
  keeper_DeleteAccount c a :=
    Ok (mkMapStore (delete a (ms_accounts c))
          (filter (λ p, p.1.1 ≠ a) (ms_slots c)) (ms_codes c))
}.

#[export, refine] Instance map_keeper_laws : KeeperLaws map_store := {
  kept_code _ _ h := h
}.
Proof.
  - intros c a n b h c' [= <-]. simpl. rewrite lookup_insert_eq. repeat split; try done.
    simpl. by rewrite lookup_insert_ne.
  - intros c a k bz _. simpl. repeat split; try done.
    + intros k'. rewrite lookup_insert. by repeat case_decide; simplify_eq.
    + intros k'. simpl. by rewrite lookup_insert_ne by congruence.
  - intros c h code. simpl. repeat split; try done. intros h'.
    destruct code as [[|b bz]|]; rewrite ?lookup_insert, ?lookup_delete; by case_decide.
  - intros c a c' [= <-]. simpl. rewrite lookup_delete_eq. repeat split; try done.
    + intros _ k. rewrite map_lookup_filter_None_2; [done|]. right. intros x _. naive_solver.
    + simpl. by rewrite lookup_delete_ne.
    + intros k. simpl. f_equal. rewrite map_lookup_filter.
      destruct (_ !! _); simpl; [|done]. by case_guard.
Defined.

(** A hash without collisions on short codes. *)
Definition toy_keccak (bz : list byte) : Hash := SetBytes (1 :: bz).

Definition toy_store : map_store :=
  mkMapStore {[ 7 := mkAccount 3 (Some 100) (Some (toy_keccak [])) ]} {[ (7, 1) := 5 ]} ∅.

Definition toy_config : TxConfig := mkTxConfig 11 12 0 0.

(** The account 7 is credited, a nested revision is undone, and the outer one too. *)
Lemma revert_restores_witness :
  ∃ s s1 s2,
    run_all toy_keccak toy_store [CAddBalance 7 5; CSetState 7 1 9] (New toy_config) = Ok s ∧
    run_all toy_keccak toy_store
      [CSetState 7 1 8; CSnapshot; CCreateAccount 8; CRevertToSnapshot 1; CSuicide 7] (Snapshot s).2 = Ok s1 ∧
    RevertToSnapshot toy_keccak toy_store (Snapshot s).1 s1 = Ok s2 ∧
    run_calls toy_keccak toy_store [CGetBalance 7; CGetState 7 1] s2 = [Ok (RZ 105); Ok (RZ 9)].
Proof.
  edestruct (revert_restores toy_keccak toy_store toy_config
    [CAddBalance 7 5; CSetState 7 1 9]
    [CSetState 7 1 8; CSnapshot; CCreateAccount 8; CRevertToSnapshot 1; CSuicide 7])
    as (s2 & H2 & Hq); [vm_compute; reflexivity| |vm_compute; reflexivity|].
  - repeat constructor.
  - eexists _, _, s2. split; [vm_compute; reflexivity|]. split; [vm_compute; reflexivity|].
    split; [exact H2|]. rewrite Hq; [vm_compute; reflexivity|]. repeat constructor; discriminate.
Defined.

(** Credit, write a slot, deploy code at 8, then commit. *)
Lemma commit_no_nil_object_witness :
  ∃ s, run_all toy_keccak toy_store
         [CSnapshot; CCreateAccount 9; CRevertToSnapshot 0; CSetCode 8 (Some [1; 2])] (New toy_config) = Ok s ∧
       Commit toy_store s ≠ Panic.
Proof.
  eexists. split; [vm_compute; reflexivity|].
  eapply (commit_no_nil_object toy_keccak toy_store toy_config
    [CSnapshot; CCreateAccount 9; CRevertToSnapshot 0; CSetCode 8 (Some [1; 2])]);
    [vm_compute; reflexivity|discriminate..].
Defined.

Lemma commit_writes_dirty_accounts_witness :
  ∃ s c', run_all toy_keccak toy_store
         [CAddBalance 7 5; CSetState 7 1 9; CSetCode 8 (Some [1; 2])] (New toy_config) = Ok s ∧
       Commit toy_store s = Ok c' ∧ dirtied s 7 ∧ keeper_GetState c' 7 1 = 9.
Proof.
  edestruct (commit_writes_dirty_accounts toy_keccak toy_store toy_config
    [CAddBalance 7 5; CSetState 7 1 9; CSetCode 8 (Some [1; 2])]) as (HE & _ & _);
    [vm_compute; reflexivity| |vm_compute; reflexivity|].
  - apply (bool_decide_unpack _). vm_compute. exact I.
  - eexists _, _. split; [vm_compute; reflexivity|]. split; [vm_compute; reflexivity|].
    match goal with |- ?P ∧ _ => assert P as Hd; [|split; [exact Hd|]] end.
    { exists (balanceChange 7 100). split; [left|reflexivity]. }
    destruct (HE 7 Hd) as (o & Ho & Hr). vm_compute in Ho. injection Ho as <-.
    destruct Hr as [_ Hr]. rewrite (Hr 1). vm_compute. reflexivity.
Defined.
