(* ===== verification/Sdk.v ===== *)
(** * What the modules use of the Cosmos SDK

    The SDK is not part of the repository.  The types and calls the modules use
    are class operations, and the behaviour they rely on are class laws, stated
    for what the SDK documents: coin sets are sorted lists of positive amounts
    ([IsValid]), their amounts stay below the 256-bit limit of [sdk.Int].  The
    instances at the end show that the laws can hold. *)

From S2P Require Import Prelude.

(** ** Coins *)

Class Coins := {
  coins : Type;
  AmountOf : coins → string → Z;
  IsValid : coins → bool;
  NewCoins : coins;
  NewCoin : string → Z → coins;
  coins_Add : coins → coins → coins;
  coins_Sub : coins → coins → partial coins;
  coins_Min : coins → coins → coins;
  IsAllLTE : coins → coins → bool;
  IsAllLT : coins → coins → bool;
  coins_IsZero : coins → bool;
  coins_Empty : coins → bool
}.

Definition coins_valid `{Coins} (c : coins) : Prop := IsValid c = true.

(** [a] has at most [b] of each denomination. *)
Definition coins_le `{Coins} (a b : coins) : Prop := ∀ d, AmountOf a d <= AmountOf b d.

Class CoinsLaws `{Coins} : Prop := {
  valid_nonneg c d : coins_valid c → 0 <= AmountOf c d;
  NewCoins_valid : coins_valid NewCoins;
  AmountOf_NewCoins d : AmountOf NewCoins d = 0;
  NewCoin_valid d n : 0 <= n → coins_valid (NewCoin d n);
  AmountOf_NewCoin d n d' : 0 <= n → AmountOf (NewCoin d n) d' = if decide (d = d') then n else 0;
  Add_valid a b : coins_valid a → coins_valid b → coins_valid (coins_Add a b);
  AmountOf_Add a b d :
    coins_valid a → coins_valid b → AmountOf (coins_Add a b) d = AmountOf a d + AmountOf b d;
  Sub_ok a b :
    coins_valid a → coins_valid b → coins_le b a →
    ∃ c, coins_Sub a b = Ok c ∧ coins_valid c ∧ ∀ d, AmountOf c d = AmountOf a d - AmountOf b d;
  Sub_negative a b : coins_valid a → coins_valid b → ¬ coins_le b a → coins_Sub a b = Panic;
  Min_valid a b : coins_valid a → coins_valid b → coins_valid (coins_Min a b);
  AmountOf_Min a b d :
    coins_valid a → coins_valid b → AmountOf (coins_Min a b) d = Z.min (AmountOf a d) (AmountOf b d);
  IsAllLTE_spec a b : coins_valid a → coins_valid b → IsAllLTE a b = true ↔ coins_le a b;
  IsZero_spec c : coins_valid c → coins_IsZero c = true ↔ ∀ d, AmountOf c d = 0;
  Empty_spec c : coins_valid c → coins_Empty c = true ↔ ∀ d, AmountOf c d = 0
}.

(** Coins are used up to their amounts: [nil] and the empty list are the same. *)
#[export] Instance coins_equiv `{Coins} : Equiv coins := λ a b, ∀ d, AmountOf a d = AmountOf b d.

#[export] Instance coins_equivalence `{Coins} : Equivalence (≡@{coins}).
Proof.
  split; [by intros a d|by intros a b Hab d; rewrite Hab|].
  intros a b c Hab Hbc d. by rewrite Hab, Hbc.
Qed.

#[export] Instance AmountOf_proper `{Coins} : Proper ((≡) ==> (=) ==> (=)) AmountOf.
Proof. by intros a b Hab d _ <-. Qed.

#[export] Instance coins_le_proper `{Coins} : Proper ((≡) ==> (≡) ==> iff) coins_le.
Proof.
  intros a a' Ha b b' Hb. unfold coins_le. split; intros Hle d.
  - rewrite <-(Ha d), <-(Hb d). apply Hle.
  - rewrite (Ha d), (Hb d). apply Hle.
Qed.

#[export] Instance coins_le_preorder `{Coins} : PreOrder coins_le.
Proof.
  split; [by intros a d|]. intros a b c Hab Hbc d. etrans; [apply Hab|apply Hbc].
Qed.

Create HintDb coins.
#[export] Hint Resolve NewCoins_valid Add_valid Min_valid valid_nonneg : coins.

(** ** Vesting periods *)

Record Period `{Coins} := mkPeriod {
  period_Length : Z;
  period_Amount : coins
}.

Definition length_sum `{Coins} (ps : list Period) : Z := foldr (λ p n, period_Length p + n) 0 ps.

Definition amount_sum `{Coins} (ps : list Period) (d : string) : Z :=
  foldr (λ p n, AmountOf (period_Amount p) d + n) 0 ps.

Class Periods `{Coins} := {
  TotalLength : list Period → Z;
  TotalAmount : list Period → coins
}.

Class PeriodsLaws `{Periods} : Prop := {
  TotalLength_sum ps :
    Forall (λ p, 0 <= period_Length p) ps → in_i64 (length_sum ps) → TotalLength ps = length_sum ps;
  TotalAmount_valid ps : Forall (λ p, coins_valid (period_Amount p)) ps → coins_valid (TotalAmount ps);
  TotalAmount_sum ps d :
    Forall (λ p, coins_valid (period_Amount p)) ps → AmountOf (TotalAmount ps) d = amount_sum ps d
}.

Module MapCoins.
(** A coin set per denomination with positive amounts. *)
Abbreviation map_coins := (gmap string Z).

Definition map_amount (c : map_coins) (d : string) : Z := default 0 (c !! d).

Definition map_valid (c : map_coins) : Prop := map_Forall (λ _ v, 0 < v) c.

Definition map_merge (f : Z → Z → Z) (a b : map_coins) : map_coins :=
  filter (λ p, p.2 ≠ 0)
    (merge (λ x y, match x, y with None, None => None | _, _ => Some (f (default 0 x) (default 0 y)) end) a b).

Definition map_lte (a b : map_coins) : bool :=
  bool_decide (map_Forall (λ d v, v <= map_amount b d) a).

#[export] Instance map_Coins : Coins := {
  coins := map_coins;
  AmountOf := map_amount;
  IsValid c := bool_decide (map_valid c);
  NewCoins := ∅;
  NewCoin d n := if decide (n = 0) then ∅ else {[ d := n ]};
  coins_Add := map_merge Z.add;
  coins_Sub a b := if map_lte b a then Ok (map_merge Z.sub a b) else Panic;
  coins_Min := map_merge Z.min;
  IsAllLTE := map_lte;
  IsAllLT a b :=
    bool_decide (a = ∅ ∧ b ≠ ∅ ∨ a ≠ ∅ ∧ b ≠ ∅ ∧ map_Forall (λ d v, v < map_amount b d) a);
  coins_Empty c := bool_decide (c = ∅);
  coins_IsZero c := bool_decide (map_Forall (λ _ v, v = 0) c)
}.

Lemma map_valid_nonneg c d : map_valid c → 0 <= map_amount c d.
Proof.
  intros Hc. unfold map_amount. destruct (c !! d) as [v|] eqn:Hv; simpl; [|done].
  apply Hc in Hv. lia.
Qed.

Lemma map_amount_merge f a b d :
  f 0 0 = 0 → map_amount (map_merge f a b) d = f (map_amount a d) (map_amount b d).
Proof.
  intros Hf. unfold map_amount, map_merge. rewrite map_lookup_filter, lookup_merge.
  destruct (a !! d), (b !! d); simpl; try (case_guard as Hg; simpl in *; [done|]);
    try (destruct (decide (f _ _ = 0)) as [->|]; tauto); done.
Qed.

Lemma map_merge_valid f a b :
  f 0 0 = 0 → (∀ d, 0 <= f (map_amount a d) (map_amount b d)) → map_valid (map_merge f a b).
Proof.
  intros Hf Hpos d v Hv. pose proof (map_amount_merge f a b d Hf) as Ha.
  specialize (Hpos d). rewrite <-Ha in Hpos. unfold map_amount in Hpos. rewrite Hv in Hpos. simpl in Hpos.
  unfold map_merge in Hv. apply map_lookup_filter_Some in Hv as [_ Hv]. simpl in Hv. lia.
Qed.

Lemma map_lte_spec a b :
  map_valid a → map_valid b → map_lte a b = true ↔ ∀ d, map_amount a d <= map_amount b d.
Proof.
  intros Ha Hb. unfold map_lte. rewrite bool_decide_eq_true. split.
  - intros Hle d. unfold map_amount at 1. destruct (a !! d) as [v|] eqn:Hv; simpl.
    + by apply (Hle d).
    + by apply map_valid_nonneg.
  - intros Hle d v Hv. specialize (Hle d). unfold map_amount at 1 in Hle. by rewrite Hv in Hle.
Qed.

Lemma map_coins_valid c : coins_valid c ↔ map_valid c.
Proof. unfold coins_valid. simpl. apply bool_decide_eq_true. Qed.

Lemma map_zero_empty c : map_valid c → (∀ d, map_amount c d = 0) ↔ c = ∅.
Proof.
  intros Hc. split; [|by intros ->]. intros Hz. apply map_eq. intros d. rewrite lookup_empty.
  destruct (c !! d) as [v|] eqn:Hv; [|done]. specialize (Hz d). unfold map_amount in Hz.
  rewrite Hv in Hz. simpl in Hz. apply Hc in Hv. lia.
Qed.

Lemma map_zero_amounts (c : map_coins) : map_Forall (λ _ v, v = 0) c ↔ ∀ d, map_amount c d = 0.
Proof.
  unfold map_amount. split.
  - intros Hz d. destruct (c !! d) eqn:Hv; [|done]. by apply Hz in Hv.
  - intros Hz d v Hv. specialize (Hz d). by rewrite Hv in Hz.
Qed.

#[export] Instance map_CoinsLaws : CoinsLaws.
Proof.
  split; intros *; rewrite ?map_coins_valid; simpl; unfold coins_le; simpl.
  - apply map_valid_nonneg.
  - apply map_Forall_empty.
  - done.
  - intros Hn. case_decide; [apply map_Forall_empty|]. apply (map_Forall_singleton (λ _ v, 0 < v)). lia.
  - intros Hn. unfold map_amount. case_decide; [subst; by case_decide|].
    rewrite lookup_singleton. by case_decide.
  - intros Ha Hb. apply map_merge_valid; [done|]. intros d.
    pose proof (map_valid_nonneg a d Ha). pose proof (map_valid_nonneg b d Hb). lia.
  - intros. by apply map_amount_merge.
  - intros Ha Hb Hle. rewrite (proj2 (map_lte_spec b a Hb Ha) Hle). eexists. split; [done|].
    rewrite map_coins_valid. split; [|intros d; by apply map_amount_merge].
    apply map_merge_valid; [done|]. intros d. specialize (Hle d). lia.
  - intros Ha Hb Hn. destruct (map_lte b a) eqn:Hl; [|done].
    destruct Hn. by apply map_lte_spec.
  - intros Ha Hb. apply map_merge_valid; [done|]. intros d.
    pose proof (map_valid_nonneg a d Ha). pose proof (map_valid_nonneg b d Hb). lia.
  - intros. by apply map_amount_merge.
  - apply map_lte_spec.
  - intros _. rewrite bool_decide_eq_true. apply map_zero_amounts.
  - intros Hc. rewrite bool_decide_eq_true. symmetry. by apply map_zero_empty.
Qed.

#[export] Instance map_Periods : Periods := {
  TotalLength ps := foldl (λ n p, i64 (n + period_Length p)) 0 ps;
  TotalAmount ps := foldl (λ c p, coins_Add c (period_Amount p)) NewCoins ps
}.

Lemma total_length_loop ps n :
  Forall (λ p, 0 <= period_Length p) ps → 0 <= n → n + length_sum ps <= MaxInt64 →
  foldl (λ n p, i64 (n + period_Length p)) n ps = n + length_sum ps.
Proof.
  intros Hps. revert n. induction Hps as [|p ps Hp Hps IH]; intros n Hn Hle; simpl in *; [lia|].
  assert (0 <= length_sum ps).
  { clear -Hps. induction Hps; simpl; lia. }
  rewrite i64_small by (unfold in_i64, MaxInt64 in *; lia). rewrite IH; lia.
Qed.

Lemma total_amount_loop ps c :
  Forall (λ p, coins_valid (period_Amount p)) ps → coins_valid c →
  let r := foldl (λ c p, coins_Add c (period_Amount p)) c ps in
  coins_valid r ∧ ∀ d, AmountOf r d = AmountOf c d + amount_sum ps d.
Proof.
  intros Hps. revert c. induction Hps as [|p ps Hp Hps IH]; intros c Hc; cbn [foldl amount_sum foldr].
  - split; [done|]. intros d. lia.
  - destruct (IH (coins_Add c (period_Amount p))) as [Hv Ha]; [by apply Add_valid|].
    split; [done|]. intros d. rewrite Ha, AmountOf_Add by done. unfold amount_sum. lia.
Qed.

#[export] Instance map_PeriodsLaws : PeriodsLaws.
Proof.
  split.
  - intros ps Hps Hi. unfold TotalLength, map_Periods. rewrite total_length_loop; [lia|done|lia|].
    unfold in_i64, MaxInt64 in *. lia.
  - intros ps Hps. by apply total_amount_loop; [|apply NewCoins_valid].
  - intros ps d Hps. unfold TotalAmount, map_Periods.
    destruct (total_amount_loop ps NewCoins Hps NewCoins_valid) as [_ ->].
    rewrite AmountOf_NewCoins. lia.
Qed.

Definition coin (d : string) (n : Z) : map_coins := {[ d := n ]}.

Lemma coin_valid d n : 0 < n → coins_valid (coin d n).
Proof. intros. apply map_coins_valid, (map_Forall_singleton (λ _ v, 0 < v)). done. Qed.

Lemma AmountOf_coin d n d' : AmountOf (coin d n) d' = if decide (d = d') then n else 0.
Proof. unfold AmountOf. simpl. unfold map_amount, coin. rewrite lookup_singleton. by case_decide. Qed.
End MapCoins.

(** ** A bank over these coins, for the instances of the modules' environments *)

Module MapBank.
Import MapCoins.

Record bank := mkBank {
  bank_supply : map_coins;
  bank_balances : gmap Z map_coins
}.

Definition holds (b : bank) (a : Z) : coins :=
  let c := default ∅ (bank_balances b !! a) in if IsValid c then c else NewCoins.

Definition put (a : Z) (c : coins) (b : bank) : bank :=
  mkBank (bank_supply b) (<[a := c]> (bank_balances b)).

Definition bank_send (b : bank) (from to : Z) (c : coins) : outcome () bank :=
  if IsValid c then
    match coins_Sub (holds b from) c with
    | Ok r => let b1 := put from r b in Ok (put to (coins_Add (holds b1 to) c) b1)
    | _ => Err ()
    end
  else Err ().

Definition bank_mint (b : bank) (a : Z) (c : coins) : outcome () bank :=
  if IsValid c then
    let b1 := put a (coins_Add (holds b a) c) b in
    Ok (mkBank (coins_Add (bank_supply b) c) (bank_balances b1))
  else Err ().

Lemma holds_valid b a : coins_valid (holds b a).
Proof. unfold holds. destruct (IsValid _) eqn:Hv; [done|apply NewCoins_valid]. Qed.

Lemma holds_put b a c a' : coins_valid c → holds (put a c b) a' = if decide (a' = a) then c else holds b a'.
Proof.
  intros Hc. unfold holds, put. simpl bank_balances. case_decide as Ha.
  - subst. rewrite lookup_insert_eq. simpl default. by rewrite Hc.
  - by rewrite lookup_insert_ne by done.
Qed.

Lemma bank_send_ok b from to c :
  coins_valid c → coins_le c (holds b from) →
  ∃ b', bank_send b from to c = Ok b' ∧ bank_supply b' = bank_supply b ∧
    ∀ a d, AmountOf (holds b' a) d =
      AmountOf (holds b a) d - (if decide (a = from) then AmountOf c d else 0)
                             + (if decide (a = to) then AmountOf c d else 0).
Proof.
  intros Hc Hle. unfold bank_send. rewrite Hc.
  destruct (Sub_ok _ _ (holds_valid b from) Hc Hle) as (r & -> & Hr & Ha). eexists. split; [done|].
  split; [done|]. intros a d.
  assert (coins_valid (holds (put from r b) to)) by apply holds_valid.
  rewrite holds_put by (by apply Add_valid). case_decide as Hto.
  - subst. rewrite AmountOf_Add by done. rewrite holds_put by done. case_decide; [subst; rewrite Ha|]; lia.
  - rewrite holds_put by done. case_decide; [subst; rewrite Ha|]; lia.
Qed.

Lemma bank_send_invalid b from to c : ¬ coins_valid c → bank_send b from to c = Err ().
Proof. intros Hc. unfold bank_send. destruct (IsValid c) eqn:Hv; [|done]. by destruct Hc. Qed.

Lemma bank_mint_ok b a c :
  coins_valid c →
  ∃ b', bank_mint b a c = Ok b' ∧
    (∀ d, AmountOf (bank_supply b') d = AmountOf (bank_supply b) d + AmountOf c d) ∧
    ∀ a' d, AmountOf (holds b' a') d = AmountOf (holds b a') d + if decide (a' = a) then AmountOf c d else 0.
Proof.
  intros Hc. unfold bank_mint. rewrite Hc. eexists. split; [done|].
  split; [intros d; by apply map_amount_merge|]. intros a' d.
  change (holds (mkBank _ (bank_balances (put a (coins_Add (holds b a) c) b))) a')
    with (holds (put a (coins_Add (holds b a) c) b) a').
  pose proof (holds_valid b a). rewrite holds_put by (by apply Add_valid).
  case_decide; [subst; by rewrite AmountOf_Add|lia].
Qed.

Lemma Sub_inv a c r :
  coins_valid a → coins_valid c → coins_Sub a c = Ok r →
  coins_le c a ∧ coins_valid r ∧ ∀ d, AmountOf r d = AmountOf a d - AmountOf c d.
Proof.
  intros Ha Hc Hs. destruct (IsAllLTE c a) eqn:Hle.
  - apply IsAllLTE_spec in Hle; [|done|done]. split; [done|].
    destruct (Sub_ok a c Ha Hc Hle) as (r' & Hr' & ? & ?). rewrite Hs in Hr'. by simplify_eq.
  - rewrite Sub_negative in Hs; [done|done|done|]. intros Hn. apply IsAllLTE_spec in Hn; [congruence|done|done].
Qed.

Lemma bank_send_inv b from to c b' :
  bank_send b from to c = Ok b' →
  bank_supply b' = bank_supply b ∧
  ∀ a d, AmountOf (holds b' a) d =
    AmountOf (holds b a) d - (if decide (a = from) then AmountOf c d else 0)
                           + (if decide (a = to) then AmountOf c d else 0).
Proof.
  intros Hs. pose proof Hs as Hs0. unfold bank_send in Hs. destruct (IsValid c) eqn:Hc; [|done].
  destruct (coins_Sub _ c) as [r| |] eqn:Hr; [|done|done].
  apply Sub_inv in Hr as (Hle & _); [|apply holds_valid|done].
  destruct (bank_send_ok b from to c Hc Hle) as (b2 & Hb2 & H1 & H2). rewrite Hs0 in Hb2. by simplify_eq.
Qed.

Definition bank_burn (b : bank) (a : Z) (c : coins) : outcome () bank :=
  if IsValid c then
    match coins_Sub (holds b a) c with
    | Ok r => Ok (mkBank (map_merge Z.sub (bank_supply b) c) (bank_balances (put a r b)))
    | _ => Err ()
    end
  else Err ().

Lemma bank_burn_inv b a c b' :
  bank_burn b a c = Ok b' →
  (∀ d, AmountOf (bank_supply b') d = AmountOf (bank_supply b) d - AmountOf c d) ∧
  ∀ a' d, AmountOf (holds b' a') d = AmountOf (holds b a') d - if decide (a' = a) then AmountOf c d else 0.
Proof.
  unfold bank_burn. destruct (IsValid c) eqn:Hc; [|done].
  destruct (coins_Sub _ c) as [r| |] eqn:Hr; [|done|done]. intros Hb. injection Hb as <-.
  apply Sub_inv in Hr as (_ & Hv & Hr); [|apply holds_valid|done].
  split; [intros d; by apply map_amount_merge|]. intros a' d.
  etrans; [exact (f_equal (λ c, AmountOf c d) (holds_put b a r a' Hv))|].
  case_decide; [subst; apply Hr|lia].
Qed.

Lemma bank_mint_inv b a c b' :
  bank_mint b a c = Ok b' →
  (∀ d, AmountOf (bank_supply b') d = AmountOf (bank_supply b) d + AmountOf c d) ∧
  ∀ a' d, AmountOf (holds b' a') d = AmountOf (holds b a') d + if decide (a' = a) then AmountOf c d else 0.
Proof.
  intros Hm. pose proof Hm as Hm0. unfold bank_mint in Hm. destruct (IsValid c) eqn:Hc; [|done].
  destruct (bank_mint_ok b a c Hc) as (b2 & Hb2 & H1 & H2). rewrite Hm0 in Hb2. by simplify_eq.
Qed.
End MapBank.
