(* ===== verification/Schedule.v ===== *)
(** * Vesting schedules: [x/vesting/types/schedule.go] and [utils.go]

    A schedule is an absolute start time and a list of relative periods.  The
    theorems read it as the step function [value_at]: the sum of the amounts of
    the events up to a time.  [ReadSchedule] computes that function, the union
    of two schedules is its sum, the conjunction its minimum.

    Times are [int64] and wrap; [sched_wf] says that a schedule stays in range.
    The loops over two lists are structural in the lists still to process. *)

From S2P Require Import Prelude Sdk.

(** ** Helpers *)

Definition CoinEq `{Coins} (a b : coins) : bool := IsAllLTE a b && IsAllLTE b a.

Definition Max64 (i j : Z) : Z := if j <? i then i else j.

Definition Min64 (i j : Z) : Z := if i <? j then i else j.

(** ** Reading *)

Section Schedule.
Context `{Coins}.

Fixpoint read_loop (readTime elapsedTime : Z) (acc : coins) (periods : list Period) : coins :=
  match periods with
  | [] => acc
  | period :: rest =>
      let next := i64 (elapsedTime + period_Length period) in
      if readTime <? next then acc
      else read_loop readTime next (coins_Add acc (period_Amount period)) rest
  end.

Definition ReadSchedule (startTime endTime : Z) (periods : list Period) (totalCoins : coins)
    (readTime : Z) : coins :=
  if readTime <=? startTime then NewCoins
  else if endTime <=? readTime then totalCoins
  else read_loop readTime startTime NewCoins periods.

Fixpoint count_loop (readTime elapsedTime : Z) (passed : nat) (periods : list Period) : nat :=
  match periods with
  | [] => passed
  | period :: rest =>
      let next := i64 (elapsedTime + period_Length period) in
      if readTime <? next then passed else count_loop readTime next (S passed) rest
  end.

Definition ReadPastPeriodCount (startTime endTime : Z) (periods : list Period) (readTime : Z) : nat :=
  if readTime <=? startTime then 0%nat
  else if endTime <=? readTime then length periods
  else count_loop readTime startTime 0 periods.

(** ** Union *)

(** [emit]: append the event at [nextTime] to the periods that end at the time of the state. *)
Definition disjunct_emit (nextTime : Z) (amount : coins) (st : Z * list Period) : Z * list Period :=
  let '(endTime, periods) := st in
  (nextTime, periods ++ [mkPeriod _ (i64 (nextTime - endTime)) amount]).

(** The loops over what remains of one schedule. *)
Fixpoint disjunct_rest (time : Z) (ps : list Period) (st : Z * list Period) : Z * list Period :=
  match ps with
  | [] => st
  | p :: rest =>
      let next := i64 (time + period_Length p) in
      disjunct_rest next rest (disjunct_emit next (period_Amount p) st)
  end.

(** The loop while both schedules have events, then the two others. *)
Fixpoint disjunct_loop (timeA : Z) (psA : list Period) {struct psA} :
    Z → list Period → Z * list Period → Z * list Period :=
  fix loop timeB psB st {struct psB} :=
    match psA, psB with
    | a :: restA, b :: restB =>
        let nextA := i64 (timeA + period_Length a) in
        let nextB := i64 (timeB + period_Length b) in
        if nextA <? nextB then
          disjunct_loop nextA restA timeB psB (disjunct_emit nextA (period_Amount a) st)
        else if nextB <? nextA then
          loop nextB restB (disjunct_emit nextB (period_Amount b) st)
        else
          disjunct_loop nextA restA nextA restB
            (disjunct_emit nextA (coins_Add (period_Amount a) (period_Amount b)) st)
    | _, _ => disjunct_rest timeB psB (disjunct_rest timeA psA st)
    end.

Definition DisjunctPeriods (startTimePeriodsA startTimePeriodsB : Z) (periodsA periodsB : list Period) :
    Z * Z * list Period :=
  let startTime := Min64 startTimePeriodsA startTimePeriodsB in
  let '(endTime, periods) :=
    disjunct_loop startTimePeriodsA periodsA startTimePeriodsB periodsB (startTime, []) in
  (startTime, endTime, periods).

(** ** Conjunction *)

Record conj_state := mkConj {
  cj_result : coins;
  cj_totalA : coins;
  cj_totalB : coins;
  cj_last : Z;
  cj_periods : list Period
}.

Definition conj_emit (endTimeOfCurrentPeriod : Z) (amount : coins) (st : conj_state) : conj_state :=
  mkConj (coins_Add (cj_result st) amount) (cj_totalA st) (cj_totalB st) endTimeOfCurrentPeriod
    (cj_periods st ++ [mkPeriod _ (i64 (endTimeOfCurrentPeriod - cj_last st)) amount]).

(** What the three [consume] functions share: emit what the minimum grew by. *)
Definition conj_settle (nextTime : Z) (st : conj_state) : partial conj_state :=
  let min := coins_Min (cj_totalA st) (cj_totalB st) in
  if IsAllLTE (cj_result st) min then
    diff ← coins_Sub min (cj_result st);
    Ok (if coins_IsZero diff then st else conj_emit nextTime diff st)
  else Ok st.

Definition conj_addA (c : coins) (st : conj_state) : conj_state :=
  mkConj (cj_result st) (coins_Add (cj_totalA st) c) (cj_totalB st) (cj_last st) (cj_periods st).

Definition conj_addB (c : coins) (st : conj_state) : conj_state :=
  mkConj (cj_result st) (cj_totalA st) (coins_Add (cj_totalB st) c) (cj_last st) (cj_periods st).

Definition conj_consumeA (nextTime : Z) (p : Period) (st : conj_state) : partial conj_state :=
  conj_settle nextTime (conj_addA (period_Amount p) st).

Definition conj_consumeB (nextTime : Z) (p : Period) (st : conj_state) : partial conj_state :=
  conj_settle nextTime (conj_addB (period_Amount p) st).

Definition conj_consumeBoth (nextTime : Z) (a b : Period) (st : conj_state) : partial conj_state :=
  conj_settle nextTime (conj_addB (period_Amount b) (conj_addA (period_Amount a) st)).

Fixpoint conj_restA (time : Z) (ps : list Period) (st : conj_state) : partial conj_state :=
  match ps with
  | [] => Ok st
  | p :: rest =>
      let next := i64 (time + period_Length p) in
      st ← conj_consumeA next p st; conj_restA next rest st
  end.

Fixpoint conj_restB (time : Z) (ps : list Period) (st : conj_state) : partial conj_state :=
  match ps with
  | [] => Ok st
  | p :: rest =>
      let next := i64 (time + period_Length p) in
      st ← conj_consumeB next p st; conj_restB next rest st
  end.

Fixpoint conj_loop (timeA : Z) (psA : list Period) {struct psA} :
    Z → list Period → conj_state → partial conj_state :=
  fix loop timeB psB st {struct psB} :=
    match psA, psB with
    | a :: restA, b :: restB =>
        let nextA := i64 (timeA + period_Length a) in
        let nextB := i64 (timeB + period_Length b) in
        if nextA <? nextB then
          st ← conj_consumeA nextA a st; conj_loop nextA restA timeB psB st
        else if nextB <? nextA then
          st ← conj_consumeB nextB b st; loop nextB restB st
        else
          st ← conj_consumeBoth nextA a b st; conj_loop nextA restA nextA restB st
    | _, _ => st ← conj_restA timeA psA st; conj_restB timeB psB st
    end.

Definition ConjunctPeriods (startTimePeriodA startTimePeriodB : Z) (periodsA periodsB : list Period) :
    partial (Z * Z * list Period) :=
  let startTime := Min64 startTimePeriodA startTimePeriodB in
  st ← conj_loop startTimePeriodA periodsA startTimePeriodB periodsB
         (mkConj NewCoins NewCoins NewCoins startTime []);
  Ok (startTime, cj_last st, cj_periods st).

(** ** Alignment *)

(** Lengthen the first period; the Go code writes into the slice it is given. *)
Definition extend_first (by_ : Z) (ps : list Period) : list Period :=
  match ps with
  | [] => []
  | p :: rest => mkPeriod _ (i64 (period_Length p + by_)) (period_Amount p) :: rest
  end.

(** Returns the aligned slices besides the start and end times. *)
Definition AlignSchedules `{!Periods} (startTimePeriodA startTimePeriodB : Z)
    (periodsA periodsB : list Period) : Z * Z * list Period * list Period :=
  let startTime := Min64 startTimePeriodA startTimePeriodB in
  let periodsA := extend_first (i64 (startTimePeriodA - startTime)) periodsA in
  let periodsB := extend_first (i64 (startTimePeriodB - startTime)) periodsB in
  let endPeriodsA := i64 (startTime + TotalLength periodsA) in
  let endPeriodsB := i64 (startTime + TotalLength periodsB) in
  (startTime, Max64 endPeriodsA endPeriodsB, periodsA, periodsB).
End Schedule.
