(* ===== verification/ScheduleSpec.v ===== *)
(** * Schedules as step functions

    [value_at t start ps d] is what a schedule has released of the denomination
    [d] at time [t].  Reading, uniting, conjoining and aligning schedules are
    related to it. *)

From S2P Require Import Prelude Sdk Schedule.

Section Spec.
Context `{CL : CoinsLaws}.

(** ** The step function *)

Fixpoint value_at (t start : Z) (ps : list Period) (d : string) : Z :=
  match ps with
  | [] => 0
  | p :: rest =>
      let next := start + period_Length p in
      (if next <=? t then AmountOf (period_Amount p) d else 0) + value_at t next rest d
  end.

(** Lengths are not negative, amounts are valid coins, and the last event is in
    the range of [int64]. *)
Record sched_wf (start : Z) (ps : list Period) : Prop := {
  wf_start : 0 <= start;
  wf_lengths : Forall (λ p, 0 <= period_Length p) ps;
  wf_amounts : Forall (λ p, coins_valid (period_Amount p)) ps;
  wf_end : start + length_sum ps <= MaxInt64
}.

Lemma length_sum_nonneg ps : Forall (λ p, 0 <= period_Length p) ps → 0 <= length_sum ps.
Proof. induction 1; simpl; lia. Qed.

Lemma length_sum_app ps qs : length_sum (ps ++ qs) = length_sum ps + length_sum qs.
Proof. induction ps as [|p ps IH]; simpl; [done|]. rewrite IH. lia. Qed.

Lemma length_sum_take k ps :
  Forall (λ p, 0 <= period_Length p) ps → length_sum (take k ps) <= length_sum ps.
Proof.
  intros Hps. rewrite <-(take_drop k ps) at 2. rewrite length_sum_app.
  pose proof (length_sum_nonneg (drop k ps) ltac:(by apply Forall_drop)). lia.
Qed.

Lemma amount_sum_app ps qs d : amount_sum (ps ++ qs) d = amount_sum ps d + amount_sum qs d.
Proof. induction ps as [|p ps IH]; simpl; [done|]. rewrite IH. lia. Qed.

Lemma amount_sum_nonneg ps d : Forall (λ p, coins_valid (period_Amount p)) ps → 0 <= amount_sum ps d.
Proof. induction 1 as [|p ps Hp Hps IH]; simpl; [done|]. pose proof (valid_nonneg _ d Hp). lia. Qed.

Lemma sched_wf_cons start p ps :
  sched_wf start (p :: ps) →
  0 <= period_Length p ∧ coins_valid (period_Amount p) ∧
  i64 (start + period_Length p) = start + period_Length p ∧ sched_wf (start + period_Length p) ps.
Proof.
  intros [Hs Hl Ha He]. apply Forall_cons in Hl as [Hp Hl]. apply Forall_cons in Ha as [Ha Has].
  pose proof (length_sum_nonneg ps Hl). simpl in He. split; [done|]. split; [done|].
  split; [apply i64_small; unfold in_i64, MaxInt64 in *; lia|]. split; [lia|done..|lia].
Qed.

Lemma value_at_bounds t start ps d :
  Forall (λ p, coins_valid (period_Amount p)) ps → 0 <= value_at t start ps d <= amount_sum ps d.
Proof.
  intros Hps. revert start. induction Hps as [|p ps Hp Hps IH]; intros start; simpl; [done|].
  pose proof (valid_nonneg _ d Hp). specialize (IH (start + period_Length p)).
  destruct (_ <=? t); lia.
Qed.

Lemma value_at_mono t t' start ps d :
  Forall (λ p, coins_valid (period_Amount p)) ps → t <= t' →
  value_at t start ps d <= value_at t' start ps d.
Proof.
  intros Hps Ht. revert start. induction Hps as [|p ps Hp Hps IH]; intros start; simpl; [done|].
  pose proof (valid_nonneg _ d Hp). specialize (IH (start + period_Length p)).
  destruct (Z.leb_spec (start + period_Length p) t), (Z.leb_spec (start + period_Length p) t'); lia.
Qed.

(** Before the first event nothing is released, from the last one on all of it. *)
Lemma value_at_before t start ps d :
  Forall (λ p, 0 <= period_Length p) ps → t < start → value_at t start ps d = 0.
Proof.
  intros Hps. revert start. induction Hps as [|p ps Hp Hps IH]; intros start Ht; simpl; [done|].
  rewrite IH by lia. destruct (Z.leb_spec (start + period_Length p) t); lia.
Qed.

Lemma value_at_after t start ps d :
  Forall (λ p, 0 <= period_Length p) ps → start + length_sum ps <= t →
  value_at t start ps d = amount_sum ps d.
Proof.
  intros Hps. revert start. induction Hps as [|p ps Hp Hps IH]; intros start Ht; simpl in *; [done|].
  pose proof (length_sum_nonneg ps Hps). rewrite IH by lia.
  destruct (Z.leb_spec (start + period_Length p) t); lia.
Qed.

Lemma value_at_app t start ps qs d :
  value_at t start (ps ++ qs) d = value_at t start ps d + value_at t (start + length_sum ps) qs d.
Proof.
  revert start. induction ps as [|p ps IH]; intros start; simpl; [by rewrite Z.add_0_r|].
  rewrite IH, <-(Z.add_assoc start (period_Length p)). lia.
Qed.

(** ** [ReadSchedule] *)

Lemma read_loop_spec t start acc ps :
  sched_wf start ps → coins_valid acc →
  coins_valid (read_loop t start acc ps) ∧
  ∀ d, AmountOf (read_loop t start acc ps) d = AmountOf acc d + value_at t start ps d.
Proof.
  revert start acc. induction ps as [|p ps IH]; intros start acc Hwf Hacc.
  { simpl. split; [done|]. intros d. lia. }
  apply sched_wf_cons in Hwf as (Hl & Hp & Hi & Hwf). cbn [read_loop value_at]. rewrite Hi.
  destruct (Z.ltb_spec t (start + period_Length p)).
  - split; [done|]. intros d. rewrite value_at_before by (apply Hwf || lia).
    destruct (Z.leb_spec (start + period_Length p) t); lia.
  - destruct (IH _ (coins_Add acc (period_Amount p)) Hwf) as [Hv Ha]; [by apply Add_valid|].
    split; [done|]. intros d. rewrite Ha, AmountOf_Add by done.
    destruct (Z.leb_spec (start + period_Length p) t); lia.
Qed.

(** What [ReadSchedule] shows: nothing up to the start, the step function after it.
    (The two differ at the start itself when the first period has length 0.) *)
Definition read_value (t start : Z) (ps : list Period) (d : string) : Z :=
  if t <=? start then 0 else value_at t start ps d.

Lemma read_value_bounds t start ps d :
  Forall (λ p, coins_valid (period_Amount p)) ps → 0 <= read_value t start ps d <= amount_sum ps d.
Proof.
  intros Hps. unfold read_value. pose proof (value_at_bounds t start ps d Hps).
  destruct (t <=? start); lia.
Qed.

Lemma read_value_mono t t' start ps d :
  Forall (λ p, coins_valid (period_Amount p)) ps → t <= t' →
  read_value t start ps d <= read_value t' start ps d.
Proof.
  intros Hps Ht. unfold read_value. pose proof (value_at_mono t t' start ps d Hps Ht).
  pose proof (value_at_bounds t' start ps d Hps).
  destruct (Z.leb_spec t start), (Z.leb_spec t' start); lia.
Qed.

(** The first event is after the start. *)
Definition starts_late (ps : list Period) : Prop :=
  match ps with p :: _ => 1 <= period_Length p | [] => True end.

(** Away from the start, and at it when the first event is later, the step function is read. *)
Lemma read_value_at t start ps d :
  Forall (λ p, 0 <= period_Length p) ps → (t = start → starts_late ps) →
  read_value t start ps d = value_at t start ps d.
Proof.
  intros Hl Hlate. unfold read_value. destruct (Z.leb_spec t start) as [Ht|]; [|done].
  destruct (decide (t = start)) as [->|]; [|by rewrite value_at_before by (done || lia)].
  destruct ps as [|p ps]; [done|]. specialize (Hlate eq_refl). apply Forall_cons in Hl as [Hp Hl]. simpl in *.
  rewrite value_at_before by (done || lia). destruct (Z.leb_spec (start + period_Length p) start); lia.
Qed.

(** A schedule with its end time and total. *)
Record complete (start endT : Z) (ps : list Period) (total : coins) : Prop := {
  cp_wf : sched_wf start ps;
  cp_end : start + length_sum ps <= endT;
  cp_valid : coins_valid total;
  cp_total d : AmountOf total d = amount_sum ps d
}.

Lemma ReadSchedule_valid start endT ps total t :
  complete start endT ps total → coins_valid (ReadSchedule start endT ps total t).
Proof.
  intros Hc. unfold ReadSchedule. destruct (t <=? start); [apply NewCoins_valid|].
  destruct (endT <=? t); [apply Hc|]. apply read_loop_spec; [apply Hc|apply NewCoins_valid].
Qed.

Lemma ReadSchedule_value start endT ps total t d :
  complete start endT ps total →
  AmountOf (ReadSchedule start endT ps total t) d = read_value t start ps d.
Proof.
  intros [Hwf He Hv Ht]. unfold ReadSchedule, read_value.
  destruct (Z.leb_spec t start); [apply AmountOf_NewCoins|]. destruct (Z.leb_spec endT t).
  - rewrite Ht, value_at_after; [done|apply Hwf|lia].
  - destruct (read_loop_spec t start NewCoins ps Hwf NewCoins_valid) as [_ ->].
    by rewrite AmountOf_NewCoins.
Qed.

(** The count is the length of the prefix of past events. *)
Lemma count_loop_spec t start n ps :
  sched_wf start ps →
  let k := (count_loop t start n ps - n)%nat in
  (n <= count_loop t start n ps <= n + length ps)%nat ∧
  (start <= t → start + length_sum (take k ps) <= t) ∧
  (∀ d, value_at t start ps d = amount_sum (take k ps) d) ∧
  (∀ p, ps !! k = Some p → t < start + length_sum (take k ps) + period_Length p).
Proof.
  revert start n. induction ps as [|p ps IH]; intros start n Hwf; cbn [count_loop].
  { rewrite Nat.sub_diag. simpl. split; [lia|]. split; [lia|]. done. }
  apply sched_wf_cons in Hwf as (Hl & Hp & Hi & Hwf). rewrite Hi.
  destruct (Z.ltb_spec t (start + period_Length p)) as [Ht|Ht].
  - rewrite Nat.sub_diag. simpl. split; [lia|]. split; [lia|]. split.
    + intros d. rewrite value_at_before by (apply Hwf || lia).
      destruct (Z.leb_spec (start + period_Length p) t); lia.
    + intros q [= <-]. lia.
  - destruct (IH _ (S n) Hwf) as (Hr & Hle & Hv & Hnext). clear IH.
    set (m := count_loop t (start + period_Length p) (S n) ps) in *.
    replace (m - n)%nat with (S (m - S n)) by lia. simpl. split; [lia|]. split; [lia|]. split.
    + intros d. rewrite Hv. destruct (Z.leb_spec (start + period_Length p) t); lia.
    + intros q Hq. specialize (Hnext q Hq). lia.
Qed.

(** No value before the next event. *)
Lemma value_at_next t start ps d :
  Forall (λ p, 0 <= period_Length p) ps → (∀ p, ps !! 0%nat = Some p → t < start + period_Length p) →
  value_at t start ps d = 0.
Proof.
  destruct ps as [|p ps]; [done|]. intros [Hp Hps]%Forall_cons Hn. specialize (Hn p eq_refl). simpl.
  rewrite value_at_before by (done || lia). destruct (Z.leb_spec (start + period_Length p) t); lia.
Qed.

(** The past periods carry the value, and cutting the others changes nothing
    up to the read time. *)
Lemma past_periods start endT ps total ct :
  complete start endT ps total →
  let past := take (ReadPastPeriodCount start endT ps ct) ps in
  (∀ d, amount_sum past d = read_value ct start ps d) ∧
  (past = [] ∨ start + length_sum past <= ct ∨ endT <= ct) ∧
  (∀ t d, t <= ct → read_value t start past d = read_value t start ps d).
Proof.
  intros [[Hs Hl Ha He] Hend _ _]. unfold ReadPastPeriodCount, read_value.
  destruct (Z.leb_spec ct start).
  { simpl. split; [done|]. split; [by left|]. intros t d Ht. by rewrite (proj2 (Z.leb_le t start)) by lia. }
  destruct (Z.leb_spec endT ct).
  { rewrite firstn_all. split; [|split; [by auto|done]]. intros d. by rewrite value_at_after by (done || lia). }
  destruct (count_loop_spec ct start 0 ps) as (_ & Hle & Hv & Hnext); [by split|].
  rewrite Nat.sub_0_r in *. set (k := count_loop ct start 0 ps) in *.
  split; [done|]. split; [right; left; lia|]. intros t d Ht. destruct (t <=? start); [done|].
  rewrite <-(take_drop k ps) at 2. rewrite value_at_app, (value_at_next _ _ (drop k ps)); [lia|by apply Forall_drop|].
  intros p. rewrite lookup_drop, Nat.add_0_r. intros Hp. specialize (Hnext p Hp). lia.
Qed.

(** ** Appending events *)

(** Periods [ps] from [start] whose last event is at [last]. *)
Record built (start last : Z) (ps : list Period) : Prop := {
  bt_start : 0 <= start;
  bt_last : start + length_sum ps = last;
  bt_lengths : Forall (λ p, 0 <= period_Length p) ps;
  bt_amounts : Forall (λ p, coins_valid (period_Amount p)) ps
}.

Lemma built_emit start last ps next c :
  built start last ps → last <= next <= MaxInt64 → coins_valid c →
  let ps' := ps ++ [mkPeriod _ (i64 (next - last)) c] in
  built start next ps' ∧
  ∀ t d, value_at t start ps' d = value_at t start ps d + if next <=? t then AmountOf c d else 0.
Proof.
  intros [Hs Hl Hle Ham] Hn Hc. pose proof (length_sum_nonneg ps Hle).
  rewrite i64_small by (unfold in_i64, MaxInt64 in *; lia). split; [split|]; try done.
  - rewrite length_sum_app. simpl. lia.
  - apply Forall_app. split; [done|]. repeat constructor. simpl. lia.
  - apply Forall_app. split; [done|]. by repeat constructor.
  - intros t d. rewrite value_at_app. simpl.
    replace (start + length_sum ps + (next - last)) with next by lia. lia.
Qed.

(** The next event is at [cur] or later. *)
Definition not_before (cur time : Z) (ps : list Period) : Prop :=
  match ps with p :: _ => cur <= time + period_Length p | [] => True end.

Lemma not_before_tail time p ps :
  sched_wf time (p :: ps) → not_before (time + period_Length p) (time + period_Length p) ps.
Proof.
  intros (_ & _ & _ & Hwf)%sched_wf_cons. destruct ps; [done|].
  apply sched_wf_cons in Hwf as (? & _). simpl. lia.
Qed.

Lemma not_before_start cur time ps : sched_wf time ps → cur <= time → not_before cur time ps.
Proof. destruct ps; [done|]. intros (? & _)%sched_wf_cons ?. simpl. lia. Qed.

Lemma sched_wf_next time p ps : sched_wf time (p :: ps) → time + period_Length p <= MaxInt64.
Proof. intros Hwf. apply sched_wf_cons in Hwf as (_ & _ & _ & [? Hl _ ?]). pose proof (length_sum_nonneg ps Hl). lia. Qed.

(** ** Union *)

(** The time of the last event, [e] when there is none. *)
Definition ends (e time : Z) (ps : list Period) : Z :=
  match ps with [] => e | _ => time + length_sum ps end.

Lemma ends_cons e time p ps : ends e time (p :: ps) = ends (time + period_Length p) (time + period_Length p) ps.
Proof. unfold ends. destruct ps; simpl; lia. Qed.

Lemma ends_ge e time ps : sched_wf time ps → not_before e time ps → e <= ends e time ps.
Proof.
  destruct ps as [|p ps]; [done|]. intros (_ & _ & _ & [_ Hl _ _])%sched_wf_cons Hn. simpl in Hn.
  pose proof (length_sum_nonneg ps Hl). simpl. lia.
Qed.

Definition disjunct_post (s : Z) (out : list Period) (r : Z * list Period) (e : Z)
    (v : Z → string → Z) : Prop :=
  built s r.1 r.2 ∧ r.1 = e ∧ ∀ t d, value_at t s r.2 d = value_at t s out d + v t d.

Lemma disjunct_rest_spec s time ps e out :
  sched_wf time ps → built s e out → not_before e time ps →
  disjunct_post s out (disjunct_rest time ps (e, out)) (ends e time ps) (λ t d, value_at t time ps d).
Proof.
  revert time e out. induction ps as [|p ps IH]; intros time e out Hwf Hb Hna; cbn [disjunct_rest].
  { split; [done|]. split; [done|]. intros t d. simpl. lia. }
  pose proof (sched_wf_next _ _ _ Hwf). pose proof Hwf as (Hl & Hp & Hi & Hwf')%sched_wf_cons.
  simpl in Hna. rewrite Hi. unfold disjunct_emit.
  destruct (built_emit s e out (time + period_Length p) (period_Amount p)) as [Hb' Hv];
    [done|lia|done|].
  destruct (IH _ _ _ Hwf' Hb') as (Hb2 & He2 & Hv2); [by apply not_before_tail|].
  split; [done|]. split; [by rewrite He2, !ends_cons|]. intros t d. rewrite Hv2, Hv. cbn [value_at]. lia.
Qed.

Lemma disjunct_loop_eq timeA psA timeB psB st :
  disjunct_loop timeA psA timeB psB st =
  match psA, psB with
  | a :: restA, b :: restB =>
      let nextA := i64 (timeA + period_Length a) in
      let nextB := i64 (timeB + period_Length b) in
      if nextA <? nextB then
        disjunct_loop nextA restA timeB psB (disjunct_emit nextA (period_Amount a) st)
      else if nextB <? nextA then
        disjunct_loop timeA psA nextB restB (disjunct_emit nextB (period_Amount b) st)
      else
        disjunct_loop nextA restA nextA restB
          (disjunct_emit nextA (coins_Add (period_Amount a) (period_Amount b)) st)
  | _, _ => disjunct_rest timeB psB (disjunct_rest timeA psA st)
  end.
Proof. by destruct psA, psB. Qed.

Lemma disjunct_loop_spec n s timeA psA timeB psB e out :
  (length psA + length psB <= n)%nat →
  sched_wf timeA psA → sched_wf timeB psB → built s e out →
  not_before e timeA psA → not_before e timeB psB →
  disjunct_post s out (disjunct_loop timeA psA timeB psB (e, out))
    (Z.max (ends e timeA psA) (ends e timeB psB))
    (λ t d, value_at t timeA psA d + value_at t timeB psB d).
Proof.
  revert timeA psA timeB psB e out.
  induction n as [|n IH]; intros timeA psA timeB psB e out Hn HwA HwB Hb HnA HnB;
    rewrite disjunct_loop_eq.
  { destruct psA, psB; try (simpl in Hn; lia). split; [done|]. split; [simpl; lia|].
    intros t d. simpl. lia. }
  pose proof (ends_ge _ _ _ HwA HnA). pose proof (ends_ge _ _ _ HwB HnB).
  destruct psA as [|a psA].
  { destruct (disjunct_rest_spec s timeB psB e out HwB Hb HnB) as (? & He & Hv).
    split; [done|]. split; [|done]. simpl in *. rewrite He. lia. }
  destruct psB as [|b psB].
  { destruct (disjunct_rest_spec s timeA (a :: psA) e out HwA Hb HnA) as (? & He & Hv).
    split; [done|]. split; [simpl in *; rewrite He; lia|]. intros t d. simpl in *. rewrite Hv. lia. }
  pose proof (sched_wf_next _ _ _ HwA). pose proof (sched_wf_next _ _ _ HwB).
  pose proof HwA as (HlA & HpA & HiA & HwA')%sched_wf_cons.
  pose proof HwB as (HlB & HpB & HiB & HwB')%sched_wf_cons.
  simpl in HnA, HnB. cbv zeta. rewrite HiA, HiB.
  unfold disjunct_emit. simpl in Hn.
  destruct (Z.ltb_spec (timeA + period_Length a) (timeB + period_Length b));
    [|destruct (Z.ltb_spec (timeB + period_Length b) (timeA + period_Length a))].
  - destruct (built_emit s e out (timeA + period_Length a) (period_Amount a)) as [Hb' Hv];
      [done|lia|done|].
    destruct (IH (timeA + period_Length a) psA timeB (b :: psB) _ _ ltac:(simpl; lia) HwA' HwB Hb') as (Hb2 & He2 & Hv2);
      [by apply not_before_tail|simpl; lia|].
    split; [done|]. split; [by rewrite He2, !ends_cons|]. intros t d. rewrite Hv2, Hv. cbn [value_at]. lia.
  - destruct (built_emit s e out (timeB + period_Length b) (period_Amount b)) as [Hb' Hv];
      [done|lia|done|].
    destruct (IH timeA (a :: psA) (timeB + period_Length b) psB _ _ ltac:(simpl; lia) HwA HwB' Hb') as (Hb2 & He2 & Hv2);
      [simpl; lia|by apply not_before_tail|].
    split; [done|]. split; [by rewrite He2, !ends_cons|]. intros t d. rewrite Hv2, Hv. cbn [value_at]. lia.
  - assert (timeA + period_Length a = timeB + period_Length b) as Heq by lia.
    destruct (built_emit s e out (timeA + period_Length a) (coins_Add (period_Amount a) (period_Amount b)))
      as [Hb' Hv]; [done|lia|by apply Add_valid|].
    rewrite <-Heq in HwB'.
    destruct (IH (timeA + period_Length a) psA (timeA + period_Length a) psB _ _ ltac:(simpl; lia) HwA' HwB' Hb')
      as (Hb2 & He2 & Hv2); [by apply not_before_tail|rewrite Heq; by apply not_before_tail|].
    split; [done|]. split; [by rewrite He2, !ends_cons, <-Heq|].
    intros t d. rewrite Hv2, Hv. cbn [value_at]. rewrite AmountOf_Add by done.
    rewrite <-Heq. destruct (_ <=? t); lia.
Qed.

(** ** Conjunction *)

(** What has been processed of the two schedules is [vA] and [vB], up to the time [cur]. *)
Record conj_inv (s cur : Z) (vA vB : Z → string → Z) (st : conj_state) : Prop := {
  cv_built : built s (cj_last st) (cj_periods st);
  cv_last : cj_last st <= cur <= MaxInt64;
  cv_totalA_valid : coins_valid (cj_totalA st);
  cv_totalB_valid : coins_valid (cj_totalB st);
  cv_result_valid : coins_valid (cj_result st);
  cv_totalA t d : cur <= t → vA t d = AmountOf (cj_totalA st) d;
  cv_totalB t d : cur <= t → vB t d = AmountOf (cj_totalB st) d;
  cv_result d :
    AmountOf (cj_result st) d = Z.min (AmountOf (cj_totalA st) d) (AmountOf (cj_totalB st) d);
  cv_value t d : value_at t s (cj_periods st) d = Z.min (vA t d) (vB t d)
}.

(** Adding [inc] from the time [next] on. *)
Definition add_at (next : Z) (inc : string → Z) (v : Z → string → Z) (t : Z) (d : string) : Z :=
  v t d + if next <=? t then inc d else 0.

(** [st1] is [st] with [iA] and [iB] added to its totals. *)
Record conj_added (iA iB : string → Z) (st st1 : conj_state) : Prop := {
  ca_result : cj_result st1 = cj_result st;
  ca_last : cj_last st1 = cj_last st;
  ca_periods : cj_periods st1 = cj_periods st;
  ca_validA : coins_valid (cj_totalA st1);
  ca_validB : coins_valid (cj_totalB st1);
  ca_totalA d : AmountOf (cj_totalA st1) d = AmountOf (cj_totalA st) d + iA d;
  ca_totalB d : AmountOf (cj_totalB st1) d = AmountOf (cj_totalB st) d + iB d;
  ca_nonneg d : 0 <= iA d ∧ 0 <= iB d
}.

(** The minimum of the new totals is a released amount plus a difference. *)
Lemma conj_diff s cur vA vB st st1 iA iB :
  conj_inv s cur vA vB st → conj_added iA iB st st1 →
  IsAllLTE (cj_result st) (coins_Min (cj_totalA st1) (cj_totalB st1)) = true ∧
  ∃ diff, coins_Sub (coins_Min (cj_totalA st1) (cj_totalB st1)) (cj_result st) = Ok diff ∧
    coins_valid diff ∧
    ∀ d, AmountOf diff d + AmountOf (cj_result st) d =
         Z.min (AmountOf (cj_totalA st1) d) (AmountOf (cj_totalB st1) d).
Proof.
  intros Hinv [? ? ? HvA HvB HaA HaB Hnn].
  pose proof (cv_result_valid _ _ _ _ _ Hinv) as Hr.
  assert (coins_valid (coins_Min (cj_totalA st1) (cj_totalB st1))) as Hmv by (by apply Min_valid).
  assert (coins_le (cj_result st) (coins_Min (cj_totalA st1) (cj_totalB st1))) as Hle.
  { intros d. rewrite (cv_result _ _ _ _ _ Hinv), AmountOf_Min, HaA, HaB by done.
    specialize (Hnn d). lia. }
  split; [by apply IsAllLTE_spec|].
  destruct (Sub_ok _ _ Hmv Hr Hle) as (diff & ? & ? & Hd). exists diff. split; [done|].
  split; [done|]. intros d. rewrite Hd, AmountOf_Min by done. lia.
Qed.

Lemma conj_settle_spec s cur vA vB st st1 iA iB next :
  conj_inv s cur vA vB st → conj_added iA iB st st1 →
  cur <= next <= MaxInt64 →
  ∃ st', conj_settle next st1 = Ok st' ∧ conj_inv s next (add_at next iA vA) (add_at next iB vB) st'.
Proof.
  intros Hinv Hadd Hn. unfold conj_settle. rewrite (ca_result _ _ _ _ Hadd).
  destruct (conj_diff _ _ _ _ _ _ _ _ Hinv Hadd) as (-> & diff & -> & Hdv & Hmin). simpl.
  destruct Hinv as [Hb Hlast HtA HtB Hr HvA HvB Hres Hval].
  destruct Hadd as [Hr1 Hl1 Hp1 Hv1 Hv2 HaA HaB Hnn].
  assert (∀ t d, value_at t s (cj_periods st) d + (if next <=? t then AmountOf diff d else 0) =
                 Z.min (add_at next iA vA t d) (add_at next iB vB t d)) as Hnew.
  { intros t d. rewrite Hval. unfold add_at. destruct (Z.leb_spec next t); [|lia].
    specialize (Hmin d). rewrite Hres, HaA, HaB in Hmin. rewrite HvA, HvB by lia. lia. }
  assert (∀ t d, next <= t → add_at next iA vA t d = AmountOf (cj_totalA st1) d) as HnA.
  { intros t d Ht. unfold add_at. rewrite (proj2 (Z.leb_le next t) Ht), HvA, HaA; lia. }
  assert (∀ t d, next <= t → add_at next iB vB t d = AmountOf (cj_totalB st1) d) as HnB.
  { intros t d Ht. unfold add_at. rewrite (proj2 (Z.leb_le next t) Ht), HvB, HaB; lia. }
  destruct (coins_IsZero diff) eqn:Hz; (eexists; split; [done|]).
  - assert (∀ d, AmountOf diff d = 0) as Hz' by (by apply IsZero_spec).
    split; rewrite ?Hr1, ?Hl1, ?Hp1; try done; [lia| |].
    + intros d. rewrite <-Hmin, Hz'. lia.
    + intros t d. rewrite <-Hnew, Hz'. destruct (_ <=? _); lia.
  - destruct (built_emit s (cj_last st) (cj_periods st) next diff) as [Hb' Hv']; [done|lia|done|].
    split; simpl; rewrite ?Hr1, ?Hl1, ?Hp1; try done; [lia|by apply Add_valid| |].
    + intros d. rewrite AmountOf_Add by done. rewrite <-Hmin. lia.
    + intros t d. by rewrite Hv', Hnew.
Qed.

Lemma conj_inv_ext s cur vA vB vA' vB' st :
  conj_inv s cur vA vB st → (∀ t d, vA t d = vA' t d) → (∀ t d, vB t d = vB' t d) →
  conj_inv s cur vA' vB' st.
Proof. intros [] HA HB. split; try done; intros; rewrite <-?HA, <-?HB; auto. Qed.

(** The three ways to consume events. *)
Lemma conj_added_A st c :
  coins_valid c → coins_valid (cj_totalA st) → coins_valid (cj_totalB st) →
  conj_added (AmountOf c) (λ _, 0) st (conj_addA c st).
Proof.
  intros. split; simpl; try done; [by apply Add_valid|intros; by apply AmountOf_Add|lia|].
  intros d. split; [by apply valid_nonneg|done].
Qed.

Lemma conj_added_B st c :
  coins_valid c → coins_valid (cj_totalA st) → coins_valid (cj_totalB st) →
  conj_added (λ _, 0) (AmountOf c) st (conj_addB c st).
Proof.
  intros. split; simpl; try done; [by apply Add_valid|lia|intros; by apply AmountOf_Add|].
  intros d. split; [done|by apply valid_nonneg].
Qed.

Lemma conj_added_both st a b :
  coins_valid a → coins_valid b → coins_valid (cj_totalA st) → coins_valid (cj_totalB st) →
  conj_added (AmountOf a) (AmountOf b) st (conj_addB b (conj_addA a st)).
Proof.
  intros. split; simpl; try done; [by apply Add_valid|by apply Add_valid|intros; by apply AmountOf_Add..|].
  intros d. split; by apply valid_nonneg.
Qed.

(** Consuming one event of A, of B, or of both. *)
Lemma conj_consumeA_spec s cur vA vB st time p ps :
  conj_inv s cur vA vB st → sched_wf time (p :: ps) → not_before cur time (p :: ps) →
  let next := time + period_Length p in
  ∃ st', conj_consumeA next p st = Ok st' ∧
    conj_inv s next (add_at next (AmountOf (period_Amount p)) vA) vB st'.
Proof.
  intros Hinv Hwf Hnb next. pose proof (sched_wf_next _ _ _ Hwf).
  apply sched_wf_cons in Hwf as (_ & Hp & _). simpl in Hnb.
  destruct (conj_settle_spec s cur vA vB st (conj_addA (period_Amount p) st)
    (AmountOf (period_Amount p)) (λ _, 0) next) as (st' & Hst & Hi); [done|..|lia|].
  { apply conj_added_A; [done|apply Hinv..]. }
  exists st'. split; [done|]. eapply conj_inv_ext; [done|done|].
  intros t d. unfold add_at. destruct (_ <=? _); lia.
Qed.

Lemma conj_consumeB_spec s cur vA vB st time p ps :
  conj_inv s cur vA vB st → sched_wf time (p :: ps) → not_before cur time (p :: ps) →
  let next := time + period_Length p in
  ∃ st', conj_consumeB next p st = Ok st' ∧
    conj_inv s next vA (add_at next (AmountOf (period_Amount p)) vB) st'.
Proof.
  intros Hinv Hwf Hnb next. pose proof (sched_wf_next _ _ _ Hwf).
  apply sched_wf_cons in Hwf as (_ & Hp & _). simpl in Hnb.
  destruct (conj_settle_spec s cur vA vB st (conj_addB (period_Amount p) st)
    (λ _, 0) (AmountOf (period_Amount p)) next) as (st' & Hst & Hi); [done|..|lia|].
  { apply conj_added_B; [done|apply Hinv..]. }
  exists st'. split; [done|]. eapply conj_inv_ext; [done| |done].
  intros t d. unfold add_at. destruct (_ <=? _); lia.
Qed.

Definition conj_post (s : Z) (vA vB : Z → string → Z) (r : partial conj_state) : Prop :=
  ∃ st cur, r = Ok st ∧ conj_inv s cur vA vB st.

Lemma conj_restB_spec s cur vA vB st time ps :
  conj_inv s cur vA vB st → sched_wf time ps → not_before cur time ps →
  conj_post s vA (λ t d, vB t d + value_at t time ps d) (conj_restB time ps st).
Proof.
  revert cur vB st time. induction ps as [|p ps IH]; intros cur vB st time Hinv Hwf Hnb; cbn [conj_restB].
  { exists st, cur. split; [done|]. eapply conj_inv_ext; [done..|]. intros t d. simpl. lia. }
  pose proof Hwf as (_ & _ & Hi & Hwf')%sched_wf_cons. rewrite Hi.
  destruct (conj_consumeB_spec s cur vA vB st time p ps) as (st' & -> & Hinv'); [done..|]. simpl.
  destruct (IH _ _ _ _ Hinv' Hwf') as (st2 & cur2 & -> & Hinv2); [by apply not_before_tail|].
  exists st2, cur2. split; [done|]. eapply conj_inv_ext; [done..|].
  intros t d. unfold add_at. cbn [value_at]. lia.
Qed.

Lemma conj_restA_spec s cur vA vB st time ps :
  conj_inv s cur vA vB st → sched_wf time ps → not_before cur time ps →
  conj_post s (λ t d, vA t d + value_at t time ps d) vB (conj_restA time ps st).
Proof.
  revert cur vA st time. induction ps as [|p ps IH]; intros cur vA st time Hinv Hwf Hnb; cbn [conj_restA].
  { exists st, cur. split; [done|]. eapply conj_inv_ext; [done| |done]. intros t d. simpl. lia. }
  pose proof Hwf as (_ & _ & Hi & Hwf')%sched_wf_cons. rewrite Hi.
  destruct (conj_consumeA_spec s cur vA vB st time p ps) as (st' & -> & Hinv'); [done..|]. simpl.
  destruct (IH _ _ _ _ Hinv' Hwf') as (st2 & cur2 & -> & Hinv2);
    [by apply not_before_tail|].
  exists st2, cur2. split; [done|]. eapply conj_inv_ext; [done| |done].
  intros t d. unfold add_at. cbn [value_at]. lia.
Qed.

Lemma conj_loop_eq timeA psA timeB psB st :
  conj_loop timeA psA timeB psB st =
  match psA, psB with
  | a :: restA, b :: restB =>
      let nextA := i64 (timeA + period_Length a) in
      let nextB := i64 (timeB + period_Length b) in
      if nextA <? nextB then
        st ← conj_consumeA nextA a st; conj_loop nextA restA timeB psB st
      else if nextB <? nextA then
        st ← conj_consumeB nextB b st; conj_loop timeA psA nextB restB st
      else
        st ← conj_consumeBoth nextA a b st; conj_loop nextA restA nextA restB st
  | _, _ => st ← conj_restA timeA psA st; conj_restB timeB psB st
  end.
Proof. by destruct psA, psB. Qed.

(** The end of the loop: at most one schedule has events left. *)
Lemma conj_rest_spec s cur vA vB st timeA psA timeB psB :
  psA = [] ∨ psB = [] →
  conj_inv s cur vA vB st → sched_wf timeA psA → sched_wf timeB psB →
  not_before cur timeA psA → not_before cur timeB psB →
  conj_post s (λ t d, vA t d + value_at t timeA psA d) (λ t d, vB t d + value_at t timeB psB d)
    (st ← conj_restA timeA psA st; conj_restB timeB psB st).
Proof.
  intros Hend Hinv HwA HwB HnA HnB.
  destruct (conj_restA_spec s cur vA vB st timeA psA) as (st1 & cur1 & Heq & Hinv1); [done..|].
  rewrite Heq. simpl. destruct Hend as [->| ->].
  - simpl in Heq. injection Heq as ->. eapply (conj_restB_spec s cur); [|done..].
    eapply conj_inv_ext; [exact Hinv| |done]. intros t d. simpl. lia.
  - eapply (conj_restB_spec s cur1 _ _ _ timeB []); done.
Qed.

Lemma conj_consumeBoth_spec s cur vA vB st timeA a psA timeB b psB :
  conj_inv s cur vA vB st → sched_wf timeA (a :: psA) → sched_wf timeB (b :: psB) →
  let next := timeA + period_Length a in
  cur <= next →
  ∃ st', conj_consumeBoth next a b st = Ok st' ∧
    conj_inv s next (add_at next (AmountOf (period_Amount a)) vA)
                    (add_at next (AmountOf (period_Amount b)) vB) st'.
Proof.
  intros Hinv HwA HwB next Hc. pose proof (sched_wf_next _ _ _ HwA).
  apply sched_wf_cons in HwA as (_ & Ha & _). apply sched_wf_cons in HwB as (_ & Hb & _).
  eapply conj_settle_spec; [done|..|lia]. apply conj_added_both; [done..|apply Hinv|apply Hinv].
Qed.

Lemma conj_loop_spec n s cur vA vB st timeA psA timeB psB :
  (length psA + length psB <= n)%nat →
  conj_inv s cur vA vB st → sched_wf timeA psA → sched_wf timeB psB →
  not_before cur timeA psA → not_before cur timeB psB →
  conj_post s (λ t d, vA t d + value_at t timeA psA d) (λ t d, vB t d + value_at t timeB psB d)
    (conj_loop timeA psA timeB psB st).
Proof.
  revert cur vA vB st timeA psA timeB psB.
  induction n as [|n IH]; intros cur vA vB st timeA psA timeB psB Hn Hinv HwA HwB HnA HnB;
    rewrite conj_loop_eq; (destruct psA as [|a psA]; [by eapply conj_rest_spec; try done; left|]);
    (destruct psB as [|b psB]; [by eapply conj_rest_spec; try done; right|]); [simpl in Hn; lia|].
  pose proof HwA as (_ & _ & HiA & HwA')%sched_wf_cons.
  pose proof HwB as (_ & _ & HiB & HwB')%sched_wf_cons.
  pose proof (not_before_tail _ _ _ HwA) as HtA. pose proof (not_before_tail _ _ _ HwB) as HtB.
  cbv zeta. rewrite HiA, HiB. simpl in Hn, HnA, HnB.
  destruct (Z.ltb_spec (timeA + period_Length a) (timeB + period_Length b));
    [|destruct (Z.ltb_spec (timeB + period_Length b) (timeA + period_Length a))].
  - destruct (conj_consumeA_spec s cur vA vB st timeA a psA) as (st' & -> & Hinv'); [done..|]. rewrite Ok_bind.
    destruct (IH _ _ _ _ _ psA timeB (b :: psB) ltac:(simpl; lia) Hinv' HwA' HwB HtA)
      as (st2 & cur2 & -> & Hinv2); [simpl; lia|].
    exists st2, cur2. split; [done|]. eapply conj_inv_ext; [done| |done].
    intros t d. unfold add_at. cbn [value_at]. lia.
  - destruct (conj_consumeB_spec s cur vA vB st timeB b psB) as (st' & -> & Hinv'); [done..|]. rewrite Ok_bind.
    destruct (IH _ _ _ _ timeA (a :: psA) _ psB ltac:(simpl; lia) Hinv' HwA HwB')
      as (st2 & cur2 & -> & Hinv2); [simpl; lia|done|].
    exists st2, cur2. split; [done|]. eapply conj_inv_ext; [done|done|].
    intros t d. unfold add_at. cbn [value_at]. lia.
  - assert (timeA + period_Length a = timeB + period_Length b) as Heq by lia.
    destruct (conj_consumeBoth_spec s cur vA vB st timeA a psA timeB b psB)
      as (st' & -> & Hinv'); [done..|lia|]. rewrite Ok_bind. rewrite <-Heq in HwB', HtB.
    destruct (IH _ _ _ _ _ psA _ psB ltac:(lia) Hinv' HwA' HwB' HtA)
      as (st2 & cur2 & -> & Hinv2); [done|].
    exists st2, cur2. split; [done|].
    eapply conj_inv_ext; [done|..]; intros t d; unfold add_at; cbn [value_at]; rewrite <-?Heq; lia.
Qed.

(** ** Properties *)

Lemma Min64_min i j : Min64 i j = Z.min i j.
Proof. unfold Min64. destruct (Z.ltb_spec i j); lia. Qed.

Lemma Max64_max i j : Max64 i j = Z.max i j.
Proof. unfold Max64. destruct (Z.ltb_spec j i); lia. Qed.

Lemma built_nil s : 0 <= s → built s s [].
Proof. intros. split; try done. simpl. lia. Qed.

Lemma built_complete s e ps total :
  built s e ps → e <= MaxInt64 → coins_valid total → (∀ d, AmountOf total d = amount_sum ps d) →
  complete s e ps total.
Proof. intros [Hs Hl Hle Ha] He Hv Ht. split; try done; [split; try done; lia|lia]. Qed.

Lemma sched_wf_range start ps : sched_wf start ps → start <= MaxInt64.
Proof. intros [? Hl _ ?]. pose proof (length_sum_nonneg ps Hl). lia. Qed.

Lemma ends_le e time ps : sched_wf time ps → e <= MaxInt64 → ends e time ps <= MaxInt64.
Proof. destruct ps; [done|]. intros [] ?. done. Qed.

Lemma DisjunctPeriods_spec sA sB psA psB :
  sched_wf sA psA → sched_wf sB psB →
  let '(s, e, ps) := DisjunctPeriods sA sB psA psB in
  s = Z.min sA sB ∧ built s e ps ∧ e <= MaxInt64 ∧
  e = Z.max (ends s sA psA) (ends s sB psB) ∧
  ∀ t d, value_at t s ps d = value_at t sA psA d + value_at t sB psB d.
Proof.
  intros HwA HwB. unfold DisjunctPeriods. rewrite Min64_min.
  pose proof (sched_wf_range _ _ HwA).
  pose proof (wf_start _ _ HwA). pose proof (wf_start _ _ HwB).
  destruct (disjunct_loop_spec (length psA + length psB) (Z.min sA sB) sA psA sB psB (Z.min sA sB) [])
    as (Hb & He & Hv); [done..|apply built_nil; lia| | |].
  { apply not_before_start; [done|lia]. }
  { apply not_before_start; [done|lia]. }
  pose proof (ends_le (Z.min sA sB) sA psA HwA). pose proof (ends_le (Z.min sA sB) sB psB HwB).
  destruct (disjunct_loop _ _ _ _ _) as [e ps]. simpl in *. split; [done|]. split; [done|].
  split; [lia|]. split; [done|]. done.
Qed.

Lemma conj_inv_init s :
  0 <= s <= MaxInt64 → conj_inv s s (λ _ _, 0) (λ _ _, 0) (mkConj NewCoins NewCoins NewCoins s []).
Proof.
  intros Hs. split; simpl; intros; rewrite ?AmountOf_NewCoins; auto using NewCoins_valid.
  - apply built_nil. lia.
  - lia.
Qed.

Lemma ConjunctPeriods_spec sA sB psA psB :
  sched_wf sA psA → sched_wf sB psB →
  ∃ s e ps, ConjunctPeriods sA sB psA psB = Ok (s, e, ps) ∧
  s = Z.min sA sB ∧ built s e ps ∧ e <= MaxInt64 ∧
  ∀ t d, value_at t s ps d = Z.min (value_at t sA psA d) (value_at t sB psB d).
Proof.
  intros HwA HwB. unfold ConjunctPeriods. rewrite Min64_min.
  pose proof (sched_wf_range _ _ HwA).
  pose proof (wf_start _ _ HwA). pose proof (wf_start _ _ HwB).
  destruct (conj_loop_spec (length psA + length psB) (Z.min sA sB) (Z.min sA sB)
    (λ _ _, 0) (λ _ _, 0) (mkConj NewCoins NewCoins NewCoins (Z.min sA sB) []) sA psA sB psB)
    as (st & cur & Heq & Hinv); [done|apply conj_inv_init; lia|done|done|..].
  { apply not_before_start; [done|lia]. }
  { apply not_before_start; [done|lia]. }
  rewrite Heq. destruct Hinv as [Hb Hlast _ _ _ _ _ _ Hv].
  eexists _, _, _. split; [done|]. split; [done|]. split; [done|]. split; [lia|]. done.
Qed.

(** The total released is the value once every event is past. *)
Lemma built_sum s e ps t d : built s e ps → e <= t → value_at t s ps d = amount_sum ps d.
Proof. intros [] ?. apply value_at_after; [done|lia]. Qed.

(** [ReadSchedule] computes the step function of the schedule: nothing up to the
    start, then the sum of the amounts whose event is past; it grows with time and
    never exceeds the total. *)
Theorem read_schedule_step_function start endT ps total t t' :
  complete start endT ps total → t <= t' →
  (∀ d, AmountOf (ReadSchedule start endT ps total t) d =
        if t <=? start then 0 else value_at t start ps d) ∧
  coins_le (ReadSchedule start endT ps total t) (ReadSchedule start endT ps total t') ∧
  coins_le (ReadSchedule start endT ps total t') total.
Proof.
  intros Hc Ht. split; [intros d; by apply ReadSchedule_value|].
  destruct (cp_wf _ _ _ _ Hc) as [_ _ Ha _]. split; intros d.
  - rewrite !ReadSchedule_value by done. by apply read_value_mono.
  - rewrite ReadSchedule_value, (cp_total _ _ _ _ Hc) by done. by apply read_value_bounds.
Qed.

(** The union of complete schedules is complete. *)
Lemma disjunct_complete sA eA psA totalA sB eB psB totalB total :
  complete sA eA psA totalA → complete sB eB psB totalB → total ≡ coins_Add totalA totalB →
  coins_valid total →
  let '(s, e, ps) := DisjunctPeriods sA sB psA psB in
  s = Z.min sA sB ∧ e = Z.max (ends s sA psA) (ends s sB psB) ∧ complete s e ps total ∧
  ∀ t d, value_at t s ps d = value_at t sA psA d + value_at t sB psB d.
Proof.
  intros HA HB Htot Hv. pose proof (cp_wf _ _ _ _ HA) as HwA. pose proof (cp_wf _ _ _ _ HB) as HwB.
  pose proof (DisjunctPeriods_spec sA sB psA psB HwA HwB) as Hd.
  destruct (DisjunctPeriods sA sB psA psB) as [[s e] ps]. destruct Hd as (Hs & Hb & He & Hends & Hval).
  split; [done|]. split; [done|]. split; [|done]. apply built_complete; try done.
  intros d. rewrite (Htot d), AmountOf_Add by (apply HA || apply HB).
  rewrite (cp_total _ _ _ _ HA), (cp_total _ _ _ _ HB).
  set (m := Z.max e (Z.max (sA + length_sum psA) (sB + length_sum psB))).
  rewrite <-(built_sum s e ps m d Hb), Hval by lia.
  rewrite !value_at_after; [done|apply HwB|lia|apply HwA|lia].
Qed.

Lemma complete_extend start e e' ps total :
  complete start e ps total → e <= e' → complete start e' ps total.
Proof. intros [] ?. split; try done. lia. Qed.

(** The union of two schedules is a schedule from the earlier start that at
    every time releases what the two release together, and ends with the later one.
    (A first period of length 0 shows one instant later in its own schedule.) *)
Theorem disjunct_reads_sum sA eA psA totalA sB eB psB totalB total t :
  complete sA eA psA totalA → complete sB eB psB totalB → total ≡ coins_Add totalA totalB →
  coins_valid total → (t = sA → starts_late psA) → (t = sB → starts_late psB) →
  let '(s, e, ps) := DisjunctPeriods sA sB psA psB in
  s = Z.min sA sB ∧ e = Z.max (ends s sA psA) (ends s sB psB) ∧ complete s e ps total ∧
  ReadSchedule s e ps total t ≡
    coins_Add (ReadSchedule sA eA psA totalA t) (ReadSchedule sB eB psB totalB t).
Proof.
  intros HA HB Htot Hv HlA HlB. pose proof (cp_wf _ _ _ _ HA) as HwA. pose proof (cp_wf _ _ _ _ HB) as HwB.
  pose proof (disjunct_complete sA eA psA totalA sB eB psB totalB total HA HB Htot Hv) as Hd.
  destruct (DisjunctPeriods sA sB psA psB) as [[s e] ps]. destruct Hd as (Hs & Hends & Hc & Hval).
  split; [done|]. split; [done|]. split; [done|]. intros d.
  rewrite AmountOf_Add by (by apply ReadSchedule_valid). rewrite !ReadSchedule_value by done.
  rewrite (read_value_at t sA), (read_value_at t sB), <-Hval by (done || apply HwA || apply HwB).
  unfold read_value. destruct (Z.leb_spec t s); [|done]. rewrite Hval.
  rewrite <-(read_value_at t sA), <-(read_value_at t sB) by (done || apply HwA || apply HwB).
  unfold read_value. by rewrite !(proj2 (Z.leb_le t _)) by lia.
Qed.

(** The conjunction of two schedules never fails and is a schedule that at
    every time releases the minimum of what the two release. *)
Theorem conjunct_reads_min sA eA psA totalA sB eB psB totalB total t :
  complete sA eA psA totalA → complete sB eB psB totalB → total ≡ coins_Min totalA totalB →
  coins_valid total → (t = sA → starts_late psA) → (t = sB → starts_late psB) →
  ∃ s e ps, ConjunctPeriods sA sB psA psB = Ok (s, e, ps) ∧ s = Z.min sA sB ∧
    complete s e ps total ∧
    ReadSchedule s e ps total t ≡
      coins_Min (ReadSchedule sA eA psA totalA t) (ReadSchedule sB eB psB totalB t).
Proof.
  intros HA HB Htot Hv HlA HlB. pose proof (cp_wf _ _ _ _ HA) as HwA. pose proof (cp_wf _ _ _ _ HB) as HwB.
  destruct (ConjunctPeriods_spec sA sB psA psB HwA HwB)
    as (s & e & ps & Heq & Hs & Hb & He & Hval).
  exists s, e, ps. split; [done|]. split; [done|].
  assert (complete s e ps total) as Hc.
  { apply built_complete; try done. intros d. rewrite (Htot d), AmountOf_Min by (apply HA || apply HB).
    rewrite (cp_total _ _ _ _ HA), (cp_total _ _ _ _ HB).
    set (m := Z.max e (Z.max (sA + length_sum psA) (sB + length_sum psB))).
    rewrite <-(built_sum s e ps m d Hb), Hval by lia.
    rewrite !value_at_after; [done|apply HwB|lia|apply HwA|lia]. }
  split; [done|]. intros d.
  rewrite AmountOf_Min by (by apply ReadSchedule_valid). rewrite !ReadSchedule_value by done.
  rewrite (read_value_at t sA), (read_value_at t sB), <-Hval by (done || apply HwA || apply HwB).
  unfold read_value. destruct (Z.leb_spec t s); [|done]. rewrite Hval.
  rewrite <-(read_value_at t sA), <-(read_value_at t sB) by (done || apply HwA || apply HwB).
  unfold read_value. by rewrite !(proj2 (Z.leb_le t _)) by lia.
Qed.

(** Lengthening the first period moves the start back. *)
Lemma extend_first_value by_ start ps t d :
  sched_wf start ps → 0 <= by_ <= start →
  value_at t (start - by_) (extend_first by_ ps) d = value_at t start ps d ∧
  sched_wf (start - by_) (extend_first by_ ps) ∧
  (ps ≠ [] → length_sum (extend_first by_ ps) = length_sum ps + by_).
Proof.
  intros Hwf Hby. pose proof (sched_wf_range _ _ Hwf). destruct ps as [|p ps]; simpl.
  { split; [done|]. split; [|done]. split; simpl; try done; lia. }
  pose proof (sched_wf_next _ _ _ Hwf). pose proof Hwf as (Hl & Hp & _ & Hwf')%sched_wf_cons.
  rewrite i64_small by (unfold in_i64, MaxInt64 in *; lia).
  replace (start - by_ + (period_Length p + by_)) with (start + period_Length p) by lia.
  split; [done|]. destruct Hwf as [Hs Hls Has He]. simpl in He.
  apply Forall_cons in Hls as [_ Hls]. apply Forall_cons in Has as [_ Has].
  split; [split; simpl; [lia|constructor; [simpl; lia|done]|by constructor|lia]|]. lia.
Qed.

(** Aligning two schedules moves both to the earlier start without moving
    any event, and returns an end time that is the later of their ends. *)
Theorem align_keeps_events `{!Periods} `{!PeriodsLaws} sA sB psA psB :
  sched_wf sA psA → sched_wf sB psB →
  let '(s, e, psA', psB') := AlignSchedules sA sB psA psB in
  s = Z.min sA sB ∧
  e = Z.max (s + length_sum psA') (s + length_sum psB') ∧
  sched_wf s psA' ∧ sched_wf s psB' ∧
  ∀ t d, value_at t s psA' d = value_at t sA psA d ∧ value_at t s psB' d = value_at t sB psB d.
Proof.
  intros HwA HwB. unfold AlignSchedules. rewrite Max64_max, Min64_min.
  pose proof (wf_start _ _ HwA). pose proof (wf_start _ _ HwB).
  pose proof (sched_wf_range _ _ HwA). pose proof (sched_wf_range _ _ HwB).
  set (s := Z.min sA sB).
  rewrite !(i64_small (_ - s)) by (unfold in_i64, MaxInt64 in *; lia).
  assert (∀ S ps, sched_wf S ps → s <= S →
    sched_wf s (extend_first (S - s) ps) ∧
    (∀ t d, value_at t s (extend_first (S - s) ps) d = value_at t S ps d) ∧
    i64 (s + TotalLength (extend_first (S - s) ps)) = s + length_sum (extend_first (S - s) ps)) as Hext.
  { intros S ps Hwf HS. pose proof (λ t d, extend_first_value (S - s) S ps t d Hwf ltac:(lia)) as Hx.
    replace (S - (S - s)) with s in Hx by lia. destruct (Hx 0 EmptyString) as (_ & [Hs0 Hl Ha He] & _).
    pose proof (length_sum_nonneg _ Hl). split; [by split|]. split; [intros t d; apply Hx|].
    rewrite TotalLength_sum by (done || unfold in_i64, MaxInt64 in *; lia).
    apply i64_small. unfold in_i64, MaxInt64 in *. lia. }
  destruct (Hext sA psA HwA ltac:(lia)) as (HA1 & HA2 & ->).
  destruct (Hext sB psB HwB ltac:(lia)) as (HB1 & HB2 & ->). auto 10.
Qed.
End Spec.

(** ** Witnesses *)

Section Witnesses.
Import MapCoins.

(** 10 aego after 5 s and 20 more after 10 s, from time 100; 6 aego at 108. *)
Definition aego : Z → coins := coin "aego".
Definition sched_a : list Period := [mkPeriod _ 5 (aego 10); mkPeriod _ 5 (aego 20)].
Definition sched_b : list Period := [mkPeriod _ 4 (aego 6)].

Lemma sched_a_complete : complete 100 110 sched_a (aego 30).
Proof.
  split; [split|..]; try done; try (by repeat constructor; try apply coin_valid).
  intros d. cbn [amount_sum sched_a foldr period_Amount]. unfold aego.
  rewrite !AmountOf_coin. by case_decide.
Qed.

Lemma sched_b_complete : complete 104 110 sched_b (aego 6).
Proof.
  split; [split|..]; try done; try (by repeat constructor; try apply coin_valid).
  intros d. cbn [amount_sum sched_b foldr period_Amount]. unfold aego.
  rewrite !AmountOf_coin. by case_decide.
Qed.

Lemma read_schedule_step_function_witness :
  AmountOf (ReadSchedule 100 110 sched_a (aego 30) 107) "aego" = 10 ∧
  coins_le (ReadSchedule 100 110 sched_a (aego 30) 107) (aego 30).
Proof.
  destruct (read_schedule_step_function 100 110 sched_a (aego 30) 107 107 sched_a_complete
    (Z.le_refl 107)) as (Hv & _ & Hle).
  split; [rewrite Hv; reflexivity|exact Hle].
Defined.

Lemma disjunct_reads_sum_witness :
  let '(s, e, ps) := DisjunctPeriods 100 104 sched_a sched_b in
  AmountOf (ReadSchedule s e ps (aego 36) 108) "aego" = 16.
Proof.
  pose proof (disjunct_reads_sum 100 110 sched_a (aego 30) 104 110 sched_b (aego 6) (aego 36) 108
    sched_a_complete sched_b_complete) as Hd.
  destruct (DisjunctPeriods 100 104 sched_a sched_b) as [[s e] ps].
  destruct Hd as (_ & _ & _ & Hr).
  - intros d. rewrite AmountOf_Add by (apply coin_valid; lia). unfold aego. rewrite !AmountOf_coin.
    destruct (decide _); reflexivity.
  - apply coin_valid. lia.
  - discriminate.
  - discriminate.
  - rewrite (Hr "aego"%string). reflexivity.
Defined.

Lemma conjunct_reads_min_witness :
  ∃ s e ps, ConjunctPeriods 100 104 sched_a sched_b = Ok (s, e, ps) ∧
    AmountOf (ReadSchedule s e ps (aego 6) 109) "aego" = 6.
Proof.
  destruct (conjunct_reads_min 100 110 sched_a (aego 30) 104 110 sched_b (aego 6) (aego 6) 109
    sched_a_complete sched_b_complete) as (s & e & ps & Heq & _ & _ & Hr).
  - intros d. rewrite AmountOf_Min by (apply coin_valid; lia). unfold aego. rewrite !AmountOf_coin.
    destruct (decide _); reflexivity.
  - apply coin_valid. lia.
  - discriminate.
  - discriminate.
  - exists s, e, ps. split; [exact Heq|]. rewrite (Hr "aego"%string). reflexivity.
Defined.

Lemma align_keeps_events_witness :
  let '(s, e, psA, psB) := AlignSchedules 100 104 sched_a sched_b in
  s = 100 ∧ value_at 108 s psB "aego" = 6.
Proof.
  pose proof (align_keeps_events 100 104 sched_a sched_b
    (cp_wf _ _ _ _ sched_a_complete) (cp_wf _ _ _ _ sched_b_complete)) as Ha.
  destruct (AlignSchedules 100 104 sched_a sched_b) as [[[s e] psA] psB].
  destruct Ha as (Hs & _ & _ & _ & Hv). split; [exact Hs|].
  destruct (Hv 108 "aego"%string) as [_ ->]. reflexivity.
Defined.
End Witnesses.
