(* ===== verification/ClawbackAccount.v ===== *)
(** * Clawback vesting accounts: [x/vesting/types/clawback_vesting_account.go]

    An account holds a lockup and a vesting schedule over the same original
    amount.  [account_wf] is what [Validate] checks; the theorems show that the
    reads never panic on such an account, that a clawback splits the original
    amount into what stays and what is returned, and that the account it leaves
    is again well-formed. *)

From S2P Require Import Prelude Sdk Schedule ScheduleSpec.

(** The SDK's base vesting account and the calls on it. *)
Record BaseVestingAccount `{Coins} {base : Type} := mkBaseVesting {
  bva_BaseAccount : base;
  bva_OriginalVesting : coins;
  bva_DelegatedFree : coins;
  bva_DelegatedVesting : coins;
  bva_EndTime : Z
}.
Arguments BaseVestingAccount {_} base.

Class BaseVesting `{Coins} (base : Type) := {
  LockedCoinsFromVesting : BaseVestingAccount base → coins → coins;
  bva_TrackDelegation :
    BaseVestingAccount base → coins → coins → coins → partial (BaseVestingAccount base);
  bva_Validate : BaseVestingAccount base → option string
}.

Section Account.
Context `{Coins} `{!Periods} {base : Type} `{!BaseVesting base}.

(** [StartTime] is kept as Unix seconds, the only thing read of it. *)
Record ClawbackVestingAccount := mkClawback {
  va_base : BaseVestingAccount base;
  va_FunderAddress : string;
  va_StartTime : Z;
  va_LockupPeriods : list Period;
  va_VestingPeriods : list Period
}.

Definition va_OriginalVesting (va : ClawbackVestingAccount) : coins := bva_OriginalVesting (va_base va).
Definition va_EndTime (va : ClawbackVestingAccount) : Z := bva_EndTime (va_base va).

Definition NewClawbackVestingAccount (baseAcc : base) (funder : string) (originalVesting : coins)
    (startTime : Z) (lockupPeriods vestingPeriods : list Period) : ClawbackVestingAccount :=
  let '(_, endTime, lp, vp) := AlignSchedules startTime startTime lockupPeriods vestingPeriods in
  mkClawback (mkBaseVesting _ _ baseAcc originalVesting NewCoins NewCoins endTime) funder startTime lp vp.

Definition GetStartTime (va : ClawbackVestingAccount) : Z := va_StartTime va.

Definition GetUnlockedOnly (va : ClawbackVestingAccount) (blockTime : Z) : coins :=
  ReadSchedule (GetStartTime va) (va_EndTime va) (va_LockupPeriods va) (va_OriginalVesting va) blockTime.

Definition GetLockedOnly (va : ClawbackVestingAccount) (blockTime : Z) : partial coins :=
  coins_Sub (va_OriginalVesting va) (GetUnlockedOnly va blockTime).

Definition GetVestedOnly (va : ClawbackVestingAccount) (blockTime : Z) : coins :=
  ReadSchedule (GetStartTime va) (va_EndTime va) (va_VestingPeriods va) (va_OriginalVesting va) blockTime.

(** The [nil] result is replaced by the empty list; both are [NewCoins] up to amounts. *)
Definition GetUnvestedOnly (va : ClawbackVestingAccount) (blockTime : Z) : partial coins :=
  coins_Sub (va_OriginalVesting va) (GetVestedOnly va blockTime).

Definition GetVestedCoins (va : ClawbackVestingAccount) (blockTime : Z) : coins :=
  let c := coins_Min (GetUnlockedOnly va blockTime) (GetVestedOnly va blockTime) in
  if coins_IsZero c then NewCoins else c.

Definition GetVestingCoins (va : ClawbackVestingAccount) (blockTime : Z) : partial coins :=
  coins_Sub (va_OriginalVesting va) (GetVestedCoins va blockTime).

Definition LockedCoins (va : ClawbackVestingAccount) (blockTime : Z) : partial coins :=
  vesting ← GetVestingCoins va blockTime; Ok (LockedCoinsFromVesting (va_base va) vesting).

Definition with_base (b : BaseVestingAccount base) (va : ClawbackVestingAccount) : ClawbackVestingAccount :=
  mkClawback b (va_FunderAddress va) (va_StartTime va) (va_LockupPeriods va) (va_VestingPeriods va).

Definition TrackDelegation (va : ClawbackVestingAccount) (blockTime : Z) (balance amount : coins) :
    partial ClawbackVestingAccount :=
  vesting ← GetVestingCoins va blockTime;
  b ← bva_TrackDelegation (va_base va) balance vesting amount;
  Ok (with_base b va).

Definition GetPassedPeriodCount (va : ClawbackVestingAccount) (blockTime : Z) : nat :=
  ReadPastPeriodCount (GetStartTime va) (va_EndTime va) (va_VestingPeriods va) blockTime.

Definition HasLockedCoins (va : ClawbackVestingAccount) (blockTime : Z) : partial bool :=
  locked ← GetLockedOnly va blockTime; Ok (negb (coins_IsZero locked)).

(** The loop of [Validate] over the periods of one schedule. *)
Fixpoint sum_periods (end_ : Z) (acc : coins) (ps : list Period) : Z * coins :=
  match ps with
  | [] => (end_, acc)
  | p :: rest => sum_periods (i64 (end_ + period_Length p)) (coins_Add acc (period_Amount p)) rest
  end.

Inductive account_error :=
| StartNotBeforeEnd
| LockupBeyondEnd
| LockupSum
| VestingBeyondEnd
| VestingSum
| BaseError (e : string).

Definition Validate (va : ClawbackVestingAccount) : option account_error :=
  if va_EndTime va <=? GetStartTime va then Some StartNotBeforeEnd
  else
    let '(lockupEnd, lockupCoins) := sum_periods (GetStartTime va) NewCoins (va_LockupPeriods va) in
    if va_EndTime va <? lockupEnd then Some LockupBeyondEnd
    else if negb (CoinEq lockupCoins (va_OriginalVesting va)) then Some LockupSum
    else
      let '(vestingEnd, vestingCoins) := sum_periods (GetStartTime va) NewCoins (va_VestingPeriods va) in
      if va_EndTime va <? vestingEnd then Some VestingBeyondEnd
      else if negb (CoinEq vestingCoins (va_OriginalVesting va)) then Some VestingSum
      else BaseError <$> bva_Validate (va_base va).

(** A Go slice expression [s[:n]] with [n] beyond the capacity panics; the count is
    at most the length. *)
Definition ComputeClawback (va : ClawbackVestingAccount) (clawbackTime : Z) :
    partial (ClawbackVestingAccount * coins) :=
  let totalVested := GetVestedOnly va clawbackTime in
  totalUnvested ← GetUnvestedOnly va clawbackTime;
  let passedPeriodID := GetPassedPeriodCount va clawbackTime in
  let newVestingPeriods := take passedPeriodID (va_VestingPeriods va) in
  let newVestingEnd := i64 (GetStartTime va + TotalLength newVestingPeriods) in
  let capPeriods := [mkPeriod _ 0 totalVested] in
  '(_, newLockingEnd, newLockupPeriods) ←
    ConjunctPeriods (GetStartTime va) (GetStartTime va) (va_LockupPeriods va) capPeriods;
  let b := va_base va in
  Ok (mkClawback
        (mkBaseVesting _ _ (bva_BaseAccount b) totalVested (bva_DelegatedFree b) (bva_DelegatedVesting b)
           (Max64 newVestingEnd newLockingEnd))
        (va_FunderAddress va) (va_StartTime va) newLockupPeriods newVestingPeriods,
      totalUnvested).
End Account.
Arguments ClawbackVestingAccount {_} base.

(** ** Properties *)

Section Properties.
Context `{CL : CoinsLaws} `{P : !Periods} `{PL : !PeriodsLaws} {base : Type} `{B : !BaseVesting base}.

(** Both schedules release the original amount and end by the end time. *)
Record account_wf (va : ClawbackVestingAccount base) : Prop := {
  awf_lockup : complete (va_StartTime va) (va_EndTime va) (va_LockupPeriods va) (va_OriginalVesting va);
  awf_vesting : complete (va_StartTime va) (va_EndTime va) (va_VestingPeriods va) (va_OriginalVesting va)
}.

Lemma GetVestedOnly_le va t :
  account_wf va → coins_valid (GetVestedOnly va t) ∧ coins_le (GetVestedOnly va t) (va_OriginalVesting va).
Proof.
  intros [_ Hv]. split; [by apply ReadSchedule_valid|]. intros d. unfold GetVestedOnly.
  rewrite ReadSchedule_value, (cp_total _ _ _ _ Hv) by done. apply read_value_bounds, Hv.
Qed.

Lemma GetUnlockedOnly_le va t :
  account_wf va → coins_valid (GetUnlockedOnly va t) ∧ coins_le (GetUnlockedOnly va t) (va_OriginalVesting va).
Proof.
  intros [Hv _]. split; [by apply ReadSchedule_valid|]. intros d. unfold GetUnlockedOnly.
  rewrite ReadSchedule_value, (cp_total _ _ _ _ Hv) by done. apply read_value_bounds, Hv.
Qed.

Lemma GetVestedCoins_spec va t :
  account_wf va →
  coins_valid (GetVestedCoins va t) ∧
  ∀ d, AmountOf (GetVestedCoins va t) d =
       Z.min (AmountOf (GetUnlockedOnly va t) d) (AmountOf (GetVestedOnly va t) d).
Proof.
  intros Hwf. destruct (GetVestedOnly_le va t Hwf) as [Hv _].
  destruct (GetUnlockedOnly_le va t Hwf) as [Hu _]. unfold GetVestedCoins.
  pose proof (Min_valid _ _ Hu Hv) as Hm. destruct (coins_IsZero _) eqn:Hz.
  - split; [apply NewCoins_valid|]. intros d. rewrite AmountOf_NewCoins.
    pose proof (proj1 (IsZero_spec _ Hm) Hz d) as Hz'. clear Hz. rename Hz' into Hz.
    by rewrite AmountOf_Min in Hz.
  - split; [done|]. intros d. by apply AmountOf_Min.
Qed.

Lemma GetVestingCoins_ok va t :
  account_wf va →
  ∃ c, GetVestingCoins va t = Ok c ∧ coins_valid c ∧
       va_OriginalVesting va ≡ coins_Add (GetVestedCoins va t) c.
Proof.
  intros Hwf. destruct (GetVestedOnly_le va t Hwf) as [_ Hvle].
  destruct (GetVestedCoins_spec va t Hwf) as [Hc Hcs].
  pose proof (cp_valid _ _ _ _ (awf_lockup _ Hwf)) as Ho.
  destruct (Sub_ok _ _ Ho Hc) as (c & Heq & Hcv & Hd).
  { intros d. rewrite Hcs. specialize (Hvle d). lia. }
  exists c. split; [done|]. split; [done|]. intros d. rewrite AmountOf_Add, Hd by done. lia.
Qed.

(** On a well-formed account every split of the original amount succeeds:
    locked with unlocked, vested with unvested, and spendable (vested and
    unlocked) with vesting coins add up to the original amount. *)
Theorem account_reads_total va t :
  account_wf va →
  (∃ c, GetLockedOnly va t = Ok c ∧ coins_valid c ∧
        va_OriginalVesting va ≡ coins_Add (GetUnlockedOnly va t) c) ∧
  (∃ c, GetUnvestedOnly va t = Ok c ∧ coins_valid c ∧
        va_OriginalVesting va ≡ coins_Add (GetVestedOnly va t) c) ∧
  (∃ c, GetVestingCoins va t = Ok c ∧ coins_valid c ∧
        va_OriginalVesting va ≡ coins_Add (GetVestedCoins va t) c ∧
        GetVestedCoins va t ≡ coins_Min (GetUnlockedOnly va t) (GetVestedOnly va t)).
Proof.
  intros Hwf. destruct (GetVestedOnly_le va t Hwf) as [Hv Hvle].
  destruct (GetUnlockedOnly_le va t Hwf) as [Hu Hule].
  destruct (GetVestedCoins_spec va t Hwf) as [Hc Hcs].
  pose proof (cp_valid _ _ _ _ (awf_lockup _ Hwf)) as Ho.
  split; [|split].
  - destruct (Sub_ok _ _ Ho Hu Hule) as (c & Heq & Hcv & Hd). exists c. split; [done|]. split; [done|].
    intros d. rewrite AmountOf_Add, Hd by done. lia.
  - destruct (Sub_ok _ _ Ho Hv Hvle) as (c & Heq & Hcv & Hd). exists c. split; [done|]. split; [done|].
    intros d. rewrite AmountOf_Add, Hd by done. lia.
  - destruct (GetVestingCoins_ok va t Hwf) as (c & ? & ? & ?). exists c. split; [done|].
    split; [done|]. split; [done|]. intros d. by rewrite Hcs, AmountOf_Min.
Qed.

Lemma cap_value t start c d :
  value_at t start [mkPeriod _ 0 c] d = if start <=? t then AmountOf c d else 0.
Proof. simpl. destruct (Z.leb_spec (start + 0) t), (Z.leb_spec start t); lia. Qed.

Lemma total_length_end start ps :
  sched_wf start ps → i64 (start + TotalLength ps) = start + length_sum ps.
Proof.
  intros [Hs Hl _ He]. pose proof (length_sum_nonneg ps Hl).
  rewrite TotalLength_sum by (done || unfold in_i64, MaxInt64 in *; lia).
  apply i64_small. unfold in_i64, MaxInt64 in *. lia.
Qed.

(** The vesting schedule cut at the clawback time. *)
Lemma cut_complete start endT ps total ct tv :
  complete start endT ps total → coins_valid tv → (∀ d, AmountOf tv d = read_value ct start ps d) →
  let past := take (ReadPastPeriodCount start endT ps ct) ps in
  sched_wf start past ∧ ∀ e, start + length_sum past <= e → complete start e past tv.
Proof.
  intros Hc Htv Hv past. destruct (past_periods start endT ps total ct Hc) as (Hsum & _ & _). fold past in Hsum.
  pose proof (cp_wf _ _ _ _ Hc) as [Hs Hl Ha He].
  assert (length_sum past <= length_sum ps) as Hle by (by apply length_sum_take).
  assert (sched_wf start past) as Hwf.
  { split; [done|by apply Forall_take..|lia]. }
  split; [done|]. intros e Hee. split; try done. intros d. by rewrite Hv, Hsum.
Qed.

(** The cut schedule reads as the old one up to the cut and stays there. *)
Lemma cut_value start endT ps total ct t d :
  complete start endT ps total →
  let past := take (ReadPastPeriodCount start endT ps ct) ps in
  (t <= ct → read_value t start past d = read_value t start ps d) ∧
  (ct <= t → read_value t start past d = read_value ct start ps d).
Proof.
  intros Hc past. destruct (past_periods start endT ps total ct Hc) as (Hsum & Hend & Hv). fold past in Hsum, Hend, Hv.
  split; [intros; by apply Hv|]. intros Ht. pose proof (cp_wf _ _ _ _ Hc) as [_ Hl _ _].
  destruct (decide (ct = t)) as [->|]; [by apply Hv|].
  destruct (Z.leb_spec ct start) as [Hcs|].
  { unfold past, ReadPastPeriodCount. rewrite (proj2 (Z.leb_le ct start)) by done. simpl.
    unfold read_value. rewrite (proj2 (Z.leb_le ct start)) by done. by destruct (t <=? start). }
  rewrite <-Hsum. unfold read_value. rewrite (proj2 (Z.leb_gt t start)) by lia.
  destruct Hend as [->|Hend]; [done|]. apply value_at_after; [by apply Forall_take|].
  destruct Hend as [|Hend]; [lia|]. pose proof (cp_end _ _ _ _ Hc).
  pose proof (length_sum_take (ReadPastPeriodCount start endT ps ct) ps Hl) as Hlt. fold past in Hlt. lia.
Qed.

(** The lockup schedule capped at what stays. *)
Lemma capped_lockup va ct :
  account_wf va →
  ∃ s e ps, ConjunctPeriods (va_StartTime va) (va_StartTime va) (va_LockupPeriods va)
              [mkPeriod _ 0 (GetVestedOnly va ct)] = Ok (s, e, ps) ∧
    built (va_StartTime va) e ps ∧ e <= MaxInt64 ∧
    ∀ t d, read_value t (va_StartTime va) ps d =
           Z.min (AmountOf (GetUnlockedOnly va t) d) (AmountOf (GetVestedOnly va ct) d).
Proof.
  intros Hwf. destruct (GetVestedOnly_le va ct Hwf) as [Hv Hvle].
  pose proof (awf_lockup _ Hwf) as HL. pose proof (cp_wf _ _ _ _ HL) as HwL.
  destruct (ConjunctPeriods_spec (va_StartTime va) (va_StartTime va) (va_LockupPeriods va)
    [mkPeriod _ 0 (GetVestedOnly va ct)]) as (s & e & ps & Heq & -> & Hb & He & Hval); [done| |].
  { pose proof (sched_wf_range _ _ HwL). pose proof (wf_start _ _ HwL).
    split; [done|by repeat constructor..|simpl; lia]. }
  rewrite Z.min_id in Hb, Hval. eexists _, e, ps. split; [done|]. split; [done|]. split; [done|].
  intros t d. unfold GetUnlockedOnly, GetStartTime. rewrite ReadSchedule_value by done.
  unfold read_value. rewrite Hval, cap_value. pose proof (valid_nonneg _ d Hv).
  destruct (Z.leb_spec t (va_StartTime va)), (Z.leb_spec (va_StartTime va) t); lia.
Qed.

Lemma capped_complete va ct e ps e' :
  account_wf va → built (va_StartTime va) e ps → e <= MaxInt64 → e <= e' →
  (∀ t d, read_value t (va_StartTime va) ps d =
          Z.min (AmountOf (GetUnlockedOnly va t) d) (AmountOf (GetVestedOnly va ct) d)) →
  complete (va_StartTime va) e' ps (GetVestedOnly va ct).
Proof.
  intros Hwf Hb He Hee Hval. destruct (GetVestedOnly_le va ct Hwf) as [Hv Hvle].
  pose proof Hb as [Hs Hl Hle Ha]. pose proof (awf_lockup _ Hwf) as HL.
  split; try done; [split; try done; lia|lia|]. intros d.
  set (m := Z.max (va_StartTime va + 1) (Z.max e (va_EndTime va))).
  assert (read_value m (va_StartTime va) ps d = amount_sum ps d) as <-.
  { unfold read_value. rewrite (proj2 (Z.leb_gt m _)) by lia. apply (built_sum _ e _ m d Hb). lia. }
  rewrite Hval. unfold GetUnlockedOnly, GetStartTime. rewrite ReadSchedule_value by done.
  unfold read_value. rewrite (proj2 (Z.leb_gt m _)) by lia.
  rewrite value_at_after; [|apply HL|pose proof (cp_end _ _ _ _ HL); lia].
  rewrite <-(cp_total _ _ _ _ HL). specialize (Hvle d). lia.
Qed.

(** C18.  A clawback never fails on a well-formed account.  What it returns and the
    original amount of the account it leaves add up to the old original amount;
    the new account is well-formed, has vested what had vested by the clawback time
    and nothing more, and unlocks as before, up to the amount that stays. *)
Theorem clawback_splits_account va ct :
  account_wf va →
  ∃ va' unvested, ComputeClawback va ct = Ok (va', unvested) ∧
    account_wf va' ∧ coins_valid unvested ∧
    va_OriginalVesting va ≡ coins_Add (va_OriginalVesting va') unvested ∧
    va_OriginalVesting va' ≡ GetVestedOnly va ct ∧
    (∀ t, t <= ct → GetVestedOnly va' t ≡ GetVestedOnly va t) ∧
    (∀ t, ct <= t → GetVestedOnly va' t ≡ GetVestedOnly va ct) ∧
    (∀ t, GetUnlockedOnly va' t ≡ coins_Min (GetUnlockedOnly va t) (GetVestedOnly va ct)).
Proof.
  intros Hwf. destruct (GetVestedOnly_le va ct Hwf) as [Hv Hvle].
  pose proof (awf_vesting _ Hwf) as HV.
  assert (∀ t d, AmountOf (GetVestedOnly va t) d = read_value t (va_StartTime va) (va_VestingPeriods va) d) as Hread.
  { intros. by apply ReadSchedule_value. }
  destruct (Sub_ok _ _ (cp_valid _ _ _ _ HV) Hv Hvle) as (unv & Hunv & Huv & Hud).
  destruct (capped_lockup va ct Hwf) as (s & e & lps & Hconj & Hb & He & Hlock).
  destruct (cut_complete _ _ _ _ ct (GetVestedOnly va ct) HV Hv (Hread ct)) as [Hpast Hcut].
  unfold ComputeClawback, GetUnvestedOnly, GetStartTime. rewrite Hunv. cbn [mbind outcome_bind].
  rewrite Hconj. cbn [mbind outcome_bind]. unfold GetPassedPeriodCount, GetStartTime.
  rewrite total_length_end, Max64_max by done. set (past := take _ _) in *. set (E := Z.max _ _).
  assert (complete (va_StartTime va) E past (GetVestedOnly va ct)) as Hnv by (apply Hcut; lia).
  assert (complete (va_StartTime va) E lps (GetVestedOnly va ct)) as Hnl.
  { eapply capped_complete; [done..| |done]. lia. }
  eexists _, _. split; [done|]. split; [by split|]. split; [done|]. split; [|split; [done|]].
  { intros d. unfold va_OriginalVesting at 2. simpl. rewrite AmountOf_Add, Hud by done. lia. }
  split; [|split].
  - intros t Ht d. rewrite Hread. unfold GetVestedOnly at 1. simpl. rewrite ReadSchedule_value by done.
    by apply (cut_value _ _ _ _ ct t d HV).
  - intros t Ht d. rewrite Hread. unfold GetVestedOnly at 1. simpl. rewrite ReadSchedule_value by done.
    by apply (cut_value _ _ _ _ ct t d HV).
  - intros t d. destruct (GetUnlockedOnly_le va t Hwf) as [Hu _]. rewrite AmountOf_Min by done.
    unfold GetUnlockedOnly at 1. simpl. rewrite ReadSchedule_value by done. apply Hlock.
Qed.

(** ** Validation *)

Lemma sum_periods_spec start acc ps :
  sched_wf start ps → coins_valid acc →
  (sum_periods start acc ps).1 = start + length_sum ps ∧
  coins_valid (sum_periods start acc ps).2 ∧
  ∀ d, AmountOf (sum_periods start acc ps).2 d = AmountOf acc d + amount_sum ps d.
Proof.
  revert start acc. induction ps as [|p ps IH]; intros start acc Hwf Hacc; simpl.
  { split; [lia|]. split; [done|]. intros. lia. }
  apply sched_wf_cons in Hwf as (Hl & Hp & -> & Hwf).
  destruct (IH _ (coins_Add acc (period_Amount p)) Hwf) as (He & Hv & Ha); [by apply Add_valid|].
  split; [lia|]. split; [done|]. intros d. rewrite Ha, AmountOf_Add by done. lia.
Qed.

Lemma CoinEq_spec a b : coins_valid a → coins_valid b → CoinEq a b = true ↔ a ≡ b.
Proof.
  intros Ha Hb. unfold CoinEq. rewrite andb_true_iff, !IsAllLTE_spec by done. split.
  - intros [H1 H2] d. specialize (H1 d). specialize (H2 d). lia.
  - intros Heq. split; intros d; rewrite (Heq d); lia.
Qed.

(** One schedule passes the checks of [Validate] exactly when it is complete. *)
Lemma schedule_checks start endT ps total :
  sched_wf start ps → coins_valid total →
  let '(e, c) := sum_periods start NewCoins ps in
  ((endT <? e) = false ∧ CoinEq c total = true) ↔ complete start endT ps total.
Proof.
  intros Hwf Hv. pose proof (sum_periods_spec start NewCoins ps Hwf NewCoins_valid) as Hs.
  destruct (sum_periods start NewCoins ps) as [e c]. simpl in Hs. destruct Hs as (-> & Hcv & Hc).
  rewrite CoinEq_spec, Z.ltb_ge by done. split.
  - intros [He Heq]. split; try done. intros d. rewrite <-(Heq d), Hc, AmountOf_NewCoins. lia.
  - intros [_ He _ Ht]. split; [done|]. intros d. rewrite Hc, AmountOf_NewCoins, Ht. lia.
Qed.

(** [Validate] accepts exactly the accounts whose two schedules release the
    original amount by the end time, that start before they end and whose base
    account is valid. *)
Theorem validate_iff_wf va :
  sched_wf (va_StartTime va) (va_LockupPeriods va) →
  sched_wf (va_StartTime va) (va_VestingPeriods va) →
  coins_valid (va_OriginalVesting va) →
  Validate va = None ↔
  account_wf va ∧ va_StartTime va < va_EndTime va ∧ bva_Validate (va_base va) = None.
Proof.
  intros HwL HwV Ho. unfold Validate, GetStartTime.
  pose proof (schedule_checks _ (va_EndTime va) _ _ HwL Ho) as HL.
  pose proof (schedule_checks _ (va_EndTime va) _ _ HwV Ho) as HV.
  destruct (sum_periods _ _ (va_LockupPeriods va)) as [lE lC].
  destruct (sum_periods _ _ (va_VestingPeriods va)) as [vE vC].
  destruct (Z.leb_spec (va_EndTime va) (va_StartTime va)).
  { split; [done|]. intros (_ & ? & _). lia. }
  split.
  - intros Hval. destruct (va_EndTime va <? lE) eqn:E1; [done|].
    destruct (CoinEq lC _) eqn:E2; [|done]. destruct (va_EndTime va <? vE) eqn:E3; [done|].
    destruct (CoinEq vC _) eqn:E4; [|done]. simpl in Hval. apply fmap_None in Hval.
    split; [split; [by apply HL|by apply HV]|]. split; [lia|done].
  - intros ([[-> ->]%HL [-> ->]%HV] & _ & ->). done.
Qed.

Lemma extend_first_zero start ps : sched_wf start ps → extend_first 0 ps = ps.
Proof.
  intros Hwf. destruct ps as [|[l c] ps]; [done|]. pose proof (sched_wf_next _ _ _ Hwf).
  pose proof (wf_start _ _ Hwf). apply sched_wf_cons in Hwf as (Hl & _). simpl in *.
  by rewrite Z.add_0_r, i64_small by (unfold in_i64, MaxInt64 in *; lia).
Qed.

(** A new account is well-formed when both schedules sum up to its amount. *)
Lemma NewClawbackVestingAccount_wf baseAcc funder orig start lps vps :
  sched_wf start lps → sched_wf start vps →
  coins_valid orig → (∀ d, amount_sum lps d = AmountOf orig d) → (∀ d, amount_sum vps d = AmountOf orig d) →
  let va := NewClawbackVestingAccount baseAcc funder orig start lps vps in
  account_wf va ∧ va_StartTime va = start ∧ va_LockupPeriods va = lps ∧ va_VestingPeriods va = vps ∧
  va_EndTime va = Z.max (start + length_sum lps) (start + length_sum vps) ∧
  va_OriginalVesting va = orig.
Proof.
  intros HwL HwV Ho HL HV. unfold NewClawbackVestingAccount, AlignSchedules.
  rewrite Min64_min, Max64_max, Z.min_id, Z.sub_diag.
  change (i64 0) with 0. rewrite !(extend_first_zero start), !total_length_end by done. simpl.
  split; [|done]. split; unfold va_EndTime, va_OriginalVesting; simpl; (split; try done; lia).
Qed.
End Properties.

(** ** Witnesses *)

Section Witnesses.
Import MapCoins.

#[local] Instance plain_base : BaseVesting unit := {
  LockedCoinsFromVesting _ c := c;
  bva_TrackDelegation b _ _ _ := Ok b;
  bva_Validate _ := None
}.

(** 30 aego, vesting as [sched_a], all of it locked up to time 108. *)
Definition toy_account : ClawbackVestingAccount unit :=
  mkClawback (mkBaseVesting _ _ tt (aego 30) NewCoins NewCoins 110) "funder" 100
    [mkPeriod _ 8 (aego 30)] sched_a.

Lemma toy_account_wf : account_wf toy_account.
Proof.
  split; [|apply sched_a_complete].
  split; [split|..]; try done; try (by repeat constructor; try apply coin_valid).
  intros d. cbn. lia.
Qed.

Lemma account_reads_total_witness :
  ∃ c, GetVestingCoins toy_account 107 = Ok c ∧ aego 30 ≡ coins_Add (GetVestedCoins toy_account 107) c.
Proof.
  destruct (account_reads_total toy_account 107 toy_account_wf) as (_ & _ & c & Hc & _ & Heq & _).
  exists c. split; [exact Hc|exact Heq].
Defined.

Lemma clawback_splits_account_witness :
  ∃ va' c, ComputeClawback toy_account 107 = Ok (va', c) ∧ account_wf va' ∧
    AmountOf (va_OriginalVesting va') "aego" = 10.
Proof.
  destruct (clawback_splits_account toy_account 107 toy_account_wf)
    as (va' & c & Hc & Hwf & _ & _ & Ho & _).
  exists va', c. split; [exact Hc|]. split; [exact Hwf|]. rewrite (Ho "aego"%string). reflexivity.
Defined.

Lemma validate_iff_wf_witness : Validate toy_account = None.
Proof.
  destruct toy_account_wf as [HL HV].
  apply (validate_iff_wf toy_account (cp_wf _ _ _ _ HL) (cp_wf _ _ _ _ HV) (cp_valid _ _ _ _ HL)).
  split; [split; [exact HL|exact HV]|]. split; [reflexivity|reflexivity].
Defined.
End Witnesses.
