(* ===== verification/VestingKeeper.v ===== *)
(** * The vesting keeper: [x/vesting/keeper] and the messages of [x/vesting/types/msg.go]

    The keeper's own store is two sets of addresses (accounts exempt from
    governance clawback, accounts under an active clawback proposal); accounts,
    balances, delegations and proposals belong to other modules and are reached
    through [VestingEnv].  A handler returns the new state or an error; the SDK
    discards the writes of a message that fails.  Addresses are 20 bytes, written
    as integers; telemetry, events and logs are left out. *)

From S2P Require Import Prelude Sdk Schedule ScheduleSpec ClawbackAccount.

(** ** Accounts and the other modules *)

(** The account types the module tells apart; [CodeHash] is the hex string of the account. *)
Inductive AccountI `{Coins} {base other : Type} :=
| EthAccount (acc : base) (CodeHash : string)
| ClawbackAccount (va : ClawbackVestingAccount base)
| OtherAccount (acc : other).
Arguments AccountI {_} base other.

(** A governance proposal, as far as the hooks look at it: the messages it unpacks
    to ([None] for a message that is not a clawback), or an error of [GetMsgs]. *)
Record ClawbackProposal := mkClawbackProposal {
  cp_Address : string;
  cp_DestinationAddress : string
}.

Record Proposal `{Coins} := mkProposal {
  prop_msgs : option (list (option ClawbackProposal));
  prop_TotalDeposit : coins
}.

Class VestingEnv `{Coins} := {
  base : Type;
  other : Type;
  world : Type;
  sdk_error : Type;
  base_address : base → Z;
  other_address : other → Z;
  AccAddressFromBech32 : string → option Z;
  acc_String : Z → string;
  emptyCodeHashHex : string;
  env_authority : Z;
  distribution_address : Z;
  BlockTime : world → Z;
  env_GetAccount : world → Z → option (AccountI base other);
  env_SetAccount : world → AccountI base other → world;
  BlockedAddr : Z → bool;
  SendCoins : world → Z → Z → coins → outcome sdk_error world;
  FundCommunityPool : world → coins → Z → outcome sdk_error world;
  GetDelegatorBonded : world → Z → Z;
  GetDelegatorUnbonding : world → Z → Z;
  BondDenom : world → string;
  GetProposal : world → Z → option Proposal;
  MinDeposit : world → coins
}.

Inductive vesting_error `{VestingEnv} :=
| ErrUnauthorized
| ErrInvalidRequest
| ErrInvalidAddress
| ErrInvalidCoins
| ErrUnknownAddress
| ErrVestingLockup
| ErrNotSubjectToClawback
| ErrNotSubjectToGovClawback
| ErrSdk (e : sdk_error).

Section Keeper.
Context `{VE : VestingEnv} `{!Periods} `{!BaseVesting base}.

Record vesting_state := mkVesting {
  v_world : world;
  v_govClawbackDisabled : gset Z;
  v_activeClawbackProposals : gset Z
}.

Abbreviation result A := (outcome vesting_error A).

Definition lift {A} (x : outcome sdk_error A) : result A :=
  match x with Ok a => Ok a | Err e => Err (ErrSdk e) | Panic => Panic end.

Definition lift_partial {A} (x : partial A) : result A :=
  match x with Ok a => Ok a | Err e => match e with end | Panic => Panic end.

(** The nil address [AccAddressFromBech32] returns with an error: no 20 bytes encode to
    a negative integer. *)
Definition nil_address : Z := -1.

(** [sdk.MustAccAddressFromBech32]. *)
Definition must_address (s : string) : result Z :=
  match AccAddressFromBech32 s with Some a => Ok a | None => Panic end.

Definition set_account (acc : AccountI base other) (s : vesting_state) : vesting_state :=
  mkVesting (env_SetAccount (v_world s) acc) (v_govClawbackDisabled s) (v_activeClawbackProposals s).

Definition set_world (w : world) (s : vesting_state) : vesting_state :=
  mkVesting w (v_govClawbackDisabled s) (v_activeClawbackProposals s).

(** [evmostypes.ProtoAccount] with the base account put in. *)
Definition eth_account (b : base) : AccountI base other := EthAccount b emptyCodeHashHex.

Definition va_address (va : ClawbackVestingAccount base) : Z := base_address (bva_BaseAccount (va_base va)).

(** ** Governance flags: [gov.go] *)

Definition HasGovClawbackDisabled (addr : Z) (s : vesting_state) : bool :=
  bool_decide (addr ∈ v_govClawbackDisabled s).

Definition SetGovClawbackDisabled (addr : Z) (s : vesting_state) : vesting_state :=
  mkVesting (v_world s) ({[addr]} ∪ v_govClawbackDisabled s) (v_activeClawbackProposals s).

Definition DeleteGovClawbackDisabled (addr : Z) (s : vesting_state) : vesting_state :=
  mkVesting (v_world s) (v_govClawbackDisabled s ∖ {[addr]}) (v_activeClawbackProposals s).

Definition HasActiveClawbackProposal (addr : Z) (s : vesting_state) : bool :=
  bool_decide (addr ∈ v_activeClawbackProposals s).

Definition SetActiveClawbackProposal (addr : Z) (s : vesting_state) : vesting_state :=
  mkVesting (v_world s) (v_govClawbackDisabled s) ({[addr]} ∪ v_activeClawbackProposals s).

Definition DeleteActiveClawbackProposal (addr : Z) (s : vesting_state) : vesting_state :=
  mkVesting (v_world s) (v_govClawbackDisabled s) (v_activeClawbackProposals s ∖ {[addr]}).

(** ** Messages: [types/msg.go] *)

Record MsgCreateClawbackVestingAccount := mkMsgCreate {
  mc_FunderAddress : string;
  mc_VestingAddress : string;
  mc_EnableGovClawback : bool
}.

Record MsgFundVestingAccount := mkMsgFund {
  mf_FunderAddress : string;
  mf_VestingAddress : string;
  mf_StartTime : Z;
  mf_LockupPeriods : list Period;
  mf_VestingPeriods : list Period
}.

Record MsgClawback := mkMsgClawback {
  mb_FunderAddress : string;
  mb_AccountAddress : string;
  mb_DestAddress : string
}.

Record MsgUpdateVestingFunder := mkMsgUpdateFunder {
  mu_FunderAddress : string;
  mu_NewFunderAddress : string;
  mu_VestingAddress : string
}.

Record MsgConvertVestingAccount := mkMsgConvert { mv_VestingAddress : string }.

(** A parsed address, or the error of [AccAddressFromBech32]. *)
Definition parse_address (s : string) : result Z :=
  match AccAddressFromBech32 s with Some a => Ok a | None => Err ErrInvalidAddress end.

Definition MsgCreate_ValidateBasic (msg : MsgCreateClawbackVestingAccount) : result () :=
  funderAcc ← parse_address (mc_FunderAddress msg);
  if decide (funderAcc = 0) then Err ErrInvalidAddress
  else
    vestingAcc ← parse_address (mc_VestingAddress msg);
    if decide (vestingAcc = 0) then Err ErrInvalidAddress else Ok ().

(** The loop over the periods of one schedule. *)
Fixpoint check_periods (acc : coins) (ps : list Period) : result coins :=
  match ps with
  | [] => Ok acc
  | p :: rest =>
      if period_Length p <? 1 then Err ErrInvalidRequest
      else if negb (IsValid (period_Amount p)) then Err ErrInvalidCoins
      else check_periods (coins_Add acc (period_Amount p)) rest
  end.

Definition MsgFund_ValidateBasic (msg : MsgFundVestingAccount) : result () :=
  _ ← parse_address (mf_FunderAddress msg);
  vestingAddr ← parse_address (mf_VestingAddress msg);
  if decide (vestingAddr = 0) then Err ErrInvalidAddress
  else
    lockupCoins ← check_periods NewCoins (mf_LockupPeriods msg);
    vestingCoins ← check_periods NewCoins (mf_VestingPeriods msg);
    if coins_Empty lockupCoins && coins_Empty vestingCoins then Err ErrInvalidRequest
    else if negb (bool_decide (mf_LockupPeriods msg = [])) && negb (bool_decide (mf_VestingPeriods msg = []))
            && negb (CoinEq lockupCoins vestingCoins) then Err ErrInvalidRequest
    else Ok ().

Definition MsgClawback_ValidateBasic (msg : MsgClawback) : result () :=
  _ ← parse_address (mb_FunderAddress msg);
  _ ← parse_address (mb_AccountAddress msg);
  if decide (mb_DestAddress msg = EmptyString) then Ok ()
  else _ ← parse_address (mb_DestAddress msg); Ok ().

Definition MsgUpdateFunder_ValidateBasic (msg : MsgUpdateVestingFunder) : result () :=
  _ ← parse_address (mu_FunderAddress msg);
  newFunderAddr ← parse_address (mu_NewFunderAddress msg);
  if decide (newFunderAddr = 0) then Err ErrInvalidAddress
  else if decide (mu_FunderAddress msg = mu_NewFunderAddress msg) then Err ErrInvalidRequest
  else _ ← parse_address (mu_VestingAddress msg); Ok ().

Definition MsgConvert_ValidateBasic (msg : MsgConvertVestingAccount) : result () :=
  _ ← parse_address (mv_VestingAddress msg); Ok ().

(** ** Handlers: [msg_server.go] *)

Definition GetClawbackVestingAccount (addr : Z) (s : vesting_state) :
    result (ClawbackVestingAccount base) :=
  match env_GetAccount (v_world s) addr with
  | None => Err ErrUnknownAddress
  | Some (ClawbackAccount va) => Ok va
  | Some _ => Err ErrNotSubjectToClawback
  end.

(** The zero [time.Time] of an account that is not funded yet. *)
Definition zero_time : Z := -62135596800.

Definition CreateClawbackVestingAccount (msg : MsgCreateClawbackVestingAccount) (s : vesting_state) :
    result vesting_state :=
  funderAddress ← must_address (mc_FunderAddress msg);
  vestingAddress ← must_address (mc_VestingAddress msg);
  if BlockedAddr vestingAddress then Err ErrUnauthorized
  else
    match env_GetAccount (v_world s) vestingAddress with
    | None => Err ErrInvalidRequest
    | Some (ClawbackAccount _) => Err ErrInvalidRequest
    | Some (OtherAccount _) => Err ErrInvalidRequest
    | Some (EthAccount baseAcc codeHash) =>
        if decide (codeHash ≠ emptyCodeHashHex) then Err ErrInvalidRequest
        else
          let vestingAcc :=
            mkClawback (mkBaseVesting _ _ baseAcc NewCoins NewCoins NewCoins 0)
              (acc_String funderAddress) zero_time [] [] in
          let s := set_account (ClawbackAccount vestingAcc) s in
          Ok (if mc_EnableGovClawback msg then s else SetGovClawbackDisabled (va_address vestingAcc) s)
    end.

(** [addGrant] returns the updated account. *)
Definition addGrant (va : ClawbackVestingAccount base) (grantStartTime : Z)
    (grantLockupPeriods grantVestingPeriods : list Period) (grantCoins : coins) (w : world) :
    result (ClawbackVestingAccount base) :=
  let accStartTime :=
    if bool_decide (va_LockupPeriods va = []) && bool_decide (va_VestingPeriods va = [])
    then grantStartTime else va_StartTime va in
  let vestingAddr := va_address va in
  let delegatedAmt := GetDelegatorBonded w vestingAddr + GetDelegatorUnbonding w vestingAddr in
  let delegated := NewCoin (BondDenom w) delegatedAmt in
  let '(newLockupStart, newLockupEnd, newLockupPeriods) :=
    DisjunctPeriods accStartTime grantStartTime (va_LockupPeriods va) grantLockupPeriods in
  let '(newVestingStart, newVestingEnd, newVestingPeriods) :=
    DisjunctPeriods accStartTime grantStartTime (va_VestingPeriods va) grantVestingPeriods in
  if decide (newLockupStart ≠ newVestingStart) then Err ErrVestingLockup
  else
    let b := va_base va in
    let endTime := Max64 newLockupEnd newVestingEnd in
    let original := coins_Add (bva_OriginalVesting b) grantCoins in
    let upd df dv :=
      mkClawback (mkBaseVesting _ _ (bva_BaseAccount b) original df dv endTime)
        (va_FunderAddress va) newLockupStart newLockupPeriods newVestingPeriods in
    unvested ← lift_partial
      (GetVestingCoins (upd (bva_DelegatedFree b) (bva_DelegatedVesting b)) (BlockTime w));
    let dv := coins_Min delegated unvested in
    df ← lift_partial (coins_Sub delegated dv);
    Ok (upd df dv).

(** The schedules with an absent one replaced by an instant one, and the coins granted. *)
Definition default_schedules (lockup vesting : list Period) : list Period * list Period * coins :=
  let vestingCoins := TotalAmount vesting in
  let lockupCoins := TotalAmount lockup in
  let '(lockup, lockupCoins) :=
    if negb (coins_IsZero vestingCoins) && bool_decide (lockup = [])
    then ([mkPeriod _ 0 vestingCoins], vestingCoins) else (lockup, lockupCoins) in
  if negb (coins_IsZero lockupCoins) && bool_decide (vesting = [])
  then (lockup, [mkPeriod _ 0 lockupCoins], lockupCoins) else (lockup, vesting, vestingCoins).

Definition FundVestingAccount (msg : MsgFundVestingAccount) (s : vesting_state) : result vesting_state :=
  funderAddr ← must_address (mf_FunderAddress msg);
  vestingAddr ← must_address (mf_VestingAddress msg);
  if BlockedAddr vestingAddr then Err ErrUnauthorized
  else
    vestingAcc ← GetClawbackVestingAccount vestingAddr s;
    let '(lockup, vesting, vestingCoins) :=
      default_schedules (mf_LockupPeriods msg) (mf_VestingPeriods msg) in
    if decide (mf_FunderAddress msg ≠ va_FunderAddress vestingAcc) then Err ErrInvalidRequest
    else
      vestingAcc ← addGrant vestingAcc (mf_StartTime msg) lockup vesting vestingCoins (v_world s);
      let s := set_account (ClawbackAccount vestingAcc) s in
      w ← lift (SendCoins (v_world s) funderAddr vestingAddr vestingCoins);
      Ok (set_world w s).

Definition transferClawback (vestingAccount : ClawbackVestingAccount base) (destinationAddr : Z)
    (s : vesting_state) : result (coins * vesting_state) :=
  '(updatedAcc, toClawBack) ←
    lift_partial (ComputeClawback vestingAccount (BlockTime (v_world s)));
  let s := set_account (eth_account (bva_BaseAccount (va_base updatedAcc))) s in
  let address := va_address updatedAcc in
  let s := DeleteGovClawbackDisabled address s in
  if decide (destinationAddr = distribution_address) then
    w ← lift (FundCommunityPool (v_world s) toClawBack address); Ok (toClawBack, set_world w s)
  else
    w ← lift (SendCoins (v_world s) address destinationAddr toClawBack); Ok (toClawBack, set_world w s).

Definition Clawback (msg : MsgClawback) (s : vesting_state) : result (coins * vesting_state) :=
  addr ← must_address (mb_AccountAddress msg);
  funder ← must_address (mb_FunderAddress msg);
  let dest := if decide (mb_DestAddress msg = EmptyString) then funder
              else default nil_address (AccAddressFromBech32 (mb_DestAddress msg)) in
  let by_authority := bool_decide (mb_FunderAddress msg = acc_String env_authority) in
  if negb by_authority && HasActiveClawbackProposal addr s then Err ErrUnauthorized
  else if negb by_authority && BlockedAddr dest then Err ErrUnauthorized
  else
    va ← GetClawbackVestingAccount addr s;
    if bool_decide (va_VestingPeriods va = []) && bool_decide (va_LockupPeriods va = [])
    then Err ErrInvalidRequest
    else if (by_authority : bool) then
      if HasGovClawbackDisabled addr s then Err ErrNotSubjectToGovClawback
      else transferClawback va distribution_address s
    else if decide (va_FunderAddress va ≠ mb_FunderAddress msg) then Err ErrUnauthorized
    else transferClawback va dest s.

Definition with_funder (f : string) (va : ClawbackVestingAccount base) : ClawbackVestingAccount base :=
  mkClawback (va_base va) f (va_StartTime va) (va_LockupPeriods va) (va_VestingPeriods va).

Definition UpdateVestingFunder (msg : MsgUpdateVestingFunder) (s : vesting_state) : result vesting_state :=
  newFunder ← must_address (mu_NewFunderAddress msg);
  vestingAccAddr ← must_address (mu_VestingAddress msg);
  if HasActiveClawbackProposal vestingAccAddr s then Err ErrUnauthorized
  else if BlockedAddr newFunder then Err ErrUnauthorized
  else
    va ← GetClawbackVestingAccount vestingAccAddr s;
    if decide (va_FunderAddress va ≠ mu_FunderAddress msg) then Err ErrUnauthorized
    else Ok (set_account (ClawbackAccount (with_funder (mu_NewFunderAddress msg) va)) s).

Definition ConvertVestingAccount (msg : MsgConvertVestingAccount) (s : vesting_state) : result vesting_state :=
  address ← must_address (mv_VestingAddress msg);
  vestingAcc ← GetClawbackVestingAccount address s;
  vesting ← lift_partial (GetVestingCoins vestingAcc (BlockTime (v_world s)));
  if negb (coins_IsZero vesting) then Err ErrInvalidRequest
  else Ok (set_account (eth_account (bva_BaseAccount (va_base vestingAcc)))
             (DeleteGovClawbackDisabled address s)).

(** ** Governance: [proposal_handler.go] and [hooks.go] *)

Definition HandleClawbackProposal (p : ClawbackProposal) (s : vesting_state) : result vesting_state :=
  '(_, s) ← Clawback (mkMsgClawback (acc_String env_authority) (cp_Address p) (cp_DestinationAddress p)) s;
  Ok s.

(** [None] is the error the hooks log. *)
Definition getClawbackProposals (proposal : Proposal) : option (list ClawbackProposal) :=
  match prop_msgs proposal with
  | None => None
  | Some [] => None
  | Some msgs => Some (omap id msgs)
  end.

Fixpoint for_proposals (f : Z → vesting_state → vesting_state) (l : list ClawbackProposal)
    (s : vesting_state) : result vesting_state :=
  match l with
  | [] => Ok s
  | p :: rest => a ← must_address (cp_Address p); for_proposals f rest (f a s)
  end.

Definition AfterProposalDeposit (proposalID : Z) (s : vesting_state) : result vesting_state :=
  match GetProposal (v_world s) proposalID with
  | None => Ok s
  | Some proposal =>
      match getClawbackProposals proposal with
      | None => Ok s
      | Some [] => Ok s
      | Some clawbackProposals =>
          if IsAllLT (prop_TotalDeposit proposal) (MinDeposit (v_world s)) then Ok s
          else for_proposals SetActiveClawbackProposal clawbackProposals s
      end
  end.

Definition AfterProposalVotingPeriodEnded (proposalID : Z) (s : vesting_state) : result vesting_state :=
  match GetProposal (v_world s) proposalID with
  | None => Ok s
  | Some proposal =>
      match getClawbackProposals proposal with
      | None => Ok s
      | Some [] => Ok s
      | Some clawbackProposals => for_proposals DeleteActiveClawbackProposal clawbackProposals s
      end
  end.

(** ** Query: [grpc_query.go] *)

Definition Balances (address : string) (s : vesting_state) : result (coins * coins * coins) :=
  match AccAddressFromBech32 address with
  | None => Err ErrInvalidAddress
  | Some addr =>
      match GetClawbackVestingAccount addr s with
      | Ok va =>
          let t := BlockTime (v_world s) in
          locked ← lift_partial (GetLockedOnly va t);
          unvested ← lift_partial (GetUnvestedOnly va t);
          Ok (locked, unvested, GetVestedOnly va t)
      | _ => Err ErrInvalidRequest
      end
  end.
End Keeper.
