(* ===== verification/VestingSafety.v ===== *)
(** * Safety of the vesting keeper

    Who may claw back and what a clawback moves, what a grant adds to an account,
    and the invariant that every clawback account in the store is well-formed or
    still unfunded, kept by every handler. *)

From Stdlib Require Import Ascii.
From S2P Require Import Prelude Sdk Schedule ScheduleSpec ClawbackAccount VestingKeeper.

Definition account_address `{VestingEnv} (acc : AccountI base other) : Z :=
  match acc with
  | EthAccount b _ => base_address b
  | ClawbackAccount va => va_address va
  | OtherAccount o => other_address o
  end.

Definition is_clawback `{VestingEnv} (acc : AccountI base other) : bool :=
  match acc with ClawbackAccount _ => true | _ => false end.

(** What the module relies on of the others: accounts are stored under their
    address, transfers of coins leave existing accounts alone and create no
    clawback account, addresses are read back from their text. *)
Class VestingEnvLaws `{VestingEnv} : Prop := {
  law_get_set w acc a :
    env_GetAccount (env_SetAccount w acc) a =
    if decide (account_address acc = a) then Some acc else env_GetAccount w a;
  law_get_address w a acc : env_GetAccount w a = Some acc → account_address acc = a;
  law_SendCoins w from to c w' a :
    SendCoins w from to c = Ok w' →
    env_GetAccount w' a = env_GetAccount w a ∨
    (env_GetAccount w a = None ∧ ∀ acc, env_GetAccount w' a = Some acc → is_clawback acc = false);
  law_FundCommunityPool w c from w' a :
    FundCommunityPool w c from = Ok w' →
    env_GetAccount w' a = env_GetAccount w a ∨
    (env_GetAccount w a = None ∧ ∀ acc, env_GetAccount w' a = Some acc → is_clawback acc = false);
  law_bech32 a : AccAddressFromBech32 (acc_String a) = Some a;
  law_delegated w a : 0 <= GetDelegatorBonded w a ∧ 0 <= GetDelegatorUnbonding w a
}.

Section Safety.
Context `{CL : CoinsLaws} `{VE : !VestingEnv} `{VL : !VestingEnvLaws} `{P : !Periods} `{PL : !PeriodsLaws}
  `{BV : !BaseVesting base}.

Lemma GetClawback_inv a s va :
  GetClawbackVestingAccount a s = Ok va → env_GetAccount (v_world s) a = Some (ClawbackAccount va).
Proof. unfold GetClawbackVestingAccount. intros Hg. case_guards Hg. by simplify_eq. Qed.

Lemma must_address_inv x a : must_address x = Ok a → AccAddressFromBech32 x = Some a.
Proof. unfold must_address. intros Hm. case_guards Hm. by simplify_eq. Qed.

Lemma lift_inv {A} (x : outcome sdk_error A) a : lift x = Ok a → x = Ok a.
Proof. destruct x; simpl; congruence. Qed.

Lemma lift_partial_inv {A} (x : partial A) a : lift_partial x = Ok a → x = Ok a.
Proof. destruct x as [|[]|]; simpl; congruence. Qed.

(** ** Clawback *)

Lemma ComputeClawback_inv (va : ClawbackVestingAccount base) t va' c :
  ComputeClawback va t = Ok (va', c) →
  GetUnvestedOnly va t = Ok c ∧ bva_BaseAccount (va_base va') = bva_BaseAccount (va_base va).
Proof.
  unfold ComputeClawback. intros Hc. inv_bind Hc. inv_bind Hc. destruct a0 as [[s e] ps]. by simplify_eq.
Qed.

(** What a transfer changes: the clawed-back account only, among those that exist. *)
Definition accounts_kept (w w' : world) : Prop :=
  ∀ a, env_GetAccount w' a = env_GetAccount w a ∨
       (env_GetAccount w a = None ∧ ∀ acc, env_GetAccount w' a = Some acc → is_clawback acc = false).

Lemma accounts_kept_some w w' a acc :
  accounts_kept w w' → env_GetAccount w a = Some acc → env_GetAccount w' a = Some acc.
Proof. intros Hk Ha. destruct (Hk a) as [->|[Hn _]]; [done|congruence]. Qed.

Lemma transferClawback_inv (va : ClawbackVestingAccount base) dest s c s' :
  transferClawback va dest s = Ok (c, s') →
  GetUnvestedOnly va (BlockTime (v_world s)) = Ok c ∧
  v_govClawbackDisabled s' = v_govClawbackDisabled s ∖ {[va_address va]} ∧
  v_activeClawbackProposals s' = v_activeClawbackProposals s ∧
  let w1 := env_SetAccount (v_world s) (eth_account (bva_BaseAccount (va_base va))) in
  accounts_kept w1 (v_world s') ∧
  if decide (dest = distribution_address)
  then FundCommunityPool w1 c (va_address va) = Ok (v_world s')
  else SendCoins w1 (va_address va) dest c = Ok (v_world s').
Proof.
  unfold transferClawback. intros Ht. inv_bind Ht. destruct a as [va' c'].
  apply lift_partial_inv, ComputeClawback_inv in Ht_1 as [Hu Hb].
  unfold va_address in *. rewrite Hb in Ht. simpl in Ht.
  case_decide; inv_bind Ht; apply lift_inv in Ht_1; simplify_eq; simpl;
    (split; [done|]); (split; [done|]); (split; [done|]); (split; [|done]); intros b.
  - by eapply law_FundCommunityPool.
  - by eapply law_SendCoins.
Qed.

(** C20.  A clawback that succeeds was asked by the funder of the account, with no
    clawback proposal pending and to a destination that may receive funds, or by
    governance for an account that did not opt out; it moves exactly the coins
    unvested at the block time, to the destination or to the community pool, and
    the account becomes a plain account without schedule or opt-out entry. *)
Theorem clawback_is_authorised msg s c s' :
  Clawback msg s = Ok (c, s') →
  ∃ addr va, AccAddressFromBech32 (mb_AccountAddress msg) = Some addr ∧
    env_GetAccount (v_world s) addr = Some (ClawbackAccount va) ∧
    GetUnvestedOnly va (BlockTime (v_world s)) = Ok c ∧
    env_GetAccount (v_world s') addr = Some (eth_account (bva_BaseAccount (va_base va))) ∧
    (addr ∉ v_govClawbackDisabled s') ∧
    let w1 := env_SetAccount (v_world s) (eth_account (bva_BaseAccount (va_base va))) in
    ((mb_FunderAddress msg = acc_String env_authority ∧ (addr ∉ v_govClawbackDisabled s) ∧
      FundCommunityPool w1 c addr = Ok (v_world s')) ∨
     (mb_FunderAddress msg = va_FunderAddress va ∧ (addr ∉ v_activeClawbackProposals s) ∧
      ∃ dest, BlockedAddr dest = false ∧
        (mb_DestAddress msg = EmptyString → AccAddressFromBech32 (mb_FunderAddress msg) = Some dest) ∧
        (∀ d, mb_DestAddress msg ≠ EmptyString →
           AccAddressFromBech32 (mb_DestAddress msg) = Some d → dest = d) ∧
        if decide (dest = distribution_address) then FundCommunityPool w1 c addr = Ok (v_world s')
        else SendCoins w1 addr dest c = Ok (v_world s'))).
Proof.
  unfold Clawback. intros Hc. inv_bind Hc. rename a into addr. inv_bind Hc. rename a into funder.
  apply must_address_inv in Hc_1, Hc_0. set (dest := if decide _ then _ else _) in Hc.
  assert (∀ va dest, env_GetAccount (v_world s) addr = Some (ClawbackAccount va) →
    transferClawback va dest s = Ok (c, s') →
    GetUnvestedOnly va (BlockTime (v_world s)) = Ok c ∧
    env_GetAccount (v_world s') addr = Some (eth_account (bva_BaseAccount (va_base va))) ∧
    (addr ∉ v_govClawbackDisabled s') ∧
    let w1 := env_SetAccount (v_world s) (eth_account (bva_BaseAccount (va_base va))) in
    if decide (dest = distribution_address) then FundCommunityPool w1 c addr = Ok (v_world s')
    else SendCoins w1 addr dest c = Ok (v_world s')) as Htr.
  { intros va d Hva (Hu & Hg & _ & Hk & Ht)%transferClawback_inv.
    pose proof (law_get_address _ _ _ Hva) as Haddr. simpl in Haddr. rewrite Haddr in *.
    split; [done|]. split; [|split; [set_solver|done]]. eapply accounts_kept_some; [done|].
    rewrite law_get_set. simpl. unfold va_address in Haddr. by rewrite Haddr, decide_True. }
  destruct (bool_decide_reflect (mb_FunderAddress msg = acc_String env_authority)) as [Hau|Hau]; simpl in Hc.
  - inv_bind Hc. apply GetClawback_inv in Hc_2. rename a into va. exists addr, va.
    destruct (_ && _); [done|]. unfold HasGovClawbackDisabled in Hc. case_bool_decide; [done|].
    destruct (Htr _ _ Hc_2 Hc) as (Hu & Ha & Hg & Ht). rewrite decide_True in Ht by done.
    repeat (split; [done|]). left. done.
  - unfold HasActiveClawbackProposal in Hc. case_bool_decide; [done|].
    destruct (BlockedAddr dest) eqn:Hbl; [done|]. inv_bind Hc. apply GetClawback_inv in Hc_2.
    rename a into va. exists addr, va. destruct (_ && _); [done|].
    case_decide as Hf; [done|].
    destruct (Htr _ _ Hc_2 Hc) as (Hu & Ha & Hg & Ht).
    repeat (split; [done|]). right. split; [done|]. split; [done|]. exists dest. split; [done|].
    unfold dest. split; [intros He; by rewrite decide_True|].
    split; [|done]. intros d He ->. by rewrite decide_False.
Qed.

(** ** Grants *)

(** An account as [CreateClawbackVestingAccount] leaves it. *)
Definition unfunded (va : ClawbackVestingAccount base) : Prop :=
  va_LockupPeriods va = [] ∧ va_VestingPeriods va = [] ∧
  coins_valid (va_OriginalVesting va) ∧ ∀ d, AmountOf (va_OriginalVesting va) d = 0.

Definition account_ok (va : ClawbackVestingAccount base) : Prop := account_wf va ∨ unfunded va.

(** The two schedules of a grant from [start] release [total]. *)
Record grant_ok (start : Z) (lockup vesting : list Period) (total : coins) : Prop := {
  go_lockup : complete start (start + length_sum lockup) lockup total;
  go_vesting : complete start (start + length_sum vesting) vesting total
}.

(** The start time [addGrant] gives the old schedules. *)
Definition grant_start (va : ClawbackVestingAccount base) (start : Z) : Z :=
  if bool_decide (va_LockupPeriods va = []) && bool_decide (va_VestingPeriods va = [])
  then start else va_StartTime va.

Lemma complete_nil start total :
  0 <= start <= MaxInt64 → coins_valid total → (∀ d, AmountOf total d = 0) →
  complete start start [] total.
Proof. intros [] ??. split; [split; [done|constructor|constructor|simpl; lia]|simpl; lia|done|done]. Qed.

Lemma account_ok_schedules va start :
  account_ok va → 0 <= start <= MaxInt64 →
  ∃ e, complete (grant_start va start) e (va_LockupPeriods va) (va_OriginalVesting va) ∧
       complete (grant_start va start) e (va_VestingPeriods va) (va_OriginalVesting va).
Proof.
  intros Hok Hs. unfold grant_start.
  destruct (bool_decide_reflect (va_LockupPeriods va = [])) as [HL|];
    destruct (bool_decide_reflect (va_VestingPeriods va = [])) as [HV|]; simpl;
    try (destruct Hok as [[]|(? & ? & _)]; [eauto|congruence]).
  exists start. rewrite HL, HV.
  destruct Hok as [[[_ _ Hv Ht] _]|(_ & _ & Hv & Ht)]; [|split; by apply complete_nil].
  rewrite HL in Ht. split; by apply complete_nil.
Qed.

Lemma addGrant_spec va start lockup vesting total w :
  account_ok va → grant_ok start lockup vesting total →
  ∃ va', addGrant va start lockup vesting total w = Ok va' ∧ account_wf va' ∧
    va_address va' = va_address va ∧ va_FunderAddress va' = va_FunderAddress va ∧
    va_OriginalVesting va' ≡ coins_Add (va_OriginalVesting va) total ∧
    va_StartTime va' = Z.min (grant_start va start) start ∧
    (∀ t d, value_at t (va_StartTime va') (va_VestingPeriods va') d =
       value_at t (grant_start va start) (va_VestingPeriods va) d + value_at t start vesting d) ∧
    (∀ t d, value_at t (va_StartTime va') (va_LockupPeriods va') d =
       value_at t (grant_start va start) (va_LockupPeriods va) d + value_at t start lockup d).
Proof.
  intros Hok [HgL HgV].
  assert (0 <= start <= MaxInt64) as Hs.
  { pose proof (cp_wf _ _ _ _ HgL) as Hw. split; [apply Hw|by eapply sched_wf_range]. }
  destruct (account_ok_schedules va start Hok Hs) as (e & HaL & HaV).
  set (orig := coins_Add (bva_OriginalVesting (va_base va)) total).
  assert (coins_valid orig) as Ho by (apply Add_valid; [apply HaL|apply HgL]).
  pose proof (disjunct_complete _ _ _ _ _ _ _ _ orig HaL HgL ltac:(done) Ho) as HdL.
  pose proof (disjunct_complete _ _ _ _ _ _ _ _ orig HaV HgV ltac:(done) Ho) as HdV.
  unfold addGrant. fold (grant_start va start). cbv zeta. fold orig.
  destruct (DisjunctPeriods _ _ (va_LockupPeriods va) lockup) as [[sL eL] psL].
  destruct (DisjunctPeriods _ _ (va_VestingPeriods va) vesting) as [[sV eV] psV].
  destruct HdL as (HsL & _ & HcL & HvL). destruct HdV as (HsV & _ & HcV & HvV).
  rewrite decide_False by (intros Hne; apply Hne; congruence). rewrite Max64_max.
  assert (∀ df dv, account_wf (mkClawback (mkBaseVesting _ _ (bva_BaseAccount (va_base va)) orig df dv
    (Z.max eL eV)) (va_FunderAddress va) sL psL psV)) as Hwf.
  { intros df dv. split; unfold va_EndTime, va_OriginalVesting; simpl.
    - eapply complete_extend; [done|lia].
    - rewrite HsL, <-HsV. eapply complete_extend; [done|lia]. }
  destruct (GetVestingCoins_ok _ (BlockTime w)
    (Hwf (bva_DelegatedFree (va_base va)) (bva_DelegatedVesting (va_base va)))) as (c & -> & Hc & _).
  cbn [lift_partial mbind outcome_bind].
  destruct (law_delegated w (va_address va)).
  set (dl := NewCoin _ _). assert (coins_valid dl) as Hdl by (apply NewCoin_valid; lia).
  destruct (Sub_ok dl (coins_Min dl c) Hdl) as (df & -> & _); [by apply Min_valid| |].
  { intros d. rewrite AmountOf_Min by done. lia. }
  eexists. split; [done|]. split; [apply Hwf|]. simpl. repeat (split; [done|]).
  split; [|done]. rewrite HsL, <-HsV. done.
Qed.

(** What [ValidateBasic] has checked of a list of periods. *)
Lemma check_periods_spec acc ps c :
  coins_valid acc → check_periods acc ps = Ok c →
  Forall (λ p, 1 <= period_Length p) ps ∧ Forall (λ p, coins_valid (period_Amount p)) ps ∧
  coins_valid c ∧ ∀ d, AmountOf c d = AmountOf acc d + amount_sum ps d.
Proof.
  revert acc. induction ps as [|p ps IH]; intros acc Hacc; simpl.
  { intros [= <-]. split; [done|]. split; [done|]. split; [done|]. intros. lia. }
  destruct (Z.ltb_spec (period_Length p) 1); [done|]. destruct (IsValid (period_Amount p)) eqn:Hv; [|done].
  intros (H1 & H2 & H3 & H4)%IH; [|by apply Add_valid].
  split; [by constructor|]. split; [by constructor|]. split; [done|]. intros d.
  rewrite H4, AmountOf_Add by done. lia.
Qed.

(** The times of the message stay in the range of [int64]; [ValidateBasic] does not check this. *)
Definition fund_in_range (msg : MsgFundVestingAccount) : Prop :=
  0 <= mf_StartTime msg ∧
  mf_StartTime msg + length_sum (mf_LockupPeriods msg) <= MaxInt64 ∧
  mf_StartTime msg + length_sum (mf_VestingPeriods msg) <= MaxInt64.

Lemma checked_complete start ps total :
  0 <= start → start + length_sum ps <= MaxInt64 →
  Forall (λ p, 1 <= period_Length p) ps → Forall (λ p, coins_valid (period_Amount p)) ps →
  coins_valid total → (∀ d, AmountOf total d = amount_sum ps d) →
  complete start (start + length_sum ps) ps total.
Proof.
  intros Hs He Hl Ha Hv Ht. split; [split|..]; try done; try lia.
  eapply Forall_impl; [exact Hl|]. simpl. lia.
Qed.

Lemma instant_complete start total :
  0 <= start <= MaxInt64 → coins_valid total →
  complete start (start + length_sum [mkPeriod _ 0 total]) [mkPeriod _ 0 total] total.
Proof.
  intros Hs Hv. split; [split|..]; simpl; try done; try lia; by repeat constructor.
Qed.

Lemma TotalAmount_zero ps :
  Forall (λ p, coins_valid (period_Amount p)) ps →
  coins_IsZero (TotalAmount ps) = true ↔ ∀ d, amount_sum ps d = 0.
Proof.
  intros Hps. rewrite IsZero_spec by (by apply TotalAmount_valid).
  split; intros Hz d; specialize (Hz d); rewrite TotalAmount_sum in * by done; done.
Qed.

(** The schedules [FundVestingAccount] works with are those of a grant. *)
Lemma default_schedules_ok msg :
  MsgFund_ValidateBasic msg = Ok () → fund_in_range msg →
  let '(lockup, vesting, total) := default_schedules (mf_LockupPeriods msg) (mf_VestingPeriods msg) in
  grant_ok (mf_StartTime msg) lockup vesting total.
Proof.
  unfold MsgFund_ValidateBasic. intros Hv (Hs & HrL & HrV). inv_bind Hv. inv_bind Hv.
  case_decide; [done|]. inv_bind Hv. rename a1 into cL. inv_bind Hv. rename a1 into cV.
  apply check_periods_spec in Hv_2 as (HlL & HaL & HvL & HsL); [|apply NewCoins_valid].
  apply check_periods_spec in Hv_3 as (HlV & HaV & HvV & HsV); [|apply NewCoins_valid].
  setoid_rewrite AmountOf_NewCoins in HsL. setoid_rewrite AmountOf_NewCoins in HsV.
  destruct (coins_Empty cL && coins_Empty cV) eqn:Hne; [done|].
  assert (¬ ((∀ d, amount_sum (mf_LockupPeriods msg) d = 0) ∧ (∀ d, amount_sum (mf_VestingPeriods msg) d = 0)))
    as Hnz.
  { intros [Hz1 Hz2]. apply andb_false_iff in Hne as [Hne|Hne]; apply not_true_iff_false in Hne;
      apply Hne, Empty_spec; try done; intros d; [rewrite HsL, Hz1|rewrite HsV, Hz2]; done. }
  pose proof (length_sum_nonneg (mf_LockupPeriods msg) ltac:(eapply Forall_impl; [exact HlL|]; simpl; lia)).
  assert (0 <= mf_StartTime msg <= MaxInt64) as Hrange by lia.
  pose proof (TotalAmount_valid _ HaL) as HtL. pose proof (TotalAmount_valid _ HaV) as HtV.
  pose proof (TotalAmount_zero _ HaL) as HzL. pose proof (TotalAmount_zero _ HaV) as HzV.
  pose proof (λ d, TotalAmount_sum _ d HaL) as HamL. pose proof (λ d, TotalAmount_sum _ d HaV) as HamV.
  unfold default_schedules.
  destruct (bool_decide_reflect (mf_LockupPeriods msg = [])) as [HL|HL];
    destruct (bool_decide_reflect (mf_VestingPeriods msg = [])) as [HV|HV]; rewrite ?andb_true_r, ?andb_false_r.
  - exfalso. apply Hnz. by rewrite HL, HV.
  - destruct (coins_IsZero (TotalAmount (mf_VestingPeriods msg))) eqn:Hz; simpl.
    { exfalso. apply Hnz. split; [by rewrite HL|by apply HzV]. }
    rewrite ?andb_false_r. split; [by apply instant_complete|by apply checked_complete].
  - destruct (coins_IsZero (TotalAmount (mf_LockupPeriods msg))) eqn:Hz; simpl.
    { exfalso. apply Hnz. split; [by apply HzL|by rewrite HV]. }
    rewrite ?Hz. simpl. split; [by apply checked_complete|by apply instant_complete].
  - rewrite ?andb_false_r. simpl in Hv. destruct (CoinEq cL cV) eqn:Heq; [|done]. apply CoinEq_spec in Heq; [|done..].
    split; apply checked_complete; try done. intros d. specialize (Heq d). rewrite HsL, HsV in Heq.
    rewrite HamV. lia.
Qed.

(** After the start the old schedule reads as its step function. *)
Lemma GetVestedOnly_grant va start t d :
  account_ok va → grant_start va start < t →
  AmountOf (GetVestedOnly va t) d = value_at t (grant_start va start) (va_VestingPeriods va) d.
Proof.
  intros Hok Ht. unfold grant_start in *.
  assert (va_LockupPeriods va = [] ∧ va_VestingPeriods va = [] → AmountOf (GetVestedOnly va t) d = 0) as Hnil.
  { intros [HL HV]. destruct Hok as [Hwf|(_ & _ & Hv & Hz)].
    - destruct (GetVestedOnly_le va t Hwf) as [Hv Hle]. pose proof (valid_nonneg _ d Hv). specialize (Hle d).
      rewrite (cp_total _ _ _ _ (awf_vesting _ Hwf)), HV in Hle. simpl in Hle. lia.
    - unfold GetVestedOnly, ReadSchedule. rewrite HV. simpl.
      destruct (_ <=? _); [apply AmountOf_NewCoins|]. destruct (_ <=? _); [done|apply AmountOf_NewCoins]. }
  destruct (bool_decide_reflect (va_LockupPeriods va = [])) as [HL|];
    destruct (bool_decide_reflect (va_VestingPeriods va = [])) as [HV|]; simpl in *;
    try (destruct Hok as [[_ Hwf]|(? & ? & _)]; [|congruence];
         unfold GetVestedOnly; rewrite ReadSchedule_value by done; unfold read_value;
         by rewrite (proj2 (Z.leb_gt t _)) by done).
  rewrite HV. simpl. by apply Hnil.
Qed.

(** Funding an account with a message that passed [ValidateBasic], by its
    funder, can only fail in the bank transfer.  It grants the coins of the
    message: the account stays well-formed, its amount grows by the coins, and
    after both start times it has vested what the old schedule and the grant have. *)
Theorem fund_adds_grant msg s funder addr va :
  MsgFund_ValidateBasic msg = Ok () → fund_in_range msg →
  AccAddressFromBech32 (mf_FunderAddress msg) = Some funder →
  AccAddressFromBech32 (mf_VestingAddress msg) = Some addr → BlockedAddr addr = false →
  env_GetAccount (v_world s) addr = Some (ClawbackAccount va) → account_ok va →
  va_FunderAddress va = mf_FunderAddress msg →
  let '(_, vesting, total) := default_schedules (mf_LockupPeriods msg) (mf_VestingPeriods msg) in
  ∃ va', account_wf va' ∧ va_address va' = addr ∧
    va_OriginalVesting va' ≡ coins_Add (va_OriginalVesting va) total ∧
    (∀ t, grant_start va (mf_StartTime msg) < t → mf_StartTime msg < t →
       GetVestedOnly va' t ≡ coins_Add (GetVestedOnly va t)
         (ReadSchedule (mf_StartTime msg) (mf_StartTime msg + length_sum vesting) vesting total t)) ∧
    FundVestingAccount msg s =
      (w ← lift (SendCoins (env_SetAccount (v_world s) (ClawbackAccount va')) funder addr total);
       Ok (mkVesting w (v_govClawbackDisabled s) (v_activeClawbackProposals s))).
Proof.
  intros Hvb Hr Hf Ha Hbl Hacc Hok Hfu. pose proof (default_schedules_ok msg Hvb Hr) as Hgr.
  unfold FundVestingAccount, must_address, GetClawbackVestingAccount. rewrite Hf, Ha. simpl.
  rewrite Hbl, Hacc. simpl.
  destruct (default_schedules _ _) as [[lockup vesting] total].
  rewrite decide_False by (intros Hne; apply Hne; done).
  destruct (addGrant_spec va (mf_StartTime msg) lockup vesting total (v_world s) Hok Hgr)
    as (va' & -> & Hwf & Haddr & _ & Horig & Hst & Hvest & _).
  pose proof (law_get_address _ _ _ Hacc) as Hva. simpl in Hva.
  exists va'. split; [done|]. split; [congruence|]. split; [done|]. split; [|done].
  intros t Ht1 Ht2 d. pose proof (go_vesting _ _ _ _ Hgr) as Hg.
  assert (coins_valid (GetVestedOnly va t)) as Hv.
  { unfold GetVestedOnly. destruct Hok as [[_ Hc]|(_ & HV & Hv & _)]; [by apply ReadSchedule_valid|].
    unfold ReadSchedule. rewrite HV. destruct (_ <=? _); [apply NewCoins_valid|].
    destruct (_ <=? _); [done|apply NewCoins_valid]. }
  rewrite AmountOf_Add by (done || by apply ReadSchedule_valid).
  rewrite (GetVestedOnly_grant va (mf_StartTime msg)), ReadSchedule_value by done.
  unfold GetVestedOnly. rewrite ReadSchedule_value by apply Hwf. unfold read_value, GetStartTime.
  rewrite !(proj2 (Z.leb_gt t _)) by lia. apply Hvest.
Qed.

(** ** Overflow *)

(** [ValidateBasic] accepts a period so long that its end overflows [int64];
    merging it into an unfunded account gives an end time in the past, and the
    whole amount reads as released right after the start instead of never. *)
Theorem overflow_releases_at_once start c t :
  1 <= start <= MaxInt64 → start < t → coins_valid c →
  check_periods NewCoins [mkPeriod _ MaxInt64 c] = Ok (coins_Add NewCoins c) ∧
  let '(s, e, ps) := DisjunctPeriods start start [] [mkPeriod _ MaxInt64 c] in
  s = start ∧ e < 0 ∧ ReadSchedule s (Max64 e e) ps c t = c.
Proof.
  intros Hs Ht Hc. split.
  { cbn [check_periods period_Length period_Amount]. rewrite Hc. done. }
  unfold DisjunctPeriods, Min64. rewrite Z.ltb_irrefl. cbn [disjunct_loop disjunct_rest disjunct_emit].
  assert (i64 (start + MaxInt64) < 0) as He.
  { unfold i64, MaxInt64 in *. replace (start + (2 ^ 63 - 1) + 2 ^ 63) with ((start - 1) + 1 * 2 ^ 64) by lia.
    rewrite Z.mod_add, Z.mod_small by lia. lia. }
  cbn [period_Length period_Amount app]. split; [done|]. split; [done|].
  unfold ReadSchedule, Max64. rewrite Z.ltb_irrefl, (proj2 (Z.leb_gt t start)) by lia.
  by rewrite (proj2 (Z.leb_le _ t)) by lia.
Qed.

(** ** The invariant of the store *)

Definition vesting_inv (s : vesting_state) : Prop :=
  ∀ a va, env_GetAccount (v_world s) a = Some (ClawbackAccount va) → account_ok va.

(** Other modules may change the delegation bookkeeping of an account only. *)
Definition same_schedule (va va' : ClawbackVestingAccount base) : Prop :=
  va_StartTime va' = va_StartTime va ∧ va_EndTime va' = va_EndTime va ∧
  va_OriginalVesting va' = va_OriginalVesting va ∧
  va_LockupPeriods va' = va_LockupPeriods va ∧ va_VestingPeriods va' = va_VestingPeriods va.

Inductive vesting_step (s : vesting_state) : vesting_state → Prop :=
| step_create msg s' :
    MsgCreate_ValidateBasic msg = Ok () → CreateClawbackVestingAccount msg s = Ok s' → vesting_step s s'
| step_fund msg s' :
    MsgFund_ValidateBasic msg = Ok () → fund_in_range msg → FundVestingAccount msg s = Ok s' → vesting_step s s'
| step_clawback msg c s' :
    MsgClawback_ValidateBasic msg = Ok () → Clawback msg s = Ok (c, s') → vesting_step s s'
| step_funder msg s' :
    MsgUpdateFunder_ValidateBasic msg = Ok () → UpdateVestingFunder msg s = Ok s' → vesting_step s s'
| step_convert msg s' :
    MsgConvert_ValidateBasic msg = Ok () → ConvertVestingAccount msg s = Ok s' → vesting_step s s'
| step_proposal p s' : HandleClawbackProposal p s = Ok s' → vesting_step s s'
| step_deposit id s' : AfterProposalDeposit id s = Ok s' → vesting_step s s'
| step_voting_end id s' : AfterProposalVotingPeriodEnded id s = Ok s' → vesting_step s s'
| step_other w' :
    (∀ a va', env_GetAccount w' a = Some (ClawbackAccount va') →
       ∃ va, env_GetAccount (v_world s) a = Some (ClawbackAccount va) ∧ same_schedule va va') →
    vesting_step s (set_world w' s).

Lemma account_ok_same va va' : same_schedule va va' → account_ok va → account_ok va'.
Proof.
  intros (He & Hs & Ho & HL & HV) [[H1 H2]|(H1 & H2 & H3)].
  - left. split; by rewrite He, Hs, Ho, ?HL, ?HV.
  - right. unfold unfunded. by rewrite Ho, HL, HV.
Qed.

Lemma vesting_inv_world s s' : v_world s' = v_world s → vesting_inv s → vesting_inv s'.
Proof. intros Hw Hinv a va. rewrite Hw. apply Hinv. Qed.

Lemma vesting_inv_set acc s :
  vesting_inv s → (∀ va, acc = ClawbackAccount va → account_ok va) → vesting_inv (set_account acc s).
Proof.
  intros Hinv Hacc a va. simpl. rewrite law_get_set. case_decide; [|apply Hinv]. intros [= ->]. by apply Hacc.
Qed.

Lemma vesting_inv_kept s w' :
  vesting_inv s → accounts_kept (v_world s) w' → vesting_inv (set_world w' s).
Proof.
  intros Hinv Hk a va. simpl. destruct (Hk a) as [->|[_ Hn]]; [apply Hinv|].
  intros Ha. by apply Hn in Ha.
Qed.

Lemma for_proposals_world f l s s' :
  (∀ a s, v_world (f a s) = v_world s) → for_proposals f l s = Ok s' → v_world s' = v_world s.
Proof.
  intros Hf. revert s. induction l as [|p l IH]; intros s; simpl; [by intros [= <-]|].
  intros Hp. inv_bind Hp. apply IH in Hp. by rewrite Hp, Hf.
Qed.

Lemma transferClawback_inv_store va dest s c s' :
  vesting_inv s → transferClawback va dest s = Ok (c, s') → vesting_inv s'.
Proof.
  intros Hinv (_ & _ & _ & Hk & _)%transferClawback_inv.
  apply (vesting_inv_world (set_world (v_world s')
    (set_account (eth_account (bva_BaseAccount (va_base va))) s))); [done|].
  apply vesting_inv_kept; [|done]. by apply vesting_inv_set.
Qed.

Lemma Clawback_inv_store msg s c s' : vesting_inv s → Clawback msg s = Ok (c, s') → vesting_inv s'.
Proof.
  unfold Clawback. intros Hinv Hc. inv_bind Hc. inv_bind Hc. case_guards Hc; inv_bind Hc;
    case_guards Hc; by eapply transferClawback_inv_store.
Qed.

Lemma Fund_inv_store msg s s' :
  MsgFund_ValidateBasic msg = Ok () → fund_in_range msg → vesting_inv s →
  FundVestingAccount msg s = Ok s' → vesting_inv s'.
Proof.
  intros Hvb Hr Hinv. pose proof (default_schedules_ok msg Hvb Hr) as Hgr.
  unfold FundVestingAccount. intros Hf. inv_bind Hf. inv_bind Hf. case_guards Hf. inv_bind Hf.
  apply GetClawback_inv, Hinv in Hf_2. destruct (default_schedules _ _) as [[lockup vesting] total].
  case_guards Hf. inv_bind Hf.
  destruct (addGrant_spec a1 _ _ _ _ (v_world s) Hf_2 Hgr) as (va' & Heq & Hwf & _).
  assert (va' = a2) as -> by congruence. inv_bind Hf. apply lift_inv in Hf_4. simplify_eq.
  apply vesting_inv_kept.
  - apply vesting_inv_set; [done|]. intros va [= <-]. by left.
  - intros b. by eapply law_SendCoins.
Qed.

Lemma vesting_step_inv s s' : vesting_inv s → vesting_step s s' → vesting_inv s'.
Proof.
  intros Hinv Hstep. destruct Hstep as
    [msg s' _ Hc|msg s' Hv Hr Hc|msg c s' _ Hc|msg s' _ Hc|msg s' _ Hc|p s' Hc|id s' Hc|id s' Hc|w' Hw].
  - unfold CreateClawbackVestingAccount in Hc. inv_bind Hc. inv_bind Hc. case_guards Hc; simplify_eq;
      [|eapply vesting_inv_world; [done|]]; (apply vesting_inv_set; [done|]);
      intros va [= <-]; right; (split; [done|]); (split; [done|]); unfold va_OriginalVesting; simpl;
      split; auto using NewCoins_valid, AmountOf_NewCoins.
  - by eapply Fund_inv_store.
  - by eapply Clawback_inv_store.
  - unfold UpdateVestingFunder in Hc. inv_bind Hc. inv_bind Hc. case_guards Hc. inv_bind Hc.
    case_guards Hc. simplify_eq. apply GetClawback_inv, Hinv in Hc_2. apply vesting_inv_set; [done|].
    intros va [= <-]. by eapply account_ok_same; [|exact Hc_2].
  - unfold ConvertVestingAccount in Hc. inv_bind Hc. inv_bind Hc. inv_bind Hc. case_guards Hc. simplify_eq.
    apply vesting_inv_set; [|done]. by eapply vesting_inv_world.
  - unfold HandleClawbackProposal in Hc. inv_bind Hc. destruct a as [c s1]. simplify_eq.
    by eapply Clawback_inv_store.
  - unfold AfterProposalDeposit in Hc. case_guards Hc; simplify_eq; try done.
    apply for_proposals_world in Hc; [|done]. by eapply vesting_inv_world.
  - unfold AfterProposalVotingPeriodEnded in Hc. case_guards Hc; simplify_eq; try done.
    apply for_proposals_world in Hc; [|done]. by eapply vesting_inv_world.
  - intros a va' Ha. destruct (Hw a va' Ha) as (va & Hva & Hsame). apply Hinv in Hva.
    by eapply account_ok_same.
Qed.

(** C19.  Starting without clawback accounts, after any sequence of messages,
    proposals, governance hooks and steps of other modules, every clawback account
    in the store is well-formed or not funded yet.  The messages have passed their
    stateless validation, and those that fund an account have a start that is not
    negative and periods that end within the range of [int64] ([fund_in_range]), which
    the validation does not check; other modules do not change schedules. *)
Theorem vesting_accounts_wf s s' :
  (∀ a va, env_GetAccount (v_world s) a ≠ Some (ClawbackAccount va)) →
  rtc vesting_step s s' → vesting_inv s'.
Proof.
  intros H0 Hr. assert (vesting_inv s) as Hinv by (intros a va Ha; by destruct (H0 a va)).
  clear H0. induction Hr; eauto using vesting_step_inv.
Qed.
End Safety.

(** ** Witnesses *)

Module Toy.
Import MapCoins.

(** Addresses written in binary. *)
Fixpoint pos_text (p : positive) : string :=
  match p with
  | xH => "1"
  | xO p => String "o"%char (pos_text p)
  | xI p => String "i"%char (pos_text p)
  end.

Fixpoint text_pos (s : string) : option positive :=
  match s with
  | String "1"%char EmptyString => Some xH
  | String "o"%char s => xO <$> text_pos s
  | String "i"%char s => xI <$> text_pos s
  | _ => None
  end.

Definition z_text (z : Z) : string :=
  match z with Z0 => "0" | Zpos p => pos_text p | Zneg p => String "-"%char (pos_text p) end.

Definition text_z (s : string) : option Z :=
  match s with
  | String "0"%char EmptyString => Some 0
  | String "-"%char s => Zneg <$> text_pos s
  | s => Zpos <$> text_pos s
  end.

Lemma text_pos_text p : text_pos (pos_text p) = Some p.
Proof. induction p as [p IH|p IH|]; simpl; by rewrite ?IH. Qed.

Lemma text_z_text z : text_z (z_text z) = Some z.
Proof.
  destruct z as [|p|p]; [done| |simpl; by rewrite text_pos_text].
  unfold z_text, text_z. destruct p; simpl; by rewrite ?text_pos_text.
Qed.

(** Accounts and balances in maps; address 3 is governance, 4 the community pool. *)
Record toy_world := mkToyWorld {
  tw_accounts : gmap Z (AccountI Z Z);
  tw_balances : gmap Z map_coins;
  tw_time : Z
}.

Definition toy_account_address (acc : AccountI Z Z) : Z :=
  match acc with
  | EthAccount b _ => b
  | ClawbackAccount va => bva_BaseAccount (va_base va)
  | OtherAccount o => o
  end.

Definition toy_send (w : toy_world) (from to : Z) (c : coins) : outcome () toy_world :=
  let balance a m := default ∅ (m !! a) in
  match coins_Sub (balance from (tw_balances w)) c with
  | Ok rest =>
      let m := <[from := rest]> (tw_balances w) in
      Ok (mkToyWorld (tw_accounts w) (<[to := coins_Add (balance to m) c]> m) (tw_time w))
  | _ => Err ()
  end.

#[export] Instance toy_env : VestingEnv := {
  base := Z; other := Z; world := toy_world; sdk_error := ();
  base_address b := b;
  other_address o := o;
  AccAddressFromBech32 := text_z;
  acc_String := z_text;
  emptyCodeHashHex := "0xc5d2";
  env_authority := 3;
  distribution_address := 4;
  BlockTime := tw_time;
  env_GetAccount w a :=
    match tw_accounts w !! a with
    | Some acc => if decide (toy_account_address acc = a) then Some acc else None
    | None => None
    end;
  env_SetAccount w acc :=
    mkToyWorld (<[toy_account_address acc := acc]> (tw_accounts w)) (tw_balances w) (tw_time w);
  BlockedAddr a := bool_decide (a = 4);
  SendCoins := toy_send;
  FundCommunityPool w c from := toy_send w from 4 c;
  GetDelegatorBonded _ _ := 0;
  GetDelegatorUnbonding _ _ := 0;
  BondDenom _ := "aego";
  GetProposal _ _ := None;
  MinDeposit _ := ∅
}.

Lemma toy_send_accounts w from to c w' : toy_send w from to c = Ok w' → tw_accounts w' = tw_accounts w.
Proof. unfold toy_send. destruct (coins_Sub _ _); [|done..]. by intros [= <-]. Qed.

#[export] Instance toy_env_laws : VestingEnvLaws.
Proof.
  split.
  - intros w acc a. cbn. rewrite lookup_insert. replace (account_address acc) with (toy_account_address acc).
    + case_decide as Heq; [|done]. by rewrite decide_True.
    + by destruct acc.
  - intros w a acc. cbn. destruct (_ !! _) as [acc'|]; [|done]. case_decide as Heq; [|done].
    intros [= <-]. rewrite <-Heq. by destruct acc'.
  - intros w from to c w' a Hs. left. cbn. by rewrite (toy_send_accounts _ _ _ _ _ Hs).
  - intros w c from w' a Hs. left. cbn. by rewrite (toy_send_accounts _ _ _ _ _ Hs).
  - apply text_z_text.
  - intros w a. cbn. lia.
Qed.

#[export] Instance toy_base : BaseVesting Z := {
  LockedCoinsFromVesting _ c := c;
  bva_TrackDelegation b _ _ _ := Ok b;
  bva_Validate _ := None
}.

(** Account 7, funded by 5 with 30 aego; half of the schedule is past. *)
Definition toy_vesting : ClawbackVestingAccount Z :=
  mkClawback (mkBaseVesting _ _ 7 (aego 30) NewCoins NewCoins 110) (z_text 5) 100
    [mkPeriod _ 8 (aego 30)] sched_a.

Definition toy_state : vesting_state :=
  mkVesting (mkToyWorld {[ 7 := ClawbackAccount toy_vesting ]} {[ 7 := aego 30; 5 := aego 100 ]} 107) ∅ ∅.

Lemma toy_vesting_wf : account_wf toy_vesting.
Proof.
  split; [|apply sched_a_complete].
  split; [split|..]; try done; try (by repeat constructor; try apply coin_valid).
  intros d. cbn. lia.
Qed.

Lemma clawback_is_authorised_witness :
  ∃ c s', Clawback (mkMsgClawback (z_text 5) (z_text 7) EmptyString) toy_state = Ok (c, s') ∧
    AmountOf c "aego" = 20 ∧ ∃ addr, text_z (z_text 7) = Some addr ∧ addr ∉ v_govClawbackDisabled s'.
Proof.
  eexists _, _. split; [reflexivity|].
  edestruct (clawback_is_authorised (mkMsgClawback (z_text 5) (z_text 7) EmptyString) toy_state)
    as (addr & va & Ha & _ & _ & _ & Hg & _); [reflexivity|].
  split; [vm_compute; reflexivity|]. exists addr. split; [exact Ha|exact Hg].
Defined.

Lemma overflow_releases_at_once_witness :
  let '(s, e, ps) := DisjunctPeriods 1700000000 1700000000 [] [mkPeriod _ MaxInt64 (aego 5)] in
  e < 0 ∧ ReadSchedule s (Max64 e e) ps (aego 5) 1700000001 = aego 5.
Proof.
  destruct (overflow_releases_at_once 1700000000 (aego 5) 1700000001) as [_ Ho].
  - unfold MaxInt64. lia.
  - lia.
  - apply coin_valid. lia.
  - exact (proj2 Ho).
Defined.

(** A second grant of 6 aego that vests at 108. *)
Definition toy_fund : MsgFundVestingAccount := mkMsgFund (z_text 5) (z_text 7) 104 [] sched_b.

Lemma toy_fund_valid : MsgFund_ValidateBasic toy_fund = Ok ().
Proof. reflexivity. Qed.

Lemma toy_fund_range : fund_in_range toy_fund.
Proof. split; [|split]; vm_compute; congruence. Qed.

Lemma fund_adds_grant_witness :
  ∃ (va' : ClawbackVestingAccount Z) s', account_wf va' ∧ AmountOf (va_OriginalVesting va') "aego" = 36 ∧
    FundVestingAccount toy_fund toy_state = Ok s'.
Proof.
  pose proof (fund_adds_grant toy_fund toy_state 5 7 toy_vesting toy_fund_valid toy_fund_range
    eq_refl eq_refl eq_refl eq_refl (or_introl toy_vesting_wf) eq_refl) as Hf.
  destruct (default_schedules (mf_LockupPeriods toy_fund) (mf_VestingPeriods toy_fund))
    as [[l v] total] eqn:Hd.
  destruct Hf as (va' & Hwf & _ & Ho & _). exists va'. eexists. split; [exact Hwf|].
  split; [|reflexivity]. etransitivity; [exact (Ho "aego"%string)|].
  replace total with (default_schedules (mf_LockupPeriods toy_fund) (mf_VestingPeriods toy_fund)).2
    by (rewrite Hd; reflexivity).
  vm_compute. reflexivity.
Defined.

(** Account 7 is created as a vesting account and funded. *)
Definition plain_state : vesting_state :=
  mkVesting (mkToyWorld {[ 7 := EthAccount 7 "0xc5d2" ]} {[ 5 := aego 100 ]} 107) ∅ ∅.

Lemma vesting_accounts_wf_witness :
  ∃ s, rtc vesting_step plain_state s ∧ vesting_inv s ∧
    ∃ va, env_GetAccount (v_world s) 7 = Some (ClawbackAccount va).
Proof.
  assert (∃ s, rtc vesting_step plain_state s ∧
    ∃ va, env_GetAccount (v_world s) 7 = Some (ClawbackAccount va)) as (s & Hr & Hva).
  { eexists. split; [|eexists].
    - eapply rtc_l; [eapply (step_create _ (mkMsgCreate (z_text 5) (z_text 7) false));
        reflexivity|].
      eapply rtc_l; [eapply (step_fund _ toy_fund);
        [reflexivity|exact toy_fund_range|reflexivity]|].
      apply rtc_refl.
    - reflexivity. }
  exists s. split; [exact Hr|]. split; [|exact Hva].
  apply (vesting_accounts_wf plain_state s); [|exact Hr].
  intros a va. cbn. rewrite lookup_singleton. destruct (decide (7 = a)); [|discriminate].
  destruct (decide _); discriminate.
Defined.
End Toy.
