(* ===== verification/Dec.v ===== *)
(** * Fixed-point decimals: what the modules use of [cosmossdk.io/math.LegacyDec]

    A [LegacyDec] is an integer number of units of 10^-18.  The operations belong
    to the math library and are a class; the laws say what its documentation does:
    sums are exact, products and quotients are within one unit of the exact value,
    and an operation panics only on a division by zero or when its result needs
    more than 256 bits. *)

From S2P Require Import Prelude.

Class LegacyDec := {
  dec : Type;
  raw : dec → Z;
  LegacyNewDecFromInt : Z → dec;
  LegacyNewDecWithPrec : Z → Z → dec;
  dec_Add : dec → dec → partial dec;
  dec_Sub : dec → dec → partial dec;
  dec_Mul : dec → dec → partial dec;
  dec_Quo : dec → dec → partial dec;
  dec_QuoInt : dec → Z → partial dec;
  dec_Power : dec → Z → partial dec;
  dec_TruncateInt : dec → partial Z;
  dec_GT : dec → dec → bool;
  dec_GTE : dec → dec → bool;
  dec_Equal : dec → dec → bool;
  dec_IsNegative : dec → bool;
  dec_IsPositive : dec → bool;
  dec_IsZero : dec → bool;
  LegacyMaxDec : dec → dec → dec
}.

Definition LegacyNewDec `{LegacyDec} (n : Z) : dec := LegacyNewDecFromInt n.
Definition LegacyZeroDec `{LegacyDec} : dec := LegacyNewDec 0.
Definition LegacyOneDec `{LegacyDec} : dec := LegacyNewDec 1.

(** One, in units. *)
Definition dec_one : Z := 10 ^ 18.

(** [c] is [n / d], rounded to one of its neighbours. *)
Definition rounds (c n d : Z) : Prop := Z.abs (c * d - n) < Z.abs d.

(** The results the library can always represent. *)
Definition dec_fits (z : Z) : Prop := Z.abs z < 2 ^ 255.

Class DecLaws `{LegacyDec} : Prop := {
  raw_FromInt n : raw (LegacyNewDecFromInt n) = n * dec_one;
  raw_WithPrec n p : 0 <= p <= 18 → raw (LegacyNewDecWithPrec n p) = n * 10 ^ (18 - p);
  Add_inv a b c : dec_Add a b = Ok c → raw c = raw a + raw b;
  Add_fits a b : dec_fits (raw a + raw b) → ∃ c, dec_Add a b = Ok c;
  dec_Sub_inv a b c : dec_Sub a b = Ok c → raw c = raw a - raw b;
  Sub_fits a b : dec_fits (raw a - raw b) → ∃ c, dec_Sub a b = Ok c;
  Mul_inv a b c : dec_Mul a b = Ok c → rounds (raw c) (raw a * raw b) dec_one;
  Mul_fits a b : dec_fits (raw a * raw b / dec_one) → ∃ c, dec_Mul a b = Ok c;
  Quo_inv a b c : dec_Quo a b = Ok c → raw b ≠ 0 ∧ rounds (raw c) (raw a * dec_one) (raw b);
  Quo_fits a b : raw b ≠ 0 → dec_fits (raw a * dec_one / raw b) → ∃ c, dec_Quo a b = Ok c;
  QuoInt_inv a n c : dec_QuoInt a n = Ok c → n ≠ 0 ∧ rounds (raw c) (raw a) n;
  QuoInt_ok a n : n ≠ 0 → ∃ c, dec_QuoInt a n = Ok c;
  Power_unit a n c : 0 <= raw a <= dec_one → dec_Power a n = Ok c → 0 <= raw c <= dec_one;
  Power_ok a n : 0 <= raw a <= dec_one → 0 <= n → ∃ c, dec_Power a n = Ok c;
  TruncateInt_inv a n : dec_TruncateInt a = Ok n → n = Z.quot (raw a) dec_one;
  TruncateInt_fits a : dec_fits (raw a / dec_one) → ∃ n, dec_TruncateInt a = Ok n;
  GT_spec a b : dec_GT a b = (raw b <? raw a);
  GTE_spec a b : dec_GTE a b = (raw b <=? raw a);
  Equal_spec a b : dec_Equal a b = (raw a =? raw b);
  IsNegative_spec a : dec_IsNegative a = (raw a <? 0);
  IsPositive_spec a : dec_IsPositive a = (0 <? raw a);
  dec_IsZero_spec a : dec_IsZero a = (raw a =? 0);
  raw_Max a b : raw (LegacyMaxDec a b) = Z.max (raw a) (raw b)
}.

(** ** Rounding *)

Lemma rounds_nonneg c n d : rounds c n d → 0 <= n → 0 < d → 0 <= c.
Proof. unfold rounds. intros. nia. Qed.

Lemma rounds_exact c k d : rounds c (k * d) d → d ≠ 0 → c = k.
Proof.
  unfold rounds. intros Hr Hd. rewrite <-Z.mul_sub_distr_r, Z.abs_mul in Hr. nia.
Qed.

Lemma rounds_le c n d k : rounds c n d → 0 < d → n <= k * d → c <= k.
Proof. unfold rounds. intros. nia. Qed.

Lemma rounds_ge c n d k : rounds c n d → 0 < d → k * d <= n → k <= c.
Proof. unfold rounds. intros. nia. Qed.

Lemma rounds_upper c n d : rounds c n d → 0 < d → c * d < n + d.
Proof. unfold rounds. intros. nia. Qed.

Lemma rounds_lower c n d : rounds c n d → 0 < d → n - d < c * d.
Proof. unfold rounds. intros. nia. Qed.

Lemma quot_rounds n d : d ≠ 0 → rounds (Z.quot n d) n d.
Proof.
  intros Hd. unfold rounds. pose proof (Z.quot_rem n d Hd). pose proof (Z.rem_bound_abs n d Hd). lia.
Qed.

Section Exact.
Context `{DL : DecLaws}.

(** An integer times a decimal is exact. *)
Lemma Mul_int n b c : dec_Mul (LegacyNewDecFromInt n) b = Ok c → raw c = n * raw b.
Proof.
  intros Hc%Mul_inv. rewrite raw_FromInt in Hc.
  replace (n * dec_one * raw b) with (n * raw b * dec_one) in Hc by lia.
  by apply rounds_exact in Hc.
Qed.

Lemma Mul_int_fits n b : dec_fits (n * raw b) → ∃ c, dec_Mul (LegacyNewDecFromInt n) b = Ok c ∧ raw c = n * raw b.
Proof.
  intros Hf. destruct (Mul_fits (LegacyNewDecFromInt n) b) as [c Hc].
  { rewrite raw_FromInt. replace (n * dec_one * raw b) with (n * raw b * dec_one) by lia.
    by rewrite Z.div_mul. }
  exists c. split; [done|by apply Mul_int].
Qed.

Lemma TruncateInt_pos a : 0 <= raw a → dec_fits (raw a) → dec_TruncateInt a = Ok (raw a / dec_one).
Proof.
  intros Ha Hf. destruct (TruncateInt_fits a) as [n Hn].
  { unfold dec_fits in *. pose proof (Z.div_le_upper_bound (raw a) dec_one (raw a)).
    pose proof (Z.div_pos (raw a) dec_one). unfold dec_one in *. lia. }
  rewrite Hn. apply TruncateInt_inv in Hn as ->. by rewrite Z.quot_div_nonneg.
Qed.
(** Bounded operands give bounded results. *)
Lemma Mul_ok a b k :
  0 <= raw a → 0 <= raw b → raw a * raw b <= k * dec_one → k < 2 ^ 255 →
  ∃ c, dec_Mul a b = Ok c ∧ 0 <= raw c <= k.
Proof.
  intros Ha Hb Hk Hf. destruct (Mul_fits a b) as [c Hc].
  { unfold dec_fits. pose proof (Z.div_pos (raw a * raw b) dec_one).
    pose proof (Z.div_le_upper_bound (raw a * raw b) dec_one k). unfold dec_one in *. nia. }
  exists c. split; [done|]. apply Mul_inv in Hc.
  split; [eapply rounds_nonneg; [done|nia|done]|by eapply rounds_le].
Qed.

Lemma Quo_ok a b k :
  0 <= raw a → 0 < raw b → raw a * dec_one <= k * raw b → k < 2 ^ 255 →
  ∃ c, dec_Quo a b = Ok c ∧ 0 <= raw c <= k.
Proof.
  intros Ha Hb Hk Hf. destruct (Quo_fits a b) as [c Hc]; [lia| |].
  { unfold dec_fits. pose proof (Z.div_pos (raw a * dec_one) (raw b)).
    pose proof (Z.div_le_upper_bound (raw a * dec_one) (raw b) k). unfold dec_one in *. nia. }
  exists c. split; [done|]. apply Quo_inv in Hc as [_ Hc].
  split; [eapply rounds_nonneg; [done|unfold dec_one; nia|done]|by eapply rounds_le].
Qed.

Lemma Add_ok a b : dec_fits (raw a + raw b) → ∃ c, dec_Add a b = Ok c ∧ raw c = raw a + raw b.
Proof. intros Hf. destruct (Add_fits a b Hf) as [c Hc]. exists c. split; [done|by apply Add_inv]. Qed.

Lemma dec_Sub_ok a b : dec_fits (raw a - raw b) → ∃ c, dec_Sub a b = Ok c ∧ raw c = raw a - raw b.
Proof. intros Hf. destruct (Sub_fits a b Hf) as [c Hc]. exists c. split; [done|by apply dec_Sub_inv]. Qed.
End Exact.

(** ** The laws can hold *)

Module ZDec.
Fixpoint pow_trunc (a : Z) (n : nat) : Z :=
  match n with O => dec_one | S n => Z.quot (pow_trunc a n * a) dec_one end.

#[export] Instance z_dec : LegacyDec := {
  dec := Z;
  raw a := a;
  LegacyNewDecFromInt n := n * dec_one;
  LegacyNewDecWithPrec n p := n * 10 ^ (18 - p);
  dec_Add a b := Ok (a + b);
  dec_Sub a b := Ok (a - b);
  dec_Mul a b := Ok (Z.quot (a * b) dec_one);
  dec_Quo a b := if b =? 0 then Panic else Ok (Z.quot (a * dec_one) b);
  dec_QuoInt a n := if n =? 0 then Panic else Ok (Z.quot a n);
  dec_Power a n := Ok (pow_trunc a (Z.to_nat n));
  dec_TruncateInt a := Ok (Z.quot a dec_one);
  dec_GT a b := b <? a;
  dec_GTE a b := b <=? a;
  dec_Equal a b := a =? b;
  dec_IsNegative a := a <? 0;
  dec_IsPositive a := 0 <? a;
  dec_IsZero a := a =? 0;
  LegacyMaxDec a b := Z.max a b
}.

Lemma pow_trunc_unit a n : 0 <= a <= dec_one → 0 <= pow_trunc a n <= dec_one.
Proof.
  intros Ha. induction n as [|n IH]; simpl; [unfold dec_one; lia|].
  pose proof (quot_rounds (pow_trunc a n * a) dec_one) as Hr. specialize (Hr ltac:(done)).
  split; [eapply rounds_nonneg; [done|nia|done]|eapply rounds_le; [done|done|nia]].
Qed.

#[export] Instance z_dec_laws : DecLaws.
Proof.
  split; simpl; intros; try done; simplify_eq/=; try done; try (by eexists).
  - by apply quot_rounds.
  - destruct (Z.eqb_spec b 0); simplify_eq. split; [done|]. by apply quot_rounds.
  - destruct (Z.eqb_spec b 0); [done|]. by eexists.
  - destruct (Z.eqb_spec n 0); simplify_eq. split; [done|]. by apply quot_rounds.
  - destruct (Z.eqb_spec n 0); [done|]. by eexists.
  - by apply pow_trunc_unit.
Qed.
End ZDec.
