(* ===== verification/Epochs.v ===== *)
(** * The epochs module: [x/epochs]

    Timed counters, one per identifier: [BeginBlocker] starts them, advances them
    when their current epoch is over, and calls the hooks of the other modules.
    The store maps an identifier to its [EpochInfo] and is iterated in the byte
    order of the identifiers; the rest of the chain, which only the hooks touch,
    is the type [world].  A [time.Time] is a number of nanoseconds since 1970 and
    a [time.Duration] a number of nanoseconds; events and logs are left out. *)

From S2P Require Import Prelude.

(** ** The epoch: [types/epoch_info.go] *)

Record EpochInfo := mkEpoch {
  ei_Identifier : string;
  ei_StartTime : Z;
  ei_Duration : Z;
  ei_CurrentEpoch : Z;
  ei_CurrentEpochStartTime : Z;
  ei_EpochCountingStarted : bool;
  ei_CurrentEpochStartHeight : Z
}.

Definition StartInitialEpoch (ei : EpochInfo) : EpochInfo :=
  mkEpoch (ei_Identifier ei) (ei_StartTime ei) (ei_Duration ei) 1 (ei_StartTime ei) true
    (ei_CurrentEpochStartHeight ei).

Definition EndEpoch (ei : EpochInfo) : EpochInfo :=
  mkEpoch (ei_Identifier ei) (ei_StartTime ei) (ei_Duration ei) (i64 (ei_CurrentEpoch ei + 1))
    (ei_CurrentEpochStartTime ei + ei_Duration ei) (ei_EpochCountingStarted ei)
    (ei_CurrentEpochStartHeight ei).

Definition with_height (h : Z) (ei : EpochInfo) : EpochInfo :=
  mkEpoch (ei_Identifier ei) (ei_StartTime ei) (ei_Duration ei) (ei_CurrentEpoch ei)
    (ei_CurrentEpochStartTime ei) (ei_EpochCountingStarted ei) h.

Definition with_start (t : Z) (ei : EpochInfo) : EpochInfo :=
  mkEpoch (ei_Identifier ei) t (ei_Duration ei) (ei_CurrentEpoch ei)
    (ei_CurrentEpochStartTime ei) (ei_EpochCountingStarted ei) (ei_CurrentEpochStartHeight ei).

Inductive epoch_error :=
| BlankIdentifier
| ZeroDuration
| NegativeEpoch
| NegativeHeight
| DuplicatedEpoch (id : string).

Definition EpochInfo_Validate (ei : EpochInfo) : option epoch_error :=
  if blank (ei_Identifier ei) then Some BlankIdentifier
  else if ei_Duration ei =? 0 then Some ZeroDuration
  else if ei_CurrentEpoch ei <? 0 then Some NegativeEpoch
  else if ei_CurrentEpochStartHeight ei <? 0 then Some NegativeHeight
  else None.

Definition ValidateEpochIdentifierString (s : string) : option epoch_error :=
  if blank s then Some BlankIdentifier else None.

Definition WeekEpochID : string := "week".
Definition DayEpochID : string := "day".
Definition HourEpochID : string := "hour".

(** ** Genesis: [types/genesis.go] *)

(** Go's zero time, 1 January of year 1. *)
Definition zero_time_ns : Z := -62135596800 * 10 ^ 9.

Definition hour_ns : Z := 3600 * 10 ^ 9.

Definition DefaultGenesisState : list EpochInfo :=
  [ mkEpoch WeekEpochID zero_time_ns (hour_ns * 24 * 7) 0 zero_time_ns false 0;
    mkEpoch DayEpochID zero_time_ns (hour_ns * 24) 0 zero_time_ns false 0 ].

Fixpoint validate_epochs (epochIdentifiers : gset string) (gs : list EpochInfo) : option epoch_error :=
  match gs with
  | [] => None
  | epoch :: gs =>
      if decide (ei_Identifier epoch ∈ epochIdentifiers) then Some (DuplicatedEpoch (ei_Identifier epoch))
      else match EpochInfo_Validate epoch with
           | Some err => Some err
           | None => validate_epochs ({[ei_Identifier epoch]} ∪ epochIdentifiers) gs
           end
  end.

Definition GenesisState_Validate (gs : list EpochInfo) : option epoch_error := validate_epochs ∅ gs.

(** ** The keeper *)

Abbreviation epoch_store := (gmap string EpochInfo).

(** What a module promises to the epochs module; a hook may panic. *)
Record EpochHooks {world : Type} := mkHooks {
  hook_AfterEpochEnd : string → Z → world → partial world;
  hook_BeforeEpochStart : string → Z → world → partial world
}.
Arguments EpochHooks : clear implicits.

Section Keeper.
Context {world : Type}.

Definition GetEpochInfo (identifier : string) (store : epoch_store) : option EpochInfo := store !! identifier.

Definition SetEpochInfo (epoch : EpochInfo) (store : epoch_store) : epoch_store :=
  <[ei_Identifier epoch := epoch]> store.

Definition DeleteEpochInfo (identifier : string) (store : epoch_store) : epoch_store :=
  delete identifier store.

(** The entries an iterator opened on the store visits. *)
Definition epoch_entries (store : epoch_store) : list EpochInfo :=
  omap (λ id, store !! id) (sorted_names store).

Fixpoint iterate_loop {A} (fn : Z → EpochInfo → A → partial (A * bool)) (i : Z) (l : list EpochInfo)
    (a : A) : partial A :=
  match l with
  | [] => Ok a
  | epoch :: l =>
      '(a, stop) ← fn i epoch a;
      if (stop : bool) then Ok a else iterate_loop fn (i + 1) l a
  end.

Definition IterateEpochInfo {A} (fn : Z → EpochInfo → A → partial (A * bool)) (store : epoch_store)
    (a : A) : partial A :=
  iterate_loop fn 0 (epoch_entries store) a.

Definition AllEpochInfos (store : epoch_store) : partial (list EpochInfo) :=
  IterateEpochInfo (λ _ epochInfo epochs, Ok (epochs ++ [epochInfo], false)) store [].

(** ** Hooks: [keeper/hooks.go] *)

Fixpoint Multi_AfterEpochEnd (mh : list (EpochHooks world)) (identifier : string) (epochNumber : Z)
    (w : world) : partial world :=
  match mh with
  | [] => Ok w
  | h :: mh => w ← hook_AfterEpochEnd h identifier epochNumber w;
               Multi_AfterEpochEnd mh identifier epochNumber w
  end.

Fixpoint Multi_BeforeEpochStart (mh : list (EpochHooks world)) (identifier : string) (epochNumber : Z)
    (w : world) : partial world :=
  match mh with
  | [] => Ok w
  | h :: mh => w ← hook_BeforeEpochStart h identifier epochNumber w;
               Multi_BeforeEpochStart mh identifier epochNumber w
  end.

Definition MultiEpochHooks (mh : list (EpochHooks world)) : EpochHooks world :=
  mkHooks world (Multi_AfterEpochEnd mh) (Multi_BeforeEpochStart mh).

(** ** [BeginBlocker] *)

Record block_ctx := mkBlock { BlockHeight : Z; BlockTime : Z }.

Definition shouldInitialEpochStart (ctx : block_ctx) (ei : EpochInfo) : bool :=
  negb (ei_EpochCountingStarted ei) && negb (BlockTime ctx <? ei_StartTime ei).

Definition shouldEpochEnd (ctx : block_ctx) (ei : EpochInfo) : bool :=
  (ei_CurrentEpochStartTime ei + ei_Duration ei <? BlockTime ctx) &&
  negb (shouldInitialEpochStart ctx ei) && negb (BlockTime ctx <? ei_StartTime ei).

Definition begin_epoch (hooks : EpochHooks world) (ctx : block_ctx) (_ : Z) (epochInfo : EpochInfo)
    (s : epoch_store * world) : partial (epoch_store * world * bool) :=
  let '(store, w) := s in
  let ei := with_height (BlockHeight ctx) epochInfo in
  if shouldInitialEpochStart ctx epochInfo then
    let ei := StartInitialEpoch ei in
    let store := SetEpochInfo ei store in
    w ← hook_BeforeEpochStart hooks (ei_Identifier ei) (ei_CurrentEpoch ei) w;
    Ok (store, w, false)
  else if shouldEpochEnd ctx epochInfo then
    let ei := EndEpoch ei in
    w ← hook_AfterEpochEnd hooks (ei_Identifier ei) (ei_CurrentEpoch ei) w;
    let store := SetEpochInfo ei store in
    w ← hook_BeforeEpochStart hooks (ei_Identifier ei) (ei_CurrentEpoch ei) w;
    Ok (store, w, false)
  else Ok (store, w, false).

Definition BeginBlocker (hooks : EpochHooks world) (ctx : block_ctx) (s : epoch_store * world) :
    partial (epoch_store * world) :=
  IterateEpochInfo (begin_epoch hooks ctx) (s.1) s.

(** ** Genesis import and export: [genesis.go] *)

Definition init_epoch (ctx : block_ctx) (epoch : EpochInfo) : EpochInfo :=
  let epoch := if ei_StartTime epoch =? zero_time_ns then with_start (BlockTime ctx) epoch else epoch in
  with_height (BlockHeight ctx) epoch.

Fixpoint InitGenesis (ctx : block_ctx) (gs : list EpochInfo) (store : epoch_store) : epoch_store :=
  match gs with
  | [] => store
  | epoch :: gs => InitGenesis ctx gs (SetEpochInfo (init_epoch ctx epoch) store)
  end.

Definition ExportGenesis (store : epoch_store) : partial (list EpochInfo) := AllEpochInfos store.

(** ** Queries: [keeper/grpc_query.go] *)

Definition CurrentEpoch (identifier : string) (store : epoch_store) : option Z :=
  ei_CurrentEpoch <$> GetEpochInfo identifier store.
End Keeper.

(** ** What a block does *)

(** The store keeps an epoch under its identifier. *)
Definition keyed (store : epoch_store) : Prop := map_Forall (λ id ei, ei_Identifier ei = id) store.

(** What a block at [ctx] makes of one epoch. *)
Definition tick (ctx : block_ctx) (ei : EpochInfo) : EpochInfo :=
  if shouldInitialEpochStart ctx ei then StartInitialEpoch (with_height (BlockHeight ctx) ei)
  else if shouldEpochEnd ctx ei then EndEpoch (with_height (BlockHeight ctx) ei)
  else ei.

(** The hook calls of one epoch, and of a list of them, in order. *)
Inductive hook_call :=
| Ended (id : string) (n : Z)
| Starting (id : string) (n : Z).

Definition epoch_calls (ctx : block_ctx) (ei : EpochInfo) : list hook_call :=
  let id := ei_Identifier ei in
  let n := ei_CurrentEpoch (tick ctx ei) in
  if shouldInitialEpochStart ctx ei then [Starting id n]
  else if shouldEpochEnd ctx ei then [Ended id n; Starting id n]
  else [].

Definition run_hook {world} (hooks : EpochHooks world) (c : hook_call) (w : world) : partial world :=
  match c with
  | Ended id n => hook_AfterEpochEnd hooks id n w
  | Starting id n => hook_BeforeEpochStart hooks id n w
  end.

Fixpoint run_hooks {world} (hooks : EpochHooks world) (cs : list hook_call) (w : world) : partial world :=
  match cs with
  | [] => Ok w
  | c :: cs => w ← run_hook hooks c w; run_hooks hooks cs w
  end.

Lemma run_hooks_app {world} (hooks : EpochHooks world) cs ds w :
  run_hooks hooks (cs ++ ds) w = run_hooks hooks cs w ≫= run_hooks hooks ds.
Proof.
  revert w. induction cs as [|c cs IH]; intros w; [done|]. simpl.
  by destruct (run_hook hooks c w); simpl; rewrite ?IH.
Qed.

Lemma tick_Identifier ctx ei : ei_Identifier (tick ctx ei) = ei_Identifier ei.
Proof. unfold tick. by repeat case_match. Qed.

Lemma keyed_Set ei store : keyed store → keyed (SetEpochInfo ei store).
Proof. intros H. by apply map_Forall_insert_2. Qed.

Section BeginBlocker.
Context {world : Type} (hooks : EpochHooks world) (ctx : block_ctx).

(** Visiting an epoch stores its [tick] and makes its calls. *)
Lemma begin_epoch_tick i ei store w :
  store !! ei_Identifier ei = Some ei →
  begin_epoch hooks ctx i ei (store, w) =
  (w' ← run_hooks hooks (epoch_calls ctx ei) w;
   Ok (SetEpochInfo (tick ctx ei) store, w', false)).
Proof.
  intros Hs. unfold begin_epoch, epoch_calls, tick.
  destruct (shouldInitialEpochStart ctx ei); simpl.
  { by destruct (hook_BeforeEpochStart _ _ _ _). }
  destruct (shouldEpochEnd ctx ei); simpl.
  - destruct (hook_AfterEpochEnd _ _ _ _); simpl; try done.
    by destruct (hook_BeforeEpochStart _ _ _ _).
  - unfold SetEpochInfo. by rewrite insert_id.
Qed.

Lemma iterate_ticks l i store w :
  NoDup (ei_Identifier <$> l) → Forall (λ ei, store !! ei_Identifier ei = Some ei) l →
  iterate_loop (begin_epoch hooks ctx) i l (store, w) =
  (w' ← run_hooks hooks (l ≫= epoch_calls ctx) w;
   Ok (foldl (λ st ei, SetEpochInfo (tick ctx ei) st) store l, w')).
Proof.
  revert i store w. induction l as [|ei l IH]; intros i store w; [done|].
  rewrite fmap_cons, NoDup_cons, Forall_cons. intros [Hni Hnd] [Hei Hl].
  cbn [iterate_loop]. rewrite begin_epoch_tick by done. rewrite bind_cons, run_hooks_app.
  destruct (run_hooks hooks (epoch_calls ctx ei) w) as [w1| |]; simpl; [|done|done].
  apply IH; [done|]. apply Forall_forall. intros ej Hj. rewrite Forall_forall in Hl.
  unfold SetEpochInfo. rewrite tick_Identifier, lookup_insert_ne; [by apply Hl|].
  intros Heq. apply Hni. rewrite Heq. apply list_elem_of_fmap. eauto.
Qed.

Lemma foldl_ticks_lookup l store id :
  NoDup (ei_Identifier <$> l) → Forall (λ ei, store !! ei_Identifier ei = Some ei) l →
  foldl (λ st ei, SetEpochInfo (tick ctx ei) st) store l !! id =
  if decide (id ∈ ei_Identifier <$> l) then tick ctx <$> store !! id else store !! id.
Proof.
  revert store. induction l as [|ei l IH]; intros store; [done|].
  rewrite fmap_cons, NoDup_cons, Forall_cons. intros [Hni Hnd] [Hei Hl]. simpl. rewrite IH.
  - unfold SetEpochInfo. rewrite tick_Identifier.
    destruct (decide (id = ei_Identifier ei)) as [->|Hne].
    + rewrite decide_False, decide_True by set_solver. by rewrite lookup_insert_eq, Hei.
    + rewrite lookup_insert_ne by done. by destruct (decide (id ∈ _)); [rewrite decide_True|rewrite decide_False]; try set_solver.
  - done.
  - apply Forall_forall. intros ej Hj. rewrite Forall_forall in Hl. unfold SetEpochInfo.
    rewrite tick_Identifier, lookup_insert_ne; [by apply Hl|].
    intros Heq. apply Hni. rewrite Heq. apply list_elem_of_fmap. eauto.
Qed.
End BeginBlocker.

Lemma epoch_entries_names store : keyed store → ei_Identifier <$> epoch_entries store = sorted_names store.
Proof.
  intros Hk. unfold epoch_entries.
  assert (∀ l, Forall (λ id, is_Some (store !! id)) l →
    ei_Identifier <$> omap (λ id, store !! id) l = l) as Hl.
  { induction 1 as [|id l [ei Hei] _ IH]; [done|]. cbn [omap list_omap]. rewrite Hei, fmap_cons.
    f_equal; [by apply (Hk _ _ Hei)|exact IH]. }
  apply Hl, Forall_forall. intros id. apply elem_of_sorted_names.
Qed.

Lemma elem_of_epoch_entries store ei :
  keyed store → ei ∈ epoch_entries store ↔ store !! ei_Identifier ei = Some ei.
Proof.
  intros Hk. unfold epoch_entries. rewrite list_elem_of_omap. split.
  - intros (id & _ & Hid). by rewrite (Hk _ _ Hid).
  - intros Hei. exists (ei_Identifier ei). split; [|done]. apply elem_of_sorted_names. eauto.
Qed.

(** [BeginBlocker] as a block sees it: every epoch of the store ticks, whatever
    its place in the iteration, and the hooks are called in the order of the
    identifiers. *)
Lemma BeginBlocker_ticks {world} (hooks : EpochHooks world) ctx store w :
  keyed store →
  BeginBlocker hooks ctx (store, w) =
  (w' ← run_hooks hooks (epoch_entries store ≫= epoch_calls ctx) w; Ok (tick ctx <$> store, w')).
Proof.
  intros Hk. unfold BeginBlocker, IterateEpochInfo. simpl.
  pose proof (epoch_entries_names store Hk) as Hn.
  assert (NoDup (ei_Identifier <$> epoch_entries store)) by (rewrite Hn; apply NoDup_sorted_names).
  assert (Forall (λ ei, store !! ei_Identifier ei = Some ei) (epoch_entries store)).
  { apply Forall_forall. intros ei. by apply elem_of_epoch_entries. }
  rewrite iterate_ticks by done.
  replace (foldl _ store (epoch_entries store)) with (tick ctx <$> store); [done|].
  apply map_eq. intros id. rewrite foldl_ticks_lookup, lookup_fmap, Hn by done.
  case_decide as Hid; [done|]. rewrite elem_of_sorted_names in Hid.
  by destruct (store !! id) eqn:E; [destruct Hid; eauto|].
Qed.

Lemma keyed_tick ctx store : keyed store → keyed (tick ctx <$> store).
Proof.
  intros Hk id ei. rewrite lookup_fmap, fmap_Some. intros (e0 & H0 & ->).
  rewrite tick_Identifier. by apply Hk.
Qed.

(** A block ticks every epoch of the store exactly once, in place, and calls
    the hooks for the epochs that start or end, in the order of their identifiers,
    the end of an epoch before the start of the next, both with the number of the
    epoch that starts; it fails only when a hook does. *)
Theorem begin_blocker_ticks {world} (hooks : EpochHooks world) ctx store w :
  keyed store →
  BeginBlocker hooks ctx (store, w) =
    (w' ← run_hooks hooks (epoch_entries store ≫= epoch_calls ctx) w; Ok (tick ctx <$> store, w')) ∧
  keyed (tick ctx <$> store) ∧
  ei_Identifier <$> epoch_entries store = sorted_names store.
Proof.
  intros Hk. split; [by apply BeginBlocker_ticks|]. split; [by apply keyed_tick|].
  by apply epoch_entries_names.
Qed.

(** ** Runs of blocks *)

Fixpoint run_blocks {world} (hooks : EpochHooks world) (bs : list block_ctx) (s : epoch_store * world) :
    partial (epoch_store * world) :=
  match bs with
  | [] => Ok s
  | b :: bs => s ← BeginBlocker hooks b s; run_blocks hooks bs s
  end.

Definition ticks (bs : list block_ctx) (ei : EpochInfo) : EpochInfo := foldl (λ e b, tick b e) ei bs.

Definition hooks_total {world} (hooks : EpochHooks world) : Prop :=
  ∀ c w, ∃ w', run_hook hooks c w = Ok w'.

Lemma run_hooks_total {world} (hooks : EpochHooks world) cs w :
  hooks_total hooks → ∃ w', run_hooks hooks cs w = Ok w'.
Proof.
  intros Ht. revert w. induction cs as [|c cs IH]; intros w; [by eexists|].
  simpl. destruct (Ht c w) as [w1 ->]. apply IH.
Qed.

Lemma run_blocks_ticks {world} (hooks : EpochHooks world) bs store w store' w' :
  keyed store → run_blocks hooks bs (store, w) = Ok (store', w') → store' = ticks bs <$> store.
Proof.
  revert store w. induction bs as [|b bs IH]; intros store w Hk Hr; simpl in Hr.
  { simplify_eq. unfold ticks. simpl. by rewrite map_fmap_id. }
  inv_bind Hr. rewrite BeginBlocker_ticks in Hr_1 by done. inv_bind Hr_1. simplify_eq.
  apply IH in Hr; [|by apply keyed_tick]. by rewrite Hr, <-map_fmap_compose.
Qed.

Lemma run_blocks_total {world} (hooks : EpochHooks world) bs store w :
  keyed store → hooks_total hooks → ∃ w', run_blocks hooks bs (store, w) = Ok (ticks bs <$> store, w').
Proof.
  intros Hk Ht.
  assert (∃ s', run_blocks hooks bs (store, w) = Ok s') as [[store' w'] Hr].
  { revert store w Hk. induction bs as [|b bs IH]; intros store w Hk; simpl; [eauto|].
    rewrite BeginBlocker_ticks by done.
    destruct (run_hooks_total hooks (epoch_entries store ≫= epoch_calls b) w Ht) as [w1 ->].
    simpl. apply IH. by apply keyed_tick. }
  exists w'. by rewrite Hr, (run_blocks_ticks _ _ _ _ _ _ Hk Hr).
Qed.

(** An epoch that counts from [StartTime] in steps of [Duration] and whose current
    epoch has begun at [now]. *)
Record clock (now : Z) (ei : EpochInfo) : Prop := {
  clock_number : 1 <= ei_CurrentEpoch ei;
  clock_start : ei_CurrentEpochStartTime ei = ei_StartTime ei + (ei_CurrentEpoch ei - 1) * ei_Duration ei;
  clock_begun : ei_CurrentEpochStartTime ei <= now
}.

Definition started_clock (now : Z) (ei : EpochInfo) : Prop :=
  if ei_EpochCountingStarted ei then clock now ei else now < ei_StartTime ei.

Lemma tick_fields ctx ei :
  ei_StartTime (tick ctx ei) = ei_StartTime ei ∧ ei_Duration (tick ctx ei) = ei_Duration ei.
Proof. unfold tick. by repeat case_match. Qed.

Lemma tick_clock ctx ei :
  ei_CurrentEpoch ei < MaxInt64 → 0 < ei_Duration ei →
  (ei_EpochCountingStarted ei = true → clock (BlockTime ctx) ei) →
  started_clock (BlockTime ctx) (tick ctx ei) ∧
  ei_CurrentEpoch (tick ctx ei) <= Z.max 0 (ei_CurrentEpoch ei) + 1.
Proof.
  intros Hmax Hd Hc. unfold tick, started_clock, shouldEpochEnd, shouldInitialEpochStart.
  destruct (ei_EpochCountingStarted ei) eqn:Hs; simpl.
  - destruct (Hc eq_refl) as [Hn Ht Hb].
    destruct (Z.ltb_spec (ei_CurrentEpochStartTime ei + ei_Duration ei) (BlockTime ctx)); simpl;
      [|rewrite Hs; split; [done|lia]].
    destruct (Z.ltb_spec (BlockTime ctx) (ei_StartTime ei)); simpl; [rewrite Hs; split; [done|lia]|].
    rewrite Hs. rewrite !i64_small by (unfold in_i64, MaxInt64 in *; lia).
    split; [|lia]. split; simpl; rewrite ?i64_small by (unfold in_i64, MaxInt64 in *; lia); nia.
  - destruct (Z.ltb_spec (BlockTime ctx) (ei_StartTime ei)); simpl.
    + rewrite !andb_false_r. rewrite Hs. split; [done|lia].
    + split; [|lia]. split; simpl; lia.
Qed.

(** The time of the last block of a run, from [t0]. *)
Definition last_time (t0 : Z) (bs : list block_ctx) : Z := foldl (λ _ b, BlockTime b) t0 bs.

(** Block times do not go back. *)
Fixpoint times_from (t0 : Z) (bs : list block_ctx) : Prop :=
  match bs with
  | [] => True
  | b :: bs => t0 <= BlockTime b ∧ times_from (BlockTime b) bs
  end.

Lemma ticks_clock bs t0 ei :
  started_clock t0 ei → times_from t0 bs → 0 < ei_Duration ei →
  Z.max 0 (ei_CurrentEpoch ei) + Z.of_nat (length bs) < MaxInt64 →
  started_clock (last_time t0 bs) (ticks bs ei) ∧
  ei_CurrentEpoch (ticks bs ei) <= Z.max 0 (ei_CurrentEpoch ei) + Z.of_nat (length bs) ∧
  ei_StartTime (ticks bs ei) = ei_StartTime ei ∧ ei_Duration (ticks bs ei) = ei_Duration ei.
Proof.
  revert t0 ei. induction bs as [|b bs IH]; intros t0 ei Hc Ht Hd Hmax.
  { split; [done|]. split; [simpl; lia|done]. }
  simpl in Ht, Hmax. destruct Ht as [Hb Ht]. destruct (tick_fields b ei) as [HS HD].
  destruct (tick_clock b ei) as [Hc1 Hn1]; [lia|done| |].
  { unfold started_clock in Hc. intros Hs. rewrite Hs in Hc. destruct Hc. split; lia. }
  destruct (IH (BlockTime b) (tick b ei)) as (H1 & H2 & H3 & H4); [done|done|lia|lia|].
  split; [done|]. rewrite <-HS, <-HD. split; [|done].
  change (ticks (b :: bs) ei) with (ticks bs (tick b ei)). simpl. lia.
Qed.

(** An epoch counts time: from a genesis in which it has not started, after
    any blocks whose times do not go back, it has started once a block reached its
    start time; its current epoch [n] began at [StartTime + (n - 1) * Duration], not
    after the last block, and [n] is at most the number of blocks. *)
Theorem epoch_clock {world} (hooks : EpochHooks world) bs t0 store w store' w' id ei :
  keyed store → store !! id = Some ei → ei_EpochCountingStarted ei = false →
  ei_CurrentEpoch ei = 0 → 0 < ei_Duration ei → t0 < ei_StartTime ei → times_from t0 bs →
  Z.of_nat (length bs) < MaxInt64 →
  run_blocks hooks bs (store, w) = Ok (store', w') →
  ∃ ei', store' !! id = Some ei' ∧ ei_StartTime ei' = ei_StartTime ei ∧
    ei_Duration ei' = ei_Duration ei ∧
    if ei_EpochCountingStarted ei' then
      1 <= ei_CurrentEpoch ei' <= Z.of_nat (length bs) ∧
      ei_CurrentEpochStartTime ei' = ei_StartTime ei + (ei_CurrentEpoch ei' - 1) * ei_Duration ei ∧
      ei_CurrentEpochStartTime ei' <= last_time t0 bs
    else last_time t0 bs < ei_StartTime ei.
Proof.
  intros Hk Hid Hs Hn Hd Ht0 Ht Hlen Hr. apply run_blocks_ticks in Hr; [|done]. subst store'.
  exists (ticks bs ei). rewrite lookup_fmap, Hid.
  destruct (ticks_clock bs t0 ei) as (Hc & Hle & HS & HD); [|done|done|lia|].
  { unfold started_clock. by rewrite Hs. }
  split; [done|]. split; [done|]. split; [done|]. unfold started_clock in Hc.
  destruct (ei_EpochCountingStarted (ticks bs ei)); [|lia].
  destruct Hc as [H1 H2 H3]. rewrite Hn in Hle. rewrite <-HS, <-HD. split; [lia|]. split; [done|lia].
Qed.

(** Ticks of an epoch that is late. *)
Lemma tick_late b ei :
  ei_EpochCountingStarted ei = true → clock (BlockTime b) ei →
  ei_StartTime ei + ei_CurrentEpoch ei * ei_Duration ei < BlockTime b → 0 < ei_Duration ei →
  tick b ei = EndEpoch (with_height (BlockHeight b) ei).
Proof.
  intros Hs [Hn Hst _] Hl Hd. unfold tick, shouldEpochEnd, shouldInitialEpochStart.
  rewrite Hs. simpl. rewrite (proj2 (Z.ltb_lt (_ + _) _)), (proj2 (Z.ltb_ge _ _)) by nia. done.
Qed.

Lemma ticks_late bs ei :
  ei_EpochCountingStarted ei = true → 0 < ei_Duration ei →
  1 <= ei_CurrentEpoch ei → ei_CurrentEpoch ei + Z.of_nat (length bs) < MaxInt64 →
  ei_CurrentEpochStartTime ei = ei_StartTime ei + (ei_CurrentEpoch ei - 1) * ei_Duration ei →
  Forall (λ b, ei_StartTime ei + (ei_CurrentEpoch ei + Z.of_nat (length bs) - 1) * ei_Duration ei
               < BlockTime b) bs →
  ei_CurrentEpoch (ticks bs ei) = ei_CurrentEpoch ei + Z.of_nat (length bs).
Proof.
  revert ei. induction bs as [|b bs IH]; intros ei Hs Hd Hn Hmax Hst Hb; simpl in *; [lia|].
  apply Forall_cons in Hb as [Hb Hbs].
  assert (tick b ei = EndEpoch (with_height (BlockHeight b) ei)) as Heq.
  { apply tick_late; [done|split; [done|done|nia]|nia|done]. }
  change (ticks (b :: bs) ei) with (ticks bs (tick b ei)). rewrite Heq.
  rewrite IH; simpl; rewrite ?i64_small by (unfold in_i64, MaxInt64 in *; lia); try done; try nia.
  eapply Forall_impl; [exact Hbs|]. simpl. intros b'. 
  replace (ei_CurrentEpoch ei + 1 + Z.of_nat (length bs) - 1)
    with (ei_CurrentEpoch ei + Z.of_nat (S (length bs)) - 1) by lia. done.
Qed.

(** An epoch that is late catches up one epoch per block: when the hooks do
    not fail, [n] blocks that come after [StartTime + (n - 1) * Duration] bring an
    epoch that had not started to number [n]. *)
Theorem epoch_catches_up {world} (hooks : EpochHooks world) bs store w id ei :
  keyed store → hooks_total hooks → store !! id = Some ei → ei_EpochCountingStarted ei = false →
  0 < ei_Duration ei → 0 < Z.of_nat (length bs) < MaxInt64 →
  Forall (λ b, ei_StartTime ei + (Z.of_nat (length bs) - 1) * ei_Duration ei < BlockTime b) bs →
  ∃ store' w' ei', run_blocks hooks bs (store, w) = Ok (store', w') ∧
    store' !! id = Some ei' ∧ ei_CurrentEpoch ei' = Z.of_nat (length bs).
Proof.
  intros Hk Ht Hid Hs Hd Hlen Hb. destruct (run_blocks_total hooks bs store w Hk Ht) as [w' Hr].
  exists (ticks bs <$> store), w', (ticks bs ei). split; [done|]. rewrite lookup_fmap, Hid.
  split; [done|]. destruct bs as [|b bs]; [simpl in Hlen; lia|].
  apply Forall_cons in Hb as [Hb Hbs]. simpl in *.
  change (ticks (b :: bs) ei) with (ticks bs (tick b ei)).
  assert (tick b ei = StartInitialEpoch (with_height (BlockHeight b) ei)) as ->.
  { unfold tick, shouldInitialEpochStart. rewrite Hs, (proj2 (Z.ltb_ge _ _)) by nia. done. }
  rewrite ticks_late; simpl; try done; try lia.
  eapply Forall_impl; [exact Hbs|]. simpl. intros b'.
  replace (1 + Z.of_nat (length bs) - 1) with (Z.of_nat (S (length bs)) - 1) by lia. done.
Qed.

(** ** Genesis *)

Lemma init_epoch_Identifier ctx ei : ei_Identifier (init_epoch ctx ei) = ei_Identifier ei.
Proof. unfold init_epoch. by destruct (_ =? _). Qed.

Lemma init_epoch_idem ctx ei : init_epoch ctx (init_epoch ctx ei) = init_epoch ctx ei.
Proof.
  unfold init_epoch. destruct (ei_StartTime ei =? zero_time_ns) eqn:E; simpl; [|by rewrite E].
  by destruct (BlockTime ctx =? zero_time_ns).
Qed.

Lemma InitGenesis_keyed ctx gs store : keyed store → keyed (InitGenesis ctx gs store).
Proof. revert store. induction gs; intros store Hk; [done|]. by apply IHgs, keyed_Set. Qed.

Lemma InitGenesis_other ctx gs store id :
  (id ∉ ei_Identifier <$> gs) → InitGenesis ctx gs store !! id = store !! id.
Proof.
  revert store. induction gs as [|e gs IH]; intros store Hid; [done|]. rewrite fmap_cons in Hid.
  simpl. rewrite IH by set_solver. unfold SetEpochInfo.
  rewrite lookup_insert_ne; [done|]. rewrite init_epoch_Identifier. set_solver.
Qed.

Lemma InitGenesis_lookup ctx gs store ei :
  NoDup (ei_Identifier <$> gs) → ei ∈ gs →
  InitGenesis ctx gs store !! ei_Identifier ei = Some (init_epoch ctx ei).
Proof.
  revert store. induction gs as [|e gs IH]; intros store Hnd Hin; [by apply not_elem_of_nil in Hin|].
  rewrite fmap_cons, NoDup_cons in Hnd. destruct Hnd as [Hni Hnd]. simpl.
  apply elem_of_cons in Hin as [->|Hin]; [|by apply IH].
  rewrite InitGenesis_other by done. unfold SetEpochInfo.
  by rewrite init_epoch_Identifier, lookup_insert_eq.
Qed.

Lemma validate_NoDup gs seen :
  validate_epochs seen gs = None →
  NoDup (ei_Identifier <$> gs) ∧ (∀ id, id ∈ ei_Identifier <$> gs → id ∉ seen) ∧
  Forall (λ ei, EpochInfo_Validate ei = None) gs.
Proof.
  revert seen. induction gs as [|e gs IH]; intros seen Hv; simpl in Hv.
  { split; [constructor|]. split; [intros id Hid; by apply not_elem_of_nil in Hid|constructor]. }
  case_decide as Hs; [done|]. destruct (EpochInfo_Validate e) eqn:He; [done|].
  apply IH in Hv as (Hnd & Hni & Hall). rewrite fmap_cons. split; [|split; [|by constructor]].
  - apply NoDup_cons. split; [|done]. intros Hin. apply (Hni _ Hin). set_solver.
  - intros id [->|Hin]%elem_of_cons; [done|]. apply Hni in Hin. set_solver.
Qed.

Lemma iterate_all l i acc :
  iterate_loop (λ _ epochInfo epochs, Ok (epochs ++ [epochInfo], false)) i l acc = Ok (acc ++ l).
Proof.
  revert i acc. induction l as [|e l IH]; intros i acc; simpl; [by rewrite app_nil_r|].
  by rewrite IH, <-app_assoc.
Qed.

Lemma ExportGenesis_entries store : ExportGenesis store = Ok (epoch_entries store).
Proof. apply iterate_all. Qed.

(** A genesis state that validates is imported completely: each epoch is stored
    under its identifier, starting at the block time if it gave no start time; what
    is exported then is what was imported, in the order of the identifiers, and
    importing it again gives the same store. *)
Theorem epochs_genesis_roundtrip ctx gs :
  GenesisState_Validate gs = None →
  let store := InitGenesis ctx gs ∅ in
  keyed store ∧ (∀ ei, ei ∈ gs → GetEpochInfo (ei_Identifier ei) store = Some (init_epoch ctx ei)) ∧
  ∃ out, ExportGenesis store = Ok out ∧ out ≡ₚ init_epoch ctx <$> gs ∧
    ei_Identifier <$> out = sorted_names store ∧ InitGenesis ctx out ∅ = store.
Proof.
  intros (Hnd & _ & _)%validate_NoDup. intros store.
  assert (keyed store) as Hk by (apply InitGenesis_keyed, map_Forall_empty).
  assert (∀ ei, ei ∈ gs → store !! ei_Identifier ei = Some (init_epoch ctx ei)) as Hget.
  { intros ei. by apply InitGenesis_lookup. }
  split; [done|]. split; [done|]. exists (epoch_entries store). split; [apply ExportGenesis_entries|].
  pose proof (epoch_entries_names store Hk) as Hn.
  assert (NoDup (ei_Identifier <$> epoch_entries store)) as Hnd' by (rewrite Hn; apply NoDup_sorted_names).
  assert (∀ ei, ei ∈ epoch_entries store ↔ ei ∈ init_epoch ctx <$> gs) as Hel.
  { intros ei. rewrite elem_of_epoch_entries, list_elem_of_fmap by done. split.
    - intros Hei. destruct (decide (ei_Identifier ei ∈ ei_Identifier <$> gs)) as [Hin|Hni].
      + apply list_elem_of_fmap in Hin as (e & Heq & Hin). exists e. split; [|done].
        rewrite Heq, Hget in Hei by done. by simplify_eq.
      + unfold store in Hei. rewrite InitGenesis_other, lookup_empty in Hei by done. done.
    - intros (e & -> & Hin). rewrite init_epoch_Identifier. by apply Hget. }
  assert (NoDup (init_epoch ctx <$> gs)) as Hndi.
  { apply (NoDup_fmap_1 ei_Identifier). rewrite <-list_fmap_compose.
    rewrite (list_fmap_ext _ ei_Identifier gs); [done|intros; apply init_epoch_Identifier]. }
  assert (NoDup (epoch_entries store)) as Hnde by (by eapply NoDup_fmap_1).
  split; [by apply NoDup_Permutation|]. split; [done|]. apply map_eq. intros id.
  destruct (store !! id) as [ei|] eqn:Hid.
  - assert (ei_Identifier ei = id) as <- by exact (Hk _ _ Hid).
    assert (ei ∈ epoch_entries store) as Hin by (by apply elem_of_epoch_entries).
    rewrite InitGenesis_lookup by done. apply Hel, list_elem_of_fmap in Hin as (e & -> & _).
    by rewrite init_epoch_idem.
  - rewrite InitGenesis_other; [apply lookup_empty|]. rewrite Hn, elem_of_sorted_names, Hid.
    by intros [? ?].
Qed.

(** ** Witnesses *)

Module EpochsToy.
(** Hooks that record their calls. *)
Definition log_hooks : EpochHooks (list hook_call) :=
  mkHooks _ (λ id n w, Ok (w ++ [Ended id n])) (λ id n w, Ok (w ++ [Starting id n])).

Definition genesis_ctx : block_ctx := mkBlock 1 (1000 * hour_ns).
Definition toy_store : epoch_store := InitGenesis genesis_ctx DefaultGenesisState ∅.
Definition hours (ns : list Z) : list block_ctx := (λ n, mkBlock (2 + n) ((1000 + n) * hour_ns)) <$> ns.

Lemma toy_keyed : keyed toy_store.
Proof. apply InitGenesis_keyed, map_Forall_empty. Qed.

Lemma log_total : hooks_total log_hooks.
Proof. intros [] w; by eexists. Qed.

Definition day_epoch : EpochInfo := init_epoch genesis_ctx (mkEpoch DayEpochID zero_time_ns (hour_ns * 24) 0 zero_time_ns false 0).

Lemma begin_blocker_ticks_witness :
  BeginBlocker log_hooks genesis_ctx (toy_store, []) =
  Ok (tick genesis_ctx <$> toy_store, [Starting DayEpochID 1; Starting WeekEpochID 1]).
Proof.
  rewrite (proj1 (begin_blocker_ticks log_hooks genesis_ctx toy_store [] toy_keyed)).
  vm_compute. reflexivity.
Defined.

Lemma epoch_clock_witness :
  ∃ ei', (ticks (hours [0; 20; 30]) <$> toy_store) !! DayEpochID = Some ei' ∧
    ei_StartTime ei' = 1000 * hour_ns.
Proof.
  destruct (epoch_clock log_hooks (hours [0; 20; 30]) 0 toy_store []
     (ticks (hours [0; 20; 30]) <$> toy_store)
     [Starting DayEpochID 1; Starting WeekEpochID 1; Ended DayEpochID 2; Starting DayEpochID 2]
     DayEpochID day_epoch) as (ei' & Hei' & Hst & _).
  - exact toy_keyed.
  - vm_compute. reflexivity.
  - reflexivity.
  - reflexivity.
  - vm_compute. reflexivity.
  - vm_compute. reflexivity.
  - vm_compute. repeat split; discriminate.
  - vm_compute. reflexivity.
  - vm_compute. reflexivity.
  - exists ei'. split; [exact Hei'|]. rewrite Hst. vm_compute. reflexivity.
Defined.

Lemma epoch_catches_up_witness :
  ∃ store' w' ei', run_blocks log_hooks (hours [100; 101; 102]) (toy_store, []) = Ok (store', w') ∧
    store' !! DayEpochID = Some ei' ∧ ei_CurrentEpoch ei' = 3.
Proof.
  apply (epoch_catches_up log_hooks (hours [100; 101; 102]) toy_store [] DayEpochID day_epoch).
  - exact toy_keyed.
  - exact log_total.
  - vm_compute. reflexivity.
  - reflexivity.
  - vm_compute. reflexivity.
  - vm_compute. split; reflexivity.
  - repeat constructor.
Defined.

Lemma epochs_genesis_roundtrip_witness :
  GenesisState_Validate DefaultGenesisState = None ∧
  ∃ out, ExportGenesis toy_store = Ok out ∧ InitGenesis genesis_ctx out ∅ = toy_store.
Proof.
  split; [vm_compute; reflexivity|].
  destruct (epochs_genesis_roundtrip genesis_ctx DefaultGenesisState) as (_ & _ & out & H1 & _ & _ & H2).
  - vm_compute. reflexivity.
  - exists out. split; [exact H1|exact H2].
Defined.
End EpochsToy.
