(* ===== verification/Inflation.v ===== *)
(** * The inflation module: [x/inflation/v1]

    At the end of each epoch with its identifier the module mints the provision of
    the epoch, sends the staking share to the fee collector and the rest of its
    balance to the community pool; every [epochsPerPeriod] minting epochs the
    period moves on and the provision decays.  The decimals are [LegacyDec]; bank,
    distribution and staking are [InflationEnv].  Telemetry and events are left out. *)

From S2P Require Import Prelude ChainID Sdk Dec Epochs.

Definition inflation_ModuleName : string := "inflation".
Definition PowerReduction : Z := 10 ^ 18.
Definition ReductionFactor : Z := 3.

(** 200M tokens. *)
Definition teamAlloc : Z := 200000000 * PowerReduction.

(** ** The other modules *)

Class InflationEnv `{Coins} := {
  ienv : Type;
  env_error : Type;
  one_coin : string → Z → coins;
  denom_ok : string → bool;
  ChainID : ienv → string;
  feeCollectorName : string;
  inflation_authority : string;
  GetModuleAddress : string → Z;
  MintCoins_bank : ienv → string → coins → outcome env_error ienv;
  SendCoinsFromModuleToModule : ienv → string → string → coins → outcome env_error ienv;
  GetAllBalances : ienv → Z → coins;
  GetSupply : ienv → string → Z;
  FundCommunityPool : ienv → coins → Z → outcome env_error ienv;
  StakingTokenSupply : ienv → Z;
  TotalBondedTokens : ienv → Z
}.

Section Inflation.
Context `{LD : LegacyDec} `{IE : InflationEnv}.

(** ** Parameters: [types/params.go] *)

Record ExponentialCalculation := mkExponential {
  ec_A : dec;
  ec_R : dec;
  ec_C : dec;
  ec_BondingTarget : dec;
  ec_MaxVariance : dec
}.

Record InflationDistribution := mkDistribution {
  id_StakingRewards : dec;
  id_UsageIncentives : dec;
  id_CommunityPool : dec
}.

Record Params := mkParams {
  ip_MintDenom : string;
  ip_ExponentialCalculation : ExponentialCalculation;
  ip_InflationDistribution : InflationDistribution;
  ip_EnableInflation : bool
}.

Inductive params_error :=
| BlankDenom
| InvalidDenom
| NegativeInitialValue
| ReductionAboveOne
| NegativeReduction
| NegativeLongTerm
| BondedTargetAboveOne
| BondedTargetNotPositive
| NegativeVariance
| NegativeStaking
| UsageIncentivesDeprecated
| NegativeCommunityPool
| TotalNotOne
| BlankEpochIdentifier
| EpochsPerPeriodNotPositive.

Definition validateMintDenom (v : string) : option params_error :=
  if blank v then Some BlankDenom else if denom_ok v then None else Some InvalidDenom.

Definition validateExponentialCalculation (v : ExponentialCalculation) : option params_error :=
  if dec_IsNegative (ec_A v) then Some NegativeInitialValue
  else if dec_GT (ec_R v) (LegacyNewDec 1) then Some ReductionAboveOne
  else if dec_IsNegative (ec_R v) then Some NegativeReduction
  else if dec_IsNegative (ec_C v) then Some NegativeLongTerm
  else if dec_GT (ec_BondingTarget v) (LegacyNewDec 1) then Some BondedTargetAboveOne
  else if negb (dec_IsPositive (ec_BondingTarget v)) then Some BondedTargetNotPositive
  else if dec_IsNegative (ec_MaxVariance v) then Some NegativeVariance
  else None.

Definition validateInflationDistribution (v : InflationDistribution) : partial (option params_error) :=
  if dec_IsNegative (id_StakingRewards v) then Ok (Some NegativeStaking)
  else if negb (dec_IsZero (id_UsageIncentives v)) then Ok (Some UsageIncentivesDeprecated)
  else if dec_IsNegative (id_CommunityPool v) then Ok (Some NegativeCommunityPool)
  else
    sum ← dec_Add (id_StakingRewards v) (id_UsageIncentives v);
    totalProportions ← dec_Add sum (id_CommunityPool v);
    if negb (dec_Equal totalProportions (LegacyNewDec 1)) then Ok (Some TotalNotOne) else Ok None.

Definition Params_Validate (p : Params) : partial (option params_error) :=
  match validateMintDenom (ip_MintDenom p) with
  | Some err => Ok (Some err)
  | None =>
      match validateExponentialCalculation (ip_ExponentialCalculation p) with
      | Some err => Ok (Some err)
      | None => validateInflationDistribution (ip_InflationDistribution p)
      end
  end.

Definition DefaultExponentialCalculation : ExponentialCalculation :=
  mkExponential (LegacyNewDec 300000000) (LegacyNewDecWithPrec 50 2) (LegacyNewDec 9375000)
    (LegacyNewDecWithPrec 66 2) LegacyZeroDec.

Definition DefaultInflationDistribution : InflationDistribution :=
  mkDistribution (LegacyNewDecWithPrec 533333334 9) LegacyZeroDec (LegacyNewDecWithPrec 466666666 9).

(** ** The provision: [types/inflation_calculation.go] *)

(** The test [maxVariance != math.LegacyZeroDec()] compares two structs that hold
    pointers, the second freshly allocated, so it always holds and the branch for a
    zero variance is never taken. *)
Definition CalculateEpochMintProvision (params : Params) (period epochsPerPeriod : Z)
    (bondedRatio : dec) : partial dec :=
  let ec := ip_ExponentialCalculation params in
  decay ← dec_Sub LegacyOneDec (ec_R ec);
  power ← dec_Power decay period;
  exponentialDecay ← dec_Mul (ec_A ec) power;
  let bondedRatio := if dec_GTE bondedRatio (ec_BondingTarget ec) then ec_BondingTarget ec else bondedRatio in
  ratio ← dec_Quo bondedRatio (ec_BondingTarget ec);
  sub ← dec_Mul (ec_MaxVariance ec) ratio;
  incentive ← dec_Add LegacyOneDec (ec_MaxVariance ec);
  bondingIncentive ← dec_Sub incentive sub;
  provision ← dec_Mul exponentialDecay bondingIncentive;
  periodProvision ← dec_Add provision (ec_C ec);
  reducedPeriodProvision ← dec_Quo periodProvision (LegacyNewDec ReductionFactor);
  epochProvision ← dec_Quo reducedPeriodProvision (LegacyNewDec epochsPerPeriod);
  dec_Mul epochProvision (LegacyNewDecFromInt PowerReduction).

(** ** The store: [keeper/epoch_info.go], [keeper/periods.go], [keeper/params.go]

    A key that is not set reads as zero; the parameters are set at genesis. *)

Record inflation_store := mkInflation {
  is_params : Params;
  is_period : option Z;
  is_epochIdentifier : option string;
  is_epochsPerPeriod : option Z;
  is_skippedEpochs : option Z
}.

Definition GetParams (s : inflation_store) : Params := is_params s.
Definition GetPeriod (s : inflation_store) : Z := default 0 (is_period s).
Definition GetEpochIdentifier (s : inflation_store) : string := default EmptyString (is_epochIdentifier s).
Definition GetEpochsPerPeriod (s : inflation_store) : Z := default 0 (is_epochsPerPeriod s).
Definition GetSkippedEpochs (s : inflation_store) : Z := default 0 (is_skippedEpochs s).

Definition SetParams (p : Params) (s : inflation_store) : inflation_store :=
  mkInflation p (is_period s) (is_epochIdentifier s) (is_epochsPerPeriod s) (is_skippedEpochs s).
Definition SetPeriod (period : Z) (s : inflation_store) : inflation_store :=
  mkInflation (is_params s) (Some period) (is_epochIdentifier s) (is_epochsPerPeriod s) (is_skippedEpochs s).
Definition SetEpochIdentifier (id : string) (s : inflation_store) : inflation_store :=
  mkInflation (is_params s) (is_period s) (Some id) (is_epochsPerPeriod s) (is_skippedEpochs s).
Definition SetEpochsPerPeriod (epp : Z) (s : inflation_store) : inflation_store :=
  mkInflation (is_params s) (is_period s) (is_epochIdentifier s) (Some epp) (is_skippedEpochs s).
Definition SetSkippedEpochs (n : Z) (s : inflation_store) : inflation_store :=
  mkInflation (is_params s) (is_period s) (is_epochIdentifier s) (is_epochsPerPeriod s) (Some n).

(** ** Minting and allocation: [keeper/inflation.go] *)

Abbreviation bank_result A := (outcome env_error A).

Definition no_error {A} (x : partial A) : bank_result A :=
  match x with Ok a => Ok a | Err e => match e with end | Panic => Panic end.

Definition MintCoins (denom : string) (amount : Z) (e : ienv) : bank_result ienv :=
  MintCoins_bank e inflation_ModuleName (one_coin denom amount).

Definition GetProportions (amount : Z) (distribution : dec) : partial Z :=
  share ← dec_Mul (LegacyNewDecFromInt amount) distribution; dec_TruncateInt share.

Definition AllocateExponentialInflation (denom : string) (amount : Z) (params : Params) (e : ienv) :
    bank_result ienv :=
  staking ← no_error (GetProportions amount (id_StakingRewards (ip_InflationDistribution params)));
  e ← SendCoinsFromModuleToModule e inflation_ModuleName feeCollectorName (one_coin denom staking);
  let moduleAddr := GetModuleAddress inflation_ModuleName in
  FundCommunityPool e (GetAllBalances e moduleAddr) moduleAddr.

Definition MintAndAllocateInflation (denom : string) (amount : Z) (params : Params) (e : ienv) :
    bank_result ienv :=
  if negb (0 <? amount) then Ok e
  else
    e ← MintCoins denom amount e;
    AllocateExponentialInflation denom amount params e.

Definition BondedRatio (e : ienv) : partial dec :=
  let stakeSupply := StakingTokenSupply e in
  let isMainnet := IsMainnet (ChainID e) in
  if negb (0 <? stakeSupply) || (isMainnet && (stakeSupply <=? teamAlloc)) then Ok LegacyZeroDec
  else
    let stakeSupply := if (isMainnet : bool) then stakeSupply - teamAlloc else stakeSupply in
    dec_QuoInt (LegacyNewDecFromInt (TotalBondedTokens e)) stakeSupply.

Definition GetCirculatingSupply (mintDenom : string) (e : ienv) : partial dec :=
  let circulatingSupply := LegacyNewDecFromInt (GetSupply e mintDenom) in
  let teamAllocation := LegacyNewDecFromInt teamAlloc in
  if IsMainnet (ChainID e) then dec_Sub circulatingSupply teamAllocation else Ok circulatingSupply.

Definition GetEpochMintProvision (s : inflation_store) (e : ienv) : partial dec :=
  bonded ← BondedRatio e;
  CalculateEpochMintProvision (GetParams s) (GetPeriod s) (GetEpochsPerPeriod s) bonded.

Definition GetInflationRate (mintDenom : string) (s : inflation_store) (e : ienv) : partial dec :=
  let epp := GetEpochsPerPeriod s in
  if epp =? 0 then Ok LegacyZeroDec
  else
    epochMintProvision ← GetEpochMintProvision s e;
    if dec_IsZero epochMintProvision then Ok LegacyZeroDec
    else
      circulatingSupply ← GetCirculatingSupply mintDenom e;
      if dec_IsZero circulatingSupply then Ok LegacyZeroDec
      else
        yearly ← dec_Mul epochMintProvision (LegacyNewDec epp);
        rate ← dec_Quo yearly circulatingSupply;
        dec_Mul rate (LegacyNewDec 100).

(** ** The epoch hook: [keeper/hooks.go] *)

Definition panic_on_error {A} (x : bank_result A) : partial A :=
  match x with Ok a => Ok a | Err _ => Panic | Panic => Panic end.

Definition AfterEpochEnd (epochIdentifier : string) (epochNumber : Z) (w : inflation_store * ienv) :
    partial (inflation_store * ienv) :=
  let '(s, e) := w in
  let params := GetParams s in
  let skippedEpochs := GetSkippedEpochs s in
  if negb (ip_EnableInflation params) then
    if decide (epochIdentifier ≠ DayEpochID) then Ok (s, e)
    else Ok (SetSkippedEpochs (u64 (skippedEpochs + 1)) s, e)
  else if decide (epochIdentifier ≠ GetEpochIdentifier s) then Ok (s, e)
  else
    let period := GetPeriod s in
    let epochsPerPeriod := GetEpochsPerPeriod s in
    bondedRatio ← BondedRatio e;
    epochMintProvision ← CalculateEpochMintProvision params period epochsPerPeriod bondedRatio;
    if negb (dec_IsPositive epochMintProvision) then Ok (s, e)
    else
      amount ← dec_TruncateInt epochMintProvision;
      e ← panic_on_error (MintAndAllocateInflation (ip_MintDenom params) amount params e);
      if epochsPerPeriod <?
           i64 (i64 (epochNumber - i64 (epochsPerPeriod * i64 period)) - i64 skippedEpochs)
      then Ok (SetPeriod (u64 (period + 1)) s, e)
      else Ok (s, e).

Definition BeforeEpochStart (_ : string) (_ : Z) (w : inflation_store * ienv) :
    partial (inflation_store * ienv) := Ok w.

Definition Hooks : EpochHooks (inflation_store * ienv) :=
  mkHooks _ AfterEpochEnd BeforeEpochStart.

(** ** Messages and genesis: [keeper/msg_server.go], [genesis.go] *)

Definition UpdateParams (authority : string) (p : Params) (s : inflation_store) : option inflation_store :=
  if decide (inflation_authority = authority) then Some (SetParams p s) else None.

Record GenesisState := mkGenesis {
  gs_Params : Params;
  gs_Period : Z;
  gs_EpochIdentifier : string;
  gs_EpochsPerPeriod : Z;
  gs_SkippedEpochs : Z
}.

Definition Genesis_Validate (gs : GenesisState) : partial (option params_error) :=
  match ValidateEpochIdentifierString (gs_EpochIdentifier gs) with
  | Some _ => Ok (Some BlankEpochIdentifier)
  | None =>
      if gs_EpochsPerPeriod gs <=? 0 then Ok (Some EpochsPerPeriodNotPositive)
      else Params_Validate (gs_Params gs)
  end.

Definition InitGenesis (gs : GenesisState) (s : inflation_store) : inflation_store :=
  SetSkippedEpochs (gs_SkippedEpochs gs)
    (SetEpochsPerPeriod (gs_EpochsPerPeriod gs)
      (SetEpochIdentifier (gs_EpochIdentifier gs)
        (SetPeriod (gs_Period gs) (SetParams (gs_Params gs) s)))).

Definition ExportGenesis (s : inflation_store) : GenesisState :=
  mkGenesis (GetParams s) (GetPeriod s) (GetEpochIdentifier s) (GetEpochsPerPeriod s) (GetSkippedEpochs s).
End Inflation.
