(* ===== verification/InflationSpec.v ===== *)
(** * Properties of the inflation module

    The provision of an epoch stays within its formula, what is minted is split
    between the fee collector and the community pool without loss, and the period
    counts the epochs in which inflation minted. *)

From S2P Require Import Prelude ChainID Sdk Dec Epochs Inflation.

(** ** The provision *)

Section Provision.
Context `{DL : DecLaws} `{IE : InflationEnv}.

Lemma raw_NewDec n : raw (LegacyNewDec n) = n * dec_one.
Proof. apply raw_FromInt. Qed.

Lemma raw_OneDec : raw LegacyOneDec = dec_one.
Proof. unfold LegacyOneDec. rewrite raw_NewDec. lia. Qed.

Record exponential_ok (ec : ExponentialCalculation) : Prop := {
  eo_A : 0 <= raw (ec_A ec);
  eo_R : 0 <= raw (ec_R ec) <= dec_one;
  eo_C : 0 <= raw (ec_C ec);
  eo_target : 0 < raw (ec_BondingTarget ec);
  eo_variance : 0 <= raw (ec_MaxVariance ec)
}.

Lemma validateExponential_ok ec : validateExponentialCalculation ec = None → exponential_ok ec.
Proof.
  unfold validateExponentialCalculation. rewrite !IsNegative_spec, !GT_spec, IsPositive_spec, raw_NewDec.
  intros Hv. case_guards Hv. split; lia.
Qed.

(** The yearly emission before the reduction factor, in squared units:
    [A * (1 + maxVariance) + C]. *)
Definition emission (ec : ExponentialCalculation) : Z :=
  raw (ec_A ec) * (dec_one + raw (ec_MaxVariance ec)) + raw (ec_C ec) * dec_one.

(** Bounds of the factors of the formula. *)
Lemma incentive_bounds ec bonded ratio sub inc inc1 :
  exponential_ok ec → 0 <= raw bonded <= raw (ec_BondingTarget ec) →
  dec_Quo bonded (ec_BondingTarget ec) = Ok ratio → dec_Mul (ec_MaxVariance ec) ratio = Ok sub →
  dec_Add LegacyOneDec (ec_MaxVariance ec) = Ok inc1 → dec_Sub inc1 sub = Ok inc →
  dec_one <= raw inc <= dec_one + raw (ec_MaxVariance ec).
Proof.
  intros [_ _ _ Ht Hv] Hb [_ Hq]%Quo_inv Hm%Mul_inv Ha%Add_inv Hs%dec_Sub_inv.
  rewrite raw_OneDec in Ha.
  assert (0 <= raw ratio <= dec_one) as Hr.
  { split; [eapply rounds_nonneg; [exact Hq|unfold dec_one; lia|done]|].
    eapply rounds_le; [exact Hq|done|unfold dec_one; nia]. }
  assert (0 <= raw sub <= raw (ec_MaxVariance ec)) as Hsub.
  { split; [eapply rounds_nonneg; [exact Hm|nia|done]|]. eapply rounds_le; [exact Hm|done|nia]. }
  lia.
Qed.

(** [capped] is the bonded ratio, at most the target. *)
Lemma capped_bounds ec bonded :
  exponential_ok ec → 0 <= raw bonded →
  0 <= raw (if dec_GTE bonded (ec_BondingTarget ec) then ec_BondingTarget ec else bonded)
    <= raw (ec_BondingTarget ec).
Proof. intros [] Hb. rewrite GTE_spec. destruct (Z.leb_spec (raw (ec_BondingTarget ec)) (raw bonded)); lia. Qed.

(** The divisions of the formula lose less than a unit each. *)
Lemma divisions_bounds epp pp red ep :
  0 < epp → 0 <= pp →
  rounds red (pp * dec_one) (3 * dec_one) → rounds ep (red * dec_one) (epp * dec_one) →
  0 <= ep ∧ 3 * epp * (ep - 1) < pp ∧ pp < 3 * epp * (ep + 1).
Proof.
  intros Hepp Hpp H1 H2. assert (0 < epp * dec_one) as Hpos by (unfold dec_one; lia).
  pose proof (rounds_upper _ _ _ H1 ltac:(done)). pose proof (rounds_lower _ _ _ H1 ltac:(done)).
  pose proof (rounds_upper _ _ _ H2 Hpos). pose proof (rounds_lower _ _ _ H2 Hpos).
  assert (0 <= red) by (eapply rounds_nonneg; [exact H1|unfold dec_one; lia|done]).
  assert (0 <= ep) by (eapply rounds_nonneg; [exact H2|unfold dec_one; lia|done]).
  assert (3 * red < pp + 3) by (unfold dec_one in *; lia).
  assert (pp - 3 < 3 * red) by (unfold dec_one in *; lia).
  assert (ep * epp < red + epp) by (unfold dec_one in *; lia).
  assert (red - epp < ep * epp) by (unfold dec_one in *; lia).
  split; [done|]. split; lia.
Qed.

Lemma provision_bounds p period epp bonded r :
  exponential_ok (ip_ExponentialCalculation p) → 0 <= raw bonded → 0 < epp →
  CalculateEpochMintProvision p period epp bonded = Ok r →
  ∃ q, raw r = q * dec_one ∧ 0 <= q ∧
    3 * epp * (q - 1) * dec_one < emission (ip_ExponentialCalculation p) + dec_one ∧
    raw (ec_C (ip_ExponentialCalculation p)) < 3 * epp * (q + 1).
Proof.
  unfold CalculateEpochMintProvision. set (ec := ip_ExponentialCalculation p).
  intros Hok Hb Hepp Hx. pose proof Hok as [HA HR HC HT HV].
  apply bind_Ok_inv in Hx as (decay & Hdecay%dec_Sub_inv & Hx). rewrite raw_OneDec in Hdecay.
  apply bind_Ok_inv in Hx as (power & Hpow & Hx). apply Power_unit in Hpow; [|lia].
  apply bind_Ok_inv in Hx as (ed & Hed%Mul_inv & Hx).
  apply bind_Ok_inv in Hx as (ratio & Hratio & Hx). apply bind_Ok_inv in Hx as (sub & Hsub & Hx).
  apply bind_Ok_inv in Hx as (inc1 & Hinc1 & Hx). apply bind_Ok_inv in Hx as (inc & Hinc & Hx).
  pose proof (incentive_bounds ec _ ratio sub inc inc1 Hok (capped_bounds ec bonded Hok Hb) Hratio Hsub Hinc1 Hinc)
    as Hi. clear Hratio Hsub Hinc1 Hinc.
  apply bind_Ok_inv in Hx as (prov & Hprov%Mul_inv & Hx).
  apply bind_Ok_inv in Hx as (pp & Hpp%Add_inv & Hx).
  apply bind_Ok_inv in Hx as (red & [_ Hred]%Quo_inv & Hx). rewrite raw_NewDec in Hred.
  apply bind_Ok_inv in Hx as (ep & [_ Hep]%Quo_inv & Hx). rewrite raw_NewDec in Hep.
  exists (raw ep). split.
  { apply Mul_inv in Hx. rewrite raw_FromInt, Z.mul_assoc in Hx. by apply rounds_exact in Hx. }
  assert (0 <= raw ed <= raw (ec_A ec)) as Hed'.
  { split; [eapply rounds_nonneg; [exact Hed|nia|done]|]. eapply rounds_le; [exact Hed|done|nia]. }
  assert (0 <= raw prov) as Hp0 by (eapply rounds_nonneg; [exact Hprov|nia|done]).
  assert (raw prov * dec_one < raw (ec_A ec) * (dec_one + raw (ec_MaxVariance ec)) + dec_one) as Hp1.
  { apply rounds_upper in Hprov; [|done]. nia. }
  destruct (divisions_bounds epp (raw pp) (raw red) (raw ep)) as (H1 & H2 & H3); [done|lia|done|done|].
  split; [done|]. unfold emission. unfold dec_one in *. lia.
Qed.

(** The emission is far below the 256-bit limit of the decimals. *)
Definition emission_fits (ec : ExponentialCalculation) : Prop :=
  emission ec < 2 ^ 240 ∧ raw (ec_MaxVariance ec) < 2 ^ 240.

Lemma incentive_total ec bonded :
  exponential_ok ec → emission_fits ec → 0 <= raw bonded <= raw (ec_BondingTarget ec) →
  ∃ ratio sub inc1 inc, dec_Quo bonded (ec_BondingTarget ec) = Ok ratio ∧
    dec_Mul (ec_MaxVariance ec) ratio = Ok sub ∧ dec_Add LegacyOneDec (ec_MaxVariance ec) = Ok inc1 ∧
    dec_Sub inc1 sub = Ok inc ∧ dec_one <= raw inc <= dec_one + raw (ec_MaxVariance ec).
Proof.
  intros [_ _ _ Ht Hv] [_ Hf] Hb.
  destruct (Quo_ok bonded (ec_BondingTarget ec) dec_one) as (ratio & Hq & Hr);
    [lia|done|unfold dec_one; nia|done|].
  destruct (Mul_ok (ec_MaxVariance ec) ratio (raw (ec_MaxVariance ec))) as (sub & Hm & Hs);
    [lia|lia|nia|lia|].
  destruct (Add_ok LegacyOneDec (ec_MaxVariance ec)) as (inc1 & Ha & H1).
  { rewrite raw_OneDec. unfold dec_fits, dec_one. lia. }
  rewrite raw_OneDec in H1.
  destruct (dec_Sub_ok inc1 sub) as (inc & Hsub & H2); [unfold dec_fits, dec_one in *; lia|].
  exists ratio, sub, inc1, inc. repeat (split; [done|]). lia.
Qed.

Lemma provision_total p period epp bonded :
  exponential_ok (ip_ExponentialCalculation p) → emission_fits (ip_ExponentialCalculation p) →
  0 <= raw bonded → 0 < epp → 0 <= period →
  ∃ r, CalculateEpochMintProvision p period epp bonded = Ok r.
Proof.
  intros Hok Hf Hb Hepp Hper. unfold CalculateEpochMintProvision. set (ec := ip_ExponentialCalculation p) in *.
  pose proof Hok as [HA HR HC HT HV]. pose proof Hf as [Hem HfV]. unfold emission in Hem.
  destruct (dec_Sub_ok LegacyOneDec (ec_R ec)) as (decay & -> & Hd).
  { rewrite raw_OneDec. unfold dec_fits, dec_one in *. lia. }
  rewrite raw_OneDec in Hd. rewrite Ok_bind.
  destruct (Power_ok decay period) as [power Hpow]; [lia|done|]. rewrite Hpow, Ok_bind.
  apply Power_unit in Hpow; [|lia].
  destruct (Mul_ok (ec_A ec) power (raw (ec_A ec))) as (ed & -> & Hed); [done|lia|nia|unfold dec_one in *; nia|].
  rewrite Ok_bind.
  destruct (incentive_total ec _ Hok Hf (capped_bounds ec bonded Hok Hb))
    as (ratio & sub & inc1 & inc & -> & Hsub & Hinc1 & Hinc & Hi).
  rewrite Ok_bind, Hsub, Ok_bind, Hinc1, Ok_bind, Hinc, Ok_bind.
  destruct (Mul_ok ed inc (2 ^ 182)) as (prov & -> & Hprov); [lia|lia|unfold dec_one in *; nia|done|].
  rewrite Ok_bind. assert (raw (ec_C ec) < 2 ^ 182) by (unfold dec_one in *; nia).
  destruct (Add_ok prov (ec_C ec)) as (pp & -> & Hpp); [unfold dec_fits; lia|]. rewrite Ok_bind.
  destruct (Quo_ok pp (LegacyNewDec ReductionFactor) (2 ^ 183)) as (red & -> & Hred);
    [lia|by rewrite raw_NewDec|rewrite raw_NewDec; unfold ReductionFactor, dec_one in *; lia|done|].
  rewrite Ok_bind.
  destruct (Quo_ok red (LegacyNewDec epp) (2 ^ 183)) as (ep & -> & Hep);
    [lia|rewrite raw_NewDec; unfold dec_one; lia|rewrite raw_NewDec; unfold dec_one in *; nia|done|].
  rewrite Ok_bind. apply Mul_fits. rewrite raw_FromInt, Z.mul_assoc, Z.div_mul by done.
  unfold dec_fits, PowerReduction. lia.
Qed.

(** C38.  For parameters that validate, and an emission below the decimals' range,
    the provision of an epoch is computed without panic; it is a whole number [q] of
    base units, the [epochsPerPeriod] epochs of a period mint at most a third of
    [A * (1 + maxVariance) + C] up to one unit each, and at least a third of [C]
    up to one unit each. *)
Theorem provision_within_formula p period epp bonded :
  validateExponentialCalculation (ip_ExponentialCalculation p) = None →
  emission_fits (ip_ExponentialCalculation p) → 0 <= raw bonded → 0 < epp → 0 <= period →
  ∃ r q, CalculateEpochMintProvision p period epp bonded = Ok r ∧ raw r = q * dec_one ∧ 0 <= q ∧
    3 * epp * (q - 1) * dec_one < emission (ip_ExponentialCalculation p) + dec_one ∧
    raw (ec_C (ip_ExponentialCalculation p)) < 3 * epp * (q + 1).
Proof.
  intros Hv%validateExponential_ok Hf Hb Hepp Hper.
  destruct (provision_total p period epp bonded) as [r Hr]; try done.
  destruct (provision_bounds p period epp bonded r) as (q & Hq); try done. eauto.
Qed.
End Provision.

(** ** Minting *)

(** The laws of bank, distribution and staking the hook relies on: coins a module
    holds can be sent, the bank refuses coin sets that are not valid, minting adds
    to the supply and to the module's account. *)
Section EnvLaws.
Context `{IE : InflationEnv}.

Definition bal (e : ienv) (a : Z) (d : string) : Z := AmountOf (GetAllBalances e a) d.

(** The account of the community pool. *)
Definition distribution_addr : Z := GetModuleAddress "distribution".

(** [c] moved from [from] to [to], and nothing else changed. *)
Definition moved (from to : Z) (c : coins) (e e' : ienv) : Prop :=
  (∀ d, GetSupply e' d = GetSupply e d) ∧
  ∀ a d, bal e' a d = bal e a d - (if decide (a = from) then AmountOf c d else 0)
                                + (if decide (a = to) then AmountOf c d else 0).

Class InflationEnvLaws : Prop := {
  one_coin_valid d n : coins_valid (one_coin d n) ↔ denom_ok d = true ∧ 0 < n;
  AmountOf_one d n d' : denom_ok d = true → AmountOf (one_coin d n) d' = if decide (d' = d) then n else 0;
  balances_valid e a : coins_valid (GetAllBalances e a);
  inflation_addr_ne_fee : GetModuleAddress inflation_ModuleName ≠ GetModuleAddress feeCollectorName;
  inflation_addr_ne_distribution : GetModuleAddress inflation_ModuleName ≠ distribution_addr;
  fee_addr_ne_distribution : GetModuleAddress feeCollectorName ≠ distribution_addr;
  mint_ok e c :
    coins_valid c → (∀ d, 0 < AmountOf c d → GetSupply e d + AmountOf c d < 2 ^ 255) →
    ∃ e', MintCoins_bank e inflation_ModuleName c = Ok e' ∧
      (∀ d, GetSupply e' d = GetSupply e d + AmountOf c d) ∧
      ∀ a d, bal e' a d = bal e a d + if decide (a = GetModuleAddress inflation_ModuleName)
                                       then AmountOf c d else 0;
  send_ok e from to c :
    coins_valid c → coins_le c (GetAllBalances e (GetModuleAddress from)) →
    ∃ e', SendCoinsFromModuleToModule e from to c = Ok e' ∧
      moved (GetModuleAddress from) (GetModuleAddress to) c e e';
  send_invalid e from to c :
    ¬ coins_valid c → ∃ err, SendCoinsFromModuleToModule e from to c = Err err;
  fund_ok e c a :
    coins_valid c → coins_le c (GetAllBalances e a) →
    ∃ e', FundCommunityPool e c a = Ok e' ∧ moved a distribution_addr c e e';
  bonded_nonneg e : 0 <= TotalBondedTokens e
}.
End EnvLaws.

Section Minting.
Context `{DL : DecLaws} `{CL : CoinsLaws} `{IE : !InflationEnv} `{IL : !InflationEnvLaws}.

Abbreviation inflation_addr := (GetModuleAddress inflation_ModuleName).
Abbreviation fee_addr := (GetModuleAddress feeCollectorName).

Lemma BondedRatio_ok e : ∃ r, BondedRatio e = Ok r ∧ 0 <= raw r.
Proof.
  unfold BondedRatio. pose proof (bonded_nonneg e) as Hb.
  assert (∀ n, 0 < n → ∃ r, dec_QuoInt (LegacyNewDecFromInt (TotalBondedTokens e)) n = Ok r ∧ 0 <= raw r)
    as Hq.
  { intros n Hn. destruct (QuoInt_ok (LegacyNewDecFromInt (TotalBondedTokens e)) n) as [r Hr]; [lia|].
    exists r. split; [done|]. apply QuoInt_inv in Hr as [_ Hr]. rewrite raw_FromInt in Hr.
    eapply rounds_nonneg; [done|unfold dec_one; lia|done]. }
  destruct (Z.ltb_spec 0 (StakingTokenSupply e)); simpl; [|exists LegacyZeroDec; split; [done|]].
  2: { unfold LegacyZeroDec. rewrite raw_NewDec. lia. }
  destruct (IsMainnet (ChainID e)); simpl; [|by apply Hq].
  destruct (Z.leb_spec (StakingTokenSupply e) teamAlloc); [|apply Hq; lia].
  exists LegacyZeroDec. split; [done|]. unfold LegacyZeroDec. rewrite raw_NewDec. lia.
Qed.

Lemma GetProportions_floor amount s :
  0 <= amount → 0 <= raw s → dec_fits (amount * raw s) →
  GetProportions amount s = Ok (amount * raw s / dec_one).
Proof.
  intros Ha Hs Hf. unfold GetProportions. destruct (Mul_int_fits amount s Hf) as (c & -> & Hc).
  rewrite Ok_bind, TruncateInt_pos by (rewrite Hc; done || nia). by rewrite Hc.
Qed.

(** The shares of the minted coins. *)
Record distribution_ok (v : InflationDistribution) : Prop := {
  do_staking : 0 <= raw (id_StakingRewards v) <= dec_one;
  do_pool : raw (id_CommunityPool v) = dec_one - raw (id_StakingRewards v)
}.

Lemma validateDistribution_ok v : validateInflationDistribution v = Ok None → distribution_ok v.
Proof.
  unfold validateInflationDistribution. rewrite !IsNegative_spec, dec_IsZero_spec.
  destruct (Z.ltb_spec (raw (id_StakingRewards v)) 0); [done|].
  destruct (Z.eqb_spec (raw (id_UsageIncentives v)) 0); simpl; [|done].
  destruct (Z.ltb_spec (raw (id_CommunityPool v)) 0); [done|]. intros Hv.
  apply bind_Ok_inv in Hv as (a & Ha%Add_inv & Hv). apply bind_Ok_inv in Hv as (b & Hb%Add_inv & Hv).
  rewrite Equal_spec, raw_NewDec in Hv. destruct (Z.eqb_spec (raw b) (1 * dec_one)); [|done].
  split; lia.
Qed.

Lemma Params_Validate_inv p :
  Params_Validate p = Ok None →
  denom_ok (ip_MintDenom p) = true ∧ exponential_ok (ip_ExponentialCalculation p) ∧
  distribution_ok (ip_InflationDistribution p).
Proof.
  unfold Params_Validate, validateMintDenom. intros Hv. destruct (blank _); [done|].
  destruct (denom_ok _); [|done]. case_guards Hv. split; [done|].
  split; [by apply validateExponential_ok|by apply validateDistribution_ok].
Qed.

Lemma sent_all_le e (c : coins) a : c ≡ GetAllBalances e a → coins_le c (GetAllBalances e a).
Proof. by intros ->. Qed.

(** Minting [q > 0] with a staking share that is not zero: the supply grows by [q];
    the fee collector gets the share, rounded down, and the community pool the rest
    together with what the module still held; no other balance changes. *)
Lemma mint_and_allocate p q e :
  denom_ok (ip_MintDenom p) = true → distribution_ok (ip_InflationDistribution p) →
  let share := q * raw (id_StakingRewards (ip_InflationDistribution p)) / dec_one in
  0 < share → q < 2 ^ 190 → GetSupply e (ip_MintDenom p) + q < 2 ^ 255 →
  ∃ e', MintAndAllocateInflation (ip_MintDenom p) q p e = Ok e' ∧
    (∀ d, GetSupply e' d = GetSupply e d + if decide (d = ip_MintDenom p) then q else 0) ∧
    ∀ a d, bal e' a d =
      if decide (a = inflation_addr) then 0
      else if decide (a = fee_addr) then bal e a d + (if decide (d = ip_MintDenom p) then share else 0)
      else if decide (a = distribution_addr) then
        bal e a d + bal e inflation_addr d + (if decide (d = ip_MintDenom p) then q - share else 0)
      else bal e a d.
Proof.
  intros Hden [Hs _] share Hshare Hq Hsup. set (sr := raw _) in *. unfold MintAndAllocateInflation.
  assert (0 < q) as Hq0.
  { destruct (Z.lt_ge_cases 0 q); [done|]. unfold share in Hshare.
    assert (q * sr / dec_one <= 0) by (apply Z.div_le_upper_bound; [done|nia]). lia. }
  assert (share <= q) as Hle by (apply Z.div_le_upper_bound; [done|nia]).
  rewrite (proj2 (Z.ltb_lt 0 q)) by done. simpl. unfold MintCoins.
  destruct (mint_ok e (one_coin (ip_MintDenom p) q)) as (e1 & -> & Hs1 & Hb1).
  { by apply one_coin_valid. }
  { intros d. rewrite AmountOf_one by done. case_decide; [by subst|lia]. }
  rewrite Ok_bind. unfold AllocateExponentialInflation.
  rewrite GetProportions_floor by (fold sr; unfold dec_fits, dec_one in *; nia). fold sr. fold share.
  simpl no_error. rewrite Ok_bind.
  assert (∀ d, 0 <= bal e inflation_addr d) as Hb0 by (intros d; apply valid_nonneg, balances_valid).
  destruct (send_ok e1 inflation_ModuleName feeCollectorName (one_coin (ip_MintDenom p) share))
    as (e2 & -> & Hs2 & Hb2).
  { by apply one_coin_valid. }
  { intros d. fold (bal e1 inflation_addr d). rewrite Hb1, decide_True, !AmountOf_one by done.
    specialize (Hb0 d). case_decide; lia. }
  rewrite Ok_bind. cbv zeta.
  destruct (fund_ok e2 (GetAllBalances e2 inflation_addr) inflation_addr) as (e3 & -> & Hs3 & Hb3);
    [apply balances_valid|done|].
  exists e3. split; [done|]. split.
  { intros d. by rewrite Hs3, Hs2, Hs1, AmountOf_one. }
  intros a d. rewrite Hb3. fold (bal e2 inflation_addr d). rewrite !Hb2, !Hb1, !AmountOf_one by done.
  pose proof inflation_addr_ne_fee. pose proof inflation_addr_ne_distribution. pose proof fee_addr_ne_distribution.
  repeat case_decide; subst; try congruence; lia.
Qed.

(** The period after the epoch [n] minted. *)
Definition advance (n : Z) (s : inflation_store) : inflation_store :=
  if GetEpochsPerPeriod s <?
       i64 (i64 (n - i64 (GetEpochsPerPeriod s * i64 (GetPeriod s))) - i64 (GetSkippedEpochs s))
  then SetPeriod (u64 (GetPeriod s + 1)) s else s.

(** The provision of a store with valid parameters, as a number of base units. *)
Lemma store_provision s e :
  exponential_ok (ip_ExponentialCalculation (GetParams s)) →
  emission_fits (ip_ExponentialCalculation (GetParams s)) →
  0 < GetEpochsPerPeriod s → 0 <= GetPeriod s →
  ∃ r q, GetEpochMintProvision s e = Ok r ∧ raw r = q * dec_one ∧ 0 <= q < 2 ^ 190 ∧
    raw (ec_C (ip_ExponentialCalculation (GetParams s))) < 3 * GetEpochsPerPeriod s * (q + 1).
Proof.
  intros Hx Hf Hepp Hper. unfold GetEpochMintProvision. destruct (BondedRatio_ok e) as (b & -> & Hb).
  rewrite Ok_bind. destruct (provision_total (GetParams s) (GetPeriod s) (GetEpochsPerPeriod s) b)
    as [r Hr]; try done.
  destruct (provision_bounds _ _ _ _ _ Hx Hb Hepp Hr) as (q & Hq & Hq0 & Hub & Hlb).
  exists r, q. split; [done|]. split; [done|]. split; [|done]. split; [done|].
  destruct Hf as [Hf _]. unfold dec_one in *. nia.
Qed.

Lemma AfterEpochEnd_mints s e n r q :
  ip_EnableInflation (GetParams s) = true → GetEpochMintProvision s e = Ok r →
  raw r = q * dec_one → 0 < q < 2 ^ 190 →
  AfterEpochEnd (GetEpochIdentifier s) n (s, e) =
  (e' ← panic_on_error (MintAndAllocateInflation (ip_MintDenom (GetParams s)) q (GetParams s) e);
   Ok (advance n s, e')).
Proof.
  unfold GetEpochMintProvision, AfterEpochEnd. intros Hen Hr Hq Hpos. rewrite Hen. simpl.
  rewrite decide_False by (intros Hn; by apply Hn).
  apply bind_Ok_inv in Hr as (b & -> & Hr). rewrite Ok_bind, Hr, Ok_bind, IsPositive_spec.
  rewrite (proj2 (Z.ltb_lt 0 (raw r))) by (unfold dec_one in *; lia). simpl.
  rewrite TruncateInt_pos by (rewrite Hq; unfold dec_fits, dec_one in *; lia).
  rewrite Hq, Z.div_mul by done. rewrite Ok_bind.
  destruct (panic_on_error _); simpl; [|done|done]. unfold advance. by destruct (_ <? _).
Qed.

(** C37.  At the end of one of its epochs, with inflation enabled and a staking share
    of at least one unit, the hook returns: the supply of the mint denomination grows
    by the provision [q] and no other; the fee collector gets the staking share,
    rounded down, the community pool everything else the module held or minted, and
    the module keeps nothing; no other account changes. *)
Theorem inflation_mints_and_splits s e n :
  Params_Validate (GetParams s) = Ok None → ip_EnableInflation (GetParams s) = true →
  emission_fits (ip_ExponentialCalculation (GetParams s)) →
  0 < GetEpochsPerPeriod s → 0 <= GetPeriod s →
  ∃ r q, GetEpochMintProvision s e = Ok r ∧ raw r = q * dec_one ∧ 0 <= q ∧
  let denom := ip_MintDenom (GetParams s) in
  let share := q * raw (id_StakingRewards (ip_InflationDistribution (GetParams s))) / dec_one in
  (0 < share → GetSupply e denom + q < 2 ^ 255 →
   ∃ e', AfterEpochEnd (GetEpochIdentifier s) n (s, e) = Ok (advance n s, e') ∧
     (∀ d, GetSupply e' d = GetSupply e d + if decide (d = denom) then q else 0) ∧
     ∀ a d, bal e' a d =
       if decide (a = inflation_addr) then 0
       else if decide (a = fee_addr) then bal e a d + (if decide (d = denom) then share else 0)
       else if decide (a = distribution_addr) then
         bal e a d + bal e inflation_addr d + (if decide (d = denom) then q - share else 0)
       else bal e a d).
Proof.
  intros (Hden & Hx & Hdist)%Params_Validate_inv Hen Hf Hepp Hper.
  destruct (store_provision s e Hx Hf Hepp Hper) as (r & q & Hr & Hq & Hq0 & _).
  exists r, q. split; [done|]. split; [done|]. split; [lia|]. intros denom share Hshare Hsup.
  destruct (mint_and_allocate (GetParams s) q e Hden Hdist Hshare) as (e' & Hm & Hs & Hb); [lia|done|].
  assert (0 < q).
  { destruct (Z.eq_dec q 0) as [->|]; [|lia]. unfold share in Hshare. simpl in Hshare.
    rewrite Zdiv_0_l in Hshare. lia. }
  exists e'. rewrite (AfterEpochEnd_mints s e n r q) by (done || lia). rewrite Hm. done.
Qed.

(** Parameters that give nothing to staking validate, yet with them the hook
    panics as soon as there is something to mint: the bank refuses to send a zero
    amount. *)
Theorem zero_staking_halts s e n r :
  Params_Validate (GetParams s) = Ok None → ip_EnableInflation (GetParams s) = true →
  raw (id_StakingRewards (ip_InflationDistribution (GetParams s))) = 0 →
  emission_fits (ip_ExponentialCalculation (GetParams s)) →
  0 < GetEpochsPerPeriod s → 0 <= GetPeriod s →
  GetEpochMintProvision s e = Ok r → 0 < raw r →
  GetSupply e (ip_MintDenom (GetParams s)) + raw r < 2 ^ 255 →
  AfterEpochEnd (GetEpochIdentifier s) n (s, e) = Panic.
Proof.
  intros (Hden & Hx & _)%Params_Validate_inv Hen Hz Hf Hepp Hper Hr Hpos Hsup.
  destruct (store_provision s e Hx Hf Hepp Hper) as (r' & q & Hr' & Hq & Hq0 & _).
  assert (r' = r) as -> by congruence. assert (0 < q) by (unfold dec_one in *; lia).
  rewrite (AfterEpochEnd_mints s e n r q) by (done || lia).
  unfold MintAndAllocateInflation, MintCoins. rewrite (proj2 (Z.ltb_lt 0 q)) by done. simpl negb. cbv iota.
  destruct (mint_ok e (one_coin (ip_MintDenom (GetParams s)) q)) as (e1 & -> & _).
  { by apply one_coin_valid. }
  { intros d. rewrite AmountOf_one by done. case_decide; [subst; unfold dec_one in *|]; lia. }
  rewrite Ok_bind. unfold AllocateExponentialInflation.
  rewrite GetProportions_floor by (rewrite ?Hz; unfold dec_fits; lia). rewrite Hz, Z.mul_0_r, Zdiv_0_l.
  simpl no_error. rewrite Ok_bind.
  destruct (send_invalid e1 inflation_ModuleName feeCollectorName (one_coin (ip_MintDenom (GetParams s)) 0))
    as [err ->]; [|done].
  intros Hv%one_coin_valid. lia.
Qed.
End Minting.

(** ** The period *)

Section Period.
Context `{DL : DecLaws} `{CL : CoinsLaws} `{IE : !InflationEnv} `{IL : !InflationEnvLaws}.

Abbreviation chain := (epoch_store * (inflation_store * ienv))%type.

(** Parameters with which every epoch mints: they validate and the long-term
    emission [C] is at least three units an epoch. *)
Record params_mint (epp : Z) (p : Params) : Prop := {
  pm_valid : Params_Validate p = Ok None;
  pm_fits : emission_fits (ip_ExponentialCalculation p);
  pm_C : 3 * epp <= raw (ec_C (ip_ExponentialCalculation p))
}.

(** What changes the two modules: blocks, parameter updates, and other modules.
    Epoch numbers stay below [MaxInt64]. *)
Inductive chain_step : chain → chain → Prop :=
| step_block ctx es w c' :
    map_Forall (λ _ ei, ei_CurrentEpoch ei < MaxInt64) es →
    BeginBlocker Hooks ctx (es, w) = Ok c' → chain_step (es, w) c'
| step_params authority p es s e s' :
    params_mint (GetEpochsPerPeriod s) p → UpdateParams authority p s = Some s' →
    chain_step (es, (s, e)) (es, (s', e))
| step_other es s e e' : chain_step (es, (s, e)) (es, (s, e')).

(** The period in the epoch number [n]: the number of full periods among the epochs
    before [n] that were not skipped. *)
Record period_at (n : Z) (s : inflation_store) : Prop := {
  pa_skipped : 0 <= GetSkippedEpochs s < n;
  pa_period : GetPeriod s = (n - GetSkippedEpochs s - 1) / GetEpochsPerPeriod s
}.

Record store_ok (s : inflation_store) : Prop := {
  so_id : GetEpochIdentifier s = DayEpochID;
  so_epp : 0 < GetEpochsPerPeriod s;
  so_params : params_mint (GetEpochsPerPeriod s) (GetParams s)
}.

Lemma advance_period n s :
  0 < GetEpochsPerPeriod s → period_at n s → n < MaxInt64 → period_at (n + 1) (advance (n + 1) s).
Proof.
  intros Hepp [Hsk Hp] Hn. unfold advance. set (epp := GetEpochsPerPeriod s) in *.
  set (sk := GetSkippedEpochs s) in *. set (per := GetPeriod s) in *.
  assert (0 <= per ∧ epp * per <= n - sk - 1 < epp * per + epp) as [Hper Hdiv].
  { rewrite Hp. pose proof (Z.div_mod (n - sk - 1) epp). pose proof (Z.mod_pos_bound (n - sk - 1) epp).
    split; [apply Z.div_pos|]; lia. }
  assert (per <= epp * per) by nia. unfold MaxInt64 in Hn.
  rewrite (i64_small per), (i64_small sk), (i64_small (epp * per)) by (unfold in_i64; lia).
  rewrite (i64_small (n + 1 - epp * per)) by (unfold in_i64; lia).
  rewrite (i64_small (n + 1 - epp * per - sk)) by (unfold in_i64; lia).
  destruct (Z.ltb_spec epp (n + 1 - epp * per - sk)); (split; [change (0 <= sk < n + 1); lia|]).
  - change (GetPeriod (SetPeriod _ s)) with (u64 (per + 1)). rewrite u64_small by (unfold in_u64; lia).
    change (GetSkippedEpochs (SetPeriod _ s)) with sk. change (GetEpochsPerPeriod (SetPeriod _ s)) with epp.
    apply (Z.div_unique_pos _ _ _ 0); lia.
  - fold per epp sk. apply (Z.div_unique_pos _ _ _ (n + 1 - sk - 1 - epp * per)); lia.
Qed.

Lemma advance_store_ok n s : store_ok s → store_ok (advance n s).
Proof. intros [H1 H2 H3]. unfold advance. destruct (_ <? _); by split. Qed.

Lemma AfterEpochEnd_period n s e s' e' :
  store_ok s → period_at n s → n < MaxInt64 →
  AfterEpochEnd DayEpochID (n + 1) (s, e) = Ok (s', e') →
  store_ok s' ∧ period_at (n + 1) s'.
Proof.
  intros Hs Hp Hn Ha. pose proof Hs as [Hid Hepp Hpar].
  destruct (ip_EnableInflation (GetParams s)) eqn:Hen.
  - destruct Hpar as [(_ & Hx & _)%Params_Validate_inv Hf HC]. pose proof Hp as [Hsk Hper].
    assert (0 <= GetPeriod s) by (rewrite Hper; apply Z.div_pos; lia).
    destruct (store_provision s e Hx Hf Hepp) as (r & q & Hr & Hq & Hq0 & Hlb); [done|].
    rewrite <-Hid, (AfterEpochEnd_mints s e (n + 1) r q) in Ha by (done || nia).
    apply bind_Ok_inv in Ha as (e1 & _ & Ha). simplify_eq.
    split; [by apply advance_store_ok|by apply advance_period].
  - unfold AfterEpochEnd in Ha. rewrite Hen in Ha. cbn [negb] in Ha.
    rewrite decide_False in Ha by (intros Hne; by apply Hne). simplify_eq.
    destruct Hp as [Hsk Hper]. unfold MaxInt64 in Hn.
    rewrite u64_small by (unfold in_u64; lia). split; [by split|].
    split; change (GetSkippedEpochs (SetSkippedEpochs ?n s)) with n; [lia|].
    change (GetPeriod (SetSkippedEpochs _ s)) with (GetPeriod s). rewrite Hper. f_equal. lia.
Qed.

#[local] Arguments AfterEpochEnd : simpl never.

(** The hook ignores the other epochs. *)
Lemma run_other_entries ctx l s e :
  GetEpochIdentifier s = DayEpochID → (DayEpochID ∉ ei_Identifier <$> l) →
  run_hooks Hooks (l ≫= epoch_calls ctx) (s, e) = Ok (s, e).
Proof.
  intros Hid. induction l as [|ei l IH]; intros Hni; [done|]. rewrite fmap_cons in Hni.
  apply not_elem_of_cons in Hni as [Hne Hni]. rewrite bind_cons, run_hooks_app.
  replace (run_hooks Hooks (epoch_calls ctx ei) (s, e)) with (@Ok Empty_set _ (s, e));
    [simpl; by apply IH|].
  assert (∀ n, AfterEpochEnd (ei_Identifier ei) n (s, e) = Ok (s, e)) as Ha.
  { intros n. unfold AfterEpochEnd. rewrite Hid. rewrite !decide_True by congruence.
    by destruct (negb _). }
  unfold epoch_calls. destruct (shouldInitialEpochStart ctx ei); [done|].
  destruct (shouldEpochEnd ctx ei); [|done]. simpl. by rewrite Ha.
Qed.

(** The invariant of the two modules. *)
Record emission_inv (c : chain) : Prop := {
  ev_keyed : keyed c.1;
  ev_store : store_ok (c.2.1);
  ev_day : ∃ ei, c.1 !! DayEpochID = Some ei ∧
    if ei_EpochCountingStarted ei then period_at (ei_CurrentEpoch ei) (c.2.1)
    else GetPeriod (c.2.1) = 0 ∧ GetSkippedEpochs (c.2.1) = 0
}.

Lemma block_inv ctx es w c' :
  emission_inv (es, w) → map_Forall (λ _ ei, ei_CurrentEpoch ei < MaxInt64) es →
  BeginBlocker Hooks ctx (es, w) = Ok c' → emission_inv c'.
Proof.
  destruct w as [s e]. intros [Hk Hs (ei & Hei & Hst)] Hmax Hb. simpl in *.
  rewrite BeginBlocker_ticks in Hb by done. apply bind_Ok_inv in Hb as ([s' e'] & Hh & Hb). simplify_eq.
  pose proof (Hmax _ _ Hei) as Hn. pose proof (Hk _ _ Hei) as Hname. simpl in Hn, Hname.
  assert (ei ∈ epoch_entries es) as Hin.
  { apply elem_of_epoch_entries; [done|]. by rewrite Hname. }
  pose proof (NoDup_sorted_names es) as Hnd. rewrite <-epoch_entries_names in Hnd by done.
  apply list_elem_of_split in Hin as (l1 & l2 & Heq). rewrite Heq in Hh, Hnd.
  rewrite fmap_app, fmap_cons, Hname in Hnd.
  apply NoDup_app in Hnd as (_ & Hd1 & Hnd2). apply NoDup_cons in Hnd2 as [Hd2 _].
  rewrite bind_app, bind_cons, run_hooks_app, run_other_entries in Hh;
    [|by apply so_id|intros H1; apply (Hd1 _ H1); constructor].
  rewrite Ok_bind, run_hooks_app in Hh. apply bind_Ok_inv in Hh as ([s1 e1] & H1 & H2).
  assert (store_ok s1 ∧ if ei_EpochCountingStarted (tick ctx ei)
          then period_at (ei_CurrentEpoch (tick ctx ei)) s1
          else GetPeriod s1 = 0 ∧ GetSkippedEpochs s1 = 0) as [Hs1 Hp1].
  { clear H2. unfold epoch_calls, tick in *. destruct (shouldInitialEpochStart ctx ei) eqn:E1.
    { simpl in H1. simplify_eq. split; [done|]. simpl. unfold shouldInitialEpochStart in E1.
      apply andb_prop in E1 as [E1%negb_true_iff _]. rewrite E1 in Hst. destruct Hst as [Hz1 Hz2].
      split; rewrite ?Hz1, ?Hz2; [lia|]. symmetry. apply Zdiv_0_l. }
    destruct (shouldEpochEnd ctx ei) eqn:E2; [|simpl in H1; by simplify_eq].
    apply bind_Ok_inv in H1 as ([s2 e2] & H3 & H4). simpl in H3, H4. simplify_eq.
    unfold shouldEpochEnd, shouldInitialEpochStart in E2. simpl.
    destruct (ei_EpochCountingStarted ei) eqn:E3.
    2: { exfalso. clear -E2. destruct (negb (BlockTime ctx <? _)) eqn:E; simpl in E2;
           rewrite ?andb_false_r in E2; done. }
    pose proof Hst as [? _]. rewrite Hname, i64_small in H3 by (unfold in_i64, MaxInt64 in *; lia).
    rewrite i64_small by (unfold in_i64, MaxInt64 in *; lia). by eapply AfterEpochEnd_period. }
  rewrite run_other_entries in H2; [|by apply so_id|done]. simplify_eq.
  split; simpl; [by apply keyed_tick|done|]. exists (tick ctx ei). by rewrite lookup_fmap, Hei.
Qed.

Lemma step_inv c c' : chain_step c c' → emission_inv c → emission_inv c'.
Proof.
  intros [ctx es w c1 Hmax Hb|authority p es s e s' Hp Hu|es s e e'] Hinv.
  - by eapply block_inv.
  - unfold UpdateParams in Hu. case_decide; [|done]. simplify_eq.
    destruct Hinv as [Hk [Hid Hepp _] (ei & Hei & Hd)].
    split; [exact Hk|split; [exact Hid|exact Hepp|exact Hp]|]. exists ei. split; [exact Hei|].
    destruct (ei_EpochCountingStarted ei); [|exact Hd]. destruct Hd as [H1 H2]. split; [exact H1|exact H2].
  - destruct Hinv as [Hk Hs Hd]. by split.
Qed.

(** The period counts the epochs in which inflation minted.  From a genesis
    whose epoch is the day, not started, with period and skipped epochs zero, after
    any sequence of blocks, parameter updates by governance (which may disable and
    enable inflation) and steps of other modules, the period is the number of full
    periods among the day epochs that ended and were not skipped. *)
Theorem period_counts_minting_epochs es gs s0 e ei c' :
  keyed es → es !! DayEpochID = Some ei → ei_EpochCountingStarted ei = false →
  Genesis_Validate gs = Ok None → gs_Period gs = 0 → gs_SkippedEpochs gs = 0 →
  gs_EpochIdentifier gs = DayEpochID → params_mint (gs_EpochsPerPeriod gs) (gs_Params gs) →
  rtc chain_step (es, (InitGenesis gs s0, e)) c' →
  ∃ ei', c'.1 !! DayEpochID = Some ei' ∧
    let s := c'.2.1 in
    if ei_EpochCountingStarted ei' then
      0 <= GetSkippedEpochs s < ei_CurrentEpoch ei' ∧
      GetPeriod s = (ei_CurrentEpoch ei' - GetSkippedEpochs s - 1) / GetEpochsPerPeriod s
    else GetPeriod s = 0.
Proof.
  intros Hk Hei Hst Hv Hp Hsk Hid Hpm Hr.
  assert (emission_inv (es, (InitGenesis gs s0, e))) as Hinv.
  { split; [done| |exists ei; split; [done|by rewrite Hst]].
    unfold Genesis_Validate in Hv. destruct (ValidateEpochIdentifierString _); [done|].
    destruct (Z.leb_spec (gs_EpochsPerPeriod gs) 0); [done|]. by split. }
  assert (emission_inv c') as [_ _ (ei' & Hei' & Hp')].
  { clear -Hr Hinv DL CL IL. induction Hr; eauto using step_inv. }
  exists ei'. split; [done|]. destruct (ei_EpochCountingStarted ei'); [|by destruct Hp'].
  by destruct Hp'.
Qed.
End Period.

(** ** Witnesses *)

Module InflationToy.
Import MapCoins MapBank ZDec EpochsToy.

Definition toy_address (name : string) : Z :=
  if decide (name = inflation_ModuleName) then 1
  else if decide (name = "distribution"%string) then 3 else 2.

#[export] Instance toy_env : InflationEnv := {
  ienv := bank;
  env_error := ();
  one_coin d n := coin d n;
  denom_ok _ := true;
  ChainID _ := "ego_1"%string;
  feeCollectorName := "fee_collector"%string;
  inflation_authority := "gov"%string;
  GetModuleAddress := toy_address;
  MintCoins_bank b m c := bank_mint b (toy_address m) c;
  SendCoinsFromModuleToModule b from to c := bank_send b (toy_address from) (toy_address to) c;
  GetAllBalances := holds;
  GetSupply b d := AmountOf (bank_supply b) d;
  FundCommunityPool b c a := bank_send b a 3 c;
  StakingTokenSupply _ := 1000;
  TotalBondedTokens _ := 330
}.

#[export] Instance toy_laws : InflationEnvLaws.
Proof.
  split; try done.
  - intros d n. split.
    + intros Hv. split; [done|]. apply map_coins_valid in Hv.
      apply (map_Forall_singleton (λ _ v, 0 < v) d n), Hv.
    + intros [_ Hn]. by apply coin_valid.
  - intros d n d' _. change (one_coin d n) with (coin d n). rewrite AmountOf_coin.
    repeat case_decide; congruence.
  - apply holds_valid.
  - intros e c Hc _. by apply bank_mint_ok.
  - intros e from to c Hc Hle. destruct (bank_send_ok e (toy_address from) (toy_address to) c Hc Hle)
      as (b' & Hb & Hs & Hm). exists b'. split; [exact Hb|]. split; [intros d; simpl; by rewrite Hs|exact Hm].
  - intros e from to c Hc. exists (). by apply bank_send_invalid.
  - intros e c a Hc Hle. destruct (bank_send_ok e a 3 c Hc Hle) as (b' & Hb & Hs & Hm).
    exists b'. split; [exact Hb|]. split; [intros d; simpl; by rewrite Hs|exact Hm].
Qed.

Definition toy_params (dist : InflationDistribution) : Params :=
  mkParams "aego" DefaultExponentialCalculation dist true.

Definition toy_genesis (dist : InflationDistribution) : GenesisState :=
  mkGenesis (toy_params dist) 0 DayEpochID 365 0.

Definition unset (dist : InflationDistribution) : inflation_store := mkInflation (toy_params dist) None None None None.
Definition toy_inflation (dist : InflationDistribution) : inflation_store := InitGenesis (toy_genesis dist) (unset dist).

Definition no_staking : InflationDistribution := mkDistribution LegacyZeroDec LegacyZeroDec LegacyOneDec.
Definition empty_bank : ienv := mkBank ∅ ∅.

Lemma toy_fits : emission_fits DefaultExponentialCalculation.
Proof. split; vm_compute; reflexivity. Qed.

Lemma provision_within_formula_witness :
  ∃ r q, CalculateEpochMintProvision (toy_params no_staking) 2 365 LegacyZeroDec = Ok r ∧
    raw r = q * dec_one ∧ 0 <= q.
Proof.
  destruct (provision_within_formula (toy_params no_staking) 2 365 LegacyZeroDec) as (r & q & Hr & Hq & H0 & _).
  - vm_compute. reflexivity.
  - exact toy_fits.
  - vm_compute. discriminate.
  - vm_compute. reflexivity.
  - vm_compute. discriminate.
  - exists r, q. split; [exact Hr|]. split; [exact Hq|exact H0].
Defined.

(** The provision of the first day. *)
Definition toy_provision : Z := 309375000 * dec_one / 3 / 365.

Lemma toy_provision_minted :
  GetEpochMintProvision (toy_inflation DefaultInflationDistribution) empty_bank = Ok (toy_provision * dec_one).
Proof. vm_compute. reflexivity. Qed.

Lemma provision_amount (o : partial dec) p q r :
  o = Ok (p * dec_one) → o = Ok r → raw r = q * dec_one → q = p.
Proof. intros -> [= <-] Hq. apply (Z.mul_reg_r _ _ dec_one); [discriminate|exact (eq_sym Hq)]. Qed.

Lemma inflation_mints_and_splits_witness :
  ∃ e', AfterEpochEnd DayEpochID 2 (toy_inflation DefaultInflationDistribution, empty_bank) =
          Ok (advance 2 (toy_inflation DefaultInflationDistribution), e') ∧
        GetSupply e' "aego" = toy_provision.
Proof.
  destruct (inflation_mints_and_splits (toy_inflation DefaultInflationDistribution) empty_bank 2)
    as (r & q & Hr & Hq & _ & Hm).
  - vm_compute. reflexivity.
  - reflexivity.
  - exact toy_fits.
  - vm_compute. reflexivity.
  - vm_compute. discriminate.
  - rewrite (provision_amount _ _ _ _ toy_provision_minted Hr Hq) in *.
    destruct Hm as (e' & He' & Hsup' & _); [vm_compute; reflexivity..|]. exists e'. split; [exact He'|].
    rewrite Hsup'. rewrite decide_True by reflexivity. reflexivity.
Defined.

Lemma zero_staking_halts_witness :
  AfterEpochEnd DayEpochID 2 (toy_inflation no_staking, empty_bank) = Panic.
Proof.
  apply (zero_staking_halts (toy_inflation no_staking) empty_bank 2
           ((309375000 * dec_one / 3 / 365) * dec_one)).
  - vm_compute. reflexivity.
  - reflexivity.
  - reflexivity.
  - exact toy_fits.
  - vm_compute. reflexivity.
  - vm_compute. discriminate.
  - vm_compute. reflexivity.
  - vm_compute. reflexivity.
  - vm_compute. reflexivity.
Defined.

Lemma period_counts_minting_epochs_witness :
  ∃ c' ei', rtc chain_step (toy_store, (toy_inflation DefaultInflationDistribution, empty_bank)) c' ∧
    c'.1 !! DayEpochID = Some ei' ∧
    if ei_EpochCountingStarted ei' then 0 <= GetSkippedEpochs (c'.2.1) < ei_CurrentEpoch ei' else GetPeriod (c'.2.1) = 0.
Proof.
  assert (rtc chain_step (toy_store, (toy_inflation DefaultInflationDistribution, empty_bank))
            (tick genesis_ctx <$> toy_store, (toy_inflation DefaultInflationDistribution, empty_bank))) as Hr.
  { apply rtc_once. apply (step_block genesis_ctx).
    - apply (bool_decide_eq_true_1 (map_Forall (λ _ ei, ei_CurrentEpoch ei < MaxInt64) toy_store)). vm_compute. reflexivity.
    - rewrite BeginBlocker_ticks by exact toy_keyed. reflexivity. }
  destruct (period_counts_minting_epochs toy_store (toy_genesis DefaultInflationDistribution)
              (unset DefaultInflationDistribution) empty_bank day_epoch
              (tick genesis_ctx <$> toy_store, (toy_inflation DefaultInflationDistribution, empty_bank)))
    as (ei' & Hei' & Hp).
  - exact toy_keyed.
  - vm_compute. reflexivity.
  - reflexivity.
  - vm_compute. reflexivity.
  - reflexivity.
  - reflexivity.
  - reflexivity.
  - split; [vm_compute; reflexivity|exact toy_fits|vm_compute; discriminate].
  - exact Hr.
  - eexists _, ei'. split; [exact Hr|]. split; [exact Hei'|].
    destruct (ei_EpochCountingStarted ei'); [exact (proj1 Hp)|exact Hp].
Defined.
End InflationToy.
