(* ===== verification/FeeMarket.v ===== *)
(** * The fee market: [x/feemarket]

    The base fee of a block is computed at its beginning from the base fee and the
    gas wanted of the block before, after EIP-1559; the gas wanted is stored at the
    end of the block, limited by the gas used.  Parameters that a legacy block may
    not have set are options; a [*big.Int] that may be nil is an option too.  The
    store's codec, events and telemetry are left out. *)

From S2P Require Import Prelude Dec.

Section FeeMarket.
Context `{LD : LegacyDec}.

(** ** Parameters: [types/params.go] *)

Record Params := mkParams {
  fm_NoBaseFee : bool;
  fm_BaseFeeChangeDenominator : Z;
  fm_ElasticityMultiplier : Z;
  fm_EnableHeight : Z;
  fm_BaseFee : option Z;
  fm_MinGasPrice : option dec;
  fm_MinGasMultiplier : option dec
}.

Inductive fee_error :=
| ZeroDenominator
| NegativeBaseFee
| NegativeEnableHeight
| NilDec
| NegativeDec
| DecAboveOne.

Definition validateMinGasPrice (v : option dec) : option fee_error :=
  match v with
  | None => Some NilDec
  | Some v => if dec_IsNegative v then Some NegativeDec else None
  end.

Definition validateMinGasMultiplier (v : option dec) : option fee_error :=
  match v with
  | None => Some NilDec
  | Some v =>
      if dec_IsNegative v then Some NegativeDec
      else if dec_GT v LegacyOneDec then Some DecAboveOne else None
  end.

(** [p.BaseFee.IsNegative()] dereferences the integer. *)
Definition Params_Validate (p : Params) : partial (option fee_error) :=
  if fm_BaseFeeChangeDenominator p =? 0 then Ok (Some ZeroDenominator)
  else match fm_BaseFee p with
  | None => Panic
  | Some baseFee =>
      if baseFee <? 0 then Ok (Some NegativeBaseFee)
      else if fm_EnableHeight p <? 0 then Ok (Some NegativeEnableHeight)
      else match validateMinGasMultiplier (fm_MinGasMultiplier p) with
           | Some err => Ok (Some err)
           | None => Ok (validateMinGasPrice (fm_MinGasPrice p))
           end
  end.

Definition IsBaseFeeEnabled (p : Params) (height : Z) : bool :=
  negb (fm_NoBaseFee p) && (fm_EnableHeight p <=? height).

(** The constants are those of EIP-1559. *)
Definition DefaultParams : Params :=
  mkParams false 8 2 0 (Some 1000000000) (Some LegacyZeroDec) (Some (LegacyNewDecWithPrec 50 2)).

(** ** The stores: [keeper/keeper.go], [keeper/params.go]

    [fs_params] is [None] before the parameters moved from the legacy subspace to
    the module's store; [fs_legacy] is what the subspace holds. *)

Record fee_store := mkFeeStore {
  fs_params : option Params;
  fs_legacy : Params;
  fs_blockGasWanted : option Z;
  fs_transientGasWanted : option Z;
  fs_baseFeeV1 : option (list byte)
}.

Definition GetParams (s : fee_store) : Params :=
  let params := default (fs_legacy s) (fs_params s) in
  mkParams (fm_NoBaseFee params) (fm_BaseFeeChangeDenominator params) (fm_ElasticityMultiplier params)
    (fm_EnableHeight params) (fm_BaseFee params)
    (Some (default LegacyZeroDec (fm_MinGasPrice params)))
    (Some (default LegacyZeroDec (fm_MinGasMultiplier params))).

Definition SetParams (p : Params) (s : fee_store) : fee_store :=
  mkFeeStore (Some p) (fs_legacy s) (fs_blockGasWanted s) (fs_transientGasWanted s) (fs_baseFeeV1 s).

Definition SetBlockGasWanted (gas : Z) (s : fee_store) : fee_store :=
  mkFeeStore (fs_params s) (fs_legacy s) (Some gas) (fs_transientGasWanted s) (fs_baseFeeV1 s).

Definition GetBlockGasWanted (s : fee_store) : Z := default 0 (fs_blockGasWanted s).

Definition GetTransientGasWanted (s : fee_store) : Z := default 0 (fs_transientGasWanted s).

Definition SetTransientBlockGasWanted (gasWanted : Z) (s : fee_store) : fee_store :=
  mkFeeStore (fs_params s) (fs_legacy s) (fs_blockGasWanted s) (Some gasWanted) (fs_baseFeeV1 s).

Definition AddTransientGasWanted (gasWanted : Z) (s : fee_store) : Z * fee_store :=
  let result := u64 (GetTransientGasWanted s + gasWanted) in
  (result, SetTransientBlockGasWanted result s).

Definition GetBaseFeeV1 (s : fee_store) : option Z :=
  match fs_baseFeeV1 s with
  | None | Some [] => None
  | Some bz => Some (SetBytes bz)
  end.

Definition GetBaseFeeEnabled (height : Z) (s : fee_store) : bool :=
  negb (fm_NoBaseFee (GetParams s)) && (fm_EnableHeight (GetParams s) <=? height).

Definition GetBaseFee (s : fee_store) : option Z :=
  let params := GetParams s in
  if fm_NoBaseFee params then None
  else match fm_BaseFee params with
       | None | Some 0 => GetBaseFeeV1 s
       | Some baseFee => Some baseFee
       end.

Definition with_base_fee (baseFee : Z) (params : Params) : Params :=
  mkParams (fm_NoBaseFee params) (fm_BaseFeeChangeDenominator params) (fm_ElasticityMultiplier params)
    (fm_EnableHeight params) (Some baseFee) (fm_MinGasPrice params) (fm_MinGasMultiplier params).

(** [math.NewIntFromBigInt] panics above 256 bits. *)
Definition SetBaseFee (baseFee : Z) (s : fee_store) : partial fee_store :=
  if 2 ^ 256 <=? Z.abs baseFee then Panic
  else Ok (SetParams (with_base_fee baseFee (GetParams s)) s).

(** ** The base fee: [keeper/eip1559.go] *)

Record fee_ctx := mkFeeCtx {
  fc_BlockHeight : Z;
  fc_MaxGas : option Z;
  fc_GasConsumedToLimit : option Z
}.

(** [big.Int.Div]; the divisor is never negative here. *)
Definition big_Div (x y : Z) : partial Z := if y =? 0 then Panic else Ok (x / y).

Definition block_gas_limit (ctx : fee_ctx) : Z :=
  match fc_MaxGas ctx with
  | Some maxGas => if -1 <? maxGas then maxGas else MaxUint64
  | None => MaxUint64
  end.

Definition base_fee_above (parentBaseFee parentGasUsed parentGasTarget denominator : Z) : partial Z :=
  let gasUsedDelta := parentGasUsed - parentGasTarget in
  y ← big_Div (parentBaseFee * gasUsedDelta) parentGasTarget;
  x ← big_Div y denominator;
  Ok (parentBaseFee + Z.max x 1).

Definition base_fee_below (parentBaseFee parentGasUsed parentGasTarget denominator : Z)
    (minGasPrice : dec) : partial Z :=
  let gasUsedDelta := parentGasTarget - parentGasUsed in
  y ← big_Div (parentBaseFee * gasUsedDelta) parentGasTarget;
  baseFeeDelta ← big_Div y denominator;
  minGasPrice ← dec_TruncateInt minGasPrice;
  Ok (Z.max (parentBaseFee - baseFeeDelta) minGasPrice).

Definition CalculateBaseFee (ctx : fee_ctx) (s : fee_store) : partial (option Z) :=
  let params := GetParams s in
  if negb (IsBaseFeeEnabled params (fc_BlockHeight ctx)) then Ok None
  else if fc_BlockHeight ctx =? fm_EnableHeight params then Ok (fm_BaseFee params)
  else match fm_BaseFee params with
  | None => Ok None
  | Some parentBaseFee =>
      let parentGasUsed := GetBlockGasWanted s in
      parentGasTarget ← big_Div (block_gas_limit ctx) (fm_ElasticityMultiplier params);
      if MaxUint64 <? parentGasTarget then Ok None
      else if parentGasUsed =? parentGasTarget then Ok (Some parentBaseFee)
      else if parentGasTarget <? parentGasUsed then
        Some <$> base_fee_above parentBaseFee parentGasUsed parentGasTarget (fm_BaseFeeChangeDenominator params)
      else
        Some <$> base_fee_below parentBaseFee parentGasUsed parentGasTarget
                   (fm_BaseFeeChangeDenominator params) (default LegacyZeroDec (fm_MinGasPrice params))
  end.

(** ** Blocks: [keeper/abci.go] *)

Definition BeginBlock (ctx : fee_ctx) (s : fee_store) : partial fee_store :=
  baseFee ← CalculateBaseFee ctx s;
  match baseFee with
  | None => Ok s
  | Some baseFee => SetBaseFee baseFee s
  end.

Definition EndBlock (ctx : fee_ctx) (s : fee_store) : partial fee_store :=
  match fc_GasConsumedToLimit ctx with
  | None => Ok s
  | Some gasUsed =>
      let gasWanted := GetTransientGasWanted s in
      if MaxInt64 <? gasWanted then Ok s
      else if MaxInt64 <? gasUsed then Ok s
      else
        let minGasMultiplier := default LegacyZeroDec (fm_MinGasMultiplier (GetParams s)) in
        limitedGasWanted ← dec_Mul (LegacyNewDec gasWanted) minGasMultiplier;
        updated ← dec_TruncateInt (LegacyMaxDec limitedGasWanted (LegacyNewDec gasUsed));
        if (updated <? 0) || (MaxUint64 <? updated) then Panic
        else Ok (SetBlockGasWanted updated s)
  end.

(** ** Messages and genesis: [keeper/msg_server.go], [genesis.go] *)

Definition UpdateParams (keeper_authority authority : string) (p : Params) (s : fee_store) : option fee_store :=
  if decide (keeper_authority = authority) then Some (SetParams p s) else None.

Definition InitGenesis (params : Params) (blockGas : Z) (s : fee_store) : fee_store :=
  SetBlockGasWanted blockGas (SetParams params s).

Definition ExportGenesis (s : fee_store) : Params * Z := (GetParams s, GetBlockGasWanted s).
End FeeMarket.
