(* ===== verification/FeeMarketSpec.v ===== *)
(** * Properties of the fee market

    The base fee follows EIP-1559 with the minimum gas price as floor when the target
    was not reached, the gas wanted is limited by what was used, and the configurations in which the
    computation divides by zero. *)

From S2P Require Import Prelude Dec FeeMarket.

(** ** EIP-1559 *)

(** The base fee after a block that used [used] gas of a target of [target]. *)
Definition eip1559 (parent used target denominator : Z) : Z :=
  if used <? target then parent - parent * (target - used) / (target * denominator)
  else if used =? target then parent
  else parent + Z.max 1 (parent * (used - target) / (target * denominator)).

Lemma eip1559_decrease parent used target denominator :
  0 <= parent → 0 < denominator → 0 <= used < target →
  parent - parent / denominator <= eip1559 parent used target denominator <= parent.
Proof.
  intros Hp Hd Hu. unfold eip1559. rewrite (proj2 (Z.ltb_lt _ _)) by lia.
  assert (parent * (target - used) / (target * denominator) <= parent / denominator).
  { rewrite <-Z.div_div by lia. apply Z.div_le_mono; [done|]. apply Z.div_le_upper_bound; nia. }
  assert (0 <= parent * (target - used) / (target * denominator)) by (apply Z.div_pos; nia). lia.
Qed.

Lemma eip1559_mono parent used used' target denominator :
  0 <= parent → 0 < denominator → 0 < target → 0 <= used <= used' →
  eip1559 parent used target denominator <= eip1559 parent used' target denominator.
Proof.
  intros Hp Hd Ht Hu. assert (0 < target * denominator) by nia.
  assert (∀ x y, 0 <= x <= y → parent * x / (target * denominator) <= parent * y / (target * denominator)) as Hm.
  { intros x y Hxy. apply Z.div_le_mono; [done|nia]. }
  assert (∀ x, 0 <= x → 0 <= parent * x / (target * denominator)) as H0.
  { intros x Hx. apply Z.div_pos; nia. }
  unfold eip1559. destruct (Z.ltb_spec used target), (Z.ltb_spec used' target); try lia.
  - specialize (Hm (target - used') (target - used)). lia.
  - specialize (H0 (target - used)). destruct (Z.eqb_spec used' target); lia.
  - destruct (Z.eqb_spec used target), (Z.eqb_spec used' target); try lia.
    specialize (Hm (used - target) (used' - target)). lia.
Qed.

Section Spec.
Context `{DL : DecLaws}.

Definition min_gas_price (s : fee_store) : Z :=
  raw (default LegacyZeroDec (fm_MinGasPrice (GetParams s))) / dec_one.

Definition gas_target (ctx : fee_ctx) (s : fee_store) : Z :=
  block_gas_limit ctx / fm_ElasticityMultiplier (GetParams s).

(** A block after the one that enabled the base fee, with parameters that the
    formula can use. *)
Record fee_ready (ctx : fee_ctx) (s : fee_store) (parent : Z) : Prop := {
  fr_enabled : IsBaseFeeEnabled (GetParams s) (fc_BlockHeight ctx) = true;
  fr_later : fc_BlockHeight ctx ≠ fm_EnableHeight (GetParams s);
  fr_parent : fm_BaseFee (GetParams s) = Some parent;
  fr_parent_nonneg : 0 <= parent;
  fr_denominator : 0 < fm_BaseFeeChangeDenominator (GetParams s);
  fr_elasticity : 0 < fm_ElasticityMultiplier (GetParams s);
  fr_target : 0 < gas_target ctx s;
  fr_limit : block_gas_limit ctx <= MaxUint64;
  fr_price : 0 <= raw (default LegacyZeroDec (fm_MinGasPrice (GetParams s)));
  fr_price_fits : dec_fits (raw (default LegacyZeroDec (fm_MinGasPrice (GetParams s))))
}.

Lemma big_Div_ok x y : y ≠ 0 → big_Div x y = Ok (x / y).
Proof. intros Hy. unfold big_Div. by rewrite (proj2 (Z.eqb_neq y 0)). Qed.

(** The base fee after a block that wanted [used] gas: the one of EIP-1559, kept above the
    minimum gas price only when the target was not reached. *)
Definition next_base_fee (ctx : fee_ctx) (s : fee_store) (parent used : Z) : Z :=
  let fee := eip1559 parent used (gas_target ctx s) (fm_BaseFeeChangeDenominator (GetParams s)) in
  if used <? gas_target ctx s then Z.max fee (min_gas_price s) else fee.

Lemma calculate_eip1559 ctx s parent :
  fee_ready ctx s parent → CalculateBaseFee ctx s = Ok (Some (next_base_fee ctx s parent (GetBlockGasWanted s))).
Proof.
  intros [Hen Hl Hp Hp0 Hd He Ht Hlim Hpr Hprf]. unfold CalculateBaseFee, next_base_fee. rewrite Hen. cbn [negb].
  rewrite (proj2 (Z.eqb_neq _ _)) by done. rewrite Hp, big_Div_ok, Ok_bind by lia.
  fold (gas_target ctx s). set (target := gas_target ctx s) in *. set (used := GetBlockGasWanted s).
  assert (target <= MaxUint64).
  { unfold target, gas_target. apply Z.div_le_upper_bound; [done|].
    pose proof (Z.mul_le_mono_nonneg_r 1 (fm_ElasticityMultiplier (GetParams s)) MaxUint64 ltac:(done) ltac:(lia)). lia. }
  rewrite (proj2 (Z.ltb_ge MaxUint64 target)) by done. unfold eip1559.
  destruct (Z.eqb_spec used target) as [Heq|Hne].
  { rewrite (proj2 (Z.ltb_ge used target)) by lia. done. }
  destruct (Z.ltb_spec target used).
  - rewrite (proj2 (Z.ltb_ge used target)) by lia. unfold base_fee_above.
    rewrite big_Div_ok, Ok_bind, big_Div_ok, Ok_bind by lia. cbn [fmap outcome_fmap]. rewrite Z.div_div by lia.
    by rewrite Z.max_comm.
  - rewrite (proj2 (Z.ltb_lt used target)) by lia. unfold base_fee_below.
    rewrite big_Div_ok, Ok_bind, big_Div_ok, Ok_bind by lia. rewrite Z.div_div by lia.
    by rewrite TruncateInt_pos by done.
Qed.

(** It falls by at most a share of [1 / denominator], to no less than the minimum gas
    price, and does not rise above the larger of the two; above the target it rises. *)
Lemma next_base_fee_bounds ctx s parent used :
  fee_ready ctx s parent → 0 <= used →
  let r := next_base_fee ctx s parent used in
  parent - parent / fm_BaseFeeChangeDenominator (GetParams s) <= r ∧
  (used < gas_target ctx s → min_gas_price s <= r <= Z.max parent (min_gas_price s)) ∧
  (used = gas_target ctx s → r = parent) ∧ (gas_target ctx s < used → parent < r).
Proof.
  intros [_ _ _ Hp0 Hd _ Ht _ _ _] Hu. unfold next_base_fee. cbv zeta.
  pose proof (Z.div_pos parent (fm_BaseFeeChangeDenominator (GetParams s)) Hp0 Hd).
  destruct (Z.ltb_spec used (gas_target ctx s)).
  - pose proof (eip1559_decrease parent used (gas_target ctx s) _ Hp0 Hd ltac:(lia)). lia.
  - unfold eip1559. rewrite (proj2 (Z.ltb_ge _ _)) by done. destruct (Z.eqb_spec used (gas_target ctx s)); lia.
Qed.

(** C21.  The base fee is the one of EIP-1559 for the gas wanted by the parent block
    and a target of the block limit over the elasticity; only when the target was not
    reached is it kept above the minimum gas price.  It never falls by more than a share
    of [1 / denominator], stays what it was at the target and rises when the target is
    exceeded.  A block that wanted more gas gives no lower base fee, unless the parent's
    is below the minimum gas price and only the second block reaches the target. *)
Theorem base_fee_follows_eip1559 ctx s parent used' :
  fee_ready ctx s parent → 0 <= GetBlockGasWanted s <= used' →
  let used := GetBlockGasWanted s in
  let d := fm_BaseFeeChangeDenominator (GetParams s) in
  let target := gas_target ctx s in
  let fee := eip1559 parent used target d in
  ∃ r r',
    CalculateBaseFee ctx s = Ok (Some r) ∧ CalculateBaseFee ctx (SetBlockGasWanted used' s) = Ok (Some r') ∧
    r = (if used <? target then Z.max fee (min_gas_price s) else fee) ∧
    parent - parent / d <= r ∧
    (used < target → min_gas_price s <= r <= Z.max parent (min_gas_price s)) ∧
    (used = target → r = parent) ∧ (target < used → parent < r) ∧
    (min_gas_price s <= parent ∨ used' < target ∨ target <= used → r <= r').
Proof.
  intros Hr Hu. cbv zeta. pose proof Hr as [_ _ _ Hp0 Hd _ Ht _ _ _].
  destruct (next_base_fee_bounds ctx s parent _ Hr (proj1 Hu)) as (Hlow & Hbelow & Hat & Habove).
  exists (next_base_fee ctx s parent (GetBlockGasWanted s)), (next_base_fee ctx s parent used').
  split; [by apply calculate_eip1559|].
  split; [by apply (calculate_eip1559 ctx (SetBlockGasWanted used' s)); destruct Hr; split|].
  split_and!; try done. intros Hcase.
  destruct (next_base_fee_bounds ctx s parent used' Hr ltac:(lia)) as (_ & _ & Hat' & Habove').
  pose proof (eip1559_mono parent _ used' (gas_target ctx s) _ Hp0 Hd Ht Hu) as Hm.
  destruct (Z.lt_ge_cases (GetBlockGasWanted s) (gas_target ctx s)) as [Hlt|Hge].
  - destruct (Z.lt_ge_cases used' (gas_target ctx s)); [|lia].
    unfold next_base_fee. rewrite !(proj2 (Z.ltb_lt _ _)) by done. lia.
  - unfold next_base_fee. rewrite !(proj2 (Z.ltb_ge _ _)) by lia. done.
Qed.

(** Validation accepts an elasticity multiplier of zero, with which the
    computation of the base fee divides by zero in every block after the one that
    enabled it; a block gas limit below the multiplier does the same after a block
    that wanted gas. *)
Theorem base_fee_divides_by_zero ctx s parent :
  IsBaseFeeEnabled (GetParams s) (fc_BlockHeight ctx) = true →
  fc_BlockHeight ctx ≠ fm_EnableHeight (GetParams s) →
  fm_BaseFee (GetParams s) = Some parent → Params_Validate (GetParams s) = Ok None →
  (fm_ElasticityMultiplier (GetParams s) = 0 ∨
   0 <= block_gas_limit ctx < fm_ElasticityMultiplier (GetParams s) ∧ 0 < GetBlockGasWanted s) →
  BeginBlock ctx s = Panic.
Proof.
  intros Hen Hl Hp _ Hz. unfold BeginBlock, CalculateBaseFee. rewrite Hen. cbn [negb].
  rewrite (proj2 (Z.eqb_neq _ _)), Hp by done. destruct Hz as [Hz|[Hlim Hu]].
  { unfold big_Div. by rewrite Hz. }
  rewrite big_Div_ok, Ok_bind, Z.div_small by lia.
  rewrite (proj2 (Z.ltb_ge MaxUint64 0)) by (unfold MaxUint64; lia).
  rewrite (proj2 (Z.eqb_neq _ _)), (proj2 (Z.ltb_lt _ _)) by lia. done.
Qed.

(** ** The gas wanted *)

Definition multiplier (s : fee_store) : Z := raw (default LegacyZeroDec (fm_MinGasMultiplier (GetParams s))).

Lemma EndBlock_spec ctx s used :
  fc_GasConsumedToLimit ctx = Some used → 0 <= used <= MaxInt64 →
  0 <= GetTransientGasWanted s <= MaxInt64 → 0 <= multiplier s <= dec_one →
  let stored := Z.max (GetTransientGasWanted s * multiplier s / dec_one) used in
  EndBlock ctx s = Ok (SetBlockGasWanted stored s) ∧
  used <= stored <= Z.max used (GetTransientGasWanted s) ∧
  GetBlockGasWanted (SetBlockGasWanted stored s) = stored ∧
  GetParams (SetBlockGasWanted stored s) = GetParams s.
Proof.
  intros Hc Hu Hw Hm stored. set (wanted := GetTransientGasWanted s) in *.
  assert (0 <= wanted * multiplier s / dec_one <= wanted) as Hdiv.
  { split; [apply Z.div_pos; [nia|done]|apply Z.div_le_upper_bound; [done|nia]]. }
  split; [|split; [lia|done]]. unfold EndBlock. rewrite Hc. fold wanted. unfold MaxInt64 in *.
  rewrite !(proj2 (Z.ltb_ge _ _)) by lia.
  destruct (Mul_int_fits wanted (default LegacyZeroDec (fm_MinGasMultiplier (GetParams s)))) as (c & Hmul & Hraw).
  { fold (multiplier s). unfold dec_fits, dec_one in *. nia. }
  fold (multiplier s) in Hraw. fold (LegacyNewDec wanted) in Hmul.
  cbv zeta. rewrite Hmul, Ok_bind.
  assert (raw (LegacyMaxDec c (LegacyNewDec used)) = Z.max (wanted * multiplier s) (used * dec_one)) as Hmax.
  { rewrite raw_Max, Hraw. unfold LegacyNewDec. by rewrite raw_FromInt. }
  rewrite TruncateInt_pos by (rewrite Hmax; unfold dec_fits, dec_one in *; nia).
  rewrite Ok_bind, Hmax.
  assert (Z.max (wanted * multiplier s) (used * dec_one) / dec_one = stored) as ->.
  { unfold stored. rewrite <-(Z.div_mul used dec_one) at 2 by done.
    destruct (Z.max_spec (wanted * multiplier s) (used * dec_one)) as [[Hlt ->]|[Hge ->]].
    - rewrite Z.max_r; [done|]. apply Z.div_le_mono; [done|lia].
    - rewrite Z.max_l; [done|]. apply Z.div_le_mono; [done|lia]. }
  rewrite (proj2 (Z.ltb_ge stored 0)), (proj2 (Z.ltb_ge MaxUint64 stored)) by (unfold MaxUint64; lia).
  done.
Qed.

(** At the end of a block the module stores the larger of the gas used and the
    gas wanted times the minimum multiplier, rounded down: never less than the gas
    used, never more than the gas wanted if that is larger; it leaves the rest of
    the store alone. *)
Theorem end_block_limits_gas_wanted ctx s used :
  fc_GasConsumedToLimit ctx = Some used → 0 <= used <= MaxInt64 →
  0 <= GetTransientGasWanted s <= MaxInt64 → 0 <= multiplier s <= dec_one →
  let stored := Z.max (GetTransientGasWanted s * multiplier s / dec_one) used in
  EndBlock ctx s = Ok (SetBlockGasWanted stored s) ∧
  used <= stored <= Z.max used (GetTransientGasWanted s) ∧
  GetBlockGasWanted (SetBlockGasWanted stored s) = stored ∧
  GetParams (SetBlockGasWanted stored s) = GetParams s.
Proof. apply EndBlock_spec. Qed.

(** ** The floor of the base fee *)

(** The base fee is set and not below the minimum gas price. *)
Record fee_inv (s : fee_store) : Prop := {
  fi_fee : ∃ fee, fm_BaseFee (GetParams s) = Some fee ∧ min_gas_price s <= fee;
  fi_price : 0 <= raw (default LegacyZeroDec (fm_MinGasPrice (GetParams s)));
  fi_fits : dec_fits (raw (default LegacyZeroDec (fm_MinGasPrice (GetParams s))));
  fi_denominator : 0 < fm_BaseFeeChangeDenominator (GetParams s);
  fi_elasticity : 0 < fm_ElasticityMultiplier (GetParams s);
  fi_wanted : 0 <= GetBlockGasWanted s;
  fi_multiplier : 0 <= multiplier s <= dec_one;
  fi_transient : 0 <= GetTransientGasWanted s <= MaxUint64
}.

Inductive fee_step (s : fee_store) : fee_store → Prop :=
| step_begin ctx s' :
    fm_ElasticityMultiplier (GetParams s) <= block_gas_limit ctx <= MaxUint64 →
    BeginBlock ctx s = Ok s' → fee_step s s'
| step_gas gas : 0 <= gas → fee_step s (AddTransientGasWanted gas s).2
| step_end ctx s' : (∀ used, fc_GasConsumedToLimit ctx = Some used → 0 <= used) →
    EndBlock ctx s = Ok s' → fee_step s s'
| step_commit : fee_step s (mkFeeStore (fs_params s) (fs_legacy s) (fs_blockGasWanted s) None (fs_baseFeeV1 s))
| step_params keeper_authority authority p s' :
    UpdateParams keeper_authority authority p s = Some s' → fee_inv s' → fee_step s s'.

Lemma fee_inv_params s s' :
  fee_inv s → GetParams s' = GetParams s → 0 <= GetBlockGasWanted s' →
  0 <= GetTransientGasWanted s' <= MaxUint64 → fee_inv s'.
Proof.
  intros [Hf Hp Hpf Hd He Hw Hm Ht] Heq Hw' Ht'. unfold multiplier, min_gas_price in *.
  split; unfold multiplier, min_gas_price; by rewrite ?Heq.
Qed.

Lemma GetParams_SetBaseFee fee s s' :
  SetBaseFee fee s = Ok s' →
  GetParams s' = with_base_fee fee (GetParams s) ∧ GetBlockGasWanted s' = GetBlockGasWanted s ∧
  GetTransientGasWanted s' = GetTransientGasWanted s.
Proof. unfold SetBaseFee. destruct (_ <=? _); [done|]. intros. by simplify_eq. Qed.

Lemma calculate_floor ctx s fee :
  fee_inv s → fm_ElasticityMultiplier (GetParams s) <= block_gas_limit ctx <= MaxUint64 →
  CalculateBaseFee ctx s = Ok (Some fee) → min_gas_price s <= fee.
Proof.
  intros [(parent & Hp & Hmin) Hpr Hprf Hd He Hw _ _] Hlim Hc.
  assert (0 <= min_gas_price s) by (by apply Z.div_pos).
  destruct (IsBaseFeeEnabled (GetParams s) (fc_BlockHeight ctx)) eqn:Hen.
  2: { unfold CalculateBaseFee in Hc. by rewrite Hen in Hc. }
  destruct (Z.eq_dec (fc_BlockHeight ctx) (fm_EnableHeight (GetParams s))) as [Heq|Hne].
  { unfold CalculateBaseFee in Hc. rewrite Hen, (proj2 (Z.eqb_eq _ _) Heq), Hp in Hc. simpl in Hc. by simplify_eq. }
  assert (0 < gas_target ctx s) by (apply Z.div_str_pos; lia).
  rewrite (calculate_eip1559 ctx s parent) in Hc by (split; try done; lia). simplify_eq. unfold next_base_fee.
  destruct (Z.ltb_spec (GetBlockGasWanted s) (gas_target ctx s)); [lia|].
  unfold eip1559. rewrite (proj2 (Z.ltb_ge _ _)) by done. destruct (_ =? _); lia.
Qed.

Lemma fee_step_inv s s' : fee_step s s' → fee_inv s → fee_inv s'.
Proof.
  intros [ctx s1 Hlim Hb|gas Hg|ctx s1 Hu He| |ka a p s1 Hup Hi] Hinv; [..|done].
  - unfold BeginBlock in Hb. apply bind_Ok_inv in Hb as ([fee|] & Hc & Hb); [|by simplify_eq].
    pose proof (calculate_floor ctx s fee Hinv Hlim Hc) as Hfl.
    apply GetParams_SetBaseFee in Hb as (HP & HG & HT).
    destruct Hinv as [_ Hp Hpf Hd Hel Hw Hm Ht]. unfold min_gas_price, multiplier in *.
    split; unfold min_gas_price, multiplier; rewrite ?HP, ?HG, ?HT; try done. by exists fee.
  - apply (fee_inv_params s); [done|done|apply Hinv|].
    change (GetTransientGasWanted _) with (u64 (GetTransientGasWanted s + gas)).
    pose proof (u64_range (GetTransientGasWanted s + gas)). unfold in_u64, MaxUint64 in *. lia.
  - pose proof (fi_transient _ Hinv) as Ht. pose proof (fi_multiplier _ Hinv) as Hm.
    destruct (fc_GasConsumedToLimit ctx) as [used|] eqn:Hc.
    2: { unfold EndBlock in He. rewrite Hc in He. by simplify_eq. }
    pose proof He as He0. unfold EndBlock in He0. rewrite Hc in He0. specialize (Hu used eq_refl).
    destruct (Z.ltb_spec MaxInt64 (GetTransientGasWanted s)); [by simplify_eq|].
    destruct (Z.ltb_spec MaxInt64 used); [by simplify_eq|]. clear He0.
    destruct (EndBlock_spec ctx s used) as (Heq & Hst & _); [done|lia|lia|done|].
    rewrite Heq in He. simplify_eq. apply (fee_inv_params s); [done|done| |done].
    change (GetBlockGasWanted (SetBlockGasWanted ?n s)) with n. lia.
  - apply (fee_inv_params s); [done|done|apply Hinv|].
    change (0 <= 0 <= MaxUint64). unfold MaxUint64. lia.
Qed.

(** In every run of blocks, transactions and parameter updates that keep it so,
    with a block gas limit of at least the elasticity multiplier, the base fee never
    falls below the minimum gas price and is never negative. *)
Theorem base_fee_floor s s' :
  fee_inv s → rtc fee_step s s' →
  ∃ fee, fm_BaseFee (GetParams s') = Some fee ∧ min_gas_price s' <= fee ∧ 0 <= fee.
Proof.
  intros Hinv Hr. assert (fee_inv s') as Hinv'.
  { clear -Hr Hinv DL. induction Hr; eauto using fee_step_inv. }
  destruct Hinv' as [(fee & Hf & Hle) Hp _ _ _ _ _ _]. exists fee. split; [done|]. split; [done|].
  assert (0 <= min_gas_price s') by (by apply Z.div_pos). lia.
Qed.
End Spec.

(** ** Witnesses *)

Module FeeToy.
Import ZDec.

Definition toy_fees (elasticity : Z) : fee_store :=
  mkFeeStore (Some (mkParams false 8 elasticity 0 (Some 1000) (Some (900 * dec_one)) (Some (dec_one / 2))))
    DefaultParams (Some 80) (Some 60) None.

Definition toy_block : fee_ctx := mkFeeCtx 5 (Some 100) (Some 40).

Lemma base_fee_follows_eip1559_witness :
  ∃ r', CalculateBaseFee toy_block (toy_fees 2) = Ok (Some 1075) ∧
    CalculateBaseFee toy_block (SetBlockGasWanted 90 (toy_fees 2)) = Ok (Some r') ∧ 1075 <= r'.
Proof.
  destruct (base_fee_follows_eip1559 toy_block (toy_fees 2) 1000 90) as (r & r' & Hc & Hc' & Hr & _ & _ & _ & _ & Hmono).
  - split; vm_compute; (reflexivity || discriminate).
  - vm_compute. split; discriminate.
  - exists r'. vm_compute in Hr. rewrite Hr in *. split; [exact Hc|]. split; [exact Hc'|]. apply Hmono. left.
    vm_compute. discriminate.
Defined.

(** With a minimum gas price of 2000 above the parent's 1000 the base fee is higher one
    unit below the target than at the target. *)
Lemma floor_only_below_target :
  let s used := SetBlockGasWanted used (mkFeeStore (Some (mkParams false 8 2 0 (Some 1000) (Some (2000 * dec_one))
    (Some (dec_one / 2)))) DefaultParams (Some 80) (Some 60) None) in
  CalculateBaseFee toy_block (s 49) = Ok (Some 2000) ∧ CalculateBaseFee toy_block (s 50) = Ok (Some 1000).
Proof. split; vm_compute; reflexivity. Qed.

Lemma base_fee_divides_by_zero_witness : BeginBlock toy_block (toy_fees 0) = Panic.
Proof.
  apply (base_fee_divides_by_zero toy_block (toy_fees 0) 1000).
  - reflexivity.
  - discriminate.
  - reflexivity.
  - vm_compute. reflexivity.
  - left. reflexivity.
Defined.

Lemma end_block_limits_gas_wanted_witness :
  EndBlock toy_block (toy_fees 2) = Ok (SetBlockGasWanted 40 (toy_fees 2)).
Proof.
  apply (end_block_limits_gas_wanted toy_block (toy_fees 2) 40).
  - reflexivity.
  - vm_compute. split; discriminate.
  - vm_compute. split; discriminate.
  - vm_compute. split; discriminate.
Defined.

Lemma base_fee_floor_witness :
  ∃ s', rtc fee_step (toy_fees 2) s' ∧
    ∃ fee, fm_BaseFee (GetParams s') = Some fee ∧ min_gas_price s' <= fee ∧ 0 <= fee.
Proof.
  eexists. assert (rtc fee_step (toy_fees 2) (SetBlockGasWanted 40 (toy_fees 2))) as Hr.
  { apply rtc_once. apply (step_end (toy_fees 2) toy_block).
    - intros used Hu. injection Hu as <-. discriminate.
    - vm_compute. reflexivity. }
  split; [exact Hr|]. apply (base_fee_floor (toy_fees 2)).
  - split; try (vm_compute; (split; discriminate) || discriminate || reflexivity).
    exists 1000. split; [reflexivity|]. vm_compute. discriminate.
  - exact Hr.
Defined.
End FeeToy.
