(* ===== verification/EvmKeeper.v ===== *)
(** * The EVM keeper as a store of the state database: [x/evm/keeper/statedb.go]

    The keeper stores contract storage and code in its own key-value store; the
    nonce and the code hash live in the account of the auth module ([EthAccount]
    of [types/account.go], or an account type without code hash), the balance in
    the bank module.  Auth and bank are [EvmEnv].  The instance of [Keeper] at the
    end is what [StateDB] runs on. *)

From S2P Require Import Prelude Sdk AccessList StateDB.

(** ** Auth and bank *)

(** [EthAccount.CodeHash] is the hash its hex string encodes; other account types do
    not implement [EthAccountI]. *)
Inductive AccountI {base other : Type} :=
| EthAccount (acc : base) (CodeHash : Hash)
| OtherAccount (acc : other).
Arguments AccountI : clear implicits.

Class EvmEnv `{Coins} := {
  chain : Type;
  base : Type;
  other : Type;
  chain_error : Type;
  base_address : base → Address;
  base_GetSequence : base → Z;
  base_SetSequence : base → Z → outcome chain_error base;
  other_address : other → Address;
  other_GetSequence : other → Z;
  other_SetSequence : other → Z → outcome chain_error other;
  EvmDenom : string;
  EmptyCodeHash : Hash;
  evm_address : Address;
  auth_GetAccount : chain → Address → option (AccountI base other);
  auth_SetAccount : chain → AccountI base other → chain;
  auth_NewAccountWithAddress : chain → Address → AccountI base other * chain;
  auth_RemoveAccount : chain → AccountI base other → chain;
  bank_GetBalance : chain → Address → string → Z;
  bank_GetSupply : chain → string → Z;
  bank_MintCoins : chain → coins → outcome chain_error chain;
  bank_BurnCoins : chain → coins → outcome chain_error chain;
  bank_SendCoinsFromModuleToAccount : chain → Address → coins → outcome chain_error chain;
  bank_SendCoinsFromAccountToModule : chain → Address → coins → outcome chain_error chain
}.

Inductive evm_error `{EvmEnv} :=
| ErrInvalidAccount
| ErrChain (e : chain_error).

Section EvmKeeper.
Context `{EE : EvmEnv}.

Record evm_store := mkEvmStore {
  ek_chain : chain;
  ek_storage : gmap Address (gmap Hash (list byte));
  ek_code : gmap Hash (list byte)
}.

Abbreviation evm_result A := (outcome evm_error A).

Definition of_chain {A} (x : outcome chain_error A) : evm_result A :=
  match x with Ok a => Ok a | Err e => Err (ErrChain e) | Panic => Panic end.

Definition set_chain (c : chain) (s : evm_store) : evm_store := mkEvmStore c (ek_storage s) (ek_code s).

Definition acct_address (acct : AccountI base other) : Address :=
  match acct with EthAccount b _ => base_address b | OtherAccount o => other_address o end.

Definition GetSequence (acct : AccountI base other) : Z :=
  match acct with EthAccount b _ => base_GetSequence b | OtherAccount o => other_GetSequence o end.

Definition SetSequence (n : Z) (acct : AccountI base other) : outcome chain_error (AccountI base other) :=
  match acct with
  | EthAccount b h => (λ b, EthAccount b h) <$> base_SetSequence b n
  | OtherAccount o => OtherAccount <$> other_SetSequence o n
  end.

(** ** Accounts: [types/account.go] *)

Definition GetCodeHash (acct : AccountI base other) : option Hash :=
  match acct with EthAccount _ h => Some h | OtherAccount _ => None end.

Definition SetCodeHash (codeHash : Hash) (acct : AccountI base other) : AccountI base other :=
  match acct with EthAccount b _ => EthAccount b codeHash | OtherAccount o => OtherAccount o end.

Inductive account_type := AccountTypeEOA | AccountTypeContract.

Definition EthAccount_Type (codeHash : Hash) : account_type :=
  if decide (EmptyCodeHash = codeHash) then AccountTypeEOA else AccountTypeContract.

(** ** Reads *)

Definition GetBalance (addr : Address) (s : evm_store) : Z :=
  if decide (EvmDenom = EmptyString) then -1 else bank_GetBalance (ek_chain s) addr EvmDenom.

Definition GetNonce (addr : Address) (s : evm_store) : Z :=
  match auth_GetAccount (ek_chain s) addr with
  | None => 0
  | Some acct => GetSequence acct
  end.

Definition GetAccountWithoutBalance (addr : Address) (s : evm_store) : option Account :=
  acct ← auth_GetAccount (ek_chain s) addr;
  let codeHash := match GetCodeHash acct with Some h => h | None => EmptyCodeHash end in
  Some (mkAccount (GetSequence acct) None (Some codeHash)).

Definition GetAccount (addr : Address) (s : evm_store) : option Account :=
  acct ← GetAccountWithoutBalance addr s;
  Some (mkAccount (acc_Nonce acct) (Some (GetBalance addr s)) (acc_CodeHash acct)).

Definition GetAccountOrEmpty (addr : Address) (s : evm_store) : Account :=
  match GetAccount addr s with
  | Some acct => acct
  | None => mkAccount 0 (Some 0) (Some EmptyCodeHash)
  end.

(** The slots of an account, as [AddressStoragePrefix] separates them. *)
Definition account_slots (addr : Address) (s : evm_store) : gmap Hash (list byte) :=
  default ∅ (ek_storage s !! addr).

Definition GetState (addr : Address) (key : Hash) (s : evm_store) : Hash :=
  match account_slots addr s !! key with
  | None | Some [] => 0
  | Some value => BytesToHash value
  end.

Definition GetCode (codeHash : Hash) (s : evm_store) : option (list byte) := ek_code s !! codeHash.

(** The pairs the iterator of [ForEachStorage] visits, in key order. *)
Definition storage_pairs (addr : Address) (s : evm_store) : list (Hash * Hash) :=
  omap (λ k, (λ v, (k, BytesToHash v)) <$> account_slots addr s !! k) (sorted_keys (account_slots addr s)).

(** [GetAccountStorage] of [keeper.go]: a callback that never stops. *)
Definition GetAccountStorage (addr : Address) (s : evm_store) : list (Hash * Hash) := storage_pairs addr s.

(** [ForEachStorage] with a callback that updates the store and tells whether to go on. *)
Fixpoint for_each_loop (cb : Hash → Hash → evm_store → bool * evm_store) (l : list (Hash * Hash))
    (s : evm_store) : evm_store :=
  match l with
  | [] => s
  | (key, value) :: l =>
      let '(go_on, s) := cb key value s in
      if (go_on : bool) then for_each_loop cb l s else s
  end.

Definition ForEachStorage (addr : Address) (cb : Hash → Hash → evm_store → bool * evm_store)
    (s : evm_store) : evm_store :=
  for_each_loop cb (storage_pairs addr s) s.

(** ** Writes *)

(** [sdkmath.NewIntFromBigInt] panics above 256 bits. *)
Definition int_coin (n : Z) : outcome chain_error coins :=
  if 2 ^ 256 <=? n then Panic else Ok (NewCoin EvmDenom n).

Definition SetBalance (addr : Address) (amount : Z) (s : evm_store) : evm_result evm_store :=
  let c := ek_chain s in
  let balance := bank_GetBalance c addr EvmDenom in
  let delta := amount - balance in
  (λ c, set_chain c s) <$> of_chain (
    if 0 <? delta then
      cs ← int_coin delta;
      c ← bank_MintCoins c cs;
      bank_SendCoinsFromModuleToAccount c addr cs
    else if delta <? 0 then
      cs ← int_coin (- delta);
      c ← bank_SendCoinsFromAccountToModule c addr cs;
      bank_BurnCoins c cs
    else Ok c).

Definition SetAccount (addr : Address) (account : Account) (s : evm_store) : evm_result evm_store :=
  let '(acct, c) :=
    match auth_GetAccount (ek_chain s) addr with
    | Some acct => (acct, ek_chain s)
    | None => auth_NewAccountWithAddress (ek_chain s) addr
    end in
  acct ← of_chain (SetSequence (acc_Nonce account) acct);
  let codeHash := default 0 (acc_CodeHash account) in
  let acct := SetCodeHash codeHash acct in
  let s := set_chain (auth_SetAccount c acct) s in
  match acc_Balance account with
  | None => Panic
  | Some balance => SetBalance addr balance s
  end.

Definition SetState (addr : Address) (key : Hash) (value : list byte) (s : evm_store) : evm_store :=
  let slots := account_slots addr s in
  let slots := match value with [] => delete key slots | _ => <[key := value]> slots end in
  mkEvmStore (ek_chain s) (<[addr := slots]> (ek_storage s)) (ek_code s).

Definition SetCode (codeHash : Hash) (code : option (list byte)) (s : evm_store) : evm_store :=
  mkEvmStore (ek_chain s) (ek_storage s)
    (match code with
     | None | Some [] => delete codeHash (ek_code s)
     | Some code => <[codeHash := code]> (ek_code s)
     end).

Definition DeleteAccount (addr : Address) (s : evm_store) : evm_result evm_store :=
  match auth_GetAccount (ek_chain s) addr with
  | None => Ok s
  | Some (OtherAccount _) => Err ErrInvalidAccount
  | Some (EthAccount b h) =>
      s ← SetBalance addr 0 s;
      let s := ForEachStorage addr (λ key _ s, (true, SetState addr key [] s)) s in
      Ok (set_chain (auth_RemoveAccount (ek_chain s) (EthAccount b h)) s)
  end.

#[export] Instance evm_keeper : Keeper evm_store := {
  keeper_error := evm_error;
  keeper_GetAccount s a := GetAccount a s;
  keeper_GetState s a k := GetState a k s;
  keeper_GetCode s h := GetCode h s;
  keeper_Storage s a := storage_pairs a s;
  keeper_SetAccount s a acct := SetAccount a acct s;
  keeper_SetState s a k v := SetState a k v s;
  keeper_SetCode s h code := SetCode h code s;
  keeper_DeleteAccount s a := DeleteAccount a s
}.
End EvmKeeper.
