(* ===== verification/EvmKeeperSpec.v ===== *)
(** * The EVM keeper implements the store of the state database

    The laws of auth and bank, the exact effect of [SetBalance], [SetAccount] and
    [DeleteAccount], the instance of [KeeperLaws] that closes the interface of
    [Commit], and what a commit does to the supply. *)

From S2P Require Import Prelude Sdk AccessList StateDB Journal StateDBSpec Commit EvmKeeper.

Section Laws.
Context `{EE : EvmEnv}.

(** Accounts are the same in two chains. *)
Definition same_accounts (c c' : chain) : Prop := ∀ a, auth_GetAccount c' a = auth_GetAccount c a.

(** Accounts of [c] are there unchanged in [c']; there may be new ones. *)
Definition kept_accounts (c c' : chain) : Prop :=
  ∀ a x, auth_GetAccount c a = Some x → auth_GetAccount c' a = Some x.

#[global] Instance kept_accounts_preorder : PreOrder kept_accounts.
Proof. split; [by intros c a x|intros c1 c2 c3 H12 H23 a x Hx; by apply H23, H12]. Qed.

Lemma same_kept c c' : same_accounts c c' → kept_accounts c c'.
Proof. intros Hs a x Hx. by rewrite Hs. Qed.

(** Balances and supply are the same in two chains. *)
Definition same_bank (c c' : chain) : Prop :=
  (∀ a d, bank_GetBalance c' a d = bank_GetBalance c a d) ∧
  (∀ d, bank_GetSupply c' d = bank_GetSupply c d).

(** [c'] has [cs] more at [a] than [c]; the supply grows with it. *)
Definition credited (a : Address) (cs : coins) (sign : Z) (c c' : chain) : Prop :=
  (∀ a' d, bank_GetBalance c' a' d = bank_GetBalance c a' d + if decide (a' = a) then sign * AmountOf cs d else 0) ∧
  (∀ d, bank_GetSupply c' d = bank_GetSupply c d + sign * AmountOf cs d).

Definition transferred (from to : Address) (cs : coins) (c c' : chain) : Prop :=
  (∀ a d, bank_GetBalance c' a d = bank_GetBalance c a d
     - (if decide (a = from) then AmountOf cs d else 0) + (if decide (a = to) then AmountOf cs d else 0)) ∧
  (∀ d, bank_GetSupply c' d = bank_GetSupply c d).

(** An account the auth module may be asked to store or remove: the account of the
    EVM module is a module account and stays one. *)
Definition storable (x : AccountI base other) : Prop :=
  acct_address x = evm_address → ∃ o, x = OtherAccount o.

Class EvmEnvLaws : Prop := {
  law_denom : EvmDenom ≠ EmptyString;
  law_auth_address c a x : auth_GetAccount c a = Some x → acct_address x = a;
  law_module_account c : ∃ o, auth_GetAccount c evm_address = Some (OtherAccount o);
  law_auth_Set c x a : storable x →
    auth_GetAccount (auth_SetAccount c x) a =
      if decide (a = acct_address x) then Some x else auth_GetAccount c a;
  law_auth_Set_bank c x : same_bank c (auth_SetAccount c x);
  law_auth_New c a x c' : auth_NewAccountWithAddress c a = (x, c') →
    (∃ b, x = EthAccount b EmptyCodeHash ∧ base_address b = a) ∧ same_accounts c c' ∧ same_bank c c';
  law_auth_Remove c x a : acct_address x ≠ evm_address →
    auth_GetAccount (auth_RemoveAccount c x) a =
      if decide (a = acct_address x) then None else auth_GetAccount c a;
  law_auth_Remove_bank c x : same_bank c (auth_RemoveAccount c x);
  law_base_SetSequence b n b' : base_SetSequence b n = Ok b' →
    base_GetSequence b' = n ∧ base_address b' = base_address b;
  law_other_SetSequence o n o' : other_SetSequence o n = Ok o' →
    other_GetSequence o' = n ∧ other_address o' = other_address o;
  law_balance_nonneg c a d : 0 <= bank_GetBalance c a d;
  law_MintCoins c cs c' : bank_MintCoins c cs = Ok c' → credited evm_address cs 1 c c' ∧ same_accounts c c';
  law_BurnCoins c cs c' : bank_BurnCoins c cs = Ok c' → credited evm_address cs (-1) c c' ∧ same_accounts c c';
  law_SendToAccount c a cs c' :
    is_Some (auth_GetAccount c a) → bank_SendCoinsFromModuleToAccount c a cs = Ok c' →
    transferred evm_address a cs c c' ∧ same_accounts c c';
  law_SendToModule c a cs c' :
    bank_SendCoinsFromAccountToModule c a cs = Ok c' → transferred a evm_address cs c c' ∧ same_accounts c c'
}.
End Laws.

Section Spec.
Context `{CL : CoinsLaws} `{EE : !EvmEnv} `{EL : !EvmEnvLaws}.

Lemma of_chain_inv {A} (x : outcome chain_error A) a : of_chain x = Ok a → x = Ok a.
Proof. destruct x; naive_solver. Qed.

Lemma int_coin_inv n cs : 0 <= n → int_coin n = Ok cs → ∀ d, AmountOf cs d = if decide (EvmDenom = d) then n else 0.
Proof.
  unfold int_coin. intros Hn. destruct (_ <=? _); [done|]. intros [= <-] d. by apply AmountOf_NewCoin.
Qed.

(** The balance of [a] becomes [n], the supply follows, nothing else changes. *)
Definition balance_set (a : Address) (n : Z) (c c' : chain) : Prop :=
  (∀ a' d, bank_GetBalance c' a' d =
     if decide (a' = a ∧ d = EvmDenom) then n else bank_GetBalance c a' d) ∧
  (∀ d, bank_GetSupply c' d =
     bank_GetSupply c d + if decide (d = EvmDenom) then n - bank_GetBalance c a EvmDenom else 0) ∧
  same_accounts c c'.

Lemma SetBalance_spec a n s s' :
  is_Some (auth_GetAccount (ek_chain s) a) → SetBalance a n s = Ok s' →
  balance_set a n (ek_chain s) (ek_chain s') ∧ ek_storage s' = ek_storage s ∧ ek_code s' = ek_code s.
Proof.
  intros Ha Hs. unfold SetBalance in Hs. set (c := ek_chain s) in *.
  set (bal := bank_GetBalance c a EvmDenom) in *.
  destruct (of_chain _) as [c'| |] eqn:Hc; simpl in Hs; [|done|done]. simplify_eq. simpl.
  split; [|done]. apply of_chain_inv in Hc. unfold balance_set. fold bal.
  destruct (Z.ltb_spec 0 (n - bal)) as [Hpos|Hpos].
  - apply bind_Ok_inv in Hc as (cs & Hcs & Hc). apply bind_Ok_inv in Hc as (c1 & Hc1 & Hc2).
    assert (∀ d, AmountOf cs d = if decide (EvmDenom = d) then n - bal else 0) as Hamt
      by (apply int_coin_inv; [lia|done]).
    apply law_MintCoins in Hc1 as [[Hb1 Hs1] Ha1].
    apply law_SendToAccount in Hc2 as [[Hb2 Hs2] Ha2]; [|by rewrite Ha1].
    split; [|split; [|intros a'; by rewrite Ha2]].
    + intros a' d. rewrite Hb2, Hb1, Hamt. unfold bal in *.
      repeat case_decide; subst; destruct_and?; subst; try lia; naive_solver lia.
    + intros d. rewrite Hs2, Hs1, Hamt. repeat case_decide; subst; try lia; congruence.
  - destruct (Z.ltb_spec (n - bal) 0) as [Hneg|Hneg].
    + apply bind_Ok_inv in Hc as (cs & Hcs & Hc). apply bind_Ok_inv in Hc as (c1 & Hc1 & Hc2).
      assert (∀ d, AmountOf cs d = if decide (EvmDenom = d) then - (n - bal) else 0) as Hamt
        by (apply int_coin_inv; [lia|done]).
      apply law_SendToModule in Hc1 as [[Hb1 Hs1] Ha1]. apply law_BurnCoins in Hc2 as [[Hb2 Hs2] Ha2].
      split; [|split; [|intros a'; by rewrite Ha2]].
      * intros a' d. rewrite Hb2, Hb1, Hamt. unfold bal in *.
        repeat case_decide; subst; destruct_and?; subst; try lia; naive_solver lia.
      * intros d. rewrite Hs2, Hs1, Hamt. repeat case_decide; subst; try lia; congruence.
    + simplify_eq. split; [|split; [|done]].
      * intros a' d. case_decide as Hd; [|done]. destruct Hd as [-> ->]. unfold bal in *. lia.
      * intros d. case_decide; subst; unfold bal in *; lia.
Qed.

(** ** Accounts *)

Lemma SetSequence_inv n x x' :
  SetSequence n x = Ok x' →
  GetSequence x' = n ∧ acct_address x' = acct_address x ∧ GetCodeHash x' = GetCodeHash x.
Proof.
  destruct x as [b h|o]; simpl.
  - destruct (base_SetSequence b n) eqn:E; simpl; intros; simplify_eq. simpl.
    apply law_base_SetSequence in E as [-> ->]. done.
  - destruct (other_SetSequence o n) eqn:E; simpl; intros; simplify_eq. simpl.
    apply law_other_SetSequence in E as [-> ->]. done.
Qed.

(** The code hash an account shows after [h] was written to it. *)
Definition evm_kept_code (s : evm_store) (a : Address) (h : Hash) : Hash :=
  match auth_GetAccount (ek_chain s) a with
  | Some (OtherAccount _) => EmptyCodeHash
  | _ => h
  end.

Lemma SetCodeHash_facts h x :
  GetSequence (SetCodeHash h x) = GetSequence x ∧ acct_address (SetCodeHash h x) = acct_address x ∧
  (∀ o, x = OtherAccount o → SetCodeHash h x = x).
Proof. destruct x; naive_solver. Qed.

(** The account [SetAccount] starts from: the stored one, or a new one. *)
Lemma loaded_account s a x c :
  match auth_GetAccount (ek_chain s) a with
  | Some acct => (acct, ek_chain s)
  | None => auth_NewAccountWithAddress (ek_chain s) a
  end = (x, c) →
  acct_address x = a ∧ storable x ∧ same_accounts (ek_chain s) c ∧ same_bank (ek_chain s) c ∧
  (∀ h, default EmptyCodeHash (GetCodeHash (SetCodeHash h x)) = evm_kept_code s a h).
Proof.
  unfold evm_kept_code, storable. destruct (law_module_account (ek_chain s)) as [m Hm].
  destruct (auth_GetAccount (ek_chain s) a) as [y|] eqn:Hy; intros Heq.
  - simplify_eq. pose proof (law_auth_address _ _ _ Hy) as Hadr. split; [done|].
    split; [|split; [done|split; [done|by destruct x]]].
    rewrite Hadr. intros ->. rewrite Hm in Hy. simplify_eq. eauto.
  - apply law_auth_New in Heq as ((b & -> & Hb) & Hacc & Hbank). simpl.
    split; [done|]. split; [|done]. rewrite Hb. intros ->. congruence.
Qed.

Lemma SetAccount_spec a acct b s s' :
  SetAccount a acct s = Ok s' → acc_Balance acct = Some b →
  (∃ x, auth_GetAccount (ek_chain s') a = Some x ∧ GetSequence x = acc_Nonce acct ∧
     default EmptyCodeHash (GetCodeHash x) = evm_kept_code s a (default 0 (acc_CodeHash acct))) ∧
  (∀ a', a' ≠ a → auth_GetAccount (ek_chain s') a' = auth_GetAccount (ek_chain s) a') ∧
  (∀ a' d, bank_GetBalance (ek_chain s') a' d =
     if decide (a' = a ∧ d = EvmDenom) then b else bank_GetBalance (ek_chain s) a' d) ∧
  (∀ d, bank_GetSupply (ek_chain s') d = bank_GetSupply (ek_chain s) d +
     if decide (d = EvmDenom) then b - bank_GetBalance (ek_chain s) a EvmDenom else 0) ∧
  ek_storage s' = ek_storage s ∧ ek_code s' = ek_code s.
Proof.
  unfold SetAccount. destruct (match auth_GetAccount _ a with Some _ => _ | None => _ end) as [x c] eqn:Hx.
  apply loaded_account in Hx as (Hadr & Hst & Hacc & [Hbal Hsup] & Hcode).
  intros Hs Hbal0. apply bind_Ok_inv in Hs as (y & Hy%of_chain_inv & Hs). rewrite Hbal0 in Hs.
  apply SetSequence_inv in Hy as (Hseq & Hyadr & Hych). set (h := default 0 (acc_CodeHash acct)) in *.
  destruct (SetCodeHash_facts h y) as (Fseq & Fadr & Foth). set (z := SetCodeHash h y) in *.
  assert (acct_address z = a) as Hz by congruence.
  assert (storable z) as Hstz.
  { intros He. destruct Hst as [o Ho]; [congruence|]. subst x. destruct y; [done|]. naive_solver. }
  assert (default EmptyCodeHash (GetCodeHash z) = evm_kept_code s a h) as Hzc.
  { rewrite <-Hcode. unfold z. by destruct x, y. }
  destruct (law_auth_Set_bank c z) as [Hzb Hzs].
  assert (auth_GetAccount (auth_SetAccount c z) a = Some z) as Hget.
  { rewrite law_auth_Set by done. by rewrite decide_True. }
  apply SetBalance_spec in Hs as ((Hb' & Hs' & Ha') & Hst' & Hco'); [|simpl; by rewrite Hget].
  simpl in Hb', Hs', Ha', Hst', Hco'. split; [|split; [|split; [|split; [|done]]]].
  - exists z. rewrite Ha', Hget. split; [done|]. split; [congruence|done].
  - intros a' Hne. rewrite Ha', law_auth_Set, Hz, decide_False by done. apply Hacc.
  - intros a' d. rewrite Hb', Hzb, Hbal. done.
  - intros d. rewrite Hs', Hzs, Hsup. by rewrite Hzb, Hbal.
Qed.

(** ** Storage *)

Lemma SetState_slots a k v s a' :
  account_slots a' (SetState a k v s) =
    if decide (a' = a) then match v with [] => delete k (account_slots a s) | _ => <[k := v]> (account_slots a s) end
    else account_slots a' s.
Proof.
  unfold SetState, account_slots. simpl. rewrite lookup_insert.
  destruct (decide (a = a')), (decide (a' = a)); subst; simpl; congruence.
Qed.

Lemma storage_pairs_keys a s : (storage_pairs a s).*1 = sorted_keys (account_slots a s).
Proof.
  unfold storage_pairs.
  assert (∀ l, Forall (λ k, is_Some (account_slots a s !! k)) l →
    (omap (λ k, (λ v, (k, BytesToHash v)) <$> account_slots a s !! k) l).*1 = l) as Hl.
  { induction 1 as [|k l [v Hv] _ IH]; [done|]. cbn [omap list_omap]. rewrite Hv. cbn [fmap option_fmap option_map].
    rewrite fmap_cons. by rewrite IH. }
  apply Hl, Forall_forall. intros k. apply elem_of_sorted_keys.
Qed.

(** The loop of [DeleteAccount]. *)
Lemma clear_loop a l s :
  let s' := for_each_loop (λ key _ s, (true, SetState a key [] s)) l s in
  ek_chain s' = ek_chain s ∧ ek_code s' = ek_code s ∧
  (∀ a', a' ≠ a → account_slots a' s' = account_slots a' s) ∧
  ∀ k, account_slots a s' !! k = if decide (k ∈ l.*1) then None else account_slots a s !! k.
Proof.
  revert s. induction l as [|[k v] l IH]; intros s; cbn [for_each_loop]; [done|].
  destruct (IH (SetState a k [] s)) as (H1 & H2 & H3 & H4). split; [done|]. split; [done|]. split.
  - intros a' Hne. rewrite H3 by done. rewrite SetState_slots. rewrite decide_False by done. done.
  - intros k'. rewrite H4, SetState_slots, (decide_True (P := a = a)), lookup_delete, fmap_cons by done. simpl.
    pose proof (elem_of_cons (l.*1) k' k) as Hc. repeat case_decide; naive_solver.
Qed.

(** The account, its balance and its storage are gone; nothing else changes. *)
Lemma DeleteAccount_spec a s s' :
  DeleteAccount a s = Ok s' → is_Some (auth_GetAccount (ek_chain s) a) →
  auth_GetAccount (ek_chain s') a = None ∧
  (∀ a', a' ≠ a → auth_GetAccount (ek_chain s') a' = auth_GetAccount (ek_chain s) a' ∧
     account_slots a' s' = account_slots a' s) ∧
  (∀ a' d, bank_GetBalance (ek_chain s') a' d =
     if decide (a' = a ∧ d = EvmDenom) then 0 else bank_GetBalance (ek_chain s) a' d) ∧
  (∀ d, bank_GetSupply (ek_chain s') d = bank_GetSupply (ek_chain s) d -
     if decide (d = EvmDenom) then bank_GetBalance (ek_chain s) a EvmDenom else 0) ∧
  account_slots a s' = ∅ ∧ ek_code s' = ek_code s.
Proof.
  unfold DeleteAccount. intros Hd [x Hx]. rewrite Hx in Hd. destruct x as [b h|]; [|done].
  apply bind_Ok_inv in Hd as (s1 & H1 & Hd). simplify_eq.
  apply SetBalance_spec in H1 as ((Hb1 & Hs1 & Ha1) & Hst1 & Hco1); [|by rewrite Hx].
  destruct (clear_loop a (storage_pairs a s1) s1) as (Hc2 & Hco2 & Hoth2 & Hsl2).
  fold (ForEachStorage a (λ key _ s, (true, SetState a key [] s)) s1) in *. set (s2 := ForEachStorage _ _ _) in *.
  assert (base_address b = a) as Hadr by exact (law_auth_address _ _ _ Hx).
  assert (a ≠ evm_address) as Hne.
  { intros ->. destruct (law_module_account (ek_chain s)) as [o Ho]. congruence. }
  destruct (law_auth_Remove_bank (ek_chain s2) (EthAccount b h)) as [Hrb Hrs].
  assert (∀ a', account_slots a' s1 = account_slots a' s) as Hsame.
  { intros a'. unfold account_slots. by rewrite Hst1. }
  simpl ek_chain. split; [|split; [|split; [|split; [|split; [|simpl; congruence]]]]].
  - rewrite law_auth_Remove; [|simpl; congruence]. by rewrite decide_True.
  - intros a' Ha'. split; [|change (account_slots a' s2 = account_slots a' s); by rewrite Hoth2, Hsame].
    rewrite law_auth_Remove; [|simpl; congruence]. rewrite decide_False by (simpl; congruence). by rewrite Hc2, Ha1.
  - intros a' d. by rewrite Hrb, Hc2, Hb1.
  - intros d. rewrite Hrs, Hc2, Hs1. case_decide; lia.
  - change (account_slots a s2 = ∅). apply map_eq. intros k. rewrite Hsl2, storage_pairs_keys, lookup_empty.
    case_decide as Hk; [done|]. rewrite elem_of_sorted_keys in Hk. destruct (account_slots a s1 !! k) eqn:E; [|done].
    destruct Hk. eauto.
Qed.

(** ** The interface of [Commit] *)

Lemma GetBalance_bank a s : GetBalance a s = bank_GetBalance (ek_chain s) a EvmDenom.
Proof. unfold GetBalance. by rewrite decide_False by apply law_denom. Qed.

Lemma GetAccount_alt a s :
  GetAccount a s = (λ x, mkAccount (GetSequence x) (Some (bank_GetBalance (ek_chain s) a EvmDenom))
                           (Some (default EmptyCodeHash (GetCodeHash x)))) <$> auth_GetAccount (ek_chain s) a.
Proof.
  unfold GetAccount, GetAccountWithoutBalance. rewrite GetBalance_bank.
  destruct (auth_GetAccount (ek_chain s) a) as [x|]; simpl; [|done]. by destruct (GetCodeHash x).
Qed.

(** An address at which auth, bank and storage did not change. *)
Lemma same_account_ext s s' a :
  auth_GetAccount (ek_chain s') a = auth_GetAccount (ek_chain s) a →
  bank_GetBalance (ek_chain s') a EvmDenom = bank_GetBalance (ek_chain s) a EvmDenom →
  account_slots a s' = account_slots a s →
  same_account evm_kept_code s s' a.
Proof.
  intros Ha Hb Hs. split; [|split].
  - simpl. by rewrite !GetAccount_alt, Ha, Hb.
  - intros k. simpl. unfold GetState. by rewrite Hs.
  - intros h. unfold evm_kept_code. by rewrite Ha.
Qed.

Lemma account_slots_storage s s' a : ek_storage s' = ek_storage s → account_slots a s' = account_slots a s.
Proof. unfold account_slots. by intros ->. Qed.

#[export, refine] Instance evm_keeper_laws : KeeperLaws evm_store := { kept_code := evm_kept_code }.
Proof.
  - intros s a n b h s' Hset.
    destruct (SetAccount_spec _ _ b _ _ Hset eq_refl) as (Hx & Hoth & Hbal & _ & Hst & Hco).
    destruct Hx as (x & Hx & Hn & Hc). simpl in Hn, Hc. split; [|split; [|split]].
    + simpl. rewrite GetAccount_alt, Hx. simpl. rewrite Hn, Hc, Hbal, decide_True by done. done.
    + intros k. simpl. unfold GetState. by rewrite (account_slots_storage s s').
    + intros a' Ha'. apply same_account_ext; [by apply Hoth| |by apply account_slots_storage].
      rewrite Hbal, decide_False; [done|naive_solver].
    + intros h'. simpl. unfold GetCode. by rewrite Hco.
  - intros s a k bz Hbz s'. split; [done|]. split; [|split; [|done]].
    + intros k'. simpl. unfold s'. simpl. unfold GetState.
      rewrite SetState_slots, decide_True by done. destruct bz as [|b bz]; [done|].
      rewrite lookup_insert. by case_decide.
    + intros a' Ha'. apply same_account_ext; [done|done|]. unfold s'. simpl.
      by rewrite SetState_slots, decide_False.
  - intros s h code s'. split; [intros a; by apply same_account_ext|]. intros h'. unfold s'. simpl.
    unfold GetCode, SetCode. simpl.
    destruct code as [[|b bz]|]; rewrite ?lookup_insert, ?lookup_delete; by case_decide.
  - intros s a s' Hd. destruct (auth_GetAccount (ek_chain s) a) as [x|] eqn:Hx.
    + apply DeleteAccount_spec in Hd as (H1 & H2 & H3 & _ & H5 & H6); [|by rewrite Hx].
      split; [simpl; by rewrite GetAccount_alt, H1|]. split; [|split; [|intros h; simpl; unfold GetCode; by rewrite H6]].
      * intros _ k. simpl. unfold GetState. by rewrite H5, lookup_empty.
      * intros a' Ha'. destruct (H2 a' Ha') as [Hg Hs]. apply same_account_ext; [done| |done].
        rewrite H3, decide_False; [done|naive_solver].
    + simpl in Hd. unfold DeleteAccount in Hd. rewrite Hx in Hd. injection Hd as <-.
      assert (GetAccount a s = None) as HN by (by rewrite GetAccount_alt, Hx).
      split; [done|]. split; [|done]. simpl. rewrite HN. by intros [? ?].
Defined.

(** Writing an account through the keeper reads back: nonce, balance and, for
    Ethereum accounts and new ones, code hash are those written; the supply of the EVM
    denomination changes by exactly the change of the balance; no other account,
    balance, slot or code changes. *)
Theorem evm_account_roundtrip a n b h s s' :
  SetAccount a (mkAccount n (Some b) (Some h)) s = Ok s' →
  GetAccount a s' = Some (mkAccount n (Some b) (Some (evm_kept_code s a h))) ∧
  (∀ a', a' ≠ a → GetAccount a' s' = GetAccount a' s) ∧
  (∀ a' d, (a', d) ≠ (a, EvmDenom) → bank_GetBalance (ek_chain s') a' d = bank_GetBalance (ek_chain s) a' d) ∧
  bank_GetSupply (ek_chain s') EvmDenom - bank_GetSupply (ek_chain s) EvmDenom = b - GetBalance a s ∧
  (∀ a' k, GetState a' k s' = GetState a' k s) ∧ (∀ h', GetCode h' s' = GetCode h' s).
Proof.
  intros Hs. pose proof (law_SetAccount s a n b h s' Hs) as (Hg & _ & Hoth & _).
  destruct (SetAccount_spec _ _ b _ _ Hs eq_refl) as (_ & _ & Hbal & Hsup & Hst & Hco).
  split; [exact Hg|]. split; [intros a' Ha'; by apply (Hoth a' Ha')|]. split; [|split; [|split]].
  - intros a' d Hne. rewrite Hbal, decide_False; [done|naive_solver].
  - rewrite Hsup, decide_True, GetBalance_bank by done. lia.
  - intros a' k. unfold GetState. by rewrite (account_slots_storage s s').
  - intros h'. unfold GetCode. by rewrite Hco.
Qed.

(** Deleting an account burns its balance, clears every slot of its storage and
    removes it from auth; everything else, codes included, stays. *)
Theorem evm_delete_clears a s s' :
  DeleteAccount a s = Ok s' → is_Some (GetAccount a s) →
  GetAccount a s' = None ∧ GetBalance a s' = 0 ∧ storage_pairs a s' = [] ∧
  (∀ k, GetState a k s' = 0) ∧
  bank_GetSupply (ek_chain s') EvmDenom = bank_GetSupply (ek_chain s) EvmDenom - GetBalance a s ∧
  (∀ a', a' ≠ a → GetAccount a' s' = GetAccount a' s ∧ ∀ k, GetState a' k s' = GetState a' k s) ∧
  (∀ h, GetCode h s' = GetCode h s).
Proof.
  intros Hd Hex. assert (is_Some (auth_GetAccount (ek_chain s) a)) as Ha.
  { rewrite GetAccount_alt in Hex. by apply fmap_is_Some in Hex. }
  apply DeleteAccount_spec in Hd as (H1 & H2 & H3 & H4 & H5 & H6); [|done].
  split; [by rewrite GetAccount_alt, H1|]. split; [by rewrite GetBalance_bank, H3, decide_True|].
  split; [by unfold storage_pairs; rewrite H5|]. split; [intros k; unfold GetState; by rewrite H5, lookup_empty|].
  split; [by rewrite H4, decide_True, GetBalance_bank|]. split; [|intros h; unfold GetCode; by rewrite H6].
  intros a' Ha'. destruct (H2 a' Ha') as [Hg Hsl].
  destruct (same_account_ext s s' a' Hg) as (G & S & _); [|done|by split].
  rewrite H3, decide_False; [done|naive_solver].
Qed.

(** ** The supply over a commit *)

(** [c'] differs from [c] in bank only at [a], and the supply follows. *)
Definition bank_moves (a : Address) (s s' : evm_store) : Prop :=
  (∀ a' d, (a', d) ≠ (a, EvmDenom) → bank_GetBalance (ek_chain s') a' d = bank_GetBalance (ek_chain s) a' d) ∧
  (∀ d, bank_GetSupply (ek_chain s') d = bank_GetSupply (ek_chain s) d +
     if decide (d = EvmDenom) then GetBalance a s' - GetBalance a s else 0).

Lemma commit_storage_chain o keys s : ek_chain (commit_storage o keys s) = ek_chain s.
Proof.
  revert s. induction keys as [|k keys IH]; intros s; [done|]. cbn [commit_storage]. rewrite IH.
  by case_decide.
Qed.

Lemma bank_moves_refl a s s' : ek_chain s' = ek_chain s → bank_moves a s s'.
Proof.
  intros Hc. split; [by rewrite Hc|]. intros d. rewrite !GetBalance_bank, Hc. case_decide; lia.
Qed.

Lemma SetAccount_no_balance a acct s s' : acc_Balance acct = None → SetAccount a acct s ≠ Ok s'.
Proof.
  unfold SetAccount. intros ->. destruct (match auth_GetAccount _ a with Some _ => _ | None => _ end) as [x c].
  by destruct (of_chain _).
Qed.

Lemma commit_object_bank o s s' : commit_object o s = Ok s' → bank_moves (so_address o) s s'.
Proof.
  unfold commit_object. set (a := so_address o). destruct (so_suicided o).
  - simpl. intros Hd. destruct (auth_GetAccount (ek_chain s) a) as [x|] eqn:Hx.
    + apply DeleteAccount_spec in Hd as (_ & _ & H3 & H4 & _); [|by rewrite Hx]. split.
      * intros a' d Hne. rewrite H3, decide_False; [done|naive_solver].
      * intros d. assert (GetBalance a s' = 0) as -> by (by rewrite GetBalance_bank, H3, decide_True).
        rewrite GetBalance_bank, H4. case_decide; lia.
    + unfold DeleteAccount in Hd. rewrite Hx in Hd. injection Hd as <-. by apply bank_moves_refl.
  - set (s1 := match so_code o with Some _ => _ | None => _ end).
    assert (ek_chain s1 = ek_chain s) as Hs1 by (unfold s1; by destruct (so_code o), (so_dirtyCode o)).
    intros Hc. apply bind_Ok_inv in Hc as (s2 & H2 & Hc). simpl in H2. injection Hc as <-.
    destruct (acc_Balance (so_account o)) as [b|] eqn:Hb.
    2: { by apply SetAccount_no_balance in H2. }
    destruct (SetAccount_spec _ _ b _ _ H2 Hb) as (_ & _ & Hbal & Hsup & _). rewrite Hs1 in Hbal, Hsup.
    unfold bank_moves. rewrite commit_storage_chain. split.
    + intros a' d Hne. rewrite Hbal, decide_False; [done|]. unfold a in *. naive_solver.
    + intros d. rewrite !GetBalance_bank, commit_storage_chain, Hsup.
      assert (bank_GetBalance (ek_chain s2) a EvmDenom = b) as -> by (by rewrite Hbal, decide_True). done.
Qed.

Definition total_moved (s s' : evm_store) (l : list Address) : Z :=
  foldr (λ a n, GetBalance a s' - GetBalance a s + n) 0 l.

Lemma total_moved_ext s s1 s' s1' l :
  (∀ a, a ∈ l → GetBalance a s = GetBalance a s1) → (∀ a, a ∈ l → GetBalance a s' = GetBalance a s1') →
  total_moved s s' l = total_moved s1 s1' l.
Proof.
  induction l as [|a l IH]; intros H1 H2; [done|]. simpl.
  rewrite IH, (H1 a), (H2 a) by (by left || intros; (apply H1 || apply H2); by right). done.
Qed.

Lemma commit_objects_bank db l s s' :
  (∀ a o, sdb_stateObjects db !! a = Some o → so_address o = a) → NoDup l →
  commit_objects db l s = Ok s' →
  (∀ a d, (a ∉ l) ∨ d ≠ EvmDenom → bank_GetBalance (ek_chain s') a d = bank_GetBalance (ek_chain s) a d) ∧
  (∀ d, bank_GetSupply (ek_chain s') d =
     bank_GetSupply (ek_chain s) d + if decide (d = EvmDenom) then total_moved s s' l else 0).
Proof.
  intros Haddr. revert s. induction l as [|a l IH]; intros s Hnd Hc; cbn [commit_objects] in Hc.
  { injection Hc as <-. split; [done|]. intros d. simpl. case_decide; lia. }
  apply NoDup_cons in Hnd as [Hni Hnd]. destruct (sdb_stateObjects db !! a) as [o|] eqn:Ho; [|done].
  apply bind_Ok_inv in Hc as (s1 & H1 & H2). apply commit_object_bank in H1 as [Hb1 Hs1].
  rewrite (Haddr a o Ho) in Hb1, Hs1. destruct (IH s1 Hnd H2) as [Hb2 Hs2]. split.
  - intros a' d Hor. rewrite Hb2, Hb1; [done| |]; rewrite elem_of_cons in Hor; naive_solver.
  - intros d. rewrite Hs2, Hs1. case_decide; [|lia]. simpl.
    assert (GetBalance a s' = GetBalance a s1) as -> by (rewrite !GetBalance_bank; apply Hb2; by left).
    rewrite (total_moved_ext s s1 s' s' l); [lia| |done].
    intros a' Ha'. rewrite !GetBalance_bank. symmetry. apply Hb1. intros Heq. injection Heq as ->. done.
Qed.

(** A commit of the state database through the EVM keeper changes the supply of
    the EVM denomination by exactly the sum of the balance changes of the dirty
    accounts; no other balance and no other denomination changes. *)
Theorem commit_supply_follows_balances keccak ctx txConfig l s c' :
  run_all keccak ctx l (New txConfig) = Ok s → Commit ctx s = Ok c' →
  bank_GetSupply (ek_chain c') EvmDenom - bank_GetSupply (ek_chain ctx) EvmDenom =
    total_moved ctx c' (sortedDirties (sdb_journal s)) ∧
  (∀ d, d ≠ EvmDenom → bank_GetSupply (ek_chain c') d = bank_GetSupply (ek_chain ctx) d) ∧
  (∀ a d, (a ∉ sortedDirties (sdb_journal s)) ∨ d ≠ EvmDenom →
     bank_GetBalance (ek_chain c') a d = bank_GetBalance (ek_chain ctx) a d).
Proof.
  intros (sp & Href)%reached_refines Hc. pose proof (ref_wf _ _ _ _ _ Href) as Hwf.
  apply commit_objects_bank in Hc as [Hb Hs]; [|by intros; eapply Hwf|apply NoDup_sorted_keys].
  split; [rewrite Hs, decide_True by done; lia|]. split; [|done].
  intros d Hd. rewrite Hs, decide_False by done. lia.
Qed.
End Spec.

(** ** Witnesses *)

Module EvmToy.
Import MapCoins MapBank.

(** Accounts by address, with a code hash for Ethereum accounts; the module's account
    is at address 1. *)
Record toy_chain := mkToyChain {
  tc_module_sequence : Z;
  tc_accounts : gmap Address (option Hash * Z);
  tc_bank : bank
}.

Definition toy_account (a : Address) (x : option Hash * Z) : AccountI (Address * Z) (Address * Z) :=
  match x.1 with Some h => EthAccount (a, x.2) h | None => OtherAccount (a, x.2) end.

Definition toy_get (c : toy_chain) (a : Address) : option (AccountI (Address * Z) (Address * Z)) :=
  if decide (a = 1) then Some (OtherAccount (1, tc_module_sequence c)) else toy_account a <$> tc_accounts c !! a.

Definition toy_set (c : toy_chain) (x : AccountI (Address * Z) (Address * Z)) : toy_chain :=
  match x with
  | EthAccount (a, n) h => mkToyChain (tc_module_sequence c) (<[a := (Some h, n)]> (tc_accounts c)) (tc_bank c)
  | OtherAccount (a, n) =>
      if decide (a = 1) then mkToyChain n (tc_accounts c) (tc_bank c)
      else mkToyChain (tc_module_sequence c) (<[a := (None, n)]> (tc_accounts c)) (tc_bank c)
  end.

Definition toy_remove (c : toy_chain) (x : AccountI (Address * Z) (Address * Z)) : toy_chain :=
  let a := match x with EthAccount b _ => b.1 | OtherAccount o => o.1 end in
  mkToyChain (tc_module_sequence c) (delete a (tc_accounts c)) (tc_bank c).

Definition with_bank (c : toy_chain) (x : outcome () bank) : outcome () toy_chain :=
  mkToyChain (tc_module_sequence c) (tc_accounts c) <$> x.

#[export] Instance toy_evm : EvmEnv := {
  chain := toy_chain;
  base := Address * Z;
  other := Address * Z;
  chain_error := ();
  base_address := fst;
  base_GetSequence := snd;
  base_SetSequence b n := Ok (b.1, n);
  other_address := fst;
  other_GetSequence := snd;
  other_SetSequence o n := Ok (o.1, n);
  EvmDenom := "aego"%string;
  EmptyCodeHash := 99;
  evm_address := 1;
  auth_GetAccount := toy_get;
  auth_SetAccount := toy_set;
  auth_NewAccountWithAddress c a := (EthAccount (a, 0) 99, c);
  auth_RemoveAccount := toy_remove;
  bank_GetBalance c a d := AmountOf (holds (tc_bank c) a) d;
  bank_GetSupply c d := AmountOf (bank_supply (tc_bank c)) d;
  bank_MintCoins c cs := with_bank c (bank_mint (tc_bank c) 1 cs);
  bank_BurnCoins c cs := with_bank c (bank_burn (tc_bank c) 1 cs);
  bank_SendCoinsFromModuleToAccount c a cs := with_bank c (bank_send (tc_bank c) 1 a cs);
  bank_SendCoinsFromAccountToModule c a cs := with_bank c (bank_send (tc_bank c) a 1 cs)
}.

Lemma with_bank_inv c x c' :
  with_bank c x = Ok c' → ∃ b, x = Ok b ∧ tc_bank c' = b ∧ same_accounts c c'.
Proof. destruct x as [b| |]; simpl; intros; simplify_eq. by exists b. Qed.

(** What the operations of [MapBank] do to a chain. *)
Lemma toy_sent c from to cs c' :
  with_bank c (bank_send (tc_bank c) from to cs) = Ok c' → transferred from to cs c c' ∧ same_accounts c c'.
Proof.
  intros (b & Hb & Hc & Ha)%with_bank_inv. split; [|done].
  apply bank_send_inv in Hb as [Hs Hbal]. split; intros; simpl; rewrite Hc; [by rewrite Hbal|by rewrite Hs].
Qed.

Lemma toy_minted c a cs c' :
  with_bank c (bank_mint (tc_bank c) a cs) = Ok c' → credited a cs 1 c c' ∧ same_accounts c c'.
Proof.
  intros (b & Hb & Hc & Ha)%with_bank_inv. split; [|done]. apply bank_mint_inv in Hb as [Hs Hbal]. split.
  - intros a' d. specialize (Hbal a' d). cbn -[Z.mul] in *. rewrite Hc. case_decide; lia.
  - intros d. specialize (Hs d). cbn -[Z.mul] in *. rewrite Hc. lia.
Qed.

Lemma toy_burned c a cs c' :
  with_bank c (bank_burn (tc_bank c) a cs) = Ok c' → credited a cs (-1) c c' ∧ same_accounts c c'.
Proof.
  intros (b & Hb & Hc & Ha)%with_bank_inv. split; [|done]. apply bank_burn_inv in Hb as [Hs Hbal]. split.
  - intros a' d. specialize (Hbal a' d). cbn -[Z.mul] in *. rewrite Hc. case_decide; lia.
  - intros d. specialize (Hs d). cbn -[Z.mul] in *. rewrite Hc. lia.
Qed.

#[export] Instance toy_evm_laws : EvmEnvLaws.
Proof.
  split.
  - done.
  - intros c a x. simpl. unfold toy_get. case_decide; [by intros [= <-]|].
    destruct (tc_accounts c !! a) as [[[h|] n]|]; simpl; intros; by simplify_eq.
  - intros c. by eexists.
  - intros c x a Hx. unfold storable in Hx. simpl in *. unfold toy_get. destruct x as [[b n] h|[o n]]; simpl in *.
    + destruct (decide (a = 1)) as [->|Ha].
      * rewrite decide_False; [done|]. intros <-. by destruct Hx as [? ?].
      * rewrite lookup_insert. repeat case_decide; subst; try done; congruence.
    + destruct (decide (o = 1)) as [->|Ho]; simpl; [repeat case_decide; congruence|].
      rewrite lookup_insert. repeat case_decide; subst; try done; congruence.
  - intros c x. split; intros; simpl; unfold toy_set; destruct x as [[]|[]]; try case_decide; done.
  - intros c a x c' [= <- <-]. split; [by eexists|]. split; [done|]. by split.
  - intros c x a Hx. simpl in *. unfold toy_get, toy_remove. simpl. rewrite lookup_delete.
    destruct x as [[b n] h|[o n]]; simpl in *; repeat case_decide; subst; done || congruence.
  - intros c x. by split.
  - by intros b n b' [= <-].
  - by intros o n o' [= <-].
  - intros c a d. apply valid_nonneg, holds_valid.
  - intros c cs c'. apply toy_minted.
  - intros c cs c'. apply toy_burned.
  - intros c a cs c' _. apply toy_sent.
  - intros c a cs c'. apply toy_sent.
Qed.

(** An account with 100, a nonce and a slot. *)
Definition toy_evm_store : evm_store :=
  mkEvmStore (mkToyChain 0 {[ 7 := (Some 99, 3) ]} (mkBank {[ "aego"%string := 100 ]} {[ 7 := {[ "aego"%string := 100 ]} ]}))
    {[ 7 := {[ 1 := Hash_Bytes 5 ]} ]} ∅.

Lemma evm_account_roundtrip_witness :
  ∃ s', SetAccount 7 (mkAccount 4 (Some 150) (Some 99)) toy_evm_store = Ok s' ∧
    bank_GetSupply (ek_chain s') EvmDenom - bank_GetSupply (ek_chain toy_evm_store) EvmDenom = 150 - 100.
Proof.
  eexists. split; [reflexivity|].
  edestruct (evm_account_roundtrip 7 4 150 99 toy_evm_store) as (_ & _ & _ & Hsup & _); [reflexivity|].
  etransitivity; [exact Hsup|]. vm_compute. reflexivity.
Defined.

Lemma evm_delete_clears_witness :
  ∃ s', DeleteAccount 7 toy_evm_store = Ok s' ∧ GetAccount 7 s' = None ∧ GetState 7 1 s' = 0.
Proof.
  eexists. split; [reflexivity|].
  edestruct (evm_delete_clears 7 toy_evm_store) as (Hg & _ & _ & Hst & _); [reflexivity|by eexists|].
  split; [exact Hg|exact (Hst 1)].
Defined.

(** The database after moving 30 from account 7 to a new account. *)
Definition moved_db : outcome Empty_set StateDB :=
  run_all toy_keccak toy_evm_store [CAddBalance 8 30; CSubBalance 7 30] (New toy_config).

Lemma commit_supply_follows_balances_witness :
  match moved_db with
  | Ok s =>
      match Commit toy_evm_store s with
      | Ok c' => bank_GetSupply (ek_chain c') EvmDenom - bank_GetSupply (ek_chain toy_evm_store) EvmDenom =
                 total_moved toy_evm_store c' (sortedDirties (sdb_journal s))
      | _ => False
      end
  | _ => False
  end.
Proof.
  assert (match moved_db with Ok s => is_Ok (Commit toy_evm_store s) | _ => false end = true) as Hok
    by (vm_compute; reflexivity).
  destruct moved_db as [s| |] eqn:Hs; [|discriminate Hok|discriminate Hok].
  destruct (Commit toy_evm_store s) as [c'| |] eqn:Hc; [|discriminate Hok|discriminate Hok].
  exact (proj1 (commit_supply_follows_balances toy_keccak toy_evm_store toy_config
                  [CAddBalance 8 30; CSubBalance 7 30] s c' Hs Hc)).
Defined.
End EvmToy.
