(* ===== verification/EvmTx.v ===== *)
(** * Ethereum transactions: [x/evm/types]

    The three transaction types of [legacy_tx.go], [access_list_tx.go] and
    [dynamic_fee_tx.go] behind the interface [TxData] of [tx_data.go], their
    conversion from and to go-ethereum's transactions, their stateless validation,
    their fees, and the gas search of [utils.go].  A [*big.Int] or [*sdkmath.Int]
    that may be nil is an option; reading through nil panics.  Slices are lists, and
    the nil slice is the empty one: no operation of these files tells them apart.
    Hex strings, transaction hashes and intrinsic gas come from go-ethereum: [Geth]. *)

From S2P Require Import Prelude.

(** ** go-ethereum *)

Abbreviation Address := Z (only parsing).
Abbreviation Hash := Z (only parsing).

Definition in_address (a : Z) : Prop := 0 <= a < 2 ^ 160.
(** Addresses of accounts have up to 255 bytes.  One of twenty bytes is the number below
    [2 ^ 160] that the bytes are; one of another length is a larger number, whose low bits
    are the address that [common.BytesToAddress] makes of its bytes. *)
Definition EthAddress (a : Address) : Address := a mod 2 ^ 160.

Lemma EthAddress_small a : in_address a → EthAddress a = a.
Proof. intros Ha. by apply Z.mod_small. Qed.

Definition in_hash (h : Z) : Prop := 0 <= h < 2 ^ 256.

(** An [ethtypes.AccessTuple]: an address and its storage keys. *)
Definition eth_access_list : Type := list (Address * list Hash).

(** The fields of go-ethereum's [LegacyTx], [AccessListTx] and [DynamicFeeTx]. *)
Record eth_common := mkEthCommon {
  eth_Nonce : Z;
  eth_Gas : Z;
  eth_To : option Address;
  eth_Value : option Z;
  eth_Data : list byte;
  eth_V : option Z;
  eth_R : option Z;
  eth_S : option Z
}.

Inductive eth_tx :=
| EthLegacyTx (c : eth_common) (GasPrice : option Z)
| EthAccessListTx (c : eth_common) (ChainID : option Z) (GasPrice : option Z) (al : eth_access_list)
| EthDynamicFeeTx (c : eth_common) (ChainID : option Z) (GasTipCap GasFeeCap : option Z)
    (al : eth_access_list).

(** [ethtypes.NewTx] copies its argument into fields that start at zero, so a
    signature value that is nil reads as zero; [nil_sig] takes zero to nil. *)
Definition nil_sig (v : option Z) : option Z :=
  match v with Some 0 => None | _ => v end.

Definition nil_sigs (c : eth_common) : eth_common :=
  mkEthCommon (eth_Nonce c) (eth_Gas c) (eth_To c) (eth_Value c) (eth_Data c)
    (nil_sig (eth_V c)) (nil_sig (eth_R c)) (nil_sig (eth_S c)).

Definition normal_tx (tx : eth_tx) : eth_tx :=
  match tx with
  | EthLegacyTx c p => EthLegacyTx (nil_sigs c) p
  | EthAccessListTx c id p al => EthAccessListTx (nil_sigs c) id p al
  | EthDynamicFeeTx c id tip cap al => EthDynamicFeeTx (nil_sigs c) id tip cap al
  end.

Class Geth := {
  HexToAddress : string → Address;
  Address_Hex : Address → string;
  IsHexAddress : string → bool;
  HexToHash : string → Hash;
  Hash_Hex : Hash → string;
  tx_Hash : eth_tx → Hash;
  (** data, access list, contract creation, homestead, istanbul; [None] on overflow *)
  IntrinsicGas : list byte → eth_access_list → bool → bool → bool → option Z
}.

(** Printing an address or a hash in hex and reading it back; the hash of a
    transaction does not tell nil signature values from zero; [core.IntrinsicGas]
    returns a [uint64]. *)
Class GethLaws `{Geth} : Prop := {
  HexToAddress_Hex a : in_address a → HexToAddress (Address_Hex a) = a;
  Address_Hex_nonempty a : Address_Hex a ≠ EmptyString;
  IsHexAddress_Hex a : in_address a → IsHexAddress (Address_Hex a) = true;
  HexToHash_Hex h : in_hash h → HexToHash (Hash_Hex h) = h;
  tx_Hash_normal tx : tx_Hash (normal_tx tx) = tx_Hash tx;
  IntrinsicGas_u64 d al c hs ist g : IntrinsicGas d al c hs ist = Some g → in_u64 g
}.

(** ** Integers: [types/int.go] *)

Definition maxBitLen : Z := 256.

(** [i.BitLen() <= maxBitLen]: the bit length is that of the absolute value. *)
Definition IsValidInt256 (i : option Z) : bool :=
  match i with None => true | Some i => Z.abs i <? 2 ^ maxBitLen end.

Inductive tx_error :=
| ErrBigIntOutOfBound
| ErrInvalidGasPrice
| ErrInvalidGasCap
| ErrInvalidGasFee
| ErrInvalidAmount
| ErrInvalidAddress
| ErrInvalidChainID
| ErrInvalidGasLimit
| ErrTxGasOverflow
| ErrInvalidRequest
| ErrOutOfGas
| ErrIntrinsicOverflow
| ErrInsufficientFee
| ErrInvalidCoins
| ErrInsufficientFunds.

Abbreviation tx_result A := (outcome tx_error A).

Definition SafeNewIntFromBigInt (i : Z) : outcome tx_error Z :=
  if IsValidInt256 (Some i) then Ok i else Err ErrBigIntOutOfBound.

(** [sdkmath.NewIntFromBigInt] panics above 256 bits. *)
Definition NewIntFromBigInt {E} (i : Z) : outcome E Z :=
  if IsValidInt256 (Some i) then Ok i else Panic.

(** [big.Int.Bytes]: the absolute value, big-endian, without leading zeros. *)
Definition byte_length (z : Z) : nat :=
  if decide (z = 0) then 0%nat else S (Z.to_nat (Z.log2 (Z.abs z) / 8)).
Definition big_Bytes (z : Z) : list byte := be_bytes (byte_length z) (Z.abs z).

Lemma SetBytes_big_Bytes z : SetBytes (big_Bytes z) = Z.abs z.
Proof.
  unfold big_Bytes, byte_length. rewrite SetBytes_be_bytes. case_decide as Hz; [by subst|].
  apply Z.mod_small. split; [lia|].
  pose proof (Z.log2_spec (Z.abs z) ltac:(lia)) as [_ Hlt].
  eapply Z.lt_le_trans; [exact Hlt|].
  change 256 with (2 ^ 8). rewrite <-Z.pow_mul_r by lia. apply Z.pow_le_mono_r; [lia|].
  pose proof (Z.log2_nonneg (Z.abs z)).
  rewrite Nat2Z.inj_succ, Z2Nat.id by (apply Z.div_pos; lia).
  pose proof (Z.div_mod (Z.log2 (Z.abs z)) 8 ltac:(lia)).
  pose proof (Z.mod_pos_bound (Z.log2 (Z.abs z)) 8). lia.
Qed.

Lemma big_Bytes_nil z : big_Bytes z = [] ↔ z = 0.
Proof.
  unfold big_Bytes, byte_length. case_decide as Hz; [naive_solver|].
  split; [|done]. intros Hn%(f_equal length). rewrite length_be_bytes in Hn. done.
Qed.

(** ** Access lists: [access_list.go] *)

Record AccessTuple := mkAccessTuple { at_Address : string; at_StorageKeys : list string }.

(** ** Transactions: [tx.pb.go] *)

(** The fields the three transaction types share. *)
Record tx_common := mkTxCommon {
  tx_Nonce : Z;
  tx_GasLimit : Z;
  tx_To : string;
  tx_Amount : option Z;
  tx_Data : list byte;
  tx_V : list byte;
  tx_R : list byte;
  tx_S : list byte
}.

Inductive TxData :=
| LegacyTx (c : tx_common) (GasPrice : option Z)
| AccessListTx (c : tx_common) (ChainID : option Z) (GasPrice : option Z) (Accesses : list AccessTuple)
| DynamicFeeTx (c : tx_common) (ChainID : option Z) (GasTipCap GasFeeCap : option Z)
    (Accesses : list AccessTuple).

Section EvmTx.
Context `{GE : Geth}.

Definition NewAccessList (al : eth_access_list) : list AccessTuple :=
  map (λ '(a, keys), mkAccessTuple (Address_Hex a) (map Hash_Hex keys)) al.

Definition ToEthAccessList (al : list AccessTuple) : eth_access_list :=
  map (λ t, (HexToAddress (at_Address t), map HexToHash (at_StorageKeys t))) al.

(** ** Getters *)

Definition common_of (tx : TxData) : tx_common :=
  match tx with LegacyTx c _ | AccessListTx c _ _ _ | DynamicFeeTx c _ _ _ _ => c end.

Definition TxType (tx : TxData) : Z :=
  match tx with LegacyTx _ _ => 0 | AccessListTx _ _ _ _ => 1 | DynamicFeeTx _ _ _ _ _ => 2 end.

Definition GetNonce (tx : TxData) : Z := tx_Nonce (common_of tx).
Definition GetGas (tx : TxData) : Z := tx_GasLimit (common_of tx).
Definition GetData (tx : TxData) : list byte := tx_Data (common_of tx).
Definition GetValue (tx : TxData) : option Z := tx_Amount (common_of tx).

Definition GetTo (tx : TxData) : option Address :=
  if decide (tx_To (common_of tx) = EmptyString) then None
  else Some (HexToAddress (tx_To (common_of tx))).

Definition GetAccessList (tx : TxData) : eth_access_list :=
  match tx with
  | LegacyTx _ _ => []
  | AccessListTx _ _ _ al | DynamicFeeTx _ _ _ _ al => ToEthAccessList al
  end.

Definition sig_value (bz : list byte) : option Z :=
  if decide (0 < length bz)%nat then Some (SetBytes bz) else None.

Definition rawSignatureValues (v r s : list byte) : option Z * option Z * option Z :=
  (sig_value v, sig_value r, sig_value s).

Definition GetRawSignatureValues (tx : TxData) : option Z * option Z * option Z :=
  let c := common_of tx in rawSignatureValues (tx_V c) (tx_R c) (tx_S c).

Definition DeriveChainID (v : option Z) : option Z :=
  match v with
  | None => None
  | Some v =>
      if v <? 1 then None
      else if v <? 2 ^ 64 then
        if (v =? 27) || (v =? 28) then Some 0
        else if v <? 35 then None
        else Some (u64 (v - 35) / 2)
      else Some ((v - 35) / 2)
  end.

Definition GetChainID (tx : TxData) : option Z :=
  match tx with
  | LegacyTx _ _ => DeriveChainID (GetRawSignatureValues tx).1.1
  | AccessListTx _ id _ _ | DynamicFeeTx _ id _ _ _ => id
  end.

Definition GetGasTipCap (tx : TxData) : option Z :=
  match tx with
  | LegacyTx _ p | AccessListTx _ _ p _ => p
  | DynamicFeeTx _ _ tip _ _ => tip
  end.

Definition GetGasFeeCap (tx : TxData) : option Z :=
  match tx with
  | LegacyTx _ p | AccessListTx _ _ p _ => p
  | DynamicFeeTx _ _ _ cap _ => cap
  end.

Definition GetGasPrice (tx : TxData) : option Z :=
  match tx with
  | LegacyTx _ p | AccessListTx _ _ p _ => p
  | DynamicFeeTx _ _ _ _ _ => GetGasFeeCap tx
  end.

(** ** Conversion from and to go-ethereum *)

Definition set_sig (old : list byte) (v : option Z) : list byte :=
  match v with Some v => big_Bytes v | None => old end.

Definition set_sigs (v r s : option Z) (c : tx_common) : tx_common :=
  mkTxCommon (tx_Nonce c) (tx_GasLimit c) (tx_To c) (tx_Amount c) (tx_Data c)
    (set_sig (tx_V c) v) (set_sig (tx_R c) r) (set_sig (tx_S c) s).

Definition set_chain_id_field (chainID id : option Z) : outcome tx_error (option Z) :=
  match chainID with None => Ok id | Some n => Some <$> NewIntFromBigInt n end.

Definition LegacyTx_SetSignatureValues (v r s : option Z) (c : tx_common) (p : option Z) : outcome tx_error TxData :=
  Ok (LegacyTx (set_sigs v r s c) p).

Definition AccessListTx_SetSignatureValues (chainID v r s : option Z) (c : tx_common) (id p : option Z)
    (al : list AccessTuple) : outcome tx_error TxData :=
  id ← set_chain_id_field chainID id; Ok (AccessListTx (set_sigs v r s c) id p al).

Definition DynamicFeeTx_SetSignatureValues (chainID v r s : option Z) (c : tx_common) (id tip cap : option Z)
    (al : list AccessTuple) : outcome tx_error TxData :=
  id ← set_chain_id_field chainID id; Ok (DynamicFeeTx (set_sigs v r s c) id tip cap al).

Definition SetSignatureValues (chainID v r s : option Z) (tx : TxData) : outcome tx_error TxData :=
  match tx with
  | LegacyTx c p => LegacyTx_SetSignatureValues v r s c p
  | AccessListTx c id p al => AccessListTx_SetSignatureValues chainID v r s c id p al
  | DynamicFeeTx c id tip cap al => DynamicFeeTx_SetSignatureValues chainID v r s c id tip cap al
  end.

(** [if x != nil { i, err := SafeNewIntFromBigInt(x); ...; field = &i }]. *)
Definition safe_field (x : option Z) : outcome tx_error (option Z) :=
  match x with None => Ok None | Some x => Some <$> SafeNewIntFromBigInt x end.

(** The fields every constructor sets first; the amount is converted before the prices. *)
Definition new_common (tx : eth_common) : outcome tx_error tx_common :=
  amount ← safe_field (eth_Value tx);
  Ok (mkTxCommon (eth_Nonce tx) (eth_Gas tx)
        (match eth_To tx with Some to => Address_Hex to | None => EmptyString end)
        amount (eth_Data tx) [] [] []).

Definition NewLegacyTx (tx : eth_common) (gasPrice : option Z) : outcome tx_error TxData :=
  c ← new_common tx;
  p ← safe_field gasPrice;
  SetSignatureValues None (eth_V tx) (eth_R tx) (eth_S tx) (LegacyTx c p).

Definition newAccessListTx (tx : eth_common) (chainID gasPrice : option Z) (al : eth_access_list) :
    outcome tx_error TxData :=
  c ← new_common tx;
  p ← safe_field gasPrice;
  SetSignatureValues chainID (eth_V tx) (eth_R tx) (eth_S tx) (AccessListTx c None p (NewAccessList al)).

Definition NewDynamicFeeTx (tx : eth_common) (chainID tipCap feeCap : option Z) (al : eth_access_list) :
    outcome tx_error TxData :=
  c ← new_common tx;
  cap ← safe_field feeCap;
  tip ← safe_field tipCap;
  SetSignatureValues chainID (eth_V tx) (eth_R tx) (eth_S tx)
    (DynamicFeeTx c None tip cap (NewAccessList al)).

Definition NewTxDataFromTx (tx : eth_tx) : outcome tx_error TxData :=
  match tx with
  | EthDynamicFeeTx c id tip cap al => NewDynamicFeeTx c id tip cap al
  | EthAccessListTx c id p al => newAccessListTx c id p al
  | EthLegacyTx c p => NewLegacyTx c p
  end.

Definition eth_common_of (tx : TxData) : eth_common :=
  let '(v, r, s) := GetRawSignatureValues tx in
  mkEthCommon (GetNonce tx) (GetGas tx) (GetTo tx) (GetValue tx) (GetData tx) v r s.

Definition LegacyTx_AsEthereumData (c : tx_common) (gasPrice : option Z) : eth_tx :=
  let tx := LegacyTx c gasPrice in EthLegacyTx (eth_common_of tx) (GetGasPrice tx).

Definition AccessListTx_AsEthereumData (c : tx_common) (id gasPrice : option Z) (al : list AccessTuple) : eth_tx :=
  let tx := AccessListTx c id gasPrice al in
  EthAccessListTx (eth_common_of tx) (GetChainID tx) (GetGasPrice tx) (GetAccessList tx).

Definition DynamicFeeTx_AsEthereumData (c : tx_common) (id tipCap feeCap : option Z) (al : list AccessTuple) :
    eth_tx :=
  let tx := DynamicFeeTx c id tipCap feeCap al in
  EthDynamicFeeTx (eth_common_of tx) (GetChainID tx) (GetGasTipCap tx) (GetGasFeeCap tx) (GetAccessList tx).

Definition AsEthereumData (tx : TxData) : eth_tx :=
  match tx with
  | LegacyTx c p => LegacyTx_AsEthereumData c p
  | AccessListTx c id p al => AccessListTx_AsEthereumData c id p al
  | DynamicFeeTx c id tip cap al => DynamicFeeTx_AsEthereumData c id tip cap al
  end.

(** ** Fees *)

(** Arithmetic on a nil [*big.Int] panics. *)
Definition deref {E A} (x : option A) : outcome E A :=
  match x with Some x => Ok x | None => Panic end.

Definition fee (gasPrice : option Z) (gas : Z) : tx_result Z := p ← deref gasPrice; Ok (p * gas).

Definition cost (fee : Z) (value : option Z) : Z :=
  match value with Some v => fee + v | None => fee end.

Definition Fee (tx : TxData) : tx_result Z := fee (GetGasFeeCap tx) (GetGas tx).

Definition Cost (tx : TxData) : tx_result Z := f ← Fee tx; Ok (cost f (GetValue tx)).

(** [EffectiveGasPrice] of [utils.go]. *)
Definition effective_price (baseFee feeCap tipCap : Z) : Z := Z.min (tipCap + baseFee) feeCap.

(** The method: the gas price of a transaction without fee caps may be nil. *)
Definition EffectiveGasPrice (tx : TxData) (baseFee : option Z) : tx_result (option Z) :=
  match tx with
  | LegacyTx _ _ | AccessListTx _ _ _ _ => Ok (GetGasPrice tx)
  | DynamicFeeTx _ _ tip cap _ =>
      cap ← deref cap; tip ← deref tip; b ← deref baseFee;
      Ok (Some (effective_price b cap tip))
  end.

Definition EffectiveFee (tx : TxData) (baseFee : option Z) : tx_result Z :=
  match tx with
  | LegacyTx _ _ | AccessListTx _ _ _ _ => Fee tx
  | DynamicFeeTx _ _ _ _ _ => p ← EffectiveGasPrice tx baseFee; fee p (GetGas tx)
  end.

Definition EffectiveCost (tx : TxData) (baseFee : option Z) : tx_result Z :=
  match tx with
  | LegacyTx _ _ | AccessListTx _ _ _ _ => Cost tx
  | DynamicFeeTx _ _ _ _ _ => f ← EffectiveFee tx baseFee; Ok (cost f (GetValue tx))
  end.

(** ** Validation *)

Definition ensure (b : bool) (e : tx_error) : tx_result () := if b then Ok () else Err e.

Definition non_negative (x : option Z) : bool :=
  match x with Some x => 0 <=? x | None => true end.

(** [ValidateAddress] of [types/validation.go]. *)
Definition ValidateAddress (address : string) : tx_result () :=
  ensure (IsHexAddress address) ErrInvalidAddress.

Definition validate_fee (tx : TxData) : tx_result () :=
  f ← Fee tx; ensure (IsValidInt256 (Some f)) ErrInvalidGasFee.

Definition validate_amount (tx : TxData) : tx_result () :=
  _ ← ensure (non_negative (GetValue tx)) ErrInvalidAmount;
  ensure (IsValidInt256 (GetValue tx)) ErrInvalidAmount.

Definition validate_to (tx : TxData) : tx_result () :=
  if decide (tx_To (common_of tx) = EmptyString) then Ok ()
  else ValidateAddress (tx_To (common_of tx)).

Definition validate_chain_id (tx : TxData) : tx_result () :=
  match GetChainID tx with
  | None => Err ErrInvalidChainID
  | Some id => ensure ((id =? 5438) || (id =? 5439)) ErrInvalidChainID
  end.

Definition LegacyTx_Validate (c : tx_common) (gasPrice : option Z) : tx_result () :=
  let tx := LegacyTx c gasPrice in
  match gasPrice with
  | None => Err ErrInvalidGasPrice
  | Some p =>
      _ ← ensure (0 <=? p) ErrInvalidGasPrice;
      _ ← ensure (IsValidInt256 (Some p)) ErrInvalidGasPrice;
      _ ← validate_fee tx;
      _ ← validate_amount tx;
      _ ← validate_to tx;
      validate_chain_id tx
  end.

Definition AccessListTx_Validate (c : tx_common) (id gasPrice : option Z) (al : list AccessTuple) :
    tx_result () :=
  let tx := AccessListTx c id gasPrice al in
  match gasPrice with
  | None => Err ErrInvalidGasPrice
  | Some p =>
      _ ← ensure (IsValidInt256 (Some p)) ErrInvalidGasPrice;
      _ ← ensure (0 <=? p) ErrInvalidGasPrice;
      _ ← validate_amount tx;
      _ ← validate_fee tx;
      _ ← validate_to tx;
      validate_chain_id tx
  end.

Definition DynamicFeeTx_Validate (c : tx_common) (id tipCap feeCap : option Z) (al : list AccessTuple) :
    tx_result () :=
  let tx := DynamicFeeTx c id tipCap feeCap al in
  match tipCap, feeCap with
  | None, _ => Err ErrInvalidGasCap
  | _, None => Err ErrInvalidGasCap
  | Some tip, Some cap =>
      _ ← ensure (0 <=? tip) ErrInvalidGasCap;
      _ ← ensure (0 <=? cap) ErrInvalidGasCap;
      _ ← ensure (IsValidInt256 (Some tip)) ErrInvalidGasCap;
      _ ← ensure (IsValidInt256 (Some cap)) ErrInvalidGasCap;
      _ ← ensure (tip <=? cap) ErrInvalidGasCap;
      _ ← validate_fee tx;
      _ ← validate_amount tx;
      _ ← validate_to tx;
      validate_chain_id tx
  end.

Definition Validate (tx : TxData) : tx_result () :=
  match tx with
  | LegacyTx c p => LegacyTx_Validate c p
  | AccessListTx c id p al => AccessListTx_Validate c id p al
  | DynamicFeeTx c id tip cap al => DynamicFeeTx_Validate c id tip cap al
  end.

(** ** Messages: [msg.go]

    [msg_Data] is [None] when the [Any] does not unpack to a [TxData]. *)

Record MsgEthereumTx := mkMsgEthereumTx {
  msg_Data : option TxData;
  msg_Size : Z;
  msg_Hash : string;
  msg_From : string
}.

(** [AsTransaction().Hash().Hex()]. *)
Definition tx_hash_hex (tx : TxData) : string := Hash_Hex (tx_Hash (AsEthereumData tx)).

Definition FromEthereumTx (tx : eth_tx) (msg : MsgEthereumTx) : tx_result MsgEthereumTx :=
  txData ← NewTxDataFromTx tx;
  Ok (mkMsgEthereumTx (Some txData) (msg_Size msg) (Hash_Hex (tx_Hash tx)) (msg_From msg)).

Definition ValidateBasic (msg : MsgEthereumTx) : tx_result () :=
  _ ← (if decide (msg_From msg = EmptyString) then Ok () else ValidateAddress (msg_From msg));
  _ ← ensure (msg_Size msg =? 0) ErrInvalidRequest;
  match msg_Data msg with
  | None => Err ErrInvalidRequest
  | Some txData =>
      let gas := GetGas txData in
      _ ← ensure (negb (gas =? 0)) ErrInvalidGasLimit;
      _ ← ensure (gas <=? MaxInt64) ErrTxGasOverflow;
      _ ← Validate txData;
      ensure (bool_decide (msg_Hash msg = tx_hash_hex txData)) ErrInvalidRequest
  end.

(** ** Priority: [tx.go]

    [DefaultPriorityReduction] is a variable of the package, set from the SDK's. *)

Definition GetTxPriority (DefaultPriorityReduction : Z) (tx : TxData) (baseFee : option Z) : tx_result Z :=
  p ← EffectiveGasPrice tx baseFee;
  tipPrice ← deref p;
  let tipPrice := match baseFee with Some b => tipPrice - b | None => tipPrice end in
  let priorityBig := tipPrice ÷ DefaultPriorityReduction in
  Ok (if bool_decide (in_i64 priorityBig) then priorityBig else MaxInt64).

(** ** Fee checks: [keeper/fees.go] *)

Definition CheckSenderBalance (balance : Z) (tx : TxData) : tx_result () :=
  c ← Cost tx;
  if c <? 0 then Err ErrInvalidCoins
  else if (balance <? 0) || (balance <? c) then Err ErrInsufficientFunds
  else Ok ().

(** The fees: no coin, or one coin of the given denomination. *)
Definition VerifyFee (tx : TxData) (denom : string) (baseFee : option Z)
    (homestead istanbul isCheckTx : bool) : tx_result (list (string * Z)) :=
  let isContractCreation := bool_decide (GetTo tx = None) in
  match IntrinsicGas (GetData tx) (GetAccessList tx) isContractCreation homestead istanbul with
  | None => Err ErrIntrinsicOverflow
  | Some intrinsicGas =>
      if isCheckTx && (GetGas tx <? intrinsicGas) then Err ErrOutOfGas
      else
        _ ← match baseFee with
            | None => Ok ()
            | Some b => cap ← deref (GetGasFeeCap tx); ensure (b <=? cap) ErrInsufficientFee
            end;
        feeAmt ← EffectiveFee tx baseFee;
        if feeAmt =? 0 then Ok [] else amt ← NewIntFromBigInt feeAmt; Ok [(denom, amt)]
  end.

(** ** Gas search: [BinSearch] of [utils.go]

    [executable] gives whether the execution failed.  Each round halves the
    interval, so [bin_fuel] rounds are enough; [None] is a search that is still
    running then. *)

Definition bin_fuel : nat := 64.

Fixpoint BinSearch_loop {E} (fuel : nat) (executable : Z → outcome E bool) (lo hi : Z) :
    option (outcome E Z) :=
  if u64 (lo + 1) <? hi then
    match fuel with
    | O => None
    | S fuel =>
        let mid := u64 (hi + lo) / 2 in
        match executable mid with
        | Err e => Some (Err e)
        | Panic => Some Panic
        | Ok true => BinSearch_loop fuel executable mid hi
        | Ok false => BinSearch_loop fuel executable lo mid
        end
    end
  else Some (Ok hi).

Definition BinSearch {E} (lo hi : Z) (executable : Z → outcome E bool) : option (outcome E Z) :=
  BinSearch_loop bin_fuel executable lo hi.

End EvmTx.
