(* ===== verification/EvmTxSpec.v ===== *)
(** * Ethereum transactions: conversion, fees and gas search

    What the transaction types of [EvmTx] promise: a go-ethereum transaction
    survives the conversion to the stored type and back; a transaction that passes
    the validation and the fee checks can pay what it is charged, at a price
    between the base fee and its own cap; the gas search finds the least gas limit
    that executes. *)

From S2P Require Import Prelude EvmTx.

Section Conversion.
Context `{GL : GethLaws}.

(** Addresses and hashes of the fixed widths, non-negative signature values. *)
Definition sig_ok (v : option Z) : Prop := match v with Some v => 0 <= v | None => True end.

Definition common_ok (c : eth_common) : Prop :=
  match eth_To c with Some to => in_address to | None => True end ∧
  sig_ok (eth_V c) ∧ sig_ok (eth_R c) ∧ sig_ok (eth_S c).

Definition access_ok (al : eth_access_list) : Prop :=
  Forall (λ '(a, keys), in_address a ∧ Forall in_hash keys) al.

Definition eth_ok (tx : eth_tx) : Prop :=
  match tx with
  | EthLegacyTx c _ => common_ok c
  | EthAccessListTx c _ _ al | EthDynamicFeeTx c _ _ _ al => common_ok c ∧ access_ok al
  end.

(** The amounts fit in 256 bits. *)
Definition fits (tx : eth_tx) : bool :=
  match tx with
  | EthLegacyTx c p => IsValidInt256 (eth_Value c) && IsValidInt256 p
  | EthAccessListTx c _ p _ => IsValidInt256 (eth_Value c) && IsValidInt256 p
  | EthDynamicFeeTx c _ tip cap _ =>
      IsValidInt256 (eth_Value c) && (IsValidInt256 cap && IsValidInt256 tip)
  end.

Definition chain_id_fits (tx : eth_tx) : bool :=
  match tx with
  | EthLegacyTx _ _ => true
  | EthAccessListTx _ id _ _ | EthDynamicFeeTx _ id _ _ _ => IsValidInt256 id
  end.

Lemma access_list_roundtrip al : access_ok al → ToEthAccessList (NewAccessList al) = al.
Proof.
  unfold ToEthAccessList, NewAccessList. induction 1 as [|[a keys] al [Ha Hk] Hal IH]; [done|].
  simpl. rewrite IH, HexToAddress_Hex by done. do 2 f_equal.
  clear -Hk GL. induction Hk as [|k keys Hk1 Hk IH]; [done|]. simpl. by rewrite IH, HexToHash_Hex.
Qed.

Lemma sig_roundtrip v : sig_ok v → sig_value (set_sig [] v) = nil_sig v.
Proof.
  destruct v as [v|]; [|done]. cbn [sig_ok set_sig nil_sig]. intros Hv. unfold sig_value.
  destruct (decide (v = 0)) as [->|Hv0]; [done|].
  rewrite decide_True.
  - rewrite SetBytes_big_Bytes, Z.abs_eq by done. by destruct v.
  - pose proof (big_Bytes_nil v). destruct (big_Bytes v) eqn:Hb; [naive_solver|simpl; lia].
Qed.

Lemma safe_field_spec x :
  safe_field x = if IsValidInt256 x then Ok x else Err ErrBigIntOutOfBound.
Proof.
  destruct x as [x|]; [|done]. cbn [safe_field]. unfold SafeNewIntFromBigInt.
  by destruct (IsValidInt256 (Some x)).
Qed.

Lemma to_roundtrip to :
  match to with Some to => in_address to | None => True end →
  let s := match to with Some to => Address_Hex to | None => EmptyString end in
  (if decide (s = EmptyString) then None else Some (HexToAddress s)) = to.
Proof.
  intros Hto. destruct to as [to|]; [|done]. cbv zeta.
  rewrite decide_False by apply Address_Hex_nonempty. by rewrite HexToAddress_Hex.
Qed.

(** What the constructors store for the common fields reads back as they were. *)
Lemma new_common_roundtrip c amount (tx : TxData) :
  common_ok c → amount = eth_Value c →
  common_of tx =
    mkTxCommon (eth_Nonce c) (eth_Gas c)
      (match eth_To c with Some to => Address_Hex to | None => EmptyString end) amount (eth_Data c)
      (set_sig [] (eth_V c)) (set_sig [] (eth_R c)) (set_sig [] (eth_S c)) →
  eth_common_of tx = nil_sigs c.
Proof.
  intros (Hto & Hv & Hr & Hs) -> Hc.
  unfold eth_common_of, GetRawSignatureValues, rawSignatureValues, GetNonce, GetGas, GetTo, GetValue, GetData.
  rewrite Hc. cbn [tx_Nonce tx_GasLimit tx_To tx_Amount tx_Data tx_V tx_R tx_S].
  rewrite !sig_roundtrip by done. unfold nil_sigs. f_equal.
  by apply to_roundtrip.
Qed.

Lemma set_chain_id (id : option Z) :
  set_chain_id_field id None =
  if IsValidInt256 id then Ok id else Panic.
Proof. destruct id as [id|]; [|done]. cbn [set_chain_id_field]. unfold NewIntFromBigInt. by destruct (IsValidInt256 (Some id)). Qed.

#[local] Arguments IsValidInt256 : simpl never.

Lemma NewTxDataFromTx_cases tx :
  eth_ok tx →
  if fits tx then
    if chain_id_fits tx then ∃ td, NewTxDataFromTx tx = Ok td ∧ AsEthereumData td = normal_tx tx
    else NewTxDataFromTx tx = Panic
  else NewTxDataFromTx tx = Err ErrBigIntOutOfBound.
Proof.
  destruct tx as [c p|c id p al|c id tip cap al]; cbn [eth_ok fits chain_id_fits NewTxDataFromTx];
    unfold NewLegacyTx, newAccessListTx, NewDynamicFeeTx, new_common; rewrite !safe_field_spec.
  - intros Hc. destruct (IsValidInt256 (eth_Value c)); [|done].
    destruct (IsValidInt256 p); [|done]. eexists. split; [reflexivity|].
    cbn [AsEthereumData normal_tx].
    unfold LegacyTx_AsEthereumData, AccessListTx_AsEthereumData, DynamicFeeTx_AsEthereumData.
    f_equal. by eapply new_common_roundtrip.
  - intros [Hc Hal]. destruct (IsValidInt256 (eth_Value c)); [|done].
    destruct (IsValidInt256 p); [|done]. rewrite !Ok_bind. unfold SetSignatureValues, AccessListTx_SetSignatureValues, DynamicFeeTx_SetSignatureValues.
    cbn [andb].
    rewrite set_chain_id. destruct (IsValidInt256 id); [|done]. eexists. split; [reflexivity|].
    cbn [AsEthereumData normal_tx].
    unfold LegacyTx_AsEthereumData, AccessListTx_AsEthereumData, DynamicFeeTx_AsEthereumData.
    f_equal; [by eapply new_common_roundtrip|].
    by apply access_list_roundtrip.
  - intros [Hc Hal]. destruct (IsValidInt256 (eth_Value c)); [|done].
    destruct (IsValidInt256 cap); [|done]. destruct (IsValidInt256 tip); [|done].
    rewrite !Ok_bind. unfold SetSignatureValues, AccessListTx_SetSignatureValues, DynamicFeeTx_SetSignatureValues.
    cbn [andb].
    rewrite set_chain_id. destruct (IsValidInt256 id); [|done]. eexists. split; [reflexivity|].
    cbn [AsEthereumData normal_tx].
    unfold LegacyTx_AsEthereumData, AccessListTx_AsEthereumData, DynamicFeeTx_AsEthereumData.
    f_equal; [by eapply new_common_roundtrip|].
    by apply access_list_roundtrip.
Qed.

(** An Ethereum transaction is stored without loss.  The conversion to the
    stored type succeeds exactly when the amounts and the chain id fit in 256 bits
    (an amount that does not is an error, a chain id that does not a panic), and the
    message it makes converts back to the same transaction, up to signature values
    that are zero, and carries the hash that its validation asks for. *)
Theorem eth_tx_roundtrip tx msg :
  eth_ok tx →
  match FromEthereumTx tx msg with
  | Ok msg' =>
      fits tx = true ∧ chain_id_fits tx = true ∧
      ∃ td, msg_Data msg' = Some td ∧ AsEthereumData td = normal_tx tx ∧ msg_Hash msg' = tx_hash_hex td
  | Err e => fits tx = false ∧ e = ErrBigIntOutOfBound
  | Panic => fits tx = true ∧ chain_id_fits tx = false
  end.
Proof.
  intros Hok. pose proof (NewTxDataFromTx_cases tx Hok) as Hc. unfold FromEthereumTx.
  destruct (fits tx); [|by rewrite Hc].
  destruct (chain_id_fits tx); [|by rewrite Hc].
  destruct Hc as (td & -> & Htd). rewrite Ok_bind. split_and!; try done.
  exists td. split_and!; [done..|]. unfold tx_hash_hex. by rewrite Htd, tx_Hash_normal.
Qed.

End Conversion.

(** ** Validation and fees *)

Section Fees.
Context `{GE : Geth}.

Lemma ensure_Ok b e u : ensure b e = Ok u → b = true.
Proof. by destruct b. Qed.

Ltac inv_ensures H :=
  repeat (let E := fresh "He" in apply bind_Ok_inv in H as ([] & E & H);
    lazymatch type of E with ensure _ _ = _ => apply ensure_Ok in E | _ => idtac end).

(** What validation establishes of every transaction. *)
Record valid_tx (tx : TxData) : Prop := {
  valid_cap : ∃ cap, GetGasFeeCap tx = Some cap ∧ 0 <= cap < 2 ^ 256;
  valid_tip : ∃ tip, GetGasTipCap tx = Some tip ∧ 0 <= tip;
  valid_fee : ∀ f, Fee tx = Ok f → Z.abs f < 2 ^ 256;
  valid_value : ∀ v, GetValue tx = Some v → 0 <= v < 2 ^ 256;
  valid_chain : GetChainID tx = Some 5438 ∨ GetChainID tx = Some 5439;
  valid_to : tx_To (common_of tx) = EmptyString ∨ IsHexAddress (tx_To (common_of tx)) = true
}.

Lemma validate_chain_id_Ok tx u :
  validate_chain_id tx = Ok u → GetChainID tx = Some 5438 ∨ GetChainID tx = Some 5439.
Proof.
  unfold validate_chain_id. destruct (GetChainID tx) as [id|]; [|done]. intros H%ensure_Ok.
  apply orb_true_iff in H as [H|H]; apply Z.eqb_eq in H; subst; tauto.
Qed.

Lemma validate_to_Ok tx u :
  validate_to tx = Ok u → tx_To (common_of tx) = EmptyString ∨ IsHexAddress (tx_To (common_of tx)) = true.
Proof. unfold validate_to. case_decide; [tauto|]. intros H1%ensure_Ok. tauto. Qed.

Lemma validate_amount_Ok tx u :
  validate_amount tx = Ok u → ∀ v, GetValue tx = Some v → 0 <= v < 2 ^ 256.
Proof.
  unfold validate_amount. intros H1 v Hv. rewrite Hv in H1. inv_ensures H1. apply ensure_Ok in H1.
  cbn [non_negative IsValidInt256] in *. unfold maxBitLen in *. lia.
Qed.

Lemma validate_fee_Ok tx u : validate_fee tx = Ok u → ∀ f, Fee tx = Ok f → Z.abs f < 2 ^ 256.
Proof.
  unfold validate_fee. intros H1 f Hf. rewrite Hf, Ok_bind in H1. apply ensure_Ok in H1.
  cbn [IsValidInt256] in H1. unfold maxBitLen in H1. lia.
Qed.

Lemma Validate_valid tx u : Validate tx = Ok u → valid_tx tx.
Proof.
  intros H1. destruct tx as [c [p|]|c id [p|] al|c id [tip|] [cap|] al]; try discriminate H1;
    cbn [Validate LegacyTx_Validate AccessListTx_Validate DynamicFeeTx_Validate] in H1; inv_ensures H1; cbn [IsValidInt256] in *; unfold maxBitLen in *; constructor;
    try (eapply validate_chain_id_Ok; eassumption); try (eapply validate_to_Ok; eassumption);
    try (eapply validate_amount_Ok; eassumption); try (eapply validate_fee_Ok; eassumption);
    cbn [GetGasFeeCap GetGasTipCap]; eexists; (split; [reflexivity|]); lia.
Qed.

(** Validation returns: no transaction makes it panic. *)
Lemma Validate_no_panic tx : Validate tx ≠ Panic.
Proof.
  assert (∀ A b e (k : () → tx_result A), (∀ u, k u ≠ Panic) → ensure b e ≫= k ≠ Panic) as Hens
    by (intros A [] e k Hk; [apply Hk|done]).
  assert (∀ b e, ensure b e ≠ Panic) as He by (intros [] e; done).
  assert (∀ tx, validate_to tx ≠ Panic) as Ht
    by (intros t; unfold validate_to; case_decide; [done|apply He]).
  assert (∀ tx, validate_amount tx ≠ Panic) as Ha by (intros t; unfold validate_amount; auto).
  assert (∀ tx, validate_chain_id tx ≠ Panic) as Hc
    by (intros t; unfold validate_chain_id; destruct (GetChainID t); [apply He|done]).
  assert (∀ tx f, Fee tx = Ok f → validate_fee tx ≠ Panic) as Hf
    by (intros t f Hf; unfold validate_fee; rewrite Hf; apply He).
  assert (∀ A (m : tx_result ()) (k : () → tx_result A), m ≠ Panic → (∀ u, k u ≠ Panic) → m ≫= k ≠ Panic)
    as Hb by (intros A [[]| |] k Hm Hk; [apply Hk|done|done]).
  destruct tx as [c [p|]|c id [p|] al|c id [tip|] [cap|] al]; try done;
    cbn [Validate LegacyTx_Validate AccessListTx_Validate DynamicFeeTx_Validate];
    repeat first [apply Hc | apply Hens; intros ?
                 | apply Hb; [first [apply Ha | apply Ht | by eapply Hf]|intros ?]].
Qed.

Lemma EffectiveGasPrice_min tx b cap tip :
  GetGasFeeCap tx = Some cap → GetGasTipCap tx = Some tip → 0 <= b → b <= cap →
  EffectiveGasPrice tx (Some b) = Ok (Some (Z.min (b + tip) cap)).
Proof.
  destruct tx as [c p|c id p al|c id tip' cap' al]; cbn [GetGasFeeCap GetGasTipCap];
    intros Hcap Htip Hb Hbc; simplify_eq; cbn; f_equal; f_equal; unfold effective_price; lia.
Qed.

Lemma EffectiveFee_price tx b price :
  EffectiveGasPrice tx b = Ok (Some price) → EffectiveFee tx b = Ok (price * GetGas tx).
Proof.
  destruct tx as [c p|c id p al|c id tip cap al]; cbn [EffectiveFee].
  1,2: cbn; intros [= ->]; done.
  intros ->. done.
Qed.

(** What a user is charged: no coin, or the fee in one coin. *)
Definition charged (denom : string) (amt : Z) : list (string * Z) :=
  if amt =? 0 then [] else [(denom, amt)].

(** The effective gas price of a transaction at a base fee. *)
Definition price_at (b : Z) (tx : TxData) : Z :=
  Z.min (b + default 0 (GetGasTipCap tx)) (default 0 (GetGasFeeCap tx)).

(** The fee check of a valid transaction returns the fee at the effective price. *)
Lemma VerifyFee_charges tx denom b homestead istanbul isCheckTx fees :
  Validate tx = Ok () → 0 <= b →
  VerifyFee tx denom (Some b) homestead istanbul isCheckTx = Ok fees →
  ∃ cap tip,
    GetGasFeeCap tx = Some cap ∧ GetGasTipCap tx = Some tip ∧ 0 <= tip ∧ b <= cap ∧
    EffectiveGasPrice tx (Some b) = Ok (Some (price_at b tx)) ∧
    price_at b tx = Z.min (b + tip) cap ∧
    fees = charged denom (price_at b tx * GetGas tx).
Proof.
  intros Hv Hb Hf. destruct (Validate_valid _ _ Hv) as [(cap & Hcap & Hcap0) (tip & Htip & Htip0) _ _ _ _].
  unfold VerifyFee in Hf. case_guards Hf. rewrite Hcap in Hf. cbn [deref] in Hf. rewrite Ok_bind in Hf.
  apply bind_Ok_inv in Hf as ([] & Hbc%ensure_Ok & Hf). apply Z.leb_le in Hbc.
  assert (price_at b tx = Z.min (b + tip) cap) as Hpr by (unfold price_at; by rewrite Hcap, Htip).
  pose proof (EffectiveGasPrice_min tx b cap tip Hcap Htip Hb Hbc) as Hp. rewrite <-Hpr in Hp.
  rewrite (EffectiveFee_price _ _ _ Hp), Ok_bind in Hf.
  exists cap, tip. split_and!; try done. unfold charged.
  case_match; [congruence|]. unfold NewIntFromBigInt in Hf. case_match; [|done]. cbn in Hf. congruence.
Qed.

(** A transaction that passes the stateless validation, the fee check and the
    balance check of the sender can pay what it is charged.  It is charged the gas
    limit times its effective gas price, min (base fee + tip, fee cap), which is at
    least the base fee; and the balance covers that fee together with the value
    transferred. *)
Theorem admitted_tx_pays tx denom b homestead istanbul isCheckTx fees balance u :
  Validate tx = Ok () → 0 <= GetGas tx → 0 <= b →
  VerifyFee tx denom (Some b) homestead istanbul isCheckTx = Ok fees →
  CheckSenderBalance balance tx = Ok u →
  ∃ cap tip price,
    GetGasFeeCap tx = Some cap ∧ GetGasTipCap tx = Some tip ∧
    EffectiveGasPrice tx (Some b) = Ok (Some price) ∧
    price = Z.min (b + tip) cap ∧ b <= price <= cap ∧
    fees = charged denom (price * GetGas tx) ∧
    price * GetGas tx + default 0 (GetValue tx) <= balance.
Proof.
  intros Hv Hgas Hb Hf Hbal.
  destruct (VerifyFee_charges _ _ _ _ _ _ _ Hv Hb Hf) as (cap & tip & Hcap & Htip & Htip0 & Hbc & Hp & Hpr & Hch).
  exists cap, tip, (price_at b tx). split_and!; try done; try lia.
  unfold CheckSenderBalance, Cost, Fee, fee in Hbal. rewrite Hcap in Hbal. cbn [deref] in Hbal.
  rewrite !Ok_bind in Hbal. case_guards Hbal.
  assert (price_at b tx * GetGas tx <= cap * GetGas tx) by (apply Z.mul_le_mono_nonneg_r; lia).
  match goal with Hor : _ || _ = false |- _ => apply orb_false_iff in Hor as [??] end.
  destruct (GetValue tx); cbn [cost default id] in *; lia.
Qed.

(** ** Chain ids *)

Lemma DeriveChainID_eip155 id parity :
  0 <= id → parity = 0 ∨ parity = 1 → DeriveChainID (Some (parity + id * 2 + 35)) = Some id.
Proof.
  intros Hid Hp. cbn [DeriveChainID].
  assert ((parity + id * 2 + 35 - 35) / 2 = id) as Hdiv.
  { replace (parity + id * 2 + 35 - 35) with (parity + id * 2) by lia.
    rewrite Z.div_add by lia. destruct Hp as [->| ->]; done. }
  rewrite (proj2 (Z.ltb_ge _ 1)) by lia.
  destruct (_ <? 2 ^ 64) eqn:Hlt; [|by rewrite Hdiv].
  apply Z.ltb_lt in Hlt. rewrite (proj2 (Z.eqb_neq _ 27)), (proj2 (Z.eqb_neq _ 28)) by lia.
  cbn [orb]. rewrite (proj2 (Z.ltb_ge _ 35)) by lia.
  rewrite u64_small by (unfold in_u64; lia). by rewrite Hdiv.
Qed.

Lemma DeriveChainID_inv v id :
  DeriveChainID (Some v) = Some id → id ≠ 0 →
  ∃ parity, (parity = 0 ∨ parity = 1) ∧ v = parity + id * 2 + 35.
Proof.
  cbn [DeriveChainID]. intros H1 Hid. exists ((v - 35) mod 2).
  pose proof (Z.mod_pos_bound (v - 35) 2 ltac:(lia)). split; [lia|].
  pose proof (Z.div_mod (v - 35) 2 ltac:(lia)).
  case_guards H1; simplify_eq; rewrite ?u64_small by (unfold in_u64; lia); lia.
Qed.

(** Replay protection of legacy transactions.  The chain id derived from the
    signature value [v] is the one EIP-155 encodes, for every chain id, also where
    [v] does not fit in 64 bits; so a legacy transaction that validates is signed
    for chain 5438 or 5439, and its [v] is one of the four values of these. *)
Theorem legacy_chain_id :
  (∀ id parity, 0 <= id → parity = 0 ∨ parity = 1 →
     DeriveChainID (Some (parity + id * 2 + 35)) = Some id) ∧
  (∀ c p, Validate (LegacyTx c p) = Ok () →
     ∃ id parity, (id = 5438 ∨ id = 5439) ∧ (parity = 0 ∨ parity = 1) ∧
       SetBytes (tx_V c) = parity + id * 2 + 35).
Proof.
  split; [apply DeriveChainID_eip155|]. intros c p Hv%Validate_valid.
  assert (∃ id, (id = 5438 ∨ id = 5439) ∧ DeriveChainID (sig_value (tx_V c)) = Some id) as (id & Hid & Hd).
  { destruct (valid_chain _ Hv) as [E|E]; cbn in E; eauto. }
  unfold sig_value in Hd. case_decide; [|done].
  apply DeriveChainID_inv in Hd as (parity & Hp & Hd); [eauto|lia].
Qed.

End Fees.

(** ** Gas search *)

Section Search.
Context {E : Type} (executable : Z → outcome E bool) (failed : Z → bool).
Hypothesis executable_total : ∀ g, executable g = Ok (failed g).

Lemma BinSearch_loop_spec fuel lo hi :
  0 <= lo < hi → hi <= 2 ^ 63 → hi - lo <= 2 ^ Z.of_nat fuel →
  ∃ r, BinSearch_loop fuel executable lo hi = Some (Ok r) ∧ lo < r <= hi ∧
    (r < hi → failed r = false) ∧ (lo + 1 < r → failed (r - 1) = true).
Proof.
  revert lo hi. induction fuel as [|fuel IH]; intros lo hi Hlo Hhi Hf; cbn [BinSearch_loop];
    rewrite (u64_small (lo + 1)) by (unfold in_u64; lia);
    (destruct (lo + 1 <? hi) eqn:Hlt; [apply Z.ltb_lt in Hlt|
       apply Z.ltb_ge in Hlt; exists hi; split_and!; [done|lia..]]).
  { change (2 ^ Z.of_nat 0) with 1 in Hf. lia. }
  rewrite (u64_small (hi + lo)) by (unfold in_u64; lia). rewrite executable_total.
  rewrite Nat2Z.inj_succ, Z.pow_succ_r in Hf by lia.
  set (mid := (hi + lo) / 2).
  assert (lo < mid < hi ∧ hi - mid <= 2 ^ Z.of_nat fuel ∧ mid - lo <= 2 ^ Z.of_nat fuel) as (Hm & Hm1 & Hm2).
  { pose proof (Z.div_mod (hi + lo) 2 ltac:(lia)). pose proof (Z.mod_pos_bound (hi + lo) 2 ltac:(lia)).
    fold mid in H. lia. }
  destruct (failed mid) eqn:Hmid.
  - destruct (IH mid hi) as (r & Hr & Hr1 & Hr2 & Hr3); [lia..|]. exists r.
    split_and!; [done|lia..|done|]. intros _. destruct (decide (mid + 1 < r)); [auto|].
    by replace (r - 1) with mid by lia.
  - destruct (IH lo mid) as (r & Hr & Hr1 & Hr2 & Hr3); [lia..|]. exists r.
    split_and!; [done|lia..| |done]. intros _. destruct (decide (r < mid)); [auto|].
    by replace r with mid by lia.
Qed.

(** The gas search terminates and is exact.  On limits below 2^63, when
    execution never ends in an error and more gas never makes it fail, the search
    ends within [bin_fuel] rounds with the least gas limit above [lo] that executes,
    or [hi] when none below does. *)
Theorem bin_search_least lo hi :
  0 <= lo < hi → hi <= 2 ^ 63 →
  (∀ g g', g <= g' → failed g' = true → failed g = true) →
  ∃ r, BinSearch lo hi executable = Some (Ok r) ∧ lo < r <= hi ∧
    ∀ g, lo < g < hi → failed g = bool_decide (g < r).
Proof using executable_total.
  intros Hlo Hhi Hmono. destruct (BinSearch_loop_spec bin_fuel lo hi) as (r & Hr & Hr1 & Hr2 & Hr3);
    [done..|change (Z.of_nat bin_fuel) with 64; lia|].
  exists r. split_and!; [done|lia..|]. intros g Hg. case_bool_decide.
  - apply (Hmono g (r - 1)); [lia|]. apply Hr3. lia.
  - destruct (failed g) eqn:Hfg; [|done]. rewrite (Hmono r g) in Hr2; [|lia|done].
    discriminate Hr2. lia.
Qed.

End Search.

(** ** An instance of [Geth]

    Lower-case hex strings, a hash that adds up some fields, and the intrinsic gas
    of a call or a creation without its data. *)

Module GethToy.

Definition hex_digit (d : Z) : Ascii.ascii :=
  Ascii.ascii_of_N (Z.to_N (if d <? 10 then 48 + d else 87 + d)).

Definition hex_value (c : Ascii.ascii) : Z :=
  let n := Z.of_N (Ascii.N_of_ascii c) in if n <? 58 then n - 48 else n - 87.

Definition is_hex (c : Ascii.ascii) : bool :=
  let n := Z.of_N (Ascii.N_of_ascii c) in
  (48 <=? n) && (n <? 58) || (97 <=? n) && (n <? 103).

Fixpoint hex_chars (n : nat) (z : Z) : list Ascii.ascii :=
  match n with
  | O => []
  | S n => hex_chars n (z / 16) ++ [hex_digit (z mod 16)]
  end.

Definition hex_string (n : nat) (z : Z) : string :=
  String.append "0x" (String.string_of_list_ascii (hex_chars n z)).

Definition hex_body (s : string) : list Ascii.ascii :=
  match s with
  | String _ (String _ s) => String.list_ascii_of_string s
  | _ => []
  end.

Definition hex_read (s : string) : Z := foldl (λ acc c, acc * 16 + hex_value c) 0 (hex_body s).

Lemma hex_digit_spec d : 0 <= d < 16 → hex_value (hex_digit d) = d ∧ is_hex (hex_digit d) = true.
Proof.
  intros Hd. destruct d as [|p|p]; [done| |lia].
  do 4 (destruct p as [p|p|]; try done); lia.
Qed.

Lemma hex_body_string n z : hex_body (hex_string n z) = hex_chars n z.
Proof. apply String.list_ascii_of_string_of_list_ascii. Qed.

Lemma hex_read_string n z : hex_read (hex_string n z) = z mod 16 ^ Z.of_nat n.
Proof.
  unfold hex_read. rewrite hex_body_string. revert z. induction n as [|n IH]; intros z.
  { change (16 ^ Z.of_nat 0) with 1. by rewrite Z.mod_1_r. }
  cbn [hex_chars]. rewrite foldl_app, IH. cbn [foldl].
  rewrite (proj1 (hex_digit_spec _ (Z.mod_pos_bound z 16 ltac:(lia)))).
  rewrite Nat2Z.inj_succ, Z.pow_succ_r, (Z.rem_mul_r z) by lia. lia.
Qed.

Lemma hex_chars_ok n z : length (hex_chars n z) = n ∧ forallb is_hex (hex_chars n z) = true.
Proof.
  revert z. induction n as [|n IH]; intros z; [done|]. cbn [hex_chars].
  destruct (IH (z / 16)) as [Hl Hh]. rewrite length_app, Hl, forallb_app, Hh. cbn.
  rewrite (proj2 (hex_digit_spec _ (Z.mod_pos_bound z 16 ltac:(lia)))). split; [lia|done].
Qed.

Definition toy_hash (tx : eth_tx) : Z :=
  let c := match tx with EthLegacyTx c _ | EthAccessListTx c _ _ _ | EthDynamicFeeTx c _ _ _ _ => c end in
  eth_Nonce c + 3 * eth_Gas c + 5 * default 0 (eth_V c) + 7 * default 0 (eth_R c).

#[export] Instance toy_geth : Geth := {
  HexToAddress s := hex_read s mod 2 ^ 160;
  Address_Hex := hex_string 40;
  IsHexAddress s := String.prefix "0x" s && (length (hex_body s) =? 40)%nat && forallb is_hex (hex_body s);
  HexToHash := hex_read;
  Hash_Hex := hex_string 64;
  tx_Hash := toy_hash;
  IntrinsicGas _ _ create _ _ := Some (if create then 53000 else 21000)
}.

#[export] Instance toy_geth_laws : GethLaws.
Proof.
  split.
  - intros a Ha. cbn [HexToAddress Address_Hex toy_geth]. rewrite hex_read_string.
    change (16 ^ Z.of_nat 40) with (2 ^ 160). rewrite (Z.mod_small a) by exact Ha. by apply Z.mod_small.
  - done.
  - intros a _. cbn [IsHexAddress Address_Hex toy_geth]. rewrite hex_body_string.
    destruct (hex_chars_ok 40 a) as [-> ->]. done.
  - intros h Hh. cbn. rewrite hex_read_string. by apply Z.mod_small.
  - assert (∀ v, default 0 (nil_sig v) = default 0 v) as Hn by (by intros [[]|]).
    intros [c p|c id p al|c id tip cap al]; cbn [tx_Hash toy_geth normal_tx]; unfold toy_hash;
      cbn [nil_sigs eth_Nonce eth_Gas eth_V eth_R]; by rewrite !Hn.
  - intros d al [] hs ist g [= <-]; unfold in_u64; lia.
Qed.

(** A transfer of 1000 on chain 5438, with a fee cap of 50 and a tip of 2. *)
Definition transfer : eth_tx :=
  EthDynamicFeeTx (mkEthCommon 7 30000 (Some 4660) (Some 1000) [] (Some 1) (Some 99) (Some 77))
    (Some 5438) (Some 2) (Some 50) [(4660, [1; 2])].

Definition transfer_data : TxData :=
  match NewTxDataFromTx transfer with Ok td => td | _ => LegacyTx (mkTxCommon 0 0 EmptyString None [] [] [] []) None end.

Definition no_msg : MsgEthereumTx := mkMsgEthereumTx None 0 EmptyString EmptyString.

Lemma transfer_ok : eth_ok transfer.
Proof.
  unfold eth_ok, transfer, common_ok, access_ok, sig_ok, in_address, in_hash; cbn.
  repeat constructor; try lia.
Qed.

(** The transfer is stored and read back. *)
Lemma eth_tx_roundtrip_witness :
  ∃ td, FromEthereumTx transfer no_msg = Ok (mkMsgEthereumTx (Some td) 0 (tx_hash_hex td) EmptyString) ∧
    AsEthereumData td = transfer.
Proof.
  pose proof (eth_tx_roundtrip transfer no_msg transfer_ok) as Hw.
  assert (FromEthereumTx transfer no_msg =
    Ok (mkMsgEthereumTx (Some transfer_data) 0 (tx_hash_hex transfer_data) EmptyString)) as Hf
    by (vm_compute; reflexivity).
  rewrite Hf in Hw. destruct Hw as (_ & _ & td & [= <-] & Htd & _).
  exists transfer_data. split; [exact Hf|exact Htd].
Defined.

(** At a base fee of 10 the transfer is charged 12 for each of its 30000 gas. *)
Lemma admitted_tx_pays_witness :
  VerifyFee transfer_data "aego" (Some 10) true true true = Ok [("aego"%string, 360000)] ∧
  360000 + 1000 <= 2000000.
Proof.
  destruct (admitted_tx_pays transfer_data "aego" 10 true true true [("aego"%string, 360000)] 2000000 ())
    as (cap & tip & price & Hcap & Htip & Hp & -> & _ & _ & Hb); [vm_compute; done..|].
  vm_compute in Hcap, Htip. simplify_eq. split; [reflexivity|]. vm_compute in Hb |- *. done.
Defined.

(** Execution needs 21345 gas; the search between 20999 and 30000000 finds it. *)
Lemma bin_search_least_witness :
  BinSearch (E := Empty_set) 20999 30000000 (λ g, Ok (g <? 21345)) = Some (Ok 21345).
Proof.
  destruct (bin_search_least (E := Empty_set) (λ g, Ok (g <? 21345)) (λ g, g <? 21345) (λ g, eq_refl)
    20999 30000000) as (r & Hr & Hr1 & Hr2); [lia..|].
  rewrite Hr. do 2 f_equal.
  pose proof (Hr2 21345 ltac:(lia)) as H1. pose proof (Hr2 21344 ltac:(lia)) as H2.
  symmetry in H1, H2. rewrite Z.ltb_irrefl in H1. apply bool_decide_eq_false in H1.
  rewrite (proj2 (Z.ltb_lt 21344 21345)) in H2 by lia. apply bool_decide_eq_true in H2. lia.
Defined.

End GethToy.
