(* ===== verification/GasMeter.v ===== *)
(** * Gas meters: [types/gasmeter.go], [types/block.go]

    The interface of a gas meter that the execution of transactions uses, and the
    meter of the chain that implements it: one that counts past its limit and panics
    only when the count does not fit in 64 bits. *)

From S2P Require Import Prelude.

(** Running out of gas is a panic. *)
Class GasMeter := {
  meter : Type;
  GasConsumed : meter → Z;
  meter_Limit : meter → Z;
  meter_RefundGas : Z → meter → partial meter;
  meter_ConsumeGas : Z → meter → partial meter
}.

Class GasMeterLaws `{GasMeter} : Prop := {
  RefundGas_consumed n m m' : meter_RefundGas n m = Ok m' → GasConsumed m' = GasConsumed m - n;
  ConsumeGas_consumed n m m' : meter_ConsumeGas n m = Ok m' → GasConsumed m' = GasConsumed m + n
}.

(** ** The infinite gas meter with a limit *)

Record infiniteGasMeterWithLimit := mkInfiniteMeter { gm_consumed : Z; gm_limit : Z }.

Definition NewInfiniteGasMeterWithLimit (limit : Z) : infiniteGasMeterWithLimit := mkInfiniteMeter 0 limit.

(** The sum when it fits in 64 bits. *)
Definition addUint64Overflow (a b : Z) : Z * bool :=
  if MaxUint64 - a <? b then (0, true) else (a + b, false).

Definition ConsumeGas (amount : Z) (g : infiniteGasMeterWithLimit) : partial infiniteGasMeterWithLimit :=
  let '(consumed, overflow) := addUint64Overflow (gm_consumed g) amount in
  if overflow then Panic else Ok (mkInfiniteMeter consumed (gm_limit g)).

Definition RefundGas (amount : Z) (g : infiniteGasMeterWithLimit) : partial infiniteGasMeterWithLimit :=
  if gm_consumed g <? amount then Panic else Ok (mkInfiniteMeter (gm_consumed g - amount) (gm_limit g)).

Definition IsPastLimit (g : infiniteGasMeterWithLimit) : bool := false.
Definition IsOutOfGas (g : infiniteGasMeterWithLimit) : bool := false.

#[export] Instance infinite_meter : GasMeter := {
  meter := infiniteGasMeterWithLimit;
  GasConsumed := gm_consumed;
  meter_Limit := gm_limit;
  meter_RefundGas := RefundGas;
  meter_ConsumeGas := ConsumeGas
}.

Definition GasConsumedToLimit (g : infiniteGasMeterWithLimit) : Z := gm_consumed g.
Definition GasRemaining (g : infiniteGasMeterWithLimit) : Z := MaxUint64.

#[export] Instance infinite_meter_laws : GasMeterLaws.
Proof.
  split; cbn; intros n m m'.
  - unfold RefundGas. destruct (_ <? _); [done|]. by intros [= <-].
  - unfold ConsumeGas, addUint64Overflow. destruct (_ <? _); [done|]. by intros [= <-].
Qed.

(** ** The gas limit of a block

    The limit of the block's gas meter, if there is one, or the [MaxGas] of the
    consensus parameters, if they are set. *)
Definition BlockGasLimit (blockGasMeter consensusMaxGas : option Z) : Z :=
  let limit := default 0 blockGasMeter in
  if negb (limit =? 0) then limit
  else match consensusMaxGas with
       | None => 0
       | Some maxGas => if maxGas =? -1 then MaxUint64 else if 0 <? maxGas then maxGas else 0
       end.
