(* ===== verification/EvmApply.v ===== *)
(** * Executing Ethereum transactions: [x/evm/keeper/state_transition.go], [gas.go], [fees.go]

    [ApplyMessageWithConfig] runs one message on a state database over the keeper's
    store, with go-ethereum's virtual machine as a parameter, and computes the gas it
    is charged; [ApplyTransaction] wraps it in a cached context with the
    post-processing hooks, refunds the gas that is left and updates the transient
    stores and the gas meter.  The context is passed explicitly: [ctx_store] is the
    multistore, the other fields are the transient store of the module and the gas
    meters.  Tracing, events, telemetry and logging are left out, and logs stay in
    go-ethereum's form. *)

From S2P Require Import Prelude Sdk Dec AccessList StateDB EvmKeeper EvmTx GasMeter.

(** ** go-ethereum and SDK *)

(** [core.Message]. *)
Record Message := mkMessage {
  m_From : Address;
  m_To : option Address;
  m_Nonce : Z;
  m_Value : Z;
  m_Gas : Z;
  m_GasPrice : Z;
  m_GasFeeCap : Z;
  m_Data : list byte;
  m_AccessList : eth_access_list
}.

(** The forks that are active at the height of the block. *)
Record rules := mkRules {
  IsHomestead : bool;
  IsIstanbul : bool;
  IsBerlin : bool;
  IsLondon : bool
}.

(** [types.Params], the parameters the execution reads. *)
Record evm_params := mkEvmParams {
  ep_EnableCreate : bool;
  ep_EnableCall : bool;
  ep_ActivePrecompiles : list string
}.

(** [statedb.EVMConfig]. *)
Record EVMConfig := mkEVMConfig {
  ec_Params : evm_params;
  ec_rules : rules;
  ec_BaseFee : option Z
}.

Section EvmApply.
Context `{EE : EvmEnv} `{GE : Geth} `{LD : LegacyDec} `{GM : GasMeter}.

(** What a run of the virtual machine returns: data, gas left, error, and the state
    it leaves.  Stateful precompiles write to the store itself. *)
Record execution := mkExecution {
  x_ret : list byte;
  x_leftoverGas : Z;
  x_vmErr : option string;
  x_stateDB : StateDB;
  x_store : evm_store
}.

(** Go-ethereum's machine, set up by [NewEVM] for a message, a configuration and the
    custom precompiles, if any. *)
Record Vm := mkVm {
  vm_ActivePrecompiles : rules → option (list Address) → list Address;
  vm_PrecompiledAddressesBerlin : list Address;
  vm_Call : Message → EVMConfig → option (list Address) → Address → Z → StateDB → evm_store → partial execution;
  vm_Create : Message → EVMConfig → option (list Address) → Z → StateDB → evm_store → partial execution;
  vm_RefundQuotient : Z;
  vm_RefundQuotientEIP3529 : Z;
  vm_keccak : list byte → Hash;
  vm_CreateAddress : Address → Z → Address;
  vm_LogsBloom : list Log → Z;
  vm_AsMessage : eth_tx → option Z → option Message
}.

(** [ethtypes.Receipt]. *)
Record Receipt := mkReceipt {
  rc_Type : Z;
  rc_CumulativeGasUsed : Z;
  rc_Bloom : Z;
  rc_Logs : list Log;
  rc_TxHash : Hash;
  rc_ContractAddress : Address;
  rc_GasUsed : Z;
  rc_BlockHash : Hash;
  rc_TransactionIndex : Z;
  rc_Status : Z
}.

(** A hook changes the store or fails; it may change the receipt in both cases. *)
Definition Hook : Type := Message → Receipt → evm_store → Receipt * outcome chain_error evm_store.

(** The fee collector of the auth module, and the two SDK calls that move fees. *)
Record FeeBank := mkFeeBank {
  fb_GetSignerAcc : chain → Address → bool;
  fb_DeductFees : chain → Address → coins → outcome chain_error chain;
  fb_RefundToAccount : chain → Address → coins → outcome chain_error chain
}.

Inductive apply_error :=
| ErrCreateDisabled
| ErrCallDisabled
| ErrInactivePrecompile
| ErrApplyIntrinsicOverflow
| ErrIntrinsicGas
| ErrGasOverflow
| ErrCommit (e : evm_error)
| ErrAsMessage
| ErrInvalidRefund
| ErrRefund (e : chain_error)
| ErrUnknownAddress
| ErrDeduct (e : chain_error).

Abbreviation apply_result A := (outcome apply_error A).

Definition run {A} (x : partial A) : apply_result A :=
  match x with Ok a => Ok a | Err e => match e with end | Panic => Panic end.

(** ** The keeper *)

Record EvmModule := mkEvmModule {
  k_vm : Vm;
  k_precompiles : list Address;
  k_hooks : option Hook;
  k_fees : FeeBank;
  k_config : EVMConfig;
  k_minGasMultiplier : dec;
  k_headerHash : Hash
}.

Record MsgEthereumTxResponse := mkResponse {
  res_GasUsed : Z;
  res_VmError : string;
  res_Ret : list byte;
  res_Logs : list Log;
  res_Hash : Hash
}.

Definition Failed (res : MsgEthereumTxResponse) : bool := bool_decide (0 < String.length (res_VmError res))%nat.

Variable k : EvmModule.

(** ** Gas: [gas.go] *)

Definition GasToRefund (availableRefund gasConsumed refundQuotient : Z) : Z :=
  let refund := gasConsumed / refundQuotient in
  if availableRefund <? refund then availableRefund else refund.

Definition GetEthIntrinsicGas (msg : Message) (cfg : EVMConfig) (isContractCreation : bool) : option Z :=
  IntrinsicGas (m_Data msg) (m_AccessList msg) isContractCreation
    (IsHomestead (ec_rules cfg)) (IsIstanbul (ec_rules cfg)).

Definition RefundGas (msg : Message) (leftoverGas : Z) (s : evm_store) : apply_result evm_store :=
  let remaining := leftoverGas * m_GasPrice msg in
  if remaining <? 0 then Err ErrInvalidRefund
  else if 0 <? remaining then
    match NewIntFromBigInt (E := Empty_set) remaining with
    | Ok amt =>
        match fb_RefundToAccount (k_fees k) (ek_chain s) (m_From msg) (NewCoin EvmDenom amt) with
        | Ok c => Ok (set_chain c s)
        | Err e => Err (ErrRefund e)
        | Panic => Panic
        end
    | _ => Panic
    end
  else Ok s.

Definition ResetGasMeterAndConsumeGas (m : meter) (gasUsed : Z) : partial meter :=
  m ← meter_RefundGas (GasConsumed m) m; meter_ConsumeGas gasUsed m.

(** ** Fees: [fees.go] *)

Definition DeductTxCostsFromUserBalance (fees : coins) (from : Address) (s : evm_store) :
    apply_result evm_store :=
  if fb_GetSignerAcc (k_fees k) (ek_chain s) from then
    match fb_DeductFees (k_fees k) (ek_chain s) from fees with
    | Ok c => Ok (set_chain c s)
    | Err e => Err (ErrDeduct e)
    | Panic => Panic
    end
  else Err ErrUnknownAddress.

(** ** Precompiles: [precompiles.go], [types/params.go] *)

Definition AvailableEVMExtensions : list string :=
  [ "0x0000000000000000000000000000000000000100";
    "0x0000000000000000000000000000000000000400";
    "0x0000000000000000000000000000000000000800";
    "0x0000000000000000000000000000000000000801";
    "0x0000000000000000000000000000000000000802";
    "0x0000000000000000000000000000000000000803";
    "0x0000000000000000000000000000000000000804";
    "0x0000000000000000000000000000000000000900";
    "0x0000000000000000000000000000000000000901" ]%string.

Definition HasCustomPrecompiles (p : evm_params) : bool :=
  bool_decide (0 < length (ep_ActivePrecompiles p))%nat.

Definition GetActivePrecompilesAddrs (p : evm_params) : list Address :=
  map HexToAddress (ep_ActivePrecompiles p).

(** The contracts of the addresses; one that is not set up panics. *)
Definition Precompiles (active : list Address) : partial (list Address) :=
  if forallb (λ a, bool_decide (a ∈ k_precompiles k)) active then Ok active else Panic.

(** The precompiles handed to the machine, if custom ones are active. *)
Definition custom_precompiles (msg : Message) (cfg : EVMConfig) : apply_result (option (list Address)) :=
  if HasCustomPrecompiles (ec_Params cfg) then
    let activePrecompiles := vm_PrecompiledAddressesBerlin (k_vm k) ++ GetActivePrecompilesAddrs (ec_Params cfg) in
    if match m_To msg with
       | Some to => bool_decide (Address_Hex to ∈ AvailableEVMExtensions) &&
                    negb (bool_decide (to ∈ activePrecompiles))
       | None => false
       end
    then Err ErrInactivePrecompile
    else run (Some <$> Precompiles activePrecompiles)
  else Ok None.

(** ** Applying a message *)

(** The guards of the parameters. *)
Definition check_enabled (msg : Message) (cfg : EVMConfig) : apply_result () :=
  if negb (ep_EnableCreate (ec_Params cfg)) && bool_decide (m_To msg = None) then Err ErrCreateDisabled
  else if negb (ep_EnableCall (ec_Params cfg)) && negb (bool_decide (m_To msg = None)) then Err ErrCallDisabled
  else Ok ().

(** The call of the machine.  A creation sets the nonce of the sender before it and
    once more after it, whatever its result. *)
Definition execute (msg : Message) (cfg : EVMConfig) (pre : option (list Address)) (gas : Z)
    (sdb : StateDB) (s : evm_store) : partial execution :=
  match m_To msg with
  | None =>
      let sdb := StateDB.SetNonce (vm_keccak (k_vm k)) s (m_From msg) (m_Nonce msg) sdb in
      x ← vm_Create (k_vm k) msg cfg pre gas sdb s;
      Ok (mkExecution (x_ret x) (x_leftoverGas x) (x_vmErr x)
            (StateDB.SetNonce (vm_keccak (k_vm k)) (x_store x) (m_From msg) (u64 (m_Nonce msg + 1)) (x_stateDB x))
            (x_store x))
  | Some to => vm_Call (k_vm k) msg cfg pre to gas sdb s
  end.

(** The state database before the call, and the run on it. *)
Definition prepare_and_execute (msg : Message) (cfg : EVMConfig) (txConfig : TxConfig)
    (pre : option (list Address)) (gas : Z) (s : evm_store) : partial execution :=
  let sdb := New txConfig in
  sdb ← (if IsBerlin (ec_rules cfg) then
           PrepareAccessList (m_From msg) (m_To msg) (vm_ActivePrecompiles (k_vm k) (ec_rules cfg) pre)
             (m_AccessList msg) sdb
         else Ok sdb);
  execute msg cfg pre gas sdb s.

Definition refund_quotient (cfg : EVMConfig) : Z :=
  if IsLondon (ec_rules cfg) then vm_RefundQuotientEIP3529 (k_vm k) else vm_RefundQuotient (k_vm k).

(** The gas charged, from the gas limit, the gas left by the machine after refunds
    and the gas used. *)
Definition charged_gas (gas leftoverGas temporaryGasUsed : Z) : apply_result Z :=
  let gasLimit := LegacyNewDec (i64 gas) in
  minimumGasUsed ← run (dec_Mul gasLimit (k_minGasMultiplier k));
  n ← run (dec_TruncateInt minimumGasUsed);
  if bool_decide (in_u64 n) then
    if gas <? leftoverGas then Err ErrGasOverflow
    else
      g ← run (dec_TruncateInt (LegacyMaxDec minimumGasUsed (LegacyNewDec (i64 temporaryGasUsed))));
      if bool_decide (in_u64 g) then Ok g else Panic
  else Err ErrGasOverflow.

Definition of_evm {A} (x : outcome evm_error A) : apply_result A :=
  match x with Ok a => Ok a | Err e => Err (ErrCommit e) | Panic => Panic end.

Definition ApplyMessageWithConfig (msg : Message) (commit : bool) (cfg : EVMConfig) (txConfig : TxConfig)
    (s : evm_store) : apply_result (MsgEthereumTxResponse * evm_store) :=
  _ ← check_enabled msg cfg;
  pre ← custom_precompiles msg cfg;
  match GetEthIntrinsicGas msg cfg (bool_decide (m_To msg = None)) with
  | None => Err ErrApplyIntrinsicOverflow
  | Some intrinsicGas =>
      if m_Gas msg <? intrinsicGas then Err ErrIntrinsicGas
      else
        x ← run (prepare_and_execute msg cfg txConfig pre (m_Gas msg - intrinsicGas) s);
        let leftoverGas := x_leftoverGas x in
        if m_Gas msg <? leftoverGas then Err ErrGasOverflow
        else
          let temporaryGasUsed := m_Gas msg - leftoverGas in
          let refund := GasToRefund (sdb_refund (x_stateDB x)) temporaryGasUsed (refund_quotient cfg) in
          let leftoverGas := u64 (leftoverGas + refund) in
          let temporaryGasUsed := temporaryGasUsed - refund in
          let vmError := default EmptyString (x_vmErr x) in
          s ← (if commit then of_evm (Commit (x_store x) (x_stateDB x)) else Ok (x_store x));
          gasUsed ← charged_gas (m_Gas msg) leftoverGas temporaryGasUsed;
          Ok (mkResponse gasUsed vmError (x_ret x) (sdb_logs (x_stateDB x)) (cfg_TxHash txConfig), s)
  end.

(** [NewEmptyTxConfig] of [statedb/config.go]. *)
Definition NewEmptyTxConfig (bhash : Hash) : TxConfig := mkTxConfig bhash 0 0 0.

Definition ApplyMessage (msg : Message) (commit : bool) (s : evm_store) :
    apply_result (MsgEthereumTxResponse * evm_store) :=
  ApplyMessageWithConfig msg commit (k_config k) (NewEmptyTxConfig (k_headerHash k)) s.

(** ** Applying a transaction *)

Record evm_ctx := mkCtx {
  ctx_store : evm_store;
  ctx_bloom : Z;
  ctx_txIndex : Z;
  ctx_logSize : Z;
  ctx_gasUsed : Z;
  ctx_meter : meter;
  ctx_blockMeter : option (Z * Z)   (* limit, consumed *)
}.

Definition TxConfig_of (ctx : evm_ctx) (txHash : Hash) : TxConfig :=
  mkTxConfig (k_headerHash k) txHash (ctx_txIndex ctx) (ctx_logSize ctx).

Definition AddTransientGasUsed (ctx : evm_ctx) (gasUsed : Z) : apply_result Z :=
  let result := u64 (ctx_gasUsed ctx + gasUsed) in
  if result <? gasUsed then Err ErrGasOverflow else Ok result.

Definition cumulative_gas (ctx : evm_ctx) (gasUsed : Z) : Z :=
  match ctx_blockMeter ctx with
  | None => gasUsed
  | Some (limit, consumed) =>
      let g := u64 (gasUsed + consumed) in if limit <? g then limit else g
  end.

Definition eth_type (tx : eth_tx) : Z :=
  match tx with EthLegacyTx _ _ => 0 | EthAccessListTx _ _ _ _ => 1 | EthDynamicFeeTx _ _ _ _ _ => 2 end.

Definition new_receipt (ctx : evm_ctx) (tx : eth_tx) (msg : Message) (txConfig : TxConfig)
    (res : MsgEthereumTxResponse) : Receipt :=
  mkReceipt (eth_type tx) (cumulative_gas ctx (res_GasUsed res))
    (match res_Logs res with [] => 0 | logs => Z.lor (ctx_bloom ctx) (vm_LogsBloom (k_vm k) logs) end)
    (res_Logs res) (cfg_TxHash txConfig)
    (match m_To msg with None => vm_CreateAddress (k_vm k) (m_From msg) (m_Nonce msg) | Some _ => 0 end)
    (res_GasUsed res) (cfg_BlockHash txConfig) (cfg_TxIndex txConfig) 0.

Definition PostTxProcessing (msg : Message) (receipt : Receipt) (s : evm_store) :
    Receipt * outcome chain_error evm_store :=
  match k_hooks k with
  | None => (receipt, Ok s)
  | Some hook => hook msg receipt s
  end.

Definition PostTxProcessingError : string := "failed to execute post processing".

Definition set_status (r : Receipt) : Receipt :=
  mkReceipt (rc_Type r) (rc_CumulativeGasUsed r) (rc_Bloom r) (rc_Logs r) (rc_TxHash r)
    (rc_ContractAddress r) (rc_GasUsed r) (rc_BlockHash r) (rc_TransactionIndex r) 1.

(** The hooks after a message that did not fail.  [tmp] is the store of [tmpCtx]: a
    cached copy that is written back on success when there are hooks, the store itself
    when there are none.  The result is the response, the receipt and the store of
    the transaction. *)
Definition post_process (msg : Message) (receipt : Receipt) (res : MsgEthereumTxResponse)
    (s tmp : evm_store) : partial (MsgEthereumTxResponse * Receipt * evm_store) :=
  let unwritten := match k_hooks k with Some _ => s | None => tmp end in
  if Failed res then Ok (res, receipt, unwritten)
  else
    let '(receipt, r) := PostTxProcessing msg (set_status receipt) tmp in
    match r with
    | Err _ =>
        Ok (mkResponse (res_GasUsed res) PostTxProcessingError (res_Ret res) [] (res_Hash res), receipt, unwritten)
    | Ok s' =>
        let res := match k_hooks k with
                   | Some _ => mkResponse (res_GasUsed res) (res_VmError res) (res_Ret res) (rc_Logs receipt) (res_Hash res)
                   | None => res
                   end in
        Ok (res, receipt, s')
    | Panic => Panic
    end.

(** A failed call drops the state of the context, but not its gas meter. *)
Inductive tx_outcome :=
| TxOk (res : MsgEthereumTxResponse) (ctx : evm_ctx)
| TxErr (e : apply_error) (m : meter)
| TxPanic.

Definition finish (ctx : evm_ctx) (x : apply_result (MsgEthereumTxResponse * evm_ctx)) : tx_outcome :=
  match x with
  | Ok (res, ctx) => TxOk res ctx
  | Err e => TxErr e (ctx_meter ctx)
  | Panic => TxPanic
  end.

(** What follows the execution of the message: hooks, refund, transient stores. *)
Definition settle (ctx : evm_ctx) (tx : eth_tx) (msg : Message) (txConfig : TxConfig)
    (res : MsgEthereumTxResponse) (tmp : evm_store) : apply_result (MsgEthereumTxResponse * evm_ctx) :=
  '(res, receipt, s) ← run (post_process msg (new_receipt ctx tx msg txConfig res) res (ctx_store ctx) tmp);
  s ← RefundGas msg (u64 (m_Gas msg - res_GasUsed res)) s;
  let '(bloom, logSize) :=
    match rc_Logs receipt with
    | [] => (ctx_bloom ctx, ctx_logSize ctx)
    | logs => (rc_Bloom receipt, u64 (cfg_LogIndex txConfig + Z.of_nat (length logs)))
    end in
  totalGasUsed ← AddTransientGasUsed ctx (res_GasUsed res);
  m ← run (ResetGasMeterAndConsumeGas (ctx_meter ctx) totalGasUsed);
  Ok (res, mkCtx s bloom (u64 (cfg_TxIndex txConfig + 1)) logSize totalGasUsed m (ctx_blockMeter ctx)).

Definition ApplyTransaction (ctx : evm_ctx) (tx : eth_tx) : tx_outcome :=
  let cfg := k_config k in
  let txConfig := TxConfig_of ctx (tx_Hash tx) in
  match vm_AsMessage (k_vm k) tx (ec_BaseFee cfg) with
  | None => TxErr ErrAsMessage (ctx_meter ctx)
  | Some msg =>
      match ApplyMessageWithConfig msg true cfg txConfig (ctx_store ctx) with
      | Err e =>
          match ResetGasMeterAndConsumeGas (ctx_meter ctx) (meter_Limit (ctx_meter ctx)) with
          | Ok m => TxErr e m
          | _ => TxPanic
          end
      | Panic => TxPanic
      | Ok (res, tmp) => finish ctx (settle ctx tx msg txConfig res tmp)
      end
  end.

(** The message handler [EthereumTx] of [msg_server.go]. *)
Definition EthereumTx (ctx : evm_ctx) (txData : TxData) : tx_outcome :=
  ApplyTransaction ctx (AsEthereumData txData).

End EvmApply.
