(* ===== verification/EvmApplySpec.v ===== *)
(** * Executing Ethereum transactions: what a sender pays

    The gas a message is charged, as a formula over what the virtual machine
    returns; that a failed execution only refunds gas; and the gas meter of a Cosmos
    transaction that carries several Ethereum ones. *)

From S2P Require Import Prelude Sdk Dec AccessList StateDB Journal StateDBSpec Commit EvmKeeper EvmKeeperSpec EvmTx EvmTxSpec GasMeter EvmApply.

(** ** Gas of a message *)

Section Gas.
Context `{EE : EvmEnv} `{GE : Geth} `{LD : LegacyDec} `{DL : !DecLaws} `{GM : GasMeter}.
Variable k : EvmModule.

(** The gas refunded, and the least gas charged for a limit. *)
Definition refunded (counter used quotient : Z) : Z := Z.min counter (used / quotient).
Definition minimum_gas (gas : Z) : Z := gas * raw (k_minGasMultiplier k) / dec_one.

Lemma GasToRefund_min counter used quotient :
  GasToRefund counter used quotient = refunded counter used quotient.
Proof. unfold GasToRefund, refunded. destruct (_ <? _) eqn:E; lia. Qed.

Lemma refunded_bounds counter used quotient :
  0 <= counter → 0 <= used → 0 < quotient → 0 <= refunded counter used quotient <= used.
Proof.
  intros Hc Hu Hq. unfold refunded. pose proof (Z.div_pos used quotient Hu Hq).
  pose proof (Z.div_le_upper_bound used quotient used Hq). nia.
Qed.

Lemma minimum_gas_bounds gas :
  0 <= gas → 0 <= raw (k_minGasMultiplier k) <= dec_one → 0 <= minimum_gas gas <= gas.
Proof.
  intros Hg Hm. unfold minimum_gas, dec_one in *. split; [apply Z.div_pos; nia|].
  apply Z.div_le_upper_bound; nia.
Qed.

Lemma quot_dec_one z : 0 <= z → Z.quot z dec_one = z / dec_one.
Proof. intros. apply Z.quot_div_nonneg; [done|]. unfold dec_one. lia. Qed.

Lemma max_div a b : Z.max a (b * dec_one) / dec_one = Z.max (a / dec_one) b.
Proof.
  assert (0 < dec_one) as Hd by (unfold dec_one; lia).
  destruct (Z.max_spec a (b * dec_one)) as [[Hlt ->]|[Hle ->]].
  - rewrite Z.div_mul by lia. pose proof (Z.div_lt_upper_bound a dec_one b Hd). lia.
  - pose proof (Z.div_le_lower_bound a dec_one b Hd). lia.
Qed.

Lemma TruncateInt_small a : 0 <= raw a → raw a < 2 ^ 128 → dec_TruncateInt a = Ok (raw a / dec_one).
Proof.
  intros Hz0 Hz1. destruct (TruncateInt_fits a) as [n Hn].
  - unfold dec_fits. pose proof (Z.div_pos (raw a) dec_one Hz0 ltac:(unfold dec_one; lia)).
    pose proof (Z.div_le_upper_bound (raw a) dec_one (raw a) ltac:(unfold dec_one; lia)).
    unfold dec_one in *. nia.
  - rewrite Hn. apply TruncateInt_inv in Hn. by rewrite Hn, quot_dec_one.
Qed.

Lemma charged_gas_spec gas leftover used :
  0 <= gas < 2 ^ 63 → 0 <= used <= gas → leftover <= gas →
  0 <= raw (k_minGasMultiplier k) <= dec_one →
  charged_gas k gas leftover used = Ok (Z.max (minimum_gas gas) used).
Proof.
  intros Hg Hu Hl Hm. unfold charged_gas.
  rewrite !i64_small by (unfold in_i64; lia).
  set (m := k_minGasMultiplier k) in *. set (lim := LegacyNewDec gas).
  assert (raw lim = gas * dec_one) as Hlim by apply raw_FromInt.
  assert (dec_fits (raw lim * raw m / dec_one)) as Hfit.
  { rewrite Hlim. replace (gas * dec_one * raw m) with (gas * raw m * dec_one) by lia.
    rewrite Z.div_mul by (unfold dec_one; lia). unfold dec_fits, dec_one in *. nia. }
  destruct (Mul_fits lim m Hfit) as [p Hp]. rewrite Hp.
  assert (raw p = gas * raw m) as Hraw.
  { apply Mul_inv in Hp. rewrite Hlim in Hp.
    replace (gas * dec_one * raw m) with (gas * raw m * dec_one) in Hp by lia.
    by apply rounds_exact in Hp; [|unfold dec_one; lia]. }
  assert (0 <= raw p < 2 ^ 128) as Hpr by (rewrite Hraw; unfold dec_one in *; nia).
  cbn [run]. rewrite Ok_bind, (TruncateInt_small p) by lia. cbn [run]. rewrite Ok_bind.
  pose proof (minimum_gas_bounds gas ltac:(lia) Hm) as Hmin.
  assert (raw p / dec_one = minimum_gas gas) as Hdiv by (by rewrite Hraw).
  rewrite Hdiv, bool_decide_true by (unfold in_u64; lia).
  rewrite (proj2 (Z.ltb_ge gas leftover)) by lia.
  assert (raw (LegacyMaxDec p (LegacyNewDec used)) = Z.max (raw p) (used * dec_one)) as Hmax
    by (rewrite raw_Max; unfold LegacyNewDec; by rewrite raw_FromInt).
  rewrite TruncateInt_small by (rewrite Hmax; unfold dec_one in *; lia).
  rewrite Hmax, max_div, Hdiv. cbn [run]. rewrite Ok_bind, bool_decide_true; [done|].
  unfold in_u64. lia.
Qed.

Lemma charged_gas_u64 gas leftover used g : charged_gas k gas leftover used = Ok g → in_u64 g.
Proof.
  unfold charged_gas. intros Hc. do 2 (apply bind_Ok_inv in Hc as (? & _ & Hc)).
  case_guards Hc. apply bind_Ok_inv in Hc as (? & _ & Hc). case_guards Hc. simplify_eq.
  by eapply bool_decide_eq_true.
Qed.

(** C4.  The gas a message is charged.  When the message passes the guards and the
    machine returns with [x], having left no more than the gas limit, the gas used is
    the gas the machine consumed, less the refund, which is the counter of the state
    database but no more than the consumed gas over the quotient of the fork; it is
    never less than the share of the gas limit that the fee market asks for, and
    never more than the gas limit, so that the arithmetic does not overflow. *)
Theorem message_gas_charged msg commit cfg txConfig s pre intrinsic x :
  check_enabled msg cfg = Ok () → custom_precompiles k msg cfg = Ok pre →
  GetEthIntrinsicGas msg cfg (bool_decide (m_To msg = None)) = Some intrinsic →
  intrinsic <= m_Gas msg → 0 <= m_Gas msg < 2 ^ 63 →
  prepare_and_execute k msg cfg txConfig pre (m_Gas msg - intrinsic) s = Ok x →
  0 <= x_leftoverGas x <= m_Gas msg → 0 <= sdb_refund (x_stateDB x) →
  0 < refund_quotient k cfg → 0 <= raw (k_minGasMultiplier k) <= dec_one →
  let used := m_Gas msg - x_leftoverGas x in
  let net := used - Z.min (sdb_refund (x_stateDB x)) (used / refund_quotient k cfg) in
  let gasUsed := Z.max (m_Gas msg * raw (k_minGasMultiplier k) / dec_one) net in
  ApplyMessageWithConfig k msg commit cfg txConfig s =
    (s' ← (if commit then of_evm (Commit (x_store x) (x_stateDB x)) else Ok (x_store x));
     Ok (mkResponse gasUsed (default EmptyString (x_vmErr x)) (x_ret x) (sdb_logs (x_stateDB x))
           (cfg_TxHash txConfig), s')) ∧
  gasUsed <= m_Gas msg.
Proof.
  intros Hen Hpre Hig Hle Hgas Hx Hl Hr Hq Hm used net gasUsed.
  pose proof (refunded_bounds (sdb_refund (x_stateDB x)) used (refund_quotient k cfg) Hr ltac:(lia) Hq) as Hrb.
  unfold refunded in Hrb. fold net in Hrb.
  pose proof (minimum_gas_bounds (m_Gas msg) ltac:(lia) Hm) as Hmb. unfold minimum_gas in Hmb.
  split; [|lia]. unfold ApplyMessageWithConfig.
  rewrite Hen, Ok_bind, Hpre, Ok_bind, Hig, (proj2 (Z.ltb_ge _ intrinsic)) by lia.
  rewrite Hx. cbn [run]. rewrite Ok_bind, (proj2 (Z.ltb_ge _ (x_leftoverGas x))) by lia.
  rewrite GasToRefund_min. unfold refunded. fold used. fold net.
  rewrite charged_gas_spec; [done|lia|lia| |done].
  rewrite u64_small by (unfold in_u64; lia). lia.
Qed.

End Gas.

(** ** What a failed transaction leaves behind *)

Section Failure.
Context `{CL : CoinsLaws} `{EE : !EvmEnv} `{GE : Geth} `{LD : LegacyDec} `{DL : !DecLaws} `{GM : GasMeter}.
Variable k : EvmModule.

(** What the machine returns is unsigned, and the refund quotients are not zero. *)
Record vm_laws : Prop := {
  law_Call msg cfg pre to gas sdb s x :
    vm_Call (k_vm k) msg cfg pre to gas sdb s = Ok x → 0 <= x_leftoverGas x ∧ 0 <= sdb_refund (x_stateDB x);
  law_Create msg cfg pre gas sdb s x :
    vm_Create (k_vm k) msg cfg pre gas sdb s = Ok x → 0 <= x_leftoverGas x ∧ 0 <= sdb_refund (x_stateDB x);
  law_quotients : 0 < vm_RefundQuotient (k_vm k) ∧ 0 < vm_RefundQuotientEIP3529 (k_vm k)
}.

(** Fees go to the fee collector and come back from it. *)
Record fee_laws (collector : Address) : Prop := {
  law_DeductFees c a cs c' :
    fb_DeductFees (k_fees k) c a cs = Ok c' → transferred a collector cs c c' ∧ same_accounts c c';
  law_Refund c a cs c' :
    is_Some (auth_GetAccount c a) → fb_RefundToAccount (k_fees k) c a cs = Ok c' →
    transferred collector a cs c c' ∧ same_accounts c c'
}.

Lemma SetNonce_refund keccak (c : evm_store) a n sdb :
  sdb_refund (StateDB.SetNonce keccak c a n sdb) = sdb_refund sdb.
Proof.
  unfold StateDB.SetNonce, getOrNewStateObject, createObject, getStateObject.
  repeat (case_match; simplify_eq/=; try done).
Qed.

Lemma execution_sound msg cfg txConfig pre gas s x :
  vm_laws → prepare_and_execute k msg cfg txConfig pre gas s = Ok x →
  0 <= x_leftoverGas x ∧ 0 <= sdb_refund (x_stateDB x).
Proof.
  intros HL Hx. unfold prepare_and_execute in Hx. apply bind_Ok_inv in Hx as (sdb & _ & Hx).
  unfold execute in Hx. destruct (m_To msg) as [to|].
  - by eapply law_Call in Hx.
  - apply bind_Ok_inv in Hx as (y & Hy & Hx). simplify_eq. cbn [x_leftoverGas x_stateDB].
    rewrite SetNonce_refund. by eapply law_Create in Hy.
Qed.

Lemma run_inv {A} (x : partial A) (a : A) : run x = Ok a → x = Ok a.
Proof. destruct x as [|[]|]; cbn; congruence. Qed.

Lemma ApplyMessage_gas msg commit cfg txConfig s res s' :
  vm_laws → 0 <= m_Gas msg < 2 ^ 63 → 0 <= raw (k_minGasMultiplier k) <= dec_one →
  ApplyMessageWithConfig k msg commit cfg txConfig s = Ok (res, s') → 0 <= res_GasUsed res <= m_Gas msg.
Proof.
  intros HL Hgas Hm Ha. unfold ApplyMessageWithConfig in Ha.
  apply bind_Ok_inv in Ha as (_ & _ & Ha). apply bind_Ok_inv in Ha as (pre & _ & Ha).
  destruct (GetEthIntrinsicGas _ _ _) as [ig|]; [|done]. destruct (m_Gas msg <? ig); [done|].
  apply bind_Ok_inv in Ha as (x & Hx%run_inv & Ha).
  destruct (Z.ltb_spec (m_Gas msg) (x_leftoverGas x)) as [|Hle]; [done|].
  apply bind_Ok_inv in Ha as (s1 & _ & Ha). apply bind_Ok_inv in Ha as (g & Hg & Ha). simplify_eq.
  destruct (execution_sound _ _ _ _ _ _ _ HL Hx) as [Hl Hr].
  destruct (law_quotients HL) as [Hq1 Hq2].
  assert (0 < refund_quotient k cfg) as Hq by (unfold refund_quotient; by case_match).
  pose proof (refunded_bounds (sdb_refund (x_stateDB x)) (m_Gas msg - x_leftoverGas x) _ Hr ltac:(lia) Hq) as Hrb.
  rewrite GasToRefund_min, charged_gas_spec in Hg; [|lia|lia|rewrite u64_small by (unfold in_u64; lia); lia|done].
  pose proof (minimum_gas_bounds k (m_Gas msg) ltac:(lia) Hm). simplify_eq. cbn [res_GasUsed]. lia.
Qed.

Lemma post_process_failed hook msg rc res s tmp res' rc' s' :
  k_hooks k = Some hook → post_process k msg rc res s tmp = Ok (res', rc', s') → Failed res' = true →
  s' = s ∧ res_GasUsed res' = res_GasUsed res.
Proof.
  intros Hh Hp Hf. unfold post_process, PostTxProcessing in Hp. rewrite Hh in Hp.
  destruct (Failed res) eqn:Hres; [by simplify_eq|].
  destruct (hook _ _ _) as [rc1 [s1|e|]]; simplify_eq; [|done].
  unfold Failed in *. cbn [res_VmError] in Hf. congruence.
Qed.

Lemma RefundGas_spec collector msg leftover s s' :
  fee_laws collector → 0 <= leftover * m_GasPrice msg → is_Some (auth_GetAccount (ek_chain s) (m_From msg)) →
  RefundGas k msg leftover s = Ok s' →
  ek_storage s' = ek_storage s ∧ ek_code s' = ek_code s ∧ same_accounts (ek_chain s) (ek_chain s') ∧
  ∀ a d, bank_GetBalance (ek_chain s') a d = bank_GetBalance (ek_chain s) a d +
    (if decide (d = EvmDenom) then
       (if decide (a = m_From msg) then leftover * m_GasPrice msg else 0) -
       (if decide (a = collector) then leftover * m_GasPrice msg else 0)
     else 0).
Proof.
  intros HF Hpos Hacc Hr. unfold RefundGas in Hr. set (rem := leftover * m_GasPrice msg) in *.
  destruct (rem <? 0); [done|]. destruct (Z.ltb_spec 0 rem).
  - unfold NewIntFromBigInt in Hr. destruct (IsValidInt256 _); [|done].
    destruct (fb_RefundToAccount _ _ _ _) as [c| |] eqn:Hc; simplify_eq.
    destruct (law_Refund _ HF _ _ _ _ Hacc Hc) as [[Hb Hs] Ha]. split_and!; try done.
    intros a d. cbn [ek_chain set_chain]. rewrite Hb, AmountOf_NewCoin by lia.
    repeat case_decide; subst; try done; lia.
  - simplify_eq. split_and!; try done. intros a d. repeat case_decide; lia.
Qed.

Lemma settle_failed hook ctx tx msg txConfig res tmp res' ctx' :
  k_hooks k = Some hook → settle k ctx tx msg txConfig res tmp = Ok (res', ctx') → Failed res' = true →
  res_GasUsed res' = res_GasUsed res ∧
  RefundGas k msg (u64 (m_Gas msg - res_GasUsed res)) (ctx_store ctx) = Ok (ctx_store ctx').
Proof.
  intros Hh Hs Hf. unfold settle in Hs. apply bind_Ok_inv in Hs as ([[res1 rc] s1] & Hp%run_inv & Hs).
  apply bind_Ok_inv in Hs as (s2 & Hr & Hs). case_match.
  apply bind_Ok_inv in Hs as (tot & _ & Hs). apply bind_Ok_inv in Hs as (m & _ & Hs). simplify_eq.
  destruct (post_process_failed _ _ _ _ _ _ _ _ _ Hh Hp Hf) as [-> Hg]. by rewrite Hg in Hr.
Qed.

(** A transaction that fails, in the machine or in the hooks, leaves contract storage,
    code, nonces and accounts as it found them, and of the balances only two change:
    the sender gets back from the fee collector what the unused gas costs. *)
Lemma failed_tx_refunds collector hook ctx tx msg res ctx' :
  vm_laws → fee_laws collector → k_hooks k = Some hook →
  0 <= raw (k_minGasMultiplier k) <= dec_one →
  vm_AsMessage (k_vm k) tx (ec_BaseFee (k_config k)) = Some msg →
  0 <= m_Gas msg < 2 ^ 63 → 0 <= m_GasPrice msg →
  is_Some (auth_GetAccount (ek_chain (ctx_store ctx)) (m_From msg)) →
  ApplyTransaction k ctx tx = TxOk res ctx' → Failed res = true →
  let s := ctx_store ctx in
  let s' := ctx_store ctx' in
  let back := (m_Gas msg - res_GasUsed res) * m_GasPrice msg in
  ek_storage s' = ek_storage s ∧ ek_code s' = ek_code s ∧ same_accounts (ek_chain s) (ek_chain s') ∧
  0 <= res_GasUsed res <= m_Gas msg ∧
  ∀ a d, bank_GetBalance (ek_chain s') a d = bank_GetBalance (ek_chain s) a d +
    (if decide (d = EvmDenom) then
       (if decide (a = m_From msg) then back else 0) - (if decide (a = collector) then back else 0)
     else 0).
Proof.
  intros HL HF Hh Hm Hmsg Hgas Hprice Hacc Ha Hfail s s' back.
  unfold ApplyTransaction in Ha. rewrite Hmsg in Ha.
  destruct (ApplyMessageWithConfig _ _ _ _ _ _) as [[res0 tmp]| |] eqn:Hap; [|by case_match|done].
  destruct (settle _ _ _ _ _ _ _) as [[res1 ctx1]| |] eqn:Hs; simplify_eq/=.
  destruct (settle_failed _ _ _ _ _ _ _ _ _ Hh Hs Hfail) as [Hg Hr].
  pose proof (ApplyMessage_gas _ _ _ _ _ _ _ HL Hgas Hm Hap) as Hle.
  rewrite u64_small in Hr by (unfold in_u64; lia).
  assert (0 <= (m_Gas msg - res_GasUsed res0) * m_GasPrice msg) as Hrem by (apply Z.mul_nonneg_nonneg; lia).
  destruct (RefundGas_spec _ _ _ _ _ HF Hrem Hacc Hr) as (Hst' & Hco' & Hsa' & Hbal').
  unfold s', back. rewrite Hg. split_and!; try done; lia.
Qed.

End Failure.

(** ** Several transactions in one *)

Section Batch.
Context `{EE : EvmEnv} `{GE : Geth} `{LD : LegacyDec} `{GM : GasMeter} `{GML : !GasMeterLaws}.
Variable k : EvmModule.

(** The Ethereum messages of one Cosmos transaction, in order. *)
Fixpoint apply_all (ctx : evm_ctx) (txs : list eth_tx) : option (list MsgEthereumTxResponse * evm_ctx) :=
  match txs with
  | [] => Some ([], ctx)
  | tx :: txs =>
      match ApplyTransaction k ctx tx with
      | TxOk res ctx => '(l, ctx) ← apply_all ctx txs; Some (res :: l, ctx)
      | _ => None
      end
  end.

Definition total_gas (l : list MsgEthereumTxResponse) : Z := foldr (λ r n, res_GasUsed r + n) 0 l.

Lemma post_process_gas msg rc res s tmp res' rc' s' :
  post_process k msg rc res s tmp = Ok (res', rc', s') → res_GasUsed res' = res_GasUsed res.
Proof.
  unfold post_process. destruct (Failed res); [by intros [= <- _ _]|].
  destruct (PostTxProcessing _ _ _ _) as [rc1 [s1|e|]]; intros; simplify_eq; [|done].
  by destruct (k_hooks k).
Qed.

Lemma ApplyTransaction_gas ctx tx res ctx' :
  ApplyTransaction k ctx tx = TxOk res ctx' → in_u64 (ctx_gasUsed ctx) →
  0 <= res_GasUsed res ∧ in_u64 (ctx_gasUsed ctx') ∧
  ctx_gasUsed ctx' = ctx_gasUsed ctx + res_GasUsed res ∧
  GasConsumed (ctx_meter ctx') = ctx_gasUsed ctx' ∧ ctx_txIndex ctx' = u64 (ctx_txIndex ctx + 1).
Proof.
  unfold ApplyTransaction. intros Ha Hu. destruct (vm_AsMessage _ _ _) as [msg|]; [|done].
  destruct (ApplyMessageWithConfig _ _ _ _ _ _) as [[res0 tmp]| |] eqn:Hap; [|by case_match|done].
  destruct (settle _ _ _ _ _ _ _) as [[res1 ctx1]| |] eqn:Hs; simplify_eq/=.
  assert (in_u64 (res_GasUsed res0)) as Hres.
  { unfold ApplyMessageWithConfig in Hap. do 2 (apply bind_Ok_inv in Hap as (? & _ & Hap)).
    case_guards Hap. apply bind_Ok_inv in Hap as (? & _ & Hap). case_guards Hap.
    apply bind_Ok_inv in Hap as (? & _ & Hap). apply bind_Ok_inv in Hap as (g & Hcg & Hap).
    simplify_eq. by eapply charged_gas_u64. }
  unfold settle in Hs. apply bind_Ok_inv in Hs as ([[res2 rc] s1] & Hp%run_inv & Hs).
  apply bind_Ok_inv in Hs as (s2 & _ & Hs). case_match.
  apply bind_Ok_inv in Hs as (tot & Htot & Hs). apply bind_Ok_inv in Hs as (m & Hm%run_inv & Hs).
  simplify_eq. cbn [ctx_gasUsed ctx_meter ctx_txIndex TxConfig_of cfg_TxIndex].
  apply post_process_gas in Hp. rewrite <-Hp in Hres.
  unfold AddTransientGasUsed in Htot. case_guards Htot. simplify_eq.
  assert (ctx_gasUsed ctx + res_GasUsed res < 2 ^ 64) as Hno.
  { pose proof (u64_add_overflow _ _ Hu Hres). lia. }
  unfold in_u64 in *. rewrite u64_small in * by (unfold in_u64; lia).
  unfold ResetGasMeterAndConsumeGas in Hm. apply bind_Ok_inv in Hm as (m1 & Hm1 & Hm2).
  apply RefundGas_consumed in Hm1. apply ConsumeGas_consumed in Hm2. split_and!; try lia; done.
Qed.

Lemma apply_all_gas ctx txs l ctx' :
  apply_all ctx txs = Some (l, ctx') → in_u64 (ctx_gasUsed ctx) →
  length l = length txs ∧ in_u64 (ctx_gasUsed ctx') ∧ ctx_gasUsed ctx' = ctx_gasUsed ctx + total_gas l ∧
  (txs ≠ [] → GasConsumed (ctx_meter ctx') = ctx_gasUsed ctx') ∧
  ctx_txIndex ctx' = foldr (λ _ n, u64 (n + 1)) (ctx_txIndex ctx) txs.
Proof.
  revert ctx l. induction txs as [|tx txs IH]; intros ctx l Hall Hu; cbn [apply_all] in Hall.
  { simplify_eq. cbn. split_and!; try done; lia. }
  destruct (ApplyTransaction k ctx tx) as [res ctx1| |] eqn:Ha; [|done|done].
  destruct (apply_all ctx1 txs) as [[l1 ctx2]|] eqn:Hrest; [|done]. cbn in Hall. simplify_eq.
  destruct (ApplyTransaction_gas _ _ _ _ Ha Hu) as (_ & Hu1 & Hg1 & Hm1 & Hi1).
  destruct (IH _ _ Hrest Hu1) as (Hl & Hu2 & Hg2 & Hm2 & Hi2).
  cbn [length total_gas foldr]. split_and!; [lia|done|unfold total_gas in *; lia| |].
  - intros _. destruct txs; [|by apply Hm2]. cbn in Hrest. by simplify_eq.
  - rewrite Hi2, Hi1. clear. induction txs as [|t txs IHt]; [done|]. cbn. by rewrite IHt.
Qed.

(** The gas of a Cosmos transaction is that of its Ethereum messages.  When all
    of them succeed, started with the transient counter at zero, the counter and the
    gas meter of the transaction show the sum of the gas used of the responses,
    without overflow, whatever the stores consumed meanwhile, and the transaction
    index has moved by one for each message. *)
Theorem gas_meter_totals ctx txs l ctx' :
  apply_all ctx txs = Some (l, ctx') → txs ≠ [] → ctx_gasUsed ctx = 0 →
  length l = length txs ∧ total_gas l < 2 ^ 64 ∧
  ctx_gasUsed ctx' = total_gas l ∧ GasConsumed (ctx_meter ctx') = total_gas l ∧
  (ctx_txIndex ctx + Z.of_nat (length txs) < 2 ^ 64 → 0 <= ctx_txIndex ctx →
     ctx_txIndex ctx' = ctx_txIndex ctx + Z.of_nat (length txs)).
Proof.
  intros Hall Hne H00. destruct (apply_all_gas _ _ _ _ Hall) as (Hl & Hu & Hg & Hm & Hi).
  { rewrite H00. unfold in_u64. lia. }
  rewrite H00 in Hg. unfold in_u64 in Hu. rewrite (Hm Hne), Hi. split_and!; try lia; try done.
  clear. induction txs as [|t txs IH]; cbn [foldr length]; [lia|]. intros Hlt H0x.
  rewrite IH by lia. rewrite u64_small by (unfold in_u64; lia). lia.
Qed.

End Batch.

(** ** Witnesses *)

Module ApplyToy.
Import MapCoins MapBank EvmToy ZDec GethToy.

(** A machine that pays the recipient, uses 5000 gas, leaves a refund counter of 3000
    and reverts when there is data. *)
Definition toy_run (msg : Message) (gas : Z) (to : Address) (sdb : StateDB) (s : evm_store) : execution :=
  let failed := negb (bool_decide (m_Data msg = [])) in
  let moved := StateDB.AddBalance toy_keccak s to (m_Value msg)
                 (StateDB.SubBalance toy_keccak s (m_From msg) (m_Value msg) sdb) in
  mkExecution [] (Z.max 0 (gas - 5000)) (if failed then Some "execution reverted"%string else None)
    (set_refund 3000 (if failed then sdb else moved)) s.

Definition toy_message (tx : eth_tx) (baseFee : option Z) : option Message :=
  match tx with
  | EthLegacyTx c (Some p) =>
      Some (mkMessage 7 (eth_To c) (eth_Nonce c) (default 0 (eth_Value c)) (eth_Gas c) p p (eth_Data c) [])
  | _ => None
  end.

(** A hash that agrees with the code hash of accounts without code. *)
Definition evm_keccak (bz : list byte) : Hash := match bz with [] => 99 | _ => toy_keccak bz end.

Definition toy_vm : Vm := {|
  vm_ActivePrecompiles _ pre := default [] pre;
  vm_PrecompiledAddressesBerlin := [1; 2];
  vm_Call msg _ _ to gas sdb s := Ok (toy_run msg gas to sdb s);
  vm_Create msg _ _ gas sdb s := Ok (toy_run msg gas 8 sdb s);
  vm_RefundQuotient := 2;
  vm_RefundQuotientEIP3529 := 5;
  vm_keccak := evm_keccak;
  vm_CreateAddress a n := a + n;
  vm_LogsBloom _ := 0;
  vm_AsMessage := toy_message
|}.

(** The fee collector is at address 3. *)
Definition toy_fees : FeeBank := {|
  fb_GetSignerAcc c a := bool_decide (is_Some (toy_get c a));
  fb_DeductFees c a cs := with_bank c (bank_send (tc_bank c) a 3 cs);
  fb_RefundToAccount c a cs := with_bank c (bank_send (tc_bank c) 3 a cs)
|}.

Definition toy_cfg : EVMConfig := mkEVMConfig (mkEvmParams true true []) (mkRules true true true true) (Some 10).

Definition toy_module : EvmModule :=
  mkEvmModule toy_vm [1; 2] (Some (λ _ r s, (r, Ok s))) toy_fees toy_cfg (LegacyNewDecWithPrec 50 2) 11.

Lemma toy_vm_laws : vm_laws toy_module.
Proof.
  split; [intros until x; cbn; intros [= <-]; cbn; lia..|done].
Qed.

Lemma toy_fee_laws : fee_laws toy_module 3.
Proof.
  split.
  - intros c a cs c'. apply toy_sent.
  - intros c a cs c' _. apply toy_sent.
Qed.

Definition rich_store : evm_store :=
  mkEvmStore (mkToyChain 0 {[ 7 := (Some 99, 3) ]}
    (mkBank {[ "aego"%string := 1000000 ]} {[ 7 := {[ "aego"%string := 1000000 ]} ]})) ∅ ∅.

(** A call with the given data, of 30000 gas at price 12. *)
Definition call_tx (data : list byte) : eth_tx :=
  EthLegacyTx (mkEthCommon 3 30000 (Some 8) (Some 100) data (Some 10911) (Some 1) (Some 1)) (Some 12).

Definition call_msg (data : list byte) : Message := mkMessage 7 (Some 8) 3 100 30000 12 12 data [].

Definition toy_ctx (s : evm_store) : evm_ctx := mkCtx s 0 0 0 0 (mkInfiniteMeter 777 30000) None.

Definition toy_run_result : execution :=
  toy_run (call_msg []) 9000 8
    (match PrepareAccessList 7 (Some 8) [] [] (New toy_config) with Ok s => s | _ => New toy_config end)
    rich_store.

(** 26000 of the 30000 gas is used, 3000 of it is refunded. *)
Lemma message_gas_charged_witness :
  match ApplyMessageWithConfig toy_module (call_msg []) true toy_cfg toy_config rich_store with
  | Ok (res, _) => res_GasUsed res = 23000
  | _ => False
  end.
Proof.
  destruct (message_gas_charged toy_module (call_msg []) true toy_cfg toy_config rich_store None 21000
    toy_run_result) as [-> _];
    [reflexivity|reflexivity|reflexivity|cbn; lia|cbn; lia|reflexivity|cbn; lia|cbn; lia|cbn; lia
    |split; vm_compute; discriminate|].
  assert (is_Ok (Commit (x_store toy_run_result) (x_stateDB toy_run_result)) = true) as Hok
    by (vm_compute; reflexivity).
  destruct (Commit _ _) as [s'| |]; [|discriminate Hok..]. vm_compute. reflexivity.
Defined.

Definition paid_ctx : evm_ctx :=
  toy_ctx (match DeductTxCostsFromUserBalance toy_module (NewCoin EvmDenom 360000) 7 rich_store with
           | Ok s => s | _ => rich_store end).

(** Two calls in one transaction, whose stores had consumed 777 gas before. *)
Lemma gas_meter_totals_witness :
  match apply_all toy_module paid_ctx [call_tx [1]; call_tx [1]] with
  | Some (l, ctx') => GasConsumed (ctx_meter ctx') = total_gas l ∧ total_gas l = 46000
  | None => False
  end.
Proof.
  assert (match apply_all toy_module paid_ctx [call_tx [1]; call_tx [1]] with
          | Some (l, _) => total_gas l =? 46000 | None => false end = true) as Hok by (vm_compute; reflexivity).
  destruct (apply_all _ _ _) as [[l ctx']|] eqn:Ha; [|discriminate Hok].
  destruct (gas_meter_totals toy_module paid_ctx _ l ctx' Ha) as (_ & _ & _ & Hm & _); [done|reflexivity|].
  split; [exact Hm|by apply Z.eqb_eq].
Defined.

End ApplyToy.
