(* ===== verification/EvmParams.v ===== *)
(** * Parameters of the EVM module: [x/evm/types], [x/evm/keeper]

    The parameters with their validation ([types/params.go]), the chain configuration
    ([types/chain_config.go]), and the operations of the keeper on the stored
    parameters and on the table of precompiles ([keeper/params.go],
    [keeper/precompiles.go], [UpdateParams] of [msg_server.go]).  Denominations and
    channel identifiers are validated by the SDK and ibc-go, EIPs and the order of
    the forks by go-ethereum: the fields of [params_env].  The table of precompiles
    is kept in memory, the parameters in the store; a precompile is its address. *)

From stdpp Require Import sorting strings.
From S2P Require Import Prelude.
From S2P Require Import EvmTx.
From S2P Require Import EvmApply.

(** ** Loops that keep a set of the keys they have seen *)

Section Unique.
Context {A K E : Type} `{EqDecision K}.

(** [body dup x] is the body of the loop at [x], where [dup] tells that the key of
    [x] was seen before. *)
Fixpoint each_unique (key : A → K) (body : bool → A → outcome E ()) (seen : list K) (l : list A) :
    outcome E () :=
  match l with
  | [] => Ok ()
  | x :: l => _ ← body (bool_decide (key x ∈ seen)) x; each_unique key body (key x :: seen) l
  end.

Variables (key : A → K) (body : bool → A → outcome E ()).

(** An error is that of the first element that fails. *)
Lemma each_unique_Err seen l e :
  each_unique key body seen l = Err e →
  ∃ l1 x l2, l = l1 ++ x :: l2 ∧ each_unique key body seen l1 = Ok () ∧
    body (bool_decide (key x ∈ (key <$> l1) ++ seen)) x = Err e.
Proof.
  revert seen. induction l as [|x l IH]; intros seen; cbn [each_unique]; [done|].
  destruct (body (bool_decide (key x ∈ seen)) x) as [[]|e'|] eqn:Hb; cbn; intros He; [|simplify_eq|done].
  - destruct (IH _ He) as (l1 & y & l2 & -> & Hl1 & Hy). exists (x :: l1), y, l2.
    cbn [each_unique]. rewrite Hb. split_and!; [done|done|]. rewrite <-Hy. f_equal.
    apply bool_decide_ext. rewrite fmap_cons. set_solver.
  - exists [], x, l. done.
Qed.

Lemma each_unique_total seen l : (∀ dup x, body dup x ≠ Panic) → each_unique key body seen l ≠ Panic.
Proof.
  intros Hb. revert seen. induction l as [|x l IH]; intros seen; cbn [each_unique]; [done|].
  destruct (body _ x) as [[]|e|] eqn:Hx; cbn; [apply IH|done|by apply Hb in Hx].
Qed.
Variable good : A → Prop.
Hypothesis body_Ok : ∀ dup x, body dup x = Ok () ↔ dup = false ∧ good x.

Lemma each_unique_Ok seen l :
  each_unique key body seen l = Ok () ↔
  NoDup (key <$> l) ∧ (∀ x, x ∈ l → key x ∉ seen) ∧ Forall good l.
Proof using body_Ok.
  revert seen. induction l as [|x l IH]; intros seen; cbn [each_unique fmap list_fmap].
  { split; [|done]. intros _. repeat split; [constructor|set_solver|constructor]. }
  rewrite NoDup_cons, Forall_cons, list_elem_of_fmap. split.
  - intros H. apply bind_Ok_inv in H as ([] & [Hd Hg]%body_Ok & H).
    apply bool_decide_eq_false in Hd. apply IH in H as (Hn & Hs & Hf).
    split_and!; [|done| |done|done].
    + intros (y & Hk & Hy). specialize (Hs y Hy). set_solver.
    + intros y [->|Hy]%elem_of_cons; [done|]. specialize (Hs y Hy). set_solver.
  - intros ([Hx Hn] & Hs & Hg & Hf).
    rewrite (proj2 (body_Ok _ x)); [|split; [apply bool_decide_eq_false, Hs; set_solver|done]].
    apply IH. split_and!; [done| |done]. intros y Hy [Hk|Hk]%elem_of_cons; [|set_solver].
    apply Hx. by exists y.
Qed.

Lemma each_unique_nil_Ok l : each_unique key body [] l = Ok () ↔ NoDup (key <$> l) ∧ Forall good l.
Proof using body_Ok. rewrite each_unique_Ok. set_solver. Qed.
End Unique.

(** ** Data *)

(** [types.ChainConfig]: a fork is a block, nil if it is not applied. *)
Record ChainConfig := mkChainConfig {
  HomesteadBlock : option Z;
  DAOForkBlock : option Z;
  DAOForkSupport : bool;
  EIP150Block : option Z;
  EIP150Hash : string;
  EIP155Block : option Z;
  EIP158Block : option Z;
  ByzantiumBlock : option Z;
  ConstantinopleBlock : option Z;
  PetersburgBlock : option Z;
  IstanbulBlock : option Z;
  MuirGlacierBlock : option Z;
  BerlinBlock : option Z;
  LondonBlock : option Z;
  ArrowGlacierBlock : option Z;
  GrayGlacierBlock : option Z;
  MergeNetsplitBlock : option Z;
  ShanghaiBlock : option Z;
  CancunBlock : option Z
}.

(** The fields of go-ethereum's [params.ChainConfig] that the module sets. *)
Record eth_config := mkEthConfig {
  g_ChainID : option Z;
  g_HomesteadBlock : option Z;
  g_DAOForkBlock : option Z;
  g_DAOForkSupport : bool;
  g_EIP150Block : option Z;
  g_EIP150Hash : Hash;
  g_EIP155Block : option Z;
  g_EIP158Block : option Z;
  g_ByzantiumBlock : option Z;
  g_ConstantinopleBlock : option Z;
  g_PetersburgBlock : option Z;
  g_IstanbulBlock : option Z;
  g_MuirGlacierBlock : option Z;
  g_BerlinBlock : option Z;
  g_LondonBlock : option Z;
  g_ArrowGlacierBlock : option Z;
  g_GrayGlacierBlock : option Z;
  g_MergeNetsplitBlock : option Z;
  g_ShanghaiBlock : option Z;
  g_CancunBlock : option Z
}.

Record Params := mkParams {
  p_EvmDenom : string;
  p_EnableCreate : bool;
  p_EnableCall : bool;
  p_ExtraEIPs : list Z;
  p_ChainConfig : ChainConfig;
  p_AllowUnprotectedTxs : bool;
  p_ActivePrecompiles : list string;
  p_EVMChannels : list string
}.

(** What the libraries decide: [sdk.ValidateDenom], [vm.ValidEip],
    [host.ChannelIdentifierValidator] and [CheckConfigForkOrder]. *)
Record params_env := mkParamsEnv {
  pe_ValidateDenom : string → bool;
  pe_ValidEip : Z → bool;
  pe_ChannelIdentifierValidator : string → bool;
  pe_CheckConfigForkOrder : eth_config → bool
}.

Inductive params_error :=
| PErrDenom (denom : string)
| PErrInvalidEIP (eip : Z)
| PErrDuplicateEIP (eip : Z)
| PErrNegativeBlock (name : string)
| PErrBlankHash
| PErrForkOrder
| PErrDuplicatePrecompile (precompile : string)
| PErrInvalidPrecompile (precompile : string)
| PErrUnsortedPrecompiles
| PErrChannel (channel : string)
| PErrAuthority
| PErrRegistered (address : Address).

Abbreviation params_result A := (outcome params_error A).

(** ** Strings and sorted slices *)

(** [strings.Compare]. *)
Definition strings_Compare (a b : string) : Z :=
  match String.compare a b with Lt => -1 | Eq => 0 | Gt => 1 end.

(** [sort.Find]: the binary search of [sort.Search] for the first index at which
    [cmp] is not positive, and whether it is zero there. *)
Definition sort_Find (n : nat) (cmp : nat → Z) : nat * bool :=
  let i := sort_Search n (λ h, cmp h <=? 0) in
  (i, bool_decide (i < n)%nat && (cmp i =? 0)).

(** [slices.IsSorted] on strings. *)
Fixpoint IsSorted (l : list string) : bool :=
  match l with
  | x :: (y :: _) as l' => bool_decide (String.le x y) && IsSorted l'
  | _ => true
  end.

(** [slices.Sort] on strings: the order is total, so the result is unique. *)
Definition slices_Sort (l : list string) : list string := merge_sort String.le l.

Section Params.
Context `{GE : Geth}.
Variable pe : params_env.

(** ** The chain configuration *)

Definition getBlockValue (block : option Z) : option Z :=
  match block with
  | Some b => if b <? 0 then None else Some b
  | None => None
  end.

Definition EthereumConfig (chainID : option Z) (cc : ChainConfig) : eth_config := {|
  g_ChainID := chainID;
  g_HomesteadBlock := getBlockValue (HomesteadBlock cc);
  g_DAOForkBlock := getBlockValue (DAOForkBlock cc);
  g_DAOForkSupport := DAOForkSupport cc;
  g_EIP150Block := getBlockValue (EIP150Block cc);
  g_EIP150Hash := HexToHash (EIP150Hash cc);
  g_EIP155Block := getBlockValue (EIP155Block cc);
  g_EIP158Block := getBlockValue (EIP158Block cc);
  g_ByzantiumBlock := getBlockValue (ByzantiumBlock cc);
  g_ConstantinopleBlock := getBlockValue (ConstantinopleBlock cc);
  g_PetersburgBlock := getBlockValue (PetersburgBlock cc);
  g_IstanbulBlock := getBlockValue (IstanbulBlock cc);
  g_MuirGlacierBlock := getBlockValue (MuirGlacierBlock cc);
  g_BerlinBlock := getBlockValue (BerlinBlock cc);
  g_LondonBlock := getBlockValue (LondonBlock cc);
  g_ArrowGlacierBlock := getBlockValue (ArrowGlacierBlock cc);
  g_GrayGlacierBlock := getBlockValue (GrayGlacierBlock cc);
  g_MergeNetsplitBlock := getBlockValue (MergeNetsplitBlock cc);
  g_ShanghaiBlock := getBlockValue (ShanghaiBlock cc);
  g_CancunBlock := getBlockValue (CancunBlock cc)
|}.

Definition DefaultChainConfig : ChainConfig := {|
  HomesteadBlock := Some 0;
  DAOForkBlock := Some 0;
  DAOForkSupport := true;
  EIP150Block := Some 0;
  EIP150Hash := Hash_Hex 0;
  EIP155Block := Some 0;
  EIP158Block := Some 0;
  ByzantiumBlock := Some 0;
  ConstantinopleBlock := Some 0;
  PetersburgBlock := Some 0;
  IstanbulBlock := Some 0;
  MuirGlacierBlock := Some 0;
  BerlinBlock := Some 0;
  LondonBlock := Some 0;
  ArrowGlacierBlock := Some 0;
  GrayGlacierBlock := Some 0;
  MergeNetsplitBlock := Some 0;
  ShanghaiBlock := Some 0;
  CancunBlock := Some 0
|}.

Definition validateHash (hex : string) : params_result () :=
  if negb (bool_decide (hex = EmptyString)) && blank hex then Err PErrBlankHash else Ok ().

(** [validateBlock], its error wrapped with the name of the field. *)
Definition validateBlock (name : string) (block : option Z) : params_result () :=
  match block with
  | None => Ok ()
  | Some b => if b <? 0 then Err (PErrNegativeBlock name) else Ok ()
  end.

Definition ChainConfig_Validate (cc : ChainConfig) : params_result () :=
  _ ← validateBlock "homesteadBlock" (HomesteadBlock cc);
  _ ← validateBlock "daoForkBlock" (DAOForkBlock cc);
  _ ← validateBlock "eip150Block" (EIP150Block cc);
  _ ← validateHash (EIP150Hash cc);
  _ ← validateBlock "eip155Block" (EIP155Block cc);
  _ ← validateBlock "eip158Block" (EIP158Block cc);
  _ ← validateBlock "byzantiumBlock" (ByzantiumBlock cc);
  _ ← validateBlock "constantinopleBlock" (ConstantinopleBlock cc);
  _ ← validateBlock "petersburgBlock" (PetersburgBlock cc);
  _ ← validateBlock "istanbulBlock" (IstanbulBlock cc);
  _ ← validateBlock "muirGlacierBlock" (MuirGlacierBlock cc);
  _ ← validateBlock "berlinBlock" (BerlinBlock cc);
  _ ← validateBlock "londonBlock" (LondonBlock cc);
  _ ← validateBlock "arrowGlacierBlock" (ArrowGlacierBlock cc);
  _ ← validateBlock "GrayGlacierBlock" (GrayGlacierBlock cc);
  _ ← validateBlock "MergeNetsplitBlock" (MergeNetsplitBlock cc);
  _ ← validateBlock "ShanghaiBlock" (ShanghaiBlock cc);
  _ ← validateBlock "CancunBlock" (CancunBlock cc);
  if pe_CheckConfigForkOrder pe (EthereumConfig None cc) then Ok () else Err PErrForkOrder.

(** ** The parameters *)

Definition DefaultEVMDenom : string := "dhives".
Definition DefaultExtraEIPs : list Z := [3855].
Definition DefaultEVMChannels : list string := ["channel-10"; "channel-31"; "channel-83"]%string.

Definition DefaultParams : Params :=
  mkParams DefaultEVMDenom true true DefaultExtraEIPs DefaultChainConfig false
    AvailableEVMExtensions DefaultEVMChannels.

Definition validateEVMDenom (denom : string) : params_result () :=
  if pe_ValidateDenom pe denom then Ok () else Err (PErrDenom denom).

Definition validateEIPs (eips : list Z) : params_result () :=
  each_unique id (λ dup eip,
    if negb (pe_ValidEip pe eip) then Err (PErrInvalidEIP eip)
    else if dup then Err (PErrDuplicateEIP eip) else Ok ()) [] eips.

Definition ValidatePrecompiles (precompiles : list string) : params_result () :=
  _ ← each_unique id (λ dup precompile,
    if dup then Err (PErrDuplicatePrecompile precompile)
    else match ValidateAddress precompile with
         | Ok () => Ok ()
         | _ => Err (PErrInvalidPrecompile precompile)
         end) [] precompiles;
  if IsSorted precompiles then Ok () else Err PErrUnsortedPrecompiles.

Fixpoint validateChannels (channels : list string) : params_result () :=
  match channels with
  | [] => Ok ()
  | channel :: channels =>
      if pe_ChannelIdentifierValidator pe channel then validateChannels channels
      else Err (PErrChannel channel)
  end.

(** [Params.Validate]; the booleans of a typed record pass [validateBool]. *)
Definition Params_Validate (p : Params) : params_result () :=
  _ ← validateEVMDenom (p_EvmDenom p);
  _ ← validateEIPs (p_ExtraEIPs p);
  _ ← ChainConfig_Validate (p_ChainConfig p);
  _ ← ValidatePrecompiles (p_ActivePrecompiles p);
  validateChannels (p_EVMChannels p).

Definition IsActivePrecompile (p : Params) (address : string) : bool :=
  snd (sort_Find (length (p_ActivePrecompiles p)) (λ i,
    strings_Compare address (p_ActivePrecompiles p !!! i))).

(** ** The keeper *)

(** The stored parameters, those of the legacy subspace, and the precompiles the
    keeper holds in memory. *)
Record params_state := mkParamsState {
  ps_params : option Params;
  ps_legacy : Params;
  ps_precompiles : gset Address
}.

Definition GetParams (s : params_state) : Params := default (ps_legacy s) (ps_params s).

Definition with_precompiles (l : list string) (p : Params) : Params :=
  mkParams (p_EvmDenom p) (p_EnableCreate p) (p_EnableCall p) (p_ExtraEIPs p) (p_ChainConfig p)
    (p_AllowUnprotectedTxs p) l (p_EVMChannels p).

Definition with_eips (l : list Z) (p : Params) : Params :=
  mkParams (p_EvmDenom p) (p_EnableCreate p) (p_EnableCall p) l (p_ChainConfig p)
    (p_AllowUnprotectedTxs p) (p_ActivePrecompiles p) (p_EVMChannels p).

Definition SetParams (p : Params) (s : params_state) : params_result params_state :=
  let p := with_precompiles (slices_Sort (p_ActivePrecompiles p)) p in
  _ ← Params_Validate p;
  Ok (mkParamsState (Some p) (ps_legacy s) (ps_precompiles s)).

Definition EnablePrecompiles (addresses : list Address) (s : params_state) : params_result params_state :=
  let p := GetParams s in
  let active := p_ActivePrecompiles p ++ map Address_Hex addresses in
  SetParams (with_precompiles (slices_Sort active) p) s.

Definition EnableEIPs (eips : list Z) (s : params_state) : params_result params_state :=
  let p := GetParams s in
  SetParams (with_eips (merge_sort Z.le (p_ExtraEIPs p ++ eips)) p) s.

Definition UpdateParams (authority from : string) (p : Params) (s : params_state) :
    params_result params_state :=
  if bool_decide (authority = from) then SetParams p s else Err PErrAuthority.

(** The addresses [AvailablePrecompiles] sets up beside those of go-ethereum. *)
Definition AvailablePrecompiles (berlin : gset Address) : gset Address :=
  berlin ∪ list_to_set (map HexToAddress [
    "0x0000000000000000000000000000000000000400";
    "0x0000000000000000000000000000000000000100";
    "0x0000000000000000000000000000000000000800";
    "0x0000000000000000000000000000000000000801";
    "0x0000000000000000000000000000000000000803";
    "0x0000000000000000000000000000000000000802";
    "0x0000000000000000000000000000000000000804";
    "0x0000000000000000000000000000000000000900";
    "0x0000000000000000000000000000000000000901" ]%string).

(** [WithPrecompiles]: a table that is set already, or an empty one, panics. *)
Definition WithPrecompiles (precompiles : gset Address) (table : option (gset Address)) :
    partial (option (gset Address)) :=
  match table with
  | Some _ => Panic
  | None => if bool_decide (precompiles = ∅) then Panic else Ok (Some precompiles)
  end.

(** The loop of [AddEVMExtensions] over the new precompiles. *)
Fixpoint register_loop (precompiles : list Address) (table : gset Address) : params_result (gset Address) :=
  match precompiles with
  | [] => Ok table
  | address :: precompiles =>
      if bool_decide (address ∈ table) then Err (PErrRegistered address)
      else register_loop precompiles ({[ address ]} ∪ table)
  end.

Definition AddEVMExtensions (precompiles : list Address) (s : params_state) : params_result params_state :=
  let p := GetParams s in
  table ← register_loop precompiles (ps_precompiles s);
  s ← SetParams (with_precompiles (p_ActivePrecompiles p ++ map Address_Hex precompiles) p) s;
  Ok (mkParamsState (ps_params s) (ps_legacy s) table).

Definition IsAvailablePrecompile (address : Address) (s : params_state) : bool :=
  bool_decide (address ∈ ps_precompiles s).

(** Addresses compare as the big-endian bytes of the numbers they are. *)
Definition GetAvailablePrecompileAddrs (s : params_state) : list Address :=
  merge_sort Z.le (elements (ps_precompiles s)).
End Params.
