(* ===== verification/EvmParamsSpec.v ===== *)
(** * The parameters of the EVM module are what they are checked to be

    What the validation of the parameters accepts and which error it returns; the
    binary search for an active precompile against membership; and the invariants
    that the operations of the keeper keep: the stored parameters are valid, and, as
    long as only set-up precompiles are activated, no execution misses one. *)

From stdpp Require Import sorting strings.
From S2P Require Import Prelude Sdk Dec StateDB EvmKeeper EvmKeeperSpec EvmTx EvmTxSpec GasMeter EvmApply EvmApplySpec EvmParams.

(** ** Sorted slices of strings *)

Lemma strings_Compare_le a b : (strings_Compare a b <=? 0) = true ↔ String.le a b.
Proof.
  unfold strings_Compare, String.le, String.leb. destruct (String.compare a b); cbn; split; done.
Qed.

Lemma strings_Compare_eq a b : (strings_Compare a b =? 0) = true ↔ a = b.
Proof.
  unfold strings_Compare. split.
  - pose proof (String.compare_eq_iff a b) as Hc.
    destruct (String.compare a b); cbn; [by intros _; apply Hc|done|done].
  - intros ->. pose proof (String.compare_antisym b b) as Hc. by destruct (String.compare b b).
Qed.

Lemma IsSorted_spec l : IsSorted l = true ↔ StronglySorted String.le l.
Proof.
  transitivity (Sorted String.le l).
  2: { split; [apply Sorted_StronglySorted, _|apply StronglySorted_Sorted]. }
  induction l as [|x [|y l] IH]; [split; [constructor|done]|split; [|done]; by repeat constructor|].
  change (IsSorted (x :: y :: l)) with (bool_decide (String.le x y) && IsSorted (y :: l)).
  rewrite andb_true_iff, bool_decide_eq_true, IH. split.
  - intros [Hxy Hs]. constructor; [done|by constructor].
  - intros Hs. inversion Hs as [|? ? Hs' Hh]; subst. by inversion Hh.
Qed.

Lemma slices_Sort_perm l : slices_Sort l ≡ₚ l.
Proof. apply merge_sort_Permutation. Qed.

Lemma slices_Sort_sorted l : StronglySorted String.le (slices_Sort l).
Proof. apply (StronglySorted_merge_sort String.le); apply _. Qed.

Lemma elem_of_slices_Sort x l : x ∈ slices_Sort l ↔ x ∈ l.
Proof. by rewrite slices_Sort_perm. Qed.

Lemma slices_Sort_sorted_id l : StronglySorted String.le l → slices_Sort l = l.
Proof.
  intros Hs. eapply (StronglySorted_unique String.le);
    [apply slices_Sort_sorted|done|apply slices_Sort_perm].
Qed.

(** Binary search in a sorted slice finds exactly its elements. *)
Lemma sort_Find_member (l : list string) a :
  StronglySorted String.le l →
  snd (sort_Find (length l) (λ i, strings_Compare a (l !!! i))) = true ↔ a ∈ l.
Proof.
  intros Hs. set (f := λ h, strings_Compare a (l !!! h) <=? 0).
  assert (monotone_pred (length l) f) as Hm.
  { intros i j Hij Hf. destruct (decide (i = j)) as [<-|Hne]; [done|]. unfold f in *.
    apply strings_Compare_le in Hf. apply strings_Compare_le. etrans; [exact Hf|].
    apply (StronglySorted_lookup String.le l i j); [done| | |lia]; apply list_lookup_lookup_total_lt; lia. }
  destruct (sort_Search_spec _ _ Hm) as (Hr & Hlo & Hhi). unfold sort_Find. cbn [snd].
  fold f. set (r := sort_Search (length l) f) in *.
  rewrite andb_true_iff, bool_decide_eq_true, strings_Compare_eq. split.
  - intros [Hlt Ha]. apply list_elem_of_lookup. exists r. rewrite Ha. by apply list_lookup_lookup_total_lt.
  - intros (i & Hi)%list_elem_of_lookup. pose proof (lookup_lt_Some _ _ _ Hi) as Hlt.
    assert (l !!! i = a) as Hti by by apply list_lookup_total_correct.
    assert (f i = true) as Hfi by (apply strings_Compare_le; by rewrite Hti).
    assert (r <= i)%nat as Hri.
    { destruct (decide (r <= i)%nat) as [|Hn]; [done|]. rewrite Hlo in Hfi; [done|lia]. }
    split; [lia|]. assert (f r = true) as Hfr by (apply Hhi; lia).
    apply strings_Compare_le in Hfr. apply (anti_symm String.le); [done|].
    destruct (decide (r = i)) as [->|]; [by rewrite Hti|].
    rewrite <-Hti. apply (StronglySorted_lookup String.le l r i); [done| | |lia];
      apply list_lookup_lookup_total_lt; lia.
Qed.

(** ** What the validation accepts *)

(** The blocks of a chain configuration under the names its errors use. *)
Definition blocks (cc : ChainConfig) : list (string * option Z) := [
  ("homesteadBlock", HomesteadBlock cc); ("daoForkBlock", DAOForkBlock cc);
  ("eip150Block", EIP150Block cc); ("eip155Block", EIP155Block cc);
  ("eip158Block", EIP158Block cc); ("byzantiumBlock", ByzantiumBlock cc);
  ("constantinopleBlock", ConstantinopleBlock cc); ("petersburgBlock", PetersburgBlock cc);
  ("istanbulBlock", IstanbulBlock cc); ("muirGlacierBlock", MuirGlacierBlock cc);
  ("berlinBlock", BerlinBlock cc); ("londonBlock", LondonBlock cc);
  ("arrowGlacierBlock", ArrowGlacierBlock cc); ("GrayGlacierBlock", GrayGlacierBlock cc);
  ("MergeNetsplitBlock", MergeNetsplitBlock cc); ("ShanghaiBlock", ShanghaiBlock cc);
  ("CancunBlock", CancunBlock cc)]%string.

Definition block_ok (b : option Z) : Prop := ∀ z, b = Some z → 0 <= z.

Section ParamsSpec.
Context `{GE : Geth}.
Variable pe : params_env.

Definition config_ok (cc : ChainConfig) : Prop :=
  Forall (λ nb, block_ok (snd nb)) (blocks cc) ∧
  (EIP150Hash cc = EmptyString ∨ blank (EIP150Hash cc) = false) ∧
  pe_CheckConfigForkOrder pe (EthereumConfig None cc) = true.

Definition precompiles_ok (l : list string) : Prop :=
  NoDup l ∧ Forall (λ a, IsHexAddress a = true) l ∧ StronglySorted String.le l.

(** The five parts of the parameters, in the order in which they are checked. *)
Definition part_ok (part : nat) (p : Params) : Prop :=
  match part with
  | 0 => pe_ValidateDenom pe (p_EvmDenom p) = true
  | 1 => NoDup (p_ExtraEIPs p) ∧ Forall (λ e, pe_ValidEip pe e = true) (p_ExtraEIPs p)
  | 2 => config_ok (p_ChainConfig p)
  | 3 => precompiles_ok (p_ActivePrecompiles p)
  | _ => Forall (λ c, pe_ChannelIdentifierValidator pe c = true) (p_EVMChannels p)
  end%nat.

Definition params_ok (p : Params) : Prop := ∀ part, part_ok part p.

(** The part an error is about, and what is wrong with it. *)
Definition error_part (e : params_error) : nat :=
  match e with
  | PErrDenom _ => 0
  | PErrInvalidEIP _ | PErrDuplicateEIP _ => 1
  | PErrNegativeBlock _ | PErrBlankHash | PErrForkOrder => 2
  | PErrDuplicatePrecompile _ | PErrInvalidPrecompile _ | PErrUnsortedPrecompiles => 3
  | PErrChannel _ | PErrAuthority | PErrRegistered _ => 4
  end%nat.

Definition error_cause (e : params_error) (p : Params) : Prop :=
  match e with
  | PErrDenom d => d = p_EvmDenom p ∧ pe_ValidateDenom pe d = false
  | PErrInvalidEIP eip => eip ∈ p_ExtraEIPs p ∧ pe_ValidEip pe eip = false
  | PErrDuplicateEIP eip => ∃ l1 l2, p_ExtraEIPs p = l1 ++ eip :: l2 ∧ eip ∈ l1
  | PErrNegativeBlock name => ∃ b, (name, Some b) ∈ blocks (p_ChainConfig p) ∧ b < 0
  | PErrBlankHash => EIP150Hash (p_ChainConfig p) ≠ EmptyString ∧ blank (EIP150Hash (p_ChainConfig p)) = true
  | PErrForkOrder => pe_CheckConfigForkOrder pe (EthereumConfig None (p_ChainConfig p)) = false
  | PErrDuplicatePrecompile a => ∃ l1 l2, p_ActivePrecompiles p = l1 ++ a :: l2 ∧ a ∈ l1
  | PErrInvalidPrecompile a => a ∈ p_ActivePrecompiles p ∧ IsHexAddress a = false
  | PErrUnsortedPrecompiles => ~ StronglySorted String.le (p_ActivePrecompiles p)
  | PErrChannel c => c ∈ p_EVMChannels p ∧ pe_ChannelIdentifierValidator pe c = false
  | PErrAuthority | PErrRegistered _ => False
  end.

(** A check of one part: it accepts exactly what is well-formed, and its errors have
    their causes. *)
Definition checks (part : nat) (p : Params) (x : params_result ()) : Prop :=
  match x with
  | Ok () => part_ok part p
  | Err e => error_part e = part ∧ error_cause e p ∧ ~ part_ok part p
  | Panic => False
  end.

Lemma validateBlock_case name b :
  (validateBlock name b = Ok () ∧ block_ok b) ∨
  (∃ z, b = Some z ∧ z < 0 ∧ validateBlock name b = Err (PErrNegativeBlock name)).
Proof.
  destruct b as [z|]; cbn; [|left; split; [done|by intros z]].
  destruct (Z.ltb_spec z 0); [right; by exists z|left; split; [done|]]. by intros z' [= <-].
Qed.

Lemma negative_block_checks p name z :
  (name, Some z) ∈ blocks (p_ChainConfig p) → z < 0 → checks 2 p (Err (PErrNegativeBlock name)).
Proof.
  intros Hin Hz. cbn. split_and!; [done|by exists z|]. intros (Hf & _ & _).
  rewrite Forall_forall in Hf. specialize (Hf _ Hin z eq_refl). lia.
Qed.

Ltac solve_elem_of_list := repeat first [apply list_elem_of_here|apply list_elem_of_further].

Ltac next_block :=
  match goal with
  | |- context [validateBlock ?n ?b] =>
      let Hok := fresh "Hok" in
      destruct (validateBlock_case n b) as [[-> Hok]|(z & Hz & Hneg & ->)];
      [rewrite Ok_bind
      |apply (negative_block_checks _ n z); [rewrite <-Hz; solve_elem_of_list|done]]
  end.

Lemma ChainConfig_checks p : checks 2 p (ChainConfig_Validate pe (p_ChainConfig p)).
Proof.
  unfold ChainConfig_Validate. do 3 next_block.
  unfold validateHash. case_bool_decide as He; cbn [negb andb]; [rewrite Ok_bind|
    destruct (blank (EIP150Hash (p_ChainConfig p))) eqn:Hb; cbn [negb andb];
      [split_and!; [done|done|intros (_ & [?|?] & _); congruence]|rewrite Ok_bind]].
  all: do 14 next_block.
  all: destruct (pe_CheckConfigForkOrder pe (EthereumConfig None (p_ChainConfig p))) eqn:Ho; cbn;
    [split_and!; [repeat (constructor; [done|]); constructor|by auto|done]
    |split_and!; [done|done|intros (_ & _ & ?); congruence]].
Qed.

Lemma validateEIPs_checks p : checks 1 p (validateEIPs pe (p_ExtraEIPs p)).
Proof.
  unfold validateEIPs. set (body := λ (dup : bool) eip, _).
  assert (∀ dup x, body dup x = Ok () ↔ dup = false ∧ pe_ValidEip pe x = true) as Hb.
  { intros dup x. unfold body. destruct (pe_ValidEip pe x), dup; cbn; naive_solver. }
  pose proof (each_unique_nil_Ok id body _ Hb (p_ExtraEIPs p)) as Hok. rewrite list_fmap_id in Hok.
  destruct (each_unique id body [] (p_ExtraEIPs p)) as [[]|e|] eqn:He.
  - cbn. naive_solver.
  - assert (~ part_ok 1 p) as Hn by (intros H; by apply Hok in H).
    apply each_unique_Err in He as (l1 & x & l2 & Hl & _ & Hx). unfold body in Hx.
    rewrite list_fmap_id, app_nil_r in Hx.
    destruct (pe_ValidEip pe x) eqn:Hv; cbn in Hx; [case_bool_decide as Hd; [|done]|]; simplify_eq; cbn.
    + split_and!; [done|by exists l1, l2|done].
    + split_and!; [done|rewrite Hl; set_solver|done|done].
  - by apply (each_unique_total id body) in He; [|intros [] x; unfold body; destruct (pe_ValidEip pe x)].
Qed.

Lemma ValidateAddress_Ok a : ValidateAddress a = Ok () ↔ IsHexAddress a = true.
Proof. unfold ValidateAddress. by destruct (IsHexAddress a). Qed.

Lemma ValidatePrecompiles_checks p : checks 3 p (ValidatePrecompiles (p_ActivePrecompiles p)).
Proof.
  unfold ValidatePrecompiles. set (body := λ (dup : bool) a, _).
  assert (∀ dup x, body dup x = Ok () ↔ dup = false ∧ IsHexAddress x = true) as Hb.
  { intros dup x. rewrite <-ValidateAddress_Ok. unfold body.
    destruct dup, (ValidateAddress x) as [[]| |]; naive_solver. }
  pose proof (each_unique_nil_Ok id body _ Hb (p_ActivePrecompiles p)) as Hok. rewrite list_fmap_id in Hok.
  destruct (each_unique id body [] (p_ActivePrecompiles p)) as [[]|e|] eqn:He; cbn [mbind outcome_bind].
  - pose proof (IsSorted_spec (p_ActivePrecompiles p)) as Hs. destruct (proj1 Hok eq_refl) as (Hd & Hf).
    destruct (IsSorted (p_ActivePrecompiles p)); cbn; [by repeat split; try apply Hs|].
    split_and!; [done| |intros (_ & _ & Ht)]; [intros Ht|]; by apply Hs in Ht.
  - assert (~ part_ok 3 p) as Hn.
    { intros (Hd & Hf & _). by specialize (proj2 Hok (conj Hd Hf)). }
    apply each_unique_Err in He as (l1 & x & l2 & Hl & _ & Hx). unfold body in Hx.
    rewrite list_fmap_id, app_nil_r in Hx. case_bool_decide as Hd; simplify_eq; cbn.
    + split_and!; [done|by exists l1, l2|done].
    + pose proof (ValidateAddress_Ok x) as Hv.
      destruct (ValidateAddress x) as [[]| |]; simplify_eq; cbn; (split_and!;
        [done|rewrite Hl; set_solver|by apply not_true_is_false; intros ?%Hv|done]).
  - apply (each_unique_total id body) in He; [done|]. intros [] x; [done|]. unfold body.
    by destruct (ValidateAddress x) as [[]| |].
Qed.

Lemma validateChannels_checks p : checks 4 p (validateChannels pe (p_EVMChannels p)).
Proof.
  assert (∀ l, match validateChannels pe l with
    | Ok () => Forall (λ c, pe_ChannelIdentifierValidator pe c = true) l
    | Err e => ∃ c, e = PErrChannel c ∧ c ∈ l ∧ pe_ChannelIdentifierValidator pe c = false
    | Panic => False end) as H.
  { induction l as [|c l IH]; cbn; [constructor|].
    destruct (pe_ChannelIdentifierValidator pe c) eqn:Hc; [|exists c; set_solver].
    destruct (validateChannels pe l) as [[]|e|]; [by constructor| |done]. set_solver. }
  specialize (H (p_EVMChannels p)). destruct (validateChannels pe (p_EVMChannels p)) as [[]|e|]; [done| |done].
  destruct H as (c & -> & Hin & Hc). cbn. split_and!; [done|done|done|].
  rewrite Forall_forall. intros Hf. specialize (Hf c Hin). congruence.
Qed.

Lemma validateEVMDenom_checks p : checks 0 p (validateEVMDenom pe (p_EvmDenom p)).
Proof. unfold validateEVMDenom. destruct (pe_ValidateDenom pe (p_EvmDenom p)) eqn:H; cbn; by rewrite ?H. Qed.

Lemma Params_Validate_spec (p : Params) :
  match Params_Validate pe p with
  | Ok () => params_ok p
  | Err e => error_cause e p ∧ ~ part_ok (error_part e) p ∧
             ∀ part, (part < error_part e)%nat → part_ok part p
  | Panic => False
  end.
Proof.
  unfold Params_Validate.
  pose proof (validateEVMDenom_checks p) as H0. destruct (validateEVMDenom pe _) as [[]|e|]; cbn in H0 |- *;
    [|destruct H0 as (-> & ? & ?); split_and!; [done|done|lia]|done].
  pose proof (validateEIPs_checks p) as H1. destruct (validateEIPs pe _) as [[]|e|]; cbn in H1 |- *;
    [|destruct H1 as (-> & ? & ?); split_and!; [done|done|]; intros [|] ?; [done|lia]|done].
  pose proof (ChainConfig_checks p) as H2. destruct (ChainConfig_Validate pe _) as [[]|e|]; cbn in H2 |- *;
    [|destruct H2 as (-> & ? & ?); split_and!; [done|done|]; intros [|[|]] ?; [done..|lia]|done].
  pose proof (ValidatePrecompiles_checks p) as H3.
  destruct (ValidatePrecompiles _) as [[]|e|]; cbn in H3 |- *;
    [|destruct H3 as (-> & ? & ?); split_and!; [done|done|]; intros [|[|[|]]] ?; [done..|lia]|done].
  pose proof (validateChannels_checks p) as H4.
  destruct (validateChannels pe _) as [[]|e|]; cbn in H4 |- *; [by intros [|[|[|[|]]]]| |done].
  destruct H4 as (-> & ? & ?); split_and!; [done|done|]. intros [|[|[|[|]]]] ?; [done..|lia].
Qed.

Lemma Params_Validate_Ok p : Params_Validate pe p = Ok () ↔ params_ok p.
Proof.
  pose proof (Params_Validate_spec p) as H. destruct (Params_Validate pe p) as [[]|e|]; [done| |done].
  split; [done|]. intros Hp. destruct H as (_ & Hn & _). by destruct Hn.
Qed.

(** ** The stored parameters *)

Inductive params_op :=
| OpSetParams (p : Params)
| OpUpdateParams (authority from : string) (p : Params)
| OpEnablePrecompiles (addresses : list Address)
| OpEnableEIPs (eips : list Z)
| OpAddEVMExtensions (precompiles : list Address).

Definition run_op (op : params_op) (s : params_state) : params_result params_state :=
  match op with
  | OpSetParams p => SetParams pe p s
  | OpUpdateParams authority from p => UpdateParams pe authority from p s
  | OpEnablePrecompiles l => EnablePrecompiles pe l s
  | OpEnableEIPs l => EnableEIPs pe l s
  | OpAddEVMExtensions l => AddEVMExtensions pe l s
  end.

Definition params_step (s s' : params_state) : Prop := ∃ op, run_op op s = Ok s'.

Definition stored_ok (s : params_state) : Prop := ∀ p, ps_params s = Some p → params_ok p.

Lemma SetParams_inv p s s' :
  SetParams pe p s = Ok s' →
  ∃ p', p' = with_precompiles (slices_Sort (p_ActivePrecompiles p)) p ∧ params_ok p' ∧
    s' = mkParamsState (Some p') (ps_legacy s) (ps_precompiles s).
Proof.
  unfold SetParams. intros H. apply bind_Ok_inv in H as ([] & Hv & [= <-]).
  eexists. split_and!; [done|by apply Params_Validate_Ok|done].
Qed.

(** C31.  Updating the parameters is exact.  A message that does not come from the
    authority is refused as such.  Otherwise the update never panics; it stores the
    parameters with their precompiles sorted exactly if denomination, EIPs, chain
    configuration, precompiles and channels are well-formed; and its error names a
    cause found in the first part that is not, all the parts before it being
    well-formed.  The error for unsorted precompiles is never returned. *)
Theorem update_params_exact (authority from : string) (p : Params) (s : params_state) :
  let p' := with_precompiles (slices_Sort (p_ActivePrecompiles p)) p in
  match UpdateParams pe authority from p s with
  | Ok s' => authority = from ∧ params_ok p' ∧
             s' = mkParamsState (Some p') (ps_legacy s) (ps_precompiles s)
  | Err e => (authority ≠ from ∧ e = PErrAuthority) ∨
             (authority = from ∧ e ≠ PErrUnsortedPrecompiles ∧ error_cause e p' ∧
              ~ part_ok (error_part e) p' ∧ ∀ part, (part < error_part e)%nat → part_ok part p')
  | Panic => False
  end.
Proof.
  intros p'. unfold UpdateParams. case_bool_decide as Ha; [|by left]. unfold SetParams. fold p'.
  pose proof (Params_Validate_spec p') as H.
  destruct (Params_Validate pe p') as [[]|e|]; cbn; [done| |done]. right.
  destruct H as (Hc & Hn & Hf). split_and!; [done| |done|done|done].
  intros ->. by apply Hc, slices_Sort_sorted.
Qed.

Lemma AddEVMExtensions_inv l s s' :
  AddEVMExtensions pe l s = Ok s' →
  ∃ table s1, register_loop l (ps_precompiles s) = Ok table ∧
    SetParams pe (with_precompiles (p_ActivePrecompiles (GetParams s) ++ map Address_Hex l) (GetParams s)) s = Ok s1 ∧
    s' = mkParamsState (ps_params s1) (ps_legacy s1) table.
Proof.
  unfold AddEVMExtensions. intros H. apply bind_Ok_inv in H as (table & Ht & H).
  apply bind_Ok_inv in H as (s1 & H1 & [= <-]). by exists table, s1.
Qed.

Lemma run_op_stored_ok op s s' : run_op op s = Ok s' → stored_ok s'.
Proof.
  assert (∀ p, SetParams pe p s = Ok s' → stored_ok s') as Hset.
  { intros p (p' & _ & Hp & ->)%SetParams_inv q [= <-]. done. }
  destruct op as [p|authority from p|l|l|l]; cbn; [apply Hset| |apply Hset|apply Hset|].
  - unfold UpdateParams. case_bool_decide; [apply Hset|done].
  - intros (table & s1 & _ & (p' & _ & Hp & ->)%SetParams_inv & ->)%AddEVMExtensions_inv q [= <-]. done.
Qed.

Lemma steps_stored_ok s s' : rtc params_step s s' → stored_ok s → stored_ok s'.
Proof. induction 1 as [|? ? ? [op H] _ IH]; [done|]. intros _. by eapply IH, run_op_stored_ok. Qed.

Lemma IsActivePrecompile_member p a :
  precompiles_ok (p_ActivePrecompiles p) → IsActivePrecompile p a = true ↔ a ∈ p_ActivePrecompiles p.
Proof. intros (_ & _ & Hs). by apply sort_Find_member. Qed.

(** Whatever sequence of parameter updates, precompile and EIP activations and
    extensions a chain goes through, the stored parameters pass their validation, and
    the binary search for an active precompile answers exactly whether the address is
    in the stored list. *)
Theorem active_search_exact (s0 s : params_state) (p : Params) (a : string) :
  rtc params_step s0 s → stored_ok s0 → ps_params s = Some p →
  Params_Validate pe p = Ok () ∧ (IsActivePrecompile p a = true ↔ a ∈ p_ActivePrecompiles p).
Proof.
  intros Hs H0 Hp. pose proof (steps_stored_ok s0 s Hs H0 p Hp) as Hok.
  split; [by apply Params_Validate_Ok|]. apply IsActivePrecompile_member, (Hok 3%nat).
Qed.

(** ** Activating precompiles *)

Context {GL : GethLaws}.

Lemma params_ok_precompiles l p :
  params_ok p → precompiles_ok l → params_ok (with_precompiles l p).
Proof. intros Hp Hl [|[|[|[|part]]]]; [apply (Hp 0%nat)|apply (Hp 1%nat)|apply (Hp 2%nat)|done|apply (Hp 4%nat)]. Qed.

(** Precompiles with new addresses can always be activated: on stored parameters
    that are valid, [EnablePrecompiles] succeeds if the addresses are pairwise
    different and none is active, and then exactly they and those active before are
    active; the other parameters and the table of precompiles stay. *)
Theorem enable_precompiles_effect (s : params_state) (p : Params) (l : list Address) :
  stored_ok s → ps_params s = Some p → NoDup l → Forall in_address l →
  (∀ a, a ∈ l → IsActivePrecompile p (Address_Hex a) = false) →
  ∃ p', EnablePrecompiles pe l s = Ok (mkParamsState (Some p') (ps_legacy s) (ps_precompiles s)) ∧
    p' = with_precompiles (p_ActivePrecompiles p') p ∧
    ∀ x, IsActivePrecompile p' x = true ↔
      IsActivePrecompile p x = true ∨ ∃ a, a ∈ l ∧ x = Address_Hex a.
Proof.
  intros Hs Hp Hd Ha Hnew. pose proof (Hs p Hp) as Hok. pose proof (Hok 3%nat) as (Hd0 & Hh0 & Hs0).
  set (active := p_ActivePrecompiles p ++ map Address_Hex l).
  assert (precompiles_ok (slices_Sort active)) as Hact.
  { split_and!; [rewrite slices_Sort_perm|rewrite slices_Sort_perm|apply slices_Sort_sorted].
    - apply NoDup_app. split_and!; [done| |].
      + intros x Hx (a & -> & Hin)%list_elem_of_fmap. specialize (Hnew a Hin).
        apply (IsActivePrecompile_member p) in Hx; [congruence|by apply (Hok 3%nat)].
      + apply (NoDup_fmap_2_strong Address_Hex l); [|done]. rewrite Forall_forall in Ha.
        intros a b Hia Hib Hab. rewrite <-(HexToAddress_Hex a), Hab by by apply Ha.
        by apply HexToAddress_Hex, Ha.
    - apply Forall_app. split; [done|]. rewrite Forall_fmap.
      eapply Forall_impl; [exact Ha|]. intros a. apply IsHexAddress_Hex. }
  exists (with_precompiles (slices_Sort active) p). unfold EnablePrecompiles, GetParams. rewrite Hp.
  change (default (ps_legacy s) (Some p)) with p. cbv zeta. fold active. unfold SetParams.
  change (p_ActivePrecompiles (with_precompiles ?l p)) with l.
  rewrite (slices_Sort_sorted_id (slices_Sort active)) by apply slices_Sort_sorted.
  split_and!; [|done|].
  - change (with_precompiles (slices_Sort active) (with_precompiles (slices_Sort active) p))
      with (with_precompiles (slices_Sort active) p).
    by rewrite (proj2 (Params_Validate_Ok _)) by by apply params_ok_precompiles.
  - intros x. rewrite !IsActivePrecompile_member by (done || by apply (Hok 3%nat)).
    cbn. rewrite elem_of_slices_Sort. unfold active. rewrite elem_of_app, list_elem_of_fmap. naive_solver.
Qed.

(** ** Active precompiles are available *)

Definition active_available (s : params_state) : Prop :=
  ∀ a, a ∈ p_ActivePrecompiles (GetParams s) → HexToAddress a ∈ ps_precompiles s.

(** An operation that activates only precompiles that are set up; extensions bring
    theirs. *)
Definition op_available (op : params_op) (s : params_state) : Prop :=
  match op with
  | OpSetParams p | OpUpdateParams _ _ p => ∀ a, a ∈ p_ActivePrecompiles p → HexToAddress a ∈ ps_precompiles s
  | OpEnablePrecompiles l => ∀ a, a ∈ l → in_address a ∧ a ∈ ps_precompiles s
  | OpEnableEIPs _ => True
  | OpAddEVMExtensions l => Forall in_address l
  end.

Definition available_step (s s' : params_state) : Prop := ∃ op, op_available op s ∧ run_op op s = Ok s'.

Lemma register_loop_inv l table table' :
  register_loop l table = Ok table' → table' = list_to_set l ∪ table ∧ NoDup l ∧ ∀ a, a ∈ l → a ∉ table.
Proof.
  revert table. induction l as [|a l IH]; intros table; cbn [register_loop].
  { intros [= <-]. split_and!; [set_solver|constructor|set_solver]. }
  case_bool_decide as Ha; [done|]. intros (-> & Hd & Hn)%IH. split_and!.
  - set_solver.
  - constructor; [|done]. intros Hin. specialize (Hn a Hin). set_solver.
  - intros b [->|Hb]%elem_of_cons; [done|]. specialize (Hn b Hb). set_solver.
Qed.

Lemma step_available s s' :
  available_step s s' → active_available s →
  active_available s' ∧ ps_precompiles s ⊆ ps_precompiles s'.
Proof.
  assert (∀ p, (∀ a, a ∈ p_ActivePrecompiles p → HexToAddress a ∈ ps_precompiles s) →
    SetParams pe p s = Ok s' → active_available s' ∧ ps_precompiles s ⊆ ps_precompiles s') as Hset.
  { intros p Hp (p' & -> & _ & ->)%SetParams_inv. split; [|done]. intros a. cbn.
    rewrite elem_of_slices_Sort. apply Hp. }
  intros (op & Hop & Hrun) Hav.
  destruct op as [p|authority from p|l|l|l]; cbn in Hop, Hrun.
  - exact (Hset p Hop Hrun).
  - unfold UpdateParams in Hrun. case_bool_decide; [exact (Hset p Hop Hrun)|done].
  - eapply Hset; [|exact Hrun]. intros a. cbn. rewrite elem_of_slices_Sort, elem_of_app, list_elem_of_fmap.
    intros [Ha|(b & -> & Hb)]; [by apply Hav|]. destruct (Hop b Hb) as [Hin Hmem]. by rewrite HexToAddress_Hex.
  - eapply Hset; [|exact Hrun]. done.
  - apply AddEVMExtensions_inv in Hrun as (table & s1 & (-> & _ & _)%register_loop_inv & Hs1 & ->).
    apply SetParams_inv in Hs1 as (p' & -> & _ & ->). split; [|cbn; set_solver].
    intros a. cbn. rewrite elem_of_slices_Sort, elem_of_app, list_elem_of_fmap.
    rewrite Forall_forall in Hop. intros [Ha|(b & -> & Hb)]; [specialize (Hav a Ha); set_solver|].
    rewrite HexToAddress_Hex by by apply Hop. set_solver.
Qed.

Lemma steps_available s s' :
  rtc available_step s s' → active_available s →
  active_available s' ∧ ps_precompiles s ⊆ ps_precompiles s'.
Proof.
  induction 1 as [|s s1 s' Hstep _ IH]; [done|]. intros Hav.
  destruct (step_available _ _ Hstep Hav) as [Hav1 Hsub]. destruct (IH Hav1) as [Hav2 Hsub2].
  split; [done|by transitivity (ps_precompiles s1)].
Qed.

(** The default parameters with the precompiles of the application. *)
Lemma default_available berlin legacy :
  active_available (mkParamsState (Some DefaultParams) legacy (AvailablePrecompiles berlin)).
Proof.
  intros a Ha. unfold AvailablePrecompiles. cbn [ps_precompiles]. apply elem_of_union_r, elem_of_list_to_set.
  apply list_elem_of_fmap. exists a. split; [done|]. cbn in Ha. set_solver.
Qed.
End ParamsSpec.

(** ** Execution with the active precompiles *)

Section Execution.
Context `{EE : EvmEnv} `{GE : Geth} `{GL : !GethLaws} `{LD : LegacyDec} `{GM : GasMeter}.
Variable pe : params_env.

(** As long as parameter updates and activations name only precompiles that the
    keeper has set up, every execution finds the contracts of the active precompiles:
    setting up the machine never panics, whatever message it runs. *)
Theorem active_precompiles_found (s0 s : params_state) (k : EvmModule) (msg : Message) (cfg : EVMConfig) :
  active_available s0 → rtc (available_step pe) s0 s →
  (∀ a, a ∈ vm_PrecompiledAddressesBerlin (k_vm k) → a ∈ ps_precompiles s0) →
  (∀ a, a ∈ ps_precompiles s → a ∈ k_precompiles k) →
  ep_ActivePrecompiles (ec_Params cfg) = p_ActivePrecompiles (GetParams s) →
  custom_precompiles k msg cfg ≠ Panic.
Proof.
  intros H0 Hsteps Hberlin Htable Hactive. destruct (steps_available pe _ _ Hsteps H0) as [Hav Hsub].
  unfold custom_precompiles. destruct (HasCustomPrecompiles _); [|done]. case_match; [done|].
  unfold Precompiles. rewrite (Is_true_eq_true (forallb _ _)); [done|]. apply forallb_True, Forall_forall.
  intros a [Ha|Ha]%elem_of_app; apply bool_decide_pack, Htable.
  - by apply Hsub, Hberlin.
  - unfold GetActivePrecompilesAddrs in Ha. rewrite Hactive in Ha.
    apply list_elem_of_fmap in Ha as (x & -> & Hx). by apply Hav.
Qed.
End Execution.

(** ** A chain of its own *)

Module ParamsToy.
Import MapCoins MapBank EvmToy ZDec GethToy ApplyToy.

(** Every EIP, denomination and channel is valid but the empty ones, and the forks are
    in order if London does not come before Berlin. *)
Definition toy_env : params_env := {|
  pe_ValidateDenom d := negb (bool_decide (d = EmptyString));
  pe_ValidEip e := 0 <? e;
  pe_ChannelIdentifierValidator c := negb (bool_decide (c = EmptyString));
  pe_CheckConfigForkOrder c :=
    match g_BerlinBlock c, g_LondonBlock c with
    | Some b, Some l => b <=? l
    | None, Some _ => false
    | _, None => true
    end
|}.

Definition start : params_state :=
  mkParamsState (Some DefaultParams) DefaultParams (AvailablePrecompiles {[ 1; 2 ]}).

Lemma start_ok : stored_ok toy_env start.
Proof. intros p [= <-]. apply Params_Validate_Ok. vm_compute. reflexivity. Qed.

Lemma start_available : active_available start.
Proof. apply default_available. Qed.

(** Two extensions at new addresses. *)
Definition op : params_op := OpAddEVMExtensions [4096; 4097].

Definition after : params_state := match run_op toy_env op start with Ok s => s | _ => start end.

Definition state_numbers (x : params_result params_state) : option (list Address * list Address) :=
  match x with
  | Ok s => Some (map HexToAddress (p_ActivePrecompiles (GetParams s)), GetAvailablePrecompileAddrs s)
  | _ => None
  end.

Lemma after_numbers :
  state_numbers (run_op toy_env op start) =
  Some ([256; 1024; 2048; 2049; 2050; 2051; 2052; 2304; 2305; 4096; 4097],
        [1; 2; 256; 1024; 2048; 2049; 2050; 2051; 2052; 2304; 2305; 4096; 4097]).
Proof. vm_compute. reflexivity. Qed.

Lemma after_run : run_op toy_env op start = Ok after.
Proof. unfold after. pose proof after_numbers as H. by destruct (run_op toy_env op start). Qed.

Lemma active_search_exact_witness :
  ∃ p, ps_params after = Some p ∧
    IsActivePrecompile p "0x0000000000000000000000000000000000001001" = true ∧
    IsActivePrecompile p "0x0000000000000000000000000000000000001002" = false.
Proof.
  assert (rtc (params_step toy_env) start after) as Hs by (apply rtc_once; exists op; exact after_run).
  exists (GetParams after). assert (ps_params after = Some (GetParams after)) as Hp by (vm_compute; reflexivity).
  split; [exact Hp|].
  split; [|apply not_true_is_false; intros H];
    pose proof (active_search_exact toy_env start after _ "0x0000000000000000000000000000000000001001" Hs start_ok Hp) as [_ H1];
    pose proof (active_search_exact toy_env start after _ "0x0000000000000000000000000000000000001002" Hs start_ok Hp) as [_ H2].
  - apply H1. apply (bool_decide_eq_true_1 _). vm_compute. reflexivity.
  - apply H2 in H. revert H. apply (bool_decide_eq_false_1 _). vm_compute. reflexivity.
Defined.

Lemma enable_precompiles_effect_witness :
  ∃ p', EnablePrecompiles toy_env [4096] start = Ok (mkParamsState (Some p') DefaultParams (ps_precompiles start)) ∧
    IsActivePrecompile p' "0x0000000000000000000000000000000000001000" = true.
Proof.
  destruct (enable_precompiles_effect toy_env start DefaultParams [4096]) as (p' & Hrun & _ & Hact).
  - exact start_ok.
  - reflexivity.
  - apply NoDup_singleton.
  - repeat constructor; vm_compute; congruence.
  - intros a ->%list_elem_of_singleton. vm_compute. reflexivity.
  - exists p'. split; [exact Hrun|]. apply Hact. right. exists 4096.
    split; [by apply list_elem_of_singleton|vm_compute; reflexivity].
Defined.

(** The module that executes with the precompiles of a state. *)
Definition module_of (s : params_state) : EvmModule :=
  mkEvmModule toy_vm (elements (ps_precompiles s)) None toy_fees
    (mkEVMConfig (mkEvmParams true true (p_ActivePrecompiles (GetParams s))) (mkRules true true true true) (Some 10))
    (LegacyNewDecWithPrec 50 2) 11.

Lemma module_of_table s a : a ∈ ps_precompiles s → a ∈ k_precompiles (module_of s).
Proof. apply elem_of_elements. Qed.

Lemma start_berlin a : a ∈ [1; 2] → a ∈ ps_precompiles start.
Proof.
  intros Ha. change (ps_precompiles start) with (AvailablePrecompiles {[ 1; 2 ]}).
  unfold AvailablePrecompiles. apply elem_of_union_l. set_solver.
Qed.

Lemma after_step : rtc (available_step toy_env) start after.
Proof.
  apply rtc_once. exists op. split; [repeat constructor; vm_compute; congruence|exact after_run].
Qed.

Lemma active_precompiles_found_witness :
  custom_precompiles (module_of after) (call_msg []) (k_config (module_of after)) ≠ Panic.
Proof.
  exact (active_precompiles_found toy_env start after (module_of after) (call_msg []) (k_config (module_of after))
    start_available after_step start_berlin (module_of_table after) eq_refl).
Defined.

(** The validation does not look at the table: an update that activates an address
    without a contract is accepted, and every execution after it panics. *)
Definition unknown : Params :=
  with_precompiles ["0x0000000000000000000000000000000000001234"%string] DefaultParams.

Definition broken : params_state :=
  match UpdateParams toy_env "gov" "gov" unknown start with Ok s => s | _ => start end.

Definition panics {E A} (x : outcome E A) : bool := match x with Panic => true | _ => false end.

Example update_breaks_execution :
  is_Ok (UpdateParams toy_env "gov" "gov" unknown start) = true ∧
  panics (custom_precompiles (module_of broken) (call_msg []) (k_config (module_of broken))) = true.
Proof. split; vm_compute; reflexivity. Qed.

(** An address in another case than the stored one is not found, and the same address
    in two cases passes as two precompiles. *)
Example case_matters :
  let p := with_precompiles ["0xABCDEFabcdefABCDEFabcdefABCDEFabcdef0000"%string] DefaultParams in
  IsActivePrecompile p "0xABCDEFabcdefABCDEFabcdefABCDEFabcdef0000" = true ∧
  IsActivePrecompile p "0xabcdefabcdefabcdefabcdefabcdefabcdef0000" = false.
Proof. split; vm_compute; reflexivity. Qed.
End ParamsToy.
