(* ===== verification/Migrations.v ===== *)
(** * Store migrations and upgrades: [x/evm/migrations], [app/upgrades/v16]

    The parameters of the EVM have moved from the params module to keys of their own, and
    from there to one record; [evm_params_migrated] says what the three migrations make of
    them.  The upgrade to version 16 ([v16_upgrade]) opens the outposts, burns the pool of the incentives
    module, moves its share of the inflation to the community pool and deletes its
    proposals.  Stored values are decoded messages: the generated types of the versions
    have the same field numbers.  The bank, the accounts, the proposals and the module
    manager of the SDK are fields of [upgrade_env]. *)

From S2P Require Import Prelude ChainID AccessList StateDB Sdk Dec Inflation EvmKeeper EvmTx EvmApply EvmParams EvmParamsSpec.

(** ** The EVM: versions 4, 5 and 6 *)

(** The keys of the parameters; a flag is set when its key is there. *)
Record evm_kv := mkEvmKv {
  kv_EVMDenom : option string;
  kv_ExtraEIPs : option (list Z);
  kv_ChainConfig : option ChainConfig;
  kv_AllowUnprotectedTxs : bool;
  kv_EnableCall : bool;
  kv_EnableCreate : bool;
  kv_Params : option EvmParams.Params
}.

(** What an empty value is decoded to. *)
Definition empty_config : ChainConfig :=
  mkChainConfig None None false None EmptyString None None None None None None None None None None None None None None.
Definition empty_params : EvmParams.Params := EvmParams.mkParams EmptyString false false [] empty_config false [] [].

Section EvmMigrations.
Context `{GE : Geth}.
Variable pe : params_env.

(** [params] is what the legacy subspace has. *)
Definition v4_MigrateStore (params : EvmParams.Params) (s : evm_kv) : params_result evm_kv :=
  _ ← EvmParams.Params_Validate pe params;
  Ok (mkEvmKv (Some (p_EvmDenom params)) (Some (p_ExtraEIPs params)) (Some (p_ChainConfig params))
        (p_AllowUnprotectedTxs params || kv_AllowUnprotectedTxs s)
        (p_EnableCall params || kv_EnableCall s)
        (p_EnableCreate params || kv_EnableCreate s) (kv_Params s)).

Definition v5_MigrateStore (chainID : string) (s : evm_kv) : params_result evm_kv :=
  let extraEIPs := if decide (chainID = "dhives_5438-1"%string) then [] else default [] (kv_ExtraEIPs s) in
  let params := EvmParams.mkParams (default EmptyString (kv_EVMDenom s)) (kv_EnableCreate s) (kv_EnableCall s) extraEIPs
                  (default empty_config (kv_ChainConfig s)) (kv_AllowUnprotectedTxs s) [] [] in
  _ ← EvmParams.Params_Validate pe params;
  Ok (mkEvmKv None None None false false false (Some params)).

Definition v6_MigrateStore (chainID : string) (s : evm_kv) : params_result evm_kv :=
  let v5 := default empty_params (kv_Params s) in
  let channels := if decide (chainID = TestnetChainID +:+ "-4") then [] else DefaultEVMChannels in
  let params := EvmParams.mkParams (p_EvmDenom v5) (p_EnableCreate v5) (p_EnableCall v5) (p_ExtraEIPs v5) (p_ChainConfig v5)
                  (p_AllowUnprotectedTxs v5) (p_ActivePrecompiles v5) channels in
  _ ← EvmParams.Params_Validate pe params;
  Ok (mkEvmKv (kv_EVMDenom s) (kv_ExtraEIPs s) (kv_ChainConfig s) (kv_AllowUnprotectedTxs s) (kv_EnableCall s)
        (kv_EnableCreate s) (Some params)).

(** The migrations in their order. *)
Definition evm_migrations (chainID : string) (legacy : EvmParams.Params) (s : evm_kv) : params_result evm_kv :=
  s ← v4_MigrateStore legacy s;
  s ← v5_MigrateStore chainID s;
  v6_MigrateStore chainID s.

Definition no_keys : evm_kv := mkEvmKv None None None false false false None.
End EvmMigrations.

(** ** The upgrade to version 16 *)

Inductive proposal_content := RegisterIncentiveProposal | CancelIncentiveProposal | OtherContent.
Inductive proposal_msg := MsgExecLegacyContent (content : proposal_content) | OtherMsg.

(** The messages are missing when they cannot be unpacked. *)
Record proposal := mkProposal { pr_Id : Z; pr_Msgs : option (list proposal_msg) }.

Record upgrade_env (U : Type) := mkUpgradeEnv {
  ue_coins : Type;
  ue_IncentivesBalance : U → ue_coins;
  ue_IsAllPositive : ue_coins → bool;
  (** [SendCoinsFromAccountToModule] to the fee collector, and [BurnCoins] there *)
  ue_SendToFeeCollector : ue_coins → U → option U;
  ue_BurnCoins : ue_coins → U → option U;
  (** the base account of the fee collector if it is a module account; [GetModuleAccount]
      makes the account when it is missing *)
  ue_FeeCollector : U → option Z * U;
  ue_SetFeeCollector : Z → list string → U → U;
  ue_Proposals : U → list proposal;
  ue_DeleteProposal : Z → U → partial U
}.
Arguments ue_coins {U}.
Arguments ue_IncentivesBalance {U}.
Arguments ue_IsAllPositive {U}.
Arguments ue_SendToFeeCollector {U}.
Arguments ue_BurnCoins {U}.
Arguments ue_FeeCollector {U}.
Arguments ue_SetFeeCollector {U}.
Arguments ue_Proposals {U}.
Arguments ue_DeleteProposal {U}.

Section Upgrade.
Context `{GE : Geth} `{LD : LegacyDec} `{IE : InflationEnv} {U : Type}.
Variable pe : params_env.
Variable ue : upgrade_env U.

(** A step that fails keeps what it has written, and its error is logged. *)
Definition MigrateFeeCollector (u : U) : U :=
  match ue_FeeCollector ue u with
  | (None, u) => u
  | (Some base, u) => ue_SetFeeCollector ue base ["burner"%string] u
  end.

Definition BurnUsageIncentivesPool (u : U) : U :=
  let balance := ue_IncentivesBalance ue u in
  if negb (ue_IsAllPositive ue balance) then u
  else match ue_SendToFeeCollector ue balance u with
       | None => u
       | Some u => default u (ue_BurnCoins ue balance u)
       end.

Definition UpdateInflationParams (s : inflation_store) : partial inflation_store :=
  let params := Inflation.GetParams s in
  let d := ip_InflationDistribution params in
  communityPool ← dec_Sub LegacyOneDec (id_StakingRewards d);
  let params := Inflation.mkParams (ip_MintDenom params) (ip_ExponentialCalculation params)
                  (mkDistribution (id_StakingRewards d) LegacyZeroDec communityPool) (ip_EnableInflation params) in
  e ← Inflation.Params_Validate params;
  match e with Some _ => Ok s | None => Ok (Inflation.SetParams params s) end.

Definition is_incentives (m : proposal_msg) : bool :=
  match m with MsgExecLegacyContent (RegisterIncentiveProposal | CancelIncentiveProposal) => true | _ => false end.

Fixpoint delete_for (id : Z) (msgs : list proposal_msg) (u : U) : partial U :=
  match msgs with
  | [] => Ok u
  | m :: msgs => u ← (if is_incentives m then ue_DeleteProposal ue id u else Ok u); delete_for id msgs u
  end.

Fixpoint delete_all (l : list proposal) (u : U) : partial U :=
  match l with
  | [] => Ok u
  | pr :: l => u ← match pr_Msgs pr with None => Ok u | Some msgs => delete_for (pr_Id pr) msgs u end; delete_all l u
  end.

Definition DeleteIncentivesProposals (u : U) : partial U := delete_all (ue_Proposals ue u) u.

(** What the upgrade changes, and the versions of the modules. *)
Record upgrade_state := mkUpgradeState {
  us_params : params_state;
  us_inflation : inflation_store;
  us_chain : U;
  us_versions : gmap string Z
}.

Definition enable_or_log (addresses : list Address) (s : params_state) : partial params_state :=
  match EnablePrecompiles pe addresses s with Ok s' => Ok s' | Err _ => Ok s | Panic => Panic end.

(** The handler up to [RunMigrations]. *)
Definition v16_upgrade (chainID : string) (s : upgrade_state) : partial upgrade_state :=
  params ← (if IsTestnet chainID then enable_or_log [0x100; 0x400] (us_params s) else Ok (us_params s));
  params ← enable_or_log [0x900; 0x901] params;
  let u := BurnUsageIncentivesPool (MigrateFeeCollector (us_chain s)) in
  inflation ← UpdateInflationParams (us_inflation s);
  u ← DeleteIncentivesProposals u;
  Ok (mkUpgradeState params inflation u
        (delete "incentives"%string (delete "claims"%string (delete "recovery"%string (us_versions s))))).
End Upgrade.

(** ** What the migrations keep *)

Section EvmMigrated.
Context `{GE : Geth}.
Variable pe : params_env.

(** The parameters after the migrations: the precompiles and channels of the legacy ones
    are not carried over, and one chain loses its extra EIPs. *)
Definition migrated (chainID : string) (p : EvmParams.Params) : EvmParams.Params :=
  EvmParams.mkParams (p_EvmDenom p) (p_EnableCreate p) (p_EnableCall p)
    (if decide (chainID = "dhives_5438-1"%string) then [] else p_ExtraEIPs p) (p_ChainConfig p) (p_AllowUnprotectedTxs p) []
    (if decide (chainID = "dhives_5438-4"%string) then [] else DefaultEVMChannels).

Lemma validate_parts p : EvmParams.Params_Validate pe p = Ok () ↔
  validateEVMDenom pe (p_EvmDenom p) = Ok () ∧ validateEIPs pe (p_ExtraEIPs p) = Ok () ∧
  ChainConfig_Validate pe (p_ChainConfig p) = Ok () ∧ ValidatePrecompiles (p_ActivePrecompiles p) = Ok () ∧
  validateChannels pe (p_EVMChannels p) = Ok ().
Proof.
  unfold EvmParams.Params_Validate. split.
  - intros H. do 4 (apply bind_Ok_inv in H as ([] & ? & H)). done.
  - intros (-> & -> & -> & -> & ->). done.
Qed.

(** The three migrations succeed on the valid parameters of a chain that has no keys yet,
    leave one record with them and delete every other key. *)
Theorem evm_params_migrated chainID legacy :
  EvmParams.Params_Validate pe legacy = Ok () → validateChannels pe DefaultEVMChannels = Ok () →
  evm_migrations pe chainID legacy no_keys = Ok (mkEvmKv None None None false false false (Some (migrated chainID legacy))) ∧
  EvmParams.Params_Validate pe (migrated chainID legacy) = Ok ().
Proof.
  intros Hv Hch. pose proof Hv as (Hd & He & Hc & _ & _)%validate_parts.
  assert (∀ eips ch, validateEIPs pe eips = Ok () → validateChannels pe ch = Ok () →
    EvmParams.Params_Validate pe (EvmParams.mkParams (p_EvmDenom legacy) (p_EnableCreate legacy) (p_EnableCall legacy) eips
      (p_ChainConfig legacy) (p_AllowUnprotectedTxs legacy) [] ch) = Ok ()) as Hok by (intros; by apply validate_parts).
  assert (validateEIPs pe (if decide (chainID = "dhives_5438-1"%string) then [] else p_ExtraEIPs legacy) = Ok ()) as He'
    by (destruct (decide (chainID = "dhives_5438-1"%string)); [reflexivity|assumption]).
  assert (validateChannels pe (if decide (chainID = "dhives_5438-4"%string) then [] else DefaultEVMChannels) = Ok ()) as Hch'
    by (destruct (decide (chainID = "dhives_5438-4"%string)); [reflexivity|assumption]).
  split; [|by apply Hok]. unfold evm_migrations, v4_MigrateStore. rewrite Hv, !Ok_bind. unfold v5_MigrateStore.
  cbn [kv_EVMDenom kv_ExtraEIPs kv_ChainConfig kv_AllowUnprotectedTxs kv_EnableCall kv_EnableCreate no_keys default].
  rewrite !orb_false_r. rewrite Hok, !Ok_bind by done. unfold v6_MigrateStore. cbn [kv_Params default].
  change (TestnetChainID +:+ "-4") with "dhives_5438-4"%string. cbn [p_EvmDenom p_EnableCreate p_EnableCall p_ExtraEIPs p_ChainConfig
    p_AllowUnprotectedTxs p_ActivePrecompiles]. by rewrite Hok by done.
Qed.
End EvmMigrated.

Section Upgraded.
Context `{GE : Geth} `{DL : DecLaws} `{IE : InflationEnv} {U : Type}.
Variable pe : params_env.
Variable ue : upgrade_env U.

(** The share of the incentives goes to the community pool: where the other parameters are
    valid, the update succeeds, and the new ones are valid and share out everything. *)
Theorem inflation_share_moved s :
  let p := Inflation.GetParams s in
  let d := ip_InflationDistribution p in
  validateMintDenom (ip_MintDenom p) = None → validateExponentialCalculation (ip_ExponentialCalculation p) = None →
  0 <= raw (id_StakingRewards d) <= dec_one →
  ∃ s', UpdateInflationParams s = Ok s' ∧ Inflation.Params_Validate (Inflation.GetParams s') = Ok None ∧
    let d' := ip_InflationDistribution (Inflation.GetParams s') in
    raw (id_StakingRewards d') = raw (id_StakingRewards d) ∧ raw (id_UsageIncentives d') = 0 ∧
    raw (id_CommunityPool d') = dec_one - raw (id_StakingRewards d).
Proof.
  intros p d Hm Hx Hs. unfold UpdateInflationParams. fold p d. cbn zeta.
  assert (raw LegacyOneDec = dec_one ∧ raw LegacyZeroDec = 0 ∧ raw (LegacyNewDec 1) = dec_one) as (Hone & Hzero & Hnew).
  { unfold LegacyOneDec, LegacyZeroDec, LegacyNewDec. rewrite !raw_FromInt. unfold dec_one. lia. }
  assert (dec_one < 2 ^ 255) as Hbig by done.
  destruct (dec_Sub_ok LegacyOneDec (id_StakingRewards d)) as (pool & Hp & Hpool); [unfold dec_fits; lia|].
  rewrite Hp, Ok_bind. set (d' := mkDistribution (id_StakingRewards d) LegacyZeroDec pool).
  assert (validateInflationDistribution d' = Ok None) as Hd.
  { unfold validateInflationDistribution. rewrite !IsNegative_spec, dec_IsZero_spec. cbn [d' id_StakingRewards id_UsageIncentives id_CommunityPool].
    rewrite Hzero. destruct (Z.ltb_spec (raw (id_StakingRewards d)) 0); [lia|]. cbn [Z.eqb negb].
    destruct (Z.ltb_spec (raw pool) 0); [lia|].
    destruct (Add_ok (id_StakingRewards d) LegacyZeroDec) as (sum & -> & Hsum); [unfold dec_fits; lia|]. rewrite Ok_bind.
    destruct (Add_ok sum pool) as (total & -> & Htotal); [unfold dec_fits; lia|]. rewrite Ok_bind, Equal_spec.
    by rewrite (proj2 (Z.eqb_eq _ _)) by lia. }
  unfold Inflation.Params_Validate at 1. cbn [ip_MintDenom ip_ExponentialCalculation ip_InflationDistribution]. rewrite Hm, Hx, Hd, Ok_bind.
  eexists. split; [done|]. cbn [Inflation.GetParams Inflation.SetParams is_params]. unfold Inflation.Params_Validate.
  cbn [ip_MintDenom ip_ExponentialCalculation ip_InflationDistribution]. rewrite Hm, Hx, Hd. cbn. split_and!; [done..|lia].
Qed.

(** The proposals that are deleted, with repetitions: one for each message about incentives. *)
Definition doomed (l : list proposal) : list Z :=
  l ≫= λ pr, (λ _, pr_Id pr) <$> filter (λ m, is_incentives m = true) (default [] (pr_Msgs pr)).

Fixpoint delete_ids (ids : list Z) (u : U) : partial U :=
  match ids with [] => Ok u | id :: ids => u ← ue_DeleteProposal ue id u; delete_ids ids u end.

Lemma delete_ids_app l l' u : delete_ids (l ++ l') u = (u ← delete_ids l u; delete_ids l' u).
Proof.
  revert u. induction l as [|id l IH]; intros u; [done|]. cbn [app delete_ids]. destruct (ue_DeleteProposal ue id u); [|done..].
  rewrite !Ok_bind. apply IH.
Qed.

Lemma delete_for_ids id msgs u : delete_for ue id msgs u = delete_ids ((λ _, id) <$> filter (λ m, is_incentives m = true) msgs) u.
Proof.
  revert u. induction msgs as [|m msgs IH]; intros u; [done|]. cbn [delete_for]. rewrite filter_cons.
  case_decide as Hm; [|rewrite (not_true_is_false _ Hm); apply IH]. rewrite Hm. cbn [delete_ids fmap list_fmap].
  destruct (ue_DeleteProposal ue id u); [apply IH|done..].
Qed.

(** Exactly the proposals with a message about incentives are deleted; one with two such
    messages is deleted twice, although it is gone after the first. *)
Theorem proposals_deleted u : DeleteIncentivesProposals ue u = delete_ids (doomed (ue_Proposals ue u)) u.
Proof.
  unfold DeleteIncentivesProposals. generalize (ue_Proposals ue u). intros l. revert u.
  induction l as [|pr l IH]; intros u; [done|]. cbn [delete_all doomed mbind list_bind]. rewrite delete_ids_app.
  destruct (pr_Msgs pr) as [msgs|]; cbn [default]; [rewrite delete_for_ids|apply IH].
  destruct (delete_ids _ u); [apply IH|done..].
Qed.
End Upgraded.
