(* ===== verification/EvmGenesis.v ===== *)
(** * Genesis of the EVM module: [x/evm/genesis.go], [x/evm/types]

    The genesis state with its validation ([types/genesis.go], [types/storage.go]), the
    import into the store, which panics on a state it cannot take, and the export of
    the storage and the code of every Ethereum account.  [IterateAccounts] of the auth
    module is the parameter [accounts] and the hash of a code [keccak]; the hex
    encoding of codes is that of Go's [encoding/hex].  At the end, the import of an
    export gives back the state it was taken from. *)

From S2P Require Import Prelude Sdk StateDB EvmKeeper EvmKeeperSpec EvmTx EvmTxSpec GasMeter Dec EvmApply EvmApplySpec EvmParams EvmParamsSpec ChainID.

(** ** Hex: [common.Bytes2Hex], [common.Hex2Bytes] *)

Definition hex_char (d : Z) : Ascii.ascii :=
  Ascii.ascii_of_N (Z.to_N (if d <? 10 then 48 + d else 87 + d)).

(** The value of a hex digit, in either case. *)
Definition hex_val (c : Ascii.ascii) : option Z :=
  let n := Z.of_N (Ascii.N_of_ascii c) in
  if (48 <=? n) && (n <=? 57) then Some (n - 48)
  else if (97 <=? n) && (n <=? 102) then Some (n - 87)
  else if (65 <=? n) && (n <=? 70) then Some (n - 55)
  else None.

Fixpoint Bytes2Hex (bz : list byte) : string :=
  match bz with
  | [] => EmptyString
  | b :: bz => String (hex_char (b / 16)) (String (hex_char (b mod 16)) (Bytes2Hex bz))
  end.

(** The bytes before the first pair that is not hex; the error is ignored. *)
Fixpoint Hex2Bytes (s : string) : list byte :=
  match s with
  | String c (String d s) =>
      match hex_val c, hex_val d with
      | Some h, Some l => (16 * h + l) :: Hex2Bytes s
      | _, _ => []
      end
  | _ => []
  end.

(** ** Data *)

Record State := mkState { st_Key : string; st_Value : string }.

Record GenesisAccount := mkGenesisAccount {
  ga_Address : string;
  ga_Code : string;
  ga_Storage : list State
}.

Record GenesisState := mkGenesisState {
  gs_Accounts : list GenesisAccount;
  gs_Params : Params
}.

Inductive genesis_error :=
| GErrDuplicateAccount (address : string)
| GErrAddress (address : string)
| GErrDuplicateKey (key : string)
| GErrBlankKey
| GErrParams (e : params_error).

Abbreviation genesis_result A := (outcome genesis_error A).

Section Genesis.
Context `{EE : EvmEnv} `{GE : Geth}.
Variable pe : params_env.
Variable keccak : list byte → Hash.
Variable accounts : chain → list (AccountI base other).

(** ** Validation *)

Definition State_Validate (s : State) : genesis_result () :=
  if blank (st_Key s) then Err GErrBlankKey else Ok ().

Definition Storage_Validate (s : list State) : genesis_result () :=
  each_unique st_Key (λ dup state,
    if dup then Err (GErrDuplicateKey (st_Key state)) else State_Validate state) [] s.

Definition GenesisAccount_Validate (ga : GenesisAccount) : genesis_result () :=
  match ValidateAddress (ga_Address ga) with
  | Ok () => Storage_Validate (ga_Storage ga)
  | _ => Err (GErrAddress (ga_Address ga))
  end.

Definition GenesisState_Validate (gs : GenesisState) : genesis_result () :=
  _ ← each_unique ga_Address (λ dup acc,
    if dup then Err (GErrDuplicateAccount (ga_Address acc)) else GenesisAccount_Validate acc) [] (gs_Accounts gs);
  match Params_Validate pe (gs_Params gs) with
  | Ok () => Ok ()
  | Err e => Err (GErrParams e)
  | Panic => Panic
  end.

Definition DefaultGenesisState : GenesisState := mkGenesisState [] DefaultParams.

Definition NewState (key value : Hash) : State := mkState (Hash_Hex key) (Hash_Hex value).

(** ** The keeper at genesis *)

Record genesis_keeper := mkGenesisKeeper {
  gk_store : evm_store;
  gk_params : params_state;
  gk_chainID : option Z
}.

(** One account of the import. *)
Definition init_account (account : GenesisAccount) (s : evm_store) : partial evm_store :=
  let address := HexToAddress (ga_Address account) in
  match auth_GetAccount (ek_chain s) address with
  | Some (EthAccount _ h) =>
      let code := Hex2Bytes (ga_Code account) in
      let codeHash := keccak code in
      if negb (bool_decide (ga_Code account = EmptyString)) && negb (bool_decide (h = codeHash)) then Panic
      else
        let s := SetCode codeHash (Some code) s in
        Ok (foldl (λ s storage,
              SetState address (HexToHash (st_Key storage)) (Hash_Bytes (HexToHash (st_Value storage))) s)
              s (ga_Storage account))
  | Some (OtherAccount _) | None => Panic
  end.

Fixpoint init_accounts (l : list GenesisAccount) (s : evm_store) : partial evm_store :=
  match l with
  | [] => Ok s
  | account :: l => s ← init_account account s; init_accounts l s
  end.

(** [hasModule] tells whether the address of the EVM module account is set. *)
Definition InitGenesis (chainID : string) (hasModule : bool) (data : GenesisState) (k : genesis_keeper) :
    partial genesis_keeper :=
  id ← WithChainID chainID (gk_chainID k);
  match SetParams pe (gs_Params data) (gk_params k) with
  | Ok ps =>
      if negb hasModule then Panic
      else
        s ← init_accounts (gs_Accounts data) (gk_store k);
        Ok (mkGenesisKeeper s ps id)
  | _ => Panic
  end.

Definition export_account (s : evm_store) (account : AccountI base other) : option GenesisAccount :=
  match account with
  | EthAccount b h =>
      let addr := EthAddress (base_address b) in
      Some (mkGenesisAccount (Address_Hex addr) (Bytes2Hex (default [] (GetCode h s)))
              (map (λ '(key, value), NewState key value) (GetAccountStorage addr s)))
  | OtherAccount _ => None
  end.

Definition ExportGenesis (k : genesis_keeper) : GenesisState :=
  mkGenesisState (omap (export_account (gk_store k)) (accounts (ek_chain (gk_store k))))
    (GetParams (gk_params k)).
End Genesis.

(** ** Hex round trip *)

Lemma hex_val_char d : 0 <= d < 16 → hex_val (hex_char d) = Some d.
Proof.
  intros Hd. destruct d as [|p|p]; [done| |lia].
  do 4 (destruct p as [p|p|]; try done); lia.
Qed.

Lemma Hex2Bytes_Bytes2Hex bz : Forall (λ b, 0 <= b < 256) bz → Hex2Bytes (Bytes2Hex bz) = bz.
Proof.
  induction 1 as [|b bz Hb _ IH]; [done|]. cbn [Bytes2Hex Hex2Bytes].
  pose proof (Z.mod_pos_bound b 16 ltac:(lia)).
  assert (0 <= b / 16 < 16) by (split; [apply Z.div_pos|apply Z.div_lt_upper_bound]; lia).
  rewrite !hex_val_char, IH by lia.
  f_equal. pose proof (Z.div_mod b 16 ltac:(lia)). lia.
Qed.

(** ** What the validation accepts *)

Section Validation.
Context `{GE : Geth}.
Variable pe : params_env.

Definition storage_ok (l : list State) : Prop :=
  NoDup (st_Key <$> l) ∧ Forall (λ s, blank (st_Key s) = false) l.

Lemma Storage_Validate_Ok l : Storage_Validate l = Ok () ↔ storage_ok l.
Proof.
  apply (each_unique_nil_Ok st_Key). intros dup s. unfold State_Validate.
  destruct dup, (blank (st_Key s)); naive_solver.
Qed.

(** Addresses and keys are told apart as strings. *)
Lemma GenesisState_Validate_Ok gs :
  GenesisState_Validate pe gs = Ok () ↔
  NoDup (ga_Address <$> gs_Accounts gs) ∧
  Forall (λ ga, IsHexAddress (ga_Address ga) = true ∧ storage_ok (ga_Storage ga)) (gs_Accounts gs) ∧
  params_ok pe (gs_Params gs).
Proof.
  unfold GenesisState_Validate. rewrite <-Params_Validate_Ok, (assoc (∧)).
  rewrite <-(each_unique_nil_Ok ga_Address (λ (dup : bool) acc,
    if dup then Err (GErrDuplicateAccount (ga_Address acc)) else GenesisAccount_Validate acc)).
  - split.
    + intros H. apply bind_Ok_inv in H as ([] & H1 & H2). split; [done|].
      by destruct (Params_Validate pe (gs_Params gs)) as [[]| |].
    + intros [-> ->]. done.
  - intros dup acc. unfold GenesisAccount_Validate. rewrite <-Storage_Validate_Ok, <-ValidateAddress_Ok.
    destruct dup, (ValidateAddress (ga_Address acc)) as [[]| |]; naive_solver.
Qed.
End Validation.

(** ** Importing an export *)

Section Roundtrip.
Context `{EE : EvmEnv} `{GE : Geth} `{GL : !GethLaws}.
Variable pe : params_env.
Variable keccak : list byte → Hash.
Variable accounts : chain → list (AccountI base other).

(** [IterateAccounts] visits stored accounts, each once; those that are Ethereum accounts
    have an address of twenty bytes. *)
Record iterates (c : chain) : Prop := {
  it_stored x : x ∈ accounts c → auth_GetAccount c (acct_address x) = Some x;
  it_once : NoDup (acct_address <$> accounts c);
  it_address b h : EthAccount b h ∈ accounts c → in_address (base_address b)
}.

(** What the operations of the keeper maintain of the code and the storage. *)
Record store_ok (s : evm_store) : Prop := {
  so_keys a key : is_Some (account_slots a s !! key) → in_hash key;
  so_code h code : GetCode h s = Some code → code ≠ [] ∧ Forall (λ b, 0 <= b < 256) code ∧ keccak code = h;
  so_no_empty : GetCode (keccak []) s = None
}.

Lemma GetState_slots s s' a : account_slots a s' = account_slots a s → ∀ key, GetState a key s' = GetState a key s.
Proof. intros Hs key. unfold GetState. by rewrite Hs. Qed.

Lemma BytesToHash_range bz : in_hash (BytesToHash bz).
Proof. apply Z.mod_pos_bound. lia. Qed.

Lemma GetState_Set a key value s a' key' :
  in_hash value →
  GetState a' key' (SetState a key (Hash_Bytes value) s) =
    if decide (a' = a ∧ key' = key) then value else GetState a' key' s.
Proof.
  intros Hv. assert (Hash_Bytes value ≠ []) as Hne.
  { intros He%(f_equal length). unfold Hash_Bytes in He. by rewrite length_be_bytes in He. }
  unfold GetState. rewrite SetState_slots. destruct (decide (a' = a)) as [->|].
  2: { rewrite decide_False by naive_solver. done. }
  destruct (Hash_Bytes value) as [|b bz] eqn:Hb; [done|]. rewrite lookup_insert.
  destruct (decide (key = key')) as [<-|]; [|rewrite decide_False by naive_solver; done].
  rewrite decide_True by done. rewrite <-Hb. by apply BytesToHash_Bytes.
Qed.

Definition import_states (a : Address) (l : list (Hash * Hash)) (s : evm_store) : evm_store :=
  foldl (λ s storage,
    SetState a (HexToHash (st_Key storage)) (Hash_Bytes (HexToHash (st_Value storage))) s) s
    (map (λ '(key, value), NewState key value) l).

(** The states of an account, imported: the slots listed get their values. *)
Lemma import_states_spec a l s :
  Forall (λ kv, in_hash (fst kv) ∧ in_hash (snd kv)) l → NoDup l.*1 →
  let s' := import_states a l s in
  ek_chain s' = ek_chain s ∧ ek_code s' = ek_code s ∧
  (∀ a' key, a' ≠ a ∨ key ∉ l.*1 → GetState a' key s' = GetState a' key s) ∧
  (∀ key v, (key, v) ∈ l → GetState a key s' = v).
Proof.
  intros Hl. revert s. induction Hl as [|[key value] l [Hk Hv] _ IH]; intros s Hn.
  { split_and!; [done|done|done|set_solver]. }
  rewrite fmap_cons in Hn. apply NoDup_cons in Hn as [Hnk Hn]. cbn [fst snd] in *.
  set (s1 := SetState a key (Hash_Bytes value) s).
  assert (import_states a ((key, value) :: l) s = import_states a l s1) as ->.
  { unfold import_states, s1. cbn. by rewrite !HexToHash_Hex. }
  destruct (IH s1 Hn) as (Hc & Hcode & Hother & Hin). split_and!.
  - exact Hc.
  - exact Hcode.
  - intros a' key' Hne. rewrite fmap_cons in Hne. rewrite Hother by set_solver.
    unfold s1. rewrite GetState_Set by done. rewrite decide_False; [done|]. set_solver.
  - intros key' v [[= -> ->]|Hkv]%elem_of_cons; [|by apply Hin].
    rewrite Hother by auto. unfold s1. rewrite GetState_Set by done. by rewrite decide_True.
Qed.

Lemma storage_pairs_wf a s : store_ok s → Forall (λ kv, in_hash (fst kv) ∧ in_hash (snd kv)) (storage_pairs a s).
Proof.
  intros Hs. apply Forall_forall. intros [key v] Hin. unfold storage_pairs in Hin.
  apply list_elem_of_omap in Hin as (k & _ & Hk). destruct (account_slots a s !! k) as [bz|] eqn:Hb; [|done].
  injection Hk as <- <-. split; [eapply so_keys; [done|by exists bz]|apply BytesToHash_range].
Qed.

(** The pairs of the iterator are the slots as [GetState] reads them. *)
Lemma storage_pairs_state a s key :
  (∃ v, (key, v) ∈ storage_pairs a s ∧ GetState a key s = v) ∨
  ((key ∉ (storage_pairs a s).*1) ∧ GetState a key s = 0).
Proof.
  unfold GetState. destruct (account_slots a s !! key) as [bz|] eqn:Hb.
  - left. exists (BytesToHash bz). split; [|by destruct bz].
    unfold storage_pairs. apply list_elem_of_omap. exists key.
    split; [by apply elem_of_sorted_keys; exists bz|]. by rewrite Hb.
  - right. split; [|done]. rewrite storage_pairs_keys, elem_of_sorted_keys, Hb. by intros [].
Qed.

(** ** One account, then all *)

(** [t] has no other code than [s]. *)
Definition code_within (s t : evm_store) : Prop := ∀ h code, GetCode h t = Some code → GetCode h s = Some code.

Lemma SetCode_export h s t :
  store_ok s → code_within s t →
  let code := default [] (GetCode h s) in
  let t' := SetCode (keccak code) (Some code) t in
  code_within s t' ∧ (∀ h' c, GetCode h' t = Some c → GetCode h' t' = Some c) ∧ GetCode h t' = GetCode h s.
Proof.
  intros Hs Ht. pose proof (so_no_empty s Hs) as Hempty.
  destruct (GetCode h s) as [code|] eqn:Hh; cbn [default from_option id].
  - destruct (so_code s Hs h code Hh) as (Hne & _ & ->). destruct code as [|b code]; [done|].
    unfold code_within, GetCode in *. cbn [SetCode ek_code]. split_and!.
    + intros h' c. rewrite lookup_insert. case_decide; [naive_solver|apply Ht].
    + intros h' c Hc. rewrite lookup_insert. case_decide; [|done]. subst. apply Ht in Hc. congruence.
    + by rewrite lookup_insert_eq.
  - unfold code_within, GetCode in *. cbn [SetCode ek_code]. split_and!.
    + intros h' c. rewrite lookup_delete. case_decide; [done|apply Ht].
    + intros h' c Hc. rewrite lookup_delete. case_decide; [|done]. subst. apply Ht in Hc. congruence.
    + rewrite lookup_delete. case_decide; [done|].
      destruct (ek_code t !! h) as [c|] eqn:Hc; [|done]. apply Ht in Hc. congruence.
Qed.

Lemma Bytes2Hex_nil bz : Bytes2Hex bz = EmptyString ↔ bz = [].
Proof. by destruct bz. Qed.

Lemma init_export_account s t b h ga :
  store_ok s → code_within s t → in_address (base_address b) →
  auth_GetAccount (ek_chain t) (base_address b) = Some (EthAccount b h) →
  export_account s (EthAccount b h) = Some ga →
  (∀ key, GetState (base_address b) key t = 0) →
  ∃ t', init_account keccak ga t = Ok t' ∧ ek_chain t' = ek_chain t ∧ code_within s t' ∧
    (∀ h' c, GetCode h' t = Some c → GetCode h' t' = Some c) ∧ GetCode h t' = GetCode h s ∧
    (∀ key, GetState (base_address b) key t' = GetState (base_address b) key s) ∧
    (∀ a key, a ≠ base_address b → GetState a key t' = GetState a key t).
Proof.
  intros Hs Ht Ha Hacct [= <-] Hzero. rewrite !EthAddress_small by done.
  unfold init_account. cbn [ga_Address ga_Code ga_Storage].
  rewrite HexToAddress_Hex by done. rewrite Hacct. set (code := default [] (GetCode h s)).
  assert (Forall (λ b, 0 <= b < 256) code) as Hbytes.
  { unfold code. destruct (GetCode h s) eqn:Hh; [by apply (so_code s Hs h)|constructor]. }
  assert (code ≠ [] → keccak code = h) as Hhash.
  { unfold code. destruct (GetCode h s) eqn:Hh; [intros _; by apply (so_code s Hs h)|done]. }
  rewrite Hex2Bytes_Bytes2Hex by done.
  destruct (SetCode_export h s t Hs Ht) as (Hin & Hkeep & Hcode). fold code in Hin, Hkeep, Hcode.
  set (t1 := SetCode (keccak code) (Some code) t) in *.
  replace (negb (bool_decide (Bytes2Hex code = EmptyString)) && negb (bool_decide (h = keccak code))) with false.
  2: { symmetry. apply andb_false_iff. destruct (decide (code = [])) as [->|Hne]; [by left|right].
       rewrite Hhash by done. by rewrite bool_decide_eq_true_2. }
  unfold GetAccountStorage. fold (import_states (base_address b) (storage_pairs (base_address b) s) t1).
  destruct (import_states_spec (base_address b) (storage_pairs (base_address b) s) t1) as (H1 & H2 & H3 & H4).
  { by apply storage_pairs_wf. }
  { rewrite storage_pairs_keys. apply NoDup_sorted_keys. }
  eexists. split; [done|]. split_and!; [done| | | | |].
  - intros h' c. unfold GetCode. rewrite H2. apply Hin.
  - intros h' c Hc. unfold GetCode. rewrite H2. by apply Hkeep.
  - unfold GetCode at 1. by rewrite H2.
  - intros key. destruct (storage_pairs_state (base_address b) s key) as [(v & Hv & ->)|[Hn ->]]; [by apply H4|].
    rewrite H3 by by right. exact (Hzero key).
  - intros a key Hne. by rewrite H3 by by left.
Qed.

Lemma code_kept s t t' h :
  code_within s t' → (∀ h' c, GetCode h' t = Some c → GetCode h' t' = Some c) →
  GetCode h t = GetCode h s → GetCode h t' = GetCode h s.
Proof.
  intros Hin Hkeep Heq. destruct (GetCode h s) as [c|] eqn:Hs; [by apply Hkeep|].
  destruct (GetCode h t') as [c|] eqn:Ht; [|done]. apply Hin in Ht. congruence.
Qed.

Lemma init_export_accounts s l t :
  store_ok s → code_within s t →
  (∀ x, x ∈ l → auth_GetAccount (ek_chain t) (acct_address x) = Some x) →
  (∀ b h, EthAccount b h ∈ l → in_address (base_address b)) →
  NoDup (acct_address <$> l) → (∀ a key, a ∈ acct_address <$> l → GetState a key t = 0) →
  ∃ t', init_accounts keccak (omap (export_account s) l) t = Ok t' ∧ ek_chain t' = ek_chain t ∧
    code_within s t' ∧ (∀ h' c, GetCode h' t = Some c → GetCode h' t' = Some c) ∧
    (∀ b h, EthAccount b h ∈ l → GetCode h t' = GetCode h s ∧
      ∀ key, GetState (base_address b) key t' = GetState (base_address b) key s) ∧
    (∀ a key, a ∉ acct_address <$> l → GetState a key t' = GetState a key t).
Proof.
  intros Hs. revert t. induction l as [|x l IH]; intros t Ht Hl Haddrs Hn Hz.
  { exists t. split_and!; try done. set_solver. }
  rewrite fmap_cons in Hn. apply NoDup_cons in Hn as [Hx Hn].
  pose proof (Hl x ltac:(set_solver)) as Hacct. cbn [omap list_omap].
  destruct x as [b h|o]; cbn [export_account].
  - pose proof (Haddrs b h ltac:(set_solver)) as Haddr.
    destruct (init_export_account s t b h _ Hs Ht Haddr Hacct eq_refl) as (t1 & Hrun & Hc & Hin & Hk & Hcode & Hst & Ho).
    { intros key. apply Hz. rewrite fmap_cons. set_solver. }
    destruct (IH t1) as (t' & Hrun' & Hc' & Hin' & Hk' & Heth & Ho'); [done| | |done| |].
    { intros x Hx'. rewrite Hc. apply Hl. set_solver. }
    { intros b' h' Hx'. apply (Haddrs b' h'). set_solver. }
    { intros a key Ha. rewrite Ho; [apply Hz; rewrite fmap_cons; set_solver|]. intros ->. by apply Hx. }
    exists t'. cbn [init_accounts]. rewrite Hrun, Ok_bind. split_and!; [done|congruence|done|naive_solver| |].
    + intros b' h' [[= -> ->]|Hin'']%elem_of_cons; [|by apply Heth].
      split; [by eapply code_kept|]. intros key. rewrite Ho' by done. apply Hst.
    + intros a key. rewrite fmap_cons, not_elem_of_cons. intros [Hne Hna]. rewrite Ho' by done. by apply Ho.
  - destruct (IH t) as (t' & Hrun' & Hc' & Hin' & Hk' & Heth & Ho'); [done| | |done| |].
    { intros x Hx'. apply Hl. set_solver. }
    { intros b' h' Hx'. apply (Haddrs b' h'). set_solver. }
    { intros a key Ha. apply Hz. rewrite fmap_cons. set_solver. }
    exists t'. split_and!; try done.
    + intros b' h' [[=]|Hin'']%elem_of_cons. by apply Heth.
    + intros a key. rewrite fmap_cons, not_elem_of_cons. intros [_ Hna]. by apply Ho'.
Qed.

(** C23.  Exporting the module and importing the result into a chain with the same
    accounts and an empty EVM store succeeds and gives the module back: the same
    parameters, and for every Ethereum account the same code and the same value in
    every storage slot.  The Ethereum accounts have addresses of twenty bytes. *)
Theorem genesis_roundtrip (k k0 : genesis_keeper) (chainID : string) (id : option Z) :
  iterates (ek_chain (gk_store k)) → store_ok (gk_store k) →
  is_Some (ps_params (gk_params k)) → stored_ok pe (gk_params k) →
  (∀ a, auth_GetAccount (ek_chain (gk_store k0)) a = auth_GetAccount (ek_chain (gk_store k)) a) →
  ek_storage (gk_store k0) = ∅ → ek_code (gk_store k0) = ∅ →
  WithChainID chainID (gk_chainID k0) = Ok id →
  ∃ k', InitGenesis pe keccak chainID true (ExportGenesis accounts k) k0 = Ok k' ∧
    gk_chainID k' = id ∧ ek_chain (gk_store k') = ek_chain (gk_store k0) ∧
    GetParams (gk_params k') = GetParams (gk_params k) ∧
    ∀ b h, EthAccount b h ∈ accounts (ek_chain (gk_store k)) →
      GetCode h (gk_store k') = GetCode h (gk_store k) ∧
      ∀ key, GetState (base_address b) key (gk_store k') = GetState (base_address b) key (gk_store k).
Proof.
  intros Hit Hs [p Hp] Hstored Hacc Hst0 Hcode0 Hid. unfold InitGenesis. rewrite Hid, Ok_bind.
  assert (GetParams (gk_params k) = p) as HGp by (unfold GetParams; by rewrite Hp).
  pose proof (Hstored p Hp) as Hok.
  assert (SetParams pe (gs_Params (ExportGenesis accounts k)) (gk_params k0) =
    Ok (mkParamsState (Some p) (ps_legacy (gk_params k0)) (ps_precompiles (gk_params k0)))) as ->.
  { cbn [gs_Params ExportGenesis]. rewrite HGp. unfold SetParams.
    rewrite slices_Sort_sorted_id by apply (Hok 3%nat).
    replace (with_precompiles (p_ActivePrecompiles p) p) with p by by destruct p.
    by rewrite (proj2 (Params_Validate_Ok pe p) Hok). }
  destruct (init_export_accounts (gk_store k) (accounts (ek_chain (gk_store k))) (gk_store k0))
    as (t' & Hrun & Hc & _ & _ & Heth & _).
  - done.
  - intros h code. unfold GetCode. by rewrite Hcode0.
  - intros x Hx. rewrite Hacc. by apply (it_stored _ Hit).
  - apply (it_address _ Hit).
  - apply it_once, Hit.
  - intros a key _. unfold GetState, account_slots. by rewrite Hst0.
  - cbn [negb]. unfold ExportGenesis. cbn [gs_Accounts]. rewrite Hrun, Ok_bind.
    eexists. split_and!; [done|done|done|by rewrite HGp|exact Heth].
Qed.
End Roundtrip.

(** ** A chain of its own *)

Module GenesisToy.
Import MapCoins MapBank EvmToy ZDec GethToy ApplyToy ParamsToy.

(** The accounts of the toy chain: a contract at 7 and an external account at 8. *)
Definition toy_accounts (c : chain) : list (AccountI base other) :=
  omap (auth_GetAccount c) [7; 8].

Definition toy_hash (bz : list byte) : Hash := foldl (λ h b, h * 256 + b) 1 bz.

Definition code : list byte := [96; 1].

Definition toy_chain : chain :=
  mkToyChain 0 {[ 7 := (Some (toy_hash code), 3); 8 := (Some 99, 0) ]} (mkBank ∅ ∅).

Definition full : genesis_keeper :=
  mkGenesisKeeper
    (mkEvmStore toy_chain {[ 7 := {[ 1 := [5]; 2 := [1; 0] ]} ]} {[ toy_hash code := code ]}) start (Some 5439).

Definition fresh : genesis_keeper :=
  mkGenesisKeeper (mkEvmStore toy_chain ∅ ∅) (mkParamsState None DefaultParams ∅) None.

Lemma full_iterates : iterates toy_accounts toy_chain.
Proof.
  split.
  - intros x [->|[->|[]%not_elem_of_nil]%elem_of_cons]%elem_of_cons; reflexivity.
  - apply (bool_decide_eq_true_1 _). vm_compute. reflexivity.
  - intros b h [[= -> ->]|[[= -> ->]|[]%not_elem_of_nil]%elem_of_cons]%elem_of_cons; vm_compute; split; congruence.
Qed.

Lemma full_store_ok : store_ok toy_hash (gk_store full).
Proof.
  split.
  - intros a key [bz Hbz]. unfold account_slots, full in Hbz. cbn [gk_store ek_storage] in Hbz.
    rewrite lookup_singleton in Hbz. destruct (decide (7 = a)); [|done]. cbn in Hbz.
    apply lookup_insert_Some in Hbz as [[<- _]|[_ [<- _]%lookup_singleton_Some]]; split; lia.
  - intros h c Hc. unfold GetCode, full in Hc. cbn [gk_store ek_code] in Hc.
    apply lookup_singleton_Some in Hc as [<- <-]. split_and!; [done| |done]. unfold code. repeat constructor; lia.
  - vm_compute. reflexivity.
Qed.

Lemma genesis_roundtrip_witness :
  ∃ k', InitGenesis toy_env toy_hash "dhives_5439-1" true (ExportGenesis toy_accounts full) fresh = Ok k' ∧
    GetState 7 2 (gk_store k') = 256 ∧ GetCode (toy_hash code) (gk_store k') = Some code.
Proof.
  destruct (genesis_roundtrip toy_env toy_hash toy_accounts full fresh "dhives_5439-1" (Some 5439))
    as (k' & Hrun & _ & _ & _ & Heth).
  - exact full_iterates.
  - exact full_store_ok.
  - exists DefaultParams. reflexivity.
  - exact start_ok.
  - reflexivity.
  - reflexivity.
  - reflexivity.
  - vm_compute. reflexivity.
  - destruct (Heth (7, 3) (toy_hash code)) as [Hcode Hstate]; [left|].
    exists k'. split; [exact Hrun|]. split; [|exact Hcode].
    etransitivity; [exact (Hstate 2)|]. vm_compute. reflexivity.
Defined.
End GenesisToy.
