(* ===== verification/EvmQuery.v ===== *)
(** * Calls without a transaction: [x/evm/keeper/grpc_query.go], [x/evm/types/tx_args.go]

    [EthCall] runs a message that is not committed; [EstimateGasInternal] searches the
    gas limit a message needs.  The search is [BinSearch] with the store made
    explicit: a query of an RPC client tries each limit on a copy of the store, a
    search for the [x/erc20] module on the store of the transaction.  The requests are
    decoded, and the configuration of the block is that of the module. *)

From S2P Require Import Prelude Sdk Dec AccessList StateDB EvmKeeper EvmTx GasMeter EvmApply.

(** ** Arguments *)

Record TransactionArgs := mkTransactionArgs {
  arg_From : option Address;
  arg_To : option Address;
  arg_Gas : option Z;
  arg_GasPrice : option Z;
  arg_MaxFeePerGas : option Z;
  arg_MaxPriorityFeePerGas : option Z;
  arg_Value : option Z;
  arg_Nonce : option Z;
  arg_Data : option (list byte);
  arg_Input : option (list byte);
  arg_AccessList : option eth_access_list;
  arg_ChainID : option Z
}.

Definition args_GetFrom (args : TransactionArgs) : Address := default 0 (arg_From args).

Definition args_GetData (args : TransactionArgs) : list byte :=
  match arg_Input args with
  | Some input => input
  | None => default [] (arg_Data args)
  end.

Definition set_nonce (nonce : Z) (args : TransactionArgs) : TransactionArgs :=
  mkTransactionArgs (arg_From args) (arg_To args) (arg_Gas args) (arg_GasPrice args) (arg_MaxFeePerGas args)
    (arg_MaxPriorityFeePerGas args) (arg_Value args) (Some nonce) (arg_Data args) (arg_Input args)
    (arg_AccessList args) (arg_ChainID args).

(** The gas price a message runs with, and its fee cap.  With a base fee, and without
    a legacy price, the price is min (tip + base fee, cap), or zero when tip and cap
    are. *)
Definition message_price (args : TransactionArgs) (baseFee : option Z) : Z * Z :=
  match arg_GasPrice args, baseFee with
  | Some p, _ => (p, p)
  | None, None => (0, 0)
  | None, Some baseFee =>
      let gasFeeCap := default 0 (arg_MaxFeePerGas args) in
      let gasTipCap := default 0 (arg_MaxPriorityFeePerGas args) in
      (if bool_decide (gasFeeCap = 0 ∧ gasTipCap = 0) then 0 else Z.min (gasTipCap + baseFee) gasFeeCap, gasFeeCap)
  end.

(** The gas limit of a message: the limit of the arguments, or the cap, or half the
    range, never above a cap that is not zero. *)
Definition message_gas (args : TransactionArgs) (globalGasCap : Z) : Z :=
  let gas := default (if globalGasCap =? 0 then MaxUint64 / 2 else globalGasCap) (arg_Gas args) in
  if negb (globalGasCap =? 0) && (globalGasCap <? gas) then globalGasCap else gas.

(** [None] when the old and the new way to give a price are mixed. *)
Definition ToMessage (args : TransactionArgs) (globalGasCap : Z) (baseFee : option Z) : option Message :=
  if bool_decide (is_Some (arg_GasPrice args)) &&
     bool_decide (is_Some (arg_MaxFeePerGas args) ∨ is_Some (arg_MaxPriorityFeePerGas args))
  then None
  else
    let '(gasPrice, gasFeeCap) := message_price args baseFee in
    Some (mkMessage (args_GetFrom args) (arg_To args) (default 0 (arg_Nonce args)) (default 0 (arg_Value args))
            (message_gas args globalGasCap) gasPrice gasFeeCap (args_GetData args) (default [] (arg_AccessList args))).

Section ToTransaction.
Context `{GE : Geth}.

(** A field that is there must fit in 256 bits. *)
Definition int_field (i : option Z) : partial (option Z) :=
  match i with None => Ok None | Some i => Some <$> NewIntFromBigInt i end.

Definition ToTransaction (args : TransactionArgs) : partial MsgEthereumTx :=
  chainID ← int_field (arg_ChainID args);
  gasPrice ← int_field (arg_GasPrice args);
  maxFeePerGas ← int_field (arg_MaxFeePerGas args);
  maxPriorityFeePerGas ← int_field (arg_MaxPriorityFeePerGas args);
  value ← int_field (arg_Value args);
  let to := match arg_To args with None => EmptyString | Some a => Address_Hex a end in
  let c := mkTxCommon (default 0 (arg_Nonce args)) (default 0 (arg_Gas args)) to value (args_GetData args) [] [] [] in
  let data :=
    match arg_MaxFeePerGas args, arg_AccessList args with
    | Some _, al => DynamicFeeTx c chainID maxPriorityFeePerGas maxFeePerGas (NewAccessList (default [] al))
    | None, Some al => AccessListTx c chainID gasPrice (NewAccessList al)
    | None, None => LegacyTx c gasPrice
    end in
  let from := match arg_From args with None => EmptyString | Some a => Address_Hex a end in
  Ok (mkMsgEthereumTx (Some data) 0 (tx_hash_hex data) from).
End ToTransaction.

(** ** The search *)

Inductive CallType := RPC | Internal.

Fixpoint search_loop {S E} (fuel : nat) (executable : Z → S → outcome E (bool * S)) (lo hi : Z) (s : S) :
    option (outcome E (Z * S)) :=
  if u64 (lo + 1) <? hi then
    match fuel with
    | O => None
    | S fuel =>
        let mid := u64 (hi + lo) / 2 in
        match executable mid s with
        | Err e => Some (Err e)
        | Panic => Some Panic
        | Ok (true, s) => search_loop fuel executable mid hi s
        | Ok (false, s) => search_loop fuel executable lo mid s
        end
    end
  else Some (Ok (hi, s)).

Inductive query_error `{EvmEnv} :=
| QErrGasCap
| QErrArguments
| QErrApply (e : apply_error)
| QErrSetAccount (e : evm_error)
| QErrReverted (ret : list byte)
| QErrVm (vmError : string)
| QErrAllowance (gasCap : Z)
| QErrFuel.

Definition TxGas : Z := 21000.
Definition ErrOutOfGas_text : string := "out of gas".
Definition ErrExecutionReverted_text : string := "execution reverted".

Section EvmQuery.
Context `{EE : EvmEnv} `{GE : Geth} `{LD : LegacyDec}.

Variable k : EvmModule.
Variable consensusMaxGas : option Z.   (* [ConsensusParams.Block.MaxGas] *)

Record EthCallRequest := mkEthCallRequest { req_Args : option TransactionArgs; req_GasCap : Z }.

Definition of_applied {A} (o : outcome apply_error A) : outcome query_error A :=
  match o with Ok a => Ok a | Err e => Err (QErrApply e) | Panic => Panic end.

(** The store is that of the query: what a stateful precompile writes is in it, and is
    dropped when the query ends. *)
Definition EthCall (req : EthCallRequest) (s : evm_store) : outcome query_error (MsgEthereumTxResponse * evm_store) :=
  match req_Args req with
  | None => Err QErrArguments
  | Some args =>
      let args := set_nonce (EvmKeeper.GetNonce (args_GetFrom args) s) args in
      match ToMessage args (req_GasCap req) (ec_BaseFee (k_config k)) with
      | None => Err QErrArguments
      | Some msg => of_applied (ApplyMessage k msg false s)
      end
  end.

Definition with_gas (gas : Z) (msg : Message) : Message :=
  mkMessage (m_From msg) (m_To msg) (m_Nonce msg) (m_Value msg) gas (m_GasPrice msg) (m_GasFeeCap msg)
    (m_Data msg) (m_AccessList msg).

(** The copy an RPC query runs on: the sender exists, with the nonce the ante handler
    would have set. *)
Definition rpc_store (from : Address) (nonce : Z) (s : evm_store) : outcome query_error evm_store :=
  let '(acct, s) :=
    match GetAccount from s with
    | Some acct => (acct, s)
    | None =>
        let '(acc, c) := auth_NewAccountWithAddress (ek_chain s) from in
        (NewEmptyAccount (vm_keccak (k_vm k)), set_chain (auth_SetAccount c acc) s)
    end in
  match SetAccount from (mkAccount (u64 (nonce + 1)) (acc_Balance acct) (acc_CodeHash acct)) s with
  | Ok s => Ok s
  | Err e => Err (QErrSetAccount e)
  | Panic => Panic
  end.

(** Whether the message fails with a gas limit, the response if there is one, and the
    store after it.  Too little gas for the intrinsic cost is a failure without
    response. *)
Definition executable (fromType : CallType) (msg : Message) (nonce gas : Z) (s : evm_store) :
    outcome query_error (bool * option MsgEthereumTxResponse * evm_store) :=
  tmp ← match fromType with RPC => rpc_store (m_From msg) nonce s | Internal => Ok s end;
  match ApplyMessage k (with_gas gas msg) false tmp with
  | Ok (rsp, tmp) =>
      Ok (Failed rsp, Some rsp, match fromType with RPC => s | Internal => tmp end)
  | Err ErrIntrinsicGas => Ok (true, None, s)
  | Err e => Err (QErrApply e)
  | Panic => Panic
  end.

Definition executable_failed (fromType : CallType) (msg : Message) (nonce gas : Z) (s : evm_store) :
    outcome query_error (bool * evm_store) :=
  '(failed, _, s) ← executable fromType msg nonce gas s; Ok (failed, s).

(** The highest limit of the search. *)
Definition highest_gas (args : TransactionArgs) (gasCap : Z) : Z :=
  let hi :=
    match arg_Gas args with
    | Some g => if TxGas <=? g then Some g else None
    | None => None
    end in
  let hi := match hi with
            | Some g => g
            | None => match consensusMaxGas with
                      | Some m => if 0 <? m then m else gasCap
                      | None => gasCap
                      end
            end in
  if negb (gasCap =? 0) && (gasCap <? hi) then gasCap else hi.

(** The error of a message that fails with all the gas it may have. *)
Definition allowance_error (gasCap : Z) (result : option MsgEthereumTxResponse) : query_error :=
  match result with
  | Some rsp =>
      if decide (res_VmError rsp = ErrOutOfGas_text) then QErrAllowance gasCap
      else if decide (res_VmError rsp = ErrExecutionReverted_text) then QErrReverted (res_Ret rsp)
      else QErrVm (res_VmError rsp)
  | None => QErrAllowance gasCap
  end.

Definition EstimateGasInternal (req : EthCallRequest) (fromType : CallType) (s : evm_store) :
    outcome query_error (Z * evm_store) :=
  if req_GasCap req <? TxGas then Err QErrGasCap
  else
    match req_Args req with
    | None => Err QErrArguments
    | Some args =>
        let gasCap := highest_gas args (req_GasCap req) in
        let nonce := EvmKeeper.GetNonce (args_GetFrom args) s in
        match ToMessage (set_nonce nonce args) (req_GasCap req) (ec_BaseFee (k_config k)) with
        | None => Err QErrArguments
        | Some msg =>
            '(hi, s) ← default (Err QErrFuel)
                         (search_loop bin_fuel (executable_failed fromType msg nonce) (TxGas - 1) gasCap s);
            if hi =? gasCap then
              '(failed, result, s) ← executable fromType msg nonce hi s;
              if failed : bool then Err (allowance_error gasCap result) else Ok (hi, s)
            else Ok (hi, s)
        end
    end.

Definition EstimateGas (req : EthCallRequest) (s : evm_store) : outcome query_error Z :=
  fst <$> EstimateGasInternal req RPC s.

End EvmQuery.
