(* ===== verification/EvmQuerySpec.v ===== *)
(** * Estimates: what the gas search guarantees

    A search never runs out of rounds; the estimate an RPC client gets is a gas limit
    with which the message runs, and the least one when more gas never hurts.  The
    search for [x/erc20] keeps what its trial runs write. *)

From S2P Require Import Prelude Sdk Dec AccessList StateDB EvmKeeper EvmTx GasMeter EvmApply EvmQuery.
From S2P Require Import EvmKeeperSpec EvmTxSpec EvmApplySpec.

(** ** The search *)

Section Search.
Context {S E : Type}.
Variable executable : Z → S → outcome E (bool * S).

Lemma mid_bounds lo hi : 0 <= lo → hi <= 2 ^ 63 → lo + 1 < hi → lo < u64 (hi + lo) / 2 < hi.
Proof.
  intros. rewrite u64_small by (unfold in_u64; lia).
  pose proof (Z.div_mod (hi + lo) 2 ltac:(lia)). pose proof (Z.mod_pos_bound (hi + lo) 2 ltac:(lia)). lia.
Qed.

Lemma next_lt lo hi : 0 <= lo <= 2 ^ 63 → (u64 (lo + 1) <? hi) = (lo + 1 <? hi).
Proof. intros. by rewrite u64_small by (unfold in_u64; lia). Qed.

(** Each round halves the interval. *)
Lemma search_loop_ends fuel lo hi s :
  0 <= lo <= 2 ^ 63 → hi <= 2 ^ 63 → hi - lo <= 2 ^ Z.of_nat fuel → search_loop fuel executable lo hi s ≠ None.
Proof.
  revert lo hi s. induction fuel as [|fuel IH]; intros lo hi s Hlo Hhi Hf; cbn [search_loop];
    rewrite next_lt by done; destruct (Z.ltb_spec (lo + 1) hi) as [Hlt|]; try done.
  - change (2 ^ Z.of_nat 0) with 1 in Hf. lia.
  - pose proof (mid_bounds lo hi ltac:(lia) Hhi Hlt) as Hm. rewrite Nat2Z.inj_succ, Z.pow_succ_r in Hf by lia.
    pose proof (Z.div_mod (hi + lo) 2 ltac:(lia)). pose proof (Z.mod_pos_bound (hi + lo) 2 ltac:(lia)).
    rewrite u64_small in * by (unfold in_u64; lia).
    destruct (executable _ s) as [[[] s']| |]; [apply IH; lia..|done|done].
Qed.

(** A search whose trials leave the state alone: the limit found runs unless it is the
    highest, and the one below fails unless it is the lowest. *)
Lemma search_loop_finds fuel lo hi s r s' :
  (∀ g b t, executable g s = Ok (b, t) → t = s) →
  0 <= lo <= 2 ^ 63 → hi <= 2 ^ 63 → search_loop fuel executable lo hi s = Some (Ok (r, s')) →
  s' = s ∧ r <= hi ∧ (lo < hi → lo < r) ∧ (r = hi ∨ executable r s = Ok (false, s)) ∧
  (lo < hi → r - 1 = lo ∨ executable (r - 1) s = Ok (true, s)).
Proof.
  intros Hpure. revert lo hi. induction fuel as [|fuel IH]; intros lo hi Hlo Hhi Hs; cbn [search_loop] in Hs;
    rewrite next_lt in Hs by done; destruct (Z.ltb_spec (lo + 1) hi) as [Hlt|]; simplify_eq;
    try (split_and!; [done|lia|lia|by left|intros; left; lia]).
  pose proof (mid_bounds lo hi ltac:(lia) Hhi Hlt) as Hm. set (mid := u64 (hi + lo) / 2) in *.
  destruct (executable mid s) as [[[] t]| |] eqn:Hx; simplify_eq; pose proof (Hpure _ _ _ Hx) as ->.
  - apply IH in Hs as (-> & Hr & Hr1 & Hr2 & Hr3); [|lia..]. split_and!; [done|lia|lia|done|].
    intros _. destruct Hr3 as [Hr3|Hr3]; [lia| |by right]. right. by replace (r - 1) with mid by lia.
  - apply IH in Hs as (-> & Hr & Hr1 & Hr2 & Hr3); [|lia..]. split_and!; [done|lia|lia| |intros; apply Hr3; lia].
    destruct Hr2 as [->|Hr2]; by right.
Qed.
End Search.

Section Estimate.
Context `{EE : EvmEnv} `{GE : Geth} `{LD : LegacyDec}.
Variable k : EvmModule.
Variable consensusMaxGas : option Z.

Lemma rpc_executable_pure msg nonce gas s b rsp t :
  executable k RPC msg nonce gas s = Ok (b, rsp, t) → t = s.
Proof.
  unfold executable. intros Hx. apply bind_Ok_inv in Hx as (tmp & _ & Hx).
  destruct (ApplyMessage _ _ _ _) as [[? ?]|[]|]; by simplify_eq.
Qed.

Lemma rpc_failed_pure msg nonce gas s b t : executable_failed k RPC msg nonce gas s = Ok (b, t) → t = s.
Proof.
  unfold executable_failed. intros Hx. apply bind_Ok_inv in Hx as ([[b' rsp] t'] & Hx & Ht). simplify_eq.
  by apply rpc_executable_pure in Hx.
Qed.

(** The message fails with the gas limit, on the copy of the store the query uses. *)
Definition fails_with (msg : Message) (nonce : Z) (s : evm_store) (gas : Z) : Prop :=
  executable_failed k RPC msg nonce gas s = Ok (true, s).

(** The message runs with the gas limit, on that copy. *)
Definition runs_with (msg : Message) (nonce : Z) (s : evm_store) (gas : Z) : Prop :=
  ∃ tmp rsp tmp', rpc_store k (m_From msg) nonce s = Ok tmp ∧
    ApplyMessage k (with_gas gas msg) false tmp = Ok (rsp, tmp') ∧ Failed rsp = false.

Lemma not_failed_runs msg nonce gas s rsp t :
  executable k RPC msg nonce gas s = Ok (false, rsp, t) → runs_with msg nonce s gas.
Proof.
  unfold executable. intros Hx. apply bind_Ok_inv in Hx as (tmp & Ht & Hx).
  destruct (ApplyMessage _ _ _ _) as [[rsp' tmp']|[]|] eqn:Ha; simplify_eq. by exists tmp, rsp', tmp'.
Qed.

Lemma executable_failed_runs msg nonce gas s t :
  executable_failed k RPC msg nonce gas s = Ok (false, t) → runs_with msg nonce s gas.
Proof.
  unfold executable_failed. intros Hx. apply bind_Ok_inv in Hx as ([[b rsp] t'] & Hx & Ht). simplify_eq.
  by eapply not_failed_runs.
Qed.

Lemma highest_gas_le args gasCap : 0 < gasCap → highest_gas consensusMaxGas args gasCap <= gasCap.
Proof.
  intros Hc. unfold highest_gas. rewrite (proj2 (Z.eqb_neq gasCap 0)) by lia. cbn [negb andb].
  destruct (Z.ltb_spec gasCap (match match arg_Gas args with Some g => if TxGas <=? g then Some g else None | None => None end with
    | Some g => g | None => match consensusMaxGas with Some m => if 0 <? m then m else gasCap | None => gasCap end end)); lia.
Qed.

Lemma executable_no_fuel msg nonce gas s : executable k RPC msg nonce gas s ≠ Err QErrFuel.
Proof.
  unfold executable, rpc_store. destruct (match GetAccount _ _ with Some _ => _ | None => _ end) as [acct t].
  destruct (SetAccount _ _ t) as [tmp|e|]; [|done..]. cbn.
  by destruct (ApplyMessage _ _ _ _) as [[? ?]|[]|].
Qed.

Lemma search_no_fuel fuel msg nonce lo hi s :
  search_loop fuel (executable_failed k RPC msg nonce) lo hi s ≠ Some (Err QErrFuel).
Proof.
  revert lo hi s. induction fuel as [|fuel IH]; intros lo hi s; cbn [search_loop]; destruct (_ <? _); try done.
  unfold executable_failed at 1. pose proof (executable_no_fuel msg nonce (u64 (hi + lo) / 2) s) as Hn.
  destruct (executable _ _ _ _ _ _) as [[[[] rsp] t]|e|]; cbn; [apply IH..|congruence|done].
Qed.

(** What the search and the check of the highest limit find. *)
Lemma estimate_found msg nonce cap s r t :
  cap <= 2 ^ 63 →
  search_loop bin_fuel (executable_failed k RPC msg nonce) (TxGas - 1) cap s = Some (Ok (r, t)) →
  t = s ∧ r <= cap ∧ (r = cap ∨ runs_with msg nonce s r) ∧
  ((∀ a b, a <= b → fails_with msg nonce s b → fails_with msg nonce s a) →
     ∀ g, TxGas <= g < r → fails_with msg nonce s g).
Proof.
  intros Hcap Hs.
  apply search_loop_finds in Hs as (-> & Hr & Hlt & Hrun & Hbelow);
    [|intros ???; apply rpc_failed_pure|unfold TxGas; lia|done].
  split_and!; [done|done| |].
  - destruct Hrun as [|Hrun]; [by left|]. right. by eapply executable_failed_runs.
  - intros Hmono g Hg. destruct (decide (TxGas - 1 < cap)) as [Hl|]; [|lia].
    destruct (Hbelow Hl) as [|Hf]; [lia|]. apply (Hmono g (r - 1)); [lia|exact Hf].
Qed.

(** C22.  The estimate suffices.  An estimate for an RPC client leaves the store alone
    and, when it is an answer, is a gas limit within the cap with which the message
    runs on the store of the query; when more gas never makes the message fail, every
    smaller limit from 21000 on fails.  The search itself never gives up. *)
Theorem estimate_suffices req s :
  req_GasCap req <= 2 ^ 63 →
  EstimateGasInternal k consensusMaxGas req RPC s ≠ Err QErrFuel ∧
  ∀ g s', EstimateGasInternal k consensusMaxGas req RPC s = Ok (g, s') →
    s' = s ∧ g <= req_GasCap req ∧
    ∃ args msg, req_Args req = Some args ∧
      let nonce := EvmKeeper.GetNonce (args_GetFrom args) s in
      ToMessage (set_nonce nonce args) (req_GasCap req) (ec_BaseFee (k_config k)) = Some msg ∧
      runs_with msg nonce s g ∧
      ((∀ a b, a <= b → fails_with msg nonce s b → fails_with msg nonce s a) →
         ∀ g', TxGas <= g' < g → fails_with msg nonce s g').
Proof.
  intros Hcap. unfold EstimateGasInternal.
  destruct (Z.ltb_spec (req_GasCap req) TxGas) as [|Hmin]; [done|].
  destruct (req_Args req) as [args|] eqn:Hargs; [|done].
  set (nonce := EvmKeeper.GetNonce (args_GetFrom args) s).
  destruct (ToMessage _ _ _) as [msg|] eqn:Hmsg; [|done].
  pose proof (highest_gas_le args (req_GasCap req) ltac:(unfold TxGas in *; lia)) as Hhi.
  set (cap := highest_gas _ _ _) in *.
  destruct (search_loop _ _ _ _ _) as [o|] eqn:Hs.
  2:{ exfalso. revert Hs. apply search_loop_ends; unfold TxGas, bin_fuel; cbn; lia. }
  cbn [default id]. destruct o as [[r t]|e|]; cbn [mbind outcome_bind].
  - apply estimate_found in Hs as (-> & Hr & Hrun & Hleast); [|lia].
    destruct (Z.eqb_spec r cap) as [->|Hne].
    + pose proof (executable_no_fuel msg nonce cap s) as Hnf.
      destruct (executable _ _ _ _ _ _) as [[[[] rsp] t]|e|] eqn:Hx; cbn; try (split; [congruence|done]).
      * split; [|done]. unfold allowance_error. by repeat case_match.
      * split; [done|]. intros g s' [= <- <-]. pose proof (rpc_executable_pure _ _ _ _ _ _ _ Hx) as ->.
        split_and!; [done|lia|]. exists args, msg. split_and!; [done..| |done]. by eapply not_failed_runs.
    + split; [done|]. intros g s' [= <- <-]. split_and!; [done|lia|]. exists args, msg.
      split_and!; [done..| |done]. by destruct Hrun.
  - split; [|done]. intros [= ->]. by apply search_no_fuel in Hs.
  - done.
Qed.
End Estimate.

Module QueryToy.
Import MapCoins MapBank EvmToy ZDec GethToy ApplyToy.

(** A machine that needs 5000 gas beyond the intrinsic cost and calls a precompile,
    which counts the runs in slot 1 of account 2048. *)
Definition counting_run (gas : Z) (sdb : StateDB) (s : evm_store) : execution :=
  let runs := GetState 2048 1 s in
  mkExecution [] (Z.max 0 (gas - 5000)) (if gas <? 5000 then Some ErrOutOfGas_text else None) sdb
    (SetState 2048 1 (Hash_Bytes (runs + 1)) s).

Definition counting_vm : Vm := {|
  vm_ActivePrecompiles _ pre := default [] pre;
  vm_PrecompiledAddressesBerlin := [1; 2];
  vm_Call msg _ _ to gas sdb s := Ok (counting_run gas sdb s);
  vm_Create msg _ _ gas sdb s := Ok (counting_run gas sdb s);
  vm_RefundQuotient := 2;
  vm_RefundQuotientEIP3529 := 5;
  vm_keccak := evm_keccak;
  vm_CreateAddress a n := a + n;
  vm_LogsBloom _ := 0;
  vm_AsMessage := toy_message
|}.

Definition counting_module : EvmModule :=
  mkEvmModule counting_vm [1; 2] None toy_fees toy_cfg (LegacyNewDecWithPrec 50 2) 11.

Definition call_args : TransactionArgs :=
  mkTransactionArgs (Some 7) (Some 8) None None None None None None None None None None.

Definition call_request : EthCallRequest := mkEthCallRequest (Some call_args) 100000.

Definition estimated (fromType : CallType) : Z * Z :=
  match EstimateGasInternal counting_module None call_request fromType rich_store with
  | Ok (g, s) => (g, GetState 2048 1 s)
  | _ => (0, 0)
  end.

Lemma estimate_suffices_witness :
  ∃ msg, runs_with counting_module msg 3 rich_store 26000 ∧ 26000 <= 100000.
Proof.
  destruct (estimate_suffices counting_module None call_request rich_store) as [_ Hok]; [cbn; lia|].
  assert (match EstimateGasInternal counting_module None call_request RPC rich_store with
          | Ok (g, _) => g | _ => 0 end = 26000) as Hg by (vm_compute; reflexivity).
  destruct (EstimateGasInternal _ _ _ _ _) as [[g s]| |]; [|discriminate Hg..]. subst g.
  destruct (Hok 26000 s eq_refl) as (_ & Hle & args & msg & Hargs & _ & Hruns & _).
  exists msg. split; [|exact Hle]. injection Hargs as <-. exact Hruns.
Defined.

(** The same search from [x/erc20] runs the precompile on the store of the transaction,
    once for each limit it tries; that of an RPC client does not. *)
Lemma internal_estimate_keeps_writes : estimated RPC = (26000, 0) ∧ estimated Internal = (26000, 16).
Proof. split; vm_compute; reflexivity. Qed.

End QueryToy.
