(* ===== verification/EthLogs.v ===== *)
(** * Logs and events: [x/evm/types/logs.go], [rpc/backend/utils.go], [rpc/backend/blocks.go]

    The logs of go-ethereum and those of the module, which hold addresses and hashes
    as hex strings; the events in which [EthereumTx] and [EndBlock] of the EVM module
    publish the logs of a transaction and the Bloom filter of a block; and the code of
    the JSON-RPC server that reads them back from the results of a block.  The JSON
    encoding of a log is the interface [LogCodec]. *)

From S2P Require Import Prelude.
From S2P Require Import EvmTx.

(** ** Data *)

(** [ethtypes.Log]. *)
Record eth_log := mkEthLog {
  l_Address : Address;
  l_Topics : list Hash;
  l_Data : list byte;
  l_BlockNumber : Z;
  l_TxHash : Hash;
  l_TxIndex : Z;
  l_BlockHash : Hash;
  l_Index : Z;
  l_Removed : bool
}.

(** [types.Log] of the module. *)
Record pb_log := mkPbLog {
  pl_Address : string;
  pl_Topics : list string;
  pl_Data : list byte;
  pl_BlockNumber : Z;
  pl_TxHash : string;
  pl_TxIndex : Z;
  pl_BlockHash : string;
  pl_Index : Z;
  pl_Removed : bool
}.

(** [abci.Event] and the parts of [abci.ResponseDeliverTx] that are read. *)
Record abci_event := mkEvent {
  ev_Type : string;
  ev_Attributes : list (string * string)
}.

Record DeliverTx := mkDeliverTx {
  dt_Code : Z;
  dt_Log : string;
  dt_GasUsed : Z;
  dt_Events : list abci_event
}.

(** [ResultBlockResults]. *)
Record block_results := mkBlockResults {
  br_Height : Z;
  br_TxsResults : list DeliverTx;
  br_BeginBlockEvents : list abci_event;
  br_EndBlockEvents : list abci_event
}.

(** [json.Marshal] and [json.Unmarshal] on a log. *)
Class LogCodec := {
  marshal_log : pb_log → string;
  unmarshal_log : string → option pb_log
}.

Class LogCodecLaws `{LogCodec} : Prop := {
  unmarshal_marshal l : unmarshal_log (marshal_log l) = Some l
}.

Definition EventTypeEthereumTx : string := "ethereum_tx".
Definition EventTypeBlockBloom : string := "block_bloom".
Definition EventTypeTxLog : string := "tx_log".
Definition AttributeKeyTxLog : string := "txLog".
Definition AttributeKeyEthereumBloom : string := "bloom".

Inductive log_error :=
| LErrAddress
| LErrBlockHash
| LErrBlockNumber
| LErrTxHash
| LErrMismatch
| LErrDecode
| LErrNotFound
| LErrNoBloom.

Abbreviation log_result A := (outcome log_error A).

(** ** Bytes and strings *)

(** [string(bz)]. *)
Definition string_of_bytes (bz : list byte) : string :=
  String.string_of_list_ascii (map (λ b, Ascii.ascii_of_N (Z.to_N b)) bz).

(** [[]byte(s)]. *)
Definition bytes_of_string (s : string) : list byte :=
  map (λ c, Z.of_N (Ascii.N_of_ascii c)) (String.list_ascii_of_string s).

Lemma bytes_of_string_of_bytes bz :
  Forall (λ b, 0 <= b < 256) bz → bytes_of_string (string_of_bytes bz) = bz.
Proof.
  unfold bytes_of_string, string_of_bytes. intros Hbz.
  rewrite String.list_ascii_of_string_of_list_ascii, List.map_map.
  induction Hbz as [|b bz Hb _ IH]; [done|]. cbn [map]. rewrite IH. f_equal.
  rewrite Ascii.N_ascii_embedding by lia. lia.
Qed.

Section Logs.
Context `{GE : Geth} `{LC : LogCodec}.

(** ** Conversions: [logs.go] *)

Definition ToEthereum (log : pb_log) : eth_log := {|
  l_Address := HexToAddress (pl_Address log);
  l_Topics := map HexToHash (pl_Topics log);
  l_Data := pl_Data log;
  l_BlockNumber := pl_BlockNumber log;
  l_TxHash := HexToHash (pl_TxHash log);
  l_TxIndex := pl_TxIndex log;
  l_BlockHash := HexToHash (pl_BlockHash log);
  l_Index := pl_Index log;
  l_Removed := pl_Removed log
|}.

Definition NewLogFromEth (log : eth_log) : pb_log := {|
  pl_Address := Address_Hex (l_Address log);
  pl_Topics := map Hash_Hex (l_Topics log);
  pl_Data := l_Data log;
  pl_BlockNumber := l_BlockNumber log;
  pl_TxHash := Hash_Hex (l_TxHash log);
  pl_TxIndex := l_TxIndex log;
  pl_BlockHash := Hash_Hex (l_BlockHash log);
  pl_Index := l_Index log;
  pl_Removed := l_Removed log
|}.

Definition LogsToEthereum (logs : list pb_log) : list eth_log := map ToEthereum logs.
Definition NewLogsFromEth (logs : list eth_log) : list pb_log := map NewLogFromEth logs.

Definition IsEmptyHash (hash : string) : bool := bool_decide (HexToHash hash = 0).

Definition Log_Validate (log : pb_log) : log_result () :=
  if negb (IsHexAddress (pl_Address log)) then Err LErrAddress
  else if IsEmptyHash (pl_BlockHash log) then Err LErrBlockHash
  else if pl_BlockNumber log =? 0 then Err LErrBlockNumber
  else if IsEmptyHash (pl_TxHash log) then Err LErrTxHash
  else Ok ().

(** The loop of [TransactionLogs.Validate]. *)
Fixpoint validate_logs (hash : string) (logs : list pb_log) : log_result () :=
  match logs with
  | [] => Ok ()
  | log :: logs =>
      _ ← Log_Validate log;
      if negb (bool_decide (pl_TxHash log = hash)) then Err LErrMismatch else validate_logs hash logs
  end.

Definition TransactionLogs_Validate (hash : string) (logs : list pb_log) : log_result () :=
  if IsEmptyHash hash then Err LErrTxHash else validate_logs hash logs.

(** ** Publishing: [msg_server.go], [keeper.go] *)

(** The event with the logs of a response. *)
Definition tx_log_event (logs : list pb_log) : abci_event :=
  mkEvent EventTypeTxLog (map (λ log, (AttributeKeyTxLog, marshal_log log)) logs).

(** [EmitBlockBloomEvent]; a Bloom filter has 256 bytes. *)
Definition bloom_event (bloom : Z) : abci_event :=
  mkEvent EventTypeBlockBloom [(AttributeKeyEthereumBloom, string_of_bytes (be_bytes 256 bloom))].

(** ** Reading back: [rpc/backend] *)

Fixpoint parse_log_attributes (attrs : list (string * string)) : log_result (list pb_log) :=
  match attrs with
  | [] => Ok []
  | (key, value) :: attrs =>
      if bool_decide (key = AttributeKeyTxLog) then
        match unmarshal_log value with
        | Some log => (λ logs, log :: logs) <$> parse_log_attributes attrs
        | None => Err LErrDecode
        end
      else parse_log_attributes attrs
  end.

Definition ParseTxLogsFromEvent (event : abci_event) : log_result (list eth_log) :=
  LogsToEthereum <$> parse_log_attributes (ev_Attributes event).

Fixpoint AllTxLogsFromEvents (events : list abci_event) : log_result (list (list eth_log)) :=
  match events with
  | [] => Ok []
  | event :: events =>
      if bool_decide (ev_Type event = EventTypeTxLog) then
        logs ← ParseTxLogsFromEvent event;
        (λ l, logs :: l) <$> AllTxLogsFromEvents events
      else AllTxLogsFromEvents events
  end.

Fixpoint TxLogsFromEvents (events : list abci_event) (msgIndex : Z) : log_result (list eth_log) :=
  match events with
  | [] => Err LErrNotFound
  | event :: events =>
      if bool_decide (ev_Type event = EventTypeTxLog) then
        if 0 <? msgIndex then TxLogsFromEvents events (msgIndex - 1) else ParseTxLogsFromEvent event
      else TxLogsFromEvents events msgIndex
  end.

Fixpoint logs_of_results (results : list DeliverTx) : log_result (list (list eth_log)) :=
  match results with
  | [] => Ok []
  | r :: results =>
      logs ← AllTxLogsFromEvents (dt_Events r);
      (λ l, logs ++ l) <$> logs_of_results results
  end.

Definition GetLogsFromBlockResults (blockRes : block_results) : log_result (list (list eth_log)) :=
  logs_of_results (br_TxsResults blockRes).

(** [ethtypes.BytesToBloom] panics on more than 256 bytes. *)
Definition BytesToBloom (bz : list byte) : log_result Z :=
  if (256 <? length bz)%nat then Panic else Ok (SetBytes bz).

Fixpoint bloom_attribute (attrs : list (string * string)) : option string :=
  match attrs with
  | [] => None
  | (key, value) :: attrs =>
      if bool_decide (key = AttributeKeyEthereumBloom) then Some value else bloom_attribute attrs
  end.

Fixpoint find_bloom (events : list abci_event) : log_result Z :=
  match events with
  | [] => Err LErrNoBloom
  | event :: events =>
      if bool_decide (ev_Type event = EventTypeBlockBloom) then
        match bloom_attribute (ev_Attributes event) with
        | Some value => BytesToBloom (bytes_of_string value)
        | None => find_bloom events
        end
      else find_bloom events
  end.

Definition BlockBloom (blockRes : block_results) : log_result Z := find_bloom (br_EndBlockEvents blockRes).

(** ** Round trips *)

Context {GL : GethLaws} {LL : LogCodecLaws}.

Definition log_ok (l : eth_log) : Prop :=
  in_address (l_Address l) ∧ Forall in_hash (l_Topics l) ∧ in_hash (l_TxHash l) ∧ in_hash (l_BlockHash l).

Lemma log_roundtrip l : log_ok l → ToEthereum (NewLogFromEth l) = l.
Proof.
  intros (Ha & Ht & Htx & Hb). destruct l as [a ts d n tx i b ix r]. unfold ToEthereum, NewLogFromEth. cbn in *.
  rewrite HexToAddress_Hex, !HexToHash_Hex by done. f_equal.
  rewrite List.map_map. induction Ht as [|t ts Hin _ IH]; [done|]. cbn. by rewrite HexToHash_Hex, IH.
Qed.

Lemma logs_roundtrip logs : Forall log_ok logs → LogsToEthereum (NewLogsFromEth logs) = logs.
Proof.
  unfold LogsToEthereum, NewLogsFromEth. rewrite List.map_map.
  induction 1 as [|l logs Hl _ IH]; [done|]. cbn. by rewrite log_roundtrip, IH.
Qed.

Lemma parse_tx_log_event logs : ParseTxLogsFromEvent (tx_log_event logs) = Ok (LogsToEthereum logs).
Proof.
  unfold ParseTxLogsFromEvent. cbn [ev_Attributes tx_log_event].
  assert (parse_log_attributes (map (λ log, (AttributeKeyTxLog, marshal_log log)) logs) = Ok logs) as ->; [|done].
  induction logs as [|l logs IH]; [done|]. cbn [map parse_log_attributes].
  rewrite bool_decide_eq_true_2, unmarshal_marshal by done. by rewrite IH.
Qed.

Lemma AllTxLogsFromEvents_app l1 l2 x1 x2 :
  AllTxLogsFromEvents l1 = Ok x1 → AllTxLogsFromEvents l2 = Ok x2 → AllTxLogsFromEvents (l1 ++ l2) = Ok (x1 ++ x2).
Proof.
  revert x1. induction l1 as [|e l1 IH]; intros x1; cbn [app AllTxLogsFromEvents]; [by intros [= <-]|].
  destruct (bool_decide (ev_Type e = EventTypeTxLog)); [|apply IH].
  destruct (ParseTxLogsFromEvent e) as [logs| |]; cbn; [|done..].
  destruct (AllTxLogsFromEvents l1) as [x| |]; cbn; [|done..]. intros [= <-] H2. by rewrite (IH x).
Qed.

Lemma be_bytes_range n z : Forall (λ b, 0 <= b < 256) (be_bytes n z).
Proof.
  revert z. induction n as [|n IH]; intros z; cbn [be_bytes]; [constructor|].
  apply Forall_app. split; [apply IH|]. repeat constructor; apply Z.mod_pos_bound; lia.
Qed.

(** The Bloom filter a block ends with is the one its results give. *)
Lemma bloom_roundtrip height results begin before after bloom :
  0 <= bloom < 2 ^ 2048 → Forall (λ e, ev_Type e ≠ EventTypeBlockBloom) before →
  BlockBloom (mkBlockResults height results begin (before ++ bloom_event bloom :: after)) = Ok bloom.
Proof.
  intros Hb Hbefore. unfold BlockBloom. cbn [br_EndBlockEvents].
  induction Hbefore as [|e before He _ IH]; cbn [app find_bloom]; [|by rewrite bool_decide_eq_false_2].
  rewrite bool_decide_eq_true_2 by done. cbn [ev_Attributes bloom_event bloom_attribute].
  rewrite bool_decide_eq_true_2 by done. unfold BytesToBloom.
  rewrite bytes_of_string_of_bytes by apply be_bytes_range. rewrite length_be_bytes. cbn [Nat.ltb Nat.leb].
  rewrite SetBytes_be_bytes. f_equal. apply Z.mod_small. change (256 ^ Z.of_nat 256) with (2 ^ 2048). done.
Qed.
End Logs.
