(* ===== verification/LogFilter.v ===== *)
(** * Searching logs: [rpc/namespaces/ethereum/eth/filters]

    [FilterLogs] and the Bloom filter check of [utils.go], the search over a block or
    over a range of blocks of [filters.go], and [GetLogs] of [api.go] on top of it.
    The node is the record [filter_backend]: blocks by hash, results by height and the
    latest height, as the client of CometBFT gives them.  [BloomLookup] and the hash
    of [calcBloomIVs] are go-ethereum's.  At the end, [eth_getLogs] against the plain
    filter of all logs of the range. *)

From S2P Require Import Prelude.
From S2P Require Import EvmTx.
From S2P Require Import EvmTxSpec.
From S2P Require Import EthLogs.

(** [filters.FilterCriteria] of go-ethereum. *)
Record FilterCriteria := mkCriteria {
  fc_BlockHash : option Hash;
  fc_FromBlock : option Z;
  fc_ToBlock : option Z;
  fc_Addresses : list Address;
  fc_Topics : list (list Hash)
}.

(** [BlockByHash] gives the height of a block, [None] where the node knows no such
    block; the results of a height the node does not have are an error. *)
Record filter_backend := mkBackend {
  fb_BlockByHash : Hash → outcome () (option Z);
  fb_BlockResults : Z → option block_results;
  fb_Head : outcome () (option Z);
  fb_LogsCap : Z;
  fb_BlockRangeCap : Z
}.

Inductive filter_error :=
| FErrHash
| FErrHeader
| FErrRange
| FErrTooMany
| FErrLogs (e : log_error).

Abbreviation filter_result A := (outcome filter_error A).

Definition of_log {A} (x : log_result A) : filter_result A :=
  match x with Ok a => Ok a | Err e => Err (FErrLogs e) | Panic => Panic end.

Class Blooms := {
  BloomLookup : Z → list byte → bool;
  (** the first six bytes of the Keccak hash *)
  hashbuf : list byte → list byte
}.

(** [Address.Bytes]. *)
Definition Address_Bytes (a : Address) : list byte := be_bytes 20 a.

(** [big.Int.Int64] and [big.Int.Uint64]: the low 64 bits of the absolute value, negated for the former. *)
Definition big_Int64 (z : Z) : Z := i64 z.
Definition big_Uint64 (z : Z) : Z := u64 (Z.abs z).

Section LogFilter.
Context `{GE : Geth} `{LC : LogCodec} `{BL : Blooms}.

(** ** [utils.go] *)

Fixpoint includes (addresses : list Address) (a : Address) : bool :=
  match addresses with
  | [] => false
  | addr :: addresses => if bool_decide (addr = a) then true else includes addresses a
  end.

(** The loop over the positions of the topics, which the log has enough of. *)
Fixpoint topics_match (topics : list (list Hash)) (logTopics : list Hash) : bool :=
  match topics, logTopics with
  | [], _ => true
  | sub :: topics, topic :: logTopics =>
      if bool_decide (sub = []) || includes sub topic then topics_match topics logTopics else false
  | _ :: _, [] => false
  end.

Fixpoint FilterLogs (logs : list eth_log) (fromBlock toBlock : option Z) (addresses : list Address)
    (topics : list (list Hash)) : list eth_log :=
  match logs with
  | [] => []
  | log :: logs =>
      let rest := FilterLogs logs fromBlock toBlock addresses topics in
      if match fromBlock with
         | Some b => (0 <=? big_Int64 b) && (l_BlockNumber log <? big_Uint64 b)
         | None => false
         end then rest
      else if match toBlock with
              | Some b => (0 <=? big_Int64 b) && (big_Uint64 b <? l_BlockNumber log)
              | None => false
              end then rest
      else if negb (bool_decide (addresses = [])) && negb (includes addresses (l_Address log)) then rest
      else if (length (l_Topics log) <? length topics)%nat then rest
      else if topics_match topics (l_Topics log) then log :: rest else rest
  end.

(** Whether one of the values is in the filter. *)
Fixpoint bloom_any (bloom : Z) (values : list (list byte)) : bool :=
  match values with
  | [] => false
  | v :: values => if BloomLookup bloom v then true else bloom_any bloom values
  end.

Fixpoint bloom_topics (bloom : Z) (topics : list (list Hash)) : bool :=
  match topics with
  | [] => true
  | sub :: topics =>
      if bool_decide (sub = []) || bloom_any bloom (map Hash_Bytes sub) then bloom_topics bloom topics else false
  end.

Definition bloomFilter (bloom : Z) (addresses : list Address) (topics : list (list Hash)) : bool :=
  if negb (bool_decide (addresses = [])) && negb (bloom_any bloom (map Address_Bytes addresses)) then false
  else bloom_topics bloom topics.

(** ** [filters.go] *)

Definition maxToOverhang : Z := 600.

Definition blockLogs (crit : FilterCriteria) (blockRes : block_results) (bloom : Z) :
    filter_result (list eth_log) :=
  if negb (bloomFilter bloom (fc_Addresses crit) (fc_Topics crit)) then Ok []
  else
    logsList ← of_log (GetLogsFromBlockResults blockRes);
    Ok (FilterLogs (concat logsList) None None (fc_Addresses crit) (fc_Topics crit)).

Variable b : filter_backend.

(** The loop over the heights up to [to]; results that cannot be fetched end the
    search without logs. *)
Fixpoint range_loop (fuel : nat) (crit : FilterCriteria) (logLimit height to : Z) (logs : list eth_log) :
    filter_result (list eth_log) :=
  match fuel with
  | O => Ok logs
  | S fuel =>
      if height <=? to then
        match fb_BlockResults b height with
        | None => Ok []
        | Some blockRes =>
            bloom ← of_log (BlockBloom blockRes);
            filtered ← blockLogs crit blockRes bloom;
            if logLimit <? Z.of_nat (length logs) + Z.of_nat (length filtered) then Err FErrTooMany
            else range_loop fuel crit logLimit (height + 1) to (logs ++ filtered)
        end
      else Ok logs
  end.

(** A block number of the criteria: negative ones are the head, 0 is the first block. *)
Definition normal_block (head n : Z) : Z := if n <? 0 then head else if n =? 0 then 1 else n.

(** The part of [Filter.Logs] that searches a range.  Criteria without numbers hold nil
    ones: reading them panics. *)
Definition range_logs (crit : FilterCriteria) (logLimit blockLimit : Z) : filter_result (list eth_log) :=
  match fb_Head b with
  | Ok None => Ok []
  | Ok (Some head) =>
      match fc_FromBlock crit, fc_ToBlock crit with
      | Some from, Some to =>
          let from := normal_block head (big_Int64 from) in
          let to := normal_block head (big_Int64 to) in
          if blockLimit <? to - from then Err FErrRange
          else if head <? from then Ok []
          else
            let to := if head + maxToOverhang <? to then head + maxToOverhang else to in
            range_loop (Z.to_nat (to - from + 1)) crit logLimit from to []
      | _, _ => Panic
      end
  | Err _ => Err FErrHeader
  | Panic => Panic
  end.

(** [Filter.Logs].  The block of an unknown hash is nil: reading its height panics. *)
Definition Logs (crit : FilterCriteria) (logLimit blockLimit : Z) : filter_result (list eth_log) :=
  match fc_BlockHash crit with
  | Some hash =>
      if bool_decide (hash = 0) then range_logs crit logLimit blockLimit
      else
        match fb_BlockByHash b hash with
        | Ok (Some height) =>
            match fb_BlockResults b height with
            | None => Ok []
            | Some blockRes =>
                bloom ← of_log (BlockBloom blockRes);
                blockLogs crit blockRes bloom
            end
        | Ok None => Panic
        | Err _ => Err FErrHash
        | Panic => Panic
        end
  | None => range_logs crit logLimit blockLimit
  end.

(** ** [GetLogs] of [api.go] *)

Definition LatestBlockNumber : Z := -1.

Definition GetLogs (crit : FilterCriteria) : filter_result (list eth_log) :=
  let crit :=
    match fc_BlockHash crit with
    | Some _ => crit
    | None =>
        let begin := match fc_FromBlock crit with Some n => big_Int64 n | None => LatestBlockNumber end in
        let end_ := match fc_ToBlock crit with Some n => big_Int64 n | None => LatestBlockNumber end in
        mkCriteria None (Some begin) (Some end_) (fc_Addresses crit) (fc_Topics crit)
    end in
  Logs crit (fb_LogsCap b) (fb_BlockRangeCap b).

(** ** The bits of a Bloom filter: [calcBloomIVs], [createBloomFilters] *)

Record BloomIV := mkBloomIV { biv_I : list Z; biv_V : list byte }.

Definition BloomByteLength : Z := 256.

Definition bloom_value (lo : byte) : byte := Z.shiftl 1 (Z.land lo 7).

Definition bloom_index (hi lo : byte) : Z :=
  BloomByteLength - Z.shiftr (Z.land (Z.lor (Z.shiftl hi 8) lo) 2047) 3 - 1.

(** The hash state always gives the six bytes it is asked for. *)
Definition calcBloomIVs (data : list byte) : partial BloomIV :=
  match hashbuf data with
  | [h0; h1; h2; h3; h4; h5] =>
      Ok (mkBloomIV [bloom_index h0 h1; bloom_index h2 h3; bloom_index h4 h5]
            [bloom_value h1; bloom_value h3; bloom_value h5])
  | _ => Panic
  end.

Fixpoint calc_all (filter : list (list byte)) : partial (list BloomIV) :=
  match filter with
  | [] => Ok []
  | clause :: filter => iv ← calcBloomIVs clause; (λ l, iv :: l) <$> calc_all filter
  end.

Fixpoint createBloomFilters (filters : list (list (list byte))) : partial (list (list BloomIV)) :=
  match filters with
  | [] => Ok []
  | filter :: filters =>
      if bool_decide (filter = []) then createBloomFilters filters
      else ivs ← calc_all filter; (λ l, ivs :: l) <$> createBloomFilters filters
  end.

(** The filters [NewRangeFilter] makes of its addresses and topics. *)
Definition range_filters (addresses : list Address) (topics : list (list Hash)) : list (list (list byte)) :=
  (if bool_decide (addresses = []) then [] else [map Address_Bytes addresses]) ++ map (map Hash_Bytes) topics.
End LogFilter.

(** ** What a search returns *)

(** A log meets the criteria: its address is one of those asked for, if any are, and it
    has a topic of each position, one of those asked for there, if any are. *)
Definition meets (addresses : list Address) (topics : list (list Hash)) (log : eth_log) : Prop :=
  (addresses = [] ∨ l_Address log ∈ addresses) ∧
  (length topics <= length (l_Topics log))%nat ∧
  Forall (λ '(sub, topic), sub = [] ∨ topic ∈ sub) (zip topics (l_Topics log)).

#[export] Instance meets_dec addresses topics log : Decision (meets addresses topics log).
Proof.
  unfold meets. apply and_dec; [apply _|]. apply and_dec; [apply _|].
  apply Forall_dec. intros [sub topic]. apply _.
Defined.

Section FilterSpec.
Context `{GE : Geth} `{LC : LogCodec} `{BL : Blooms}.

Lemma includes_spec l a : includes l a = true ↔ a ∈ l.
Proof.
  induction l as [|x l IH]; cbn [includes]; [by rewrite elem_of_nil|].
  rewrite elem_of_cons, <-IH. case_bool_decide; [split; [by left|done]|]. split; [by right|]. by intros [->|].
Qed.

Lemma topics_match_spec topics lt :
  (length topics <= length lt)%nat →
  topics_match topics lt = true ↔ Forall (λ '(sub, topic), sub = [] ∨ topic ∈ sub) (zip topics lt).
Proof.
  revert lt. induction topics as [|sub topics IH]; intros lt Hl; cbn [topics_match].
  { split; [intros _; constructor|done]. }
  destruct lt as [|t lt]; cbn in Hl; [lia|]. change (zip (sub :: topics) (t :: lt)) with ((sub, t) :: zip topics lt).
  rewrite Forall_cons, <-includes_spec, <-(IH lt) by lia.
  case_bool_decide; cbn [orb]; [naive_solver|]. destruct (includes sub t); naive_solver.
Qed.

(** [FilterLogs] without bounds is the list filter, in order. *)
Lemma FilterLogs_filter logs addresses topics :
  FilterLogs logs None None addresses topics = filter (meets addresses topics) logs.
Proof.
  induction logs as [|log logs IH]; cbn [FilterLogs]; [done|]. rewrite IH.
  destruct (decide (meets addresses topics log)) as [Hm|Hm].
  - rewrite filter_cons_True by done. destruct Hm as (Ha & Hl & Ht). apply topics_match_spec in Ht; [|done].
    rewrite Ht. destruct (Nat.ltb_spec (length (l_Topics log)) (length topics)); [lia|].
    case_bool_decide as He; [done|]. destruct Ha as [|Ha]; [done|]. apply includes_spec in Ha. by rewrite Ha.
  - rewrite filter_cons_False by done.
    destruct (negb (bool_decide (addresses = [])) && negb (includes addresses (l_Address log))) eqn:Ha; [done|].
    destruct (Nat.ltb_spec (length (l_Topics log)) (length topics)); [done|].
    destruct (topics_match topics (l_Topics log)) eqn:Ht; [|done]. destruct Hm. split_and!; [|lia|by apply topics_match_spec].
    destruct (decide (addresses = [])) as [He|He]; [by left|right]. apply includes_spec.
    rewrite bool_decide_eq_false_2 in Ha by done. by destruct (includes addresses (l_Address log)).
Qed.

(** The Bloom filter of a block has the addresses and topics of its logs. *)
Definition covers (bloom : Z) (log : eth_log) : Prop :=
  BloomLookup bloom (Address_Bytes (l_Address log)) = true ∧
  Forall (λ t, BloomLookup bloom (Hash_Bytes t) = true) (l_Topics log).

Lemma bloom_any_spec bloom values : bloom_any bloom values = true ↔ ∃ v, v ∈ values ∧ BloomLookup bloom v = true.
Proof.
  induction values as [|v values IH]; cbn [bloom_any].
  { split; [done|]. by intros (v & []%not_elem_of_nil & _). }
  destruct (BloomLookup bloom v) eqn:Hv.
  - split; [|done]. intros _. exists v. split; [left|done].
  - rewrite IH. split; intros (w & Hw & Hb); exists w; split; [by right|done| |done].
    apply elem_of_cons in Hw as [->|]; [congruence|done].
Qed.

Lemma bloom_topics_meets bloom topics lt :
  Forall (λ t, BloomLookup bloom (Hash_Bytes t) = true) lt → (length topics <= length lt)%nat →
  Forall (λ '(sub, topic), sub = [] ∨ topic ∈ sub) (zip topics lt) → bloom_topics bloom topics = true.
Proof.
  revert lt. induction topics as [|sub topics IH]; intros lt Hb Hl Ht; cbn [bloom_topics]; [done|].
  destruct lt as [|t lt]; cbn in Hl; [lia|]. apply Forall_cons in Hb as [Hb Hbs].
  change (zip (sub :: topics) (t :: lt)) with ((sub, t) :: zip topics lt) in Ht.
  apply Forall_cons in Ht as [Ht Hts]. rewrite (IH lt) by (done || lia).
  case_bool_decide as He; [done|]. destruct Ht as [|Ht]; [done|].
  rewrite (proj2 (bloom_any_spec bloom _)); [done|]. exists (Hash_Bytes t).
  split; [by apply list_elem_of_fmap_2|done].
Qed.

(** A log that meets the criteria is never lost to the Bloom filter. *)
Lemma bloomFilter_meets bloom addresses topics log :
  covers bloom log → meets addresses topics log → bloomFilter bloom addresses topics = true.
Proof.
  intros [Ha Hts] (Hm & Hl & Ht). unfold bloomFilter. rewrite (bloom_topics_meets bloom topics (l_Topics log)) by done.
  case_bool_decide as He; [done|]. destruct Hm as [|Hm]; [done|].
  rewrite (proj2 (bloom_any_spec bloom _)); [done|]. exists (Address_Bytes (l_Address log)).
  split; [by apply list_elem_of_fmap_2|done].
Qed.

Lemma blockLogs_filter crit blockRes bloom logs :
  GetLogsFromBlockResults blockRes = Ok logs → Forall (covers bloom) (concat logs) →
  blockLogs crit blockRes bloom = Ok (filter (meets (fc_Addresses crit) (fc_Topics crit)) (concat logs)).
Proof.
  intros Hlogs Hc. unfold blockLogs. rewrite Hlogs. cbn [of_log mbind outcome_bind]. rewrite FilterLogs_filter.
  destruct (bloomFilter bloom _ _) eqn:Hb; cbn [negb]; [done|]. f_equal. symmetry.
  rewrite Forall_forall in Hc. apply elem_of_nil_inv. intros log [Hm Hlog]%list_elem_of_filter.
  by rewrite (bloomFilter_meets _ _ _ log) in Hb by auto.
Qed.

Variable b : filter_backend.

(** The logs of the blocks from [from] on, and the node that has them. *)
Definition served (height : Z) (logs : list eth_log) : Prop :=
  ∃ blockRes bloom ll, fb_BlockResults b height = Some blockRes ∧ BlockBloom blockRes = Ok bloom ∧
    GetLogsFromBlockResults blockRes = Ok ll ∧ logs = concat ll ∧ Forall (covers bloom) logs.

Definition limited (limit : Z) (logs : list eth_log) : filter_result (list eth_log) :=
  if limit <? Z.of_nat (length logs) then Err FErrTooMany else Ok logs.

Lemma range_loop_served fuel crit limit height to acc (logs : Z → list eth_log) :
  0 <= limit → Z.of_nat (length acc) <= limit →
  (∀ h, height <= h <= to → served h (logs h)) → (to - height + 1 <= Z.of_nat fuel)%Z →
  range_loop b fuel crit limit height to acc =
    limited limit (acc ++ filter (meets (fc_Addresses crit) (fc_Topics crit))
      (concat (map logs (seqZ height (to - height + 1))))).
Proof.
  intros Hlim. revert height acc. induction fuel as [|fuel IH]; intros height acc Hacc Hs Hf; cbn [range_loop].
  - rewrite seqZ_nil by lia. cbn. rewrite app_nil_r. unfold limited. destruct (Z.ltb_spec limit (Z.of_nat (length acc))); [lia|done].
  - destruct (Z.leb_spec height to) as [Hle|Hgt].
    2: { rewrite seqZ_nil by lia. cbn. rewrite app_nil_r. unfold limited.
         destruct (Z.ltb_spec limit (Z.of_nat (length acc))); [lia|done]. }
    destruct (Hs height) as (blockRes & bloom & ll & -> & -> & Hll & Heq & Hc); [lia|]. cbn [of_log mbind outcome_bind].
    rewrite Heq in Hc. rewrite (blockLogs_filter crit blockRes bloom ll Hll Hc). cbn [mbind outcome_bind].
    rewrite seqZ_cons by lia. cbn [map concat]. rewrite filter_app, Heq, (assoc_L (++)).
    set (found := filter (meets (fc_Addresses crit) (fc_Topics crit)) (concat ll)).
    destruct (Z.ltb_spec limit (Z.of_nat (length acc) + Z.of_nat (length found))) as [Hover|Hok].
    + unfold limited. symmetry. rewrite (proj2 (Z.ltb_lt limit _)); [done|]. rewrite !length_app. lia.
    + rewrite IH; [|rewrite length_app; lia|intros h Hh; apply Hs; lia|lia].
      f_equal. f_equal. f_equal. f_equal. f_equal. f_equal; lia.
Qed.

(** C24.  A search for logs is complete and exact.  On a node that has the results of
    all blocks up to the head, with Bloom filters that cover their logs, a search of
    a range that ends at the head or before returns, in order, exactly the logs of
    the range that meet the criteria, or the error that there are more than the
    limit; the Bloom filters make it skip blocks but lose no log. *)
Theorem get_logs_exact (crit : FilterCriteria) (head : Z) (logs : Z → list eth_log) :
  let begin := match fc_FromBlock crit with Some n => big_Int64 n | None => LatestBlockNumber end in
  let end_ := match fc_ToBlock crit with Some n => big_Int64 n | None => LatestBlockNumber end in
  let from := normal_block head begin in
  let to := normal_block head end_ in
  fc_BlockHash crit = None → fb_Head b = Ok (Some head) → 1 <= head → 0 <= fb_LogsCap b →
  (∀ h, 1 <= h <= head → served h (logs h)) → to <= head → to - from <= fb_BlockRangeCap b →
  GetLogs b crit = limited (fb_LogsCap b) (filter (meets (fc_Addresses crit) (fc_Topics crit))
    (concat (map logs (seqZ from (to - from + 1))))).
Proof.
  intros begin end_ from to Hhash Hhead Hpos Hcap Hs Hto Hrange. unfold GetLogs. rewrite Hhash. unfold Logs.
  cbn [fc_BlockHash]. unfold range_logs. rewrite Hhead. cbn [fc_FromBlock fc_ToBlock]. fold begin end_.
  assert (∀ n, big_Int64 (big_Int64 n) = big_Int64 n) as Hidem.
  { intros n. unfold big_Int64. apply i64_small, i64_range. }
  assert (big_Int64 begin = begin) as -> by (unfold begin; destruct (fc_FromBlock crit); [apply Hidem|done]).
  assert (big_Int64 end_ = end_) as -> by (unfold end_; destruct (fc_ToBlock crit); [apply Hidem|done]).
  fold from to. destruct (Z.ltb_spec (fb_BlockRangeCap b) (to - from)); [lia|].
  assert (1 <= from) as Hfrom by (unfold from, normal_block; destruct (Z.ltb_spec begin 0), (Z.eqb_spec begin 0); lia).
  destruct (Z.ltb_spec head from) as [Hout|Hin].
  - rewrite seqZ_nil by lia. unfold limited. by rewrite (proj2 (Z.ltb_ge _ _)).
  - destruct (Z.ltb_spec (head + maxToOverhang) to); [unfold maxToOverhang in *; lia|].
    rewrite (range_loop_served _ _ _ _ _ [] logs); [done|done|cbn; lia| |lia]. intros h Hh. apply Hs. lia.
Qed.

(** A range that goes past the head finds nothing: the results of the block after the
    head are missing, and the logs found before it are dropped. *)
Lemma range_loop_missing fuel crit limit height to missing acc logs :
  Forall (λ h, served h (logs h)) (seqZ height (missing - height)) → height <= missing <= to →
  fb_BlockResults b missing = None → (to - height + 1 <= Z.of_nat fuel)%Z →
  let r := range_loop b fuel crit limit height to acc in r = Ok [] ∨ r = Err FErrTooMany.
Proof.
  revert height acc. induction fuel as [|fuel IH]; intros height acc Hs Hm Hnone Hf; [lia|]. cbn [range_loop].
  destruct (Z.leb_spec height to) as [_|]; [|lia]. destruct (decide (height = missing)) as [->|Hne].
  { rewrite Hnone. by left. }
  rewrite seqZ_cons in Hs by lia. apply Forall_cons in Hs as [(blockRes & bloom & ll & -> & -> & Hll & Heq & Hc) Hs].
  cbn [of_log mbind outcome_bind]. rewrite Heq in Hc. rewrite (blockLogs_filter crit blockRes bloom ll Hll Hc).
  cbn [mbind outcome_bind]. case_match; [by right|]. apply IH; [|lia|done|lia].
  by replace (missing - (height + 1)) with (Z.pred (missing - height)) by lia.
Qed.

Lemma logs_past_head crit head from to logs :
  fc_BlockHash crit = None → fc_FromBlock crit = Some from → fc_ToBlock crit = Some to →
  fb_Head b = Ok (Some head) → 1 <= from <= head → head < to < 2 ^ 63 → to - from <= fb_BlockRangeCap b →
  Forall (λ h, served h (logs h)) (seqZ from (head + 1 - from)) → fb_BlockResults b (head + 1) = None →
  GetLogs b crit = Ok [] ∨ GetLogs b crit = Err FErrTooMany.
Proof.
  intros Hhash Hfrom Hto Hhead H1 H2 Hrange Hs Hnone. unfold GetLogs. rewrite Hhash, Hfrom, Hto. unfold Logs.
  cbn [fc_BlockHash]. unfold range_logs. rewrite Hhead. cbn [fc_FromBlock fc_ToBlock].
  unfold big_Int64. rewrite !(i64_small from), !(i64_small to) by (unfold in_i64; lia). unfold normal_block.
  destruct (Z.ltb_spec from 0), (Z.eqb_spec from 0), (Z.ltb_spec to 0), (Z.eqb_spec to 0); try lia.
  destruct (Z.ltb_spec (fb_BlockRangeCap b) (to - from)); [lia|]. destruct (Z.ltb_spec head from); [lia|].
  apply (range_loop_missing _ _ _ _ _ (head + 1) _ logs); [done| |done|].
  - unfold maxToOverhang. case_match; lia.
  - case_match; lia.
Qed.

(** A hash the node does not know, and the zero hash, make the request panic. *)
Lemma logs_unknown_hash crit hash :
  fc_BlockHash crit = Some hash → hash ≠ 0 → fb_BlockByHash b hash = Ok None → GetLogs b crit = Panic.
Proof.
  intros Hh Hne Hb. unfold GetLogs. rewrite Hh. unfold Logs. rewrite Hh, bool_decide_eq_false_2 by done. by rewrite Hb.
Qed.

Lemma logs_zero_hash crit head :
  fc_BlockHash crit = Some 0 → fc_FromBlock crit = None → fb_Head b = Ok (Some head) → GetLogs b crit = Panic.
Proof.
  intros Hh Hf Hhead. unfold GetLogs. rewrite Hh. unfold Logs. rewrite Hh, bool_decide_eq_true_2 by done.
  unfold range_logs. by rewrite Hhead, Hf.
Qed.

(** The bits of a Bloom filter lie within it. *)
Lemma calcBloomIVs_bounds data iv :
  Forall (λ x, 0 <= x < 256) (hashbuf data) → calcBloomIVs data = Ok iv →
  Forall (λ i, 0 <= i < BloomByteLength) (biv_I iv) ∧ Forall (λ v, 1 <= v <= 128) (biv_V iv).
Proof.
  intros Hh. unfold calcBloomIVs.
  destruct (hashbuf data) as [|h0 [|h1 [|h2 [|h3 [|h4 [|h5 [|]]]]]]]; try done. intros [= <-]. cbn [biv_I biv_V].
  assert (∀ hi lo, 0 <= bloom_index hi lo < BloomByteLength) as Hi.
  { intros hi lo. unfold bloom_index, BloomByteLength. change 2047 with (Z.ones 11).
    rewrite Z.land_ones, Z.shiftr_div_pow2 by lia.
    pose proof (Z.mod_pos_bound (Z.lor (Z.shiftl hi 8) lo) (2 ^ 11) ltac:(lia)) as Hb.
    assert (0 <= Z.lor (Z.shiftl hi 8) lo mod 2 ^ 11 / 2 ^ 3 < 256); [|lia].
    split; [apply Z.div_pos; lia|apply Z.div_lt_upper_bound; lia]. }
  assert (∀ lo, 1 <= bloom_value lo <= 128) as Hv.
  { intros lo. unfold bloom_value. change 7 with (Z.ones 3). rewrite Z.land_ones by lia.
    pose proof (Z.mod_pos_bound lo (2 ^ 3) ltac:(lia)) as Hb. rewrite Z.shiftl_mul_pow2 by lia.
    pose proof (Z.pow_le_mono_r 2 0 (lo mod 2 ^ 3)). pose proof (Z.pow_le_mono_r 2 (lo mod 2 ^ 3) 7). lia. }
  split; repeat constructor; apply Hi || apply Hv.
Qed.
End FilterSpec.

(** ** A node of its own *)

Module LogToy.
Import GethToy.

Definition log_tuple (l : pb_log) :=
  (pl_Address l, pl_Topics l, pl_Data l, pl_BlockNumber l, pl_TxHash l, pl_TxIndex l, pl_BlockHash l,
   pl_Index l, pl_Removed l).

Definition tuple_log '(a, ts, d, n, tx, i, bh, ix, r) : pb_log := mkPbLog a ts d n tx i bh ix r.

#[export] Instance pb_log_eq_dec : EqDecision pb_log.
Proof. solve_decision. Defined.

#[export] Instance pb_log_countable : Countable pb_log.
Proof. apply (inj_countable' log_tuple tuple_log). by intros []. Defined.

(** A positive number as a string of digits, and back. *)
Fixpoint digits (p : positive) : string :=
  match p with
  | xH => EmptyString
  | xO p => String (Ascii.ascii_of_nat 48) (digits p)
  | xI p => String (Ascii.ascii_of_nat 49) (digits p)
  end.

Fixpoint undigits (s : string) : positive :=
  match s with
  | EmptyString => xH
  | String c s => if bool_decide (c = Ascii.ascii_of_nat 48) then xO (undigits s) else xI (undigits s)
  end.

Lemma undigits_digits p : undigits (digits p) = p.
Proof. induction p as [p IH|p IH|]; cbn; by rewrite ?IH. Qed.

#[export] Instance toy_codec : LogCodec := {
  marshal_log l := digits (encode l);
  unmarshal_log s := decode (undigits s)
}.

#[export] Instance toy_codec_laws : LogCodecLaws.
Proof. split. intros l. cbn. by rewrite undigits_digits, decode_encode. Qed.

(** A filter of 64 bits. *)
#[export] Instance toy_blooms : Blooms := {
  BloomLookup bloom bz := Z.testbit bloom (SetBytes bz mod 64);
  hashbuf _ := [1; 2; 3; 4; 5; 6]
}.

Definition toy_bloom (logs : list eth_log) : Z :=
  foldr (λ l acc, foldr (λ v acc, Z.lor acc (Z.shiftl 1 (v mod 64))) acc (l_Address l :: l_Topics l)) 0 logs.

Definition toy_log (addr : Address) (topics : list Hash) (n i : Z) : eth_log :=
  mkEthLog addr topics [] n 77 0 88 i false.

Definition toy_logs (height : Z) : list eth_log :=
  if height =? 1 then [toy_log 7 [5] 1 0]
  else if height =? 2 then [toy_log 9 [5] 2 0; toy_log 7 [6; 3] 2 1; toy_log 7 [5; 4] 2 2] else [].

(** The results of a block with one transaction, as the chain publishes them. *)
Definition toy_block (height : Z) : block_results :=
  mkBlockResults height
    [mkDeliverTx 0 EmptyString 21000 [tx_log_event (NewLogsFromEth (toy_logs height))]]
    [] [mkEvent "commission" []; bloom_event (toy_bloom (toy_logs height))].

Definition toy_node : filter_backend := {|
  fb_BlockByHash h := Ok (if h =? 88 then Some 1 else None);
  fb_BlockResults h := if (1 <=? h) && (h <=? 2) then Some (toy_block h) else None;
  fb_Head := Ok (Some 2);
  fb_LogsCap := 10;
  fb_BlockRangeCap := 100
|}.

Definition toy_crit (to : Z) : FilterCriteria := mkCriteria None (Some 0) (Some to) [7] [[5]].

Lemma toy_logs_ok h : Forall log_ok (toy_logs h).
Proof.
  unfold toy_logs. repeat case_match; repeat constructor; vm_compute; congruence.
Qed.

Lemma toy_block_logs h : GetLogsFromBlockResults (toy_block h) = Ok [toy_logs h].
Proof.
  unfold GetLogsFromBlockResults. cbn [br_TxsResults toy_block logs_of_results dt_Events AllTxLogsFromEvents].
  rewrite bool_decide_eq_true_2 by done. rewrite parse_tx_log_event, logs_roundtrip by apply toy_logs_ok. done.
Qed.

Lemma toy_bloom_bounds h : 0 <= toy_bloom (toy_logs h) < 2 ^ 2048.
Proof. unfold toy_logs. repeat case_match; vm_compute; split; congruence. Qed.

Lemma toy_covered h : Forall (covers (toy_bloom (toy_logs h))) (toy_logs h).
Proof. unfold toy_logs. repeat case_match; repeat constructor; vm_compute; reflexivity. Qed.

Lemma toy_served h : 1 <= h <= 2 → served toy_node h (toy_logs h).
Proof.
  intros Hh. exists (toy_block h), (toy_bloom (toy_logs h)), [toy_logs h]. split_and!.
  - cbn. by rewrite (proj2 (Z.leb_le 1 h)), (proj2 (Z.leb_le h 2)) by lia.
  - unfold toy_block. apply (bloom_roundtrip _ _ [] [mkEvent "commission" []]); [apply toy_bloom_bounds|].
    by repeat constructor.
  - apply toy_block_logs.
  - cbn. by rewrite app_nil_r.
  - apply toy_covered.
Qed.

Lemma get_logs_exact_witness :
  GetLogs toy_node (toy_crit 2) = Ok [toy_log 7 [5] 1 0; toy_log 7 [5; 4] 2 2].
Proof.
  etransitivity; [apply (get_logs_exact toy_node (toy_crit 2) 2 toy_logs)|].
  - reflexivity.
  - reflexivity.
  - lia.
  - cbn. lia.
  - exact toy_served.
  - vm_compute. congruence.
  - vm_compute. congruence.
  - vm_compute. reflexivity.
Defined.

End LogToy.
