(* ===== verification/FilterApi.v ===== *)
(** * Installed filters: [rpc/namespaces/ethereum/eth/filters], [rpc/ethereum/pubsub]

    The filters a client installs and polls ([api.go]), the subscriptions behind them
    ([filter_system.go]) and the event bus that hands events to the subscribers
    ([pubsub.go]).  Each operation runs under the lock of its structure, so a run is a
    sequence of operations; the goroutine of a filter is the operation [publish] that
    hands it an event, and what it does when its channel is closed is part of the
    operation that closes it.  The bus drops an event for a subscriber that is not
    ready to take it: the ready ones are an argument.  A subscription has the
    identifier of its filter; new identifiers are arguments too. *)

From stdpp Require Import fin_maps fin_sets.
From S2P Require Import Prelude.
From S2P Require Import EvmTx.
From S2P Require Import EvmTxSpec.
From S2P Require Import EthLogs.
From S2P Require Import LogFilter.

(** ** Data *)

Inductive filter_type := LogsSubscription | BlocksSubscription | PendingTransactionsSubscription.

#[export] Instance filter_type_dec : EqDecision filter_type.
Proof. solve_decision. Defined.

Record api_filter := mkFilter {
  f_typ : filter_type;
  f_crit : FilterCriteria;
  f_hashes : list Hash;
  f_logs : list eth_log
}.

(** The topics of the event bus: the queries of CometBFT the filters subscribe to. *)
Inductive topic := evmEvents | headerEvents | txEvents.

#[export] Instance topic_dec : EqDecision topic.
Proof. solve_decision. Defined.

#[export] Instance topic_countable : Countable topic.
Proof.
  apply (inj_countable' (λ t, match t with evmEvents => 0 | headerEvents => 1 | txEvents => 2 end)%nat
           (λ n, match n with O => evmEvents | 1 => headerEvents | _ => txEvents end)%nat).
  by intros [].
Defined.

(** An event of CometBFT.  A transaction carries the logs of the responses of its
    messages, [None] where they do not decode, and the hashes of its Ethereum messages,
    [None] where the transaction does not decode. *)
Inductive tm_event :=
| EventDataTx (responses : option (list (list pb_log))) (hashes : option (list Hash))
| EventDataNewBlockHeader (hash : Hash)
| EventDataOther.

(** The API, its event system and its bus.  [index] holds the installed
    subscriptions, [topics] those of the bus, each with the channel that feeds it. *)
Record filter_api := mkApi {
  a_filters : gmap Z api_filter;
  a_index : gmap Z (filter_type * topic);
  a_topics : gset topic;
  a_subscribers : gmap topic (gset Z)
}.

Inductive api_error :=
| AErrMaxLimit
| AErrBlockCombination
| AErrSubscribe
| AErrNotFound
| AErrType.

Abbreviation api_result A := (outcome api_error A).

Definition with_filters (m : gmap Z api_filter) (s : filter_api) : filter_api :=
  mkApi m (a_index s) (a_topics s) (a_subscribers s).

Definition event_of (typ : filter_type) : topic :=
  match typ with
  | LogsSubscription => evmEvents
  | BlocksSubscription => headerEvents
  | PendingTransactionsSubscription => txEvents
  end.

(** ** The event bus: [pubsub.go] *)

Definition subscribers_of (name : topic) (s : filter_api) : gset Z := default ∅ (a_subscribers s !! name).

(** [Subscribe]; a topic that is not registered is an error. *)
Definition bus_Subscribe (name : topic) (id : Z) (s : filter_api) : api_result filter_api :=
  if bool_decide (name ∈ a_topics s) then
    Ok (mkApi (a_filters s) (a_index s) (a_topics s)
          (<[name := {[ id ]} ∪ subscribers_of name s]> (a_subscribers s)))
  else Err AErrSubscribe.

(** The function [Subscribe] returns to leave the bus. *)
Definition unsubscribe (name : topic) (id : Z) (s : filter_api) : filter_api :=
  mkApi (a_filters s) (a_index s) (a_topics s)
    (<[name := subscribers_of name s ∖ {[ id ]}]> (a_subscribers s)).

(** [closeAllSubscribers], once the channel of a topic is closed.  The goroutine of a
    filter whose channel is closed deletes the filter. *)
Definition close_topic (name : topic) (s : filter_api) : filter_api :=
  mkApi (filter (λ '(id, _), id ∉ subscribers_of name s) (a_filters s)) (a_index s)
    (a_topics s ∖ {[ name ]}) (delete name (a_subscribers s)).

(** ** The event system: [filter_system.go] *)

(** [subscribe]: a topic that is on the bus is joined there; for a new one the
    subscription is installed in the index.  [wsOk] tells whether CometBFT accepts
    the query. *)
Definition subscribe (typ : filter_type) (id : Z) (wsOk : bool) (s : filter_api) : api_result filter_api :=
  let event := event_of typ in
  if bool_decide (event ∈ a_topics s) then bus_Subscribe event id s
  else if negb wsOk then Err AErrSubscribe
  else
    let s := mkApi (a_filters s) (<[id := (typ, event)]> (a_index s)) ({[ event ]} ∪ a_topics s) (a_subscribers s) in
    bus_Subscribe event id s.

(** The check of [SubscribeLogs]. *)
Definition block_combination (crit : FilterCriteria) : bool :=
  let from := match fc_FromBlock crit with Some n => big_Int64 n | None => LatestBlockNumber end in
  let to := match fc_ToBlock crit with Some n => big_Int64 n | None => LatestBlockNumber end in
  ((from =? LatestBlockNumber) && (to =? LatestBlockNumber))
  || ((0 <=? from) && (0 <=? to) && (from <=? to))
  || ((0 <=? from) && (to =? LatestBlockNumber)).

Definition SubscribeLogs (crit : FilterCriteria) (id : Z) (wsOk : bool) (s : filter_api) : api_result filter_api :=
  if block_combination crit then subscribe LogsSubscription id wsOk s else Err AErrBlockCombination.

(** The removal of a subscription in [eventLoop]: the topic is closed unless another
    subscription of the index uses it.  Then the goroutine of the filter learns that it
    is removed, and leaves the bus; that of a filter for pending transactions goes on. *)
Definition uninstall (typ : filter_type) (id : Z) (s : filter_api) : filter_api :=
  let event := event_of typ in
  let index := delete id (a_index s) in
  let channelInUse := existsb (λ x, bool_decide (x.2 = (typ, event))) (map_to_list index) in
  let s := mkApi (a_filters s) index (a_topics s) (a_subscribers s) in
  if negb channelInUse && bool_decide (event ∈ a_topics s) then close_topic event s
  else if bool_decide (typ = PendingTransactionsSubscription) then s
  else unsubscribe event id s.

(** ** The API: [api.go] *)

Section Api.
Context `{GE : Geth}.
Variable RPCFilterCap : Z.

Definition new_filter (typ : filter_type) (crit : FilterCriteria) : api_filter := mkFilter typ crit [] [].

Definition no_criteria : FilterCriteria := mkCriteria None None None [] [].

Definition install (id : Z) (f : api_filter) (s : filter_api) : filter_api :=
  with_filters (<[id := f]> (a_filters s)) s.

Definition at_limit (s : filter_api) : bool := RPCFilterCap <=? Z.of_nat (size (a_filters s)).

Definition NewFilter (crit : FilterCriteria) (id : Z) (wsOk : bool) (s : filter_api) : api_result filter_api :=
  if at_limit s then Err AErrMaxLimit
  else s ← SubscribeLogs crit id wsOk s; Ok (install id (new_filter LogsSubscription crit) s).

Definition NewBlockFilter (id : Z) (wsOk : bool) (s : filter_api) : api_result filter_api :=
  if at_limit s then Err AErrMaxLimit
  else s ← subscribe BlocksSubscription id wsOk s; Ok (install id (new_filter BlocksSubscription no_criteria) s).

Definition NewPendingTransactionFilter (id : Z) (wsOk : bool) (s : filter_api) : api_result filter_api :=
  if at_limit s then Err AErrMaxLimit
  else
    s ← subscribe PendingTransactionsSubscription id wsOk s;
    Ok (install id (new_filter PendingTransactionsSubscription no_criteria) s).

Definition add_logs (logs : list eth_log) (f : api_filter) : api_filter :=
  mkFilter (f_typ f) (f_crit f) (f_hashes f) (f_logs f ++ logs).

Definition add_hashes (hashes : list Hash) (f : api_filter) : api_filter :=
  mkFilter (f_typ f) (f_crit f) (f_hashes f ++ hashes) (f_logs f).

(** [DecodeTxResponse]: the logs of the first message. *)
Definition first_response (responses : list (list pb_log)) : list pb_log :=
  match responses with [] => [] | logs :: _ => logs end.

(** The logs of an event a filter takes. *)
Definition taken_logs (crit : FilterCriteria) (ev : tm_event) : list eth_log :=
  match ev with
  | EventDataTx (Some responses) _ =>
      FilterLogs (LogsToEthereum (first_response responses)) (fc_FromBlock crit) (fc_ToBlock crit)
        (fc_Addresses crit) (fc_Topics crit)
  | _ => []
  end.

(** What a filter makes of an event. *)
Definition take_event (ev : tm_event) (f : api_filter) : api_filter :=
  match f_typ f, ev with
  | LogsSubscription, _ => add_logs (taken_logs (f_crit f) ev) f
  | BlocksSubscription, EventDataNewBlockHeader hash => add_hashes [hash] f
  | PendingTransactionsSubscription, EventDataTx _ (Some hashes) => add_hashes hashes f
  | _, _ => f
  end.

(** The goroutine of a filter takes an event.  That of a log filter ends, and leaves the
    bus, at a response it cannot decode; the filter stays. *)
Definition deliver (name : topic) (ev : tm_event) (id : Z) (s : filter_api) : filter_api :=
  match a_filters s !! id with
  | Some f =>
      let s := install id (take_event ev f) s in
      match f_typ f, ev with
      | LogsSubscription, EventDataTx None _ => unsubscribe name id s
      | _, _ => s
      end
  | None => s
  end.

(** [publishAllSubscribers]: to the subscribers that are ready. *)
Definition publish (name : topic) (ev : tm_event) (ready : gset Z) (s : filter_api) : filter_api :=
  foldr (deliver name ev) s (elements (subscribers_of name s ∩ ready)).

(** [GetFilterChanges]: what has come since the last call. *)
Definition GetFilterChanges (id : Z) (s : filter_api) : api_result ((list Hash + list eth_log) * filter_api) :=
  match a_filters s !! id with
  | None => Err AErrNotFound
  | Some f =>
      match f_typ f with
      | PendingTransactionsSubscription | BlocksSubscription =>
          Ok (inl (f_hashes f), install id (mkFilter (f_typ f) (f_crit f) [] (f_logs f)) s)
      | LogsSubscription =>
          Ok (inr (f_logs f), install id (mkFilter (f_typ f) (f_crit f) (f_hashes f) []) s)
      end
  end.

(** [UninstallFilter], with the removal of the subscription it asks for. *)
Definition UninstallFilter (id : Z) (s : filter_api) : bool * filter_api :=
  match a_filters s !! id with
  | None => (false, s)
  | Some f => (true, uninstall (f_typ f) id (with_filters (delete id (a_filters s)) s))
  end.

(** One round of [timeoutLoop]: the filters whose deadline has passed. *)
Definition timeout_round (expired : gset Z) (s : filter_api) : filter_api :=
  foldr (λ id s, (UninstallFilter id s).2) s (elements (dom (a_filters s) ∩ expired)).
End Api.

Definition GetFilterLogs `{Geth} `{LogCodec} `{Blooms} (b : filter_backend) (id : Z) (s : filter_api) :
    outcome (api_error + filter_error) (list eth_log) :=
  match a_filters s !! id with
  | None => Err (inl AErrNotFound)
  | Some f =>
      if bool_decide (f_typ f = LogsSubscription) then
        match GetLogs b (f_crit f) with
        | Ok logs => Ok logs
        | Err e => Err (inr e)
        | Panic => Panic
        end
      else Err (inl AErrType)
  end.

(** ** Runs *)

Inductive api_op :=
| OpNewFilter (crit : FilterCriteria) (id : Z) (wsOk : bool)
| OpNewBlockFilter (id : Z) (wsOk : bool)
| OpNewPendingTransactionFilter (id : Z) (wsOk : bool)
| OpPublish (name : topic) (ev : tm_event) (ready : gset Z)
| OpGetFilterChanges (id : Z)
| OpUninstallFilter (id : Z)
| OpTimeout (expired : gset Z).

Section Runs.
Context `{GE : Geth}.
Variable RPCFilterCap : Z.

Definition kept (s : filter_api) (x : api_result filter_api) : filter_api :=
  match x with Ok s => s | _ => s end.

Definition run_op (op : api_op) (s : filter_api) : filter_api :=
  match op with
  | OpNewFilter crit id wsOk => kept s (NewFilter RPCFilterCap crit id wsOk s)
  | OpNewBlockFilter id wsOk => kept s (NewBlockFilter RPCFilterCap id wsOk s)
  | OpNewPendingTransactionFilter id wsOk => kept s (NewPendingTransactionFilter RPCFilterCap id wsOk s)
  | OpPublish name ev ready => publish name ev ready s
  | OpGetFilterChanges id => match GetFilterChanges id s with Ok (_, s) => s | _ => s end
  | OpUninstallFilter id => (UninstallFilter id s).2
  | OpTimeout expired => timeout_round expired s
  end.

Definition run_ops (ops : list api_op) (s : filter_api) : filter_api := foldl (λ s op, run_op op s) s ops.

Definition creates (op : api_op) (id : Z) : bool :=
  match op with
  | OpNewFilter _ i _ | OpNewBlockFilter i _ | OpNewPendingTransactionFilter i _ => i =? id
  | _ => false
  end.

(** What a poll of the filter [id] returns at an operation, and the logs that the
    goroutine of the filter takes there. *)
Definition polled (id : Z) (op : api_op) (s : filter_api) : list eth_log :=
  match op with
  | OpGetFilterChanges i =>
      if i =? id then match GetFilterChanges i s with Ok (inr logs, _) => logs | _ => [] end else []
  | _ => []
  end.

Definition delivered (id : Z) (op : api_op) (s : filter_api) : list eth_log :=
  match op, a_filters s !! id with
  | OpPublish name ev ready, Some f =>
      if decide (id ∈ subscribers_of name s ∩ ready) then taken_logs (f_crit f) ev else []
  | _, _ => []
  end.

(** Both along a run. *)
Fixpoint polls (id : Z) (ops : list api_op) (s : filter_api) : list eth_log :=
  match ops with [] => [] | op :: ops => polled id op s ++ polls id ops (run_op op s) end.

Fixpoint deliveries (id : Z) (ops : list api_op) (s : filter_api) : list eth_log :=
  match ops with [] => [] | op :: ops => delivered id op s ++ deliveries id ops (run_op op s) end.

(** ** Lemmas on the operations *)

Lemma subscribe_filters typ id wsOk s s' : subscribe typ id wsOk s = Ok s' → a_filters s' = a_filters s.
Proof.
  unfold subscribe, bus_Subscribe. intros H. repeat case_match; simplify_eq; done.
Qed.

Lemma new_filters typ id wsOk f s s' :
  s' = kept s (s1 ← subscribe typ id wsOk s; Ok (install id f s1)) →
  a_filters s' = a_filters s ∨ a_filters s' = <[id := f]> (a_filters s).
Proof.
  intros ->. destruct (subscribe typ id wsOk s) as [s1| |] eqn:H; cbn; [|by left..].
  right. by rewrite (subscribe_filters _ _ _ _ _ H).
Qed.

(** The filters a new one leaves. *)
Lemma creating_filters op id s :
  creates op id = true →
  a_filters (run_op op s) = a_filters s ∨
  (at_limit RPCFilterCap s = false ∧ ∃ f, a_filters (run_op op s) = <[id := f]> (a_filters s)).
Proof.
  destruct op as [crit i ws|i ws|i ws| | | |]; try done; intros ->%Z.eqb_eq; cbn [run_op];
    unfold NewFilter, NewBlockFilter, NewPendingTransactionFilter, SubscribeLogs;
    (destruct (at_limit RPCFilterCap s); [by left|]).
  - destruct (block_combination crit); [|by left].
    destruct (new_filters LogsSubscription id ws (new_filter LogsSubscription crit) s _ eq_refl); [by left|right; eauto].
  - destruct (new_filters BlocksSubscription id ws (new_filter BlocksSubscription no_criteria) s _ eq_refl); [by left|right; eauto].
  - destruct (new_filters PendingTransactionsSubscription id ws (new_filter PendingTransactionsSubscription no_criteria) s _ eq_refl);
      [by left|right; eauto].
Qed.

Lemma unsubscribe_filters name id s : a_filters (unsubscribe name id s) = a_filters s.
Proof. done. Qed.

Lemma uninstall_filters typ id s : a_filters (uninstall typ id s) ⊆ a_filters s.
Proof.
  unfold uninstall. repeat case_match; try done. cbn. apply map_filter_subseteq.
Qed.

Lemma UninstallFilter_filters id s : a_filters (UninstallFilter id s).2 ⊆ a_filters s.
Proof.
  unfold UninstallFilter. destruct (a_filters s !! id) as [f|]; [|done]. cbn.
  etrans; [apply uninstall_filters|]. cbn. apply delete_subseteq.
Qed.

Lemma timeout_filters l s : a_filters (foldr (λ id s, (UninstallFilter id s).2) s l) ⊆ a_filters s.
Proof. induction l as [|id l IH]; cbn; [done|]. by etrans; [apply UninstallFilter_filters|]. Qed.

Lemma deliver_filters name ev i s id :
  a_filters (deliver name ev i s) !! id =
    if decide (i = id) then take_event ev <$> a_filters s !! id else a_filters s !! id.
Proof.
  unfold deliver. destruct (a_filters s !! i) as [f|] eqn:Hi.
  - assert (∀ s1, s1 = install i (take_event ev f) s →
      a_filters s1 !! id = if decide (i = id) then take_event ev <$> a_filters s !! id else a_filters s !! id) as Hins.
    { intros s1 ->. cbn. rewrite lookup_insert. case_decide; [by subst; rewrite Hi|done]. }
    destruct (f_typ f), ev as [[]| |]; exact (Hins _ eq_refl).
  - case_decide; [by subst; rewrite Hi|done].
Qed.

Lemma publish_filters name ev l s id :
  NoDup l →
  a_filters (foldr (deliver name ev) s l) !! id =
    if decide (id ∈ l) then take_event ev <$> a_filters s !! id else a_filters s !! id.
Proof.
  induction 1 as [|i l Hi _ IH]; cbn [foldr]; [done|]. rewrite deliver_filters, IH.
  destruct (decide (i = id)) as [->|Hne].
  - rewrite (decide_False (P := id ∈ l)), decide_True by (done || left). done.
  - destruct (decide (id ∈ l)); [rewrite decide_True by by right|rewrite decide_False by by intros [->|]%elem_of_cons]; done.
Qed.

Lemma absent_stays op id s :
  creates op id = false → a_filters s !! id = None → a_filters (run_op op s) !! id = None.
Proof.
  intros Hc Hn.
  assert (∀ i, creates op i = true → a_filters (run_op op s) !! id = None) as Hnew.
  { intros i Hi. assert (i ≠ id) by (intros ->; congruence).
    destruct (creating_filters op i s Hi) as [->|(_ & f & ->)]; [done|]. by rewrite lookup_insert_ne. }
  destruct op as [crit i ws|i ws|i ws|name ev ready|i|i|expired]; [apply (Hnew i), Z.eqb_refl..| | | |]; cbn [run_op].
  - unfold publish. rewrite publish_filters by apply NoDup_elements. rewrite Hn. by case_decide.
  - unfold GetFilterChanges. destruct (a_filters s !! i) as [f|] eqn:Hi; [|done].
    assert (i ≠ id) by congruence. destruct (f_typ f); cbn; by rewrite lookup_insert_ne.
  - eapply lookup_weaken_None; [exact Hn|apply UninstallFilter_filters].
  - eapply lookup_weaken_None; [exact Hn|apply timeout_filters].
Qed.

(** One operation on a log filter that stays. *)
Lemma polled_once op id s f f' :
  creates op id = false → a_filters s !! id = Some f → f_typ f = LogsSubscription →
  a_filters (run_op op s) !! id = Some f' →
  f_typ f' = LogsSubscription ∧ f_crit f' = f_crit f ∧
  polled id op s ++ f_logs f' = f_logs f ++ delivered id op s.
Proof.
  intros Hc Hf Ht Hf'. unfold delivered. rewrite Hf.
  assert (∀ (P : Prop), f' = f → f_typ f' = LogsSubscription ∧ f_crit f' = f_crit f ∧ [] ++ f_logs f' = f_logs f ++ [])
    as Hsame by (intros _ ->; by rewrite app_nil_r).
  assert (∀ i, creates op i = true → a_filters (run_op op s) !! id = Some f) as Hnew.
  { intros i Hi. assert (i ≠ id) by (intros ->; congruence).
    destruct (creating_filters op i s Hi) as [->|(_ & g & ->)]; [done|]. by rewrite lookup_insert_ne. }
  destruct op as [crit i ws|i ws|i ws|name ev ready|i|i|expired]; cbn [run_op polled] in *.
  1-3: specialize (Hnew i (Z.eqb_refl i)); apply (Hsame True); congruence.
  - unfold publish in Hf'. rewrite publish_filters in Hf' by apply NoDup_elements. rewrite Hf in Hf'.
    destruct (decide (id ∈ elements _)) as [Hin|Hin]; rewrite elem_of_elements in Hin.
    + rewrite decide_True by done. cbn in Hf'. injection Hf' as <-. unfold take_event. rewrite Ht. cbn. by rewrite Ht.
    + rewrite decide_False by done. apply (Hsame True). congruence.
  - unfold GetFilterChanges in *. destruct (Z.eqb_spec i id) as [->|Hne].
    + rewrite Hf, Ht in Hf' |- *. cbn in Hf'. rewrite lookup_insert_eq in Hf'. injection Hf' as <-.
      cbn. by rewrite !app_nil_r.
    + apply (Hsame True). destruct (a_filters s !! i) as [g|]; [|congruence].
      destruct (f_typ g); cbn in Hf'; rewrite lookup_insert_ne in Hf' by done; congruence.
  - apply (Hsame True). pose proof (UninstallFilter_filters i s) as Hsub.
    apply (lookup_weaken _ _ _ _ Hf') in Hsub. congruence.
  - apply (Hsame True). pose proof (timeout_filters (elements (dom (a_filters s) ∩ expired)) s) as Hsub.
    apply (lookup_weaken _ _ _ _ Hf') in Hsub. congruence.
Qed.

Lemma absent_run ops id s :
  Forall (λ op, creates op id = false) ops → a_filters s !! id = None → a_filters (run_ops ops s) !! id = None.
Proof.
  intros Hops. revert s. induction Hops as [|op ops Hc _ IH]; intros s Hn; [done|]. by apply IH, absent_stays.
Qed.

(** C30.  Polling a log filter loses nothing and repeats nothing: over any run of the API
    (other filters installed, polled, uninstalled or timed out, events published to
    whoever is ready) at whose end the filter is still there, what its polls returned
    followed by what waits for the next poll is, in order, what waited at the start
    followed by the logs of the events its goroutine took that meet its criteria. *)
Theorem polls_return_deliveries (ops : list api_op) (id : Z) (s : filter_api) (f f' : api_filter) :
  Forall (λ op, creates op id = false) ops →
  a_filters s !! id = Some f → f_typ f = LogsSubscription →
  a_filters (run_ops ops s) !! id = Some f' →
  f_crit f' = f_crit f ∧ polls id ops s ++ f_logs f' = f_logs f ++ deliveries id ops s.
Proof.
  intros Hops. revert s f. induction Hops as [|op ops Hc Hops IH]; intros s f Hf Ht Hf'.
  { cbn in *. rewrite app_nil_r. split; congruence. }
  cbn [run_ops foldl] in Hf'. change (foldl _ (run_op op s) ops) with (run_ops ops (run_op op s)) in Hf'.
  destruct (a_filters (run_op op s) !! id) as [f1|] eqn:H1.
  2: { by rewrite (absent_run ops id _ Hops H1) in Hf'. }
  destruct (polled_once op id s f f1 Hc Hf Ht H1) as (Ht1 & Hcrit1 & Heq1).
  destruct (IH _ f1 H1 Ht1 Hf') as (Hcrit & Heq). split; [congruence|].
  cbn [polls deliveries]. by rewrite <-(assoc_L (++)), Heq, !(assoc_L (++)), Heq1.
Qed.

(** The number of filters never exceeds the cap. *)
Lemma filters_within_cap ops s :
  Z.of_nat (size (a_filters s)) <= RPCFilterCap → Z.of_nat (size (a_filters (run_ops ops s))) <= RPCFilterCap.
Proof.
  assert (∀ op s, Z.of_nat (size (a_filters s)) <= RPCFilterCap →
    Z.of_nat (size (a_filters (run_op op s))) <= RPCFilterCap) as Hop.
  2: { revert s. induction ops as [|op ops IH]; intros s Hs; [done|]. by apply IH, Hop. }
  clear ops s. intros op s Hs.
  assert (∀ i, creates op i = true → Z.of_nat (size (a_filters (run_op op s))) <= RPCFilterCap) as Hnew.
  { intros i Hi. destruct (creating_filters op i s Hi) as [->|(Hl & f & ->)]; [done|].
    unfold at_limit in Hl. apply Z.leb_gt in Hl. rewrite map_size_insert. case_match; cbn [id]; lia. }
  assert (∀ m : gmap Z api_filter, dom m ⊆ dom (a_filters s) → Z.of_nat (size m) <= RPCFilterCap) as Hdom.
  { intros m Hm. apply subseteq_size in Hm. rewrite !size_dom in Hm. lia. }
  destruct op as [crit i ws|i ws|i ws|name ev ready|i|i|expired]; [apply (Hnew i), Z.eqb_refl..| | | |]; cbn [run_op].
  - apply Hdom. intros id. rewrite !elem_of_dom. unfold publish.
    rewrite publish_filters by apply NoDup_elements. case_decide; [by rewrite fmap_is_Some|done].
  - unfold GetFilterChanges. destruct (a_filters s !! i) as [f|] eqn:Hi; [|done].
    assert (is_Some (a_filters s !! i)) as His by by exists f.
    destruct (f_typ f); apply Hdom; cbn; rewrite dom_insert_lookup_L by done; done.
  - apply Hdom, subseteq_dom, UninstallFilter_filters.
  - apply Hdom, subseteq_dom, timeout_filters.
Qed.
End Runs.

(** ** A client of its own *)

Module ApiToy.
Import GethToy LogToy.

Definition empty_api : filter_api := mkApi ∅ ∅ ∅ ∅.

Definition crit : FilterCriteria := mkCriteria None None None [7] [].

Definition ev (a : Address) : tm_event :=
  EventDataTx (Some [NewLogsFromEth [toy_log a [5] 3 0]]) (Some [77]).

(** A log filter next to one for blocks. *)
Definition start : filter_api := run_ops 10 [OpNewFilter crit 1 true; OpNewBlockFilter 2 true] empty_api.

Definition ops : list api_op :=
  [OpPublish evmEvents (ev 7) {[ 1 ]}; OpPublish evmEvents (ev 9) {[ 1 ]}; OpGetFilterChanges 1;
   OpPublish evmEvents (ev 7) ∅; OpPublish headerEvents (EventDataNewBlockHeader 5) {[ 2 ]};
   OpUninstallFilter 2; OpPublish evmEvents (ev 7) {[ 1 ]}].

Lemma polls_return_deliveries_witness :
  polls 10 1 ops start ++ [toy_log 7 [5] 3 0] = [] ++ deliveries 10 1 ops start ∧
  deliveries 10 1 ops start = [toy_log 7 [5] 3 0; toy_log 7 [5] 3 0].
Proof.
  split; [|vm_compute; reflexivity].
  apply (polls_return_deliveries 10 ops 1 start (mkFilter LogsSubscription crit [] [])
    (mkFilter LogsSubscription crit [] [toy_log 7 [5] 3 0])).
  - repeat constructor.
  - vm_compute. reflexivity.
  - reflexivity.
  - vm_compute. reflexivity.
Defined.

(** A filter that joined the topic of another is not in the index: uninstalling the
    first one closes the topic, and the second filter is gone. *)
Example uninstall_closes_other :
  let s := run_ops 10 [OpNewFilter crit 1 true; OpNewFilter crit 2 true] empty_api in
  is_Some (a_filters s !! 2) ∧ a_filters (run_op 10 (OpUninstallFilter 1) s) !! 2 = None.
Proof. split; [|vm_compute; reflexivity]. exists (new_filter LogsSubscription crit). vm_compute. reflexivity. Qed.

(** Only the logs of the first message of a transaction are seen. *)
Example second_message_missed :
  taken_logs crit (EventDataTx (Some [NewLogsFromEth [toy_log 9 [5] 3 0]; NewLogsFromEth [toy_log 7 [5] 3 1]]) None) = [].
Proof. vm_compute. reflexivity. Qed.
End ApiToy.
