(* ===== verification/TxEvents.v ===== *)
(** * Ethereum transactions in events: [rpc/types/events.go], [app/ante/evm/12_emit_event.go]

    The ante handler and the message server publish each Ethereum message of a Cosmos
    transaction in an [ethereum_tx] event each; [ParseTxResult] reads the messages back
    from the events of the result.  At the end, the round trip: what is parsed is what
    was executed. *)

From S2P Require Import Prelude.
From S2P Require Import Decimal.
From S2P Require Import EvmTx.
From S2P Require Import EvmTxSpec.
From S2P Require Import EthLogs.

(** ** Data *)

Definition AttributeKeyAmount : string := "amount".
Definition AttributeKeyRecipient : string := "recipient".
Definition AttributeKeyTxHash : string := "txHash".
Definition AttributeKeyEthereumTxHash : string := "ethereumTxHash".
Definition AttributeKeyTxIndex : string := "txIndex".
Definition AttributeKeyTxGasUsed : string := "txGasUsed".
Definition AttributeKeyEthereumTxFailed : string := "ethereumTxFailed".

(** A message of a Cosmos transaction; of the Ethereum ones, its hash field, its gas
    limit and the transaction it wraps. *)
Inductive tx_msg :=
| EthMsg (hash : string) (gas : Z) (tx : eth_tx)
| OtherMsg.

(** [isEth]: the transaction carries the extension option of Ethereum transactions. *)
Record sdk_tx := mkSdkTx {
  tx_isEth : bool;
  tx_Msgs : list tx_msg
}.

Inductive event_format := FormatUnknown | Format1 | Format2.

Record ParsedTx := mkParsedTx {
  pt_MsgIndex : Z;
  pt_Hash : Hash;
  pt_EthTxIndex : Z;
  pt_GasUsed : Z;
  pt_Failed : bool
}.

Record ParsedTxs := mkParsedTxs {
  pts_Txs : list ParsedTx;
  pts_TxHashes : gmap Hash nat
}.

Inductive parse_error := PErrAttribute | PErrNotFound.
Abbreviation parse_result A := (outcome parse_error A).

Section Parse.
Context `{GE : Geth}.

Definition NewParsedTx (msgIndex : nat) : ParsedTx := mkParsedTx (Z.of_nat msgIndex) 0 (-1) 0 false.

(** ** Reading the attributes *)

Definition fillTxAttribute (tx : ParsedTx) (key value : string) : parse_result ParsedTx :=
  if bool_decide (key = AttributeKeyEthereumTxHash) then
    Ok (mkParsedTx (pt_MsgIndex tx) (HexToHash value) (pt_EthTxIndex tx) (pt_GasUsed tx) (pt_Failed tx))
  else if bool_decide (key = AttributeKeyTxIndex) then
    match ParseUint value 31 with
    | Some n => Ok (mkParsedTx (pt_MsgIndex tx) (pt_Hash tx) n (pt_GasUsed tx) (pt_Failed tx))
    | None => Err PErrAttribute
    end
  else if bool_decide (key = AttributeKeyTxGasUsed) then
    match ParseUint value 64 with
    | Some n => Ok (mkParsedTx (pt_MsgIndex tx) (pt_Hash tx) (pt_EthTxIndex tx) n (pt_Failed tx))
    | None => Err PErrAttribute
    end
  else if bool_decide (key = AttributeKeyEthereumTxFailed) then
    Ok (mkParsedTx (pt_MsgIndex tx) (pt_Hash tx) (pt_EthTxIndex tx) (pt_GasUsed tx)
          (negb (bool_decide (value = EmptyString))))
  else Ok tx.

Fixpoint fillTxAttributes (tx : ParsedTx) (attrs : list (string * string)) : parse_result ParsedTx :=
  match attrs with
  | [] => Ok tx
  | (key, value) :: attrs => tx ← fillTxAttribute tx key value; fillTxAttributes tx attrs
  end.

Definition newTx (attrs : list (string * string)) (p : ParsedTxs) : parse_result ParsedTxs :=
  let msgIndex := length (pts_Txs p) in
  tx ← fillTxAttributes (NewParsedTx msgIndex) attrs;
  Ok (mkParsedTxs (pts_Txs p ++ [tx]) (<[pt_Hash tx := msgIndex]> (pts_TxHashes p))).

(** An index out of range panics. *)
Definition updateTx (eventIndex : nat) (attrs : list (string * string)) (p : ParsedTxs) : parse_result ParsedTxs :=
  tx ← fillTxAttributes (NewParsedTx eventIndex) attrs;
  match pts_Txs p !! eventIndex with
  | None => Panic
  | Some old =>
      let hashes := if bool_decide (pt_Hash tx = pt_Hash old) then pts_TxHashes p
                    else <[pt_Hash tx := eventIndex]> (pts_TxHashes p) in
      Ok (mkParsedTxs (<[eventIndex := tx]> (pts_Txs p)) hashes)
  end.

(** ** [ParseTxResult] *)

(** The loop over the events; [next] is one more than the variable [eventIndex]. *)
Fixpoint parse_events (format : event_format) (next : nat) (events : list abci_event) (p : ParsedTxs) :
    parse_result ParsedTxs :=
  match events with
  | [] => Ok p
  | event :: events =>
      if negb (bool_decide (ev_Type event = EventTypeEthereumTx)) then parse_events format next events p
      else
        let attrs := ev_Attributes event in
        let format := match format with
                      | FormatUnknown => if (2 <? length attrs)%nat then Format1 else Format2
                      | _ => format
                      end in
        if (length attrs =? 2)%nat then p ← newTx attrs p; parse_events format next events p
        else
          p ← match format with Format1 => newTx attrs p | _ => updateTx next attrs p end;
          parse_events format (S next) events p
  end.

Definition with_gas (g : Z) (tx : ParsedTx) : ParsedTx :=
  mkParsedTx (pt_MsgIndex tx) (pt_Hash tx) (pt_EthTxIndex tx) g (pt_Failed tx).

(** The transactions of a failed result, with the gas limits of the messages; a missing
    message, or one of another type, panics. *)
Fixpoint fail_all (txs : list ParsedTx) (msgs : list tx_msg) : parse_result (list ParsedTx) :=
  match txs with
  | [] => Ok []
  | tx :: txs =>
      match msgs with
      | EthMsg _ gas _ :: msgs =>
          (λ l, mkParsedTx (pt_MsgIndex tx) (pt_Hash tx) (pt_EthTxIndex tx) gas true :: l) <$> fail_all txs msgs
      | _ => Panic
      end
  end.

Definition ParseTxResult (result : DeliverTx) (tx : option sdk_tx) : parse_result ParsedTxs :=
  p ← parse_events FormatUnknown 0 (dt_Events result) (mkParsedTxs [] ∅);
  let gasUsed := u64 (dt_GasUsed result) in
  let txs := match pts_Txs p with [t] => [with_gas gasUsed t] | txs => txs end in
  match tx with
  | Some tx =>
      if dt_Code result =? 0 then Ok (mkParsedTxs txs (pts_TxHashes p))
      else txs ← fail_all txs (tx_Msgs tx); Ok (mkParsedTxs txs (pts_TxHashes p))
  | None => Ok (mkParsedTxs txs (pts_TxHashes p))
  end.

(** ** Getters *)

Definition GetTxByHash (hash : Hash) (p : ParsedTxs) : option ParsedTx :=
  idx ← pts_TxHashes p !! hash; pts_Txs p !! idx.

Definition GetTxByMsgIndex (i : Z) (p : ParsedTxs) : option ParsedTx :=
  if (i <? 0) || (Z.of_nat (length (pts_Txs p)) <=? i) then None else pts_Txs p !! Z.to_nat i.

Definition GetTxByTxIndex (txIndex : Z) (p : ParsedTxs) : option ParsedTx :=
  match pts_Txs p with
  | [] => None
  | tx :: _ => GetTxByMsgIndex (txIndex - pt_EthTxIndex tx) p
  end.

(** The sum of the first [msgIndex + 1], in 64 bits; beyond the last one it panics. *)
Definition AccumulativeGasUsed (msgIndex : nat) (p : ParsedTxs) : parse_result Z :=
  if (msgIndex <? length (pts_Txs p))%nat then
    Ok (foldl (λ acc tx, u64 (acc + pt_GasUsed tx)) 0 (take (S msgIndex) (pts_Txs p)))
  else Panic.

(** [types.TxResult] of the indexer. *)
Record TxResult := mkTxResult {
  tr_Height : Z;
  tr_TxIndex : Z;
  tr_MsgIndex : Z;
  tr_EthTxIndex : Z;
  tr_Failed : bool;
  tr_GasUsed : Z;
  tr_CumulativeGasUsed : Z
}.

Definition ParseTxIndexerResult (height index : Z) (result : DeliverTx) (tx : option sdk_tx)
    (getter : ParsedTxs → option ParsedTx) : parse_result TxResult :=
  txs ← ParseTxResult result tx;
  match getter txs with
  | None => Err PErrNotFound
  | Some parsedTx =>
      gas ← AccumulativeGasUsed (Z.to_nat (pt_MsgIndex parsedTx)) txs;
      Ok (mkTxResult height index (pt_MsgIndex parsedTx) (pt_EthTxIndex parsedTx) (pt_Failed parsedTx)
            (pt_GasUsed parsedTx) gas)
  end.

(** ** Publishing *)

(** What the execution of an Ethereum message leaves in its events. *)
Record executed := mkExecuted {
  x_hash : Hash;
  x_amount : string;
  x_gasUsed : Z;
  x_txHash : option string;
  x_recipient : option Address;
  x_vmError : string
}.

(** [EmitTxHashEvent] of the ante handler. *)
Definition ante_event (blockTxIndex : Z) (msgIndex : nat) (x : executed) : abci_event :=
  mkEvent EventTypeEthereumTx
    [(AttributeKeyEthereumTxHash, Hash_Hex (x_hash x));
     (AttributeKeyTxIndex, FormatUint (u64 (blockTxIndex + Z.of_nat msgIndex)))].

(** The event of [EthereumTx] of the message server. *)
Definition executed_event (txIndex : Z) (x : executed) : abci_event :=
  mkEvent EventTypeEthereumTx
    ([(AttributeKeyAmount, x_amount x);
      (AttributeKeyEthereumTxHash, Hash_Hex (x_hash x));
      (AttributeKeyTxIndex, FormatUint txIndex);
      (AttributeKeyTxGasUsed, FormatUint (x_gasUsed x))] ++
     match x_txHash x with Some h => [(AttributeKeyTxHash, h)] | None => [] end ++
     match x_recipient x with Some a => [(AttributeKeyRecipient, Address_Hex a)] | None => [] end ++
     (if bool_decide (x_vmError x = EmptyString) then [] else [(AttributeKeyEthereumTxFailed, x_vmError x)])).
End Parse.

(** ** Round trip *)

Section Roundtrip.
Context `{GE : Geth} `{GL : !GethLaws}.
Variable base : Z.

Definition is_eth_event (event : abci_event) : Prop := ev_Type event = EventTypeEthereumTx.

(** The transaction that is to be parsed for the [i]-th message. *)
Definition expected (i : nat) (x : executed) : ParsedTx :=
  mkParsedTx (Z.of_nat i) (x_hash x) (base + Z.of_nat i) (x_gasUsed x) (negb (bool_decide (x_vmError x = EmptyString))).

Definition announced (i : nat) (x : executed) : ParsedTx :=
  mkParsedTx (Z.of_nat i) (x_hash x) (base + Z.of_nat i) 0 false.

Definition executed_ok (x : executed) : Prop := in_hash (x_hash x) ∧ in_u64 (x_gasUsed x).

(** The events of the messages [xs], the first of which is the [k]-th. *)
Fixpoint numbered {A} (f : nat → executed → A) (k : nat) (xs : list executed) : list A :=
  match xs with [] => [] | x :: xs => f k x :: numbered f (S k) xs end.

Definition ante_events : nat → list executed → list abci_event := numbered (ante_event base).
Definition executed_events : nat → list executed → list abci_event :=
  numbered (λ k, executed_event (base + Z.of_nat k)).

Lemma parse_events_filter format next events p :
  parse_events format next events p = parse_events format next (filter is_eth_event events) p.
Proof.
  revert format next p. induction events as [|e events IH]; intros format next p; [done|].
  cbn [parse_events]. case_bool_decide as He; cbn [negb].
  - rewrite filter_cons_True by done. cbn [parse_events]. rewrite bool_decide_eq_true_2 by done. cbn [negb].
    assert (∀ (m : parse_result ParsedTxs) k1 k2, (∀ q, k1 q = k2 q :> parse_result ParsedTxs) → m ≫= k1 = m ≫= k2)
      as Hbind by (intros [] k1 k2 Hk; [apply Hk|done..]).
    destruct (length (ev_Attributes e) =? 2)%nat; apply Hbind; intros q; apply IH.
  - rewrite filter_cons_False by done. apply IH.
Qed.

Lemma fill_hash tx value :
  fillTxAttribute tx AttributeKeyEthereumTxHash value =
    Ok (mkParsedTx (pt_MsgIndex tx) (HexToHash value) (pt_EthTxIndex tx) (pt_GasUsed tx) (pt_Failed tx)).
Proof. reflexivity. Qed.

Lemma fill_index tx n :
  0 <= n < 2 ^ 31 →
  fillTxAttribute tx AttributeKeyTxIndex (FormatUint n) =
    Ok (mkParsedTx (pt_MsgIndex tx) (pt_Hash tx) n (pt_GasUsed tx) (pt_Failed tx)).
Proof.
  intros Hn. change (fillTxAttribute tx AttributeKeyTxIndex (FormatUint n)) with
    (match ParseUint (FormatUint n) 31 with
     | Some n => Ok (mkParsedTx (pt_MsgIndex tx) (pt_Hash tx) n (pt_GasUsed tx) (pt_Failed tx))
     | None => Err PErrAttribute
     end).
  by rewrite ParseUint_FormatUint by lia.
Qed.

Lemma fill_gas tx n :
  in_u64 n →
  fillTxAttribute tx AttributeKeyTxGasUsed (FormatUint n) =
    Ok (mkParsedTx (pt_MsgIndex tx) (pt_Hash tx) (pt_EthTxIndex tx) n (pt_Failed tx)).
Proof.
  intros Hn. change (fillTxAttribute tx AttributeKeyTxGasUsed (FormatUint n)) with
    (match ParseUint (FormatUint n) 64 with
     | Some n => Ok (mkParsedTx (pt_MsgIndex tx) (pt_Hash tx) (pt_EthTxIndex tx) n (pt_Failed tx))
     | None => Err PErrAttribute
     end).
  by rewrite ParseUint_FormatUint by (unfold in_u64 in Hn; lia).
Qed.

Lemma fill_failed tx value :
  fillTxAttribute tx AttributeKeyEthereumTxFailed value =
    Ok (mkParsedTx (pt_MsgIndex tx) (pt_Hash tx) (pt_EthTxIndex tx) (pt_GasUsed tx)
          (negb (bool_decide (value = EmptyString)))).
Proof. reflexivity. Qed.

Lemma fill_other tx key value :
  key ∈ [AttributeKeyAmount; AttributeKeyTxHash; AttributeKeyRecipient] → fillTxAttribute tx key value = Ok tx.
Proof. intros [->|[->|[->|[]%not_elem_of_nil]%elem_of_cons]%elem_of_cons]%elem_of_cons; reflexivity. Qed.

Lemma fill_announced i k x :
  executed_ok x → 0 <= base → base + Z.of_nat k < 2 ^ 31 →
  fillTxAttributes (NewParsedTx i) (ev_Attributes (ante_event base k x)) =
    Ok (mkParsedTx (Z.of_nat i) (x_hash x) (base + Z.of_nat k) 0 false).
Proof.
  intros [Hh _] Hb Hi. cbn [ev_Attributes ante_event fillTxAttributes].
  rewrite fill_hash, Ok_bind, u64_small by (unfold in_u64; lia).
  rewrite fill_index, Ok_bind by lia. by rewrite HexToHash_Hex.
Qed.

Lemma fill_expected k x :
  executed_ok x → 0 <= base → base + Z.of_nat k < 2 ^ 31 →
  fillTxAttributes (NewParsedTx k) (ev_Attributes (executed_event (base + Z.of_nat k) x)) = Ok (expected k x).
Proof.
  intros [Hh Hg] Hb Hi. cbn [ev_Attributes executed_event app fillTxAttributes].
  rewrite fill_other, Ok_bind, fill_hash, Ok_bind by set_solver. rewrite fill_index, Ok_bind by lia.
  rewrite fill_gas, Ok_bind by done. rewrite HexToHash_Hex by done. unfold expected.
  cbn [pt_MsgIndex pt_Hash pt_EthTxIndex pt_GasUsed pt_Failed NewParsedTx].
  destruct (x_txHash x), (x_recipient x); case_bool_decide as He; cbn [app fillTxAttributes];
    repeat (rewrite fill_other, Ok_bind by set_solver); try done;
    rewrite fill_failed, Ok_bind; by rewrite bool_decide_eq_false_2.
Qed.

Definition in_block (k : nat) (xs : list executed) : Prop :=
  Forall executed_ok xs ∧ 0 <= base ∧ base + Z.of_nat (k + length xs) <= 2 ^ 31.

Lemma in_block_cons k x xs :
  in_block k (x :: xs) → executed_ok x ∧ 0 <= base ∧ base + Z.of_nat k < 2 ^ 31 ∧ in_block (S k) xs.
Proof.
  intros (Hx & Hb & Hl). apply Forall_cons in Hx as [Hx Hxs]. cbn in Hl. split_and!; [done|done|lia|].
  split_and!; [done|done|]. lia.
Qed.

(** The hashes of the announced transactions, with the last index of each. *)
Fixpoint hash_index (k : nat) (xs : list executed) (m : gmap Hash nat) : gmap Hash nat :=
  match xs with [] => m | x :: xs => hash_index (S k) xs (<[x_hash x := k]> m) end.

(** The first part of the events. *)
Lemma parse_announced format next xs k events p :
  in_block k xs → length (pts_Txs p) = k → format ≠ Format1 →
  parse_events format next (ante_events k xs ++ events) p =
    parse_events (match xs with [] => format | _ => Format2 end) next events
      (mkParsedTxs (pts_Txs p ++ numbered announced k xs) (hash_index k xs (pts_TxHashes p))).
Proof.
  revert format k p. induction xs as [|x xs IH]; intros format k p Hin Hk Hf.
  { cbn. rewrite app_nil_r. by destruct p. }
  apply in_block_cons in Hin as (Hx & Hb & Hl & Hin). cbn [ante_events numbered app parse_events].
  rewrite bool_decide_eq_true_2 by done. cbn [negb length ev_Attributes ante_event Nat.ltb Nat.leb Nat.eqb].
  unfold newTx at 1. rewrite Hk. pose proof (fill_announced k k x Hx Hb Hl) as Hfill.
  cbn [ev_Attributes ante_event] in Hfill. rewrite Hfill, !Ok_bind. cbn [pt_Hash].
  assert (match format with FormatUnknown => Format2 | _ => format end = Format2) as -> by by destruct format.
  fold (ante_events (S k) xs). rewrite (IH Format2 (S k)); [|exact Hin|cbn; rewrite length_app; cbn; lia|done].
  cbn [pts_Txs pts_TxHashes hash_index numbered].
  rewrite <-(assoc_L (++)). by destruct xs.
Qed.

(** The second part: every transaction is replaced by what its execution gave. *)
Lemma parse_executed xs k p todo :
  in_block k xs → length (pts_Txs p) = (k + length xs)%nat →
  drop k (pts_Txs p) = numbered announced k xs →
  todo = take k (pts_Txs p) →
  parse_events Format2 k (executed_events k xs) p =
    Ok (mkParsedTxs (todo ++ numbered expected k xs) (pts_TxHashes p)).
Proof.
  revert k p todo. induction xs as [|x xs IH]; intros k p todo Hin Hl Hd ->.
  { cbn in *. rewrite app_nil_r, take_ge by lia. by destruct p. }
  apply in_block_cons in Hin as (Hx & Hb & Hk & Hin). cbn [executed_events numbered parse_events].
  rewrite bool_decide_eq_true_2 by done. cbn [negb]. pose proof (fill_expected k x Hx Hb Hk) as Hfill.
  destruct (length (ev_Attributes (executed_event (base + Z.of_nat k) x)) =? 2)%nat eqn:H2.
  { apply Nat.eqb_eq in H2. cbn [ev_Attributes executed_event] in H2. rewrite length_app in H2. cbn in H2. lia. }
  unfold updateTx at 1. rewrite Hfill, Ok_bind.
  assert (pts_Txs p !! k = Some (announced k x)) as Hlook.
  { rewrite <-(Nat.add_0_r k) at 1. rewrite <-lookup_drop, Hd. done. }
  rewrite Hlook. cbn [pt_Hash expected announced]. rewrite bool_decide_eq_true_2 by done. rewrite Ok_bind.
  fold (executed_events (S k) xs). cbn [numbered] in Hd.
  assert (drop (S k) (pts_Txs p) = numbered announced (S k) xs) as Hd'.
  { change (S k) with (1 + k)%nat at 1. rewrite Nat.add_comm, <-drop_drop, Hd. done. }
  rewrite (IH _ _ (take k (pts_Txs p) ++ [expected k x])); [|done| | |]; cbn [pts_Txs pts_TxHashes].
  - f_equal. f_equal. by rewrite <-(assoc_L (++)).
  - rewrite length_insert. cbn in Hl. lia.
  - by rewrite drop_insert_lt by lia.
  - rewrite (take_S_r _ _ (expected k x)); [by rewrite take_insert_ge|].
    by rewrite list_lookup_insert_eq by (apply lookup_lt_Some in Hlook; done).
Qed.

Lemma numbered_length {A} (f : nat → executed → A) k xs : length (numbered f k xs) = length xs.
Proof. revert k. induction xs as [|x xs IH]; intros k; cbn; [done|]. by rewrite IH. Qed.

Lemma numbered_lookup {A} (f : nat → executed → A) k xs i : numbered f k xs !! i = f (k + i)%nat <$> xs !! i.
Proof.
  revert k i. induction xs as [|x xs IH]; intros k [|i]; cbn; [done|done|by rewrite Nat.add_0_r|].
  rewrite IH. by replace (S k + i)%nat with (k + S i)%nat by lia.
Qed.

Lemma hash_index_lookup k xs m h :
  NoDup (x_hash <$> xs) →
  hash_index k xs m !! h =
    match list_find (λ x, x_hash x = h) xs with Some (i, _) => Some (k + i)%nat | None => m !! h end.
Proof.
  revert k m. induction xs as [|x xs IH]; intros k m Hn; cbn [hash_index list_find]; [done|].
  rewrite fmap_cons in Hn. apply NoDup_cons in Hn as [Hx Hn]. rewrite IH by done. case_decide as He.
  - rewrite (proj2 (list_find_None _ _)), Nat.add_0_r; [subst; by rewrite lookup_insert_eq|].
    apply Forall_forall. intros y Hy Heq. apply Hx. rewrite He, <-Heq. by apply list_elem_of_fmap_2.
  - destruct (list_find _ xs) as [[i y]|]; cbn; [f_equal; lia|]. by rewrite lookup_insert_ne.
Qed.

(** Looking the parsed transactions up by message, by index in the block and by hash. *)
Lemma lookups_agree xs p i x :
  pts_Txs p = numbered expected 0 xs → pts_TxHashes p = hash_index 0 xs ∅ → xs !! i = Some x →
  GetTxByMsgIndex (Z.of_nat i) p = Some (expected i x) ∧
  GetTxByTxIndex (base + Z.of_nat i) p = Some (expected i x) ∧
  (NoDup (x_hash <$> xs) → GetTxByHash (x_hash x) p = Some (expected i x)).
Proof.
  intros Htxs Hhashes Hi. pose proof (lookup_lt_Some _ _ _ Hi) as Hlt.
  assert (GetTxByMsgIndex (Z.of_nat i) p = Some (expected i x)) as Hmsg.
  { unfold GetTxByMsgIndex. rewrite Htxs, numbered_length.
    destruct (Z.ltb_spec (Z.of_nat i) 0), (Z.leb_spec (Z.of_nat (length xs)) (Z.of_nat i)); try lia. cbn [orb].
    rewrite Nat2Z.id, numbered_lookup, Hi. done. }
  split_and!; [done| |].
  - unfold GetTxByTxIndex. destruct xs as [|x0 xs]; [done|]. rewrite Htxs. cbn [numbered expected pt_EthTxIndex].
    replace (base + Z.of_nat i - (base + Z.of_nat 0)) with (Z.of_nat i) by lia. done.
  - intros Hn. unfold GetTxByHash. rewrite Hhashes, hash_index_lookup by done.
    destruct (list_find (λ y, x_hash y = x_hash x) xs) as [[j y]|] eqn:Hf.
    + apply list_find_Some in Hf as (Hj & Hy & _). cbn. rewrite Htxs, numbered_lookup, Hj. cbn.
      assert (j = i) as -> by (eapply NoDup_lookup; [exact Hn| |]; by rewrite list_lookup_fmap, ?Hj, ?Hi; cbn; rewrite ?Hy).
      congruence.
    + apply list_find_None in Hf. rewrite Forall_forall in Hf. exfalso.
      by apply (Hf x); [eapply list_elem_of_lookup_2|].
Qed.

(** C29.  The events of a transaction tell what it did: whatever other events surround
    those the ante handler and the message server publish for the Ethereum messages of
    a successful transaction, parsing the result gives back, for every message in
    order, its hash, its index in the block, its gas and whether it failed; and looking
    it up by message, by index or by hash gives the same transaction. *)
Theorem events_roundtrip (xs : list executed) (result : DeliverTx) (tx : option sdk_tx) :
  in_block 0 xs → xs ≠ [] → dt_Code result = 0 →
  filter is_eth_event (dt_Events result) = ante_events 0 xs ++ executed_events 0 xs →
  (∀ x, xs = [x] → dt_GasUsed result = x_gasUsed x) →
  ∃ p, ParseTxResult result tx = Ok p ∧ pts_Txs p = numbered expected 0 xs ∧
    ∀ i x, xs !! i = Some x →
      GetTxByMsgIndex (Z.of_nat i) p = Some (expected i x) ∧
      GetTxByTxIndex (base + Z.of_nat i) p = Some (expected i x) ∧
      (NoDup (x_hash <$> xs) → GetTxByHash (x_hash x) p = Some (expected i x)).
Proof.
  intros Hin Hne Hcode Hev Hgas. exists (mkParsedTxs (numbered expected 0 xs) (hash_index 0 xs ∅)).
  split_and!; [|done|by intros i x Hi; apply (lookups_agree xs)].
  unfold ParseTxResult. rewrite parse_events_filter, Hev, parse_announced by done.
  replace (match xs with [] => FormatUnknown | _ => Format2 end) with Format2 by by destruct xs.
  cbn [app pts_Txs pts_TxHashes].
  rewrite (parse_executed xs 0 _ []); [|done|by cbn; rewrite numbered_length|done|done].
  rewrite Ok_bind. cbn [app pts_Txs pts_TxHashes]. rewrite Hcode.
  assert (match numbered expected 0 xs with [t] => [with_gas (u64 (dt_GasUsed result)) t] | txs => txs end =
    numbered expected 0 xs) as ->.
  { destruct xs as [|x [|y xs]]; [done| |done]. cbn. rewrite (Hgas x) by done.
    destruct Hin as (Hx & _ & _). apply Forall_cons in Hx as [[_ Hu] _]. by rewrite u64_small. }
  by destruct tx.
Qed.

Definition limit_of (m : tx_msg) : Z := match m with EthMsg _ gas _ => gas | OtherMsg => 0 end.
Definition is_eth_msg (m : tx_msg) : Prop := ∃ hash gas tx, m = EthMsg hash gas tx.

Lemma fail_all_limits txs msgs :
  Forall is_eth_msg msgs → length txs = length msgs →
  fail_all txs msgs = Ok (zip_with (λ t m, mkParsedTx (pt_MsgIndex t) (pt_Hash t) (pt_EthTxIndex t) (limit_of m) true) txs msgs).
Proof.
  revert msgs. induction txs as [|t txs IH]; intros msgs Hm Hl; [done|]. destruct msgs as [|m msgs]; [done|].
  apply Forall_cons in Hm as [(hash & gas & tx & ->) Hm]. cbn [fail_all zip_with]. rewrite IH; [done|done|]. cbn in Hl. lia.
Qed.

(** A transaction that exceeds the gas of the block only publishes the first part; its
    messages are reported as failed, with the gas limits they pay for. *)
Lemma exceeded_block_gas xs result tx :
  in_block 0 xs → dt_Code result ≠ 0 → filter is_eth_event (dt_Events result) = ante_events 0 xs →
  Forall is_eth_msg (tx_Msgs tx) → length (tx_Msgs tx) = length xs →
  ∃ p, ParseTxResult result (Some tx) = Ok p ∧
    ∀ i x m, xs !! i = Some x → tx_Msgs tx !! i = Some m →
      pts_Txs p !! i = Some (mkParsedTx (Z.of_nat i) (x_hash x) (base + Z.of_nat i) (limit_of m) true).
Proof.
  intros Hin Hcode Hev Hmsgs Hl. unfold ParseTxResult.
  rewrite parse_events_filter, Hev, <-(app_nil_r (ante_events 0 xs)), parse_announced by done.
  cbn [parse_events]. rewrite Ok_bind. cbn [pts_Txs app pts_TxHashes].
  destruct (Z.eqb_spec (dt_Code result) 0); [done|].
  set (txs := match numbered announced 0 xs with [t] => _ | _ => _ end).
  assert (length txs = length xs) as Htl.
  { unfold txs. rewrite <-(numbered_length announced 0 xs). by destruct (numbered announced 0 xs) as [|? [|]]. }
  rewrite (fail_all_limits txs) by (done || lia). rewrite Ok_bind. eexists. split; [done|].
  intros i x m Hx Hm. cbn [pts_Txs]. rewrite lookup_zip_with, Hm.
  assert (∃ t, txs !! i = Some t ∧ pt_MsgIndex t = Z.of_nat i ∧ pt_Hash t = x_hash x ∧ pt_EthTxIndex t = base + Z.of_nat i)
    as (t & -> & <- & <- & <-); [|done].
  assert (numbered announced 0 xs !! i = Some (announced i x)) as Ha by by rewrite numbered_lookup, Hx.
  unfold txs. destruct (numbered announced 0 xs) as [|t [|t' l]]; [by exists (announced i x)| |by exists (announced i x)].
  destruct i as [|i]; [|done]. injection Ha as ->. by eexists.
Qed.
End Roundtrip.

(** ** A transaction of its own *)

Module EventsToy.
Import GethToy.

(** A successful call and a creation that fails, the fourth and fifth of their block. *)
Definition toy_executed : list executed :=
  [mkExecuted 77 "100" 21000 (Some "AB"%string) (Some 8) EmptyString;
   mkExecuted 78 "0" 53000 (Some "AB"%string) None "out of gas"].

Definition toy_result : DeliverTx :=
  mkDeliverTx 0 EmptyString 74000
    (mkEvent "coin_spent" [] :: ante_events 3 0 toy_executed ++ mkEvent "message" [] :: executed_events 3 0 toy_executed).

Lemma events_roundtrip_witness :
  ∃ p, ParseTxResult toy_result None = Ok p ∧
    GetTxByTxIndex 4 p = Some (mkParsedTx 1 78 4 53000 true) ∧ GetTxByHash 77 p = Some (mkParsedTx 0 77 3 21000 false).
Proof.
  destruct (events_roundtrip 3 toy_executed toy_result None) as (p & Hp & _ & Hall).
  - split; [repeat constructor; vm_compute; congruence|vm_compute; split; congruence].
  - discriminate.
  - reflexivity.
  - vm_compute. reflexivity.
  - discriminate.
  - exists p. split; [exact Hp|]. split.
    + exact (proj1 (proj2 (Hall 1%nat _ eq_refl))).
    + apply (Hall 0%nat _ eq_refl). apply (bool_decide_eq_true_1 _). vm_compute. reflexivity.
Defined.
End EventsToy.
