(* ===== verification/TxResultCodec.v ===== *)
(** * The encoding of an entry of the indexer: [types/indexer.pb.go]

    The message [TxResult] as the generated code writes and reads it, with the
    routines of [Proto]. *)

From S2P Require Import Prelude.
From S2P Require Import Proto.
From S2P Require Import EvmTx.
From S2P Require Import TxEvents.

(** A signed integer is written as the 64 bits of its sign extension. *)
Definition TxResult_fields (m : TxResult) : list (Z * wire) :=
  uint_field 1 (u64 (tr_Height m)) ++ uint_field 2 (tr_TxIndex m) ++ uint_field 3 (tr_MsgIndex m) ++
  uint_field 4 (u64 (tr_EthTxIndex m)) ++ bool_field 5 (tr_Failed m) ++ uint_field 6 (tr_GasUsed m) ++
  uint_field 7 (tr_CumulativeGasUsed m).

Definition TxResult_Marshal (m : TxResult) : list byte := marshal (TxResult_fields m).

Definition TxResult_Size (m : TxResult) : Z := size (TxResult_fields m).

Definition TxResult_handler (fieldNum : Z) : option (field_handler TxResult) :=
  match fieldNum with
  | 1 => Some (OnVarint (λ v m, mkTxResult (i64 v) (tr_TxIndex m) (tr_MsgIndex m) (tr_EthTxIndex m) (tr_Failed m)
                                  (tr_GasUsed m) (tr_CumulativeGasUsed m)))
  | 2 => Some (OnVarint (λ v m, mkTxResult (tr_Height m) (u32_of v) (tr_MsgIndex m) (tr_EthTxIndex m) (tr_Failed m)
                                  (tr_GasUsed m) (tr_CumulativeGasUsed m)))
  | 3 => Some (OnVarint (λ v m, mkTxResult (tr_Height m) (tr_TxIndex m) (u32_of v) (tr_EthTxIndex m) (tr_Failed m)
                                  (tr_GasUsed m) (tr_CumulativeGasUsed m)))
  | 4 => Some (OnVarint (λ v m, mkTxResult (tr_Height m) (tr_TxIndex m) (tr_MsgIndex m) (i32_of v) (tr_Failed m)
                                  (tr_GasUsed m) (tr_CumulativeGasUsed m)))
  | 5 => Some (OnVarint (λ v m, mkTxResult (tr_Height m) (tr_TxIndex m) (tr_MsgIndex m) (tr_EthTxIndex m)
                                  (negb (v =? 0)) (tr_GasUsed m) (tr_CumulativeGasUsed m)))
  | 6 => Some (OnVarint (λ v m, mkTxResult (tr_Height m) (tr_TxIndex m) (tr_MsgIndex m) (tr_EthTxIndex m) (tr_Failed m)
                                  v (tr_CumulativeGasUsed m)))
  | 7 => Some (OnVarint (λ v m, mkTxResult (tr_Height m) (tr_TxIndex m) (tr_MsgIndex m) (tr_EthTxIndex m) (tr_Failed m)
                                  (tr_GasUsed m) v))
  | _ => None
  end.

Definition empty_result : TxResult := mkTxResult 0 0 0 0 false 0 0.

Definition TxResult_Unmarshal (dAtA : list byte) : proto_result TxResult := unmarshal TxResult_handler dAtA empty_result.

(** The fields are within their types. *)
Definition result_ok (m : TxResult) : Prop :=
  in_i64 (tr_Height m) ∧ 0 <= tr_TxIndex m < 2 ^ 32 ∧ 0 <= tr_MsgIndex m < 2 ^ 32 ∧
  - 2 ^ 31 <= tr_EthTxIndex m < 2 ^ 31 ∧ in_u64 (tr_GasUsed m) ∧ in_u64 (tr_CumulativeGasUsed m).

Lemma TxResult_fields_ok m : result_ok m → Forall field_ok (TxResult_fields m).
Proof.
  intros (_ & H2 & H3 & _ & H6 & H7). unfold TxResult_fields. rewrite !Forall_app.
  split_and!; try apply uint_field_ok; try apply bool_field_ok; try lia; try apply u64_range; try done; unfold in_u64; lia.
Qed.

Lemma short_fields m : (sum_list_with (λ f, 20 + payload f) (TxResult_fields m) <= 140)%nat.
Proof.
  assert (∀ n v, (sum_list_with (λ f, 20 + payload f) (uint_field n v) <= 20)%nat) as Hu.
  { intros n v. unfold uint_field. destruct (v =? 0); cbn; lia. }
  assert (∀ n b, (sum_list_with (λ f, 20 + payload f) (bool_field n b) <= 20)%nat) as Hb by (intros n []; cbn; lia).
  unfold TxResult_fields. rewrite !sum_list_with_app.
  repeat match goal with |- context [sum_list_with _ (uint_field ?n ?v)] =>
    pose proof (Hu n v); generalize dependent (sum_list_with (λ f, (20 + payload f)%nat) (uint_field n v)); intros end.
  pose proof (Hb 5 (tr_Failed m)). lia.
Qed.

(** ** The round trip *)

(** What is written is read back, and fills the buffer that was made for it. *)
Lemma TxResult_roundtrip m :
  result_ok m → TxResult_Unmarshal (TxResult_Marshal m) = Ok m ∧ Z.of_nat (length (TxResult_Marshal m)) = TxResult_Size m.
Proof.
  intros Hok. pose proof (TxResult_fields_ok m Hok) as Hf. split; [|by apply marshal_size].
  unfold TxResult_Unmarshal, TxResult_Marshal. rewrite unmarshal_marshal; [|done|].
  - destruct m as [h t i e f g c]. destruct Hok as (Hh & Ht & Hi & He & Hg & Hc). cbn in Hh, Ht, Hi, He, Hg, Hc.
    unfold TxResult_fields, empty_result. cbn [tr_Height tr_TxIndex tr_MsgIndex tr_EthTxIndex tr_Failed tr_GasUsed tr_CumulativeGasUsed].
    assert (∀ z, 0 <= z < 2 ^ 32 → u32_of z = z) as Hu32 by (intros z Hz; by apply Z.mod_small).
    rewrite (apply_then _ _ _ _ (mkTxResult h 0 0 0 false 0 0))
      by (eapply apply_uint; [done|by intros _; cbn; rewrite i64_u64|by intros ->%u64_zero]).
    rewrite (apply_then _ _ _ _ (mkTxResult h t 0 0 false 0 0))
      by (eapply apply_uint; [done|by intros _; cbn; rewrite Hu32|by intros ->]).
    rewrite (apply_then _ _ _ _ (mkTxResult h t i 0 false 0 0))
      by (eapply apply_uint; [done|by intros _; cbn; rewrite Hu32|by intros ->]).
    rewrite (apply_then _ _ _ _ (mkTxResult h t i e false 0 0))
      by (eapply apply_uint; [done|by intros _; cbn; rewrite i32_u64|by intros ->%u64_zero; [|unfold in_i64; lia]]).
    rewrite (apply_then _ _ _ _ (mkTxResult h t i e f 0 0)) by (eapply apply_bool; [done|by intros ->|by intros ->]).
    rewrite (apply_then _ _ _ _ (mkTxResult h t i e f g 0)) by (eapply apply_uint; [done|done|by intros ->]).
    eapply apply_uint; [done|done|by intros ->].
  - pose proof (length_marshal_le (TxResult_fields m)) as Hl. pose proof (short_fields m). lia.
Qed.

(** An entry of a block is not encoded as the empty string. *)
Lemma TxResult_nonempty m : result_ok m → tr_Height m ≠ 0 → TxResult_Marshal m ≠ [].
Proof.
  intros Hok Hne Hm. destruct (TxResult_roundtrip m Hok) as [Hr _]. rewrite Hm in Hr. injection Hr as <-. by apply Hne.
Qed.
