(* ===== verification/Indexer.v ===== *)
(** * The transaction indexer: [indexer/kv_indexer.go], [rpc/backend/blocks.go]

    [IndexBlock] stores where the Ethereum messages of a block are and what they did,
    under their hash and under their index in the block; the JSON-RPC server reads the
    entries back.  The database is a map from byte strings, whose iterators go through
    the keys in byte order; an entry is encoded as in [TxResultCodec].
    The messages of a block as [eth_getBlock] lists them are
    [EthMsgsFromTendermintBlock].  Transactions come decoded, [None] where they do not
    decode.  Errors of the database are not modelled. *)

From stdpp Require Import sorting.
From S2P Require Import Prelude.
From S2P Require Import EvmTx.
From S2P Require Import EvmTxSpec.
From S2P Require Import EthLogs.
From S2P Require Import TxEvents.
From S2P Require Import Proto.
From S2P Require Import TxResultCodec.

(** ** Data *)

Record tm_block := mkBlock {
  b_Height : Z;
  b_Txs : list (option sdk_tx)
}.

Definition database : Type := gmap (list byte) (list byte).
Definition batch : Type := list (list byte * list byte).

Definition batch_write (b : batch) (db : database) : database := foldl (λ db '(k, v), <[k := v]> db) db b.

Inductive index_error := IErrNotFound | IErrDecode | IErrKeyLength.
Abbreviation index_result A := (outcome index_error A).

(** ** Which results count: [rpc/types/utils.go] *)

(** [strings.Contains]. *)
Definition contains (s sub : string) : bool := match String.index 0 sub s with Some _ => true | None => false end.

Definition ExceedBlockGasLimitError : string := "out of gas in location: block gas meter; gasWanted:".
Definition StateDBCommitError : string := "failed to commit stateDB".

Definition TxExceedBlockGasLimit (res : DeliverTx) : bool := contains (dt_Log res) ExceedBlockGasLimitError.
Definition TxStateDBCommitError (res : DeliverTx) : bool := contains (dt_Log res) StateDBCommitError.

Definition TxSucessOrExpectedFailure (res : DeliverTx) : bool :=
  (dt_Code res =? 0) || TxExceedBlockGasLimit res || TxStateDBCommitError res.

(** ** The messages of a block: [rpc/backend/blocks.go] *)

Fixpoint eth_msgs (msgs : list tx_msg) : list tx_msg :=
  match msgs with
  | [] => []
  | EthMsg hash gas tx :: msgs => EthMsg hash gas tx :: eth_msgs msgs
  | OtherMsg :: msgs => eth_msgs msgs
  end.

Fixpoint block_msgs (txs : list (option sdk_tx)) (results : list DeliverTx) : partial (list tx_msg) :=
  match txs with
  | [] => Ok []
  | tx :: txs =>
      match results with
      | [] => Panic
      | result :: results =>
          let here := if TxSucessOrExpectedFailure result
                      then match tx with Some tx => eth_msgs (tx_Msgs tx) | None => [] end
                      else [] in
          (λ l, here ++ l) <$> block_msgs txs results
      end
  end.

Section Indexer.
Context `{GE : Geth}.

(** The hash of each message is set to that of its transaction. *)
Definition rehash (m : tx_msg) : tx_msg :=
  match m with EthMsg _ gas tx => EthMsg (Hash_Hex (tx_Hash tx)) gas tx | OtherMsg => OtherMsg end.

Definition EthMsgsFromTendermintBlock (block : tm_block) (results : list DeliverTx) : partial (list tx_msg) :=
  map rehash <$> block_msgs (b_Txs block) results.

(** ** Keys *)

Definition KeyPrefixTxHash : byte := 1.
Definition KeyPrefixTxIndex : byte := 2.

(** [1 + 8 + 8]. *)
Definition TxIndexKeyLength : nat := 17.

Definition TxHashKey (hash : Hash) : list byte := KeyPrefixTxHash :: Hash_Bytes hash.

Definition TxIndexKey (blockNumber txIndex : Z) : list byte :=
  KeyPrefixTxIndex :: be_bytes 8 (u64 blockNumber) ++ be_bytes 8 (u64 txIndex).

(** ** Indexing *)

Definition i32 (z : Z) : Z := (z + 2 ^ 31) mod 2 ^ 32 - 2 ^ 31.
Definition u32 (z : Z) : Z := z mod 2 ^ 32.

Definition saveTxResult (txHash : Hash) (r : TxResult) (b : batch) : batch :=
  b ++ [(TxHashKey txHash, TxResult_Marshal r); (TxIndexKey (tr_Height r) (tr_EthTxIndex r), Hash_Bytes txHash)].

(** The loop over the messages of one transaction.  A message of another type panics; one
    that the events do not tell of is skipped. *)
Fixpoint index_msgs (height txIndex code : Z) (p : ParsedTxs) (msgs : list tx_msg) (msgIndex : nat)
    (cumulative ethTxIndex : Z) (b : batch) : partial (Z * batch) :=
  match msgs with
  | [] => Ok (ethTxIndex, b)
  | OtherMsg :: _ => Panic
  | EthMsg hash gas _ :: msgs =>
      let outcome_of := if code =? 0 then (λ t, (pt_GasUsed t, pt_Failed t)) <$> GetTxByMsgIndex (Z.of_nat msgIndex) p
                        else Some (gas, true) in
      match outcome_of with
      | None => index_msgs height txIndex code p msgs (S msgIndex) cumulative ethTxIndex b
      | Some (gasUsed, failed) =>
          let cumulative := u64 (cumulative + gasUsed) in
          let r := mkTxResult height (u32 txIndex) (u32 (Z.of_nat msgIndex)) ethTxIndex failed gasUsed cumulative in
          index_msgs height txIndex code p msgs (S msgIndex) cumulative (i32 (ethTxIndex + 1))
            (saveTxResult (HexToHash hash) r b)
      end
  end.

(** The loop over the transactions of the block. *)
Fixpoint index_txs (height txIndex : Z) (txs : list (option sdk_tx)) (results : list DeliverTx)
    (ethTxIndex : Z) (b : batch) : partial batch :=
  match txs with
  | [] => Ok b
  | tx :: txs =>
      match results with
      | [] => Panic
      | result :: results =>
          match tx with
          | Some tx =>
              if TxSucessOrExpectedFailure result && tx_isEth tx then
                match ParseTxResult result (Some tx) with
                | Ok p =>
                    '(ethTxIndex, b) ← index_msgs height txIndex (dt_Code result) p (tx_Msgs tx) 0 0 ethTxIndex b;
                    index_txs height (txIndex + 1) txs results ethTxIndex b
                | Err _ => index_txs height (txIndex + 1) txs results ethTxIndex b
                | Panic => Panic
                end
              else index_txs height (txIndex + 1) txs results ethTxIndex b
          | None => index_txs height (txIndex + 1) txs results ethTxIndex b
          end
      end
  end.

Definition IndexBlock (block : tm_block) (results : list DeliverTx) (db : database) : partial database :=
  b ← index_txs (b_Height block) 0 (b_Txs block) results 0 [];
  Ok (batch_write b db).

(** ** Reading *)

Definition GetByTxHash (hash : Hash) (db : database) : index_result TxResult :=
  match db !! TxHashKey hash with
  | None | Some [] => Err IErrNotFound
  | Some bz => match TxResult_Unmarshal bz with Ok r => Ok r | Err _ => Err IErrDecode | Panic => Panic end
  end.

Definition GetByBlockAndIndex (blockNumber txIndex : Z) (db : database) : index_result TxResult :=
  match db !! TxIndexKey blockNumber txIndex with
  | None | Some [] => Err IErrNotFound
  | Some bz => GetByTxHash (BytesToHash bz) db
  end.

(** The byte order of the keys. *)
Fixpoint bytes_leb (a b : list byte) : bool :=
  match a, b with
  | [], _ => true
  | _ :: _, [] => false
  | x :: a, y :: b => (x <? y) || ((x =? y) && bytes_leb a b)
  end.

(** The keys between the prefix of the index and the next one, in order. *)
Definition index_keys (db : database) : list (list byte) :=
  merge_sort bytes_leb (filter (λ k, head k = Some KeyPrefixTxIndex) (elements (dom db))).

Definition parseBlockNumberFromKey (key : list byte) : index_result Z :=
  if negb (length key =? TxIndexKeyLength)%nat then Err IErrKeyLength
  else Ok (i64 (SetBytes (take 8 (drop 1 key)))).

Definition LoadLastBlock (db : database) : index_result Z :=
  match last (index_keys db) with None => Ok (-1) | Some key => parseBlockNumberFromKey key end.

Definition LoadFirstBlock (db : database) : index_result Z :=
  match head (index_keys db) with None => Ok (-1) | Some key => parseBlockNumberFromKey key end.
End Indexer.

(** ** Keys are apart *)

Lemma be_bytes_inj n a b : 0 <= a < 256 ^ Z.of_nat n → 0 <= b < 256 ^ Z.of_nat n → be_bytes n a = be_bytes n b → a = b.
Proof.
  intros Ha Hb H%(f_equal SetBytes). rewrite !SetBytes_be_bytes, !Z.mod_small in H by done. done.
Qed.

Lemma TxHashKey_inj a b : in_hash a → in_hash b → TxHashKey a = TxHashKey b → a = b.
Proof.
  intros Ha Hb H%(f_equal tail). change (be_bytes 32 a = be_bytes 32 b) in H.
  apply (be_bytes_inj 32); [..|exact H]; change (256 ^ Z.of_nat 32) with (2 ^ 256); done.
Qed.

Lemma TxIndexKey_inj h i h' i' :
  in_u64 h → in_u64 i → in_u64 h' → in_u64 i' → TxIndexKey h i = TxIndexKey h' i' → h = h' ∧ i = i'.
Proof.
  intros Hh Hi Hh' Hi' H%(f_equal tail). unfold TxIndexKey in H. rewrite !u64_small in H by done.
  change (be_bytes 8 h ++ be_bytes 8 i = be_bytes 8 h' ++ be_bytes 8 i') in H.
  apply app_inj_1 in H as [H1 H2]; [|by rewrite !length_be_bytes].
  split; apply (be_bytes_inj 8); try done; change (256 ^ Z.of_nat 8) with (2 ^ 64); done.
Qed.

Lemma keys_disjoint h blockNumber i : TxHashKey h ≠ TxIndexKey blockNumber i.
Proof. done. Qed.

(** Writing a batch whose keys are apart. *)
Lemma batch_write_other b db k : k ∉ b.*1 → batch_write b db !! k = db !! k.
Proof.
  revert db. induction b as [|[k' v] b IH]; intros db Hk; [done|]. cbn. fold (batch_write b (<[k' := v]> db)).
  rewrite fmap_cons, not_elem_of_cons in Hk. destruct Hk as [Hne Hk]. rewrite IH by done. by apply lookup_insert_ne.
Qed.

Lemma batch_write_in b db k v : NoDup b.*1 → (k, v) ∈ b → batch_write b db !! k = Some v.
Proof.
  revert db. induction b as [|[k' v'] b IH]; intros db Hn Hin; [by apply not_elem_of_nil in Hin|].
  rewrite fmap_cons in Hn. apply NoDup_cons in Hn as [Hk' Hn]. cbn. fold (batch_write b (<[k' := v']> db)).
  apply elem_of_cons in Hin as [[= -> ->]|Hin]; [|by apply IH].
  rewrite batch_write_other by done. apply lookup_insert_eq.
Qed.

(** ** What a block leaves in the index *)

Section IndexSpec.
Context `{GE : Geth} `{GL : !GethLaws}.
Variable height : Z.

(** The messages with the place of each: transaction and message. *)
Fixpoint msg_places (txIndex : Z) (msgIndex : nat) (msgs : list tx_msg) : list (Z * nat * tx_msg) :=
  match msgs with
  | [] => []
  | EthMsg hash gas tx :: msgs => (txIndex, msgIndex, EthMsg hash gas tx) :: msg_places txIndex (S msgIndex) msgs
  | OtherMsg :: msgs => msg_places txIndex (S msgIndex) msgs
  end.

Fixpoint block_places (txIndex : Z) (txs : list (option sdk_tx)) (results : list DeliverTx) : list (Z * nat * tx_msg) :=
  match txs, results with
  | tx :: txs, result :: results =>
      (if TxSucessOrExpectedFailure result then match tx with Some tx => msg_places txIndex 0 (tx_Msgs tx) | None => [] end
       else []) ++ block_places (txIndex + 1) txs results
  | _, _ => []
  end.

(** The entries saved for the places, the first with index [e]. *)
Fixpoint entries_of (e : Z) (places : list (Z * nat * tx_msg)) (rs : list (Hash * TxResult)) : Prop :=
  match places, rs with
  | [], [] => True
  | (txIndex, msgIndex, m) :: places, (h, r) :: rs =>
      (∃ hash gas tx, m = EthMsg hash gas tx ∧ h = HexToHash hash) ∧
      tr_Height r = height ∧ tr_TxIndex r = u32 txIndex ∧ tr_MsgIndex r = u32 (Z.of_nat msgIndex) ∧
      tr_EthTxIndex r = e ∧ entries_of (e + 1) places rs
  | _, _ => False
  end.

Definition save_all (rs : list (Hash * TxResult)) (b : batch) : batch :=
  foldl (λ b '(h, r), saveTxResult h r b) b rs.

Lemma save_all_app rs rs' b : save_all (rs ++ rs') b = save_all rs' (save_all rs b).
Proof. apply foldl_app. Qed.

Lemma entries_of_app e p1 p2 r1 r2 :
  entries_of e p1 r1 → entries_of (e + Z.of_nat (length p1)) p2 r2 → entries_of e (p1 ++ p2) (r1 ++ r2).
Proof.
  revert e r1. induction p1 as [|[[ti mi] m] p1 IH]; intros e [|[h r] r1]; cbn [entries_of app]; [|done|done|].
  { intros _. by rewrite Z.add_0_r. }
  intros (H1 & H2 & H3 & H4 & H5 & H6) H7. split_and!; [done..|]. apply IH; [done|].
  cbn in H7. by replace (e + 1 + Z.of_nat (length p1)) with (e + Z.of_nat (S (length p1))) by lia.
Qed.

(** The gas of a message and of a parsed transaction is of its type. *)
Definition gas_typed (m : tx_msg) : Prop := match m with EthMsg _ gas _ => in_u64 gas | OtherMsg => True end.

(** A transaction all of whose messages can be saved. *)
Definition savable (code : Z) (p : ParsedTxs) (k : nat) (msgs : list tx_msg) : Prop :=
  Forall is_eth_msg msgs ∧ (code = 0 → (k + length msgs <= length (pts_Txs p))%nat) ∧
  Forall gas_typed msgs ∧ Forall (λ t, in_u64 (pt_GasUsed t)) (pts_Txs p).

Lemma index_msgs_saves txIndex code p msgs k cumulative e b :
  savable code p k msgs → in_i64 height → 0 <= e → e + Z.of_nat (length msgs) < 2 ^ 31 →
  ∃ rs, index_msgs height txIndex code p msgs k cumulative e b =
      Ok (e + Z.of_nat (length msgs), save_all rs b) ∧
    entries_of e (msg_places txIndex k msgs) rs ∧ Forall (λ hr, result_ok hr.2) rs.
Proof.
  revert k cumulative e b. induction msgs as [|m msgs IH]; intros k cumulative e b (Hm & Hp & Hg & Hpg) Hheight He Hl.
  { exists []. cbn. by rewrite Z.add_0_r. }
  apply Forall_cons in Hm as [(hash & gas & tx & ->) Hm]. apply Forall_cons in Hg as [Hgas Hg]. cbn [length] in Hl. cbn [index_msgs msg_places length].
  set (outcome_of := if code =? 0 then _ else _).
  assert (∃ g f, outcome_of = Some (g, f) ∧ in_u64 g) as (g & f & -> & Hgu).
  { unfold outcome_of. destruct (Z.eqb_spec code 0) as [Hc|]; [|by exists gas, true].
    specialize (Hp Hc). cbn [length] in Hp. unfold GetTxByMsgIndex.
    destruct (Z.ltb_spec (Z.of_nat k) 0), (Z.leb_spec (Z.of_nat (length (pts_Txs p))) (Z.of_nat k)); try lia.
    cbn [orb]. rewrite Nat2Z.id. destruct (lookup_lt_is_Some_2 (pts_Txs p) k) as [t Ht]; [lia|].
    rewrite Ht. cbn. rewrite Forall_lookup in Hpg. eexists _, _. split; [done|]. by apply (Hpg k). }
  set (r := mkTxResult _ _ _ _ _ _ _).
  replace (i32 (e + 1)) with (e + 1) by (unfold i32; rewrite Z.mod_small; lia).
  destruct (IH (S k) (u64 (cumulative + g)) (e + 1) (saveTxResult (HexToHash hash) r b)) as (rs & Hrs & Hents & Hok).
  { split_and!; [done| |done|done]. intros Hc. specialize (Hp Hc). cbn in Hp. lia. }
  { done. }
  { lia. }
  { lia. }
  assert (result_ok r) as Hr.
  { unfold result_ok, r, u32. cbn. pose proof (u64_range (cumulative + g)). split_and!; try done; try apply Z.mod_pos_bound; lia. }
  exists ((HexToHash hash, r) :: rs). split; [|split; [cbn; split_and!; [by eauto|done..]|by constructor]].
  rewrite Hrs. f_equal. f_equal. lia.
Qed.

(** The transactions of a block that have Ethereum messages are Ethereum transactions,
    and the events of their results tell of every message. *)
Fixpoint indexable (txs : list (option sdk_tx)) (results : list DeliverTx) : Prop :=
  match txs, results with
  | [], _ => True
  | _ :: _, [] => False
  | tx :: txs, result :: results =>
      (∀ t, tx = Some t → TxSucessOrExpectedFailure result = true →
        if tx_isEth t then ∃ p, ParseTxResult result (Some t) = Ok p ∧ savable (dt_Code result) p 0 (tx_Msgs t)
        else eth_msgs (tx_Msgs t) = []) ∧
      indexable txs results
  end.

Lemma msg_places_length txIndex k msgs : length (msg_places txIndex k msgs) = length (eth_msgs msgs).
Proof. revert k. induction msgs as [|[] msgs IH]; intros k; cbn; by rewrite ?IH. Qed.

Lemma msg_places_all txIndex k msgs : Forall is_eth_msg msgs → length (msg_places txIndex k msgs) = length msgs.
Proof.
  intros Hm. revert k. induction Hm as [|m msgs (hash & gas & tx & ->) _ IH]; intros k; cbn; by rewrite ?IH.
Qed.

Lemma index_txs_saves txs results txIndex e b :
  indexable txs results → in_i64 height → 0 <= e →
  e + Z.of_nat (length (block_places txIndex txs results)) < 2 ^ 31 →
  ∃ rs, index_txs height txIndex txs results e b = Ok (save_all rs b) ∧
    entries_of e (block_places txIndex txs results) rs ∧ Forall (λ hr, result_ok hr.2) rs.
Proof.
  revert results txIndex e b. induction txs as [|tx txs IH]; intros results txIndex e b Hin Hheight He Hl.
  { by exists []. }
  destruct results as [|result results]; [done|]. destruct Hin as [Htx Hin]. cbn [index_txs block_places] in *.
  assert (∀ (skip : list (Z * nat * tx_msg)), skip = [] →
    e + Z.of_nat (length (skip ++ block_places (txIndex + 1) txs results)) < 2 ^ 31 →
    ∃ rs, index_txs height (txIndex + 1) txs results e b = Ok (save_all rs b) ∧
      entries_of e (skip ++ block_places (txIndex + 1) txs results) rs ∧ Forall (λ hr, result_ok hr.2) rs) as Hskip by (intros ? ->; by apply IH).
  destruct tx as [t|]; [|apply Hskip; [by destruct (TxSucessOrExpectedFailure result)|done]].
  destruct (TxSucessOrExpectedFailure result) eqn:Hs; cbn [andb]; [|by apply Hskip].
  specialize (Htx t eq_refl eq_refl). destruct (tx_isEth t); [|apply Hskip; [|done]].
  2: { apply nil_length_inv. by rewrite msg_places_length, Htx. }
  destruct Htx as (p & -> & Hsav). rewrite length_app in Hl. pose proof Hsav as [Hm _].
  rewrite (msg_places_all _ _ _ Hm) in Hl.
  destruct (index_msgs_saves txIndex (dt_Code result) p (tx_Msgs t) 0 0 e b Hsav) as (rs1 & -> & H1 & Hok1); [done|lia|lia|].
  rewrite Ok_bind.
  destruct (IH results (txIndex + 1) (e + Z.of_nat (length (tx_Msgs t))) (save_all rs1 b)) as (rs2 & -> & H2 & Hok2);
    [done|done|lia|lia|].
  exists (rs1 ++ rs2). rewrite save_all_app. split; [done|]. split; [|by apply Forall_app]. apply entries_of_app; [done|].
  by rewrite (msg_places_all _ _ _ Hm).
Qed.

(** ** Reading the entries back *)

Definition entry_writes (hr : Hash * TxResult) : batch :=
  [(TxHashKey hr.1, TxResult_Marshal hr.2); (TxIndexKey (tr_Height hr.2) (tr_EthTxIndex hr.2), Hash_Bytes hr.1)].

Lemma save_all_writes rs b : save_all rs b = b ++ mjoin (map entry_writes rs).
Proof.
  revert b. induction rs as [|[h r] rs IH]; intros b; cbn [save_all foldl map mjoin list_join]; [by rewrite app_nil_r|].
  change (foldl _ (saveTxResult h r b) rs) with (save_all rs (saveTxResult h r b)). rewrite IH.
  unfold saveTxResult. by rewrite <-(assoc_L (++)).
Qed.

Lemma entries_of_lookup e places rs i h r :
  entries_of e places rs → rs !! i = Some (h, r) → tr_Height r = height ∧ tr_EthTxIndex r = e + Z.of_nat i.
Proof.
  revert e places i. induction rs as [|[h' r'] rs IH]; intros e [|[[ti mi] m] places] i; cbn [entries_of]; try done.
  intros (_ & Hh & _ & _ & He & Hents) Hi. destruct i as [|i].
  - injection Hi as <- <-. by rewrite He, Z.add_0_r.
  - destruct (IH _ _ i Hents Hi) as [H1 H2]. split; [done|]. lia.
Qed.

(** The keys of the entries are apart. *)
Lemma entry_keys_nodup e places rs :
  entries_of e places rs → in_u64 height → 0 <= e → e + Z.of_nat (length rs) < 2 ^ 31 →
  Forall in_hash rs.*1 → NoDup rs.*1 → NoDup (mjoin (map entry_writes rs)).*1.
Proof.
  revert e places. induction rs as [|[h r] rs IH]; intros e [|[[ti mi] m] places]; cbn [entries_of]; try done.
  { intros. constructor. }
  intros (_ & Hh & _ & _ & He & Hents) Hheight Hpos Hl Hin Hn. cbn [length] in Hl.
  rewrite fmap_cons in Hin, Hn. apply Forall_cons in Hin as [Hinh Hin]. apply NoDup_cons in Hn as [Hnh Hn]. cbn [fst] in *.
  cbn [map mjoin list_join entry_writes app]. rewrite !fmap_cons. cbn [fst snd].
  assert (∀ k, k ∈ (mjoin (map entry_writes rs)).*1 → ∃ i h' r', rs !! i = Some (h', r') ∧
    (k = TxHashKey h' ∨ k = TxIndexKey height (e + 1 + Z.of_nat i))) as Hkeys.
  { intros k ([k' v] & -> & Hk)%list_elem_of_fmap. apply list_elem_of_join in Hk as (ws & Hk & Hws).
    apply list_elem_of_fmap in Hws as ([h' r'] & -> & Hin').
    apply list_elem_of_lookup in Hin' as [i Hi]. destruct (entries_of_lookup _ _ _ _ _ _ Hents Hi) as [Hh' He'].
    exists i, h', r'. split; [done|]. cbn in Hk.
    apply elem_of_cons in Hk as [[= -> ->]|[[= -> ->]|[]%not_elem_of_nil]%elem_of_cons]; [by left|right].
    cbn. by rewrite Hh', He'. }
  apply NoDup_cons. split; [|apply NoDup_cons; split].
  - intros [Hk|Hk]%elem_of_cons; [by apply keys_disjoint in Hk|].
    apply Hkeys in Hk as (i & h' & r' & Hi & [Hk|Hk]); [|by apply keys_disjoint in Hk].
    assert (h' ∈ rs.*1) as Hmem by (apply (list_elem_of_fmap_2 fst rs (h', r')); by eapply list_elem_of_lookup_2).
    apply TxHashKey_inj in Hk as ->; [done|done|]. rewrite Forall_forall in Hin. by apply Hin.
  - intros (i & h' & r' & Hi & [Hk|Hk])%Hkeys; [by symmetry in Hk; apply keys_disjoint in Hk|].
    apply lookup_lt_Some in Hi. rewrite Hh, He in Hk. apply TxIndexKey_inj in Hk as [_ Hk]; [lia|done|..];
      unfold in_u64 in *; lia.
  - eapply IH; try done; lia.
Qed.

Lemma read_entry e places rs i h r db :
  entries_of e places rs → in_u64 height → height ≠ 0 → 0 <= e → e + Z.of_nat (length rs) < 2 ^ 31 →
  Forall in_hash rs.*1 → NoDup rs.*1 → Forall (λ hr, result_ok hr.2) rs → rs !! i = Some (h, r) →
  let db' := batch_write (save_all rs []) db in
  GetByTxHash h db' = Ok r ∧ GetByBlockAndIndex height (e + Z.of_nat i) db' = Ok r.
Proof.
  intros Hents Hheight Hne Hpos Hl Hin Hn Hok Hi db'.
  pose proof (entry_keys_nodup e places rs Hents Hheight Hpos Hl Hin Hn) as Hkeys.
  destruct (entries_of_lookup _ _ _ _ _ _ Hents Hi) as [Hh He].
  assert (∀ w, w ∈ entry_writes (h, r) → db' !! w.1 = Some w.2) as Hw.
  { intros [k v] Hw. unfold db'. rewrite save_all_writes. cbn [app]. apply batch_write_in; [done|].
    apply list_elem_of_join. exists (entry_writes (h, r)). split; [done|].
    apply list_elem_of_fmap_2. by eapply list_elem_of_lookup_2. }
  assert (in_hash h) as Hhash.
  { rewrite Forall_forall in Hin. apply Hin. apply (list_elem_of_fmap_2 fst rs (h, r)). by eapply list_elem_of_lookup_2. }
  assert (GetByTxHash h db' = Ok r) as Hget.
  { pose proof (Hw (TxHashKey h, TxResult_Marshal r) ltac:(left)) as Hkey. cbn [fst snd] in Hkey.
    unfold GetByTxHash. rewrite Hkey.
    rewrite Forall_lookup in Hok. pose proof (Hok i (h, r) Hi) as Hr.
    destruct (TxResult_roundtrip r Hr) as [-> _]. pose proof (TxResult_nonempty r Hr) as Hm.
    destruct (TxResult_Marshal r); [|done]. exfalso. apply Hm; [congruence|done]. }
  split; [done|]. unfold GetByBlockAndIndex.
  pose proof (Hw (TxIndexKey (tr_Height r) (tr_EthTxIndex r), Hash_Bytes h) ltac:(right; left)) as Hidx.
  cbn [fst snd] in Hidx. rewrite Hh, He in Hidx. rewrite Hidx.
  rewrite BytesToHash_Bytes by done. destruct (Hash_Bytes h) as [|x l] eqn:Hb; [|done].
  apply (f_equal length) in Hb. unfold Hash_Bytes in Hb. by rewrite length_be_bytes in Hb.
Qed.

(** ** Places and messages *)

Lemma msg_places_msgs txIndex k msgs : (msg_places txIndex k msgs).*2 = eth_msgs msgs.
Proof. revert k. induction msgs as [|[hash gas tx|] msgs IH]; intros k; cbn; [done| |apply IH]. f_equal. apply IH. Qed.

Lemma block_places_msgs txIndex txs results msgs :
  block_msgs txs results = Ok msgs → (block_places txIndex txs results).*2 = msgs.
Proof.
  revert txIndex results msgs. induction txs as [|tx txs IH]; intros txIndex results msgs; cbn [block_msgs].
  { intros [= <-]. by destruct results. }
  destruct results as [|result results]; [done|]. destruct (block_msgs txs results) as [l| |] eqn:Hl; [|done..].
  intros [= <-]. cbn [block_places]. rewrite fmap_app, (IH _ _ l) by done. f_equal.
  destruct (TxSucessOrExpectedFailure result), tx as [t|]; try done. apply msg_places_msgs.
Qed.

Lemma msg_places_in txIndex k msgs ti mi m :
  (ti, mi, m) ∈ msg_places txIndex k msgs → ti = txIndex ∧ (k <= mi)%nat ∧ msgs !! (mi - k)%nat = Some m.
Proof.
  revert k. induction msgs as [|m' msgs IH]; intros k; cbn [msg_places]; [by intros ?%not_elem_of_nil|].
  assert ((ti, mi, m) ∈ msg_places txIndex (S k) msgs →
    ti = txIndex ∧ (k <= mi)%nat ∧ (m' :: msgs) !! (mi - k)%nat = Some m) as Hrest.
  { intros (-> & Hle & Hlook)%IH. split_and!; [done|lia|]. by replace (mi - k)%nat with (S (mi - S k)) by lia. }
  destruct m' as [hash gas tx|]; [|done]. intros [[= -> -> ->]|Hin]%elem_of_cons; [|by apply Hrest].
  split_and!; [done|lia|]. by rewrite Nat.sub_diag.
Qed.

Lemma block_places_in txIndex txs results ti mi m :
  (ti, mi, m) ∈ block_places txIndex txs results →
  txIndex <= ti ∧ ∃ t, txs !! Z.to_nat (ti - txIndex) = Some (Some t) ∧ tx_Msgs t !! mi = Some m.
Proof.
  revert txIndex results. induction txs as [|tx txs IH]; intros txIndex results; cbn [block_places];
    [by intros ?%not_elem_of_nil|].
  destruct results as [|result results]; [by intros ?%not_elem_of_nil|]. intros [Hin|Hin]%elem_of_app.
  - destruct (TxSucessOrExpectedFailure result), tx as [t|]; try by apply not_elem_of_nil in Hin.
    apply msg_places_in in Hin as (-> & _ & Hm). rewrite Nat.sub_0_r in Hm. split; [lia|]. exists t.
    by rewrite Z.sub_diag.
  - apply IH in Hin as (Hle & t & Ht & Hm). split; [lia|]. exists t. split; [|done].
    by replace (Z.to_nat (ti - txIndex)) with (S (Z.to_nat (ti - (txIndex + 1)))) by lia.
Qed.

Lemma entries_of_place e places rs i place :
  entries_of e places rs → places !! i = Some place →
  ∃ h r hash gas tx, rs !! i = Some (h, r) ∧ place.2 = EthMsg hash gas tx ∧ h = HexToHash hash ∧
    tr_TxIndex r = u32 place.1.1 ∧ tr_MsgIndex r = u32 (Z.of_nat place.1.2).
Proof.
  revert e rs i. induction places as [|[[ti mi] m] places IH]; intros e [|[h r] rs] i; cbn [entries_of]; try done.
  intros ((hash & gas & tx & -> & ->) & _ & Hti & Hmi & _ & Hents) Hi. destruct i as [|i].
  - injection Hi as <-. by exists (HexToHash hash), r, hash, gas, tx.
  - by apply (IH (e + 1) rs i Hents).
Qed.

Lemma entries_of_hashes e places rs :
  entries_of e places rs →
  rs.*1 = (λ m, HexToHash match m with EthMsg hash _ _ => hash | OtherMsg => EmptyString end) <$> places.*2.
Proof.
  revert e rs. induction places as [|[[ti mi] m] places IH]; intros e [|[h r] rs]; cbn [entries_of]; try done.
  intros ((hash & gas & tx & -> & ->) & _ & _ & _ & _ & Hents). rewrite !fmap_cons. by rewrite (IH _ _ Hents).
Qed.
End IndexSpec.

Definition hash_field_ok `{Geth} (m : tx_msg) : Prop :=
  match m with EthMsg hash _ tx => hash = Hash_Hex (tx_Hash tx) ∧ in_hash (tx_Hash tx) | OtherMsg => False end.

(** The hash field of every Ethereum message is the hash of its transaction, as the
    validation of the message demands. *)
Definition fields_ok `{Geth} (block : tm_block) : Prop :=
  ∀ t hash gas tx, Some t ∈ b_Txs block → EthMsg hash gas tx ∈ tx_Msgs t → hash_field_ok (EthMsg hash gas tx).

Definition msg_hash `{Geth} (m : tx_msg) : Hash := match m with EthMsg _ _ tx => tx_Hash tx | OtherMsg => 0 end.

(** The numbers of transactions and messages fit their fields. *)
Definition sizes_ok (block : tm_block) : Prop :=
  0 < b_Height block < 2 ^ 63 ∧ Z.of_nat (length (b_Txs block)) < 2 ^ 32 ∧
  ∀ t, Some t ∈ b_Txs block → Z.of_nat (length (tx_Msgs t)) < 2 ^ 32.

Section Find.
Context `{GE : Geth} `{GL : !GethLaws}.

Lemma rehash_id msgs : Forall hash_field_ok msgs → map rehash msgs = msgs.
Proof.
  induction 1 as [|m msgs Hm _ IH]; [done|]. cbn. rewrite IH. f_equal.
  destruct m as [hash gas tx|]; [|done]. by destruct Hm as [-> _].
Qed.

(** The list of [eth_getBlock], by places. *)
Lemma listed_messages block results listed :
  EthMsgsFromTendermintBlock block results = Ok listed → fields_ok block →
  (block_places 0 (b_Txs block) results).*2 = listed ∧ Forall hash_field_ok listed.
Proof.
  unfold EthMsgsFromTendermintBlock. destruct (block_msgs (b_Txs block) results) as [msgs| |] eqn:Hm; [|done..].
  intros [= <-] Hok. pose proof (block_places_msgs 0 _ _ _ Hm) as Hp.
  assert (Forall hash_field_ok msgs) as Hf; [|by rewrite rehash_id].
  apply Forall_forall. intros m. rewrite <-Hp. intros ([[ti mi] m'] & -> & Hin)%list_elem_of_fmap.
  destruct m' as [hash gas tx|].
  - apply block_places_in in Hin as (_ & t & Ht & Hmt).
    apply (Hok t); by eapply list_elem_of_lookup_2.
  - exfalso. assert (OtherMsg ∈ msgs) as Ho by (rewrite <-Hp; by apply (list_elem_of_fmap_2 snd _ (ti, mi, OtherMsg))).
    clear -Hm Ho. revert results msgs Hm Ho. induction (b_Txs block) as [|tx txs IH]; intros results msgs; cbn [block_msgs].
    { intros [= <-]. by intros ?%not_elem_of_nil. }
    destruct results as [|result results]; [done|]. destruct (block_msgs txs results) as [l| |] eqn:Hl; [|done..].
    intros [= <-] [Hin|Hin]%elem_of_app; [|by eapply IH].
    destruct (TxSucessOrExpectedFailure result), tx as [t|]; try by apply not_elem_of_nil in Hin.
    clear -Hin. induction (tx_Msgs t) as [|[|] ms IH]; cbn in Hin; [by apply not_elem_of_nil in Hin| |by apply IH].
    apply elem_of_cons in Hin as [|Hin]; [done|by apply IH].
Qed.

Lemma entry_hashes height e places rs listed :
  entries_of height e places rs → places.*2 = listed → Forall hash_field_ok listed → rs.*1 = msg_hash <$> listed.
Proof.
  intros Hents <- Hf. rewrite (entries_of_hashes _ _ _ _ Hents). apply list_fmap_ext. intros j x Hj.
  rewrite Forall_lookup in Hf. pose proof (Hf j x Hj) as Hx. destruct x as [hash gas tx|]; [|done].
  destruct Hx as [-> Hh]. cbn. by apply HexToHash_Hex.
Qed.

(** Indexing a block makes each of its Ethereum messages found where the block lists
    it: for the [i]-th message of the list that [eth_getBlock] returns, the entry under
    the height and [i] and the entry under its hash are the same one, it has the index
    [i], and its transaction and message numbers lead to that message in the block. *)
Theorem index_finds_messages (block : tm_block) (results : list DeliverTx) (db : database) (listed : list tx_msg) :
  EthMsgsFromTendermintBlock block results = Ok listed →
  indexable (b_Txs block) results → fields_ok block → sizes_ok block →
  NoDup (msg_hash <$> listed) → Z.of_nat (length listed) < 2 ^ 31 →
  ∃ db', IndexBlock block results db = Ok db' ∧
    ∀ i m, listed !! i = Some m → ∃ r t,
      GetByBlockAndIndex (b_Height block) (Z.of_nat i) db' = Ok r ∧ GetByTxHash (msg_hash m) db' = Ok r ∧
      tr_Height r = b_Height block ∧ tr_EthTxIndex r = Z.of_nat i ∧ 0 <= tr_TxIndex r ∧ 0 <= tr_MsgIndex r ∧
      b_Txs block !! Z.to_nat (tr_TxIndex r) = Some (Some t) ∧ tx_Msgs t !! Z.to_nat (tr_MsgIndex r) = Some m.
Proof.
  intros Hlisted Hix Hfok (Hheight & Htxs & Hms) Hnd Hn.
  destruct (listed_messages block results listed Hlisted Hfok) as [Hplaces Hfields].
  set (places := block_places 0 (b_Txs block) results) in *.
  assert (length places = length listed) as Hlen by by rewrite <-Hplaces, length_fmap.
  destruct (index_txs_saves (b_Height block) (b_Txs block) results 0 0 [] Hix) as (rs & Hrun & Hents & Hok);
    [unfold in_i64; lia|lia|fold places; lia|].
  fold places in Hents. unfold IndexBlock. rewrite Hrun, Ok_bind. eexists. split; [done|]. intros i m Hi.
  pose proof (entry_hashes _ _ _ _ _ Hents Hplaces Hfields) as Hhashes.
  rewrite <-Hplaces in Hi. apply list_lookup_fmap_Some_1 in Hi as ([[ti mi] m'] & -> & Hi).
  destruct (entries_of_place _ _ _ _ _ _ Hents Hi) as (h & r & hash & gas & tx & Hri & Hm & Hh & Hti & Hmi). cbn [fst snd] in *.
  assert (h = msg_hash m') as ->.
  { assert (rs.*1 !! i = Some h) as H1 by by rewrite list_lookup_fmap, Hri.
    rewrite Hhashes, list_lookup_fmap, <-Hplaces, list_lookup_fmap, Hi in H1. by injection H1. }
  destruct (entries_of_lookup _ _ _ _ _ _ _ Hents Hri) as [Hrh Hre].
  assert (length rs = length listed) as Hrl by (rewrite <-(length_fmap fst rs), Hhashes, length_fmap; done).
  destruct (read_entry (b_Height block) 0 places rs i (msg_hash m') r db) as [Hget1 Hget2];
    [done|unfold in_u64; lia|lia|lia|lia| |by rewrite Hhashes|done|done|].
  { rewrite Hhashes, Forall_fmap. eapply Forall_impl; [exact Hfields|]. intros [? ? tx'|]; cbn; [|done]. by intros [_ ?]. }
  apply list_elem_of_lookup_2, block_places_in in Hi as (Hle & t & Ht & Hmt). rewrite Z.sub_0_r in Ht.
  apply lookup_lt_Some in Ht as Htlt. apply lookup_lt_Some in Hmt as Hmlt.
  pose proof (Hms t (list_elem_of_lookup_2 _ _ _ Ht)) as Hmsz.
  exists r, t. split_and!; [done|done|done|lia| | | |]; rewrite ?Hti, ?Hmi; unfold u32;
    rewrite Z.mod_small, ?Nat2Z.id by lia; (lia || done).
Qed.
End Find.

(** ** The first and the last block *)

#[export] Instance bytes_leb_trans : Transitive bytes_leb.
Proof.
  intros a. induction a as [|x a IH]; intros b c Hab Hbc; [done|].
  destruct b as [|y b], c as [|z c]; cbn in *; try done.
  rewrite !Is_true_true, !orb_true_iff, !andb_true_iff, !Z.ltb_lt, !Z.eqb_eq in *.
  destruct Hab as [Hab|[-> Hab]], Hbc as [Hbc|[-> Hbc]]; [left; lia|left; lia|left; lia|right]. split; [done|].
  apply Is_true_true. apply (IH b); by apply Is_true_true.
Qed.

#[export] Instance bytes_leb_total : Total bytes_leb.
Proof.
  intros a. induction a as [|x a IH]; intros b; [by left|]. destruct b as [|y b]; [by right|]. cbn.
  rewrite !Is_true_true, !orb_true_iff, !andb_true_iff, !Z.ltb_lt, !Z.eqb_eq.
  destruct (Z.lt_trichotomy x y) as [|[->|]]; [by auto| |by auto].
  destruct (IH b) as [H|H]; apply Is_true_true in H; auto.
Qed.

Lemma SetBytes_cons x l : SetBytes (x :: l) = x * 256 ^ Z.of_nat (length l) + SetBytes l.
Proof.
  unfold SetBytes. cbn [foldl]. rewrite Z.mul_0_l, Z.add_0_l.
  assert (∀ acc, foldl (λ acc b, acc * 256 + b) acc l = acc * 256 ^ Z.of_nat (length l) + foldl (λ acc b, acc * 256 + b) 0 l) as H.
  { induction l as [|y l IH]; intros acc; cbn [foldl length]; [cbn; lia|].
    rewrite IH, (IH (0 * 256 + y)), Nat2Z.inj_succ, Z.pow_succ_r by lia. ring. }
  apply H.
Qed.

Lemma SetBytes_bound l : Forall (λ b, 0 <= b < 256) l → 0 <= SetBytes l < 256 ^ Z.of_nat (length l).
Proof.
  induction 1 as [|x l Hx _ IH]; [cbn; lia|]. rewrite SetBytes_cons. cbn [length].
  rewrite Nat2Z.inj_succ, Z.pow_succ_r by lia. nia.
Qed.

(** On strings of one length the byte order is that of the big-endian numbers. *)
Lemma bytes_leb_number a b :
  length a = length b → Forall (λ x, 0 <= x < 256) a → Forall (λ x, 0 <= x < 256) b →
  bytes_leb a b → SetBytes a <= SetBytes b.
Proof.
  revert b. induction a as [|x a IH]; intros [|y b] Hl Ha Hb; cbn [bytes_leb]; try done.
  apply Forall_cons in Ha as [Hx Ha]. apply Forall_cons in Hb as [Hy Hb]. cbn in Hl. rewrite !SetBytes_cons.
  pose proof (SetBytes_bound a Ha) as HA. pose proof (SetBytes_bound b Hb) as HB.
  assert (length a = length b) as Hl' by lia. rewrite <-Hl' in HB |- *.
  rewrite Is_true_true, orb_true_iff, andb_true_iff, Z.ltb_lt, Z.eqb_eq. intros [Hlt|[-> Hle]]; [nia|].
  apply Is_true_true in Hle. specialize (IH b Hl' Ha Hb Hle). lia.
Qed.

(** The blocks that have an entry, and an index with no other entries. *)
Definition indexed (db : database) (h : Z) : Prop := ∃ i, in_u64 i ∧ TxIndexKey h i ∈ dom db.

Definition index_wf (db : database) : Prop :=
  ∀ k, k ∈ dom db → head k = Some KeyPrefixTxIndex → ∃ h i, 0 <= h < 2 ^ 63 ∧ in_u64 i ∧ k = TxIndexKey h i.

Lemma index_keys_in db k : k ∈ index_keys db ↔ head k = Some KeyPrefixTxIndex ∧ k ∈ dom db.
Proof. unfold index_keys. by rewrite merge_sort_Permutation, list_elem_of_filter, elem_of_elements. Qed.

Lemma TxIndexKey_height h i : 0 <= h < 2 ^ 63 → in_u64 i → parseBlockNumberFromKey (TxIndexKey h i) = Ok h.
Proof.
  intros Hh Hi. unfold parseBlockNumberFromKey.
  assert (length (TxIndexKey h i) = TxIndexKeyLength) as ->
    by (unfold TxIndexKey; cbn [length]; by rewrite length_app, !length_be_bytes).
  cbn [negb Nat.eqb TxIndexKeyLength]. unfold TxIndexKey. cbn [drop].
  change (drop 0 ?l) with l. rewrite take_app_length' by by rewrite length_be_bytes.
  rewrite u64_small by (unfold in_u64; lia). rewrite SetBytes_be_bytes. change (256 ^ Z.of_nat 8) with (2 ^ 64). rewrite Z.mod_small by lia.
  by rewrite i64_small by (unfold in_i64; lia).
Qed.

Lemma TxIndexKey_order h i h' i' :
  0 <= h < 2 ^ 63 → in_u64 i → 0 <= h' < 2 ^ 63 → in_u64 i' → bytes_leb (TxIndexKey h i) (TxIndexKey h' i') → h <= h'.
Proof.
  intros Hh Hi Hh' Hi' Hle. apply bytes_leb_number in Hle.
  - revert Hle. unfold TxIndexKey. rewrite !SetBytes_cons. rewrite !length_app, !length_be_bytes.
    assert (∀ a b, in_u64 a → in_u64 b → SetBytes (be_bytes 8 (u64 a) ++ be_bytes 8 (u64 b)) = a * 2 ^ 64 + b) as Hnum.
    { intros a b Ha Hb. rewrite !u64_small by done.
      assert (∀ l1 l2, SetBytes (l1 ++ l2) = SetBytes l1 * 256 ^ Z.of_nat (length l2) + SetBytes l2) as Happ.
      { intros l1 l2. induction l1 as [|x l1 IH]; cbn [app]; [done|].
        rewrite !SetBytes_cons, IH, length_app, Nat2Z.inj_add, Z.pow_add_r by lia. ring. }
      rewrite Happ, !SetBytes_be_bytes, length_be_bytes. change (256 ^ Z.of_nat 8) with (2 ^ 64).
      by rewrite !Z.mod_small. }
    assert (in_u64 h ∧ in_u64 h') as [Hu Hu'] by (unfold in_u64; lia). rewrite !Hnum by done. unfold in_u64 in *. lia.
  - unfold TxIndexKey. cbn [length]. by rewrite !length_app, !length_be_bytes.
  - constructor; [unfold KeyPrefixTxIndex; lia|]. apply Forall_app. split; apply be_bytes_range.
  - constructor; [unfold KeyPrefixTxIndex; lia|]. apply Forall_app. split; apply be_bytes_range.
Qed.

Lemma index_keys_sorted db : StronglySorted bytes_leb (index_keys db).
Proof. apply (StronglySorted_merge_sort bytes_leb); apply _. Qed.

Lemma StronglySorted_last {A} (R : relation A) l x :
  StronglySorted R l → last l = Some x → ∀ y, y ∈ l → y = x ∨ R y x.
Proof.
  induction 1 as [|z l _ IH Hz]; [done|]. intros Hl y [->|Hy]%elem_of_cons.
  - destruct l as [|w l]; [left; by injection Hl|right]. rewrite Forall_forall in Hz. apply Hz.
    by apply last_Some_elem_of.
  - destruct l as [|w l]; [by apply not_elem_of_nil in Hy|]. by apply IH.
Qed.

(** The last indexed block is the highest with an entry, and -1 is returned if there is
    none; likewise the first one. *)
Lemma last_indexed_block db :
  index_wf db →
  (LoadLastBlock db = Ok (-1) ∧ ∀ h, 0 <= h < 2 ^ 63 → ~ indexed db h) ∨
  ∃ n, LoadLastBlock db = Ok n ∧ 0 <= n < 2 ^ 63 ∧ indexed db n ∧ ∀ h, 0 <= h < 2 ^ 63 → indexed db h → h <= n.
Proof.
  intros Hwf. unfold LoadLastBlock. destruct (last (index_keys db)) as [key|] eqn:Hlast.
  - right. assert (key ∈ index_keys db) as [Hhead Hdom]%index_keys_in by by apply last_Some_elem_of.
    destruct (Hwf key Hdom Hhead) as (n & i & Hn & Hi & ->). exists n. rewrite TxIndexKey_height by done.
    split_and!; [done|lia|lia|by exists i|]. intros h Hh (j & Hj & Hin).
    assert (TxIndexKey h j ∈ index_keys db) as Hk by by apply index_keys_in.
    destruct (StronglySorted_last _ _ _ (index_keys_sorted db) Hlast _ Hk) as [Heq|Hle].
    + apply TxIndexKey_inj in Heq as [-> _]; [lia|unfold in_u64; lia|done|unfold in_u64; lia|done].
    + by apply (TxIndexKey_order _ _ _ _ Hh Hj Hn Hi).
  - left. split; [done|]. intros h Hh (i & Hi & Hin). apply last_None in Hlast.
    assert (TxIndexKey h i ∈ index_keys db) as Hk by by apply index_keys_in. rewrite Hlast in Hk.
    by apply not_elem_of_nil in Hk.
Qed.

Lemma first_indexed_block db :
  index_wf db →
  (LoadFirstBlock db = Ok (-1) ∧ ∀ h, 0 <= h < 2 ^ 63 → ~ indexed db h) ∨
  ∃ n, LoadFirstBlock db = Ok n ∧ 0 <= n < 2 ^ 63 ∧ indexed db n ∧ ∀ h, 0 <= h < 2 ^ 63 → indexed db h → n <= h.
Proof.
  intros Hwf. unfold LoadFirstBlock. pose proof (index_keys_sorted db) as Hsort.
  destruct (index_keys db) as [|key keys] eqn:Hkeys; cbn [head].
  - left. split; [done|]. intros h Hh (i & Hi & Hin).
    assert (TxIndexKey h i ∈ index_keys db) as Hk by by apply index_keys_in. rewrite Hkeys in Hk.
    by apply not_elem_of_nil in Hk.
  - right. assert (key ∈ index_keys db) as [Hhead Hdom]%index_keys_in by (rewrite Hkeys; left).
    destruct (Hwf key Hdom Hhead) as (n & i & Hn & Hi & ->). exists n. rewrite TxIndexKey_height by done.
    split_and!; [done|lia|lia|by exists i|]. intros h Hh (j & Hj & Hin).
    assert (TxIndexKey h j ∈ index_keys db) as Hk by by apply index_keys_in. rewrite Hkeys in Hk.
    apply elem_of_cons in Hk as [Heq|Hk].
    + apply TxIndexKey_inj in Heq as [-> _]; [lia|unfold in_u64; lia|done|unfold in_u64; lia|done].
    + inversion Hsort as [|? ? _ Hle]; subst. rewrite Forall_forall in Hle.
      by apply (TxIndexKey_order _ _ _ _ Hn Hi Hh Hj), Hle.
Qed.

(** Indexing keeps the index well-formed. *)
Section Wf.
Context `{GE : Geth}.

Definition batch_wf (height : Z) (b : batch) : Prop :=
  ∀ k, k ∈ b.*1 → head k = Some KeyPrefixTxIndex → ∃ i, in_u64 i ∧ k = TxIndexKey height i.

Lemma saveTxResult_wf height h r b : tr_Height r = height → batch_wf height b → batch_wf height (saveTxResult h r b).
Proof.
  intros Hr Hb k. unfold saveTxResult. rewrite fmap_app, elem_of_app. intros [Hk|Hk] Hhead; [by apply Hb|].
  rewrite !fmap_cons in Hk. apply elem_of_cons in Hk as [->|[->|[]%not_elem_of_nil]%elem_of_cons]; [done|].
  exists (u64 (tr_EthTxIndex r)). split; [apply u64_range|]. cbn [fst]. unfold TxIndexKey. by rewrite Hr, u64_idem.
Qed.

Lemma index_msgs_wf height txIndex code p msgs k cumulative e b e' b' :
  index_msgs height txIndex code p msgs k cumulative e b = Ok (e', b') → batch_wf height b → batch_wf height b'.
Proof.
  revert k cumulative e b. induction msgs as [|[hash gas tx|] msgs IH]; intros k cumulative e b; cbn [index_msgs].
  - by intros [= <- <-].
  - destruct (if code =? 0 then _ else _) as [[g f]|]; [|apply IH]. intros Hrun Hb.
    eapply IH; [exact Hrun|]. by apply saveTxResult_wf.
  - done.
Qed.

Lemma index_txs_wf height txs results txIndex e b b' :
  index_txs height txIndex txs results e b = Ok b' → batch_wf height b → batch_wf height b'.
Proof.
  revert results txIndex e b. induction txs as [|tx txs IH]; intros results txIndex e b; cbn [index_txs].
  { by intros [= <-]. }
  destruct results as [|result results]; [done|]. destruct tx as [t|]; [|apply IH].
  destruct (_ && _); [|apply IH]. destruct (ParseTxResult result (Some t)); [|apply IH|done].
  intros H Hb. apply bind_Ok_inv in H as ([e1 b1] & H1 & H). eapply IH; [exact H|]. by eapply index_msgs_wf.
Qed.

Lemma IndexBlock_wf block results db db' :
  IndexBlock block results db = Ok db' → 0 <= b_Height block < 2 ^ 63 → index_wf db → index_wf db'.
Proof.
  intros H Hh Hwf k Hk Hhead. unfold IndexBlock in H. apply bind_Ok_inv in H as (b & Hb & [= <-]).
  destruct (decide (k ∈ b.*1)) as [Hin|Hout].
  - destruct (index_txs_wf _ _ _ _ _ _ _ Hb) with (k := k) as (i & Hi & ->); [by intros ? ?%not_elem_of_nil|done|done|].
    by exists (b_Height block), i.
  - apply Hwf; [|done]. apply elem_of_dom in Hk as [v Hv]. rewrite batch_write_other in Hv by done.
    by apply elem_of_dom; exists v.
Qed.
End Wf.

(** ** A block of its own *)

Module IndexToy.
Import GethToy EventsToy.

Definition toy_tx (nonce : Z) : eth_tx :=
  EthLegacyTx (mkEthCommon nonce 60000 (Some 8) (Some 100) [] (Some 10911) (Some 1) (Some 1)) (Some 12).

Definition toy_msg (nonce : Z) : tx_msg := EthMsg (Hash_Hex (tx_Hash (toy_tx nonce))) 60000 (toy_tx nonce).

(** A transfer of coins, a transaction of two Ethereum messages, and one that fails. *)
Definition toy_block : tm_block :=
  mkBlock 5 [Some (mkSdkTx false [OtherMsg]); Some (mkSdkTx true [toy_msg 1; toy_msg 2]); None;
             Some (mkSdkTx true [toy_msg 3])].

Definition toy_results : list DeliverTx :=
  [mkDeliverTx 0 EmptyString 500 []; toy_result; mkDeliverTx 5 "failed" 0 [];
   mkDeliverTx 11 "out of gas in location: block gas meter; gasWanted: 60000" 60000 []].

Definition toy_listed : list tx_msg := [toy_msg 1; toy_msg 2; toy_msg 3].

Lemma toy_indexable : indexable (b_Txs toy_block) toy_results.
Proof.
  split; [|split; [|split; [|split; [|exact I]]]]; try (intros t [= <-] Hs; vm_compute in Hs; discriminate Hs).
  - intros t [= <-] _. reflexivity.
  - intros t [= <-] _. eexists. split; [vm_compute; reflexivity|]. split_and!; [repeat constructor; eexists _, _, _; reflexivity| | |].
    + intros _. vm_compute. repeat constructor.
    + repeat (constructor; [split; vm_compute; congruence|]). constructor.
    + repeat (constructor; [split; vm_compute; congruence|]). constructor.
  - intros t [= <-] _. eexists. split; [vm_compute; reflexivity|]. split_and!; [repeat constructor; eexists _, _, _; reflexivity| | |].
    + vm_compute. discriminate.
    + repeat (constructor; [split; vm_compute; congruence|]). constructor.
    + repeat (constructor; [split; vm_compute; congruence|]). constructor.
Qed.

Lemma toy_fields : fields_ok toy_block.
Proof.
  intros t hash gas tx Ht Hm.
  apply elem_of_cons in Ht as [[= ->]|Ht]; [by apply elem_of_cons in Hm as [|?%not_elem_of_nil]|].
  apply elem_of_cons in Ht as [[= ->]|Ht].
  { apply elem_of_cons in Hm as [[= -> -> ->]|Hm]; [split; [reflexivity|vm_compute; split; congruence]|].
    apply elem_of_cons in Hm as [[= -> -> ->]|?%not_elem_of_nil]; [split; [reflexivity|vm_compute; split; congruence]|done]. }
  apply elem_of_cons in Ht as [|Ht]; [done|]. apply elem_of_cons in Ht as [[= ->]|?%not_elem_of_nil]; [|done].
  apply elem_of_cons in Hm as [[= -> -> ->]|?%not_elem_of_nil]; [split; [reflexivity|vm_compute; split; congruence]|done].
Qed.

Lemma toy_sizes : sizes_ok toy_block.
Proof.
  split; [cbn; lia|]. split; [cbn; lia|]. intros t Ht.
  apply elem_of_cons in Ht as [[= ->]|Ht]; [cbn; lia|]. apply elem_of_cons in Ht as [[= ->]|Ht]; [cbn; lia|].
  apply elem_of_cons in Ht as [|Ht]; [done|]. apply elem_of_cons in Ht as [[= ->]|?%not_elem_of_nil]; [cbn; lia|done].
Qed.

Lemma toy_block_listed :
  EthMsgsFromTendermintBlock toy_block toy_results = Ok toy_listed ∧ NoDup (msg_hash <$> toy_listed).
Proof. split; [vm_compute; reflexivity|]. apply (bool_decide_eq_true_1 _). vm_compute. reflexivity. Qed.

(** The third message is found by its index and by its hash. *)
Lemma toy_indexed :
  ∃ db, IndexBlock toy_block toy_results ∅ = Ok db ∧
    ∃ r t, GetByBlockAndIndex 5 2 db = Ok r ∧ GetByTxHash (tx_Hash (toy_tx 3)) db = Ok r ∧
      b_Txs toy_block !! Z.to_nat (tr_TxIndex r) = Some (Some t) ∧ tx_Msgs t !! Z.to_nat (tr_MsgIndex r) = Some (toy_msg 3).
Proof.
  destruct toy_block_listed as [Hl Hnd].
  destruct (index_finds_messages toy_block toy_results ∅ toy_listed) as (db & Hdb & Hall);
    [done|apply toy_indexable|apply toy_fields|apply toy_sizes|done|cbn; lia|].
  exists db. split; [done|]. destruct (Hall 2%nat _ eq_refl) as (r & t & H1 & H2 & _ & _ & _ & _ & H3 & H4).
  exists r, t. split; [exact H1|]. split; [exact H2|]. split; [exact H3|exact H4].
Qed.
End IndexToy.
