(* ===== verification/RpcTypes.v ===== *)
(** * Blocks and transactions as the JSON-RPC server shows them: [rpc/types]

    Block numbers and their tags ([block.go]); Ethereum headers and blocks made from
    those of CometBFT, transactions with their place in a block, and the base fee in
    the events of a block ([utils.go]); the search for a message in a transaction
    ([x/evm/types/utils.go]).  A block comes with its hash and size, and its
    transactions decoded.  Hex numbers and signers are go-ethereum's: [HexUtil] and
    [Signers].  The fields of a block that are the same for every block (uncles, nonce,
    difficulty, extra data) are left out. *)

From S2P Require Import Prelude.
From S2P Require Import Decimal.
From S2P Require Import ChainID.
From S2P Require Import EvmTx.
From S2P Require Import EthLogs.
From S2P Require Import TxEvents.
From S2P Require Import Indexer.

(** ** Block numbers *)

Definition EthPendingBlockNumber : Z := -2.
Definition EthLatestBlockNumber : Z := -1.
Definition EthEarliestBlockNumber : Z := 0.

Definition BlockParamEarliest : string := "earliest".
Definition BlockParamLatest : string := "latest".
Definition BlockParamFinalized : string := "finalized".
Definition BlockParamSafe : string := "safe".
Definition BlockParamPending : string := "pending".

(** [hexutil.DecodeUint64] tells a missing prefix from other errors;
    [cast.ToUint64] gives zero for what is not a number. *)
Inductive hex_error := HexMissingPrefix | HexOther.

Class HexUtil := {
  DecodeUint64 : string → outcome hex_error Z;
  cast_ToUint64 : string → Z;
  Hash_UnmarshalText : string → option Hash
}.

Inductive rpc_error :=
| RErrHex
| RErrTooLarge
| RErrBoth
| RErrNeither
| RErrJson
| RErrNotFound
| RErrQuery
| RErrDecode
| RErrInvalidTx
| RErrNoIndex
| RErrBech32
| RErrBlockCount
| RErrGasLimit
| RErrFuture
| RErrNotSynced
| RErrPruned
| RErrArguments
| RErrNoHeader
| RErrUnderpriced
| RErrLondon
| RErrInputs
| RErrNoData
| RErrEstimate.

Abbreviation rpc_result A := (outcome rpc_error A).

Definition NewBlockNumber (n : Z) : Z :=
  if (- 2 ^ 63 <=? n) && (n <=? MaxInt64) then n else EthLatestBlockNumber.

(** Zero is the earliest block, which has the height one; a negative number, the
    latest or the pending one, is read as zero. *)
Definition bn_Int64 (bn : Z) : Z := if bn <? 0 then 0 else if bn =? 0 then 1 else bn.

Definition TmHeight (bn : Z) : option Z := if bn <? 0 then None else Some (bn_Int64 bn).

(** [ContextWithHeight]: the height a query is made at, [None] for the latest. *)
Definition ContextWithHeight (height : Z) : option Z := if height =? 0 then None else Some height.

(** [input[1:len(input)-1]] when the input is in quotes. *)
Definition unquote (l : list N) : list N :=
  match l with
  | 34%N :: rest =>
      match reverse rest with
      | 34%N :: inner => reverse inner
      | _ => l
      end
  | _ => l
  end.

Definition trimmed (data : string) : string :=
  String.string_of_list_ascii (map Ascii.ascii_of_N
    (unquote (TrimSpace (map Ascii.N_of_ascii (String.list_ascii_of_string data))))).

Section Numbers.
Context `{HU : HexUtil}.

Definition BlockNumber_UnmarshalJSON (data : string) : rpc_result Z :=
  let input := trimmed data in
  if bool_decide (input = BlockParamEarliest) then Ok EthEarliestBlockNumber
  else if bool_decide (input = BlockParamLatest) || bool_decide (input = BlockParamFinalized) ||
          bool_decide (input = BlockParamSafe) then Ok EthLatestBlockNumber
  else if bool_decide (input = BlockParamPending) then Ok EthPendingBlockNumber
  else
    blckNum ← match DecodeUint64 input with
              | Ok n => Ok n
              | Err HexMissingPrefix => Ok (cast_ToUint64 input)
              | Err HexOther => Err RErrHex
              | Panic => Panic
              end;
    if MaxInt64 <? blckNum then Err RErrTooLarge else Ok blckNum.

Record BlockNumberOrHash := mkNumberOrHash {
  bnh_BlockNumber : option Z;
  bnh_BlockHash : option Hash
}.

Definition checkUnmarshal (e : BlockNumberOrHash) : rpc_result BlockNumberOrHash :=
  match bnh_BlockNumber e, bnh_BlockHash e with
  | Some _, Some _ => Err RErrBoth
  | _, _ => Ok e
  end.

Definition SafeInt64 (value : Z) : rpc_result Z :=
  if MaxInt64 <? value then Err RErrTooLarge else Ok value.

Definition decodeFromString (input : string) : rpc_result BlockNumberOrHash :=
  let number n := Ok (mkNumberOrHash (Some n) None) in
  if bool_decide (input = BlockParamEarliest) then number EthEarliestBlockNumber
  else if bool_decide (input = BlockParamLatest) || bool_decide (input = BlockParamFinalized)
  then number EthLatestBlockNumber
  else if bool_decide (input = BlockParamPending) then number EthPendingBlockNumber
  else if (String.length input =? 66)%nat then
    match Hash_UnmarshalText input with
    | None => Err RErrHex
    | Some hash => Ok (mkNumberOrHash None (Some hash))
    end
  else
    blockNumber ← match DecodeUint64 input with
                  | Ok n => Ok n
                  | Err _ => Err RErrHex
                  | Panic => Panic
                  end;
    bnInt ← SafeInt64 blockNumber;
    number bnInt.

(** [data] as the JSON decoder reads it: as an object, or else as a string. *)
Definition BlockNumberOrHash_UnmarshalJSON (object : option BlockNumberOrHash) (text : option string) :
    rpc_result BlockNumberOrHash :=
  match object, text with
  | Some e, _ => checkUnmarshal e
  | None, None => Err RErrJson
  | None, Some input => decodeFromString input
  end.
End Numbers.

(** ** Headers and blocks *)

(** [tmtypes.Header], with its hash. *)
Record tm_header := mkHeader {
  h_Height : Z;
  h_Hash : list byte;
  h_LastBlockID : list byte;
  h_Time : Z;
  h_ProposerAddress : list byte;
  h_AppHash : list byte;
  h_DataHash : list byte
}.

(** [ResultBlock]: the block with its identifier. *)
Record res_block := mkResBlock {
  rb_Header : tm_header;
  rb_Txs : list (option sdk_tx);
  rb_BlockID : list byte;
  rb_Size : Z
}.

Definition rb_block (r : res_block) : tm_block := mkBlock (h_Height (rb_Header r)) (rb_Txs r).

(** [common.BytesToAddress] keeps the last 20 bytes. *)
Definition BytesToAddress (bz : list byte) : Address := SetBytes bz mod 2 ^ 160.

(** [ethtypes.EmptyRootHash]. *)
Definition EmptyRootHash : Hash :=
  0x56e81f171bcc55a6ff8345e692c0f86e5b48e01b996cadc001622fb5e363b421.

Record eth_header := mkEthHeader {
  eh_ParentHash : Hash;
  eh_Coinbase : Address;
  eh_Root : Hash;
  eh_TxHash : Hash;
  eh_ReceiptHash : Hash;
  eh_Bloom : Z;
  eh_Number : Z;
  eh_GasLimit : Z;
  eh_GasUsed : Z;
  eh_Time : Z;
  eh_BaseFee : option Z
}.

Definition EthHeaderFromTendermint (header : tm_header) (bloom : Z) (baseFee : option Z) : eth_header :=
  let txHash := if bool_decide (h_DataHash header = []) then BytesToHash (h_DataHash header) else EmptyRootHash in
  {| eh_ParentHash := BytesToHash (h_LastBlockID header);
     eh_Coinbase := BytesToAddress (h_ProposerAddress header);
     eh_Root := BytesToHash (h_AppHash header);
     eh_TxHash := txHash;
     eh_ReceiptHash := EmptyRootHash;
     eh_Bloom := bloom;
     eh_Number := h_Height header;
     eh_GasLimit := 0;
     eh_GasUsed := 0;
     eh_Time := u64 (h_Time header);
     eh_BaseFee := baseFee |}.

(** The limit of the consensus parameters, [None] when the query fails. *)
Definition defaultGasLimit : Z := 2 ^ 32 - 1.

Definition BlockMaxGasFromConsensusParams (maxGas : option Z) : Z :=
  match maxGas with
  | None => defaultGasLimit
  | Some gasLimit => if gasLimit =? -1 then defaultGasLimit else gasLimit
  end.

(** ** Transactions: [NewRPCTransaction] *)

(** The accessors of [ethtypes.Transaction]; [NewTx] has replaced nil by zero. *)
Definition eth_common_fields (tx : eth_tx) : eth_common :=
  match tx with EthLegacyTx c _ | EthAccessListTx c _ _ _ | EthDynamicFeeTx c _ _ _ _ => c end.

Definition eth_type (tx : eth_tx) : Z :=
  match tx with EthLegacyTx _ _ => 0 | EthAccessListTx _ _ _ _ => 1 | EthDynamicFeeTx _ _ _ _ _ => 2 end.

Definition eth_GasFeeCap (tx : eth_tx) : Z :=
  default 0 match tx with EthLegacyTx _ p | EthAccessListTx _ _ p _ => p | EthDynamicFeeTx _ _ _ cap _ => cap end.

Definition eth_GasTipCap (tx : eth_tx) : Z :=
  default 0 match tx with EthLegacyTx _ p | EthAccessListTx _ _ p _ => p | EthDynamicFeeTx _ _ tip _ _ => tip end.

(** [GasPrice] of a transaction with a fee cap is the cap. *)
Definition eth_GasPrice : eth_tx → Z := eth_GasFeeCap.

Definition eth_AccessList (tx : eth_tx) : option eth_access_list :=
  match tx with EthLegacyTx _ _ => None | EthAccessListTx _ _ _ al | EthDynamicFeeTx _ _ _ _ al => Some al end.

Inductive signer := HomesteadSigner | LatestSignerForChainID (chainID : Z).

Class Signers := {
  tx_Protected : eth_tx → bool;
  tx_ChainId : eth_tx → Z;
  Sender : signer → eth_tx → option Address;
  CreateAddress : Address → Z → Address;
  EffectiveGasTipValue : eth_tx → option Z → Z
}.

Record RPCTransaction := mkRPCTransaction {
  rt_Type : Z;
  rt_From : Address;
  rt_Gas : Z;
  rt_GasPrice : Z;
  rt_GasFeeCap : option Z;
  rt_GasTipCap : option Z;
  rt_Hash : Hash;
  rt_Input : list byte;
  rt_Nonce : Z;
  rt_To : option Address;
  rt_Value : Z;
  rt_V : Z;
  rt_R : Z;
  rt_S : Z;
  rt_Accesses : option eth_access_list;
  rt_ChainID : option Z;
  (** [BlockHash], [BlockNumber] and [TransactionIndex] *)
  rt_Place : option (Hash * Z * Z)
}.

Section Transactions.
Context `{GE : Geth} `{SG : Signers}.

Definition NewRPCTransaction (tx : eth_tx) (blockHash : Hash) (blockNumber index : Z) (baseFee chainID : option Z) :
    RPCTransaction :=
  let signer := if tx_Protected tx then LatestSignerForChainID (tx_ChainId tx) else HomesteadSigner in
  let c := eth_common_fields tx in
  let mined := negb (bool_decide (blockHash = 0)) in
  {| rt_Type := eth_type tx;
     rt_From := default 0 (Sender signer tx);
     rt_Gas := eth_Gas c;
     rt_GasPrice :=
       match tx, baseFee with
       | EthDynamicFeeTx _ _ _ _ _, Some baseFee =>
           if mined then Z.min (eth_GasTipCap tx + baseFee) (eth_GasFeeCap tx) else eth_GasFeeCap tx
       | EthDynamicFeeTx _ _ _ _ _, None => eth_GasFeeCap tx
       | _, _ => eth_GasPrice tx
       end;
     rt_GasFeeCap := match tx with EthDynamicFeeTx _ _ _ _ _ => Some (eth_GasFeeCap tx) | _ => None end;
     rt_GasTipCap := match tx with EthDynamicFeeTx _ _ _ _ _ => Some (eth_GasTipCap tx) | _ => None end;
     rt_Hash := tx_Hash tx;
     rt_Input := eth_Data c;
     rt_Nonce := eth_Nonce c;
     rt_To := eth_To c;
     rt_Value := default 0 (eth_Value c);
     rt_V := default 0 (eth_V c);
     rt_R := default 0 (eth_R c);
     rt_S := default 0 (eth_S c);
     rt_Accesses := eth_AccessList tx;
     rt_ChainID := match tx with EthLegacyTx _ _ => chainID | _ => Some (tx_ChainId tx) end;
     rt_Place := if mined then Some (blockHash, blockNumber, index) else None |}.

(** [msg.AsTransaction], and a place in a block. *)
Definition NewTransactionFromMsg (m : tx_msg) (blockHash : Hash) (blockNumber index : Z) (baseFee chainID : option Z) :
    rpc_result RPCTransaction :=
  match m with
  | EthMsg _ _ tx => Ok (NewRPCTransaction tx blockHash blockNumber index baseFee chainID)
  | OtherMsg => Panic
  end.

(** ** Messages of a transaction *)

(** [RawTxToEthTx]: all messages are Ethereum messages, and get their hash. *)
Fixpoint raw_msgs (msgs : list tx_msg) : rpc_result (list tx_msg) :=
  match msgs with
  | [] => Ok []
  | OtherMsg :: _ => Err RErrInvalidTx
  | m :: msgs => l ← raw_msgs msgs; Ok (rehash m :: l)
  end.

Definition RawTxToEthTx (tx : option sdk_tx) : rpc_result (list tx_msg) :=
  match tx with
  | None => Err RErrJson
  | Some tx => raw_msgs (tx_Msgs tx)
  end.

Fixpoint unwrap_msgs (msgs : list tx_msg) (ethHash : Hash) : rpc_result tx_msg :=
  match msgs with
  | [] => Err RErrNotFound
  | OtherMsg :: _ => Err RErrInvalidTx
  | EthMsg hash gas tx :: msgs =>
      if bool_decide (tx_Hash tx = ethHash) then Ok (rehash (EthMsg hash gas tx)) else unwrap_msgs msgs ethHash
  end.

Definition UnwrapEthereumMsg (tx : option sdk_tx) (ethHash : Hash) : rpc_result tx_msg :=
  match tx with
  | None => Err RErrInvalidTx
  | Some tx => unwrap_msgs (tx_Msgs tx) ethHash
  end.

(** A block as [FormatBlock] gives it: the hashes of its transactions, or the
    transactions. *)
Record rpc_block := mkRpcBlock {
  bk_number : Z;
  bk_hash : list byte;
  bk_parentHash : Hash;
  bk_logsBloom : Z;
  bk_stateRoot : list byte;
  bk_miner : Address;
  bk_size : Z;
  bk_gasLimit : Z;
  bk_gasUsed : Z;
  bk_timestamp : Z;
  bk_transactionsRoot : Hash;
  bk_transactions : list (Hash + RPCTransaction);
  bk_baseFeePerGas : option Z
}.

Definition FormatBlock (header : tm_header) (size gasLimit gasUsed : Z) (transactions : list (Hash + RPCTransaction))
    (bloom : Z) (validatorAddr : Address) (baseFee : option Z) : rpc_block :=
  {| bk_number := u64 (h_Height header);
     bk_hash := h_Hash header;
     bk_parentHash := BytesToHash (h_LastBlockID header);
     bk_logsBloom := bloom;
     bk_stateRoot := h_AppHash header;
     bk_miner := validatorAddr;
     bk_size := u64 size;
     bk_gasLimit := u64 gasLimit;
     bk_gasUsed := gasUsed;
     bk_timestamp := u64 (h_Time header);
     bk_transactionsRoot := if bool_decide (transactions = []) then EmptyRootHash else BytesToHash (h_DataHash header);
     bk_transactions := transactions;
     bk_baseFeePerGas := baseFee |}.
End Transactions.

(** ** Decimal numbers with a sign *)

Definition minus : Ascii.ascii := Ascii.ascii_of_N 45.
Definition plus : Ascii.ascii := Ascii.ascii_of_N 43.

Definition parse_nonempty (l : list Ascii.ascii) : option Z :=
  match l with [] => None | _ => parse_digits 0 l end.

(** [big.Int.SetString(s, 10)], and [strconv.ParseInt(s, 10, 64)]. *)
Definition parse_signed (s : string) : option Z :=
  match String.list_ascii_of_string s with
  | [] => None
  | c :: l =>
      if bool_decide (c = minus) then Z.opp <$> parse_nonempty l
      else if bool_decide (c = plus) then parse_nonempty l
      else parse_digits 0 (c :: l)
  end.

Definition ParseInt64 (s : string) : option Z :=
  n ← parse_signed s; if (- 2 ^ 63 <=? n) && (n <=? MaxInt64) then Some n else None.

(** [big.Int.String]: a number of [n] bits has at most [n] digits. *)
Definition big_String (z : Z) : string :=
  let ds := map digit_char (reverse (digits_rev (S (Z.to_nat (Z.log2 (Z.abs z)))) (Z.abs z))) in
  String.string_of_list_ascii (if z <? 0 then minus :: ds else ds).

(** ** The base fee in events *)

Definition EventTypeFeeMarket : string := "fee_market".
Definition AttributeKeyBaseFee : string := "base_fee".

(** What [BeginBlock] of the fee market emits. *)
Definition base_fee_event (baseFee : Z) : abci_event :=
  mkEvent EventTypeFeeMarket [(AttributeKeyBaseFee, big_String baseFee)].

Fixpoint base_fee_attribute (attrs : list (string * string)) : option (option Z) :=
  match attrs with
  | [] => None
  | (key, value) :: attrs =>
      if bool_decide (key = AttributeKeyBaseFee) then Some (parse_signed value) else base_fee_attribute attrs
  end.

Fixpoint BaseFeeFromEvents (events : list abci_event) : option Z :=
  match events with
  | [] => None
  | event :: events =>
      if bool_decide (ev_Type event = EventTypeFeeMarket) then
        match base_fee_attribute (ev_Attributes event) with
        | Some result => result
        | None => BaseFeeFromEvents events
        end
      else BaseFeeFromEvents events
  end.

Lemma digit_char_not_sign d : 0 <= d < 10 → digit_char d ≠ minus ∧ digit_char d ≠ plus.
Proof.
  intros Hd. split; intros He; pose proof (char_digit_char d Hd) as Hc; rewrite He in Hc; vm_compute in Hc; discriminate Hc.
Qed.

Lemma big_digits z :
  let ds := map digit_char (reverse (digits_rev (S (Z.to_nat (Z.log2 (Z.abs z)))) (Z.abs z))) in
  parse_digits 0 ds = Some (Z.abs z) ∧ ∃ d ds', ds = digit_char d :: ds' ∧ 0 <= d < 10.
Proof.
  intros ds. split.
  - apply parse_digits_rev; [|lia]. split; [lia|]. rewrite Nat2Z.inj_succ, Z2Nat.id by apply Z.log2_nonneg.
    destruct (Z.eq_dec z 0) as [->|]; [vm_compute; reflexivity|]. apply Z.log2_spec. lia.
  - pose proof (digits_rev_range (S (Z.to_nat (Z.log2 (Z.abs z)))) (Z.abs z) ltac:(lia)) as Hr.
    apply Forall_reverse in Hr. unfold ds. destruct (reverse _) as [|d l] eqn:Hl.
    { apply (f_equal length) in Hl. by rewrite length_reverse in Hl. }
    apply Forall_cons in Hr as [Hd _]. by exists d, (map digit_char l).
Qed.

(** Printing an integer and reading it back. *)
Lemma parse_signed_String z : parse_signed (big_String z) = Some z.
Proof.
  destruct (big_digits z) as (Hp & d & ds' & Hds & Hd). destruct (digit_char_not_sign d Hd) as [Hm Hpl].
  unfold parse_signed, big_String. rewrite String.list_ascii_of_string_of_list_ascii. rewrite Hds in *.
  destruct (Z.ltb_spec z 0).
  - rewrite bool_decide_true by done. unfold parse_nonempty. rewrite Hp. cbn. f_equal. lia.
  - rewrite !bool_decide_false by done. rewrite Hp. f_equal. lia.
Qed.

(** The base fee of a block is read back from the event of [BeginBlock]: as an
    integer of any size from the first such event, and within 64 bits by
    [ParseInt]. *)
Lemma base_fee_event_roundtrip baseFee events :
  Forall (λ ev, ev_Type ev ≠ EventTypeFeeMarket) events →
  BaseFeeFromEvents (events ++ [base_fee_event baseFee]) = Some baseFee ∧
  ParseInt64 (big_String baseFee) = if (- 2 ^ 63 <=? baseFee) && (baseFee <=? MaxInt64) then Some baseFee else None.
Proof.
  intros Hall. split; [|by unfold ParseInt64; rewrite parse_signed_String].
  induction Hall as [|ev events Hev _ IH]; cbn [app BaseFeeFromEvents].
  - cbn. by rewrite parse_signed_String.
  - by rewrite bool_decide_false by done.
Qed.
