(* ===== verification/RpcBackend.v ===== *)
(** * Blocks and transactions of the JSON-RPC server: [rpc/backend]

    The functions of [blocks.go] and [tx_info.go] that answer for blocks,
    transactions and receipts, on a node that keeps blocks and their results.  A
    [node] is what the server sees of it: the responses of the CometBFT client and of
    the queries of the modules ([None] where a call fails), the transaction indexer,
    and the configuration.  A pointer that may be nil is an option; reading through
    nil panics, and so does an index out of range.  Log messages are left out. *)

From S2P Require Import Prelude.
From S2P Require Import Decimal.
From S2P Require Import ChainID.
From S2P Require Import EvmTx.
From S2P Require Import EvmParams.
From S2P Require Import EthLogs.
From S2P Require Import TxEvents.
From S2P Require Import Indexer.
From S2P Require Import RpcTypes.

(** ** The node *)

(** A search of CometBFT's transaction indexer, by the hash of an Ethereum
    transaction or by its height and index. *)
Inductive tx_query := QueryHash (hash : Hash) | QueryIndex (height index : Z).

Record result_tx := mkResultTx {
  rx_Height : Z;
  rx_Index : Z;
  rx_Result : DeliverTx;
  rx_Tx : option sdk_tx
}.

Record node := mkNode {
  (** the height headers that come with the response to a query *)
  nd_HeightHeader : option (list string);
  (** [Block] and [BlockByHash]: a response may have no block *)
  nd_Block : Z → option (option res_block);
  nd_BlockByHash : Hash → option (option res_block);
  nd_BlockResults : Z → option block_results;
  nd_TxSearch : tx_query → option (list result_tx);
  nd_UnconfirmedTxs : option (list (option sdk_tx));
  nd_ConsensusMaxGas : Z → option Z;
  (** queries of the EVM module at a height *)
  nd_BaseFee : option Z → option (option Z);
  nd_EvmParams : option Params;
  (** the account of a validator, [Some None] when its address does not parse *)
  nd_ValidatorAccount : list byte → Z → option (option Address);
  nd_indexer : option database;
  (** configuration *)
  nd_ClientChainID : string;
  nd_chainID : Z;
  nd_FixRevertGasRefundHeight : Z
}.

(** [params.ChainConfig.IsEIP155] and [IsLondon]: the fork is set and not later. *)
Definition isForked (fork : option Z) (head : Z) : bool :=
  match fork with None => false | Some s => s <=? head end.

Section Backend.
Context `{GE : Geth} `{LC : LogCodec} `{SG : Signers} (LogsBloom : list eth_log → Z).
Variable n : node.

(** An error that is only logged. *)
Definition tolerate {E A} (d : A) (x : outcome E A) : rpc_result A :=
  match x with Ok a => Ok a | Err _ => Ok d | Panic => Panic end.

Definition total_rpc {A} (x : partial A) : rpc_result A :=
  match x with Ok a => Ok a | Err e => match e with end | Panic => Panic end.

Definition query {A} (e : rpc_error) (x : option A) : rpc_result A :=
  match x with Some a => Ok a | None => Err e end.

(** Reading through a pointer, and an element of a slice. *)
Definition deref_rpc {A} (x : option A) : rpc_result A := match x with Some a => Ok a | None => Panic end.

Definition at_index {A} (l : list A) (i : Z) : rpc_result A :=
  if i <? 0 then Panic else deref_rpc (l !! Z.to_nat i).

(** ** Blocks: [blocks.go] *)

Definition BlockNumber : rpc_result Z :=
  header ← query RErrQuery (nd_HeightHeader n);
  match header with
  | [value] =>
      height ← query RErrHex (ParseUint value 64);
      if MaxInt64 <? height then Err RErrTooLarge else Ok height
  | _ => Err RErrQuery
  end.

Definition TendermintBlockByNumber (blockNum : Z) : rpc_result (option res_block) :=
  let height := bn_Int64 blockNum in
  height ← (if height <=? 0 then BlockNumber else Ok height);
  query RErrQuery (nd_Block n height).

Definition TendermintBlockResultByNumber (height : Z) : rpc_result block_results :=
  query RErrQuery (nd_BlockResults n height).

Definition TendermintBlockByHash (blockHash : Hash) : rpc_result (option res_block) :=
  query RErrQuery (nd_BlockByHash n blockHash).

Definition BlockNumberFromTendermintByHash (blockHash : Hash) : rpc_result Z :=
  resBlock ← TendermintBlockByHash blockHash;
  resBlock ← query RErrNotFound resBlock;
  Ok (h_Height (rb_Header resBlock)).

Definition BlockNumberFromTendermint (blockNrOrHash : BlockNumberOrHash) : rpc_result Z :=
  match bnh_BlockHash blockNrOrHash, bnh_BlockNumber blockNrOrHash with
  | None, None => Err RErrNeither
  | Some hash, _ => blockNumber ← BlockNumberFromTendermintByHash hash; Ok (NewBlockNumber blockNumber)
  | None, Some number => Ok number
  end.

(** [BaseFee] of [chain_info.go]: the answer of the query, or the base fee in the
    last event of the fee market at the beginning of the block. *)
Fixpoint base_fee_fallback (reversed : list abci_event) : option Z :=
  match reversed with
  | [] => None
  | evt :: rest =>
      match ev_Attributes evt with
      | (_, value) :: _ =>
          if bool_decide (ev_Type evt = EventTypeFeeMarket) then ParseInt64 value else base_fee_fallback rest
      | [] => base_fee_fallback rest
      end
  end.

Definition BaseFee (blockRes : block_results) : rpc_result (option Z) :=
  let fallback := base_fee_fallback (reverse (br_BeginBlockEvents blockRes)) in
  match nd_BaseFee n (ContextWithHeight (br_Height blockRes)) with
  | Some (Some baseFee) => Ok (Some baseFee)
  | Some None => Ok fallback
  | None => match fallback with Some baseFee => Ok (Some baseFee) | None => Err RErrQuery end
  end.

Definition header_of (resBlock : res_block) (blockRes : block_results) : rpc_result eth_header :=
  bloom ← tolerate 0 (BlockBloom blockRes);
  baseFee ← tolerate None (BaseFee blockRes);
  Ok (EthHeaderFromTendermint (rb_Header resBlock) bloom baseFee).

Definition HeaderByNumber (blockNum : Z) : rpc_result eth_header :=
  resBlock ← TendermintBlockByNumber blockNum;
  resBlock ← query RErrNotFound resBlock;
  blockRes ← TendermintBlockResultByNumber (h_Height (rb_Header resBlock));
  header_of resBlock blockRes.

Definition HeaderByHash (blockHash : Hash) : rpc_result eth_header :=
  resBlock ← TendermintBlockByHash blockHash;
  resBlock ← query RErrNotFound resBlock;
  blockRes ← TendermintBlockResultByNumber (h_Height (rb_Header resBlock));
  header_of resBlock blockRes.

Definition CurrentHeader : rpc_result eth_header := HeaderByNumber EthLatestBlockNumber.

Definition NoBlockGasLeft : string := "no block gas left to run tx: out of gas".

Definition ShouldIgnoreGasUsed (res : DeliverTx) : bool := (dt_Code res =? 11) && contains (dt_Log res) NoBlockGasLeft.

(** The gas used by the block, up to the first result that hit its limit. *)
Fixpoint gas_of_results (gasUsed : Z) (results : list DeliverTx) : Z :=
  match results with
  | [] => gasUsed
  | r :: results =>
      if ShouldIgnoreGasUsed r then gasUsed else gas_of_results (u64 (gasUsed + u64 (dt_GasUsed r))) results
  end.

(** The transactions of a block, numbered from [txIndex]. *)
Fixpoint rpc_transactions (fullTx : bool) (resBlock : res_block) (baseFee : option Z) (txIndex : Z)
    (msgs : list tx_msg) : list (Hash + RPCTransaction) :=
  match msgs with
  | [] => []
  | OtherMsg :: msgs => rpc_transactions fullTx resBlock baseFee (txIndex + 1) msgs
  | EthMsg hash _ tx :: msgs =>
      (if fullTx then
         inr (NewRPCTransaction tx (BytesToHash (h_Hash (rb_Header resBlock))) (u64 (h_Height (rb_Header resBlock)))
                txIndex baseFee (Some (nd_chainID n)))
       else inl (HexToHash hash)) :: rpc_transactions fullTx resBlock baseFee (txIndex + 1) msgs
  end.

Definition validator_address (header : tm_header) : rpc_result Address :=
  match nd_ValidatorAccount n (h_ProposerAddress header) (h_Height header) with
  | None => Ok 0
  | Some account => query RErrBech32 account
  end.

Definition RPCBlockFromTendermintBlock (resBlock : res_block) (blockRes : block_results) (fullTx : bool) :
    rpc_result rpc_block :=
  let header := rb_Header resBlock in
  baseFee ← tolerate None (BaseFee blockRes);
  msgs ← total_rpc (EthMsgsFromTendermintBlock (rb_block resBlock) (br_TxsResults blockRes));
  let ethRPCTxs := rpc_transactions fullTx resBlock baseFee 0 msgs in
  bloom ← tolerate 0 (BlockBloom blockRes);
  validatorAddr ← validator_address header;
  let gasLimit := BlockMaxGasFromConsensusParams (nd_ConsensusMaxGas n (h_Height header)) in
  let gasUsed := gas_of_results 0 (br_TxsResults blockRes) in
  Ok (FormatBlock header (rb_Size resBlock) gasLimit gasUsed ethRPCTxs bloom validatorAddr baseFee).

(** [None] is the answer null. *)
Definition GetBlockByNumber (blockNum : Z) (fullTx : bool) : rpc_result (option rpc_block) :=
  match TendermintBlockByNumber blockNum with
  | Panic => Panic
  | Err _ | Ok None => Ok None
  | Ok (Some resBlock) =>
      match TendermintBlockResultByNumber (h_Height (rb_Header resBlock)) with
      | Panic => Panic
      | Err _ => Ok None
      | Ok blockRes => Some <$> RPCBlockFromTendermintBlock resBlock blockRes fullTx
      end
  end.

Definition GetBlockByHash (hash : Hash) (fullTx : bool) : rpc_result (option rpc_block) :=
  resBlock ← TendermintBlockByHash hash;
  match resBlock with
  | None => Ok None
  | Some resBlock =>
      match TendermintBlockResultByNumber (h_Height (rb_Header resBlock)) with
      | Panic => Panic
      | Err _ => Ok None
      | Ok blockRes => Some <$> RPCBlockFromTendermintBlock resBlock blockRes fullTx
      end
  end.

Definition GetBlockTransactionCount (block : res_block) : rpc_result (option Z) :=
  match TendermintBlockResultByNumber (h_Height (rb_Header block)) with
  | Panic => Panic
  | Err _ => Ok None
  | Ok blockRes =>
      ethMsgs ← total_rpc (EthMsgsFromTendermintBlock (rb_block block) (br_TxsResults blockRes));
      Ok (Some (Z.of_nat (length ethMsgs)))
  end.

Definition GetBlockTransactionCountByHash (hash : Hash) : rpc_result (option Z) :=
  match nd_BlockByHash n hash with
  | None | Some None => Ok None
  | Some (Some block) => GetBlockTransactionCount block
  end.

(** Without a block the response itself is nil, and [block.Block] panics. *)
Definition GetBlockTransactionCountByNumber (blockNum : Z) : rpc_result (option Z) :=
  match TendermintBlockByNumber blockNum with
  | Panic => Panic
  | Err _ => Ok None
  | Ok block => block ← deref_rpc block; GetBlockTransactionCount block
  end.

(** ** Finding a transaction: [tx_info.go] *)

Definition of_index {A} (x : index_result A) : rpc_result A :=
  match x with Ok a => Ok a | Err _ => Err RErrNotFound | Panic => Panic end.

Definition of_parse {A} (x : parse_result A) : rpc_result A :=
  match x with Ok a => Ok a | Err _ => Err RErrNotFound | Panic => Panic end.

(** The transaction is decoded only when it failed. *)
Definition queryTendermintTxIndexer (q : tx_query) (txGetter : ParsedTxs → option ParsedTx) : rpc_result TxResult :=
  txs ← query RErrQuery (nd_TxSearch n q);
  match txs with
  | [] => Err RErrNotFound
  | txResult :: _ =>
      if negb (TxSucessOrExpectedFailure (rx_Result txResult)) then Err RErrInvalidTx
      else
        tx ← (if dt_Code (rx_Result txResult) =? 0 then Ok None else Some <$> query RErrInvalidTx (rx_Tx txResult));
        of_parse (ParseTxIndexerResult (rx_Height txResult) (rx_Index txResult) (rx_Result txResult) tx txGetter)
  end.

Definition GetTxByEthHash (hash : Hash) : rpc_result TxResult :=
  match nd_indexer n with
  | Some db => of_index (GetByTxHash hash db)
  | None => queryTendermintTxIndexer (QueryHash hash) (GetTxByHash hash)
  end.

Definition GetTxByTxIndex (height index : Z) : rpc_result TxResult :=
  match nd_indexer n with
  | Some db => of_index (GetByBlockAndIndex height (i32 index) db)
  | None => queryTendermintTxIndexer (QueryIndex height index) (TxEvents.GetTxByTxIndex (i64 index))
  end.

(** The Ethereum message at a place; a place outside of the block panics. *)
Definition message_at (block : res_block) (res : TxResult) : rpc_result tx_msg :=
  tx ← at_index (rb_Txs block) (tr_TxIndex res);
  tx ← query RErrDecode tx;
  at_index (tx_Msgs tx) (tr_MsgIndex res).

(** The index of the message with a hash among the messages of a block. *)
Fixpoint find_index (hexTx : string) (i : Z) (msgs : list tx_msg) : option Z :=
  match msgs with
  | [] => None
  | EthMsg hash _ _ :: msgs => if bool_decide (hash = hexTx) then Some i else find_index hexTx (i + 1) msgs
  | OtherMsg :: msgs => find_index hexTx (i + 1) msgs
  end.

Definition PendingTransactions : rpc_result (list sdk_tx) :=
  txs ← query RErrQuery (nd_UnconfirmedTxs n);
  query RErrDecode (mapM id txs).

Fixpoint find_pending (txHash : Hash) (txs : list sdk_tx) : rpc_result (option RPCTransaction) :=
  match txs with
  | [] => Ok None
  | tx :: txs =>
      match UnwrapEthereumMsg (Some tx) txHash with
      | Ok (EthMsg hash gas ethTx) =>
          if bool_decide (hash = Hash_Hex txHash) then
            Some <$> NewTransactionFromMsg (EthMsg hash gas ethTx) 0 0 0 None (Some (nd_chainID n))
          else find_pending txHash txs
      | Ok OtherMsg | Panic => Panic
      | Err _ => find_pending txHash txs
      end
  end.

Definition getTransactionByHashPending (txHash : Hash) : rpc_result (option RPCTransaction) :=
  match PendingTransactions with
  | Ok txs => find_pending txHash txs
  | Err _ => Ok None
  | Panic => Panic
  end.

(** The index in the block, found by the hash when the indexer does not know it;
    [GetTransactionByHash] checks that it fits in 32 bits. *)
Definition eth_index (checked : bool) (block : res_block) (blockRes : block_results) (hash : Hash) (res : TxResult) :
    rpc_result Z :=
  if tr_EthTxIndex res =? -1 then
    msgs ← total_rpc (EthMsgsFromTendermintBlock (rb_block block) (br_TxsResults blockRes));
    match find_index (Hash_Hex hash) 0 msgs with
    | None => Err RErrNoIndex
    | Some i =>
        if checked && (2 ^ 31 <=? i) then Err RErrTooLarge
        else if i32 i =? -1 then Err RErrNoIndex else Ok (i32 i)
    end
  else Ok (tr_EthTxIndex res).

Definition GetTransactionByHash (txHash : Hash) : rpc_result (option RPCTransaction) :=
  match GetTxByEthHash txHash with
  | Panic => Panic
  | Err _ => getTransactionByHashPending txHash
  | Ok res =>
      block ← TendermintBlockByNumber (tr_Height res);
      block ← deref_rpc block;
      msg ← message_at block res;
      match msg with
      | OtherMsg => Err RErrInvalidTx
      | EthMsg _ _ _ =>
          match TendermintBlockResultByNumber (h_Height (rb_Header block)) with
          | Panic => Panic
          | Err _ => Ok None
          | Ok blockRes =>
              index ← eth_index true block blockRes txHash res;
              baseFee ← tolerate None (BaseFee blockRes);
              Some <$> NewTransactionFromMsg msg (BytesToHash (rb_BlockID block)) (u64 (tr_Height res)) (u64 index)
                         baseFee (Some (nd_chainID n))
          end
      end
  end.

Definition GetTransactionByBlockAndIndex (block : res_block) (idx : Z) : rpc_result (option RPCTransaction) :=
  let header := rb_Header block in
  match TendermintBlockResultByNumber (h_Height header) with
  | Panic => Panic
  | Err _ => Ok None
  | Ok blockRes =>
      msg ← match GetTxByTxIndex (h_Height header) idx with
            | Panic => Panic
            | Ok res =>
                match message_at block res with
                | Ok (EthMsg hash gas tx) => Ok (Some (EthMsg hash gas tx))
                | Ok OtherMsg | Err _ => Ok None
                | Panic => Panic
                end
            | Err _ =>
                ethMsgs ← total_rpc (EthMsgsFromTendermintBlock (rb_block block) (br_TxsResults blockRes));
                let i := i64 idx in
                if Z.of_nat (length ethMsgs) <=? i then Ok None else Some <$> at_index ethMsgs i
            end;
      match msg with
      | None => Ok None
      | Some msg =>
          baseFee ← tolerate None (BaseFee blockRes);
          Some <$> NewTransactionFromMsg msg (BytesToHash (h_Hash header)) (u64 (h_Height header)) (u64 idx)
                     baseFee (Some (nd_chainID n))
      end
  end.

Definition GetTransactionByBlockHashAndIndex (hash : Hash) (idx : Z) : rpc_result (option RPCTransaction) :=
  match nd_BlockByHash n hash with
  | None | Some None => Ok None
  | Some (Some block) => GetTransactionByBlockAndIndex block idx
  end.

Definition GetTransactionByBlockNumberAndIndex (blockNum idx : Z) : rpc_result (option RPCTransaction) :=
  match TendermintBlockByNumber blockNum with
  | Panic => Panic
  | Err _ => Ok None
  | Ok block => block ← deref_rpc block; GetTransactionByBlockAndIndex block idx
  end.

(** ** Receipts *)

(** [ChainID] of [chain_info.go]: without the parameters the configuration is nil. *)
Definition ChainConfig_of_node : option eth_config :=
  EthereumConfig (Some (nd_chainID n)) <$> (p_ChainConfig <$> nd_EvmParams n).

Definition rpc_ChainID : rpc_result Z :=
  match ParseChainID (nd_ClientChainID n) with
  | Panic | Err _ => Panic
  | Ok eip155ChainID =>
      match BlockNumber with
      | Panic => Panic
      | Err _ => Ok eip155ChainID
      | Ok bn =>
          config ← deref_rpc ChainConfig_of_node;
          if isForked (g_EIP155Block config) bn then deref_rpc (g_ChainID config) else Err RErrNotSynced
      end
  end.

(** A failed transaction before the height of a fix is shown with its price times its
    gas limit. *)
Definition GetGasUsed (res : TxResult) (price : option Z) (gas : Z) : rpc_result Z :=
  if tr_Failed res && (tr_Height res <? nd_FixRevertGasRefundHeight n) then
    price ← deref_rpc price; Ok (u64 (Z.abs (price * gas)))
  else Ok (tr_GasUsed res).

Record receipt := mkReceipt {
  rc_status : Z;
  rc_cumulativeGasUsed : Z;
  rc_logsBloom : Z;
  rc_logs : list eth_log;
  rc_transactionHash : Hash;
  rc_contractAddress : option Address;
  rc_gasUsed : Z;
  rc_blockHash : Hash;
  rc_blockNumber : Z;
  rc_transactionIndex : Z;
  rc_from : Address;
  rc_to : option Address;
  rc_type : Z;
  rc_effectiveGasPrice : option Z
}.

(** [GetGasPrice] and [EffectiveGasPrice] of the transaction data. *)
Definition data_GasPrice (tx : eth_tx) : option Z :=
  match tx with EthLegacyTx _ p | EthAccessListTx _ _ p _ => p | EthDynamicFeeTx _ _ _ cap _ => cap end.

Definition receipt_price (tx : eth_tx) (blockRes : block_results) : rpc_result (option Z) :=
  match tx with
  | EthLegacyTx _ _ | EthAccessListTx _ _ _ _ => Ok None
  | EthDynamicFeeTx _ _ tip cap _ =>
      match BaseFee blockRes with
      | Panic => Panic
      | Err _ => Ok None
      | Ok baseFee =>
          cap ← deref_rpc cap; tip ← deref_rpc tip; b ← deref_rpc baseFee;
          Ok (Some (effective_price b cap tip))
      end
  end.

(** The gas of the results before, and of the messages of the transaction so far. *)
Definition cumulative_gas_used (results : list DeliverTx) (res : TxResult) : rpc_result Z :=
  if Z.of_nat (length results) <? tr_TxIndex res then Panic
  else Ok (u64 (foldl (λ acc r, u64 (acc + u64 (dt_GasUsed r))) 0 (take (Z.to_nat (tr_TxIndex res)) results)
                + tr_CumulativeGasUsed res)).

Definition receipt_of (hash : Hash) (res : TxResult) (resBlock : res_block) (blockRes : block_results) (ethTx : eth_tx) :
    rpc_result receipt :=
  cumulativeGasUsed ← cumulative_gas_used (br_TxsResults blockRes) res;
  chainID ← rpc_ChainID;
  from ← query RErrInvalidTx (Sender (LatestSignerForChainID chainID) ethTx);
  txResult ← at_index (br_TxsResults blockRes) (tr_TxIndex res);
  logs ← tolerate [] (TxLogsFromEvents (dt_Events txResult) (tr_MsgIndex res));
  index ← eth_index false resBlock blockRes hash res;
  gasUsed ← GetGasUsed res (data_GasPrice ethTx) (eth_Gas (eth_common_fields ethTx));
  effective ← receipt_price ethTx blockRes;
  let c := eth_common_fields ethTx in
  Ok {| rc_status := if tr_Failed res then 0 else 1;
        rc_cumulativeGasUsed := cumulativeGasUsed;
        rc_logsBloom := LogsBloom logs;
        rc_logs := logs;
        rc_transactionHash := hash;
        rc_contractAddress := match eth_To c with None => Some (CreateAddress from (eth_Nonce c)) | Some _ => None end;
        rc_gasUsed := gasUsed;
        rc_blockHash := BytesToHash (h_Hash (rb_Header resBlock));
        rc_blockNumber := u64 (tr_Height res);
        rc_transactionIndex := u64 index;
        rc_from := from;
        rc_to := eth_To c;
        rc_type := eth_type ethTx;
        rc_effectiveGasPrice := effective |}.

Definition GetTransactionReceipt (hash : Hash) : rpc_result (option receipt) :=
  match GetTxByEthHash hash with
  | Panic => Panic
  | Err _ => Ok None
  | Ok res =>
      match TendermintBlockByNumber (tr_Height res) with
      | Panic => Panic
      | Err _ => Ok None
      | Ok resBlock =>
          resBlock ← deref_rpc resBlock;
          msg ← message_at resBlock res;
          match msg with
          | OtherMsg => Panic
          | EthMsg _ _ ethTx =>
              match TendermintBlockResultByNumber (tr_Height res) with
              | Panic => Panic
              | Err _ => Ok None
              | Ok blockRes => Some <$> receipt_of hash res resBlock blockRes ethTx
              end
          end
      end
  end.
End Backend.
