(* ===== verification/RpcBackendSpec.v ===== *)
(** * What the JSON-RPC server promises about blocks and transactions

    The views of a transaction agree: in the block that lists it, by its hash and by
    its index in the block, once the block is indexed.  The price that is shown is the
    one that was charged.  *)

From S2P Require Import Prelude.
From S2P Require Import ChainID.
From S2P Require Import EvmTx.
From S2P Require Import EvmTxSpec.
From S2P Require Import EvmParams.
From S2P Require Import EthLogs.
From S2P Require Import TxEvents.
From S2P Require Import Indexer.
From S2P Require Import RpcTypes.
From S2P Require Import RpcBackend.

Section Views.
Context `{GE : Geth} `{GL : !GethLaws} `{LC : LogCodec} `{SG : Signers}.
Context (LogsBloom : list eth_log → Z).

(** The node has the block and its results, and [db] is the indexer's database.  The
    identifier of a block has the hash of its header; the Bloom filter has the right
    size, and the address of the validator parses. *)
Record serves (n : node) (db : database) (rb : res_block) (res : block_results) : Prop := {
  srv_indexer : nd_indexer n = Some db;
  srv_height : 0 < h_Height (rb_Header rb) < 2 ^ 63;
  srv_block : nd_Block n (h_Height (rb_Header rb)) = Some (Some rb);
  srv_results : nd_BlockResults n (h_Height (rb_Header rb)) = Some res;
  srv_hash : BytesToHash (h_Hash (rb_Header rb)) ≠ 0;
  srv_id : rb_BlockID rb = h_Hash (rb_Header rb);
  srv_by_hash : nd_BlockByHash n (BytesToHash (h_Hash (rb_Header rb))) = Some (Some rb);
  srv_bloom : BlockBloom res ≠ Panic;
  srv_validator : nd_ValidatorAccount n (h_ProposerAddress (rb_Header rb)) (h_Height (rb_Header rb)) ≠ Some None
}.

(** The base fee that is shown for the block: nothing when the query fails. *)
Definition shown_base_fee (n : node) (res : block_results) : option Z :=
  match BaseFee n res with Ok baseFee => baseFee | _ => None end.

Lemma tolerate_base_fee n res : tolerate None (BaseFee n res) = Ok (shown_base_fee n res).
Proof. unfold shown_base_fee, BaseFee. by repeat case_match. Qed.

(** The view of a transaction at a place of the block. *)
Definition view (n : node) (rb : res_block) (res : block_results) (tx : eth_tx) (i : nat) : RPCTransaction :=
  NewRPCTransaction tx (BytesToHash (h_Hash (rb_Header rb))) (h_Height (rb_Header rb)) (Z.of_nat i)
    (shown_base_fee n res) (Some (nd_chainID n)).

Lemma rpc_transactions_lookup n full rb baseFee msgs k i hash gas tx :
  Forall hash_field_ok msgs → msgs !! i = Some (EthMsg hash gas tx) →
  rpc_transactions n full rb baseFee k msgs !! i =
    Some (if full then inr (NewRPCTransaction tx (BytesToHash (h_Hash (rb_Header rb))) (u64 (h_Height (rb_Header rb)))
                              (k + Z.of_nat i) baseFee (Some (nd_chainID n)))
          else inl (tx_Hash tx)).
Proof.
  intros Hf. revert k i. induction Hf as [|m msgs Hm _ IH]; intros k i Hi; [done|].
  destruct m as [hash' gas' tx'|]; [|done]. destruct Hm as [-> Hh]. cbn [rpc_transactions]. rewrite lookup_cons in *. destruct i as [|i].
  - injection Hi as <- <- <-. rewrite HexToHash_Hex by done. by rewrite Z.add_0_r.
  - rewrite (IH (k + 1) i Hi). by replace (k + 1 + Z.of_nat i) with (k + Z.of_nat (S i)) by lia.
Qed.

Lemma rpc_transactions_length n full rb baseFee msgs k :
  Forall hash_field_ok msgs → length (rpc_transactions n full rb baseFee k msgs) = length msgs.
Proof.
  intros Hf. revert k. induction Hf as [|m msgs Hm _ IH]; intros k; [done|].
  destruct m as [hash gas tx|]; [|done]. cbn. by rewrite IH.
Qed.

Section Served.
Context (n : node) (db : database) (rb : res_block) (res : block_results) (Hs : serves n db rb res).

Lemma served_number : TendermintBlockByNumber n (h_Height (rb_Header rb)) = Ok (Some rb).
Proof.
  destruct Hs as [_ Hh Hb _ _ _ _ _ _]. unfold TendermintBlockByNumber, bn_Int64.
  rewrite (proj2 (Z.ltb_ge _ _)), (proj2 (Z.eqb_neq _ _)), (proj2 (Z.leb_gt _ _)) by lia. cbn. by rewrite Hb.
Qed.

Lemma served_results : TendermintBlockResultByNumber n (h_Height (rb_Header rb)) = Ok res.
Proof. unfold TendermintBlockResultByNumber. by rewrite (srv_results _ _ _ _ Hs). Qed.

(** The block as it is listed. *)
Lemma served_block full listed :
  EthMsgsFromTendermintBlock (rb_block rb) (br_TxsResults res) = Ok listed →
  ∃ b, GetBlockByNumber n (h_Height (rb_Header rb)) full = Ok (Some b) ∧
    GetBlockByHash n (BytesToHash (h_Hash (rb_Header rb))) full = Ok (Some b) ∧
    bk_transactions b = rpc_transactions n full rb (shown_base_fee n res) 0 listed.
Proof.
  intros Hl. unfold GetBlockByNumber, GetBlockByHash, TendermintBlockByHash.
  rewrite served_number, (srv_by_hash _ _ _ _ Hs). cbn [query]. rewrite Ok_bind, served_results.
  unfold RPCBlockFromTendermintBlock. rewrite tolerate_base_fee, Ok_bind, Hl. cbn [total_rpc]. rewrite Ok_bind.
  assert (∃ z, tolerate 0 (BlockBloom res) = Ok z) as [z ->].
  { pose proof (srv_bloom _ _ _ _ Hs). destruct (BlockBloom res); [by eexists..|done]. }
  rewrite Ok_bind. unfold validator_address.
  assert (∃ a, match nd_ValidatorAccount n (h_ProposerAddress (rb_Header rb)) (h_Height (rb_Header rb)) with
               | None => Ok 0 | Some account => query RErrBech32 account end = Ok a) as [a ->].
  { pose proof (srv_validator _ _ _ _ Hs). destruct (nd_ValidatorAccount _ _ _) as [[]|]; [by eexists|done|by eexists]. }
  rewrite Ok_bind. by eexists.
Qed.

Lemma message_at_place r t m :
  0 <= tr_TxIndex r → 0 <= tr_MsgIndex r →
  rb_Txs rb !! Z.to_nat (tr_TxIndex r) = Some (Some t) → tx_Msgs t !! Z.to_nat (tr_MsgIndex r) = Some m →
  message_at rb r = Ok m.
Proof.
  intros Ht Hm Hr Hmm. unfold message_at, at_index.
  rewrite (proj2 (Z.ltb_ge (tr_TxIndex r) 0)), Hr by lia. cbn [deref_rpc]. rewrite Ok_bind. cbn [query]. rewrite Ok_bind.
  by rewrite (proj2 (Z.ltb_ge (tr_MsgIndex r) 0)), Hmm by lia.
Qed.

(** The two lookups of an entry of the indexer. *)
Lemma served_entry r i hash gas tx :
  GetByBlockAndIndex (h_Height (rb_Header rb)) (Z.of_nat i) db = Ok r → GetByTxHash (tx_Hash tx) db = Ok r →
  tr_Height r = h_Height (rb_Header rb) → tr_EthTxIndex r = Z.of_nat i → Z.of_nat i < 2 ^ 31 →
  message_at rb r = Ok (EthMsg hash gas tx) →
  GetTransactionByHash n (tx_Hash tx) = Ok (Some (view n rb res tx i)) ∧
  GetTransactionByBlockAndIndex n rb (Z.of_nat i) = Ok (Some (view n rb res tx i)).
Proof.
  intros Hget1 Hget2 Hrh Hri Hi Hm. pose proof (srv_height _ _ _ _ Hs) as Hh.
  assert (u64 (h_Height (rb_Header rb)) = h_Height (rb_Header rb)) as Hu by (apply u64_small; unfold in_u64; lia).
  assert (u64 (Z.of_nat i) = Z.of_nat i) as Hui by (apply u64_small; unfold in_u64; lia). split.
  - unfold GetTransactionByHash, GetTxByEthHash. rewrite (srv_indexer _ _ _ _ Hs), Hget2. cbn [of_index].
    rewrite Hrh, served_number, Ok_bind. cbn [deref_rpc]. rewrite Ok_bind, Hm, Ok_bind, served_results.
    unfold eth_index. rewrite Hri, (proj2 (Z.eqb_neq _ _)), Ok_bind, tolerate_base_fee, Ok_bind by lia.
    by rewrite (srv_id _ _ _ _ Hs), Hu, Hui.
  - unfold GetTransactionByBlockAndIndex, GetTxByTxIndex. rewrite served_results, (srv_indexer _ _ _ _ Hs).
    assert (i32 (Z.of_nat i) = Z.of_nat i) as -> by (unfold i32; rewrite Z.mod_small; lia).
    rewrite Hget1. cbn [of_index]. rewrite Hm, Ok_bind, tolerate_base_fee, Ok_bind. by rewrite Hu, Hui.
Qed.

(** The receipt of an indexed message is for the same place and shows the same price
    as the transaction. *)
Lemma receipt_matches_view r i hash gas tx cid from price :
  GetByTxHash (tx_Hash tx) db = Ok r → tr_Height r = h_Height (rb_Header rb) → tr_EthTxIndex r = Z.of_nat i →
  message_at rb r = Ok (EthMsg hash gas tx) →
  0 <= tr_TxIndex r < Z.of_nat (length (br_TxsResults res)) → Z.of_nat i < 2 ^ 31 →
  h_Height (rb_Header rb) < 2 ^ 63 → nd_FixRevertGasRefundHeight n <= h_Height (rb_Header rb) →
  (∀ events k, TxLogsFromEvents events k ≠ Panic) →
  rpc_ChainID n = Ok cid → Sender (LatestSignerForChainID cid) tx = Some from → receipt_price n tx res = Ok price →
  ∃ rc, GetTransactionReceipt LogsBloom n (tx_Hash tx) = Ok (Some rc) ∧
    rt_Place (view n rb res tx i) = Some (rc_blockHash rc, rc_blockNumber rc, rc_transactionIndex rc) ∧
    rc_transactionHash rc = rt_Hash (view n rb res tx i) ∧ rc_to rc = rt_To (view n rb res tx i) ∧
    rc_type rc = rt_Type (view n rb res tx i) ∧ rc_from rc = from ∧ rc_gasUsed rc = tr_GasUsed r ∧
    (∀ p, rc_effectiveGasPrice rc = Some p → rt_GasPrice (view n rb res tx i) = p).
Proof.
  intros Hget Hrh Hri Hm [Ht0 Ht] Hi Hh Hfix Hlogs Hcid Hfrom Hprice.
  unfold GetTransactionReceipt, GetTxByEthHash. rewrite (srv_indexer _ _ _ _ Hs), Hget. cbn [of_index].
  rewrite Hrh, served_number. cbn [deref_rpc]. rewrite Ok_bind, Hm, Ok_bind, served_results.
  unfold receipt_of, cumulative_gas_used. rewrite (proj2 (Z.ltb_ge _ _)) by lia. rewrite Ok_bind, Hcid, Ok_bind, Hfrom.
  cbn [query]. rewrite Ok_bind. unfold at_index. rewrite (proj2 (Z.ltb_ge _ _)) by lia.
  destruct (lookup_lt_is_Some_2 (br_TxsResults res) (Z.to_nat (tr_TxIndex r))) as [tres ->]; [lia|].
  cbn [deref_rpc]. rewrite Ok_bind.
  assert (∃ logs, tolerate [] (TxLogsFromEvents (dt_Events tres) (tr_MsgIndex r)) = Ok logs) as [logs ->].
  { pose proof (Hlogs (dt_Events tres) (tr_MsgIndex r)). destruct (TxLogsFromEvents _ _); [by eexists..|done]. }
  rewrite Ok_bind. unfold eth_index. rewrite Hri, (proj2 (Z.eqb_neq _ _)), Ok_bind by lia.
  unfold GetGasUsed. rewrite Hrh, (proj2 (Z.ltb_ge (h_Height _) _)), andb_false_r, Ok_bind by lia.
  rewrite Hprice, Ok_bind. eexists. split; [done|]. cbn.
  rewrite bool_decide_false by apply (srv_hash _ _ _ _ Hs). pose proof (srv_height _ _ _ _ Hs).
  rewrite !u64_small by (unfold in_u64; lia). split_and!; [done..|].
  intros p ->. destruct tx as [| |c id tip cap al]; [done..|]. cbn in Hprice |- *. unfold shown_base_fee.
  destruct (BaseFee n res) as [[b|]| |]; try done; destruct cap, tip; try done. by injection Hprice as <-.
Qed.
End Served.

(** C25.  The views of a transaction agree.  Once a block is indexed, its [i]-th Ethereum
    message is shown the same way, with the same sender, price and place, in the block,
    by its hash, by the number of the block and [i], and by the hash of the block and
    [i]; and the block lists nothing else. *)
Theorem rpc_views_agree (n : node) (db db' : database) (rb : res_block) (res : block_results) (listed : list tx_msg) :
  serves n db' rb res →
  IndexBlock (rb_block rb) (br_TxsResults res) db = Ok db' →
  EthMsgsFromTendermintBlock (rb_block rb) (br_TxsResults res) = Ok listed →
  indexable (rb_Txs rb) (br_TxsResults res) → fields_ok (rb_block rb) → sizes_ok (rb_block rb) →
  NoDup (msg_hash <$> listed) → Z.of_nat (length listed) < 2 ^ 31 →
  ∃ hashes full,
    GetBlockByNumber n (h_Height (rb_Header rb)) false = Ok (Some hashes) ∧
    GetBlockByHash n (BytesToHash (h_Hash (rb_Header rb))) true = Ok (Some full) ∧
    length (bk_transactions full) = length listed ∧
    ∀ i hash gas tx, listed !! i = Some (EthMsg hash gas tx) →
      bk_transactions hashes !! i = Some (inl (tx_Hash tx)) ∧
      bk_transactions full !! i = Some (inr (view n rb res tx i)) ∧
      GetTransactionByHash n (tx_Hash tx) = Ok (Some (view n rb res tx i)) ∧
      GetTransactionByBlockNumberAndIndex n (h_Height (rb_Header rb)) (Z.of_nat i) = Ok (Some (view n rb res tx i)) ∧
      GetTransactionByBlockHashAndIndex n (BytesToHash (h_Hash (rb_Header rb))) (Z.of_nat i) =
        Ok (Some (view n rb res tx i)).
Proof.
  intros Hs Hrun Hl Hix Hfok Hsz Hnd Hn.
  destruct (served_block n db' rb res Hs false listed Hl) as (hashes & Hb1 & _ & Ht1).
  destruct (served_block n db' rb res Hs true listed Hl) as (full & _ & Hb2 & Ht2).
  destruct (listed_messages _ _ _ Hl Hfok) as [_ Hff].
  exists hashes, full. split; [done|]. split; [done|]. split; [by rewrite Ht2, rpc_transactions_length|].
  intros i hash gas tx Hi. rewrite Ht1, Ht2, !(rpc_transactions_lookup _ _ _ _ _ _ _ _ _ _ Hff Hi).
  assert (u64 (h_Height (rb_Header rb)) = h_Height (rb_Header rb)) as ->.
  { apply u64_small. pose proof (srv_height _ _ _ _ Hs). unfold in_u64. lia. }
  split; [done|]. split; [done|].
  destruct (index_finds_messages (rb_block rb) (br_TxsResults res) db listed) as (db1 & Hrun1 & Hall); [done..|].
  rewrite Hrun in Hrun1. injection Hrun1 as <-.
  destruct (Hall i _ Hi) as (r & t & Hg1 & Hg2 & Hrh & Hri & Ht & Hm & Htx & Hmsg).
  pose proof (lookup_lt_Some _ _ _ Hi).
  destruct (served_entry n db' rb res Hs r i hash gas tx) as [Hv1 Hv2]; [done|done|done|done|lia| |].
  { by apply message_at_place with t. }
  split; [done|]. split.
  - unfold GetTransactionByBlockNumberAndIndex. rewrite (served_number n db' rb res Hs). cbn [deref_rpc]. by rewrite Ok_bind.
  - unfold GetTransactionByBlockHashAndIndex. by rewrite (srv_by_hash _ _ _ _ Hs).
Qed.
End Views.

(** The price that is shown for a mined transaction is the effective price, which is
    what its sender was charged. *)
Lemma shown_price_charged `{Geth} `{Signers} data blockHash number index baseFee chainID price :
  blockHash ≠ 0 → EffectiveGasPrice data (Some baseFee) = Ok (Some price) →
  rt_GasPrice (NewRPCTransaction (AsEthereumData data) blockHash number index (Some baseFee) chainID) = price.
Proof.
  intros Hb Hp. destruct data as [c p|c id p al|c id tip cap al]; cbn in Hp |- *.
  - injection Hp as ->. done.
  - injection Hp as ->. done.
  - rewrite bool_decide_false by done. cbn. destruct cap, tip; try done. by injection Hp as <-.
Qed.

(** ** Witness *)

Module BackendToy.
Import GethToy EventsToy IndexToy.

#[export] Instance toy_signers : Signers := {
  tx_Protected _ := true;
  tx_ChainId _ := 5438;
  Sender s tx := match s with LatestSignerForChainID 5438 => Some (100 + eth_Nonce (eth_common_fields tx)) | _ => None end;
  CreateAddress a nonce := a + nonce;
  EffectiveGasTipValue _ _ := 0
}.

Definition toy_header : tm_header := mkHeader 5 [9; 9] [8; 8] 1700000000 [3] [4] [5].
Definition toy_res : res_block := mkResBlock toy_header (b_Txs toy_block) [9; 9] 1234.

Definition toy_block_results : block_results := mkBlockResults 5 toy_results [base_fee_event 7] [].

(** A node whose old state is pruned: the base fee comes from the events. *)
Definition toy_node (db : database) : node := {|
  nd_HeightHeader := Some ["6"%string];
  nd_Block h := if h =? 5 then Some (Some toy_res) else None;
  nd_BlockByHash h := if h =? BytesToHash [9; 9] then Some (Some toy_res) else None;
  nd_BlockResults h := if h =? 5 then Some toy_block_results else None;
  nd_TxSearch _ := None;
  nd_UnconfirmedTxs := None;
  nd_ConsensusMaxGas _ := Some (-1);
  nd_BaseFee _ := None;
  nd_EvmParams := None;
  nd_ValidatorAccount _ _ := None;
  nd_indexer := Some db;
  nd_ClientChainID := "dhives_5438-1";
  nd_chainID := 5438;
  nd_FixRevertGasRefundHeight := 0
|}.

Lemma toy_serves db : serves (toy_node db) db toy_res toy_block_results.
Proof. split; cbn; try reflexivity; try lia; vm_compute; discriminate. Qed.

Lemma rpc_views_agree_witness :
  ∃ db full, IndexBlock toy_block toy_results ∅ = Ok db ∧
    GetBlockByHash (toy_node db) (BytesToHash [9; 9]) true = Ok (Some full) ∧ length (bk_transactions full) = 3%nat ∧
    bk_transactions full !! 2%nat = Some (inr (view (toy_node db) toy_res toy_block_results (toy_tx 3) 2)) ∧
    GetTransactionByHash (toy_node db) (tx_Hash (toy_tx 3)) =
      Ok (Some (view (toy_node db) toy_res toy_block_results (toy_tx 3) 2)).
Proof.
  destruct toy_indexed as (db & Hrun & _). destruct toy_block_listed as [Hl Hnd].
  destruct (rpc_views_agree (toy_node db) ∅ db toy_res toy_block_results toy_listed)
    as (hashes & full & _ & Hfull & Hlen & Hall);
    [apply toy_serves|exact Hrun|exact Hl|apply toy_indexable|apply toy_fields|apply toy_sizes|exact Hnd|cbn; lia|].
  exists db, full. split; [exact Hrun|]. split; [exact Hfull|]. split; [exact Hlen|].
  destruct (Hall 2%nat _ _ _ eq_refl) as (_ & H1 & H2 & _). split; [exact H1|exact H2].
Defined.

(** A block that the node does not have: the response is nil and is read. *)
Example missing_block_panics :
  let n := {| nd_HeightHeader := None; nd_Block _ := Some None; nd_BlockByHash _ := None; nd_BlockResults _ := None;
              nd_TxSearch _ := None; nd_UnconfirmedTxs := None; nd_ConsensusMaxGas _ := None; nd_BaseFee _ := None;
              nd_EvmParams := None; nd_ValidatorAccount _ _ := None; nd_indexer := None; nd_ClientChainID := EmptyString;
              nd_chainID := 5438; nd_FixRevertGasRefundHeight := 0 |} in
  GetTransactionByBlockNumberAndIndex n 9 0 = Panic ∧ GetBlockTransactionCountByNumber n 9 = Panic.
Proof. split; reflexivity. Qed.
End BackendToy.
