(* ===== verification/RpcChain.v ===== *)
(** * Fees, accounts and transactions to send: [rpc/backend]

    The functions of [chain_info.go] and [call_tx.go] that suggest fees, fill in and
    send transactions, of [account_info.go] that answer for accounts, and of
    [utils.go] that count nonces and gather the rewards of a block.  A [chain_node] is
    a [node] with the queries and the configuration these use.  A [float64] is a
    [spec_float] with 53 bits; [sort.Sort], which is not stable, and the conversion of
    a float out of range, which the language leaves open, are parameters. *)

From Stdlib Require Import SpecFloat.
From S2P Require Import Prelude.
From S2P Require Import Dec.
From S2P Require Import EvmTx.
From S2P Require Import EvmKeeper.
From S2P Require Import EvmApply.
From S2P Require Import EvmQuery.
From S2P Require Import FeeMarket.
From S2P Require Import EvmParams.
From S2P Require Import EthLogs.
From S2P Require Import TxEvents.
From S2P Require Import Indexer.
From S2P Require Import RpcTypes.
From S2P Require Import RpcBackend.

(** ** Floating point *)

Definition float64 : Type := spec_float.

(** The nearest float of an integer, as [big.Float.Float64] and [float64(x)] give. *)
Definition float_of_Z (z : Z) : float64 := binary_normalize 53 1024 z 0 false.

Definition float_mul : float64 → float64 → float64 := SFmul 53 1024.
Definition float_div : float64 → float64 → float64 := SFdiv 53 1024.

(** The integer part of a finite float. *)
Definition float_trunc (f : float64) : option Z :=
  match f with
  | S754_zero _ => Some 0
  | S754_finite s m e =>
      let v := if 0 <=? e then Z.pos m * 2 ^ e else Z.pos m / 2 ^ (- e) in
      Some (if s then - v else v)
  | S754_infinity _ | S754_nan => None
  end.

(** ** The node *)

(** The response to a query for an account. *)
Inductive account_reply := AccountNotFound | AccountError | AccountSequence (sequence : Z).

Record chain_node `{LegacyDec} := mkChainNode {
  cn_node : node;
  cn_FeeParams : option FeeMarket.Params;
  (** [RPCMinGasPrice], [FeeHistoryCap], [RPCGasCap] *)
  cn_MinGasPrice : Z;
  cn_FeeHistoryCap : Z;
  cn_GasCap : Z;
  cn_Account : Address → option Z → account_reply;
  (** [EnsureExists] of the account retriever *)
  cn_Exists : Address → bool;
  (** the balance as a string that may not parse *)
  cn_Balance : Address → option Z → option (option Z);
  cn_Code : Address → option Z → option (list byte);
  cn_Storage : Address → string → option Z → option string;
  (** [EstimateGas] of the EVM module for a cap and a proposer *)
  cn_EstimateGas : TransactionArgs → Z → list byte → option Z → option Z
}.

(** Of go-ethereum: [misc.CalcBaseFee]. *)
Class NextBaseFee := { CalcBaseFee : eth_config → eth_header → partial Z }.

Record gas_and_reward := mkGasAndReward { gr_gasUsed : Z; gr_reward : Z }.

(** [sort.Sort] by reward. *)
Class Sorter := { sort_rewards : list gas_and_reward → list gas_and_reward }.

Class SorterLaws `{Sorter} : Prop := {
  sort_permutes l : sort_rewards l ≡ₚ l;
  sort_sorts l : Sorted (λ x y, gr_reward x <= gr_reward y) (sort_rewards l)
}.

Section Chain.
Context `{LD : LegacyDec} `{GE : Geth} `{LC : LogCodec} `{SG : Signers} `{NB : NextBaseFee} `{SO : Sorter}.
Context (undefined_uint64 : float64 → Z).
Variable c : chain_node.

Abbreviation n := (cn_node c).

(** ** Fees: [chain_info.go] *)

Definition GlobalMinGasPrice : rpc_result dec :=
  params ← query RErrQuery (cn_FeeParams c);
  deref_rpc (fm_MinGasPrice params).

(** In 64 bits; the denominator is a [uint32]. *)
Definition SuggestGasTipCap (baseFee : option Z) : rpc_result Z :=
  match baseFee with
  | None => Ok 0
  | Some baseFee =>
      params ← query RErrQuery (cn_FeeParams c);
      if fm_BaseFeeChangeDenominator params =? 0 then Panic
      else
        let maxDelta := Z.quot (i64 (i64 baseFee * (fm_ElasticityMultiplier params - 1)))
                          (fm_BaseFeeChangeDenominator params) in
        Ok (if maxDelta <? 0 then 0 else maxDelta)
  end.

Definition GasPrice : rpc_result Z :=
  head ← CurrentHeader n;
  result ← match eh_BaseFee head with
           | Some baseFee => tip ← SuggestGasTipCap (Some baseFee); Ok (tip + baseFee)
           | None => Ok (cn_MinGasPrice c)
           end;
  minGasPrice ← GlobalMinGasPrice;
  minGasPriceInt ← total_rpc (dec_TruncateInt minGasPrice);
  Ok (if result <? minGasPriceInt then minGasPriceInt else result).

(** ** The rewards of a block: [processBlock] of [utils.go] *)

Definition to_uint64 (f : float64) : Z :=
  match float_trunc f with
  | Some z => if (0 <=? z) && (z <? 2 ^ 64) then z else undefined_uint64 f
  | None => undefined_uint64 f
  end.

(** The inner loop: [current] is the element at [txIndex], [rest] what follows. *)
Fixpoint advance (threshold sumGasUsed : Z) (current : gas_and_reward) (rest : list gas_and_reward) :
    Z * gas_and_reward * list gas_and_reward :=
  match rest with
  | [] => (sumGasUsed, current, [])
  | next :: rest' =>
      if sumGasUsed <? threshold then advance threshold (u64 (sumGasUsed + gr_gasUsed next)) next rest'
      else (sumGasUsed, current, rest)
  end.

Fixpoint reward_loop (blockGasUsed : float64) (percentiles : list float64) (sumGasUsed : Z) (current : gas_and_reward)
    (rest : list gas_and_reward) : list Z :=
  match percentiles with
  | [] => []
  | p :: percentiles =>
      let threshold := to_uint64 (float_div (float_mul blockGasUsed p) (float_of_Z 100)) in
      let '(sum, current, rest) := advance threshold sumGasUsed current rest in
      gr_reward current :: reward_loop blockGasUsed percentiles sum current rest
  end.

Fixpoint msg_rewards (baseFee : option Z) (txGasUsed : Z) (msgs : list tx_msg) : list gas_and_reward :=
  match msgs with
  | [] => []
  | OtherMsg :: msgs => msg_rewards baseFee txGasUsed msgs
  | EthMsg _ _ tx :: msgs =>
      mkGasAndReward txGasUsed (EffectiveGasTipValue tx baseFee) :: msg_rewards baseFee txGasUsed msgs
  end.

Fixpoint block_rewards (baseFee : option Z) (txs : list (option sdk_tx)) (results : list DeliverTx) :
    rpc_result (list gas_and_reward) :=
  match txs, results with
  | [], _ => Ok []
  | _ :: _, [] => Panic
  | tx :: txs, r :: results =>
      l ← block_rewards baseFee txs results;
      Ok (match tx with Some tx => msg_rewards baseFee (u64 (dt_GasUsed r)) (tx_Msgs tx) | None => [] end ++ l)
  end.

Record OneFeeHistory := mkOneFeeHistory {
  of_BaseFee : option Z;
  of_NextBaseFee : Z;
  of_Reward : list Z;
  of_GasUsedRatio : float64
}.

Definition rewards_of (sorter : list gas_and_reward) (blockGasUsed : float64) (percentiles : list float64) : list Z :=
  match sort_rewards sorter with
  | [] => replicate (length percentiles) 0
  | first :: rest => reward_loop blockGasUsed percentiles (gr_gasUsed first) first rest
  end.

Definition processBlock (block : res_block) (ethBlock : rpc_block) (percentiles : list float64) (blockRes : block_results) :
    rpc_result OneFeeHistory :=
  blockBaseFee ← BaseFee n blockRes;
  cfg ← deref_rpc (ChainConfig_of_node n);
  nextBaseFee ← (if isForked (g_LondonBlock cfg) (h_Height (rb_Header block) + 1) then
                   header ← CurrentHeader n; total_rpc (CalcBaseFee cfg header)
                 else Ok 0);
  if bk_gasLimit ethBlock <=? 0 then Err RErrGasLimit
  else
    let gasUsed := float_of_Z (bk_gasUsed ethBlock) in
    sorter ← block_rewards blockBaseFee (rb_Txs block) (br_TxsResults blockRes);
    Ok (mkOneFeeHistory blockBaseFee nextBaseFee (rewards_of sorter gasUsed percentiles)
          (float_div gasUsed (float_of_Z (bk_gasLimit ethBlock)))).

(** ** [FeeHistory] *)

Record FeeHistoryResult := mkFeeHistoryResult {
  fh_OldestBlock : Z;
  fh_BaseFee : list (option Z);
  fh_GasUsedRatio : list float64;
  fh_Reward : list (list Z)
}.

(** One round of the loop; [None] ends it with the answer null. *)
Definition fee_history_block (percentiles : list float64) (blockID : Z) : rpc_result (option OneFeeHistory) :=
  block ← TendermintBlockByNumber n blockID;
  match block with
  | None => Ok None
  | Some block =>
      ethBlock ← GetBlockByNumber n blockID true;
      match ethBlock with
      | None => Ok None
      | Some ethBlock =>
          blockRes ← TendermintBlockResultByNumber n (h_Height (rb_Header block));
          Some <$> processBlock block ethBlock percentiles blockRes
      end
  end.

(** The loop over [blocks] blocks from [blockID], which writes row [index]: the base
    fee after the block is overwritten by that of the next one. *)
Fixpoint fee_history_loop (percentiles : list float64) (blockID : Z) (blocks index : nat) (acc : FeeHistoryResult) :
    rpc_result (option FeeHistoryResult) :=
  match blocks with
  | O => Ok (Some acc)
  | S blocks =>
      one ← fee_history_block percentiles blockID;
      match one with
      | None => Ok None
      | Some one =>
          fee_history_loop percentiles (blockID + 1) blocks (S index)
            (mkFeeHistoryResult (fh_OldestBlock acc)
               (<[S index := Some (of_NextBaseFee one)]> (<[index := of_BaseFee one]> (fh_BaseFee acc)))
               (<[index := of_GasUsedRatio one]> (fh_GasUsedRatio acc))
               (<[index := of_Reward one]> (fh_Reward acc)))
      end
  end.

(** Without percentiles the rows of rewards are empty and are not shown. *)
Definition FeeHistory (userBlockCount lastBlock : Z) (percentiles : list float64) : rpc_result (option FeeHistoryResult) :=
  blockEnd ← (if lastBlock <? 0 then BlockNumber n else Ok lastBlock);
  let blocks := i64 userBlockCount in
  if cn_FeeHistoryCap c <? blocks then Err RErrBlockCount
  else
    let blocks := if blockEnd + 1 <? blocks then blockEnd + 1 else blocks in
    let blockStart := blockEnd + 1 - blocks in
    if blocks <? 0 then Panic
    else
      let rows := Z.to_nat blocks in
      fee_history_loop percentiles blockStart rows 0
        (mkFeeHistoryResult blockStart (replicate (S rows) None) (replicate rows (S754_zero false))
           (replicate rows (replicate (length percentiles) 0))).

(** ** Accounts: [account_info.go], [getAccountNonce] of [utils.go] *)

(** Messages of the sender among those of a transaction, up to the first of another
    type; those whose sender is not recovered are skipped. *)
Fixpoint count_msgs (accAddr : Address) (nonce : Z) (msgs : list tx_msg) : Z :=
  match msgs with
  | [] | OtherMsg :: _ => nonce
  | EthMsg _ _ tx :: msgs =>
      count_msgs accAddr
        (if bool_decide (Sender (LatestSignerForChainID (nd_chainID n)) tx = Some accAddr) then u64 (nonce + 1) else nonce)
        msgs
  end.

Definition getAccountNonce (accAddr : Address) (pending : bool) (height : Z) : rpc_result Z :=
  match cn_Account c accAddr (ContextWithHeight height) with
  | AccountNotFound => Ok 0
  | AccountError => Err RErrQuery
  | AccountSequence nonce =>
      if negb pending then Ok nonce
      else match PendingTransactions n with
           | Panic => Panic
           | Err _ => Ok nonce
           | Ok txs => Ok (foldl (λ nonce tx, count_msgs accAddr nonce (tx_Msgs tx)) nonce txs)
           end
  end.

Definition GetTransactionCount (address : Address) (blockNum : Z) : rpc_result Z :=
  bn ← BlockNumber n;
  if bn <? bn_Int64 blockNum then Err RErrFuture
  else if negb (cn_Exists c address) then Ok 0
  else getAccountNonce address (blockNum =? EthPendingBlockNumber) (bn_Int64 blockNum).

Definition GetBalance (address : Address) (blockNrOrHash : BlockNumberOrHash) : rpc_result Z :=
  blockNum ← BlockNumberFromTendermint n blockNrOrHash;
  _ ← TendermintBlockByNumber n blockNum;
  res ← query RErrQuery (cn_Balance c address (ContextWithHeight (bn_Int64 blockNum)));
  val ← query RErrDecode res;
  if val <? 0 then Err RErrPruned else Ok val.

Definition GetCode (address : Address) (blockNrOrHash : BlockNumberOrHash) : rpc_result (list byte) :=
  blockNum ← BlockNumberFromTendermint n blockNrOrHash;
  query RErrQuery (cn_Code c address (ContextWithHeight (bn_Int64 blockNum))).

Definition GetStorageAt (address : Address) (key : string) (blockNrOrHash : BlockNumberOrHash) : rpc_result (list byte) :=
  blockNum ← BlockNumberFromTendermint n blockNrOrHash;
  value ← query RErrQuery (cn_Storage c address key (ContextWithHeight (bn_Int64 blockNum)));
  Ok (Hash_Bytes (HexToHash value)).

(** ** Calls and transactions: [call_tx.go] *)

Definition EstimateGas (args : TransactionArgs) (blockNrOptional : option Z) : rpc_result Z :=
  let blockNr := default EthPendingBlockNumber blockNrOptional in
  match TendermintBlockByNumber n blockNr with
  | Panic => Panic
  | Err _ => Err RErrNoHeader
  | Ok header =>
      header ← deref_rpc header;
      query RErrEstimate (cn_EstimateGas c args (cn_GasCap c) (h_ProposerAddress (rb_Header header))
                            (ContextWithHeight (bn_Int64 blockNr)))
  end.

(** Fee fields of the arguments: price, fee cap and tip. *)
Definition set_fees (price cap tip : option Z) (args : TransactionArgs) : TransactionArgs :=
  mkTransactionArgs (arg_From args) (arg_To args) (arg_Gas args) price cap tip (arg_Value args) (arg_Nonce args)
    (arg_Data args) (arg_Input args) (arg_AccessList args) (arg_ChainID args).

Definition set_rest (gas value nonce chainID : option Z) (args : TransactionArgs) : TransactionArgs :=
  mkTransactionArgs (arg_From args) (arg_To args) gas (arg_GasPrice args) (arg_MaxFeePerGas args)
    (arg_MaxPriorityFeePerGas args) value nonce (arg_Data args) (arg_Input args) (arg_AccessList args) chainID.

(** The first part of [SetTxDefaults]: the fees. *)
Definition set_default_fees (head : eth_header) (args : TransactionArgs) : rpc_result TransactionArgs :=
  match arg_MaxPriorityFeePerGas args, arg_MaxFeePerGas args with
  | Some tip, Some cap => if cap <? tip then Err RErrUnderpriced else Ok args
  | tip, cap =>
      match eh_BaseFee head, arg_GasPrice args with
      | Some baseFee, None =>
          tip ← match tip with Some tip => Ok tip | None => SuggestGasTipCap (Some baseFee) end;
          let cap := default (tip + baseFee * 2) cap in
          if cap <? tip then Err RErrUnderpriced else Ok (set_fees None (Some cap) (Some tip) args)
      | baseFee, price =>
          if bool_decide (is_Some cap) || bool_decide (is_Some tip) then Err RErrLondon
          else
            price ← match price with
                    | Some price => Ok price
                    | None => tip ← SuggestGasTipCap baseFee; Ok (tip + default 0 baseFee)
                    end;
            Ok (set_fees (Some price) None None args)
      end
  end.

(** The arguments that the gas is estimated for: the input goes into the data. *)
Definition estimate_args (args : TransactionArgs) : TransactionArgs :=
  mkTransactionArgs (arg_From args) (arg_To args) (arg_Gas args) (arg_GasPrice args) (arg_MaxFeePerGas args)
    (arg_MaxPriorityFeePerGas args) (arg_Value args) (arg_Nonce args)
    (match arg_Input args with Some input => Some input | None => arg_Data args end) None
    (arg_AccessList args) (arg_ChainID args).

(** An error of the nonce is ignored; the sender is read without a check. *)
Definition default_nonce (args : TransactionArgs) : rpc_result Z :=
  match arg_Nonce args with
  | Some nonce => Ok nonce
  | None =>
      from ← deref_rpc (arg_From args);
      tolerate 0 (getAccountNonce from true 0)
  end.

Definition creation_data (args : TransactionArgs) : list byte :=
  match arg_Data args with Some data => data | None => default [] (arg_Input args) end.

Definition SetTxDefaults (args : TransactionArgs) : rpc_result TransactionArgs :=
  if bool_decide (is_Some (arg_GasPrice args)) &&
     (bool_decide (is_Some (arg_MaxFeePerGas args)) || bool_decide (is_Some (arg_MaxPriorityFeePerGas args)))
  then Err RErrArguments
  else
    head ← match CurrentHeader n with Ok head => Ok head | Err _ => Err RErrNoHeader | Panic => Panic end;
    args ← set_default_fees head args;
    nonce ← default_nonce args;
    let args := set_rest (arg_Gas args) (Some (default 0 (arg_Value args))) (Some nonce) (arg_ChainID args) args in
    if bool_decide (is_Some (arg_Data args)) && bool_decide (is_Some (arg_Input args)) &&
       negb (bool_decide (arg_Data args = arg_Input args)) then Err RErrInputs
    else if bool_decide (arg_To args = None) && bool_decide (creation_data args = []) then Err RErrNoData
    else
      gas ← match arg_Gas args with
            | Some gas => Ok gas
            | None => EstimateGas (estimate_args args) (Some (NewBlockNumber 0))
            end;
      Ok (set_rest (Some gas) (arg_Value args) (Some nonce) (Some (default (nd_chainID n) (arg_ChainID args))) args).
End Chain.
