(* ===== verification/RpcChainSpec.v ===== *)
(** * What the JSON-RPC server promises about fees and transactions to send

    The suggested gas price covers the base fee of the next block; the arguments of a
    transaction are completed without changing what the user gave; and the rewards of
    a block are tips of its transactions, in increasing order. *)

From Stdlib Require Import SpecFloat.
From S2P Require Import Prelude.
From S2P Require Import Dec.
From S2P Require Import EvmTx.
From S2P Require Import EvmTxSpec.
From S2P Require Import EvmQuery.
From S2P Require Import EvmParams.
From S2P Require Import FeeMarket.
From S2P Require Import FeeMarketSpec.
From S2P Require Import EthLogs.
From S2P Require Import TxEvents.
From S2P Require Import Indexer.
From S2P Require Import RpcTypes.
From S2P Require Import RpcBackend.
From S2P Require Import RpcChain.

(** ** The suggested price *)

Lemma eip1559_max parent used target elasticity denominator :
  0 <= parent → 0 < denominator → 0 < target → 0 < elasticity → 0 <= used <= target * elasticity →
  denominator <= parent * (elasticity - 1) →
  eip1559 parent used target denominator <= parent + parent * (elasticity - 1) / denominator.
Proof.
  intros Hp Hd Ht He Hu Hbig.
  assert (0 < parent * (elasticity - 1) / denominator) as H1 by (apply Z.div_str_pos; lia).
  assert (parent * (target * elasticity - target) / (target * denominator) = parent * (elasticity - 1) / denominator) as Heq.
  { replace (parent * (target * elasticity - target)) with (target * (parent * (elasticity - 1))) by ring.
    apply Z.div_mul_cancel_l; lia. }
  etrans; [apply (eip1559_mono parent used (target * elasticity) target denominator); lia|].
  unfold eip1559. rewrite (proj2 (Z.ltb_ge _ _)) by nia. rewrite Heq. destruct (_ =? _); lia.
Qed.

Section Fees.
Context `{DL : DecLaws} `{GE : Geth} `{LC : LogCodec} `{SG : Signers}.

Lemma tip_without_overflow c params baseFee :
  cn_FeeParams c = Some params → 0 <= baseFee < 2 ^ 63 → 0 < fm_BaseFeeChangeDenominator params →
  1 <= fm_ElasticityMultiplier params → baseFee * (fm_ElasticityMultiplier params - 1) < 2 ^ 63 →
  SuggestGasTipCap c (Some baseFee) =
    Ok (baseFee * (fm_ElasticityMultiplier params - 1) / fm_BaseFeeChangeDenominator params).
Proof.
  intros Hp Hb Hd He Ho. unfold SuggestGasTipCap. rewrite Hp. cbn [query]. rewrite Ok_bind.
  rewrite (proj2 (Z.eqb_neq _ _)) by lia. rewrite (i64_small baseFee) by (unfold in_i64; lia).
  rewrite i64_small by (unfold in_i64; nia). rewrite Z.quot_div_nonneg by nia.
  rewrite (proj2 (Z.ltb_ge _ _)); [done|]. apply Z.div_pos; nia.
Qed.

(** C28.  The gas price that the server suggests covers the base fee of the next block,
    whatever gas up to its limit the current one wants, and the minimum gas price of the
    chain: the tip it adds to the base fee is the largest step the fee market can make.
    The base fee must be large enough for that step to be at least one, the step must
    fit in 64 bits, and the block limit must be a multiple of the elasticity. *)
Theorem suggested_price_covers_next_block (c : chain_node) (head : eth_header) (ctx : fee_ctx) (s : fee_store) (parent : Z) :
  CurrentHeader (cn_node c) = Ok head → eh_BaseFee head = Some parent → cn_FeeParams c = Some (GetParams s) →
  fee_ready ctx s parent →
  let e := fm_ElasticityMultiplier (GetParams s) in
  let d := fm_BaseFeeChangeDenominator (GetParams s) in
  0 <= GetBlockGasWanted s <= block_gas_limit ctx → block_gas_limit ctx mod e = 0 →
  parent < 2 ^ 63 → d <= parent * (e - 1) < 2 ^ 63 →
  ∃ price next, GasPrice c = Ok price ∧ CalculateBaseFee ctx s = Ok (Some next) ∧
    next <= price ∧ min_gas_price s <= price ∧ parent <= price.
Proof.
  intros Hh Hb Hp Hr e d Hu Hm Hp63 Hstep. pose proof Hr as [_ _ _ Hp0 Hd He Ht _ Hmin Hminf].
  rewrite (calculate_eip1559 ctx s parent Hr). unfold next_base_fee. fold d.
  unfold GasPrice. rewrite Hh, Ok_bind, Hb.
  rewrite (tip_without_overflow c (GetParams s)), Ok_bind by (done || (fold e d; lia)). fold e d.
  unfold GlobalMinGasPrice. rewrite Hp. cbn [query]. rewrite Ok_bind, Ok_bind.
  assert (fm_MinGasPrice (GetParams s) = Some (default LegacyZeroDec (fm_MinGasPrice (GetParams s)))) as -> by done.
  cbn [deref_rpc]. rewrite Ok_bind, TruncateInt_pos by done. cbn [total_rpc]. rewrite Ok_bind.
  eexists _, _. split; [done|]. split; [done|]. fold (min_gas_price s).
  assert (0 <= parent * (e - 1) / d) by (apply Z.div_pos; lia).
  assert (block_gas_limit ctx = gas_target ctx s * e) as Hlim.
  { unfold gas_target. fold e. pose proof (Z.div_mod (block_gas_limit ctx) e). fold e in He. lia. }
  pose proof (eip1559_max parent (GetBlockGasWanted s) (gas_target ctx s) e d) as Hmax.
  destruct (Z.ltb_spec (parent * (e - 1) / d + parent) (min_gas_price s)), (Z.ltb_spec (GetBlockGasWanted s) (gas_target ctx s)); lia.
Qed.

(** ** Completing a transaction *)

(** [y] keeps the value of [x], if there is one. *)
Definition keeps {A} (x y : option A) : Prop := ∀ a, x = Some a → y = Some a.

(** The price is given in one of the two ways, and the tip is within the cap. *)
Definition priced (price cap tip : option Z) : Prop :=
  match price, cap, tip with
  | Some _, None, None => True
  | None, Some cap, Some tip => tip <= cap
  | _, _, _ => False
  end.

Definition same_call (args args' : TransactionArgs) : Prop :=
  arg_From args' = arg_From args ∧ arg_To args' = arg_To args ∧ arg_Data args' = arg_Data args ∧
  arg_Input args' = arg_Input args ∧ arg_AccessList args' = arg_AccessList args.

Lemma priced_message args gasCap baseFee :
  priced (arg_GasPrice args) (arg_MaxFeePerGas args) (arg_MaxPriorityFeePerGas args) →
  is_Some (ToMessage args gasCap baseFee).
Proof.
  intros Hp. unfold ToMessage. destruct (message_price args baseFee) as [p q]. unfold priced in Hp.
  destruct (arg_GasPrice args), (arg_MaxFeePerGas args), (arg_MaxPriorityFeePerGas args); try done;
    rewrite ?andb_false_r; by eexists.
Qed.

Lemma default_fees_priced c head args args' :
  (is_Some (arg_GasPrice args) → arg_MaxFeePerGas args = None ∧ arg_MaxPriorityFeePerGas args = None) →
  set_default_fees c head args = Ok args' →
  ∃ price cap tip, args' = set_fees price cap tip args ∧ priced price cap tip ∧ keeps (arg_GasPrice args) price ∧
    keeps (arg_MaxFeePerGas args) cap ∧ keeps (arg_MaxPriorityFeePerGas args) tip.
Proof.
  intros Hmix Hd. destruct args as [from to gas price cap tip value nonce data input al id]; cbn in *.
  unfold set_default_fees in Hd; cbn in Hd. unfold keeps.
  destruct tip as [tip|], cap as [cap|].
  - destruct (Z.ltb_spec cap tip); [done|]. injection Hd as <-. destruct price as [p|]; [by destruct Hmix|].
    by exists None, (Some cap), (Some tip).
  - destruct (eh_BaseFee head) as [bf|], price as [p|]; try done. cbn in Hd.
    destruct (Z.ltb_spec (tip + bf * 2) tip); [done|]. injection Hd as <-. by exists None, (Some (tip + bf * 2)), (Some tip).
  - destruct (eh_BaseFee head) as [bf|], price as [p|]; try done. apply bind_Ok_inv in Hd as (t & _ & Hd). cbn in Hd.
    destruct (Z.ltb_spec cap t); [done|]. injection Hd as <-. by exists None, (Some cap), (Some t).
  - destruct (eh_BaseFee head) as [bf|], price as [p|].
    2: { apply bind_Ok_inv in Hd as (t & _ & Hd). cbn in Hd. destruct (Z.ltb_spec (t + bf * 2) t); [done|].
         injection Hd as <-. by exists None, (Some (t + bf * 2)), (Some t). }
    all: cbn in Hd; injection Hd as <-; eexists (Some _), None, None; split_and!; try done; intros a Ha; congruence.
Qed.

(** A transaction that the server completes keeps every field the user gave; it has
    a nonce, a value, a gas limit and a chain identifier; its price is given in one of the
    two ways, with the tip within the cap, so that it can be turned into a message; and
    a creation has data. *)
Theorem defaults_complete_transaction (c : chain_node) (args args' : TransactionArgs) :
  SetTxDefaults c args = Ok args' →
  same_call args args' ∧ priced (arg_GasPrice args') (arg_MaxFeePerGas args') (arg_MaxPriorityFeePerGas args') ∧
  keeps (arg_GasPrice args) (arg_GasPrice args') ∧ keeps (arg_MaxFeePerGas args) (arg_MaxFeePerGas args') ∧
  keeps (arg_MaxPriorityFeePerGas args) (arg_MaxPriorityFeePerGas args') ∧ keeps (arg_Gas args) (arg_Gas args') ∧
  keeps (arg_Nonce args) (arg_Nonce args') ∧ keeps (arg_ChainID args) (arg_ChainID args') ∧
  keeps (arg_Value args) (arg_Value args') ∧
  (is_Some (arg_Gas args') ∧ is_Some (arg_Nonce args') ∧ is_Some (arg_ChainID args') ∧ is_Some (arg_Value args')) ∧
  (arg_To args' = None → creation_data args' ≠ []) ∧
  ∀ gasCap baseFee, is_Some (ToMessage args' gasCap baseFee).
Proof.
  unfold SetTxDefaults. destruct (_ && _) eqn:Hmix; [done|]. intros Hd.
  apply bind_Ok_inv in Hd as (head & _ & Hd). apply bind_Ok_inv in Hd as (args1 & Hfees & Hd).
  apply bind_Ok_inv in Hd as (nonce & Hnonce & Hd).
  destruct (_ && _) eqn:Hin in Hd; [done|]. destruct (_ && _) eqn:Hdata in Hd; [done|].
  apply bind_Ok_inv in Hd as (gas & Hgas & [= <-]).
  apply default_fees_priced in Hfees as (price & cap & tip & -> & Hpr & Hk1 & Hk2 & Hk3).
  2: { intros Hs. rewrite bool_decide_true in Hmix by done. cbn in Hmix.
       apply orb_false_iff in Hmix as [H1%bool_decide_eq_false H2%bool_decide_eq_false].
       split; by apply eq_None_not_Some. }
  destruct args as [from to gas0 price0 cap0 tip0 value nonce0 data input al id]. cbn in *.
  split; [done|]. split; [done|]. split; [done|]. split; [done|]. split; [done|].
  split; [by intros g ->; injection Hgas as <-|].
  split; [intros m ->; cbn in Hnonce; by injection Hnonce as <-|].
  split; [by intros m ->|]. split; [by intros v ->|].
  split; [by split_and!|]. split.
  - intros ->. cbn in Hdata. by apply bool_decide_eq_false in Hdata.
  - intros gasCap baseFee. by apply priced_message.
Qed.

(** Without a gas limit, the gas is estimated on the state of the first block: the
    number zero that is passed stands for the earliest block, not for the latest. *)
Lemma default_gas_from_first_block c args :
  EstimateGas c args (Some (NewBlockNumber 0)) =
    match nd_Block (cn_node c) 1 with
    | None => Err RErrNoHeader
    | Some None => Panic
    | Some (Some b) => query RErrEstimate (cn_EstimateGas c args (cn_GasCap c) (h_ProposerAddress (rb_Header b)) (Some 1))
    end.
Proof.
  unfold EstimateGas. change (default EthPendingBlockNumber (Some (NewBlockNumber 0))) with 0.
  unfold TendermintBlockByNumber. cbn. destruct (nd_Block (cn_node c) 1) as [[]|]; reflexivity.
Qed.

(** ** Nonces *)

(** The messages of a sender in a transaction, up to the first of another type. *)
Fixpoint sent_by (chainID : Z) (a : Address) (msgs : list tx_msg) : nat :=
  match msgs with
  | [] | OtherMsg :: _ => 0
  | EthMsg _ _ tx :: msgs =>
      (if bool_decide (Sender (LatestSignerForChainID chainID) tx = Some a) then 1 else 0) + sent_by chainID a msgs
  end%nat.

Lemma count_msgs_sent c a nonce msgs :
  in_u64 nonce → count_msgs c a nonce msgs = u64 (nonce + Z.of_nat (sent_by (nd_chainID (cn_node c)) a msgs)).
Proof.
  revert nonce. induction msgs as [|[hash gas tx|] msgs IH]; intros nonce Hn; cbn [count_msgs sent_by];
    [by rewrite Z.add_0_r, u64_small| |by rewrite Z.add_0_r, u64_small].
  case_bool_decide; rewrite IH by (done || apply u64_range); [|done]. rewrite u64_add_l. f_equal. lia.
Qed.

(** The pending nonce is the sequence of the account and one for each message of the
    sender in the pool. *)
Lemma pending_nonce c a height sequence txs :
  in_u64 sequence → cn_Account c a (ContextWithHeight height) = AccountSequence sequence →
  PendingTransactions (cn_node c) = Ok txs →
  getAccountNonce c a true height =
    Ok (u64 (sequence + Z.of_nat (sum_list_with (λ tx, sent_by (nd_chainID (cn_node c)) a (tx_Msgs tx)) txs))).
Proof.
  intros Hs Ha Hp. unfold getAccountNonce. rewrite Ha, Hp. cbn [negb]. f_equal. clear Ha Hp. revert sequence Hs.
  induction txs as [|tx txs IH]; intros sequence Hs; cbn [foldl sum_list_with]; [by rewrite Z.add_0_r, u64_small|].
  rewrite count_msgs_sent by done. rewrite IH by apply u64_range. rewrite u64_add_l. f_equal. lia.
Qed.
End Fees.

(** ** Rewards *)

Section Rewards.
Context `{SL : SorterLaws} (undefined : float64 → Z).

Abbreviation reward_le := (λ x y, gr_reward x <= gr_reward y).

Lemma advance_suffix threshold sum current rest :
  match advance threshold sum current rest with
  | (_, current', rest') => suffix (current' :: rest') (current :: rest)
  end.
Proof.
  revert sum current. induction rest as [|next rest IH]; intros sum current; cbn [advance]; [done|].
  destruct (sum <? threshold); [|done]. specialize (IH (u64 (sum + gr_gasUsed next)) next).
  destruct (advance _ _ _ _) as [[sum' current'] rest']. by apply suffix_cons_r.
Qed.

Lemma StronglySorted_suffix {A} (R : relation A) l k : suffix l k → StronglySorted R k → StronglySorted R l.
Proof. intros [m ->]. induction m as [|x m IH]; [done|]. cbn. intros Hs. apply IH. by inversion Hs. Qed.

Lemma reward_loop_sorted gas ps sum current rest :
  StronglySorted reward_le (current :: rest) →
  Sorted Z.le (reward_loop undefined gas ps sum current rest) ∧
  Forall (λ r, gr_reward current <= r ∧ ∃ x, x ∈ current :: rest ∧ gr_reward x = r)
    (reward_loop undefined gas ps sum current rest) ∧
  length (reward_loop undefined gas ps sum current rest) = length ps.
Proof.
  revert sum current rest. induction ps as [|p ps IH]; intros sum current rest Hs; cbn [reward_loop].
  { split; [constructor|]. by split; [constructor|]. }
  set (threshold := to_uint64 _ _). pose proof (advance_suffix threshold sum current rest) as Hsuf.
  destruct (advance threshold sum current rest) as [[sum' current'] rest'].
  destruct (IH sum' current' rest') as (Hs1 & Hf1 & Hl1); [by eapply StronglySorted_suffix|].
  assert (∀ x, x ∈ current' :: rest' → x ∈ current :: rest) as Hin.
  { intros x Hx. destruct Hsuf as [m ->]. by apply elem_of_app; right. }
  assert (gr_reward current <= gr_reward current') as Hle.
  { assert (current' ∈ current :: rest) as [->|Hc]%elem_of_cons by (apply Hin, list_elem_of_here); [done|].
    inversion_clear Hs as [|? ? _ Hall]. rewrite Forall_forall in Hall. by apply Hall. }
  split_and!.
  - constructor; [done|]. destruct (reward_loop _ _ _ _ _ _) as [|r l]; constructor.
    apply Forall_cons in Hf1 as [[? _] _]. done.
  - constructor; [split; [done|]; exists current'; split; [apply Hin, list_elem_of_here|done]|].
    eapply Forall_impl; [exact Hf1|]. intros r (Hr & x & Hx & <-). split; [lia|]. exists x. by split; [apply Hin|].
  - cbn. by rewrite Hl1.
Qed.

(** The rewards of a block are in increasing order, one for each percentile, and each
    is the tip of a transaction of the block; without transactions they are zero. *)
Lemma rewards_of_block sorter gas ps :
  Sorted Z.le (rewards_of undefined sorter gas ps) ∧ length (rewards_of undefined sorter gas ps) = length ps ∧
  ∀ r, r ∈ rewards_of undefined sorter gas ps → (sorter = [] ∧ r = 0) ∨ ∃ x, x ∈ sorter ∧ gr_reward x = r.
Proof.
  unfold rewards_of. pose proof (sort_permutes sorter) as Hp. pose proof (sort_sorts sorter) as Hs.
  destruct (sort_rewards sorter) as [|first rest].
  - apply Permutation_nil in Hp as ->. split; [|split; [apply length_replicate|]].
    + induction (length ps) as [|k IH]; cbn; [constructor|]. constructor; [done|]. by destruct k; constructor.
    + intros r Hr. left. by apply elem_of_replicate in Hr as [-> _].
  - assert (StronglySorted reward_le (first :: rest)) as Hss.
    { apply Sorted_StronglySorted; [|done]. intros x y z ? ?. cbn in *. lia. }
    destruct (reward_loop_sorted gas ps (gr_gasUsed first) first rest Hss) as (H1 & H2 & H3). split; [done|]. split; [done|].
    intros r Hr. rewrite Forall_forall in H2. destruct (H2 r Hr) as (_ & x & Hx & <-).
    right. exists x. by rewrite <-Hp.
Qed.
End Rewards.

(** ** Witnesses *)

Module ChainToy.
Import ZDec GethToy IndexToy FeeToy.

#[export] Instance toy_signers : Signers := {
  tx_Protected _ := true;
  tx_ChainId _ := 5438;
  Sender _ tx := Some (100 + eth_Nonce (eth_common_fields tx));
  CreateAddress a nonce := a + nonce;
  EffectiveGasTipValue _ _ := 0
}.

#[export] Instance toy_logs : LogCodec := { marshal_log _ := EmptyString; unmarshal_log _ := None }.

Definition toy_res (h : Z) : res_block := mkResBlock (mkHeader h [h] [] 1700000000 [3] [4] [5]) [] [h] 100.

(** A chain at height 5 with a base fee. *)
Definition toy_node (baseFee : Z) : node := {|
  nd_HeightHeader := Some ["5"%string];
  nd_Block h := Some (Some (toy_res h));
  nd_BlockByHash _ := None;
  nd_BlockResults h := Some (mkBlockResults h [] [] []);
  nd_TxSearch _ := None;
  nd_UnconfirmedTxs := Some [];
  nd_ConsensusMaxGas _ := Some 100;
  nd_BaseFee _ := Some (Some baseFee);
  nd_EvmParams := None;
  nd_ValidatorAccount _ _ := None;
  nd_indexer := None;
  nd_ClientChainID := "dhives_5438-1";
  nd_chainID := 5438;
  nd_FixRevertGasRefundHeight := 0
|}.

Definition toy_chain (baseFee : Z) : chain_node := {|
  cn_node := toy_node baseFee;
  cn_FeeParams := Some (GetParams (toy_fees 2));
  cn_MinGasPrice := 20;
  cn_FeeHistoryCap := 100;
  cn_GasCap := 25000000;
  cn_Account _ _ := AccountSequence 7;
  cn_Exists _ := true;
  cn_Balance _ _ := Some (Some 1000);
  cn_Code _ _ := Some [];
  cn_Storage _ _ _ := None;
  cn_EstimateGas _ _ _ height := Some (match height with Some h => 21000 + h | None => 99999 end)
|}.

Lemma suggested_price_covers_next_block_witness :
  ∃ price next, GasPrice (toy_chain 1000) = Ok price ∧ CalculateBaseFee toy_block (toy_fees 2) = Ok (Some next) ∧
    next <= price.
Proof.
  destruct (suggested_price_covers_next_block (toy_chain 1000) (EthHeaderFromTendermint (rb_Header (toy_res 5)) 0 (Some 1000))
              toy_block (toy_fees 2) 1000) as (price & next & H1 & H2 & H3 & _).
  - vm_compute. reflexivity.
  - reflexivity.
  - reflexivity.
  - split; vm_compute; (reflexivity || discriminate).
  - vm_compute. split; discriminate.
  - reflexivity.
  - reflexivity.
  - vm_compute. split; [discriminate|reflexivity].
  - exists price, next. split; [exact H1|]. split; [exact H2|exact H3].
Defined.

(** The price itself, and two base fees whose step is not covered: of a small one the
    step is zero, of a large one it wraps. *)
Example suggested_prices :
  GasPrice (toy_chain 1000) = Ok 1125 ∧ SuggestGasTipCap (toy_chain 7) (Some 7) = Ok 0 ∧
  SuggestGasTipCap (toy_chain 1000) (Some (2 ^ 63)) = Ok 0.
Proof. vm_compute. split_and!; reflexivity. Qed.

Definition toy_args : TransactionArgs :=
  mkTransactionArgs (Some 9) (Some 10) None None None (Some 30) None None None None None None.

(** The gas of the first block's state is used, at height 1. *)
Lemma defaults_complete_transaction_witness :
  let args := mkTransactionArgs (Some 9) (Some 10) (Some 21001) None (Some 2030) (Some 30) (Some 0) (Some 7) None None None
                (Some 5438) in
  SetTxDefaults (toy_chain 1000) toy_args = Ok args ∧ same_call toy_args args ∧
  ∀ gasCap baseFee, is_Some (ToMessage args gasCap baseFee).
Proof.
  intros args. assert (SetTxDefaults (toy_chain 1000) toy_args = Ok args) as Hrun by (vm_compute; reflexivity).
  split; [exact Hrun|].
  destruct (defaults_complete_transaction (toy_chain 1000) toy_args args Hrun) as (H1 & _ & _ & _ & _ & _ & _ & _ & _ & _ & _ & H2).
  split; [exact H1|exact H2].
Defined.

(** A block count above 2^63 becomes negative. *)
Example fee_history_panics undefined `{NextBaseFee} `{Sorter} :
  FeeHistory undefined (toy_chain 1000) (2 ^ 63) 5 [] = Panic.
Proof. reflexivity. Qed.
End ChainToy.
