(* ===== verification/EvmAnte.v ===== *)
(** * Admitting Ethereum transactions: [app/ante/evm], [app/ante/utils]

    [MonoDecorator.AnteHandle] checks the Ethereum messages of a transaction one by
    one, deducts the fee of each for its whole gas limit and increments the nonce of
    its sender.  The state is the multistore of the EVM module with the fee market's
    store; what comes from the SDK, from go-ethereum and from the block is
    [ante_env].  Events and logging are left out.  A message arrives decoded, so that
    empty call data is nil. *)

From S2P Require Import Prelude Sdk Dec AccessList StateDB EvmKeeper EvmTx GasMeter EvmApply FeeMarket.

Section EvmAnte.
Context `{EE : EvmEnv} `{GE : Geth} `{LD : LegacyDec}.

Record ante_env := mkAnteEnv {
  an_module : EvmModule;
  an_Protected : eth_tx → bool;
  an_Sender : eth_tx → option Address;
  an_AllowUnprotectedTxs : bool;
  (** [core.CanTransfer] on a balance and an amount *)
  an_CanTransfer : Z → Z → bool;
  (** [LockedCoins] at the block time, for an account that is a clawback vesting account *)
  an_LockedCoins : AccountI base other → option coins;
  an_IsEqual : coins → coins → bool;
  an_BondDenom : string;
  an_Delegations : chain → Address → list Z;
  an_WithdrawDelegationRewards : chain → Address → Z → outcome chain_error (coins * chain);
  an_maxGasWanted : Z;
  an_MempoolMinGasPrice : dec;
  an_PriorityReduction : Z;
  an_BlockHeight : Z;
  an_BlockGasMeter : option Z;
  an_ConsensusMaxGas : option Z;
  an_IsCheckTx : bool;
  an_IsReCheckTx : bool;
  an_simulate : bool
}.

Inductive ante_error :=
| AnteInvalidTx
| AnteInvalidRequest
| AnteInvalidBaseFee
| AnteInsufficientFee
| AnteCreateDisabled
| AnteCallDisabled
| AnteUnprotected
| AnteInvalidSigner
| AnteNotEOA
| AnteInsufficientFunds
| AnteUnknownAddress
| AnteInsufficientUnlocked
| AnteInvalidSequence
| AnteOutOfGas
| AnteTx (e : tx_error)
| AnteApply (e : apply_error)
| AnteChain (e : chain_error).

Abbreviation ante_result A := (outcome ante_error A).

Definition of_tx {A} (x : tx_result A) : ante_result A :=
  match x with Ok a => Ok a | Err e => Err (AnteTx e) | Panic => Panic end.
Definition of_apply {A} (x : outcome apply_error A) : ante_result A :=
  match x with Ok a => Ok a | Err e => Err (AnteApply e) | Panic => Panic end.
Definition of_sdk {A} (x : outcome chain_error A) : ante_result A :=
  match x with Ok a => Ok a | Err e => Err (AnteChain e) | Panic => Panic end.
Definition total {A} (x : partial A) : ante_result A :=
  match x with Ok a => Ok a | Err e => match e with end | Panic => Panic end.
Definition require (b : bool) (e : ante_error) : ante_result () := if b then Ok () else Err e.

(** ** The transaction

    [atx_msgs] has [None] for a message of another type, or one whose data does not
    unpack; [atx_basic] is what the SDK's [ValidateBasic] says, an error for the missing
    signatures counted as success. *)
Record ante_tx := mkAnteTx {
  atx_msgs : list (option MsgEthereumTx);
  atx_basic : bool;
  atx_Memo : string;
  atx_TimeoutHeight : Z;
  atx_NonCriticalExtensionOptions : nat;
  atx_ExtensionOptions : nat;
  atx_SignerInfos : nat;
  atx_FeeAmount : coins;
  atx_GasLimit : Z;
  atx_Payer : string;
  atx_Granter : string;
  atx_Signatures : nat
}.

Record ante_state := mkAnteState {
  as_store : evm_store;
  as_fees : fee_store;
  as_gasUsed : Z
}.

Definition set_store (s : evm_store) (st : ante_state) : ante_state :=
  mkAnteState s (as_fees st) (as_gasUsed st).

(** What the messages of one transaction add up to; the trackers of the expenses of
    vesting accounts are the total and the spendable value. *)
Record DecoratorUtils := mkDecoratorUtils {
  du_TxGasLimit : Z;
  du_GasWanted : Z;
  du_MinPriority : Z;
  du_TxFee : coins;
  du_expenses : gmap Address (Z * Z)
}.

Definition NewUtils : DecoratorUtils := mkDecoratorUtils 0 0 MaxInt64 NewCoins ∅.

Variable env : ante_env.

Definition an_rules : rules := ec_rules (k_config (an_module env)).
Definition an_BaseFee : option Z := ec_BaseFee (k_config (an_module env)).
Definition an_params : evm_params := ec_Params (k_config (an_module env)).

(** ** Checks on the transaction: [04_validate.go] *)

Definition ValidateTx (tx : ante_tx) : ante_result (coins * Z) :=
  if negb (atx_basic tx) then Err AnteInvalidTx
  else if negb (bool_decide (atx_Memo tx = EmptyString)) || negb (atx_TimeoutHeight tx =? 0)
          || (0 <? atx_NonCriticalExtensionOptions tx)%nat then Err AnteInvalidRequest
  else if negb (atx_ExtensionOptions tx =? 1)%nat then Err AnteInvalidRequest
  else if (0 <? atx_SignerInfos tx)%nat then Err AnteInvalidRequest
  else if negb (bool_decide (atx_Payer tx = EmptyString)) || negb (bool_decide (atx_Granter tx = EmptyString))
       then Err AnteInvalidRequest
  else if (0 <? atx_Signatures tx)%nat then Err AnteInvalidRequest
  else Ok (atx_FeeAmount tx, atx_GasLimit tx).

Definition CheckTxFee (txFeeInfo : option (coins * Z)) (txFee : coins) (txGasLimit : Z) : ante_result () :=
  match txFeeInfo with
  | None => Ok ()
  | Some (amount, gasLimit) =>
      _ ← require (an_IsEqual env amount txFee) AnteInvalidRequest;
      require (gasLimit =? txGasLimit) AnteInvalidRequest
  end.

Definition checkValidFrom (from : option Address) : ante_result () :=
  match from with Some _ => Err AnteInvalidRequest | None => Ok () end.

Definition checkDisabledCreateCall (txData : TxData) (enableCreate enableCall : bool) : ante_result () :=
  match GetData txData with
  | [] => Ok ()
  | _ =>
      if negb enableCreate && bool_decide (GetTo txData = None) then Err AnteCreateDisabled
      else if negb enableCall && negb (bool_decide (GetTo txData = None)) then Err AnteCallDisabled
      else Ok ()
  end.

Definition ValidateMsg (txData : TxData) (from : option Address) : ante_result () :=
  _ ← checkValidFrom from;
  checkDisabledCreateCall txData (ep_EnableCreate an_params) (ep_EnableCall an_params).

(** ** Fees: [02_mempool_fee.go], [03_global_fee.go] *)

Definition CheckMempoolFee (fee mempoolMinGasPrice gasLimit : dec) (isLondon : bool) : ante_result () :=
  if isLondon then Ok ()
  else
    requiredFee ← total (dec_Mul mempoolMinGasPrice gasLimit);
    require (negb (dec_GT requiredFee fee)) AnteInsufficientFee.

Definition CheckGlobalFee (fee globalMinGasPrice gasLimit : dec) : ante_result () :=
  if dec_IsZero globalMinGasPrice then Ok ()
  else
    requiredFee ← total (dec_Mul globalMinGasPrice gasLimit);
    require (negb (dec_GT requiredFee fee)) AnteInsufficientFee.

(** ** The sender: [05_signature_verification.go] to [07_can_transfer.go] *)

(** The sender, which is stored in the message. *)
Definition SignatureVerification (txData : TxData) : ante_result Address :=
  let ethTx := AsEthereumData txData in
  if negb (an_AllowUnprotectedTxs env) && negb (an_Protected env ethTx) then Err AnteUnprotected
  else match an_Sender env ethTx with
       | None => Err AnteInvalidSigner
       | Some sender => Ok sender
       end.

Definition VerifyAccountBalance (account : option Account) (from : Address) (txData : TxData) (s : evm_store) :
    ante_result evm_store :=
  match account with
  | Some acct =>
      if IsContract (vm_keccak (k_vm (an_module env))) acct then Err AnteNotEOA
      else
        balance ← deref (acc_Balance acct);
        balance ← NewIntFromBigInt balance;
        _ ← of_tx (CheckSenderBalance balance txData);
        Ok s
  | None =>
      let '(acc, c) := auth_NewAccountWithAddress (ek_chain s) from in
      let s := set_chain (auth_SetAccount c acc) s in
      _ ← of_tx (CheckSenderBalance 0 txData);
      Ok s
  end.

Definition CanTransfer (msg : Message) (s : evm_store) : ante_result () :=
  _ ← (if IsLondon an_rules then
         baseFee ← deref an_BaseFee;
         require (baseFee <=? m_GasFeeCap msg) AnteInsufficientFee
       else Ok ());
  let '(balance, _) := StateDB.GetBalance (vm_keccak (k_vm (an_module env))) s (m_From msg) (New (mkTxConfig 0 0 0 0)) in
  require (negb (0 <? m_Value msg) || an_CanTransfer env balance (m_Value msg)) AnteInsufficientFunds.

(** ** Vesting accounts: [08_vesting.go] *)

Definition UpdateAccountExpenses (expenses : gmap Address (Z * Z)) (address : Address) (locked : coins)
    (addedExpense : option Z) (s : evm_store) : ante_result (gmap Address (Z * Z)) :=
  match expenses !! address with
  | Some (tot, spendable) =>
      added ← deref addedExpense;
      Ok (<[address := (tot + added, spendable)]> expenses)
  | None =>
      let balance := bank_GetBalance (ek_chain s) address EvmDenom in
      if balance =? 0 then Err AnteInsufficientFunds
      else
        let spendable := balance - AmountOf locked EvmDenom in
        let spendableValue := if spendable <? 0 then 0 else spendable in
        added ← deref addedExpense;
        Ok (<[address := (added, spendableValue)]> expenses)
  end.

Definition CheckVesting (account : AccountI base other) (expenses : gmap Address (Z * Z))
    (addedExpense : option Z) (s : evm_store) : ante_result (gmap Address (Z * Z)) :=
  match an_LockedCoins env account with
  | None => Ok expenses
  | Some locked =>
      expenses ← UpdateAccountExpenses expenses (acct_address account) locked addedExpense s;
      match expenses !! acct_address account with
      | None => Panic
      | Some (tot, spendable) => _ ← require (tot <=? spendable) AnteInsufficientUnlocked; Ok expenses
      end
  end.

(** ** Staking rewards: [utils/claim_rewards.go]

    The loop withdraws from one delegation after the other until the rewards are
    enough, on a cached context. *)
Fixpoint claim_loop (addr : Address) (denom : string) (amount : Z) (vals : list Z) (rewards : coins) (c : chain) :
    ante_result (coins * chain) :=
  match vals with
  | [] => Ok (rewards, c)
  | val :: vals =>
      '(reward, c) ← of_sdk (an_WithdrawDelegationRewards env c addr val);
      let rewards := coins_Add rewards reward in
      if amount <=? AmountOf rewards denom then Ok (rewards, c)
      else claim_loop addr denom amount vals rewards c
  end.

Definition ClaimSufficientStakingRewards (addr : Address) (denom : string) (amount : Z) (s : evm_store) :
    ante_result evm_store :=
  '(rewards, c) ← claim_loop addr denom amount (an_Delegations env (ek_chain s) addr) NewCoins (ek_chain s);
  _ ← require (negb (AmountOf rewards denom <? amount)) AnteInsufficientFee;
  Ok (set_chain c s).

Definition ClaimStakingRewardsIfNecessary (addr : Address) (amount : coins) (s : evm_store) :
    ante_result evm_store :=
  let stakingDenom := an_BondDenom env in
  let amountInStakingDenom := AmountOf amount stakingDenom in
  if amountInStakingDenom =? 0 then Err AnteInsufficientFee
  else
    let balance := bank_GetBalance (ek_chain s) addr stakingDenom in
    if balance <? 0 then Err AnteInsufficientFunds
    else if amountInStakingDenom <=? balance then Ok s
    else ClaimSufficientStakingRewards addr stakingDenom (amountInStakingDenom - balance) s.

(** ** Fees and gas: [09_gas_consume.go] *)

Definition fee_coins (fees : list (string * Z)) : coins :=
  match fees with [] => NewCoins | (denom, amt) :: _ => NewCoin denom amt end.

Definition deductFees (fees : coins) (feePayer : Address) (s : evm_store) : ante_result evm_store :=
  if coins_IsZero fees then Ok s
  else
    s ← ClaimStakingRewardsIfNecessary feePayer fees s;
    of_apply (DeductTxCostsFromUserBalance (an_module env) fees feePayer s).

Definition UpdateComulativeGasWanted (msgGasWanted cumulativeGasWanted : Z) : Z :=
  if an_IsCheckTx env && negb (an_maxGasWanted env =? 0) then
    if an_maxGasWanted env <? msgGasWanted then u64 (cumulativeGasWanted + an_maxGasWanted env)
    else u64 (cumulativeGasWanted + msgGasWanted)
  else u64 (cumulativeGasWanted + msgGasWanted).

Definition GetMsgPriority (txData : TxData) (minPriority : Z) : ante_result Z :=
  priority ← of_tx (GetTxPriority (an_PriorityReduction env) txData an_BaseFee);
  Ok (if priority <? minPriority then priority else minPriority).

Definition UpdateCumulativeTxFee (cumulativeTxFee : coins) (msgFee : Z) : ante_result coins :=
  amt ← NewIntFromBigInt msgFee; Ok (coins_Add cumulativeTxFee (NewCoin EvmDenom amt)).

(** The gas meter of the execution, limited to the gas wanted. *)
Definition CheckBlockGasLimit (gasWanted : Z) : ante_result infiniteGasMeterWithLimit :=
  if BlockGasLimit (an_BlockGasMeter env) (an_ConsensusMaxGas env) <? gasWanted then Err AnteOutOfGas
  else Ok (NewInfiniteGasMeterWithLimit gasWanted).

(** ** Nonces and gas wanted: [10_increment_sequence.go], [11_gas_wanted.go] *)

Definition IncrementNonce (account : AccountI base other) (txNonce : Z) (s : evm_store) : ante_result evm_store :=
  let nonce := GetSequence account in
  if negb (txNonce =? nonce) then Err AnteInvalidSequence
  else
    account ← of_sdk (SetSequence (u64 (nonce + 1)) account);
    Ok (set_chain (auth_SetAccount (ek_chain s) account) s).

Definition CheckGasWanted (tx : ante_tx) (f : fee_store) : ante_result fee_store :=
  if negb (IsLondon an_rules) then Ok f
  else
    let gasWanted := atx_GasLimit tx in
    if BlockGasLimit (an_BlockGasMeter env) (an_ConsensusMaxGas env) <? gasWanted then Err AnteOutOfGas
    else if GetBaseFeeEnabled (an_BlockHeight env) f then Ok (AddTransientGasWanted gasWanted f).2
    else Ok f.

(** ** The decorator: [mono.go] *)

(** [SetupContext] resets the gas used of the transaction. *)
Definition SetupContext (st : ante_state) : ante_state := mkAnteState (as_store st) (as_fees st) 0.

(** The two checks of the fee: for inclusion in the mempool, and the global minimum. *)
Definition check_fees (txData : TxData) (f : fee_store) : ante_result () :=
  feeAmt ← of_tx (Fee txData);
  let gasLimit := LegacyNewDecFromInt (GetGas txData) in
  _ ← (if an_IsCheckTx env && negb (an_simulate env) then
         CheckMempoolFee (LegacyNewDecFromInt feeAmt) (an_MempoolMinGasPrice env) gasLimit (IsLondon an_rules)
       else Ok ());
  feeAmt ← (if (TxType txData =? 2) && negb (bool_decide (an_BaseFee = None))
            then of_tx (EffectiveFee txData an_BaseFee) else Ok feeAmt);
  CheckGlobalFee (LegacyNewDecFromInt feeAmt) (default LegacyZeroDec (fm_MinGasPrice (GetParams f))) gasLimit.

(** One round of the loop over the messages. *)
Definition ante_msg (tx : ante_tx) (msg : option MsgEthereumTx) (st : ante_state) (du : DecoratorUtils) :
    ante_result (ante_state * DecoratorUtils) :=
  match msg with
  | None => Err AnteInvalidTx
  | Some ethMsg =>
  match msg_Data ethMsg with
  | None => Err AnteInvalidTx
  | Some txData =>
      let from := if decide (msg_From ethMsg = EmptyString) then None else Some (HexToAddress (msg_From ethMsg)) in
      _ ← check_fees txData (as_fees st);
      _ ← ValidateMsg txData from;
      from ← SignatureVerification txData;
      let s := as_store st in
      s ← VerifyAccountBalance (EvmKeeper.GetAccount from s) from txData s;
      match vm_AsMessage (k_vm (an_module env)) (AsEthereumData txData) an_BaseFee with
      | None => Err AnteInvalidSigner
      | Some coreMsg =>
      _ ← CanTransfer coreMsg s;
      match auth_GetAccount (ek_chain s) from with
      | None => Err AnteUnknownAddress
      | Some acc =>
      expenses ← CheckVesting acc (du_expenses du) (GetValue txData) s;
      msgFees ← of_tx (VerifyFee txData EvmDenom an_BaseFee (IsHomestead an_rules) (IsIstanbul an_rules)
                         (an_IsCheckTx env));
      s ← deductFees (fee_coins msgFees) from s;
      let gasWanted := UpdateComulativeGasWanted (GetGas txData) (du_GasWanted du) in
      minPriority ← GetMsgPriority txData (du_MinPriority du);
      msgFee ← of_tx (Fee txData);
      txFee ← UpdateCumulativeTxFee (du_TxFee du) msgFee;
      s ← IncrementNonce acc (EvmTx.GetNonce txData) s;
      f ← CheckGasWanted tx (as_fees st);
      Ok (mkAnteState s f (as_gasUsed st),
          mkDecoratorUtils (u64 (du_TxGasLimit du + GetGas txData)) gasWanted minPriority txFee expenses)
      end
      end
  end
  end.

Fixpoint ante_msgs (tx : ante_tx) (msgs : list (option MsgEthereumTx)) (st : ante_state) (du : DecoratorUtils) :
    ante_result (ante_state * DecoratorUtils) :=
  match msgs with
  | [] => Ok (st, du)
  | msg :: msgs => '(st, du) ← ante_msg tx msg st du; ante_msgs tx msgs st du
  end.

(** The state after the transaction is admitted, its gas meter and its priority. *)
Definition AnteHandle (tx : ante_tx) (st : ante_state) :
    ante_result (ante_state * infiniteGasMeterWithLimit * Z) :=
  txFeeInfo ← (if an_IsReCheckTx env then Ok None else Some <$> ValidateTx tx);
  let st := SetupContext st in
  if IsLondon an_rules && bool_decide (an_BaseFee = None) then Err AnteInvalidBaseFee
  else
    '(st, du) ← ante_msgs tx (atx_msgs tx) st NewUtils;
    _ ← CheckTxFee txFeeInfo (du_TxFee du) (du_TxGasLimit du);
    m ← CheckBlockGasLimit (du_GasWanted du);
    Ok (st, m, du_MinPriority du).

End EvmAnte.
