(* ===== verification/EvmAnteSpec.v ===== *)
(** * Admitting Ethereum transactions: nonces, fees and gas wanted

    A transaction that was admitted once is never admitted again; an admitted one has
    prepaid every message's gas limit at its effective price; one whose execution fails
    has cost its sender a nonce and the gas that was used, from admission to refund; and
    what the fee market learns of the gas a transaction wants. *)

From S2P Require Import Prelude Sdk Dec AccessList StateDB Journal StateDBSpec Commit EvmKeeper EvmKeeperSpec EvmTx EvmTxSpec GasMeter EvmApply EvmApplySpec FeeMarket EvmAnte.

Section Ante.
Context `{CL : CoinsLaws} `{EE : !EvmEnv} `{EL : !EvmEnvLaws} `{GE : Geth} `{LD : LegacyDec} `{DL : !DecLaws}.

(** What the SDK calls of the decorator keep: withdrawing rewards changes no account
    there was and pays nothing to or from the fee collector. *)
Record ante_laws (env : ante_env) (collector : Address) : Prop := {
  law_ante_fees : fee_laws (an_module env) collector;
  law_Withdraw c a v r c' :
    an_WithdrawDelegationRewards env c a v = Ok (r, c') →
    kept_accounts c c' ∧ bank_GetBalance c' collector EvmDenom = bank_GetBalance c collector EvmDenom
}.

(** Sequences of existing accounts do not decrease. *)
Definition seq_le (c c' : chain) : Prop :=
  ∀ a x, auth_GetAccount c a = Some x →
    ∃ x', auth_GetAccount c' a = Some x' ∧ GetSequence x <= GetSequence x'.

#[global] Instance seq_le_preorder : PreOrder seq_le.
Proof.
  split.
  - intros c a x Hx. exists x. split; [done|lia].
  - intros c1 c2 c3 H12 H23 a x Hx. destruct (H12 a x Hx) as (y & Hy & Hxy).
    destruct (H23 a y Hy) as (z & Hz & Hyz). exists z. split; [done|lia].
Qed.

Lemma of_tx_inv {A} (x : tx_result A) (a : A) : of_tx x = Ok a → x = Ok a.
Proof. destruct x; naive_solver. Qed.
Lemma of_apply_inv {A} (x : outcome apply_error A) (a : A) : of_apply x = Ok a → x = Ok a.
Proof. destruct x; naive_solver. Qed.
Lemma of_sdk_inv {A} (x : outcome chain_error A) (a : A) : of_sdk x = Ok a → x = Ok a.
Proof. destruct x; naive_solver. Qed.
Lemma total_inv {A} (x : partial A) (a : A) : total x = Ok a → x = Ok a.
Proof. destruct x as [|[]|]; naive_solver. Qed.
Lemma require_inv b e u : require b e = Ok u → b = true.
Proof. by destruct b. Qed.

(** ** Effects on the chain *)

(** An account read from the chain, with another sequence, may be stored. *)
Lemma SetSequence_storable c a n x x' :
  auth_GetAccount c a = Some x → SetSequence n x = Ok x' → storable x' ∧ acct_address x' = a.
Proof.
  intros Hx Hs. pose proof (law_auth_address _ _ _ Hx) as Ha.
  destruct (SetSequence_inv _ _ _ Hs) as (_ & Hadr & _). split; [|congruence].
  intros He. destruct (law_module_account c) as [o Ho]. assert (x = OtherAccount o) as -> by congruence.
  cbn in Hs. destruct (other_SetSequence o n); simplify_eq/=. by eexists.
Qed.

Lemma IncrementNonce_spec c0 a x n s s' :
  auth_GetAccount c0 a = Some x → IncrementNonce x n s = Ok s' →
  GetSequence x = n ∧
  (∃ x', auth_GetAccount (ek_chain s') a = Some x' ∧ SetSequence (u64 (n + 1)) x = Ok x') ∧
  (∀ a', a' ≠ a → auth_GetAccount (ek_chain s') a' = auth_GetAccount (ek_chain s) a') ∧
  same_bank (ek_chain s) (ek_chain s') ∧ ek_storage s' = ek_storage s ∧ ek_code s' = ek_code s.
Proof.
  intros Hx Hi. unfold IncrementNonce in Hi. destruct (Z.eqb_spec n (GetSequence x)) as [->|]; [|done].
  cbn [negb] in Hi. apply bind_Ok_inv in Hi as (x' & Hs%of_sdk_inv & Hi). simplify_eq. cbn [ek_chain set_chain].
  destruct (SetSequence_storable _ _ _ _ _ Hx Hs) as [Hst Ha].
  split_and!; [done| | |apply law_auth_Set_bank..|done|done].
  - exists x'. rewrite law_auth_Set, Ha, decide_True by done. done.
  - intros a' Hne. rewrite law_auth_Set, Ha, decide_False by done. done.
Qed.

(** The balance of an account, zero when there is none. *)
Definition own_balance (a : Address) (s : evm_store) : Z :=
  match auth_GetAccount (ek_chain s) a with Some _ => bank_GetBalance (ek_chain s) a EvmDenom | None => 0 end.

(** Verification may create the account of the sender, and changes nothing else. *)
Lemma VerifyAccountBalance_spec env from td s s' :
  VerifyAccountBalance env (EvmKeeper.GetAccount from s) from td s = Ok s' →
  (is_Some (auth_GetAccount (ek_chain s) from) → s' = s) ∧
  CheckSenderBalance (own_balance from s) td = Ok () ∧
  (∀ a, a ≠ from → auth_GetAccount (ek_chain s') a = auth_GetAccount (ek_chain s) a) ∧
  same_bank (ek_chain s) (ek_chain s') ∧ ek_storage s' = ek_storage s ∧ ek_code s' = ek_code s.
Proof.
  rewrite GetAccount_alt. unfold own_balance.
  destruct (auth_GetAccount (ek_chain s) from) as [x|] eqn:Hx; cbn [fmap option_fmap option_map];
    unfold VerifyAccountBalance.
  - intros Hv. destruct (IsContract _ _); [done|]. cbn [acc_Balance deref] in Hv. rewrite Ok_bind in Hv.
    apply bind_Ok_inv in Hv as (bal & Hbal & Hv). apply bind_Ok_inv in Hv as ([] & Hck%of_tx_inv & Hv).
    unfold NewIntFromBigInt in Hbal. case_match; simplify_eq. done.
  - destruct (auth_NewAccountWithAddress (ek_chain s) from) as [x c] eqn:Hn.
    intros Hv. apply bind_Ok_inv in Hv as ([] & Hck%of_tx_inv & Hv). simplify_eq. cbn [ek_chain set_chain].
    destruct (law_auth_New _ _ _ _ Hn) as ((b & -> & Hb) & Ha & Hbk).
    assert (storable (EthAccount b EmptyCodeHash)) as Hst.
    { intros He. cbn in He. destruct (law_module_account (ek_chain s)) as [o Ho]. congruence. }
    assert (same_bank (ek_chain s) (auth_SetAccount c (EthAccount b EmptyCodeHash))).
    { destruct (law_auth_Set_bank c (EthAccount b EmptyCodeHash)) as [Hb1 Hb2]. destruct Hbk as [Hb3 Hb4].
      split; intros; [by rewrite Hb1, Hb3|by rewrite Hb2, Hb4]. }
    split; [by intros []|]. split; [done|]. split; [|done].
    intros a Hne. rewrite law_auth_Set by done. cbn [acct_address]. rewrite Hb, decide_False by done. apply Ha.
Qed.

Section Env.
Context (env : ante_env) (collector : Address).
Hypothesis laws : ante_laws env collector.

Lemma claim_loop_spec addr denom amount vals rewards c rewards' c' :
  claim_loop env addr denom amount vals rewards c = Ok (rewards', c') →
  kept_accounts c c' ∧ bank_GetBalance c' collector EvmDenom = bank_GetBalance c collector EvmDenom.
Proof using laws.
  revert rewards c. induction vals as [|v vals IH]; intros rewards c Hc; cbn [claim_loop] in Hc; [by simplify_eq|].
  apply bind_Ok_inv in Hc as ([r c1] & Hw%of_sdk_inv & Hc). apply (law_Withdraw _ _ laws) in Hw as [Ha Hb].
  destruct (_ <=? _); [by simplify_eq|]. destruct (IH _ _ Hc) as [Ha' Hb'].
  split; [by etransitivity|congruence].
Qed.

Lemma Claim_spec addr cs s s' :
  ClaimStakingRewardsIfNecessary env addr cs s = Ok s' →
  kept_accounts (ek_chain s) (ek_chain s') ∧
  bank_GetBalance (ek_chain s') collector EvmDenom = bank_GetBalance (ek_chain s) collector EvmDenom ∧
  ek_storage s' = ek_storage s ∧ ek_code s' = ek_code s.
Proof using laws.
  unfold ClaimStakingRewardsIfNecessary, ClaimSufficientStakingRewards. intros Hc. case_guards Hc; [by simplify_eq|].
  apply bind_Ok_inv in Hc as ([r c] & Hl & Hc). apply bind_Ok_inv in Hc as (_ & _ & Hc). simplify_eq.
  cbn [ek_chain set_chain ek_storage ek_code]. destruct (claim_loop_spec _ _ _ _ _ _ _ _ Hl). done.
Qed.

(** Nothing is claimed for a fee that the balance covers. *)
Lemma Claim_covered addr cs s s' :
  ClaimStakingRewardsIfNecessary env addr cs s = Ok s' →
  AmountOf cs (an_BondDenom env) ≠ 0 ∧
  (AmountOf cs (an_BondDenom env) <= bank_GetBalance (ek_chain s) addr (an_BondDenom env) → s' = s).
Proof using Type.
  unfold ClaimStakingRewardsIfNecessary. intros Hc. case_guards Hc.
  - simplify_eq. split; [by apply Z.eqb_neq|done].
  - split; [by apply Z.eqb_neq|lia].
Qed.

Lemma charged_coins n : 0 <= n →
  coins_valid (fee_coins (charged EvmDenom n)) ∧
  ∀ d, AmountOf (fee_coins (charged EvmDenom n)) d = if decide (d = EvmDenom) then n else 0.
Proof using CL.
  intros Hn. unfold charged. destruct (Z.eqb_spec n 0) as [->|]; cbn [fee_coins].
  - split; [apply NewCoins_valid|]. intros d. rewrite AmountOf_NewCoins. by case_decide.
  - split; [by apply NewCoin_valid|]. intros d. rewrite AmountOf_NewCoin by done.
    by destruct (decide (d = EvmDenom)), (decide (EvmDenom = d)); try congruence.
Qed.

(** [from] has paid [n] to the collector, and no other balance has changed. *)
Definition paid (n : Z) (from : Address) (c c' : chain) : Prop :=
  ∀ a d, bank_GetBalance c' a d = bank_GetBalance c a d +
    (if decide (d = EvmDenom) then
       (if decide (a = collector) then n else 0) - (if decide (a = from) then n else 0)
     else 0).

Lemma deductFees_kept cs from s s' :
  deductFees env cs from s = Ok s' →
  kept_accounts (ek_chain s) (ek_chain s') ∧ ek_storage s' = ek_storage s ∧ ek_code s' = ek_code s.
Proof using laws.
  unfold deductFees. destruct (coins_IsZero cs); [by intros [= <-]|]. intros Hd.
  apply bind_Ok_inv in Hd as (s1 & Hc & Hd%of_apply_inv). apply Claim_spec in Hc as (Hk & _ & Hst & Hco).
  unfold DeductTxCostsFromUserBalance in Hd. destruct (fb_GetSignerAcc _ _ _); [|done].
  destruct (fb_DeductFees _ _ _ _) as [c| |] eqn:Hf; simplify_eq.
  apply (law_DeductFees _ _ (law_ante_fees _ _ laws)) in Hf as [_ Hsa].
  split; [|done]. intros a x Hx. cbn [ek_chain set_chain]. rewrite Hsa. by apply Hk.
Qed.

Lemma deductFees_paid n from s s' :
  0 <= n → n = 0 ∨ n <= bank_GetBalance (ek_chain s) from EvmDenom →
  deductFees env (fee_coins (charged EvmDenom n)) from s = Ok s' →
  paid n from (ek_chain s) (ek_chain s') ∧ same_accounts (ek_chain s) (ek_chain s').
Proof using laws CL.
  intros Hn Hcov Hd. destruct (charged_coins n Hn) as [Hcs Hamt]. unfold deductFees in Hd.
  destruct (coins_IsZero _) eqn:Hz.
  { simplify_eq. assert (n = 0) as ->.
    { rewrite <-(proj1 (IsZero_spec _ Hcs) Hz EvmDenom), Hamt, decide_True; done. }
    split; [|done]. intros a d. repeat case_decide; lia. }
  apply bind_Ok_inv in Hd as (s1 & Hc & Hd%of_apply_inv). apply Claim_covered in Hc as (Hnz & Hno).
  assert (an_BondDenom env = EvmDenom) as Hbond by (rewrite Hamt in Hnz; by case_decide).
  rewrite Hbond, Hamt, decide_True in Hno, Hnz by done. rewrite Hno in Hd by lia.
  unfold DeductTxCostsFromUserBalance in Hd. destruct (fb_GetSignerAcc _ _ _); [|done].
  destruct (fb_DeductFees _ _ _ _) as [c| |] eqn:Hf; simplify_eq. cbn [ek_chain set_chain].
  apply (law_DeductFees _ _ (law_ante_fees _ _ laws)) in Hf as [[Hbal _] Hsa].
  split; [|done]. intros a d. rewrite Hbal, Hamt. repeat case_decide; lia.
Qed.

(** ** One message *)

(** What an admitted message has done: [fees] is what its sender was charged. *)
Record admitted (tx : ante_tx) (td : TxData) (from : Address) (fees : list (string * Z)) (st st' : ante_state) : Prop := {
  adm_sender : an_Sender env (AsEthereumData td) = Some from;
  adm_nonce x : auth_GetAccount (ek_chain (as_store st)) from = Some x → GetSequence x = EvmTx.GetNonce td;
  adm_seq : ∃ x', auth_GetAccount (ek_chain (as_store st')) from = Some x' ∧
    GetSequence x' = u64 (EvmTx.GetNonce td + 1) ∧
    ∀ x, auth_GetAccount (ek_chain (as_store st)) from = Some x → SetSequence (u64 (EvmTx.GetNonce td + 1)) x = Ok x';
  adm_frame : ek_storage (as_store st') = ek_storage (as_store st) ∧ ek_code (as_store st') = ek_code (as_store st);
  adm_others a x : a ≠ from → auth_GetAccount (ek_chain (as_store st)) a = Some x →
    auth_GetAccount (ek_chain (as_store st')) a = Some x;
  adm_check : check_fees env td (as_fees st) = Ok ();
  adm_fees : VerifyFee td EvmDenom (an_BaseFee env) (IsHomestead (an_rules env)) (IsIstanbul (an_rules env))
               (an_IsCheckTx env) = Ok fees;
  adm_covered : CheckSenderBalance (own_balance from (as_store st)) td = Ok ();
  adm_paid n : fees = charged EvmDenom n → 0 <= n → n <= own_balance from (as_store st) →
    paid n from (ek_chain (as_store st)) (ek_chain (as_store st')) ∧
    ∀ a, a ≠ from → auth_GetAccount (ek_chain (as_store st')) a = auth_GetAccount (ek_chain (as_store st)) a;
  adm_wanted : CheckGasWanted env tx (as_fees st) = Ok (as_fees st')
}.

Lemma ante_msg_admitted tx msg st du st' du' :
  ante_msg env tx msg st du = Ok (st', du') →
  ∃ m td from fees, msg = Some m ∧ msg_Data m = Some td ∧ admitted tx td from fees st st'.
Proof using laws CL EL.
  unfold ante_msg. intros Ha. destruct msg as [m|]; [|done]. destruct (msg_Data m) as [td|] eqn:Hm; [|done].
  apply bind_Ok_inv in Ha as ([] & Hcf & Ha). apply bind_Ok_inv in Ha as ([] & _ & Ha).
  apply bind_Ok_inv in Ha as (from & Hfrom & Ha). apply bind_Ok_inv in Ha as (s1 & Hs1 & Ha).
  destruct (vm_AsMessage _ _ _) as [core|]; [|done]. apply bind_Ok_inv in Ha as ([] & _ & Ha).
  destruct (auth_GetAccount (ek_chain s1) from) as [x|] eqn:Hx; [|done].
  apply bind_Ok_inv in Ha as (exp & _ & Ha). apply bind_Ok_inv in Ha as (fees & Hfees%of_tx_inv & Ha).
  apply bind_Ok_inv in Ha as (s2 & Hd & Ha). apply bind_Ok_inv in Ha as (prio & _ & Ha).
  apply bind_Ok_inv in Ha as (mf & _ & Ha). apply bind_Ok_inv in Ha as (tf & _ & Ha).
  apply bind_Ok_inv in Ha as (s3 & Hi & Ha). apply bind_Ok_inv in Ha as (f & Hw & Ha). simplify_eq.
  destruct (deductFees_kept _ _ _ _ Hd) as (Hk & Hst2 & Hco2).
  apply VerifyAccountBalance_spec in Hs1 as (Hsame & Hck & Hoth & [Hbk1 _] & Hst1 & Hco1).
  destruct (IncrementNonce_spec _ _ _ _ _ _ Hx Hi) as (Hseq & (x' & Hx' & Hset) & Hoth3 & [Hbk3 _] & Hst3 & Hco3).
  exists m, td, from, fees. split_and!; [done|done|]. split; cbn [as_store as_fees]; try done.
  - unfold SignatureVerification in Hfrom. case_guards Hfrom. congruence.
  - intros y Hy. rewrite Hsame in Hx by (by eexists). congruence.
  - exists x'. destruct (SetSequence_inv _ _ _ Hset) as (Hn & _ & _). split_and!; [done|done|].
    intros y Hy. rewrite Hsame in Hx by (by eexists). congruence.
  - split; congruence.
  - intros a y Hne Hy. rewrite Hoth3 by done. apply Hk. by rewrite Hoth.
  - intros n -> Hn Hle. destruct (deductFees_paid n from s1 s2 Hn) as [Hp Hex]; [|done|].
    { rewrite Hbk1. unfold own_balance in Hle. case_match; lia. }
    split; [intros a d; by rewrite Hbk3, Hp, Hbk1|intros a Hne; by rewrite Hoth3, Hex, Hoth].
Qed.

(** The messages of an admitted transaction. *)
Definition tx_datas (msgs : list (option MsgEthereumTx)) : list TxData := omap (λ m, m ≫= msg_Data) msgs.

(** Sequences only grow while the nonces stay below the largest one. *)
Lemma admitted_seq_le tx td from fees st st' :
  admitted tx td from fees st st' → 0 <= EvmTx.GetNonce td < MaxUint64 →
  seq_le (ek_chain (as_store st)) (ek_chain (as_store st')) ∧
  ∃ x', auth_GetAccount (ek_chain (as_store st')) from = Some x' ∧ EvmTx.GetNonce td < GetSequence x'.
Proof using Type.
  intros [Hs Hn (x' & Hx' & Hq & _) _ Ho _ _ _ _ _] Hr. unfold MaxUint64 in Hr.
  rewrite u64_small in Hq by (unfold in_u64; lia). split; [|exists x'; split; [done|lia]].
  intros a x Hx. destruct (decide (a = from)) as [->|Hne].
  - exists x'. split; [done|]. rewrite (Hn x Hx), Hq. lia.
  - exists x. split; [by apply Ho|lia].
Qed.

Lemma ante_msgs_seq_le tx msgs st du st' du' :
  ante_msgs env tx msgs st du = Ok (st', du') →
  Forall (λ td, 0 <= EvmTx.GetNonce td < MaxUint64) (tx_datas msgs) →
  seq_le (ek_chain (as_store st)) (ek_chain (as_store st')).
Proof using laws CL EL.
  revert st du. induction msgs as [|msg msgs IH]; intros st du Ha Hn; cbn [ante_msgs] in Ha; [by simplify_eq|].
  apply bind_Ok_inv in Ha as ([st1 du1] & H1 & Ha).
  destruct (ante_msg_admitted _ _ _ _ _ _ H1) as (m & td & from & fees & -> & Hm & Hadm).
  unfold tx_datas in Hn. cbn [omap list_omap] in Hn. cbn [mbind option_bind] in Hn. rewrite Hm in Hn.
  apply Forall_cons in Hn as [Hn1 Hn]. destruct (admitted_seq_le _ _ _ _ _ _ Hadm Hn1) as [Hle _].
  etransitivity; [exact Hle|]. by eapply IH.
Qed.

Lemma AnteHandle_inv tx st st' m p :
  AnteHandle env tx st = Ok (st', m, p) →
  ∃ du, ante_msgs env tx (atx_msgs tx) (SetupContext st) NewUtils = Ok (st', du) ∧
    (an_IsReCheckTx env = false → atx_GasLimit tx = du_TxGasLimit du).
Proof using Type.
  unfold AnteHandle. intros Ha. apply bind_Ok_inv in Ha as (info & Hinfo & Ha). destruct (_ && _); [done|].
  apply bind_Ok_inv in Ha as ([st1 du] & Hms & Ha). apply bind_Ok_inv in Ha as ([] & Hfee & Ha).
  apply bind_Ok_inv in Ha as (m1 & _ & Ha). simplify_eq. exists du. split; [done|].
  intros Hr. rewrite Hr in Hinfo. destruct (ValidateTx tx) as [[amt gl]| |] eqn:Hv; cbn in Hinfo; simplify_eq.
  unfold ValidateTx in Hv. case_guards Hv. simplify_eq. cbn [CheckTxFee] in Hfee.
  apply bind_Ok_inv in Hfee as ([] & _ & Hfee%require_inv). by apply Z.eqb_eq.
Qed.

(** ** What the messages add up to *)

Definition paid_total (b : Z) (tds : list TxData) : Z := foldr (λ td n, price_at b td * GetGas td + n) 0 tds.
(** What account [a] is charged, as the sender of some of the messages. *)
Definition debit (b : Z) (tds : list TxData) (a : Address) : Z :=
  foldr (λ td n, (if decide (an_Sender env (AsEthereumData td) = Some a) then price_at b td * GetGas td else 0) + n)
    0 tds.
Definition gas_total (tds : list TxData) : Z := foldr (λ td n, GetGas td + n) 0 tds.

(** The least price the fee market asks for, in units of 10^-18. *)
Definition min_price (f : fee_store) : Z := raw (default LegacyZeroDec (fm_MinGasPrice (GetParams f))).

Lemma CheckGasWanted_params tx f f' : CheckGasWanted env tx f = Ok f' → GetParams f' = GetParams f.
Proof using Type. unfold CheckGasWanted. intros Hc. case_guards Hc; by simplify_eq. Qed.

Lemma check_fees_min td f b :
  an_BaseFee env = Some b → EffectiveGasPrice td (Some b) = Ok (Some (price_at b td)) →
  0 <= price_at b td * GetGas td →
  check_fees env td f = Ok () → min_price f * GetGas td <= price_at b td * GetGas td * dec_one.
Proof using DL.
  intros Hb Hp Hpos Hc. unfold check_fees in Hc. apply bind_Ok_inv in Hc as (fee0 & Hfee0%of_tx_inv & Hc).
  apply bind_Ok_inv in Hc as (_ & _ & Hc). apply bind_Ok_inv in Hc as (fee1 & Hfee1 & Hc).
  assert (fee1 = price_at b td * GetGas td) as ->.
  { rewrite Hb in Hfee1. pose proof (EffectiveFee_price _ _ _ Hp) as He.
    destruct td; cbn [TxType Z.eqb andb negb] in Hfee1; cbn [EffectiveFee] in He.
    - cbn in Hfee1. congruence.
    - cbn in Hfee1. congruence.
    - cbn in Hfee1. rewrite Hp in He. apply of_tx_inv in Hfee1. cbn in Hfee1. cbn in Hp. congruence. }
  unfold CheckGlobalFee in Hc. unfold min_price. set (mp := default _ _) in *.
  rewrite dec_IsZero_spec in Hc. destruct (Z.eqb_spec (raw mp) 0) as [Hz|Hz].
  { rewrite Hz. unfold dec_one. lia. }
  apply bind_Ok_inv in Hc as (rq & Hrq%total_inv & Hc%require_inv). rewrite GT_spec in Hc.
  apply Mul_inv in Hrq. rewrite !raw_FromInt in *.
  replace (raw mp * (GetGas td * dec_one)) with (raw mp * GetGas td * dec_one) in Hrq by lia.
  apply rounds_exact in Hrq; [|unfold dec_one; lia]. rewrite Hrq in Hc.
  destruct (Z.ltb_spec (price_at b td * GetGas td * dec_one) (raw mp * GetGas td)); [done|lia].
Qed.

(** A transaction data that baseapp's [ValidateBasic] let through, from another sender
    than the fee collector. *)
Definition sound_td (td : TxData) : Prop :=
  Validate td = Ok () ∧ 0 <= GetGas td ∧ an_Sender env (AsEthereumData td) ≠ Some collector.

(** The sender of an admitted message had the fee, so no rewards were claimed for it. *)
Lemma admitted_prepaid b tx td from fees st st' :
  admitted tx td from fees st st' → sound_td td → an_BaseFee env = Some b → 0 <= b →
  let n := price_at b td * GetGas td in
  0 <= n ∧ b <= price_at b td ∧ min_price (as_fees st) * GetGas td <= n * dec_one ∧
  paid n from (ek_chain (as_store st)) (ek_chain (as_store st')) ∧
  ∀ a, a ≠ from → auth_GetAccount (ek_chain (as_store st')) a = auth_GetAccount (ek_chain (as_store st)) a.
Proof using CL DL.
  intros [Hs _ _ _ _ Hck Hf Hcov Hpaid _] (Hv & Hg & Hne) Hbf Hb n. rewrite Hbf in Hf.
  destruct (admitted_tx_pays _ _ _ _ _ _ _ _ _ Hv Hg Hb Hf Hcov)
    as (cap & tip & price & Hcap & Htip & Hp & Hpr & Hle & -> & Hbal).
  assert (price = price_at b td) as -> by (unfold price_at; by rewrite Hcap, Htip).
  assert (0 <= n) as Hpos by (apply Z.mul_nonneg_nonneg; lia).
  assert (0 <= default 0 (GetValue td)) as Hval.
  { destruct (GetValue td) as [v|] eqn:Hgv; [|done]. apply (valid_value _ (Validate_valid _ _ Hv)) in Hgv. cbn. lia. }
  destruct (Hpaid n eq_refl Hpos ltac:(lia)) as [Hpd Hacc]. split_and!; try done; [lia|by eapply check_fees_min].
Qed.

(** The fees have gone from the senders to the collector. *)
Definition prepaid (b : Z) (tds : list TxData) (c c' : chain) : Prop :=
  ∀ a d, bank_GetBalance c' a d = bank_GetBalance c a d +
    (if decide (d = EvmDenom) then (if decide (a = collector) then paid_total b tds else 0) - debit b tds a else 0).

Lemma prepaid_cons b td from tds c c1 c' :
  an_Sender env (AsEthereumData td) = Some from → paid (price_at b td * GetGas td) from c c1 →
  prepaid b tds c1 c' → prepaid b (td :: tds) c c'.
Proof using Type.
  intros Hs Hp Hps a d. rewrite Hps, Hp. unfold paid_total, debit. cbn [foldr]. rewrite Hs.
  repeat case_decide; try congruence; lia.
Qed.

Lemma debit_collector b tds : Forall sound_td tds → debit b tds collector = 0.
Proof using Type.
  unfold debit. induction 1 as [|td tds (_ & _ & Hne) _ IH]; cbn [foldr]; [done|]. by rewrite IH, decide_False.
Qed.

Lemma ante_msgs_prepaid b tx msgs st du st' du' :
  an_BaseFee env = Some b → 0 <= b → Forall sound_td (tx_datas msgs) →
  ante_msgs env tx msgs st du = Ok (st', du') →
  Forall (λ td, b <= price_at b td ∧
                min_price (as_fees st) * GetGas td <= price_at b td * GetGas td * dec_one) (tx_datas msgs) ∧
  prepaid b (tx_datas msgs) (ek_chain (as_store st)) (ek_chain (as_store st')).
Proof using laws CL DL EL.
  intros Hbf Hb. revert st du. induction msgs as [|msg msgs IH]; intros st du Hs Ha; cbn [ante_msgs] in Ha.
  { simplify_eq. split; [constructor|]. intros a d. cbn. repeat case_decide; lia. }
  apply bind_Ok_inv in Ha as ([st1 du1] & H1 & Ha).
  destruct (ante_msg_admitted _ _ _ _ _ _ H1) as (m & td & from & fees & -> & Hm & Hadm).
  assert (tx_datas (Some m :: msgs) = td :: tx_datas msgs) as Htd by (unfold tx_datas; cbn; by rewrite Hm).
  rewrite Htd in Hs |- *. apply Forall_cons in Hs as [Hs1 Hs].
  destruct (admitted_prepaid _ _ _ _ _ _ _ Hadm Hs1 Hbf Hb) as (_ & Hpr & Hmin & Hpaid & _).
  destruct (IH _ _ Hs Ha) as [Hall Hpre]. split.
  - constructor; [done|]. unfold min_price in *.
    by rewrite (CheckGasWanted_params _ _ _ (adm_wanted _ _ _ _ _ _ Hadm)) in Hall.
  - eapply prepaid_cons; [by eapply adm_sender|done..].
Qed.

Lemma CheckGasWanted_adds tx f f' :
  IsLondon (an_rules env) = true → GetBaseFeeEnabled (an_BlockHeight env) f = true →
  CheckGasWanted env tx f = Ok f' →
  GetTransientGasWanted f' = u64 (GetTransientGasWanted f + atx_GasLimit tx) ∧
  GetBaseFeeEnabled (an_BlockHeight env) f' = true.
Proof using Type.
  intros HL Hen Hc. unfold CheckGasWanted in Hc. rewrite HL, Hen in Hc. cbn [negb] in Hc. case_guards Hc.
  by simplify_eq.
Qed.

Lemma ante_msgs_wanted tx msgs st du st' du' :
  IsLondon (an_rules env) = true → GetBaseFeeEnabled (an_BlockHeight env) (as_fees st) = true →
  0 <= atx_GasLimit tx → 0 <= GetTransientGasWanted (as_fees st) →
  GetTransientGasWanted (as_fees st) + Z.of_nat (length msgs) * atx_GasLimit tx < 2 ^ 64 →
  ante_msgs env tx msgs st du = Ok (st', du') →
  GetTransientGasWanted (as_fees st') =
    GetTransientGasWanted (as_fees st) + Z.of_nat (length msgs) * atx_GasLimit tx.
Proof using laws CL EL.
  intros HL Hen Hg. revert st du Hen. induction msgs as [|msg msgs IH]; intros st du Hen H0g Hlt Ha;
    cbn [ante_msgs length] in *; [simplify_eq; lia|].
  apply bind_Ok_inv in Ha as ([st1 du1] & H1 & Ha).
  destruct (ante_msg_admitted _ _ _ _ _ _ H1) as (m & td & from & fees & -> & Hm & Hadm).
  destruct (CheckGasWanted_adds _ _ _ HL Hen (adm_wanted _ _ _ _ _ _ Hadm)) as [Hw Hen'].
  rewrite u64_small in Hw by (unfold in_u64; nia).
  rewrite (IH _ _ Hen' ltac:(lia) ltac:(lia) Ha). lia.
Qed.

Lemma ante_msg_gas tx msg st du st' du' td :
  ante_msg env tx msg st du = Ok (st', du') → msg ≫= msg_Data = Some td →
  du_TxGasLimit du' = u64 (du_TxGasLimit du + GetGas td).
Proof using Type.
  unfold ante_msg. intros Ha Htd. destruct msg as [m|]; [|done]. cbn in Htd. rewrite Htd in Ha.
  do 4 (apply bind_Ok_inv in Ha as (? & _ & Ha)). destruct (vm_AsMessage _ _ _); [|done].
  apply bind_Ok_inv in Ha as (? & _ & Ha). destruct (auth_GetAccount _ _); [|done].
  do 8 (apply bind_Ok_inv in Ha as (? & _ & Ha)). by simplify_eq.
Qed.

Lemma ante_msgs_gas tx msgs st du st' du' :
  ante_msgs env tx msgs st du = Ok (st', du') →
  u64 (du_TxGasLimit du') = u64 (du_TxGasLimit du + gas_total (tx_datas msgs)).
Proof using laws CL EL.
  revert st du. induction msgs as [|msg msgs IH]; intros st du Ha; cbn [ante_msgs] in Ha.
  { simplify_eq. cbn. by rewrite Z.add_0_r. }
  apply bind_Ok_inv in Ha as ([st1 du1] & H1 & Ha).
  destruct (ante_msg_admitted _ _ _ _ _ _ H1) as (m & td & from & fees & -> & Hm & _).
  assert (tx_datas (Some m :: msgs) = td :: tx_datas msgs) as -> by (unfold tx_datas; cbn; by rewrite Hm).
  rewrite (IH _ _ Ha), (ante_msg_gas _ _ _ _ _ _ td H1) by done. cbn [gas_total foldr]. unfold gas_total, u64.
  rewrite Zplus_mod_idemp_l. f_equal. lia.
Qed.

End Env.

(** C6.  No transaction is admitted twice.  After an Ethereum transaction with at
    least one message has passed, in whatever block and under whatever fees, it does
    not pass again on any later state, however it came about, as long as the
    sequences of existing accounts have not decreased.  (The nonces are below the
    largest 64-bit number, which EIP-2681 reserves.) *)
Theorem ante_rejects_replay env env' collector tx st st' m p st2 r :
  ante_laws env collector → ante_laws env' collector → (∀ e, an_Sender env' e = an_Sender env e) →
  atx_msgs tx ≠ [] → Forall (λ td, 0 <= EvmTx.GetNonce td < MaxUint64) (tx_datas (atx_msgs tx)) →
  AnteHandle env tx st = Ok (st', m, p) →
  seq_le (ek_chain (as_store st')) (ek_chain (as_store st2)) →
  AnteHandle env' tx st2 ≠ Ok r.
Proof.
  intros L L' Hsnd Hne Hn Ha Hle Hr. destruct r as [[st3 m3] p3].
  apply AnteHandle_inv in Ha as (du & Ha & _). apply AnteHandle_inv in Hr as (du3 & Hr & _).
  destruct (atx_msgs tx) as [|msg msgs]; [done|]. cbn [ante_msgs] in Ha, Hr.
  apply bind_Ok_inv in Ha as ([st1 du1] & H1 & Ha). apply bind_Ok_inv in Hr as ([st4 du4] & H4 & _).
  destruct (ante_msg_admitted _ _ L _ _ _ _ _ _ H1) as (m1 & td & from & fees & -> & Hm & Hadm).
  destruct (ante_msg_admitted _ _ L' _ _ _ _ _ _ H4) as (m2 & td2 & from2 & fees2 & [= <-] & Hm2 & Hadm2).
  assert (td2 = td) as -> by congruence.
  unfold tx_datas in Hn. cbn in Hn. rewrite Hm in Hn. apply Forall_cons in Hn as [Hn1 Hn].
  destruct (admitted_seq_le _ _ _ _ _ _ _ _ Hadm Hn1) as (_ & x' & Hx' & Hlt).
  destruct (ante_msgs_seq_le _ _ L _ _ _ _ _ _ Ha Hn from x' Hx') as (y & Hy & Hxy).
  destruct (Hle from y Hy) as (z & Hz & Hyz).
  assert (from2 = from) as ->.
  { pose proof (adm_sender _ _ _ _ _ _ _ _ Hadm). pose proof (adm_sender _ _ _ _ _ _ _ _ Hadm2).
    rewrite Hsnd in *. congruence. }
  pose proof (adm_nonce _ _ _ _ _ _ _ _ Hadm2 z Hz). lia.
Qed.

(** C7.  An admitted transaction is prepaid.  At a base fee [b] the fee collector
    has received, for every message, its whole gas limit at the effective price
    min (b + tip, fee cap); this price is no lower than the base fee, and the fee no
    lower than the minimum gas price of the fee market asks for that gas.  Every sender
    has paid what its own messages are charged, and no other balance has changed: since
    a sender has to have the fee, its staking rewards are never claimed for it. *)
Theorem ante_prepays env collector b tx st st' m p :
  ante_laws env collector → an_BaseFee env = Some b → 0 <= b →
  Forall (sound_td env collector) (tx_datas (atx_msgs tx)) →
  AnteHandle env tx st = Ok (st', m, p) →
  let tds := tx_datas (atx_msgs tx) in
  let c := ek_chain (as_store st) in
  let c' := ek_chain (as_store st') in
  bank_GetBalance c' collector EvmDenom = bank_GetBalance c collector EvmDenom + paid_total b tds ∧
  (∀ a, a ≠ collector → bank_GetBalance c' a EvmDenom = bank_GetBalance c a EvmDenom - debit env b tds a) ∧
  (∀ a d, d ≠ EvmDenom → bank_GetBalance c' a d = bank_GetBalance c a d) ∧
  Forall (λ td, b <= price_at b td ∧
                min_price (as_fees st) * GetGas td <= price_at b td * GetGas td * dec_one) tds.
Proof.
  intros L Hbf Hb Hs (du & Ha & _)%AnteHandle_inv tds c c'.
  destruct (ante_msgs_prepaid _ _ L _ _ _ _ _ _ _ Hbf Hb Hs Ha) as [Hall Hp].
  subst tds c c'. cbn [as_store SetupContext] in Hp. pose proof (debit_collector _ _ b _ Hs) as Hd. split_and!; [| | |done].
  - rewrite (Hp collector EvmDenom), Hd, !decide_True by done. lia.
  - intros a Hne. rewrite (Hp a EvmDenom), decide_True, decide_False by done. lia.
  - intros a d Hne. rewrite (Hp a d), decide_False by done. lia.
Qed.

(** What go-ethereum's [AsMessage] takes from a transaction with valid data: the sender
    its signature gives, its gas limit and, at a base fee, the effective gas price. *)
Definition message_laws (env : ante_env) : Prop :=
  ∀ td b msg, Validate td = Ok () → 0 <= b →
    vm_AsMessage (k_vm (an_module env)) (AsEthereumData td) (Some b) = Some msg →
    an_Sender env (AsEthereumData td) = Some (m_From msg) ∧ m_Gas msg = GetGas td ∧ m_GasPrice msg = price_at b td.

(** C5.  A failed transaction costs its gas and nothing else.  A transaction with one
    message is admitted, and its message is executed on the state that leaves.  When it
    fails, in the machine or in the hooks, contract storage, code and the other accounts
    are those before it was admitted; the
    account of the sender has the next nonce and is the same otherwise; and so are all
    balances but two: the sender has paid the fee collector the gas used times the
    effective gas price. *)
Theorem failed_tx_pays_gas env collector hook b tx m td from st st1 meter prio ctx res ctx' :
  ante_laws env collector → vm_laws (an_module env) → message_laws env →
  k_hooks (an_module env) = Some hook → 0 <= raw (k_minGasMultiplier (an_module env)) <= dec_one →
  an_BaseFee env = Some b → 0 <= b →
  atx_msgs tx = [Some m] → msg_Data m = Some td → sound_td env collector td → GetGas td < 2 ^ 63 →
  an_Sender env (AsEthereumData td) = Some from →
  AnteHandle env tx st = Ok (st1, meter, prio) →
  ctx_store ctx = as_store st1 → EthereumTx (an_module env) ctx td = TxOk res ctx' → Failed res = true →
  let s := as_store st in
  let s' := ctx_store ctx' in
  let paid := res_GasUsed res * price_at b td in
  ek_storage s' = ek_storage s ∧ ek_code s' = ek_code s ∧
  (∀ a, a ≠ from → auth_GetAccount (ek_chain s') a = auth_GetAccount (ek_chain s) a) ∧
  (∃ x', auth_GetAccount (ek_chain s') from = Some x' ∧ GetSequence x' = u64 (EvmTx.GetNonce td + 1) ∧
     ∀ x, auth_GetAccount (ek_chain s) from = Some x → SetSequence (u64 (EvmTx.GetNonce td + 1)) x = Ok x') ∧
  0 <= res_GasUsed res <= GetGas td ∧
  ∀ a d, bank_GetBalance (ek_chain s') a d = bank_GetBalance (ek_chain s) a d +
    (if decide (d = EvmDenom) then
       (if decide (a = collector) then paid else 0) - (if decide (a = from) then paid else 0)
     else 0).
Proof.
  intros L VL ML Hh Hmin Hbf Hb Hms Hmd Hsound Hgas Hfrom (du & Ha & _)%AnteHandle_inv Hctx Ht Hfail s s' paid0.
  rewrite Hms in Ha. cbn [ante_msgs] in Ha. apply bind_Ok_inv in Ha as ([st2 du2] & H1 & Ha). simplify_eq.
  destruct (ante_msg_admitted _ _ L _ _ _ _ _ _ H1) as (m0 & td0 & from0 & fees & [= <-] & Hm0 & Hadm).
  assert (td0 = td) as -> by congruence.
  pose proof (adm_sender _ _ _ _ _ _ _ _ Hadm) as Hs0. assert (from0 = from) as -> by congruence.
  destruct (admitted_prepaid _ _ _ _ _ _ _ _ _ Hadm Hsound Hbf Hb) as (Hn & Hpr & _ & Hpaid & Hacc).
  destruct (adm_seq _ _ _ _ _ _ _ _ Hadm) as (x' & Hx' & Hseq). destruct (adm_frame _ _ _ _ _ _ _ _ Hadm) as [Hst Hco].
  cbn [as_store SetupContext] in Hpaid, Hacc, Hseq, Hst, Hco. unfold EthereumTx in Ht.
  destruct (vm_AsMessage (k_vm (an_module env)) (AsEthereumData td) (ec_BaseFee (k_config (an_module env)))) as [msg|] eqn:Hmsg;
    [|unfold ApplyTransaction in Ht; by rewrite Hmsg in Ht].
  destruct Hsound as (Hv & Hg & _).
  pose proof Hmsg as Hmsg'. change (ec_BaseFee _) with (an_BaseFee env) in Hmsg'. rewrite Hbf in Hmsg'.
  destruct (ML _ _ _ Hv Hb Hmsg') as (Hmf & Hmg & Hmp). assert (m_From msg = from) as Hmf' by congruence.
  destruct (failed_tx_refunds _ collector hook ctx _ msg res ctx' VL (law_ante_fees _ _ L) Hh Hmin Hmsg)
    as (Hst' & Hco' & Hsa' & Hused & Hbal'); [lia|lia| |done|done|].
  { rewrite Hctx, Hmf', Hx'. by eexists. }
  rewrite Hctx in *. rewrite Hmf', Hmg, Hmp in *. unfold s', s, paid0.
  split_and!; [congruence|congruence| | |lia|lia|].
  - intros a Hna. rewrite Hsa'. by apply Hacc.
  - exists x'. by rewrite Hsa'.
  - intros a d. rewrite Hbal', Hpaid. repeat case_decide; lia.
Qed.

(** The gas wanted is counted once for every message.  The decorator adds the
    gas limit of the whole transaction, which is the sum of its messages', to the
    counter from which the fee market sets the next base fee, in the round of each
    message: a transaction with [n] messages counts [n] times. *)
Theorem ante_counts_gas_per_message env collector tx st st' m p :
  ante_laws env collector → IsLondon (an_rules env) = true →
  GetBaseFeeEnabled (an_BlockHeight env) (as_fees st) = true → an_IsReCheckTx env = false →
  0 <= atx_GasLimit tx < 2 ^ 64 → 0 <= GetTransientGasWanted (as_fees st) →
  let n := Z.of_nat (length (atx_msgs tx)) in
  GetTransientGasWanted (as_fees st) + n * atx_GasLimit tx < 2 ^ 64 →
  AnteHandle env tx st = Ok (st', m, p) →
  GetTransientGasWanted (as_fees st') = GetTransientGasWanted (as_fees st) + n * atx_GasLimit tx ∧
  atx_GasLimit tx = u64 (gas_total (tx_datas (atx_msgs tx))).
Proof.
  intros L HL Hen Hre Hg H0w n Hlt (du & Ha & Hgl)%AnteHandle_inv. split.
  - exact (ante_msgs_wanted _ _ L _ _ (SetupContext st) _ _ _ HL Hen (proj1 Hg) H0w Hlt Ha).
  - pose proof (ante_msgs_gas _ _ L _ _ _ _ _ _ Ha) as Ht. rewrite <-(Hgl Hre) in Ht.
    rewrite u64_small in Ht by done. exact Ht.
Qed.

End Ante.

(** ** Witnesses *)

Module AnteToy.
Import MapCoins MapBank EvmToy ZDec GethToy ApplyToy.

(** A withdrawal pays 500 out of account 4, to any account but the fee collector. *)
Definition toy_withdraw (c : toy_chain) (a : Address) : outcome () (coins * toy_chain) :=
  if decide (a = 3) then Err ()
  else (λ c', (NewCoin "aego" 500, c')) <$> with_bank c (bank_send (tc_bank c) 4 a (NewCoin "aego" 500)).

(** Blocks of ten million gas; every transaction is signed by account 7. *)
Definition toy_env : ante_env := {|
  an_module := toy_module;
  an_Protected _ := true;
  an_Sender _ := Some 7;
  an_AllowUnprotectedTxs := false;
  an_CanTransfer balance amount := amount <=? balance;
  an_LockedCoins _ := None;
  an_IsEqual a b := bool_decide (a = b);
  an_BondDenom := "aego"%string;
  an_Delegations _ _ := [1];
  an_WithdrawDelegationRewards c a _ := toy_withdraw c a;
  an_maxGasWanted := 0;
  an_MempoolMinGasPrice := 0;
  an_PriorityReduction := 1;
  an_BlockHeight := 5;
  an_BlockGasMeter := None;
  an_ConsensusMaxGas := Some 10000000;
  an_IsCheckTx := false;
  an_IsReCheckTx := false;
  an_simulate := false
|}.

Lemma toy_ante_laws : ante_laws toy_env 3.
Proof.
  split; [apply toy_fee_laws|]. intros c a v r c'. cbn [an_WithdrawDelegationRewards toy_env]. unfold toy_withdraw.
  destruct (decide (a = 3)) as [|Hne]; [done|].
  destruct (with_bank _ _) as [c1| |] eqn:Hw; cbn; intros [= _ <-]. apply toy_sent in Hw as [[Hb _] Ha].
  split; [intros x y Hx; by rewrite Ha|].
  etransitivity; [apply Hb|]. rewrite (decide_False (P := 3 = 4)), (decide_False (P := 3 = a)) by (congruence || lia). rewrite Z.sub_0_r. apply Z.add_0_r.
Qed.

Lemma toy_message_laws : message_laws toy_env.
Proof.
  intros td b msg Hv Hb Hm. destruct (Validate_valid _ _ Hv) as [(cap & Hcap & _) (tip & Htip & Ht0) _ _ _ _].
  destruct td as [c [p|]|c i p al|c i x y al]; try discriminate. cbn in Hm, Hcap, Htip. simplify_eq.
  split_and!; [done|done|]. unfold price_at. cbn. lia.
Qed.

(** Calls of 30000 gas at price 12, signed for chain 5438; those with data revert. *)
Definition call_data (nonce : Z) (data : list byte) : TxData :=
  LegacyTx (mkTxCommon nonce 30000 (Address_Hex 8) (Some 100) data (big_Bytes 10911) [1] [1]) (Some 12).

Definition call_msg (nonce : Z) (data : list byte) : MsgEthereumTx :=
  mkMsgEthereumTx (Some (call_data nonce data)) 0 EmptyString EmptyString.

Definition two_calls : ante_tx :=
  mkAnteTx [Some (call_msg 3 []); Some (call_msg 4 [])] true EmptyString 0 0 1 0 (NewCoin "aego" 720000) 60000 EmptyString EmptyString 0.

Definition toy_fee_store : fee_store :=
  mkFeeStore (Some (mkParams false 8 2 0 (Some 10) (Some (LegacyNewDecWithPrec 50 2)) (Some 0)))
    (mkParams false 8 2 0 None None None) None None None.

Definition ante_start : ante_state := mkAnteState rich_store toy_fee_store 0.

Definition ante_end : ante_state :=
  match AnteHandle toy_env two_calls ante_start with Ok (st, _, _) => st | _ => ante_start end.

Lemma two_calls_admitted :
  match AnteHandle toy_env two_calls ante_start with Ok _ => true | _ => false end = true.
Proof. vm_compute. reflexivity. Qed.

Lemma two_calls_nonces : Forall (λ td, 0 <= EvmTx.GetNonce td < MaxUint64) (tx_datas (atx_msgs two_calls)).
Proof. repeat constructor; cbn; unfold MaxUint64; lia. Qed.

Lemma ante_rejects_replay_witness : is_Ok (AnteHandle toy_env two_calls ante_end) = false.
Proof.
  pose proof two_calls_admitted as Hok.
  destruct (AnteHandle toy_env two_calls ante_start) as [[[st m] p]| |] eqn:Ha; [|discriminate Hok..].
  assert (ante_end = st) as -> by (unfold ante_end; by rewrite Ha).
  destruct (AnteHandle toy_env two_calls st) as [r| |] eqn:Hr; [|reflexivity..]. exfalso.
  exact (ante_rejects_replay toy_env toy_env 3 two_calls ante_start st m p st r toy_ante_laws toy_ante_laws
           (λ _, eq_refl) ltac:(discriminate) two_calls_nonces Ha ltac:(reflexivity) Hr).
Defined.

Lemma two_calls_sound : Forall (sound_td toy_env 3) (tx_datas (atx_msgs two_calls)).
Proof. repeat constructor; try (cbn; lia); done. Qed.

Lemma ante_prepays_witness :
  bank_GetBalance (ek_chain (as_store ante_end)) 3 EvmDenom = 2 * (12 * 30000) ∧
  bank_GetBalance (ek_chain (as_store ante_end)) 7 EvmDenom = 1000000 - 2 * (12 * 30000).
Proof.
  pose proof two_calls_admitted as Hok.
  destruct (AnteHandle toy_env two_calls ante_start) as [[[st m] p]| |] eqn:Ha; [|discriminate Hok..].
  assert (ante_end = st) as -> by (unfold ante_end; by rewrite Ha).
  destruct (ante_prepays toy_env 3 10 two_calls ante_start st m p toy_ante_laws) as (Hb & Hs & _);
    [reflexivity|lia|exact two_calls_sound|exact Ha|].
  rewrite Hb, Hs by lia. split; vm_compute; reflexivity.
Defined.

Definition reverted_call : ante_tx :=
  mkAnteTx [Some (call_msg 3 [1])] true EmptyString 0 0 1 0 (NewCoin "aego" 360000) 30000 EmptyString EmptyString 0.

Definition reverted_ctx : evm_ctx :=
  match AnteHandle toy_env reverted_call ante_start with Ok (st, _, _) => toy_ctx (as_store st) | _ => toy_ctx rich_store end.

(** The reverted call costs 23000 gas at price 12, and a nonce. *)
Lemma failed_tx_pays_gas_witness :
  match EthereumTx toy_module reverted_ctx (call_data 3 [1]) with
  | TxOk res ctx' =>
      bank_GetBalance (ek_chain (ctx_store ctx')) 7 EvmDenom = 1000000 - 23000 * 12 ∧
      GetSequence <$> auth_GetAccount (ek_chain (ctx_store ctx')) 7 = Some 4
  | _ => False
  end.
Proof.
  assert (match AnteHandle toy_env reverted_call ante_start with Ok _ => true | _ => false end = true) as Hadm
    by (vm_compute; reflexivity).
  assert (match EthereumTx toy_module reverted_ctx (call_data 3 [1]) with
          | TxOk res _ => Failed res && (res_GasUsed res =? 23000) | _ => false end = true) as Hok
    by (vm_compute; reflexivity).
  unfold reverted_ctx in *.
  destruct (AnteHandle toy_env reverted_call ante_start) as [[[st m] p]| |] eqn:Ha; [|discriminate Hadm..].
  destruct (EthereumTx _ _ _) as [res ctx'| |] eqn:Ht; [|discriminate Hok..].
  apply andb_true_iff in Hok as [Hf Hg%Z.eqb_eq].
  destruct (failed_tx_pays_gas toy_env 3 (λ _ r s, (r, Ok s)) 10 reverted_call (call_msg 3 [1]) (call_data 3 [1]) 7
    ante_start st m p (toy_ctx (as_store st)) res ctx' toy_ante_laws toy_vm_laws toy_message_laws)
    as (_ & _ & _ & (x & Hx & Hseq & _) & _ & Hbal);
    [reflexivity|split; vm_compute; discriminate|reflexivity|lia|reflexivity|reflexivity
    |split_and!; [reflexivity|cbn; lia|discriminate]|cbn; lia|reflexivity|exact Ha|reflexivity|exact Ht|exact Hf|].
  rewrite Hbal, Hx, Hg. split; [vm_compute; reflexivity|]. cbn [fmap option_fmap option_map]. by rewrite Hseq.
Defined.

Lemma ante_counts_gas_per_message_witness :
  GetTransientGasWanted (as_fees ante_end) = 2 * 60000 ∧ 60000 = 30000 + 30000.
Proof.
  pose proof two_calls_admitted as Hok.
  destruct (AnteHandle toy_env two_calls ante_start) as [[[st m] p]| |] eqn:Ha; [|discriminate Hok..].
  assert (ante_end = st) as -> by (unfold ante_end; by rewrite Ha).
  destruct (ante_counts_gas_per_message toy_env 3 two_calls ante_start st m p toy_ante_laws) as [Hw _];
    [reflexivity|reflexivity|reflexivity|cbn; lia|cbn; lia|cbn; lia|exact Ha|].
  split; [exact Hw|reflexivity].
Defined.

End AnteToy.
