(* ===== verification/RpcSend.v ===== *)
(** * Sending transactions: [rpc/backend/call_tx.go], [x/evm/types/msg.go]

    [SendRawTransaction] takes a signed Ethereum transaction from a user, wraps it in a
    message, builds the Cosmos transaction around it ([BuildTx]) and broadcasts it.
    The theorem is that the ante handler finds nothing wrong with the form of what was
    built: it fails only for the message itself or for the gas limit of the block.
    Decoding, the SDK's [ValidateBasic] of a built transaction, its encoding and the
    broadcast are parameters. *)

From S2P Require Import Prelude Sdk Dec AccessList StateDB EvmKeeper EvmKeeperSpec EvmTx EvmTxSpec GasMeter EvmApply EvmApplySpec FeeMarket EvmAnte EvmAnteSpec.

Section Send.
Context `{EE : EvmEnv} `{GE : Geth} `{LD : LegacyDec}.

Inductive send_error :=
| SendDecode
| SendUnprotected
| SendTx (e : tx_error)
| SendQuery
| SendEncode
| SendBroadcast.

Abbreviation send_result A := (outcome send_error A).

Definition of_send {A} (x : tx_result A) : send_result A :=
  match x with Ok a => Ok a | Err e => Err (SendTx e) | Panic => Panic end.

Record send_env := mkSendEnv {
  (** [tx.UnmarshalBinary] *)
  sd_decode : list byte → option eth_tx;
  sd_Protected : eth_tx → bool;
  sd_UnprotectedAllowed : bool;
  (** the denomination in the EVM parameters *)
  sd_EvmDenom : option string;
  (** [ValidateBasic] of the SDK on the message, the fee and the gas limit *)
  sd_basic : MsgEthereumTx → coins → Z → bool;
  sd_encodes : ante_tx → bool;
  (** the broadcast fails, or the node answers with a code *)
  sd_broadcast : ante_tx → option Z
}.

Variable env : send_env.

Definition empty_msg : MsgEthereumTx := mkMsgEthereumTx None 0 EmptyString EmptyString.

Definition without_from (msg : MsgEthereumTx) : MsgEthereumTx :=
  mkMsgEthereumTx (msg_Data msg) (msg_Size msg) (msg_Hash msg) EmptyString.

Definition BuildTx (msg : MsgEthereumTx) (evmDenom : string) : tx_result ante_tx :=
  match msg_Data msg with
  | None => Err ErrInvalidRequest
  | Some txData =>
      f ← Fee txData;
      feeAmt ← NewIntFromBigInt f;
      let fees := if 0 <? feeAmt then NewCoin evmDenom feeAmt else NewCoins in
      let msg := without_from msg in
      Ok {| atx_msgs := [Some msg];
            atx_basic := sd_basic env msg fees (GetGas txData);
            atx_Memo := EmptyString;
            atx_TimeoutHeight := 0;
            atx_NonCriticalExtensionOptions := 0;
            atx_ExtensionOptions := 1;
            atx_SignerInfos := 0;
            atx_FeeAmount := fees;
            atx_GasLimit := GetGas txData;
            atx_Payer := EmptyString;
            atx_Granter := EmptyString;
            atx_Signatures := 0 |}
  end.

(** From the bytes of the user to the transaction that is broadcast. *)
Definition cosmos_tx (data : list byte) : send_result (MsgEthereumTx * ante_tx) :=
  match sd_decode env data with
  | None => Err SendDecode
  | Some tx =>
      if negb (sd_UnprotectedAllowed env) && negb (sd_Protected env tx) then Err SendUnprotected
      else
        ethereumTx ← of_send (FromEthereumTx tx empty_msg);
        _ ← of_send (ValidateBasic ethereumTx);
        match sd_EvmDenom env with
        | None => Err SendQuery
        | Some denom =>
            cosmosTx ← of_send (BuildTx ethereumTx denom);
            if sd_encodes env cosmosTx then Ok (ethereumTx, cosmosTx) else Err SendEncode
        end
  end.

Definition SendRawTransaction (data : list byte) : send_result Hash :=
  '(ethereumTx, cosmosTx) ← cosmos_tx data;
  txHash ← match msg_Data ethereumTx with Some txData => Ok (tx_Hash (AsEthereumData txData)) | None => Panic end;
  match sd_broadcast env cosmosTx with
  | Some 0 => Ok txHash
  | _ => Err SendBroadcast
  end.
End Send.

Section Admission.
Context `{CL : CoinsLaws} `{EE : !EvmEnv} `{GE : Geth} `{GL : !GethLaws} `{LD : LegacyDec}.

(** The totals after the single message of a transaction. *)
Lemma ante_msg_totals aenv tx msg txData st st' du f :
  msg_Data msg = Some txData → Fee txData = Ok f → 0 <= f →
  ante_msg aenv tx (Some msg) st NewUtils = Ok (st', du) →
  du_TxFee du = coins_Add NewCoins (NewCoin EvmDenom f) ∧ du_TxGasLimit du = u64 (GetGas txData).
Proof.
  intros Hd Hf Hf0 Ha. cbn [ante_msg] in Ha. rewrite Hd in Ha.
  do 3 (apply bind_Ok_inv in Ha as (? & _ & Ha)).
  destruct (VerifyAccountBalance _ _ _ _ _) as [s1| |]; [|done..]. rewrite Ok_bind in Ha.
  destruct (vm_AsMessage _ _ _); [|done]. apply bind_Ok_inv in Ha as (? & _ & Ha).
  destruct (auth_GetAccount _ _); [|done].
  do 4 (apply bind_Ok_inv in Ha as (? & _ & Ha)). rewrite Hf in Ha. cbn [of_tx] in Ha. rewrite Ok_bind in Ha.
  apply bind_Ok_inv in Ha as (fees & Hfee & Ha). do 2 (apply bind_Ok_inv in Ha as (? & _ & Ha)). injection Ha as <- <-.
  cbn. split; [|by rewrite Z.add_0_l]. unfold UpdateCumulativeTxFee, NewIntFromBigInt in Hfee.
  destruct (IsValidInt256 _); [|done]. by injection Hfee as <-.
Qed.

Definition eth_gas (tx : eth_tx) : Z :=
  match tx with EthLegacyTx c _ | EthAccessListTx c _ _ _ | EthDynamicFeeTx c _ _ _ _ => eth_Gas c end.

Lemma gas_of_data td : GetGas td = eth_gas (AsEthereumData td).
Proof. by destruct td. Qed.

Lemma eth_gas_normal tx : eth_gas (normal_tx tx) = eth_gas tx.
Proof. by destruct tx. Qed.

Lemma fee_of_valid td : valid_tx td → 0 <= GetGas td → ∃ f, Fee td = Ok f ∧ 0 <= f.
Proof.
  intros [(cap & Hcap & Hc0) _ _ _ _ _] Hg. unfold Fee, fee. rewrite Hcap. cbn [deref]. rewrite Ok_bind.
  eexists. split; [done|]. nia.
Qed.

(** The fee of the built transaction and what the handler adds up are the same coins. *)
Lemma built_fee f :
  0 <= f → let fees := if 0 <? f then NewCoin EvmDenom f else NewCoins in
  coins_valid fees ∧ coins_valid (coins_Add NewCoins (NewCoin EvmDenom f)) ∧ fees ≡ coins_Add NewCoins (NewCoin EvmDenom f).
Proof.
  intros Hf fees. assert (coins_valid (NewCoin EvmDenom f)) as Hv by by apply NewCoin_valid.
  assert (coins_valid fees) by (unfold fees; destruct (0 <? f); auto with coins).
  split; [done|]. split; [auto with coins|]. intros d. rewrite AmountOf_Add, AmountOf_NewCoins by auto with coins.
  unfold fees. destruct (Z.ltb_spec 0 f); [by rewrite Z.add_0_l|].
  rewrite AmountOf_NewCoins, AmountOf_NewCoin by done. case_decide; lia.
Qed.

(** What is known of a transaction that was built. *)
Lemma cosmos_tx_inv env data tx ethereumTx cosmosTx :
  sd_decode env data = Some tx → cosmos_tx env data = Ok (ethereumTx, cosmosTx) → sd_EvmDenom env = Some EvmDenom →
  ∃ td, NewTxDataFromTx tx = Ok td ∧ Validate td = Ok () ∧ GetGas td <= MaxInt64 ∧
    ethereumTx = mkMsgEthereumTx (Some td) 0 (Hash_Hex (tx_Hash tx)) EmptyString ∧
    BuildTx env ethereumTx EvmDenom = Ok cosmosTx.
Proof.
  unfold cosmos_tx. intros Hdec Hc Hden. rewrite Hdec in Hc. destruct (_ && _); [done|].
  unfold FromEthereumTx in Hc. destruct (NewTxDataFromTx tx) as [td| |] eqn:Htd; [|done..].
  rewrite Ok_bind in Hc. cbn [of_send empty_msg msg_Size msg_From] in Hc. rewrite Ok_bind in Hc.
  destruct (ValidateBasic _) as [[]| |] eqn:Hvb; [|done..]. cbn [of_send] in Hc. rewrite Ok_bind, Hden in Hc.
  destruct (BuildTx _ _ _) as [ctx| |] eqn:Hbuild; [|done..]. cbn [of_send] in Hc. rewrite Ok_bind in Hc.
  destruct (sd_encodes env ctx); [|done]. injection Hc as <- ->. exists td. split; [done|].
  unfold ValidateBasic in Hvb. cbn [msg_From msg_Size msg_Data] in Hvb. rewrite decide_True in Hvb by done.
  rewrite !Ok_bind in Hvb. cbn [Z.eqb ensure] in Hvb. rewrite Ok_bind in Hvb.
  apply bind_Ok_inv in Hvb as (_ & _ & Hvb). apply bind_Ok_inv in Hvb as (u & Hg%ensure_Ok & Hvb).
  apply bind_Ok_inv in Hvb as ([] & Hv & _). split; [done|]. split; [lia|done].
Qed.

(** C26.  A transaction sent through the server reaches the ante handler in good form.
    What is built from a raw transaction holds that transaction in its only message,
    without a sender; and the ante handler accepts its form, fee and gas limit: it
    does what it does for the message, and can fail besides only because of the gas
    limit of the block. *)
Theorem raw_transaction_admitted (env : send_env) (aenv : ante_env) (data : list byte) (tx : eth_tx) (ethereumTx : MsgEthereumTx)
    (cosmosTx : ante_tx) :
  sd_decode env data = Some tx → cosmos_tx env data = Ok (ethereumTx, cosmosTx) → eth_ok tx → 0 <= eth_gas tx →
  sd_EvmDenom env = Some EvmDenom → atx_basic cosmosTx = true →
  (∀ a b, coins_valid a → coins_valid b → a ≡ b → an_IsEqual aenv a b = true) →
  ∃ msg td, atx_msgs cosmosTx = [Some msg] ∧ msg_Data msg = Some td ∧ AsEthereumData td = normal_tx tx ∧
    msg_From msg = EmptyString ∧ msg_Hash msg = Hash_Hex (tx_Hash tx) ∧
    ∀ st, AnteHandle aenv cosmosTx st =
      if IsLondon (an_rules aenv) && bool_decide (an_BaseFee aenv = None) then Err AnteInvalidBaseFee
      else
        '(st, du) ← ante_msg aenv cosmosTx (Some msg) (SetupContext st) NewUtils;
        m ← CheckBlockGasLimit aenv (du_GasWanted du);
        Ok (st, m, du_MinPriority du).
Proof.
  intros Hdec Hc Hok Hg Hden Hbasic Heq.
  destruct (cosmos_tx_inv _ _ _ _ _ Hdec Hc Hden) as (td & Htd & Hv & Hmax & -> & Hbuild).
  assert (AsEthereumData td = normal_tx tx) as Has.
  { pose proof (NewTxDataFromTx_cases tx Hok) as Hcase. rewrite Htd in Hcase.
    destruct (fits tx), (chain_id_fits tx); try done. by destruct Hcase as (td' & [= <-] & ?). }
  assert (GetGas td = eth_gas tx) as Hgas by by rewrite gas_of_data, Has, eth_gas_normal.
  destruct (fee_of_valid td (Validate_valid _ _ Hv)) as (f & Hf & Hf0); [lia|].
  unfold BuildTx in Hbuild. cbn [msg_Data] in Hbuild. rewrite Hf, Ok_bind in Hbuild. unfold NewIntFromBigInt in Hbuild.
  destruct (IsValidInt256 (Some f)); [|done]. rewrite Ok_bind in Hbuild. injection Hbuild as <-.
  eexists _, td. split; [done|]. split; [done|]. split; [done|]. split; [done|]. split; [done|]. intros st.
  destruct (built_fee f Hf0) as (Hv1 & Hv2 & He). cbn [atx_basic] in Hbasic.
  unfold AnteHandle. set (ctx := mkAnteTx _ _ _ _ _ _ _ _ _ _ _ _).
  assert (∃ info, (if an_IsReCheckTx aenv then Ok None else Some <$> ValidateTx ctx) = Ok info ∧
    ∀ x, info = Some x → x = (atx_FeeAmount ctx, atx_GasLimit ctx)) as (info & -> & Hinfo).
  { destruct (an_IsReCheckTx aenv); [by exists None|]. exists (Some (atx_FeeAmount ctx, atx_GasLimit ctx)).
    split; [|by intros ? [= <-]]. unfold ValidateTx, ctx. cbn. by rewrite Hbasic. }
  rewrite Ok_bind. destruct (_ && _); [done|]. cbn [atx_msgs ctx ante_msgs].
  destruct (ante_msg _ _ _ _ _) as [[st' du]| |] eqn:Ha; [|done..]. rewrite !Ok_bind.
  apply (ante_msg_totals _ _ _ td _ _ _ f) in Ha as [Hfee Hlim]; [|done..].
  rewrite Hfee, Hlim, Hgas. rewrite (u64_small (eth_gas tx)) by (unfold in_u64, MaxInt64 in *; lia).
  assert (CheckTxFee aenv info (coins_Add NewCoins (NewCoin EvmDenom f)) (eth_gas tx) = Ok ()) as ->; [|by rewrite Ok_bind].
  destruct info as [x|]; [|done]. rewrite (Hinfo x eq_refl). cbn. rewrite Heq by done. cbn. by rewrite Hgas, Z.eqb_refl.
Qed.
End Admission.

(** ** Witness *)

Module SendToy.
Import MapCoins MapBank EvmToy ZDec GethToy ApplyToy AnteToy.

Definition toy_send : send_env := {|
  sd_decode bz := match bz with [] => None | _ => Some transfer end;
  sd_Protected _ := true;
  sd_UnprotectedAllowed := false;
  sd_EvmDenom := Some EvmDenom;
  sd_basic _ _ _ := true;
  sd_encodes _ := true;
  sd_broadcast _ := Some 0
|}.

Definition built : ante_tx :=
  match cosmos_tx toy_send [1] with Ok (_, t) => t | _ => two_calls end.

Lemma toy_IsEqual (a b : coins) : coins_valid a → coins_valid b → a ≡ b → an_IsEqual toy_env a b = true.
Proof.
  intros Ha%bool_decide_eq_true Hb%bool_decide_eq_true Hab. apply bool_decide_eq_true.
  apply (map_eq (M:=gmap string) a b). intros d. specialize (Hab d). change (map_amount a d = map_amount b d) in Hab.
  pose proof (Ha d) as Hx. pose proof (Hb d) as Hy. unfold map_amount in Hab. revert Hab Hx Hy.
  generalize ((a : gmap string Z) !! d), ((b : gmap string Z) !! d). intros [x|] [y|]; cbn; intros Hab Hx Hy; try done.
  - by rewrite Hab.
  - specialize (Hx x eq_refl). lia.
  - specialize (Hy y eq_refl). lia.
Qed.

Lemma built_from : ∃ ethereumTx, cosmos_tx toy_send [1] = Ok (ethereumTx, built).
Proof.
  assert (match cosmos_tx toy_send [1] with Ok _ => true | _ => false end = true) as Hok by (vm_compute; reflexivity).
  unfold built. destruct (cosmos_tx toy_send [1]) as [[tx c]| |] eqn:Hc; [|done..].
  by exists tx.
Qed.

Lemma raw_transaction_admitted_witness :
  SendRawTransaction toy_send [1] = Ok (tx_Hash transfer) ∧
  ∃ msg, atx_msgs built = [Some msg] ∧ msg_Hash msg = Hash_Hex (tx_Hash transfer) ∧
    ∀ st, AnteHandle toy_env built st =
      if IsLondon (an_rules toy_env) && bool_decide (an_BaseFee toy_env = None) then Err AnteInvalidBaseFee
      else
        '(st, du) ← ante_msg toy_env built (Some msg) (SetupContext st) NewUtils;
        m ← CheckBlockGasLimit toy_env (du_GasWanted du);
        Ok (st, m, du_MinPriority du).
Proof.
  split; [vm_compute; reflexivity|]. destruct built_from as [ethereumTx Hbuilt].
  destruct (raw_transaction_admitted toy_send toy_env [1] transfer ethereumTx built) as (msg & td & H1 & _ & _ & _ & H2 & H3).
  - reflexivity.
  - exact Hbuilt.
  - exact transfer_ok.
  - vm_compute. discriminate.
  - reflexivity.
  - vm_compute. reflexivity.
  - exact toy_IsEqual.
  - exists msg. split; [exact H1|]. split; [exact H2|exact H3].
Defined.
End SendToy.
