(* ===== verification/CosmosAnte.v ===== *)
(** * Admitting Cosmos transactions: [app/ante/cosmos], [app/ante/evm/fee_checker.go]

    The decorators of this chain in the handler of ordinary transactions: Ethereum
    messages are rejected, disabled messages may not hide in authz messages, fees are
    checked against the base fee and the minimum gas price and deducted, and vesting
    accounts may not delegate what is not vested.  The decorators of the SDK between
    them, events and logging are left out. *)

From S2P Require Import Prelude Sdk Dec Schedule ClawbackAccount StateDB EvmKeeper EvmTx GasMeter EvmApply FeeMarket EvmAnte.

(** ** Messages

    An authz [MsgExec] carries messages as [Any] values, [MsgUndecoded] for one that does
    not decode; a [MsgGrant] grants the use of a message type, [None] for an
    authorization that does not decode. *)
#[local] Unset Elimination Schemes.
Inductive Msg :=
| MsgExec (msgs : list Msg)
| MsgGrant (url : option string)
| MsgEthereum
| MsgDelegate (delegator : Z) (amount : Z)
| MsgOther (url : string)
| MsgUndecoded.
#[local] Set Elimination Schemes.

Definition MsgTypeURL (m : Msg) : string :=
  match m with
  | MsgExec _ => "/cosmos.authz.v1beta1.MsgExec"
  | MsgGrant _ => "/cosmos.authz.v1beta1.MsgGrant"
  | MsgEthereum => "/ethermint.evm.v1.MsgEthereumTx"
  | MsgDelegate _ _ => "/cosmos.staking.v1beta1.MsgDelegate"
  | MsgOther url => url
  | MsgUndecoded => EmptyString
  end.

Inductive cosmos_error :=
| ErrEthereumMsg
| ErrTooNested
| ErrDecode
| ErrDisabled
| ErrAccountUnknown
| ErrInsufficientVestedCoins
| ErrWrongFeeDenom
| ErrFeeTooLow
| ErrNoGas
| ErrNegativePriority
| ErrFeegrantDisabled
| ErrFeegrant
| ErrDeductFees.

Abbreviation cosmos_result A := (outcome cosmos_error A).

Definition of_total {A} (x : partial A) : cosmos_result A :=
  match x with Ok a => Ok a | Err e => match e with end | Panic => Panic end.

Section CosmosAnte.
Context `{P : Periods} {base : Type} `{BV : !BaseVesting base}.

(** ** Ethereum messages: [reject_msgs.go] *)

Definition RejectMessages (msgs : list Msg) : cosmos_result () :=
  if existsb (λ m, match m with MsgEthereum => true | _ => false end) msgs then Err ErrEthereumMsg else Ok ().

(** ** Authorizations: [authz.go] *)

Definition maxNestedMsgs : Z := 7.

Variable disabledMsgTypes : list string.

Definition isDisabledMsg (url : string) : bool := existsb (λ t, bool_decide (url = t)) disabledMsgTypes.

(** [GetMessages] fails when one of the messages does not decode. *)
Definition is_decoded (m : Msg) : bool := match m with MsgUndecoded => false | _ => true end.
Definition GetMessages (msgs : list Msg) : cosmos_result (list Msg) :=
  if forallb is_decoded msgs then Ok msgs else Err ErrDecode.

(** The body of the loop: the level after the message.  The level of a call grows with
    every [MsgExec] among its messages. *)
Fixpoint check_msg (m : Msg) (isAuthzInnerMsg : bool) (nestedLvl : Z) : cosmos_result Z :=
  match m with
  | MsgExec msgs =>
      _ ← GetMessages msgs;
      let nestedLvl := nestedLvl + 1 in
      if maxNestedMsgs <=? nestedLvl then Err ErrTooNested
      else
        _ ← (fix loop (l : list Msg) (lvl : Z) : cosmos_result Z :=
               match l with
               | [] => Ok lvl
               | m :: l => lvl ← check_msg m true lvl; loop l lvl
               end) msgs nestedLvl;
        Ok nestedLvl
  | MsgGrant None => Err ErrDecode
  | MsgGrant (Some url) => if isDisabledMsg url then Err ErrDisabled else Ok nestedLvl
  | _ => if isAuthzInnerMsg && isDisabledMsg (MsgTypeURL m) then Err ErrDisabled else Ok nestedLvl
  end.

Fixpoint check_msgs (l : list Msg) (isAuthzInnerMsg : bool) (lvl : Z) : cosmos_result Z :=
  match l with
  | [] => Ok lvl
  | m :: l => lvl ← check_msg m isAuthzInnerMsg lvl; check_msgs l isAuthzInnerMsg lvl
  end.

Definition checkDisabledMsgs (msgs : list Msg) (isAuthzInnerMsg : bool) (nestedLvl : Z) : cosmos_result () :=
  if maxNestedMsgs <=? nestedLvl then Err ErrTooNested
  else _ ← check_msgs msgs isAuthzInnerMsg nestedLvl; Ok ().

Definition AuthzLimiter (msgs : list Msg) : cosmos_result () := checkDisabledMsgs msgs false 1.

(** ** Vesting accounts: [vesting.go] *)

Inductive cosmos_account :=
| OrdinaryAccount
| ClawbackAccount (va : ClawbackVestingAccount base).

Record cosmos_env := mkCosmosEnv {
  cx_account : Z → option cosmos_account;
  cx_BondDenom : string;
  cx_balance : Z → string → Z;
  cx_BlockTime : Z
}.

Variable cx : cosmos_env.

(** The bonded coins of the balance that are not held back as unvested; [SafeSub] of
    any coin below zero leaves none. *)
Definition delegatable (balance : Z) (unvestedOnly : coins) : Z :=
  let spendable := NewCoin (cx_BondDenom cx) balance in
  if IsAllLTE unvestedOnly spendable then balance - AmountOf unvestedOnly (cx_BondDenom cx) else 0.

Definition validateMsg (m : Msg) : cosmos_result () :=
  match m with
  | MsgDelegate addr amount =>
      match cx_account cx addr with
      | None => Err ErrAccountUnknown
      | Some OrdinaryAccount => Ok ()
      | Some (ClawbackAccount va) =>
          if coins_Empty (GetVestedOnly va (cx_BlockTime cx)) then Err ErrInsufficientVestedCoins
          else
            unvestedOnly ← of_total (GetUnvestedOnly va (cx_BlockTime cx));
            if delegatable (cx_balance cx addr (cx_BondDenom cx)) unvestedOnly <? amount
            then Err ErrInsufficientVestedCoins else Ok ()
      end
  | _ => Ok ()
  end.

Fixpoint validateAuthz (msgs : list Msg) : cosmos_result () :=
  match msgs with
  | [] => Ok ()
  | MsgUndecoded :: _ => Err ErrDecode
  | m :: msgs => _ ← validateMsg m; validateAuthz msgs
  end.

Fixpoint VestingDelegation (msgs : list Msg) : cosmos_result () :=
  match msgs with
  | [] => Ok ()
  | m :: msgs =>
      _ ← match m with MsgExec inner => validateAuthz inner | _ => validateMsg m end;
      VestingDelegation msgs
  end.

End CosmosAnte.

(** ** Fees *)

(** The coins of a fee as the SDK's slice of coins: denominations are distinct. *)
Definition fee_list : Type := list (string * Z).

Definition amount_of (l : fee_list) (denom : string) : Z :=
  default 0 (snd <$> head (filter (λ c, c.1 = denom) l)).

Section CosmosFees.
Context `{EE : EvmEnv} `{GE : Geth} `{LD : LegacyDec}.

(** A fee transaction; a fee that was not given is nil. *)
Record fee_tx := mkFeeTx {
  ftx_gas : Z;
  ftx_fee : option fee_list;
  ftx_MaxPriorityPrice : option Z;   (* of the extension option, if there is one *)
  ftx_payer : Address;
  ftx_granter : option Address
}.

Definition GetFee (tx : fee_tx) : fee_list := default [] (ftx_fee tx).

Record fee_env := mkFeeEnv {
  fx_ante : ante_env;
  fx_MinGasPrices : list (string * dec);
  fx_CeilRoundInt : dec → partial Z;
  fx_IsAnyGTE : fee_list → fee_list → bool;
  fx_DefaultBondDenom : string;
  (** [None] when the fee grant module is not enabled *)
  fx_UseGrantedFees : option (chain → Address → Address → coins → outcome chain_error chain);
  fx_NewCoins : fee_list → coins
}.

Variable fx : fee_env.

(** *** The fee checker: [evm/fee_checker.go] *)

(** The loop of [getTxPriority]; [QuoRaw] panics on a zero divisor. *)
Fixpoint getTxPriority (fees : fee_list) (gas : Z) (priority : Z) : partial Z :=
  match fees with
  | [] => Ok priority
  | (_, amount) :: fees =>
      if gas =? 0 then Panic
      else
        let amt := (amount ÷ gas) ÷ an_PriorityReduction (fx_ante fx) in
        let p := if bool_decide (in_i64 amt) then amt else MaxInt64 in
        getTxPriority fees gas (if (priority =? 0) || (p <? priority) then p else priority)
  end.

Fixpoint required_fees (prices : list (string * dec)) (gasLimit : dec) : partial fee_list :=
  match prices with
  | [] => Ok []
  | (denom, price) :: prices =>
      f ← dec_Mul price gasLimit;
      f ← fx_CeilRoundInt fx f;
      rest ← required_fees prices gasLimit;
      Ok ((denom, f) :: rest)
  end.

Definition checkTxFeeWithValidatorMinGasPrices (tx : fee_tx) : cosmos_result (fee_list * Z) :=
  let gas := i64 (ftx_gas tx) in
  _ ← (if an_IsCheckTx (fx_ante fx) && negb (forallb (λ p, dec_IsZero p.2) (fx_MinGasPrices fx)) then
         requiredFees ← of_total (required_fees (fx_MinGasPrices fx) (LegacyNewDec gas));
         if fx_IsAnyGTE fx (GetFee tx) requiredFees then Ok () else Err ErrFeeTooLow
       else Ok ());
  priority ← of_total (getTxPriority (GetFee tx) gas 0);
  Ok (GetFee tx, priority).

Definition FeeChecker (baseFee : option Z) (denom : string) (tx : fee_tx) : cosmos_result (fee_list * Z) :=
  match baseFee with
  | None => checkTxFeeWithValidatorMinGasPrices tx
  | Some baseFee =>
      let maxPriorityPrice := default MaxInt64 (ftx_MaxPriorityPrice tx) in
      if maxPriorityPrice <? 0 then Err ErrNegativePriority
      else if ftx_gas tx =? 0 then Panic
      else
        let feeCap := amount_of (GetFee tx) denom ÷ ftx_gas tx in
        if feeCap <? baseFee then Err ErrFeeTooLow
        else
          let effectivePrice := effective_price baseFee feeCap maxPriorityPrice in
          let bigPriority := (effectivePrice - baseFee) ÷ an_PriorityReduction (fx_ante fx) in
          let priority := if bool_decide (in_i64 bigPriority) then bigPriority else MaxInt64 in
          Ok ([(denom, effectivePrice * ftx_gas tx)], priority)
  end.

(** [NewDynamicFeeChecker] falls back to the validator's prices at genesis. *)
Definition DynamicFeeChecker (tx : fee_tx) : cosmos_result (fee_list * Z) :=
  if an_BlockHeight (fx_ante fx) =? 0 then checkTxFeeWithValidatorMinGasPrices tx
  else FeeChecker (an_BaseFee (fx_ante fx)) EvmDenom tx.

(** *** The minimum gas price: [min_price.go] *)

Definition MinGasPrice (tx : fee_tx) (f : fee_store) : cosmos_result () :=
  let minGasPrice := default LegacyZeroDec (fm_MinGasPrice (GetParams f)) in
  let simulate := an_simulate (fx_ante fx) in
  let validFees := match GetFee tx with
                   | [] => true
                   | [(denom, _)] => bool_decide (denom = EvmDenom) || bool_decide (denom = fx_DefaultBondDenom fx)
                   | _ => false
                   end in
  if negb validFees && negb simulate then Err ErrWrongFeeDenom
  else if dec_IsZero minGasPrice || simulate then Ok ()
  else
    required ← of_total (dec_Mul minGasPrice (LegacyNewDecFromInt (ftx_gas tx)));
    fee ← of_total (fx_CeilRoundInt fx required);
    let requiredFees := if 0 <? fee then [(EvmDenom, fee)] else [] in
    match ftx_fee tx with
    | None => Err ErrFeeTooLow
    | Some feeCoins => if fx_IsAnyGTE fx feeCoins requiredFees then Ok () else Err ErrFeeTooLow
    end.

(** *** Deducting fees: [fees.go] *)

Definition deduct_from (tx : fee_tx) (fees : coins) (s : evm_store) : cosmos_result (Address * evm_store) :=
  match ftx_granter tx with
  | None => Ok (ftx_payer tx, s)
  | Some granter =>
      match fx_UseGrantedFees fx with
      | None => Err ErrFeegrantDisabled
      | Some use =>
          if decide (granter = ftx_payer tx) then Ok (granter, s)
          else match use (ek_chain s) granter (ftx_payer tx) fees with
               | Ok c => Ok (granter, set_chain c s)
               | Err _ => Err ErrFeegrant
               | Panic => Panic
               end
      end
  end.

Definition deductFee (tx : fee_tx) (fees : coins) (s : evm_store) : cosmos_result evm_store :=
  if coins_IsZero fees then Ok s
  else
    '(from, s) ← deduct_from tx fees s;
    match auth_GetAccount (ek_chain s) from with
    | None => Err ErrAccountUnknown
    | Some _ =>
        match ClaimStakingRewardsIfNecessary (fx_ante fx) from fees s with
        | Ok s =>
            match fb_DeductFees (k_fees (an_module (fx_ante fx))) (ek_chain s) from fees with
            | Ok c => Ok (set_chain c s)
            | Err _ => Err ErrDeductFees
            | Panic => Panic
            end
        | Err _ => Err ErrDeductFees
        | Panic => Panic
        end
    end.

(** The priority of the transaction and the state after its fee. *)
Definition DeductFee (tx : fee_tx) (s : evm_store) : cosmos_result (Z * evm_store) :=
  let simulate := an_simulate (fx_ante fx) in
  if negb simulate && (0 <? an_BlockHeight (fx_ante fx)) && (ftx_gas tx <=? 0) then Err ErrNoGas
  else
    '(fee, priority) ← (if simulate then Ok (GetFee tx, 0) else DynamicFeeChecker tx);
    s ← deductFee tx (fx_NewCoins fx fee) s;
    Ok (priority, s).

End CosmosFees.
