(* ===== verification/CosmosAnteSpec.v ===== *)
(** * Admitting Cosmos transactions: what the decorators guarantee

    Which messages pass the authz limiter, which delegations of vesting accounts are
    checked, and what a transaction pays of the fee it offers. *)

From S2P Require Import Prelude Sdk Dec Schedule ClawbackAccount StateDB EvmKeeper EvmTx GasMeter EvmApply FeeMarket EvmTxSpec EvmApplySpec EvmKeeperSpec EvmAnte EvmAnteSpec CosmosAnte.

(** ** Nested messages *)

Lemma Msg_nested_ind (P : Msg → Prop) :
  (∀ msgs, Forall P msgs → P (MsgExec msgs)) → (∀ url, P (MsgGrant url)) → P MsgEthereum →
  (∀ a n, P (MsgDelegate a n)) → (∀ url, P (MsgOther url)) → P MsgUndecoded → ∀ m, P m.
Proof.
  intros Hx Hg He Hd Ho Hu. fix IH 1. intros [msgs|url| |a n|url|]; [|apply Hg|exact He|apply Hd|apply Ho|exact Hu].
  apply Hx. induction msgs as [|m msgs IHm]; constructor; [apply IH|exact IHm].
Qed.

(** [occurs x m b]: [x] is [m], or is executed by it when [b] is true. *)
Inductive occurs (x : Msg) : Msg → bool → Prop :=
| occurs_here : occurs x x false
| occurs_exec m msgs b : m ∈ msgs → occurs x m b → occurs x (MsgExec msgs) true.

Definition is_exec (m : Msg) : Z := match m with MsgExec _ => 1 | _ => 0 end.
Definition execs (msgs : list Msg) : Z := foldr (λ m n, is_exec m + n) 0 msgs.

(** [exec_level msgs n]: somewhere in [msgs] there is a [MsgExec] of level [n].  The level
    counts the [MsgExec] in its list up to itself, and for each that it is in, the ones in
    that one's list up to that one. *)
Inductive exec_level : list Msg → Z → Prop :=
| level_here inner msgs : exec_level (MsgExec inner :: msgs) 1
| level_inside inner msgs n : exec_level inner n → exec_level (MsgExec inner :: msgs) (1 + n)
| level_after m msgs n : exec_level msgs n → exec_level (m :: msgs) (is_exec m + n).

(** Every [MsgExec] is of a level that stays below the limit when counted from [lvl]. *)
Definition within (msgs : list Msg) (lvl : Z) : Prop := ∀ n, exec_level msgs n → lvl + n < maxNestedMsgs.

Lemma within_cons m msgs lvl : within (m :: msgs) lvl ↔ within [m] lvl ∧ within msgs (lvl + is_exec m).
Proof.
  split.
  - intros Hw. split; intros n Hn.
    + apply Hw. inversion Hn as [| |? ? ? Hnil]; subst; [constructor|by constructor|inversion Hnil].
    + specialize (Hw _ (level_after m msgs n Hn)). lia.
  - intros [H1 H2] n Hn. inversion Hn as [inner|inner ? k Hk|? ? k Hk]; subst.
    + apply H1. constructor.
    + apply H1. by constructor.
    + specialize (H2 k Hk). lia.
Qed.

Lemma within_exec msgs lvl : within [MsgExec msgs] lvl ↔ lvl + 1 < maxNestedMsgs ∧ within msgs (lvl + 1).
Proof.
  split.
  - intros Hw. split; [apply Hw; constructor|]. intros n Hn. specialize (Hw _ (level_inside msgs [] n Hn)). lia.
  - intros [H1 H2] n Hn. inversion Hn as [|? ? k Hk|? ? ? Hnil]; subst; [done| |inversion Hnil].
    specialize (H2 k Hk). lia.
Qed.

Lemma within_leaf m lvl : is_exec m = 0 → within [m] lvl.
Proof. intros Hm n Hn. inversion Hn as [| |? ? ? Hnil]; subst; [done|done|inversion Hnil]. Qed.

Section Authz.
Variable disabled : list string.

Lemma isDisabledMsg_spec url : isDisabledMsg disabled url = true ↔ url ∈ disabled.
Proof.
  unfold isDisabledMsg. rewrite existsb_exists. split.
  - intros (t & Ht & Hu%bool_decide_eq_true). subst. by apply list_elem_of_In.
  - intros Hu. exists url. split; [by apply list_elem_of_In|by apply bool_decide_eq_true].
Qed.

(** What the limiter allows of a message, executed by another one or not. *)
Definition allowed (x : Msg) (executed : bool) : Prop :=
  match x with
  | MsgExec msgs => Forall (λ m, m ≠ MsgUndecoded) msgs
  | MsgGrant None => False
  | MsgGrant (Some url) => url ∉ disabled
  | _ => executed = true → MsgTypeURL x ∉ disabled
  end.

Lemma GetMessages_spec msgs l : GetMessages msgs = Ok l ↔ l = msgs ∧ Forall (λ m, m ≠ MsgUndecoded) msgs.
Proof.
  unfold GetMessages. destruct (forallb is_decoded msgs) eqn:Hf.
  - split; [intros [= <-]|by intros [-> _]]. split; [done|].
    apply Forall_forall. intros m Hm ->. rewrite forallb_forall in Hf. by apply list_elem_of_In, Hf in Hm.
  - split; [done|]. intros [_ Hall]. rewrite <-not_true_iff_false in Hf. destruct Hf. apply forallb_forall.
    intros m Hm%list_elem_of_In. rewrite Forall_forall in Hall. specialize (Hall m Hm). by destruct m.
Qed.

Lemma check_exec msgs inner lvl :
  check_msg disabled (MsgExec msgs) inner lvl =
    (_ ← GetMessages msgs;
     if maxNestedMsgs <=? lvl + 1 then Err ErrTooNested
     else _ ← check_msgs disabled msgs true (lvl + 1); Ok (lvl + 1)).
Proof.
  cbn [check_msg]. destruct (GetMessages msgs); [|done|done]. rewrite !Ok_bind.
  destruct (_ <=? _); [done|]. f_equal. generalize (lvl + 1).
  induction msgs as [|m msgs IH]; intros n; [done|]. cbn [check_msgs].
  destruct (check_msg disabled m true n); [|done|done]. apply IH.
Qed.

Lemma occurs_leaf x y b : occurs x y b → (∀ l, y ≠ MsgExec l) → x = y ∧ b = false.
Proof. intros [|m' l b' _ _] Hy; [done|]. by destruct (Hy l). Qed.

(** Messages other than [MsgExec] and [MsgGrant] are looked up by their type. *)
Definition plain (m : Msg) : Prop := match m with MsgExec _ | MsgGrant _ => False | _ => True end.

Lemma check_plain m inner lvl :
  plain m → check_msg disabled m inner lvl =
    if inner && isDisabledMsg disabled (MsgTypeURL m) then Err ErrDisabled else Ok lvl.
Proof. by destruct m. Qed.

(** All that occurs in a message is allowed. *)
Definition all_allowed (m : Msg) (inner : bool) : Prop := ∀ x b, occurs x m b → allowed x (inner || b).

Lemma all_allowed_leaf m inner : is_exec m = 0 → all_allowed m inner ↔ allowed m inner.
Proof.
  intros Hm. split.
  - intros Ha. specialize (Ha m false (occurs_here m)). by rewrite orb_false_r in Ha.
  - intros Ha x b Ho. apply occurs_leaf in Ho as [-> ->]; [by rewrite orb_false_r|]. intros l ->. done.
Qed.

Lemma all_allowed_exec msgs inner :
  all_allowed (MsgExec msgs) inner ↔
  Forall (λ m, m ≠ MsgUndecoded) msgs ∧ ∀ m, m ∈ msgs → all_allowed m true.
Proof.
  split.
  - intros Ha. split; [exact (Ha _ _ (occurs_here _))|]. intros m Hm x b Ho.
    specialize (Ha x true (occurs_exec x m msgs b Hm Ho)). by rewrite orb_true_r in Ha.
  - intros [Hd Ha] x b Ho. inversion Ho as [|m msgs' b' Hin Ho']; subst; [exact Hd|].
    rewrite orb_true_r. exact (Ha m Hin x b' Ho').
Qed.

(** The check of a message: it succeeds exactly on what is allowed and within the limit,
    and returns the level of the next one. *)
Definition check_exact (m : Msg) : Prop := ∀ inner lvl lvl',
  check_msg disabled m inner lvl = Ok lvl' ↔ lvl' = lvl + is_exec m ∧ all_allowed m inner ∧ within [m] lvl.

Lemma check_msgs_exact msgs inner lvl lvl' :
  Forall check_exact msgs →
  check_msgs disabled msgs inner lvl = Ok lvl' ↔
  lvl' = lvl + execs msgs ∧ (∀ m, m ∈ msgs → all_allowed m inner) ∧ within msgs lvl.
Proof.
  intros Hall. revert lvl. induction Hall as [|m msgs Hm Hall IH]; intros lvl; cbn [check_msgs].
  { split.
    - intros [= <-]. split_and!; [cbn; lia|by intros m Hm%not_elem_of_nil|intros n Hn; inversion Hn].
    - intros (-> & _). f_equal. cbn. lia. }
  rewrite within_cons. change (execs (m :: msgs)) with (is_exec m + execs msgs). split.
  - intros Hc. apply bind_Ok_inv in Hc as (l1 & (-> & Ha & Hw)%Hm & (-> & Har & Hwr)%IH).
    split_and!; [lia| |done|done]. by intros m' [->|Hin]%elem_of_cons; [|apply Har].
  - intros (-> & Ha & Hw & Hwr).
    assert (check_msg disabled m inner lvl = Ok (lvl + is_exec m)) as ->
      by (apply Hm; split_and!; [done|by apply Ha; left|done]).
    rewrite Ok_bind. apply IH. split_and!; [lia|by intros m' Hin; apply Ha; right|done].
Qed.

Lemma plain_exact m : plain m → check_exact m.
Proof.
  intros Hp inner lvl lvl'. assert (is_exec m = 0) as Hx by (by destruct m).
  rewrite check_plain, all_allowed_leaf, Hx, Z.add_0_r by done.
  assert (allowed m inner ↔ inner && isDisabledMsg disabled (MsgTypeURL m) = false) as ->.
  { rewrite andb_false_iff, <-(not_true_iff_false (isDisabledMsg _ _)), isDisabledMsg_spec.
    destruct m; try done; cbn [allowed]; destruct inner; intuition congruence. }
  pose proof (within_leaf m lvl Hx). destruct (_ && _); naive_solver.
Qed.

Lemma check_msg_exact m : check_exact m.
Proof.
  induction m as [msgs IH|url| |a n|url|] using Msg_nested_ind; try by apply plain_exact.
  - intros inner lvl lvl'. rewrite check_exec, all_allowed_exec, within_exec. cbn [is_exec]. split.
    + intros Hc. apply bind_Ok_inv in Hc as (ms & [-> Hd]%GetMessages_spec & Hc).
      destruct (Z.leb_spec maxNestedMsgs (lvl + 1)) as [|Hlt]; [done|].
      apply bind_Ok_inv in Hc as (l1 & (_ & Ha & Hw)%(check_msgs_exact _ _ _ _ IH) & [= <-]). done.
    + intros (-> & (Hd & Ha) & Hlt & Hw). rewrite (proj2 (GetMessages_spec msgs msgs)), Ok_bind by done.
      rewrite (proj2 (Z.leb_gt _ _)) by done.
      by rewrite (proj2 (check_msgs_exact msgs true (lvl + 1) (lvl + 1 + execs msgs) IH)).
  - intros inner lvl lvl'. rewrite all_allowed_leaf by done. cbn [check_msg is_exec allowed]. rewrite Z.add_0_r.
    pose proof (within_leaf (MsgGrant url) lvl eq_refl). destruct url as [url|]; [|naive_solver].
    destruct (isDisabledMsg disabled url) eqn:Hd; [apply isDisabledMsg_spec in Hd; naive_solver|].
    assert (url ∉ disabled) by (rewrite <-isDisabledMsg_spec; congruence). naive_solver.
Qed.

(** C39.  The limiter lets the messages of a transaction through exactly when no message
    executed by a [MsgExec], however deep, has a disabled type, no grant anywhere is for
    one, everything decodes, and no [MsgExec] has a level above five.  The level is not
    the depth: it also counts the [MsgExec] that come before in the same list, so that
    six side by side are too many, while it forgets those inside of earlier ones. *)
Theorem authz_limiter_exact msgs :
  AuthzLimiter disabled msgs = Ok () ↔
  (∀ m, m ∈ msgs → ∀ x b, occurs x m b → allowed x b) ∧ (∀ n, exec_level msgs n → n <= 5).
Proof.
  unfold AuthzLimiter, checkDisabledMsgs. change (maxNestedMsgs <=? 1) with false. cbv iota.
  assert (Forall check_exact msgs) as Hall by (apply Forall_forall; intros; apply check_msg_exact).
  assert (within msgs 1 ↔ ∀ n, exec_level msgs n → n <= 5) as Hw.
  { unfold within, maxNestedMsgs. split; intros Hn n Hl; specialize (Hn n Hl); lia. }
  rewrite <-Hw. split.
  - intros Hc. apply bind_Ok_inv in Hc as (l1 & (_ & Ha & Hwi)%(check_msgs_exact _ _ _ _ Hall) & _). done.
  - intros [Ha Hwi]. by rewrite (proj2 (check_msgs_exact msgs false 1 (1 + execs msgs) Hall)).
Qed.

End Authz.

(** Six [MsgExec] side by side, none of them nested, are rejected as too nested. *)
Lemma siblings_count_as_nested : AuthzLimiter [] (replicate 6 (MsgExec [MsgOther "/cosmos.bank.v1beta1.MsgSend"])) = Err ErrTooNested.
Proof. reflexivity. Qed.

(** Eight [MsgExec] in two levels pass. *)
Lemma inner_execs_forgotten :
  AuthzLimiter [] (replicate 2 (MsgExec (replicate 3 (MsgExec [MsgOther "/cosmos.bank.v1beta1.MsgSend"])))) = Ok ().
Proof. reflexivity. Qed.

(** ** Delegations of vesting accounts *)

Section Vesting.
Context `{P : Periods} {base : Type} `{BV : !BaseVesting base}.
Variable cx : cosmos_env (base := base).

(** The delegations the decorator sees: those of the transaction, and those directly
    in one of its [MsgExec]. *)
Definition seen (m : Msg) (msgs : list Msg) : Prop :=
  m ∈ msgs ∨ ∃ inner, MsgExec inner ∈ msgs ∧ m ∈ inner.

(** A delegation a clawback vesting account can afford: something is vested, and the
    amount is at most the bonded balance that is not unvested. *)
Definition affordable (addr amount : Z) : Prop :=
  match cx_account cx addr with
  | None => False
  | Some OrdinaryAccount => True
  | Some (ClawbackAccount va) =>
      coins_Empty (GetVestedOnly va (cx_BlockTime cx)) = false ∧
      ∃ unvested, GetUnvestedOnly va (cx_BlockTime cx) = Ok unvested ∧
        amount <= delegatable cx (cx_balance cx addr (cx_BondDenom cx)) unvested
  end.

Lemma validateMsg_spec m u :
  validateMsg cx m = Ok u → ∀ addr amount, m = MsgDelegate addr amount → affordable addr amount.
Proof.
  intros Hv addr amount ->. unfold affordable. cbn [validateMsg] in Hv.
  destruct (cx_account cx addr) as [[|va]|]; [done| |done].
  destruct (coins_Empty _); [done|]. split; [done|].
  destruct (GetUnvestedOnly va (cx_BlockTime cx)) as [un|[]|]; cbn [of_total] in Hv; [|done].
  exists un. split; [done|]. rewrite Ok_bind in Hv.
  destruct (Z.ltb_spec (delegatable cx (cx_balance cx addr (cx_BondDenom cx)) un) amount); [done|lia].
Qed.

Lemma validateAuthz_spec msgs u :
  validateAuthz cx msgs = Ok u → ∀ addr amount, MsgDelegate addr amount ∈ msgs → affordable addr amount.
Proof.
  induction msgs as [|m msgs IH]; intros Hv addr amount Hin; [by apply not_elem_of_nil in Hin|].
  assert (∃ u', validateMsg cx m = Ok u' ∧ validateAuthz cx msgs = Ok u) as (u' & Hm & Hrest).
  { destruct m; cbn [validateAuthz] in Hv; try done; by apply bind_Ok_inv in Hv. }
  apply elem_of_cons in Hin as [<-|Hin]; [by eapply validateMsg_spec|by apply IH].
Qed.

(** Vesting accounts delegate vested coins only, one level deep.  When the
    decorator lets a transaction through, every delegation in it, or directly in one
    of its [MsgExec], is one the delegator can afford out of vested coins; but a
    delegation in a [MsgExec] inside a [MsgExec] is not looked at: it passes, whatever
    the amount and the account, and passes the authz limiter too. *)
Theorem vesting_delegations_checked disabled msgs :
  (VestingDelegation cx msgs = Ok () →
     ∀ addr amount, seen (MsgDelegate addr amount) msgs → affordable addr amount) ∧
  (∀ addr amount, "/cosmos.staking.v1beta1.MsgDelegate"%string ∉ disabled →
     VestingDelegation cx [MsgExec [MsgExec [MsgDelegate addr amount]]] = Ok () ∧
     AuthzLimiter disabled [MsgExec [MsgExec [MsgDelegate addr amount]]] = Ok ()).
Proof.
  split.
  - intros Hv addr amount Hs. revert Hv Hs. induction msgs as [|m msgs IH]; intros Hv Hs.
    { destruct Hs as [Hs|(l & Hs & _)]; by apply not_elem_of_nil in Hs. }
    cbn [VestingDelegation] in Hv. apply bind_Ok_inv in Hv as (u & Hm & Hv).
    destruct Hs as [[<-|Hs]%elem_of_cons|(l & [<-|Hl]%elem_of_cons & Hin)].
    + by eapply validateMsg_spec.
    + apply IH; [done|by left].
    + by eapply validateAuthz_spec.
    + apply IH; [done|right; by exists l].
  - intros addr amount Hd. split; [done|].
    assert (isDisabledMsg disabled "/cosmos.staking.v1beta1.MsgDelegate" = false) as Hn.
    { apply not_true_is_false. by rewrite isDisabledMsg_spec. }
    unfold AuthzLimiter, checkDisabledMsgs. cbn. by rewrite Hn.
Qed.

End Vesting.

(** ** Fees *)

Section Fees.
Context `{EE : EvmEnv} `{GE : Geth} `{LD : LegacyDec} `{DL : !DecLaws}.

(** What the SDK says of rounding up and of comparing fees. *)
Record fee_env_laws (fx : fee_env) : Prop := {
  law_CeilRoundInt a n : fx_CeilRoundInt fx a = Ok n → raw a <= n * dec_one < raw a + dec_one;
  law_IsAnyGTE a b :
    fx_IsAnyGTE fx a b = true → ∃ d n, (d, n) ∈ a ∧ amount_of b d ≠ 0 ∧ amount_of b d <= n
}.

Variable fx : fee_env.

(** The offer of a fee transaction in the denomination of the chain. *)
Definition offered (tx : fee_tx) : Z := amount_of (GetFee tx) EvmDenom.

Lemma amount_of_single d n : amount_of [(d, n)] d = n.
Proof. unfold amount_of. cbn. by rewrite decide_True. Qed.

Lemma FeeChecker_inv b tx fee prio :
  0 <= b → 0 <= ftx_gas tx → 0 <= offered tx → FeeChecker fx (Some b) EvmDenom tx = Ok (fee, prio) →
  let cap := offered tx / ftx_gas tx in
  let price := Z.min (default MaxInt64 (ftx_MaxPriorityPrice tx) + b) cap in
  0 < ftx_gas tx ∧ b <= price ∧ fee = [(EvmDenom, price * ftx_gas tx)] ∧ price * ftx_gas tx <= offered tx.
Proof.
  intros Hb Hg Ho Hf cap price. unfold FeeChecker in Hf. destruct (Z.ltb_spec (default MaxInt64 (ftx_MaxPriorityPrice tx)) 0) as [|Hp]; [done|].
  destruct (Z.eqb_spec (ftx_gas tx) 0); [done|]. fold (offered tx) in Hf.
  rewrite Z.quot_div_nonneg in Hf by lia. fold cap in Hf. destruct (Z.ltb_spec cap b); [done|].
  unfold effective_price in Hf. fold price in Hf. simplify_eq.
  assert (cap * ftx_gas tx <= offered tx) as Hcap
    by (unfold cap; rewrite Z.mul_comm; apply Z.mul_div_le; lia).
  assert (price * ftx_gas tx <= cap * ftx_gas tx) by (apply Z.mul_le_mono_nonneg_r; lia).
  split_and!; [lia|lia|done|lia].
Qed.

Lemma of_total_Ok {A} (o : partial A) (x : A) : of_total o = Ok x → o = Ok x.
Proof. by destruct o as [|[]|]; cbn; intros; simplify_eq. Qed.

Lemma MinGasPrice_offer tx f :
  fee_env_laws fx → 0 <= ftx_gas tx → an_simulate (fx_ante fx) = false →
  let mp := raw (default LegacyZeroDec (fm_MinGasPrice (GetParams f))) in
  0 < mp → MinGasPrice fx tx f = Ok () → mp * ftx_gas tx <= offered tx * dec_one.
Proof.
  intros FL Hg Hsim mp Hmp Hmin. unfold MinGasPrice in Hmin. rewrite Hsim, dec_IsZero_spec in Hmin.
  fold mp in Hmin. destruct (_ && _) eqn:Hvalid; [done|].
  rewrite (proj2 (Z.eqb_neq mp 0)) in Hmin by lia. cbn [orb] in Hmin.
  apply bind_Ok_inv in Hmin as (rq & Hrq%of_total_Ok & Hmin).
  apply bind_Ok_inv in Hmin as (n & Hn%of_total_Ok & Hmin).
  apply (law_CeilRoundInt _ FL) in Hn. apply Mul_inv in Hrq. fold mp in Hrq. rewrite raw_FromInt in Hrq.
  apply (rounds_ge _ _ _ (mp * ftx_gas tx)) in Hrq; [|done|lia].
  destruct (ftx_fee tx) as [l|] eqn:Hl; [|done]. destruct (fx_IsAnyGTE fx l _) eqn:Hgte; [|done].
  apply (law_IsAnyGTE _ FL) in Hgte as (d & k & Hin & Hne & Hk).
  destruct (0 <? n); [|done]. unfold amount_of in Hne, Hk. cbn in Hne, Hk. case_decide; [subst d|done].
  cbn in Hk. unfold offered, GetFee in Hvalid |- *. rewrite Hl in Hvalid |- *. cbn [default id] in Hvalid |- *.
  destruct l as [|[d k'] [|]]; [by apply not_elem_of_nil in Hin| |done].
  apply list_elem_of_singleton in Hin as [= -> ->]. rewrite amount_of_single. nia.
Qed.

(** What a Cosmos transaction pays of its offer.  With a positive minimum gas
    price, a transaction that passes the two fee decorators offers at least the
    minimum price for its gas; it is charged its gas at the price
    min (base fee + priority, offer / gas), never more than the offer and never
    less than the base fee.  The minimum price bounds the offer and not the charge:
    when the priority is zero the charge is the base fee alone. *)
Theorem cosmos_fee_bounds tx f b fee prio :
  fee_env_laws fx → 0 <= b → 0 <= ftx_gas tx → 0 <= offered tx → an_simulate (fx_ante fx) = false →
  let mp := raw (default LegacyZeroDec (fm_MinGasPrice (GetParams f))) in
  0 < mp →
  MinGasPrice fx tx f = Ok () → FeeChecker fx (Some b) EvmDenom tx = Ok (fee, prio) →
  let paid := amount_of fee EvmDenom in
  mp * ftx_gas tx <= offered tx * dec_one ∧
  b * ftx_gas tx <= paid <= offered tx ∧
  paid = Z.min (default MaxInt64 (ftx_MaxPriorityPrice tx) + b) (offered tx / ftx_gas tx) * ftx_gas tx ∧
  (ftx_MaxPriorityPrice tx = Some 0 → paid = b * ftx_gas tx).
Proof.
  intros FL Hb Hg Ho Hsim mp Hmp Hmin Hf paid.
  destruct (FeeChecker_inv _ _ _ _ Hb Hg Ho Hf) as (Hg0 & Hpr & -> & Hle).
  unfold paid. rewrite amount_of_single. split_and!.
  - by apply MinGasPrice_offer.
  - apply Z.mul_le_mono_nonneg_r; lia.
  - done.
  - done.
  - intros Hz. rewrite Hz. cbn [default id]. rewrite Hz in Hpr. cbn [default id] in Hpr. f_equal. lia.
Qed.

End Fees.

(** An offer of 300000 for 30000 gas with a tip of zero: the base fee of 2 is charged,
    although the minimum price is 10. *)
Module CosmosToy.
Import MapCoins MapBank EvmToy ZDec GethToy ApplyToy AnteToy.

Definition any_gte (a b : fee_list) : bool :=
  existsb (λ c, negb (amount_of b c.1 =? 0) && (amount_of b c.1 <=? c.2)) a.

Definition toy_fee_env : fee_env := {|
  fx_ante := toy_env;
  fx_MinGasPrices := [];
  fx_CeilRoundInt a := Ok (- (- a / dec_one));
  fx_IsAnyGTE := any_gte;
  fx_DefaultBondDenom := "stake"%string;
  fx_UseGrantedFees := None;
  fx_NewCoins _ := ∅
|}.

Lemma toy_fee_env_laws : fee_env_laws toy_fee_env.
Proof.
  split; cbn.
  - intros a n [= <-]. pose proof (Z.div_mod (- a) dec_one) as Hd. pose proof (Z.mod_pos_bound (- a) dec_one) as Hm.
    unfold dec_one in *. lia.
  - intros a b ([d n] & Hin & [Hz Hle]%andb_true_iff)%existsb_exists. exists d, n.
    cbn in Hz, Hle. apply negb_true_iff in Hz. split_and!; [by apply list_elem_of_In|lia|lia].
Qed.

Definition toy_fee_tx : fee_tx := mkFeeTx 30000 (Some [(EvmDenom, 300000)]) (Some 0) 7 None.

Definition min_price_store : fee_store :=
  mkFeeStore (Some (mkParams false 8 2 0 (Some 2) (Some (LegacyNewDec 10)) (Some 0)))
    (mkParams false 8 2 0 None None None) None None None.

Lemma cosmos_fee_bounds_witness :
  FeeChecker toy_fee_env (Some 2) EvmDenom toy_fee_tx = Ok ([(EvmDenom, 60000)], 0) ∧
  amount_of [(EvmDenom, 60000)] EvmDenom = 2 * 30000 ∧ 60000 < 10 * 30000.
Proof.
  split; [vm_compute; reflexivity|].
  destruct (cosmos_fee_bounds toy_fee_env toy_fee_tx min_price_store 2 [(EvmDenom, 60000)] 0 toy_fee_env_laws)
    as (_ & _ & _ & Hz); try (vm_compute; first [reflexivity|discriminate]).
  split; [exact (Hz eq_refl)|lia].
Defined.

End CosmosToy.
