(* ===== verification/PostHandler.v ===== *)
(** * After a Cosmos transaction: [app/post]

    The post handler of the application has one decorator, which burns the fee of an
    ordinary transaction from the fee collector.  The bank is a field of [post_env].
    The theorem follows a fee from the ante handler to the burning. *)

From S2P Require Import Prelude Sdk Dec StateDB EvmKeeper EvmTx GasMeter EvmApply FeeMarket EvmAnte CosmosAnte EvmKeeperSpec EvmTxSpec EvmApplySpec EvmAnteSpec CosmosAnteSpec.

Section PostHandler.
Context `{EE : EvmEnv}.

Record post_env := mkPostEnv {
  px_collector : Address;
  px_IsAllPositive : fee_list → bool;
  px_BurnCoins : chain → fee_list → outcome chain_error chain
}.

Variable px : post_env.

(** The coins to burn: of each coin of the fee what the collector has, at most. *)
Fixpoint burned_coins (c : chain) (fees : fee_list) : fee_list :=
  match fees with
  | [] => []
  | (denom, amount) :: fees =>
      let balance := bank_GetBalance c (px_collector px) denom in
      if 0 <? balance then (denom, Z.min amount balance) :: burned_coins c fees else burned_coins c fees
  end.

Definition is_ethereum (m : Msg) : bool := match m with MsgEthereum => true | _ => false end.

(** [BurnDecorator.PostHandle]; the handler has no other decorator. *)
Definition PostHandle (msgs : list Msg) (tx : fee_tx) (s : evm_store) : outcome chain_error evm_store :=
  if existsb is_ethereum msgs then Ok s
  else
    let fees := GetFee tx in
    if bool_decide (fees = []) || negb (px_IsAllPositive px fees) then Ok s
    else
      c ← px_BurnCoins px (ek_chain s) (burned_coins (ek_chain s) fees);
      Ok (set_chain c s).

(** [NewPostHandler] with the options that [HandlerOptions.Validate] accepts. *)
Definition HandlerOptions_Validate (feeCollectorName : string) (hasBankKeeper : bool) : outcome string () :=
  if decide (feeCollectorName = EmptyString) then Err "fee collector name cannot be empty"
  else if hasBankKeeper then Ok () else Err "bank keeper cannot be nil".

End PostHandler.

(** ** From the offer to the burning *)

Section Burning.
Context `{EE : EvmEnv} `{CL : !CoinsLaws} `{GE : Geth} `{LD : LegacyDec} `{DL : !DecLaws}.
Variable fx : fee_env.
Variable px : post_env.

(** What the SDK says of the coins of a fee and of burning. *)
Record post_laws : Prop := {
  pl_NewCoins d n : 0 <= n → coins_valid (fx_NewCoins fx [(d, n)]) ∧
    ∀ d', AmountOf (fx_NewCoins fx [(d, n)]) d' = if decide (d = d') then n else 0;
  pl_IsAllPositive l : px_IsAllPositive px l = true ↔ l ≠ [] ∧ Forall (λ c, 0 < c.2) l;
  pl_Burn c l c' : NoDup l.*1 → px_BurnCoins px c l = Ok c' → ∀ d,
    bank_GetSupply c' d = bank_GetSupply c d - amount_of l d ∧
    ∀ a, bank_GetBalance c' a d = bank_GetBalance c a d - if decide (a = px_collector px) then amount_of l d else 0
}.

(** What the collector has in the denomination of the chain. *)
Definition collected (s : evm_store) : Z := bank_GetBalance (ek_chain s) (px_collector px) EvmDenom.

(** The charge of a transaction without a granter reaches the collector. *)
Lemma DeductFee_collected tx s prio s' b :
  ante_laws (fx_ante fx) (px_collector px) → post_laws → an_BaseFee (fx_ante fx) = Some b → 0 <= b →
  an_simulate (fx_ante fx) = false → 0 < an_BlockHeight (fx_ante fx) →
  0 <= ftx_gas tx → 0 <= offered tx → ftx_granter tx = None → ftx_payer tx ≠ px_collector px →
  DeductFee fx tx s = Ok (prio, s') →
  let paid := Z.min (default MaxInt64 (ftx_MaxPriorityPrice tx) + b) (offered tx / ftx_gas tx) * ftx_gas tx in
  0 <= paid <= offered tx ∧ collected s' = collected s + paid.
Proof.
  intros AL PL Hbf Hb Hsim Hh Hg Ho Hgr Hpayer Hd paid. unfold DeductFee in Hd. rewrite Hsim in Hd.
  case_guards Hd. apply bind_Ok_inv in Hd as ([fee p] & Hf & Hd). apply bind_Ok_inv in Hd as (s1 & Hd & [= <- <-]).
  unfold DynamicFeeChecker in Hf. rewrite (proj2 (Z.eqb_neq _ 0)), Hbf in Hf by lia.
  destruct (FeeChecker_inv _ _ _ _ _ Hb Hg Ho Hf) as (Hgpos & Hpr & -> & Hle). fold paid in Hle, Hd.
  assert (0 <= paid) as Hpaid by (apply Z.mul_nonneg_nonneg; lia). split; [lia|].
  destruct (pl_NewCoins PL EvmDenom _ Hpaid) as [Hv Ham]. unfold deductFee in Hd.
  destruct (coins_IsZero _) eqn:Hz.
  { simplify_eq. pose proof (proj1 (IsZero_spec _ Hv) Hz EvmDenom) as H0p. rewrite Ham, decide_True in H0p by done. lia. }
  unfold deduct_from in Hd. rewrite Hgr, Ok_bind in Hd. case_guards Hd.
  destruct (ClaimStakingRewardsIfNecessary _ _ _ _) as [s2| |] eqn:Hc; [|done..].
  apply (Claim_spec _ _ AL) in Hc as (_ & Hc & _).
  destruct (fb_DeductFees _ _ _ _) as [c| |] eqn:Hdf; [|done..]. simplify_eq.
  apply (law_DeductFees _ _ (law_ante_fees _ _ AL)) in Hdf as [[Hbal _] _].
  unfold collected. cbn [ek_chain set_chain]. rewrite Hbal, Ham, Hc, (decide_True _ _ (eq_refl EvmDenom)).
  rewrite decide_False, decide_True by done. lia.
Qed.

Lemma PostHandle_burns msgs tx n s s' :
  post_laws → existsb is_ethereum msgs = false → ftx_fee tx = Some [(EvmDenom, n)] → 0 < n → 0 <= collected s →
  PostHandle px msgs tx s = Ok s' →
  let burned := Z.min n (collected s) in
  collected s' = collected s - burned ∧
  bank_GetSupply (ek_chain s') EvmDenom = bank_GetSupply (ek_chain s) EvmDenom - burned.
Proof.
  intros PL Heth Hfee Hn Hc Hp burned. unfold PostHandle, GetFee in Hp. rewrite Heth, Hfee in Hp. cbn [default id] in Hp.
  rewrite (proj2 (pl_IsAllPositive PL [(EvmDenom, n)])) in Hp; [|split; [done|by repeat constructor]].
  rewrite bool_decide_false in Hp by done. cbn [orb negb] in Hp. apply bind_Ok_inv in Hp as (c & Hb & [= <-]).
  unfold burned_coins in Hb. fold (collected s) in Hb. unfold collected. cbn [ek_chain set_chain].
  destruct (Z.ltb_spec 0 (collected s)).
  - destruct (pl_Burn PL _ [(EvmDenom, _)] _ (NoDup_singleton _) Hb EvmDenom) as [Hsup Hbal].
    rewrite Hbal, Hsup, amount_of_single, decide_True by done. done.
  - destruct (pl_Burn PL _ [] _ NoDup_nil_2 Hb EvmDenom) as [Hsup Hbal].
    rewrite Hbal, Hsup, decide_True by done. unfold burned. change (amount_of [] EvmDenom) with 0. fold (collected s). lia.
Qed.

(** C40.  What a Cosmos transaction burns.  A transaction whose fee is in the
    denomination of the chain pays the collector its gas at the effective price, and
    after its messages, which leave the collector alone, its whole offer is burned from
    the collector, or what the collector has if that is less.  The offer can be more
    than the payment: the difference is taken from the fees of other transactions. *)
Theorem cosmos_fee_burned tx msgs n b s prio s1 s2 s3 :
  ante_laws (fx_ante fx) (px_collector px) → post_laws → an_BaseFee (fx_ante fx) = Some b → 0 <= b →
  an_simulate (fx_ante fx) = false → 0 < an_BlockHeight (fx_ante fx) →
  0 <= ftx_gas tx → ftx_fee tx = Some [(EvmDenom, n)] → 0 < n → ftx_granter tx = None →
  ftx_payer tx ≠ px_collector px → existsb is_ethereum msgs = false → 0 <= collected s →
  DeductFee fx tx s = Ok (prio, s1) → collected s2 = collected s1 → PostHandle px msgs tx s2 = Ok s3 →
  let paid := Z.min (default MaxInt64 (ftx_MaxPriorityPrice tx) + b) (n / ftx_gas tx) * ftx_gas tx in
  let burned := Z.min n (collected s + paid) in
  0 <= paid <= n ∧ paid <= burned ∧
  collected s3 = collected s + paid - burned ∧
  bank_GetSupply (ek_chain s3) EvmDenom = bank_GetSupply (ek_chain s2) EvmDenom - burned ∧
  (paid < n → 0 < collected s → collected s3 < collected s).
Proof using CL DL.
  intros AL PL Hbf Hb Hsim Hh Hg Hfee Hn Hgr Hpayer Heth Hc Hd Hmsgs Hp paid burned.
  assert (offered tx = n) as Ho by (unfold offered, GetFee; rewrite Hfee; apply amount_of_single).
  apply (DeductFee_collected _ _ _ _ b) in Hd as [Hpaid Hs1]; [|done || (rewrite Ho; lia)..].
  rewrite Ho in Hpaid, Hs1. fold paid in Hpaid, Hs1.
  apply (PostHandle_burns _ _ n) in Hp as [Hs3 Hsup]; [|done || lia..].
  rewrite Hmsgs, Hs1 in Hs3, Hsup. fold burned in Hs3, Hsup. unfold burned in *. split_and!; [lia..|done|lia].
Qed.

End Burning.

(** ** A transaction that offers more than it pays *)

Module PostToy.
Import MapCoins MapBank EvmToy ZDec GethToy ApplyToy AnteToy CosmosToy.

Fixpoint add_coins (l : fee_list) : coins :=
  match l with [] => NewCoins | (d, n) :: l => coins_Add (NewCoin d n) (add_coins l) end.

Lemma amount_of_cons d n l d' : amount_of ((d, n) :: l) d' = if decide (d = d') then n else amount_of l d'.
Proof. unfold amount_of. cbn. by case_decide. Qed.

Lemma amount_of_absent l d : d ∉ l.*1 → amount_of l d = 0.
Proof.
  induction l as [|[d' n] l IH]; [done|]. cbn. rewrite not_elem_of_cons, amount_of_cons. intros [Hd Hl].
  rewrite decide_False by done. auto.
Qed.

Lemma add_coins_spec l :
  NoDup l.*1 → forallb (λ c, 0 <=? c.2) l = true →
  coins_valid (add_coins l) ∧ ∀ d, AmountOf (add_coins l) d = amount_of l d.
Proof.
  induction l as [|[d n] l IH]; cbn [add_coins forallb fmap list_fmap snd fst].
  { split; [apply NewCoins_valid|]. intros d. by rewrite AmountOf_NewCoins. }
  intros [Hd Hl]%NoDup_cons [Hn%Z.leb_le Hf]%andb_true_iff. destruct (IH Hl Hf) as [Hv Ha].
  pose proof (NewCoin_valid d n Hn). split; [by apply Add_valid|]. intros d'.
  rewrite AmountOf_Add, AmountOf_NewCoin, Ha, amount_of_cons by done.
  case_decide; [subst; rewrite amount_of_absent by done|]; lia.
Qed.

(** The collector is at address 3. *)
Definition toy_post : post_env := {|
  px_collector := 3;
  px_IsAllPositive l := negb (bool_decide (l = [])) && forallb (λ c, 0 <? c.2) l;
  px_BurnCoins c l :=
    if forallb (λ c, 0 <=? c.2) l then with_bank c (bank_burn (tc_bank c) 3 (add_coins l)) else Err ()
|}.

Definition post_fee_env : fee_env := {|
  fx_ante := toy_env;
  fx_MinGasPrices := [];
  fx_CeilRoundInt a := Ok (- (- a / dec_one));
  fx_IsAnyGTE := any_gte;
  fx_DefaultBondDenom := "stake"%string;
  fx_UseGrantedFees := None;
  fx_NewCoins := add_coins
|}.

Lemma toy_post_laws : post_laws post_fee_env toy_post.
Proof.
  split.
  - intros d n Hn. destruct (add_coins_spec [(d, n)]) as [Hv Ha]; [apply NoDup_singleton|cbn; by rewrite (proj2 (Z.leb_le 0 n))|].
    split; [exact Hv|]. intros d'. etrans; [exact (Ha d')|]. by rewrite amount_of_cons.
  - intros l. cbn. rewrite andb_true_iff, negb_true_iff, bool_decide_eq_false, forallb_forall, Forall_forall.
    setoid_rewrite Z.ltb_lt. setoid_rewrite list_elem_of_In. done.
  - intros c l c' Hl Hb d. cbn in Hb. destruct (forallb _ l) eqn:Hf; [|done].
    destruct (add_coins_spec l Hl Hf) as [_ Ha]. apply toy_burned in Hb as ((Hbal & Hsup) & _).
    rewrite <-Ha, Hsup. split; [lia|]. intros a. rewrite Hbal. change (px_collector toy_post) with 3. case_decide; lia.
Qed.

(** The collector has 500000 of others; account 7 offers 700000 for 30000 gas with a tip
    of zero: it pays 300000, and 700000 are burned. *)
Definition collector_store : evm_store :=
  mkEvmStore (mkToyChain 0 {[ 7 := (Some 99, 3) ]}
    (mkBank {[ "aego"%string := 1500000 ]}
       {[ 7 := {[ "aego"%string := 1000000 ]}; 3 := {[ "aego"%string := 500000 ]} ]})) ∅ ∅.

Definition generous_tx : fee_tx := mkFeeTx 30000 (Some [("aego"%string, 700000)]) (Some 0) 7 None.

Definition paid_store : evm_store :=
  match DeductFee post_fee_env generous_tx collector_store with Ok (_, s) => s | _ => collector_store end.

Lemma cosmos_fee_burned_witness :
  match PostHandle toy_post [] generous_tx paid_store with
  | Ok s => collected toy_post s = 100000
  | _ => False
  end.
Proof.
  assert (match DeductFee post_fee_env generous_tx collector_store with Ok _ => true | _ => false end = true) as Hok
    by (vm_compute; reflexivity).
  assert (match PostHandle toy_post [] generous_tx paid_store with Ok _ => true | _ => false end = true) as Hok'
    by (vm_compute; reflexivity).
  unfold paid_store in *.
  destruct (DeductFee post_fee_env generous_tx collector_store) as [[prio s1]| |] eqn:Hd; [|discriminate Hok..].
  destruct (PostHandle toy_post [] generous_tx s1) as [s3| |] eqn:Hp; [|discriminate Hok'..].
  destruct (cosmos_fee_burned post_fee_env toy_post generous_tx [] 700000 10 collector_store prio s1 s1 s3
    toy_ante_laws toy_post_laws) as (_ & _ & Hc & _);
    [reflexivity|lia|reflexivity|reflexivity|cbn; lia|reflexivity|lia|reflexivity|discriminate|reflexivity
    |vm_compute; discriminate|exact Hd|reflexivity|exact Hp|].
  rewrite Hc. vm_compute. reflexivity.
Defined.
End PostToy.
