(* ===== verification/Erc20.v ===== *)
(** * Token pairs and conversions: [x/erc20]

    A token pair ties a coin of the bank to an ERC-20 contract.  The pairs and their
    two indices are the store of the module; registration, the governance toggle,
    the conversions of [msg_server.go] and the calls of contracts of [evm.go] are the
    functions of this file.  Contracts run in the EVM keeper, which the module knows
    through the interface [EVMKeeper] of [types/interfaces.go]; the ABI encoder of
    go-ethereum, the bank operations of the module account and the hash of the pair
    identifiers are fields of [erc20_env].  Events and telemetry are left out. *)

From S2P Require Import Prelude Sdk Dec AccessList StateDB EvmKeeper EvmTx GasMeter EvmApply EvmQuery.

(** ** Data: [types/] *)

Inductive Owner := OWNER_UNSPECIFIED | OWNER_MODULE | OWNER_EXTERNAL.

#[export] Instance Owner_eq_dec : EqDecision Owner.
Proof. solve_decision. Defined.

Record TokenPair := mkTokenPair {
  tp_Erc20Address : string;
  tp_Denom : string;
  tp_Enabled : bool;
  tp_ContractOwner : Owner
}.

Record DenomUnit := mkDenomUnit {
  du_Denom : string;
  du_Exponent : Z;
  du_Aliases : list string
}.

(** [banktypes.Metadata]. *)
Record Metadata := mkMetadata {
  md_Description : string;
  md_DenomUnits : list DenomUnit;
  md_Base : string;
  md_Display : string;
  md_Name : string;
  md_Symbol : string
}.

Record ERC20Data := mkERC20Data { ed_Name : string; ed_Symbol : string; ed_Decimals : Z }.

Record MsgConvertCoin := mkMsgConvertCoin {
  cc_Denom : string;
  cc_Amount : Z;
  cc_Receiver : string;
  cc_Sender : string
}.

Record MsgConvertERC20 := mkMsgConvertERC20 {
  ce_ContractAddress : string;
  ce_Amount : Z;
  ce_Receiver : string;
  ce_Sender : string
}.

(** The methods of [ERC20MinterBurnerDecimals] the module calls, with their arguments. *)
Inductive erc20_call :=
| Call_name
| Call_symbol
| Call_decimals
| Call_balanceOf (account : Address)
| Call_mint (to : Address) (amount : Z)
| Call_burnCoins (from : Address) (amount : Z)
| Call_transfer (to : Address) (amount : Z).

(** ** Names: [types/utils.go], [types/proposal.go] *)

Definition is_digit (c : Ascii.ascii) : bool := let n := Z.of_nat (Ascii.nat_of_ascii c) in (48 <=? n) && (n <=? 57).
Definition is_letter (c : Ascii.ascii) : bool :=
  let n := Z.of_nat (Ascii.nat_of_ascii c) in ((65 <=? n) && (n <=? 90)) || ((97 <=? n) && (n <=? 122)).
Definition newline : Ascii.ascii := Ascii.ascii_of_nat 10.
Definition slash : Ascii.ascii := Ascii.ascii_of_nat 47.
Definition hyphen : Ascii.ascii := Ascii.ascii_of_nat 45.

(** [(?m)^(\d+)]: the digits at the start of each line. *)
Fixpoint remove_digits (at_start : bool) (s : string) : string :=
  match s with
  | EmptyString => EmptyString
  | String c s' =>
      if at_start && is_digit c then remove_digits true s'
      else String c (remove_digits (bool_decide (c = newline)) s')
  end.
Definition removeLeadingNumbers (str : string) : string := remove_digits true str.

(** [^[^A-Za-z]|[^a-zA-Z0-9/-]]: the first character unless it is a letter, and every
    character that a denomination may not have. *)
Definition is_denom_char (c : Ascii.ascii) : bool :=
  is_letter c || is_digit c || bool_decide (c = slash) || bool_decide (c = hyphen).
Fixpoint remove_invalid (s : string) : string :=
  match s with
  | EmptyString => EmptyString
  | String c s' => if is_denom_char c then String c (remove_invalid s') else remove_invalid s'
  end.
Definition removeSpecialChars (str : string) : string :=
  match str with
  | EmptyString => EmptyString
  | String c s' => if is_letter c then String c (remove_invalid s') else remove_invalid s'
  end.

(** [strings.HasPrefix(s, p)] and [s[len(p):]]. *)
Fixpoint cut_prefix (p s : string) : option string :=
  match p, s with
  | EmptyString, _ => Some s
  | String c p', String d s' => if decide (c = d) then cut_prefix p' s' else None
  | String _ _, EmptyString => None
  end.

(** The recursion of the source ends because each call removes a prefix: the length
    of the string bounds it. *)
Fixpoint remove_prefixes (fuel : nat) (str : string) : string :=
  match fuel with
  | O => str
  | S fuel =>
      match cut_prefix "ibc/" str with
      | Some rest => remove_prefixes fuel rest
      | None =>
          match cut_prefix "erc20/" str with
          | Some rest => remove_prefixes fuel rest
          | None => str
          end
      end
  end.
Definition removeInvalidPrefixes (str : string) : string := remove_prefixes (String.length str) str.

Definition SanitizeERC20Name (name : string) : string :=
  let name := removeLeadingNumbers name in
  let name := removeSpecialChars name in
  let name := if (128 <? Z.of_nat (String.length name)) then String.substring 0 128 name else name in
  removeInvalidPrefixes name.

Definition EqualStringSlice (a b : list string) : bool := bool_decide (a = b).

Fixpoint equal_units (a b : list DenomUnit) : bool :=
  match a, b with
  | u :: a, v :: b =>
      (du_Exponent u =? du_Exponent v) && bool_decide (du_Denom u = du_Denom v) &&
      EqualStringSlice (du_Aliases u) (du_Aliases v) && equal_units a b
  | [], [] => true
  | _, _ => false
  end.

Definition EqualMetadata (a b : Metadata) : bool :=
  bool_decide (md_Base a = md_Base b) && bool_decide (md_Description a = md_Description b) &&
  bool_decide (md_Display a = md_Display b) && bool_decide (md_Name a = md_Name b) &&
  bool_decide (md_Symbol a = md_Symbol b) && equal_units (md_DenomUnits a) (md_DenomUnits b).

Definition ModuleName : string := "erc20".
Definition CreateDenom (address : string) : string := String.append ModuleName (String slash address).
Definition CreateDenomDescription (address : string) : string :=
  String.append "Cosmos coin token representation of " address.

(** [strings.SplitN(denom, "/", 2)]: what is before the first slash, and after it. *)
Fixpoint split_slash (s : string) : option (string * string) :=
  match s with
  | EmptyString => None
  | String c s' =>
      if decide (c = slash) then Some (EmptyString, s')
      else prod_map (String c) id <$> split_slash s'
  end.

(** ** The environment of the module *)

(** [EVMKeeper]: a message with or without commit, and the gas it needs; the trial runs
    of an estimate may write to the store. *)
Class EVMKeeper `{EvmEnv} := {
  evm_ApplyMessage : Message → bool → evm_store → outcome apply_error (MsgEthereumTxResponse * evm_store);
  evm_EstimateGasInternal : EthCallRequest → CallType → evm_store → outcome query_error (Z * evm_store)
}.

Record erc20_env `{EvmEnv} := mkErc20Env {
  (** tmhash *)
  x_Sum : string → Hash;
  (** go-ethereum: addresses of contracts and the ABI of the contract *)
  x_Keccak256 : list byte → Hash;
  x_CreateAddress : Address → Z → Address;
  x_Pack : erc20_call → option (list byte);
  x_PackConstructor : string → string → Z → option (list byte);
  x_Bin : list byte;
  x_UnpackBool : list byte → option bool;
  x_UnpackUint256 : list byte → option Z;
  x_UnpackUint8 : list byte → option Z;
  x_UnpackString : list byte → option string;
  (** the hash of [Approval(address,address,uint256)] *)
  x_ApprovalTopic : Hash;
  (** SDK: addresses, denominations, the bank for the account of the module *)
  x_ModuleAddress : Address;
  x_authority : string;
  x_AccAddressFromBech32 : string → option Address;
  x_Bech32 : Address → string;
  x_ValidateDenom : string → bool;
  x_ValidateIBCDenom : string → bool;
  x_MetadataValidate : Metadata → bool;
  x_IsModuleAccount : chain → Address → bool;
  x_BondDenom : chain → string;
  x_HasSupply : chain → string → bool;
  x_GetDenomMetaData : chain → string → option Metadata;
  x_SetDenomMetaData : chain → Metadata → chain;
  x_BlockedAddr : Address → bool;
  x_IsSendEnabledCoin : chain → string → bool;
  x_MintCoins : chain → coins → outcome chain_error chain;
  x_BurnCoins : chain → coins → outcome chain_error chain;
  x_SendToModule : chain → Address → coins → outcome chain_error chain;
  x_SendFromModule : chain → Address → coins → outcome chain_error chain
}.

Inductive erc20_error `{EvmEnv} :=
| ErrERC20Disabled
| ErrInternalTokenPair
| ErrTokenPairNotFound
| ErrTokenPairAlreadyExists
| ErrUndefinedOwner
| ErrBalanceInvariance
| ErrUnexpectedEvent
| ErrABIPack
| ErrABIUnpack
| ErrEVMCall
| ErrERC20TokenPairDisabled
| ErrErc20Coins
| ErrErc20Address
| ErrErc20Denom
| ErrErc20Metadata
| ErrErc20Unauthorized
| ErrSendDisabled
| ErrNoAccount
| ErrTransferFailed
| ErrInvalidSigner
| ErrUnknownProposal
| ErrVMExecution (vmError : string)
| ErrApply (e : apply_error)
| ErrEstimate (e : query_error)
| ErrBank (e : chain_error).

Section Erc20.
Context `{EE : EvmEnv} `{GE : Geth} `{EK : !EVMKeeper}.

Abbreviation erc20_result A := (outcome erc20_error A).

(** The store: the pairs by identifier and the two indices; a parameter is true when
    its key is there.  [er_evm] is the rest of the multistore. *)
Record erc20_store := mkErc20Store {
  er_evm : evm_store;
  er_pairs : gmap Hash TokenPair;
  er_byERC20 : gmap Address Hash;
  er_byDenom : gmap string Hash;
  er_EnableErc20 : bool;
  er_EnableEVMHook : bool
}.

Definition with_evm (s : evm_store) (st : erc20_store) : erc20_store :=
  mkErc20Store s (er_pairs st) (er_byERC20 st) (er_byDenom st) (er_EnableErc20 st) (er_EnableEVMHook st).
Definition with_pairs (m : gmap Hash TokenPair) (st : erc20_store) : erc20_store :=
  mkErc20Store (er_evm st) m (er_byERC20 st) (er_byDenom st) (er_EnableErc20 st) (er_EnableEVMHook st).

Variable x : erc20_env.

(** ** Parameters: [keeper/params.go] *)

Record Erc20Params := mkErc20Params { EnableErc20 : bool; EnableEVMHook : bool }.

Definition IsERC20Enabled (st : erc20_store) : bool := er_EnableErc20 st.
Definition GetEnableEVMHook (st : erc20_store) : bool := er_EnableEVMHook st.
Definition GetParams (st : erc20_store) : Erc20Params := mkErc20Params (IsERC20Enabled st) (GetEnableEVMHook st).
Definition setERC20Enabled (enable : bool) (st : erc20_store) : erc20_store :=
  mkErc20Store (er_evm st) (er_pairs st) (er_byERC20 st) (er_byDenom st) enable (er_EnableEVMHook st).
Definition setEnableEVMHook (enable : bool) (st : erc20_store) : erc20_store :=
  mkErc20Store (er_evm st) (er_pairs st) (er_byERC20 st) (er_byDenom st) (er_EnableErc20 st) enable.
(** [Params.Validate] accepts every pair of booleans. *)
Definition SetParams (p : Erc20Params) (st : erc20_store) : erc20_store :=
  setEnableEVMHook (EnableEVMHook p) (setERC20Enabled (EnableErc20 p) st).

(** ** Token pairs: [types/token_pair.go], [keeper/token_pairs.go] *)

Definition NewTokenPair (erc20Address : Address) (denom : string) (contractOwner : Owner) : TokenPair :=
  mkTokenPair (Address_Hex erc20Address) denom true contractOwner.

Definition GetID (tp : TokenPair) : Hash :=
  x_Sum x (String.append (tp_Erc20Address tp) (String.append "|" (tp_Denom tp))).

Definition GetERC20Contract (tp : TokenPair) : Address := HexToAddress (tp_Erc20Address tp).

Definition TokenPair_Validate (tp : TokenPair) : erc20_result () :=
  if x_ValidateDenom x (tp_Denom tp) then
    if IsHexAddress (tp_Erc20Address tp) then Ok () else Err ErrErc20Address
  else Err ErrErc20Denom.

Definition IsNativeCoin (tp : TokenPair) : bool := bool_decide (tp_ContractOwner tp = OWNER_MODULE).
Definition IsNativeERC20 (tp : TokenPair) : bool := bool_decide (tp_ContractOwner tp = OWNER_EXTERNAL).

Definition GetTokenPairs (st : erc20_store) : list TokenPair :=
  omap (λ id, er_pairs st !! id) (sorted_keys (er_pairs st)).

Definition GetERC20Map (erc20 : Address) (st : erc20_store) : option Hash := er_byERC20 st !! erc20.
Definition GetDenomMap (denom : string) (st : erc20_store) : option Hash := er_byDenom st !! denom.

Definition GetTokenPairID (token : string) (st : erc20_store) : option Hash :=
  if IsHexAddress token then GetERC20Map (HexToAddress token) st else GetDenomMap token st.

Definition GetTokenPair (id : option Hash) (st : erc20_store) : option TokenPair :=
  id ← id; er_pairs st !! id.

Definition SetTokenPair (tp : TokenPair) (st : erc20_store) : erc20_store :=
  with_pairs (<[GetID tp := tp]> (er_pairs st)) st.

Definition SetERC20Map (erc20 : Address) (id : Hash) (st : erc20_store) : erc20_store :=
  mkErc20Store (er_evm st) (er_pairs st) (<[erc20 := id]> (er_byERC20 st)) (er_byDenom st)
    (er_EnableErc20 st) (er_EnableEVMHook st).
Definition SetDenomMap (denom : string) (id : Hash) (st : erc20_store) : erc20_store :=
  mkErc20Store (er_evm st) (er_pairs st) (er_byERC20 st) (<[denom := id]> (er_byDenom st))
    (er_EnableErc20 st) (er_EnableEVMHook st).

Definition deleteTokenPair (id : Hash) (st : erc20_store) : erc20_store :=
  with_pairs (delete id (er_pairs st)) st.
Definition deleteERC20Map (erc20 : Address) (st : erc20_store) : erc20_store :=
  mkErc20Store (er_evm st) (er_pairs st) (delete erc20 (er_byERC20 st)) (er_byDenom st)
    (er_EnableErc20 st) (er_EnableEVMHook st).
Definition deleteDenomMap (denom : string) (st : erc20_store) : erc20_store :=
  mkErc20Store (er_evm st) (er_pairs st) (er_byERC20 st) (delete denom (er_byDenom st))
    (er_EnableErc20 st) (er_EnableEVMHook st).

Definition DeleteTokenPair (tp : TokenPair) (st : erc20_store) : erc20_store :=
  deleteDenomMap (tp_Denom tp) (deleteERC20Map (GetERC20Contract tp) (deleteTokenPair (GetID tp) st)).

Definition IsERC20Registered (erc20 : Address) (st : erc20_store) : bool := bool_decide (is_Some (er_byERC20 st !! erc20)).
Definition IsDenomRegistered (denom : string) (st : erc20_store) : bool := bool_decide (is_Some (er_byDenom st !! denom)).

Definition GetTokenDenom (tokenAddress : Address) (st : erc20_store) : erc20_result string :=
  match GetERC20Map tokenAddress st with
  | None => Err ErrTokenPairNotFound
  | Some id =>
      match GetTokenPair (Some id) st with
      | None => Err ErrTokenPairNotFound
      | Some tp => Ok (tp_Denom tp)
      end
  end.

(** ** Calls of contracts: [keeper/evm.go] *)

Definition DefaultGasCap : Z := 25000000.

(** [GetSequence] of the auth keeper. *)
Definition account_sequence (a : Address) (s : evm_store) : erc20_result Z :=
  match auth_GetAccount (ek_chain s) a with
  | None => Err ErrNoAccount
  | Some acct => Ok (GetSequence acct)
  end.

Definition of_call {A} (o : outcome apply_error A) : erc20_result A :=
  match o with Ok a => Ok a | Err e => Err (ErrApply e) | Panic => Panic end.
Definition of_bank {A} (o : outcome chain_error A) : erc20_result A :=
  match o with Ok a => Ok a | Err e => Err (ErrBank e) | Panic => Panic end.

Definition of_estimate {A} (o : outcome query_error A) : erc20_result A :=
  match o with Ok a => Ok a | Err e => Err (ErrEstimate e) | Panic => Panic end.

(** The arguments of the estimate: sender, contract and data. *)
Definition call_args (from : Address) (contract : option Address) (data : list byte) : TransactionArgs :=
  mkTransactionArgs (Some from) contract None None None None None None (Some data) None None None.

Definition CallEVMWithData (from : Address) (contract : option Address) (data : list byte) (commit : bool)
    (s : evm_store) : erc20_result (MsgEthereumTxResponse * evm_store) :=
  nonce ← account_sequence from s;
  '(gasCap, s) ← (if commit then
                    of_estimate (evm_EstimateGasInternal (mkEthCallRequest (Some (call_args from contract data)) DefaultGasCap)
                                   Internal s)
                  else Ok (DefaultGasCap, s));
  let msg := mkMessage from contract nonce 0 gasCap 0 0 data [] in
  '(res, s) ← of_call (evm_ApplyMessage msg commit s);
  if Failed res then Err (ErrVMExecution (res_VmError res)) else Ok (res, s).

Definition CallEVM (from contract : Address) (commit : bool) (call : erc20_call) (s : evm_store) :
    erc20_result (MsgEthereumTxResponse * evm_store) :=
  match x_Pack x call with
  | None => Err ErrABIPack
  | Some data => CallEVMWithData from (Some contract) data commit s
  end.

(** [nil] when the call or the decoding of its result fails. *)
Definition BalanceOf (contract account : Address) (s : evm_store) : partial (option Z * evm_store) :=
  match CallEVM (x_ModuleAddress x) contract false (Call_balanceOf account) s with
  | Ok (res, s) => Ok (x_UnpackUint256 x (res_Ret res), s)
  | Err _ => Ok (None, s)
  | Panic => Panic
  end.

(** A query of the contract, decoded by [unpack]. *)
Definition query_erc20 {A} (unpack : list byte → option A) (contract : Address) (call : erc20_call)
    (s : evm_store) : erc20_result (A * evm_store) :=
  '(res, s) ← CallEVM (x_ModuleAddress x) contract false call s;
  match unpack (res_Ret res) with None => Err ErrABIUnpack | Some a => Ok (a, s) end.

Definition QueryERC20 (contract : Address) (s : evm_store) : erc20_result (ERC20Data * evm_store) :=
  '(name, s) ← query_erc20 (x_UnpackString x) contract Call_name s;
  '(symbol, s) ← query_erc20 (x_UnpackString x) contract Call_symbol s;
  '(decimals, s) ← query_erc20 (x_UnpackUint8 x) contract Call_decimals s;
  Ok (mkERC20Data name symbol decimals, s).

Definition DeployERC20Contract (coinMetadata : Metadata) (s : evm_store) : erc20_result (Address * evm_store) :=
  let decimals := match last (md_DenomUnits coinMetadata) with
                  | None => 0
                  | Some u => du_Exponent u mod 256
                  end in
  match x_PackConstructor x (md_Name coinMetadata) (md_Symbol coinMetadata) decimals with
  | None => Err ErrABIPack
  | Some ctorArgs =>
      nonce ← account_sequence (x_ModuleAddress x) s;
      let contractAddr := x_CreateAddress x (x_ModuleAddress x) nonce in
      '(_, s) ← CallEVMWithData (x_ModuleAddress x) None (x_Bin x ++ ctorArgs) true s;
      Ok (contractAddr, s)
  end.

(** A log without topics makes [log.Topics[0]] panic. *)
Fixpoint monitorApprovalEvent (logs : list Log) : erc20_result () :=
  match logs with
  | [] => Ok ()
  | log :: logs =>
      match log_Topics log with
      | [] => Panic
      | topic :: _ => if decide (topic = x_ApprovalTopic x) then Err ErrUnexpectedEvent else monitorApprovalEvent logs
      end
  end.

(** ** Registration: [keeper/proposals.go] *)

Definition set_metadata (md : Metadata) (s : evm_store) : evm_store :=
  set_chain (x_SetDenomMetaData x (ek_chain s) md) s.

Definition verifyMetadata (coinMetadata : Metadata) (s : evm_store) : erc20_result evm_store :=
  match x_GetDenomMetaData x (ek_chain s) (md_Base coinMetadata) with
  | None => Ok (set_metadata coinMetadata s)
  | Some meta => if EqualMetadata meta coinMetadata then Ok s else Err ErrInternalTokenPair
  end.

(** The pair and its two indices. *)
Definition set_pair (tp : TokenPair) (st : erc20_store) : erc20_store :=
  SetERC20Map (GetERC20Contract tp) (GetID tp) (SetDenomMap (tp_Denom tp) (GetID tp) (SetTokenPair tp st)).

Definition RegisterCoin (coinMetadata : Metadata) (st : erc20_store) : erc20_result (TokenPair * erc20_store) :=
  if IsDenomRegistered (md_Name coinMetadata) st then Err ErrTokenPairAlreadyExists
  else if negb (x_HasSupply x (ek_chain (er_evm st)) (md_Base coinMetadata)) then Err ErrErc20Coins
  else
    s ← match verifyMetadata coinMetadata (er_evm st) with
        | Err _ => Err ErrInternalTokenPair
        | r => r
        end;
    '(addr, s) ← DeployERC20Contract coinMetadata s;
    let pair := NewTokenPair addr (md_Base coinMetadata) OWNER_MODULE in
    Ok (pair, set_pair pair (with_evm s st)).

Definition CreateCoinMetadata (contract : Address) (st : erc20_store) : erc20_result (Metadata * erc20_store) :=
  let strContract := Address_Hex contract in
  '(erc20Data, s) ← QueryERC20 contract (er_evm st);
  let base := CreateDenom strContract in
  match x_GetDenomMetaData x (ek_chain s) base with
  | Some _ => Err ErrInternalTokenPair
  | None =>
      if IsDenomRegistered base st then Err ErrInternalTokenPair
      else
        let unit := mkDenomUnit base 0 [] in
        let metadata :=
          if 0 <? ed_Decimals erc20Data then
            let nameSanitized := SanitizeERC20Name (ed_Name erc20Data) in
            mkMetadata (CreateDenomDescription strContract) [unit; mkDenomUnit nameSanitized (ed_Decimals erc20Data) []]
              base nameSanitized base (ed_Symbol erc20Data)
          else mkMetadata (CreateDenomDescription strContract) [unit] base base base (ed_Symbol erc20Data) in
        if x_MetadataValidate x metadata then Ok (metadata, with_evm (set_metadata metadata s) st)
        else Err ErrErc20Metadata
  end.

Definition RegisterERC20 (contract : Address) (st : erc20_store) : erc20_result (TokenPair * erc20_store) :=
  if IsERC20Registered contract st then Err ErrTokenPairAlreadyExists
  else
    '(metadata, st) ← CreateCoinMetadata contract st;
    let pair := NewTokenPair contract (md_Name metadata) OWNER_EXTERNAL in
    Ok (pair, set_pair pair st).

Definition ToggleConversion (token : string) (st : erc20_store) : erc20_result (TokenPair * erc20_store) :=
  match GetTokenPairID token st with
  | None => Err ErrTokenPairNotFound
  | Some id =>
      match GetTokenPair (Some id) st with
      | None => Err ErrTokenPairNotFound
      | Some tp =>
          let tp := mkTokenPair (tp_Erc20Address tp) (tp_Denom tp) (negb (tp_Enabled tp)) (tp_ContractOwner tp) in
          Ok (tp, SetTokenPair tp st)
      end
  end.

(** ** Governance: [proposal_handler.go] *)

Inductive erc20_proposal :=
| RegisterERC20Proposal (Erc20Addresses : list string)
| ToggleTokenConversionProposal (Token : string)
| OtherProposal.

Fixpoint handleRegisterERC20Proposal (addresses : list string) (st : erc20_store) : erc20_result erc20_store :=
  match addresses with
  | [] => Ok st
  | address :: addresses =>
      '(_, st) ← RegisterERC20 (HexToAddress address) st;
      handleRegisterERC20Proposal addresses st
  end.

Definition handle_proposal (content : erc20_proposal) (st : erc20_store) : erc20_result erc20_store :=
  if negb (IsERC20Enabled st) then Err ErrERC20Disabled
  else
    match content with
    | RegisterERC20Proposal addresses => handleRegisterERC20Proposal addresses st
    | ToggleTokenConversionProposal token => '(_, st) ← ToggleConversion token st; Ok st
    | OtherProposal => Err ErrUnknownProposal
    end.

(** ** Conversions: [keeper/mint.go], [keeper/msg_server.go] *)

Definition MintingEnabled (sender receiver : Address) (token : string) (st : erc20_store) : erc20_result TokenPair :=
  if negb (IsERC20Enabled st) then Err ErrERC20Disabled
  else
    match GetTokenPairID token st with
    | None => Err ErrTokenPairNotFound
    | Some id =>
        match GetTokenPair (Some id) st with
        | None => Err ErrTokenPairNotFound
        | Some tp =>
            if negb (tp_Enabled tp) then Err ErrERC20TokenPairDisabled
            else if x_BlockedAddr x receiver then Err ErrErc20Unauthorized
            else if negb (bool_decide (sender = receiver)) &&
                    negb (x_IsSendEnabledCoin x (ek_chain (er_evm st)) (tp_Denom tp)) then Err ErrSendDisabled
            else Ok tp
        end
    end.

(** The balance of a token; [nil] is an error for every caller. *)
Definition token_balance (contract account : Address) (s : evm_store) : erc20_result (Z * evm_store) :=
  match BalanceOf contract account s with
  | Ok (Some n, s) => Ok (n, s)
  | Ok (None, _) => Err ErrEVMCall
  | Err e => match e with end
  | Panic => Panic
  end.

(** The check of a token balance against the expected one. *)
Definition check_token (contract account : Address) (expected : Z) (s : evm_store) : erc20_result evm_store :=
  '(after, s) ← token_balance contract account s;
  if after =? expected then Ok s else Err ErrBalanceInvariance.

(** The check of a coin balance; the sum of two coins panics above 256 bits. *)
Definition check_coin (denom : string) (account : Address) (before amount : Z) (s : evm_store) : erc20_result () :=
  let after := bank_GetBalance (ek_chain s) account denom in
  if 2 ^ 256 <=? before + amount then Panic
  else if after =? before + amount then Ok () else Err ErrBalanceInvariance.

Definition on_bank (f : chain → outcome chain_error chain) (s : evm_store) : erc20_result evm_store :=
  c ← of_bank (f (ek_chain s)); Ok (set_chain c s).

Definition convertCoinNativeCoin (tp : TokenPair) (msg : MsgConvertCoin) (receiver sender : Address)
    (s : evm_store) : erc20_result evm_store :=
  let coin := NewCoin (cc_Denom msg) (cc_Amount msg) in
  let contract := GetERC20Contract tp in
  '(balanceToken, s) ← token_balance contract receiver s;
  s ← on_bank (λ c, x_SendToModule x c sender coin) s;
  '(_, s) ← CallEVM (x_ModuleAddress x) contract true (Call_mint receiver (cc_Amount msg)) s;
  check_token contract receiver (balanceToken + cc_Amount msg) s.

Definition convertERC20NativeCoin (tp : TokenPair) (msg : MsgConvertERC20) (receiver sender : Address)
    (s : evm_store) : erc20_result evm_store :=
  let coin := NewCoin (tp_Denom tp) (ce_Amount msg) in
  let contract := GetERC20Contract tp in
  let balanceCoin := bank_GetBalance (ek_chain s) receiver (tp_Denom tp) in
  '(balanceToken, s) ← token_balance contract sender s;
  '(_, s) ← CallEVM (x_ModuleAddress x) contract true (Call_burnCoins sender (ce_Amount msg)) s;
  s ← on_bank (λ c, x_SendFromModule x c receiver coin) s;
  _ ← check_coin (tp_Denom tp) receiver balanceCoin (ce_Amount msg) s;
  check_token contract sender (balanceToken - ce_Amount msg) s.

(** A transfer must return true. *)
Definition check_transfer (res : MsgEthereumTxResponse) : erc20_result () :=
  match x_UnpackBool x (res_Ret res) with
  | None => Err ErrABIUnpack
  | Some true => Ok ()
  | Some false => Err ErrTransferFailed
  end.

Definition convertERC20NativeToken (tp : TokenPair) (msg : MsgConvertERC20) (receiver sender : Address)
    (s : evm_store) : erc20_result evm_store :=
  let coin := NewCoin (tp_Denom tp) (ce_Amount msg) in
  let contract := GetERC20Contract tp in
  let balanceCoin := bank_GetBalance (ek_chain s) receiver (tp_Denom tp) in
  '(balanceToken, s) ← token_balance contract (x_ModuleAddress x) s;
  match x_Pack x (Call_transfer (x_ModuleAddress x) (ce_Amount msg)) with
  | None => Err ErrABIPack
  | Some transferData =>
      '(res, s) ← CallEVMWithData sender (Some contract) transferData true s;
      _ ← check_transfer res;
      s ← check_token contract (x_ModuleAddress x) (balanceToken + ce_Amount msg) s;
      s ← on_bank (λ c, x_MintCoins x c coin) s;
      s ← on_bank (λ c, x_SendFromModule x c receiver coin) s;
      _ ← check_coin (tp_Denom tp) receiver balanceCoin (ce_Amount msg) s;
      _ ← monitorApprovalEvent (res_Logs res);
      Ok s
  end.

Definition convertCoinNativeERC20 (tp : TokenPair) (msg : MsgConvertCoin) (receiver sender : Address)
    (s : evm_store) : erc20_result evm_store :=
  let coin := NewCoin (cc_Denom msg) (cc_Amount msg) in
  let contract := GetERC20Contract tp in
  '(balanceToken, s) ← token_balance contract receiver s;
  s ← on_bank (λ c, x_SendToModule x c sender coin) s;
  '(res, s) ← CallEVM (x_ModuleAddress x) contract true (Call_transfer receiver (cc_Amount msg)) s;
  _ ← check_transfer res;
  s ← check_token contract receiver (balanceToken + cc_Amount msg) s;
  s ← on_bank (λ c, x_BurnCoins x c coin) s;
  _ ← monitorApprovalEvent (res_Logs res);
  Ok s.

Definition MustAccAddressFromBech32 (s : string) : erc20_result Address :=
  match x_AccAddressFromBech32 x s with None => Panic | Some a => Ok a end.

(** The contract of a pair was destroyed, or never was one. *)
Definition contract_gone (tp : TokenPair) (st : erc20_store) : bool :=
  match GetAccountWithoutBalance (GetERC20Contract tp) (er_evm st) with
  | None => true
  | Some acc => negb (IsContract (x_Keccak256 x) acc)
  end.

(** The conversion of a pair by the side that owns it. *)
Definition by_owner (tp : TokenPair) (coin_owned token_owned : evm_store → erc20_result evm_store)
    (st : erc20_store) : erc20_result erc20_store :=
  if IsNativeCoin tp then s ← coin_owned (er_evm st); Ok (with_evm s st)
  else if IsNativeERC20 tp then s ← token_owned (er_evm st); Ok (with_evm s st)
  else Err ErrUndefinedOwner.

(** A pair whose contract is gone is deleted, without an error. *)
Definition ConvertCoin (msg : MsgConvertCoin) (st : erc20_store) : erc20_result erc20_store :=
  let receiver := HexToAddress (cc_Receiver msg) in
  sender ← MustAccAddressFromBech32 (cc_Sender msg);
  tp ← MintingEnabled sender receiver (cc_Denom msg) st;
  if contract_gone tp st then Ok (DeleteTokenPair tp st)
  else by_owner tp (convertCoinNativeCoin tp msg receiver sender) (convertCoinNativeERC20 tp msg receiver sender) st.

Definition ConvertERC20 (msg : MsgConvertERC20) (st : erc20_store) : erc20_result erc20_store :=
  receiver ← MustAccAddressFromBech32 (ce_Receiver msg);
  let sender := HexToAddress (ce_Sender msg) in
  tp ← MintingEnabled sender receiver (ce_ContractAddress msg) st;
  if contract_gone tp st then Ok (DeleteTokenPair tp st)
  else by_owner tp (convertERC20NativeCoin tp msg receiver sender) (convertERC20NativeToken tp msg receiver sender) st.

Definition UpdateParams (authority : string) (p : Erc20Params) (st : erc20_store) : erc20_result erc20_store :=
  if decide (x_authority x = authority) then Ok (SetParams p st) else Err ErrInvalidSigner.

(** *** Stateless validation: [types/msg.go], [types/proposal.go] *)

Definition ValidateErc20Denom (denom : string) : erc20_result () :=
  match split_slash denom with
  | Some (prefix, address) =>
      if decide (prefix = ModuleName) then
        if IsHexAddress address then Ok () else Err ErrErc20Address
      else Err ErrErc20Denom
  | None => Err ErrErc20Denom
  end.

Definition ConvertCoin_ValidateBasic (msg : MsgConvertCoin) : erc20_result () :=
  if negb (is_Ok (ValidateErc20Denom (cc_Denom msg))) && negb (x_ValidateIBCDenom x (cc_Denom msg)) then Err ErrErc20Denom
  else if cc_Amount msg <=? 0 then Err ErrErc20Coins
  else if bool_decide (x_AccAddressFromBech32 x (cc_Sender msg) = None) then Err ErrErc20Address
  else if negb (IsHexAddress (cc_Receiver msg)) then Err ErrErc20Address
  else Ok ().

Definition ConvertERC20_ValidateBasic (msg : MsgConvertERC20) : erc20_result () :=
  if negb (IsHexAddress (ce_ContractAddress msg)) then Err ErrErc20Address
  else if ce_Amount msg <=? 0 then Err ErrErc20Coins
  else if bool_decide (x_AccAddressFromBech32 x (ce_Receiver msg) = None) then Err ErrErc20Address
  else if negb (IsHexAddress (ce_Sender msg)) then Err ErrErc20Address
  else Ok ().

(** ** Genesis: [genesis.go], [types/genesis.go] *)

Record Erc20Genesis := mkErc20Genesis { gs_Params : Erc20Params; gs_TokenPairs : list TokenPair }.

Fixpoint validate_pairs (pairs : list TokenPair) (seenErc20 seenDenom : gset string) : erc20_result () :=
  match pairs with
  | [] => Ok ()
  | b :: pairs =>
      if decide (tp_Erc20Address b ∈ seenErc20) then Err ErrTokenPairAlreadyExists
      else if decide (tp_Denom b ∈ seenDenom) then Err ErrTokenPairAlreadyExists
      else
        _ ← TokenPair_Validate b;
        validate_pairs pairs ({[tp_Erc20Address b]} ∪ seenErc20) ({[tp_Denom b]} ∪ seenDenom)
  end.
Definition Genesis_Validate (gs : Erc20Genesis) : erc20_result () := validate_pairs (gs_TokenPairs gs) ∅ ∅.

(** The account of the module exists when genesis runs. *)
Definition InitGenesis (gs : Erc20Genesis) (st : erc20_store) : erc20_store :=
  foldl (λ st tp, set_pair tp st) (SetParams (gs_Params gs) st) (gs_TokenPairs gs).

Definition ExportGenesis (st : erc20_store) : Erc20Genesis := mkErc20Genesis (GetParams st) (GetTokenPairs st).

End Erc20.

(** The EVM keeper of [EvmApply] and [EvmQuery] is an [EVMKeeper]. *)
Definition module_evm_keeper `{EE : EvmEnv} `{GE : Geth} `{LD : LegacyDec} (k : EvmModule)
    (consensusMaxGas : option Z) : EVMKeeper := {|
  evm_ApplyMessage := ApplyMessage k;
  evm_EstimateGasInternal := EstimateGasInternal k consensusMaxGas
|}.
