(* ===== verification/Erc20Spec.v ===== *)
(** * Token pairs and conversions: what the module guarantees

    The three maps of the registry describe one set of pairs with distinct coins and
    contracts; a genesis export is read back; a conversion moves exactly its amount
    on both sides and keeps every token backed. *)

From S2P Require Import Prelude Sdk Dec AccessList StateDB Journal EvmKeeper EvmKeeperSpec EvmTx GasMeter EvmApply EvmQuery Erc20 EvmTxSpec.

(** ** Pair identifiers *)

Definition bar : Ascii.ascii := Ascii.ascii_of_nat 124.

Fixpoint has_bar (s : string) : bool :=
  match s with EmptyString => false | String c s' => bool_decide (c = bar) || has_bar s' end.

Lemma append_bar_inj a a' d d' :
  has_bar a = false → has_bar a' = false →
  String.append a (String.append "|" d) = String.append a' (String.append "|" d') → a = a' ∧ d = d'.
Proof.
  revert a'. induction a as [|c a IH]; intros [|c' a'] Ha Ha' Heq; cbn in *.
  - by simplify_eq.
  - by simplify_eq.
  - by simplify_eq.
  - apply orb_false_iff in Ha as [_ Ha], Ha' as [_ Ha']. simplify_eq.
    destruct (IH a' Ha Ha') as [-> ->]; [done|]. done.
Qed.

(** ** Names *)

Lemma cut_prefix_length p s r : cut_prefix p s = Some r → String.length s = (String.length p + String.length r)%nat.
Proof.
  revert s. induction p as [|c p IH]; intros s Hc; [by injection Hc as ->|].
  destruct s as [|d s]; cbn in Hc; [done|]. case_decide; [|done]. cbn. by rewrite (IH _ Hc).
Qed.

Definition all_chars (P : Ascii.ascii → bool) (s : string) : bool := forallb P (String.list_ascii_of_string s).

Lemma cut_prefix_chars P p s r : cut_prefix p s = Some r → all_chars P s = true → all_chars P r = true.
Proof.
  revert s. induction p as [|c p IH]; intros s Hc; [by injection Hc as ->|].
  destruct s as [|d s]; cbn in Hc; [done|]. case_decide; [|done].
  intros [_ Hs]%andb_true_iff. exact (IH _ Hc Hs).
Qed.

(** The length of the string is enough fuel. *)
Lemma remove_prefixes_spec P fuel s :
  (String.length s <= fuel)%nat → all_chars P s = true →
  let r := remove_prefixes fuel s in
  cut_prefix "ibc/" r = None ∧ cut_prefix "erc20/" r = None ∧ (String.length r <= String.length s)%nat ∧ all_chars P r = true.
Proof.
  revert s. induction fuel as [|fuel IH]; intros s Hf Hs; cbn zeta.
  { destruct s; [done|cbn in Hf; lia]. }
  cbn [remove_prefixes]. destruct (cut_prefix "ibc/" s) as [r|] eqn:H1.
  - pose proof (cut_prefix_length _ _ _ H1) as Hl. cbn in Hl.
    destruct (IH r) as (? & ? & ? & ?); [lia|by eapply cut_prefix_chars|]. split_and!; [done..|lia|done].
  - destruct (cut_prefix "erc20/" s) as [r|] eqn:H2; [|done].
    pose proof (cut_prefix_length _ _ _ H2) as Hl. cbn in Hl.
    destruct (IH r) as (? & ? & ? & ?); [lia|by eapply cut_prefix_chars|]. split_and!; [done..|lia|done].
Qed.

Lemma remove_invalid_chars s : all_chars is_denom_char (remove_invalid s) = true.
Proof.
  induction s as [|c s IH]; [done|]. cbn [remove_invalid]. destruct (is_denom_char c) eqn:Hc; [|done].
  unfold all_chars in *. cbn. by rewrite Hc.
Qed.

Lemma substring_spec P s n :
  all_chars P s = true → (String.length (String.substring 0 n s) <= n)%nat ∧ all_chars P (String.substring 0 n s) = true.
Proof.
  revert n. induction s as [|c s IH]; intros [|n] Hs; cbn; [split; [lia|done]..|].
  unfold all_chars in *. cbn in *. apply andb_true_iff in Hs as [-> Hs]. destruct (IH n Hs). split; [lia|done].
Qed.

(** A sanitized name can be the name of a denomination: it has at most 128 characters,
    only those of a denomination, and none of the prefixes the chain uses itself. *)
Theorem sanitized_name name :
  let r := SanitizeERC20Name name in
  (String.length r <= 128)%nat ∧ all_chars is_denom_char r = true ∧
  cut_prefix "ibc/" r = None ∧ cut_prefix "erc20/" r = None.
Proof.
  cbv zeta. unfold SanitizeERC20Name. set (s := removeSpecialChars _).
  assert (all_chars is_denom_char s = true) as Hs.
  { unfold s, removeSpecialChars. destruct (removeLeadingNumbers name) as [|c t]; [done|].
    pose proof (remove_invalid_chars t) as Ht. destruct (is_letter c) eqn:Hc; [|done].
    unfold all_chars in *. cbn. unfold is_denom_char at 1. by rewrite Hc. }
  set (t := if _ : bool then _ else s).
  assert ((String.length t <= 128)%nat ∧ all_chars is_denom_char t = true) as [Hl Ht].
  { unfold t. destruct (Z.ltb_spec 128 (Z.of_nat (String.length s))); [by apply substring_spec|split; [lia|done]]. }
  destruct (remove_prefixes_spec is_denom_char (String.length t) t) as (? & ? & ? & ?); [done..|].
  unfold removeInvalidPrefixes. split_and!; [lia|done..].
Qed.

Section Registry.
Context `{EE : EvmEnv} `{GL : GethLaws} `{EK : !EVMKeeper}.

(** Hashes of identifiers do not collide, addresses have twenty bytes, and a hex
    address has no bar in it. *)
Record id_laws (x : erc20_env) : Prop := {
  law_Sum s s' : x_Sum x s = x_Sum x s' → s = s';
  law_HexToAddress s : in_address (HexToAddress s);
  law_hex_bar s : IsHexAddress s = true → has_bar s = false
}.

Variable x : erc20_env.
Hypothesis IL : id_laws x.

(** A pair as the module stores it: a hex address. *)
Definition pair_ok (tp : TokenPair) : Prop := IsHexAddress (tp_Erc20Address tp) = true.

(** The indices are those of the pairs, which are stored under their identifiers. *)
Record registry_wf (st : erc20_store) : Prop := {
  wf_pair id tp : er_pairs st !! id = Some tp →
    pair_ok tp ∧ id = GetID x tp ∧ er_byDenom st !! tp_Denom tp = Some id ∧
    er_byERC20 st !! GetERC20Contract tp = Some id;
  wf_denom d id : er_byDenom st !! d = Some id → ∃ tp, er_pairs st !! id = Some tp ∧ tp_Denom tp = d;
  wf_erc20 a id : er_byERC20 st !! a = Some id → ∃ tp, er_pairs st !! id = Some tp ∧ GetERC20Contract tp = a
}.

Lemma GetID_inj tp tp' : pair_ok tp → pair_ok tp' → GetID x tp = GetID x tp' →
  tp_Erc20Address tp = tp_Erc20Address tp' ∧ tp_Denom tp = tp_Denom tp'.
Proof.
  intros Ho Ho' Hid%(law_Sum x IL). apply append_bar_inj in Hid; [done| |]; by apply (law_hex_bar x IL).
Qed.

(** Neither the coin nor the contract of the pair is registered. *)
Definition fresh (tp : TokenPair) (st : erc20_store) : Prop :=
  er_byDenom st !! tp_Denom tp = None ∧ er_byERC20 st !! GetERC20Contract tp = None.

Lemma fresh_id tp st : registry_wf st → pair_ok tp → fresh tp st → er_pairs st !! GetID x tp = None.
Proof.
  intros WF Ho [Hd _]. destruct (er_pairs st !! GetID x tp) as [tp'|] eqn:Hp; [|done].
  destruct (wf_pair _ WF _ _ Hp) as (Ho' & Hid & Hd' & _).
  destruct (GetID_inj tp tp' Ho Ho' Hid) as [_ Heq]. rewrite Heq in Hd. by rewrite Hd in Hd'.
Qed.

Lemma set_pair_wf tp st : registry_wf st → pair_ok tp → fresh tp st → registry_wf (set_pair x tp st).
Proof.
  intros WF Ho Hf. pose proof (fresh_id tp st WF Ho Hf) as Hid. destruct Hf as [Hd Ha]. split; cbn.
  - intros id tp' [(<- & ->)|(Hne & Hp)]%lookup_insert_Some; [by rewrite !lookup_insert_eq|].
    destruct (wf_pair _ WF _ _ Hp) as (Ho' & -> & Hd' & Ha'). split_and!; [done..| |].
    + rewrite lookup_insert_ne; [done|]. intros Heq. by rewrite Heq, Hd' in Hd.
    + rewrite lookup_insert_ne; [done|]. intros Heq. by rewrite Heq, Ha' in Ha.
  - intros d id [(<- & <-)|(Hne & Hp)]%lookup_insert_Some; [exists tp; by rewrite lookup_insert_eq|].
    destruct (wf_denom _ WF _ _ Hp) as (tp' & Hp' & Heq). exists tp'. rewrite lookup_insert_ne; [done|].
    intros <-. by rewrite Hid in Hp'.
  - intros a id [(<- & <-)|(Hne & Hp)]%lookup_insert_Some; [exists tp; by rewrite lookup_insert_eq|].
    destruct (wf_erc20 _ WF _ _ Hp) as (tp' & Hp' & Heq). exists tp'. rewrite lookup_insert_ne; [done|].
    intros <-. by rewrite Hid in Hp'.
Qed.

Lemma delete_pair_wf id tp st :
  registry_wf st → er_pairs st !! id = Some tp → registry_wf (DeleteTokenPair x tp st).
Proof.
  intros WF Hp. destruct (wf_pair _ WF _ _ Hp) as (Ho & -> & Hd & Ha). split; cbn.
  - intros id tp' [Hne Hp']%lookup_delete_Some. destruct (wf_pair _ WF _ _ Hp') as (Ho' & -> & Hd' & Ha').
    split_and!; [done..| |]; apply lookup_delete_Some; (split; [|done]); intros Heq; apply Hne;
      [rewrite Heq in Hd|rewrite Heq in Ha]; congruence.
  - intros d id [Hne Hd']%lookup_delete_Some. destruct (wf_denom _ WF _ _ Hd') as (tp' & Hp' & <-).
    exists tp'. split; [|done]. apply lookup_delete_Some. split; [|done]. intros <-. congruence.
  - intros a id [Hne Ha']%lookup_delete_Some. destruct (wf_erc20 _ WF _ _ Ha') as (tp' & Hp' & <-).
    exists tp'. split; [|done]. apply lookup_delete_Some. split; [|done]. intros <-. congruence.
Qed.

(** Enabling or disabling a pair keeps its identifier. *)
Lemma toggle_wf id tp tp' st :
  registry_wf st → er_pairs st !! id = Some tp →
  tp_Erc20Address tp' = tp_Erc20Address tp → tp_Denom tp' = tp_Denom tp → registry_wf (SetTokenPair x tp' st).
Proof.
  intros WF Hp Ha Hd. destruct (wf_pair _ WF _ _ Hp) as (Ho & Hid & Hd1 & Ha1).
  assert (GetID x tp' = id) as Hid' by (unfold GetID; by rewrite Ha, Hd).
  assert (GetERC20Contract tp' = GetERC20Contract tp) as Hc by (unfold GetERC20Contract; by rewrite Ha).
  split; cbn.
  - intros id' t [(<- & ->)|(Hne & Hp')]%lookup_insert_Some; [|by apply (wf_pair _ WF)].
    unfold pair_ok. by rewrite Hc, Ha, Hd, Hid'.
  - intros d id' Hl. destruct (wf_denom _ WF _ _ Hl) as (t & Ht & <-). rewrite Hid'.
    destruct (decide (id = id')) as [<-|]; [|exists t; by rewrite lookup_insert_ne].
    exists tp'. rewrite lookup_insert_eq. split; [done|congruence].
  - intros a id' Hl. destruct (wf_erc20 _ WF _ _ Hl) as (t & Ht & <-). rewrite Hid'.
    destruct (decide (id = id')) as [<-|]; [|exists t; by rewrite lookup_insert_ne].
    exists tp'. rewrite lookup_insert_eq. split; [done|congruence].
Qed.

(** The registry is a function of the pairs. *)
Lemma registry_determined st st' :
  registry_wf st → registry_wf st' → er_pairs st = er_pairs st' →
  er_byDenom st = er_byDenom st' ∧ er_byERC20 st = er_byERC20 st'.
Proof.
  intros WF WF' Hp.
  assert (∀ st st', registry_wf st → registry_wf st' → er_pairs st = er_pairs st' →
    (∀ d id, er_byDenom st !! d = Some id → er_byDenom st' !! d = Some id) ∧
    (∀ a id, er_byERC20 st !! a = Some id → er_byERC20 st' !! a = Some id)) as Hsub.
  { clear. intros st st' WF WF' Hp. split.
    - intros d id (tp & Htp & <-)%(wf_denom _ WF). rewrite Hp in Htp. by apply (wf_pair _ WF') in Htp as (_ & _ & ? & _).
    - intros a id (tp & Htp & <-)%(wf_erc20 _ WF). rewrite Hp in Htp. by apply (wf_pair _ WF') in Htp as (_ & _ & _ & ?). }
  destruct (Hsub st st' WF WF' Hp) as [Hd Ha], (Hsub st' st WF' WF (eq_sym Hp)) as [Hd' Ha'].
  split; apply map_eq; intros i; apply option_eq; intros id; (split; [apply Hd || apply Ha|apply Hd' || apply Ha']).
Qed.

(** *** Operations *)

Lemma with_evm_wf s st : registry_wf st → registry_wf (with_evm s st).
Proof. by intros [H1 H2 H3]. Qed.

Lemma SetParams_wf p st : registry_wf st → registry_wf (SetParams p st).
Proof. by intros [H1 H2 H3]. Qed.

Lemma GetTokenPair_inv id st tp : GetTokenPair (Some id) st = Some tp → er_pairs st !! id = Some tp.
Proof. done. Qed.

Lemma CreateCoinMetadata_inv contract st md st' :
  CreateCoinMetadata x contract st = Ok (md, st') →
  md_Name md = CreateDenom (Address_Hex contract) ∧ er_byDenom st !! md_Name md = None ∧
  ∃ s, st' = with_evm s st.
Proof.
  unfold CreateCoinMetadata. intros Hc. apply bind_Ok_inv in Hc as ([d s] & _ & Hc).
  destruct (x_GetDenomMetaData _ _ _); [done|]. destruct (IsDenomRegistered _ st) eqn:Hr; [done|].
  unfold IsDenomRegistered in Hr. apply bool_decide_eq_false, eq_None_not_Some in Hr.
  destruct (x_MetadataValidate _ _); [|done]. simplify_eq. destruct (0 <? ed_Decimals d); cbn; eauto.
Qed.

Lemma RegisterERC20_wf contract st tp st' :
  in_address contract → registry_wf st → RegisterERC20 x contract st = Ok (tp, st') → registry_wf st'.
Proof.
  intros Hc WF. unfold RegisterERC20. destruct (IsERC20Registered contract st) eqn:Hr; [done|].
  unfold IsERC20Registered in Hr. apply bool_decide_eq_false, eq_None_not_Some in Hr.
  intros Hm. apply bind_Ok_inv in Hm as ([md st1] & Hm & Hst). simplify_eq.
  apply CreateCoinMetadata_inv in Hm as (_ & Hd & s & ->).
  apply set_pair_wf; [by apply with_evm_wf|by apply IsHexAddress_Hex|].
  split; [done|]. cbn. unfold GetERC20Contract. cbn. by rewrite HexToAddress_Hex.
Qed.

Lemma handleRegister_wf addresses st st' :
  registry_wf st → handleRegisterERC20Proposal x addresses st = Ok st' → registry_wf st'.
Proof.
  revert st. induction addresses as [|a addresses IH]; intros st WF Hh; [by simplify_eq/=|].
  cbn [handleRegisterERC20Proposal] in Hh. apply bind_Ok_inv in Hh as ([tp st1] & H1 & H2).
  apply (IH st1); [|done]. by eapply RegisterERC20_wf; [apply (law_HexToAddress x IL)|..].
Qed.

Lemma ToggleConversion_wf token st tp st' :
  registry_wf st → ToggleConversion x token st = Ok (tp, st') → registry_wf st'.
Proof.
  intros WF. unfold ToggleConversion. destruct (GetTokenPairID token st) as [id|]; [|done].
  destruct (GetTokenPair (Some id) st) as [tp'|] eqn:Hp; [|done]. intros [= <- <-]. by eapply toggle_wf.
Qed.

Lemma MintingEnabled_inv sender receiver token st tp :
  MintingEnabled x sender receiver token st = Ok tp →
  er_EnableErc20 st = true ∧ (∃ id, GetTokenPairID token st = Some id ∧ er_pairs st !! id = Some tp) ∧
  tp_Enabled tp = true ∧ x_BlockedAddr x receiver = false ∧
  (sender = receiver ∨ x_IsSendEnabledCoin x (ek_chain (er_evm st)) (tp_Denom tp) = true).
Proof.
  unfold MintingEnabled, IsERC20Enabled. destruct (er_EnableErc20 st); [|done]. cbn [negb].
  destruct (GetTokenPairID token st) as [id|]; [|done]. destruct (GetTokenPair (Some id) st) as [tp'|] eqn:Hp; [|done].
  destruct (tp_Enabled tp') eqn:He; [|done]. destruct (x_BlockedAddr x receiver); [done|]. cbn [negb].
  destruct (_ && _) eqn:Hs; [done|]. intros [= ->]. split_and!; [done|by exists id|done..|].
  apply andb_false_iff in Hs as [Hs|Hs]; apply negb_false_iff in Hs; [left; by apply bool_decide_eq_true in Hs|by right].
Qed.

Lemma by_owner_inv tp f g st st' :
  by_owner tp f g st = Ok st' →
  ∃ s, st' = with_evm s st ∧
    ((tp_ContractOwner tp = OWNER_MODULE ∧ f (er_evm st) = Ok s) ∨
     (tp_ContractOwner tp = OWNER_EXTERNAL ∧ g (er_evm st) = Ok s)).
Proof.
  unfold by_owner, IsNativeCoin, IsNativeERC20. case_bool_decide.
  - intros Hb. apply bind_Ok_inv in Hb as (s & Hf & [= <-]). eauto.
  - case_bool_decide; [|done]. intros Hb. apply bind_Ok_inv in Hb as (s & Hf & [= <-]). eauto.
Qed.

Lemma ConvertCoin_wf msg st st' : registry_wf st → ConvertCoin x msg st = Ok st' → registry_wf st'.
Proof.
  intros WF Hc. unfold ConvertCoin in Hc. apply bind_Ok_inv in Hc as (sender & _ & Hc).
  apply bind_Ok_inv in Hc as (tp & Hm & Hc). apply MintingEnabled_inv in Hm as (_ & (id & _ & Hp) & _).
  destruct (contract_gone _ tp st); [simplify_eq; by eapply delete_pair_wf|].
  apply by_owner_inv in Hc as (s & -> & _). by apply with_evm_wf.
Qed.

Lemma ConvertERC20_wf msg st st' : registry_wf st → ConvertERC20 x msg st = Ok st' → registry_wf st'.
Proof.
  intros WF Hc. unfold ConvertERC20 in Hc. apply bind_Ok_inv in Hc as (receiver & _ & Hc).
  apply bind_Ok_inv in Hc as (tp & Hm & Hc). apply MintingEnabled_inv in Hm as (_ & (id & _ & Hp) & _).
  destruct (contract_gone _ tp st); [simplify_eq; by eapply delete_pair_wf|].
  apply by_owner_inv in Hc as (s & -> & _). by apply with_evm_wf.
Qed.

(** What happens to the store of the module: governance, conversions, parameters, and
    whatever the rest of the chain does to its own stores. *)
Inductive erc20_step : erc20_store → erc20_store → Prop :=
| step_proposal content st st' : handle_proposal x content st = Ok st' → erc20_step st st'
| step_ConvertCoin msg st st' : ConvertCoin x msg st = Ok st' → erc20_step st st'
| step_ConvertERC20 msg st st' : ConvertERC20 x msg st = Ok st' → erc20_step st st'
| step_UpdateParams authority p st st' : UpdateParams x authority p st = Ok st' → erc20_step st st'
| step_rest s st : erc20_step st (with_evm s st).

Lemma erc20_step_wf st st' : erc20_step st st' → registry_wf st → registry_wf st'.
Proof.
  intros [content st1 st2 Hp|msg st1 st2 Hp|msg st1 st2 Hp|authority p st1 st2 Hp|s st1] WF.
  - unfold handle_proposal in Hp. destruct (negb _); [done|].
    destruct content; [by eapply handleRegister_wf|apply bind_Ok_inv in Hp as ([tp st3] & Ht & [= <-])|done].
    by eapply ToggleConversion_wf.
  - by eapply ConvertCoin_wf.
  - by eapply ConvertERC20_wf.
  - unfold UpdateParams in Hp. case_decide; simplify_eq. by apply SetParams_wf.
  - by apply with_evm_wf.
Qed.

(** *** Genesis *)

(** The address is written the way [common.Address.String] does. *)
Definition canonical (tp : TokenPair) : Prop := tp_Erc20Address tp = Address_Hex (GetERC20Contract tp).

(** No two pairs share a coin or a contract. *)
Definition distinct_pairs (l : list TokenPair) : Prop :=
  NoDup (tp_Denom <$> l) ∧ NoDup (GetERC20Contract <$> l).

Lemma validate_pairs_inv l seenA seenD :
  validate_pairs x l seenA seenD = Ok () →
  Forall pair_ok l ∧ NoDup (tp_Erc20Address <$> l) ∧ NoDup (tp_Denom <$> l) ∧
  Forall (λ tp, (tp_Erc20Address tp ∉ seenA) ∧ (tp_Denom tp ∉ seenD)) l.
Proof.
  revert seenA seenD. induction l as [|tp l IH]; intros seenA seenD Hv.
  { split_and!; [done|apply NoDup_nil_2|apply NoDup_nil_2|done]. }
  cbn [validate_pairs] in Hv. destruct (decide _) as [|Ha]; [done|]. destruct (decide _) as [|Hd]; [done|].
  apply bind_Ok_inv in Hv as ([] & Hval & Hv). apply IH in Hv as (Hok & Hna & Hnd & Hseen).
  unfold TokenPair_Validate in Hval. destruct (x_ValidateDenom _ _); [|done].
  destruct (IsHexAddress (tp_Erc20Address tp)) eqn:Hhex; [|done].
  rewrite Forall_forall in Hseen. rewrite !fmap_cons. split_and!.
  - by constructor.
  - constructor; [|done]. intros (tp' & Heq & Hin)%list_elem_of_fmap. destruct (Hseen tp' Hin) as [Hs _]. set_solver.
  - constructor; [|done]. intros (tp' & Heq & Hin)%list_elem_of_fmap. destruct (Hseen tp' Hin) as [_ Hs]. set_solver.
  - constructor; [done|]. apply Forall_forall. intros tp' Hin. destruct (Hseen tp' Hin). set_solver.
Qed.

Lemma canonical_distinct l :
  Forall canonical l → NoDup (tp_Erc20Address <$> l) → NoDup (GetERC20Contract <$> l).
Proof.
  intros Hc Hn. replace (tp_Erc20Address <$> l) with (Address_Hex <$> (GetERC20Contract <$> l)) in Hn.
  - by eapply NoDup_fmap_1.
  - rewrite <-list_fmap_compose. apply list_fmap_ext. intros i tp Hl.
    rewrite Forall_lookup in Hc. symmetry. by eapply Hc.
Qed.

Lemma fresh_set_pair tp tp' st :
  fresh tp st → tp_Denom tp ≠ tp_Denom tp' → GetERC20Contract tp ≠ GetERC20Contract tp' → fresh tp (set_pair x tp' st).
Proof. intros [Hd Ha] Hnd Hna. split; cbn; by rewrite lookup_insert_ne. Qed.

(** Storing distinct fresh pairs. *)
Lemma set_pairs_spec l st :
  registry_wf st → Forall pair_ok l → distinct_pairs l → Forall (λ tp, fresh tp st) l →
  let st' := foldl (λ st tp, set_pair x tp st) st l in
  registry_wf st' ∧ er_evm st' = er_evm st ∧ GetParams st' = GetParams st ∧
  ∀ id tp, er_pairs st' !! id = Some tp ↔ er_pairs st !! id = Some tp ∨ (tp ∈ l ∧ id = GetID x tp).
Proof.
  revert st. induction l as [|tp l IH]; intros st WF Hok [Hnd Hna] Hf; cbn zeta.
  { cbn [foldl]. split_and!; [done..|]. intros id tp. rewrite elem_of_nil. naive_solver. }
  cbn [foldl]. rewrite fmap_cons in Hnd. rewrite fmap_cons in Hna. apply NoDup_cons in Hnd as [Hd Hnd], Hna as [Ha Hna].
  apply Forall_cons in Hok as [Ho Hok], Hf as [Hf1 Hf].
  destruct (IH (set_pair x tp st)) as (WF' & He & Hg & Hl).
  - by apply set_pair_wf.
  - done.
  - by split.
  - rewrite Forall_forall in Hf |- *. intros tp' Hin. apply fresh_set_pair; [by apply Hf| |];
      intros Heq; [apply Hd|apply Ha]; apply list_elem_of_fmap; by exists tp'.
  - split_and!; [done..|]. intros id t. rewrite Hl, elem_of_cons. cbn. rewrite lookup_insert_Some.
    pose proof (fresh_id tp st WF Ho Hf1) as Hid. naive_solver.
Qed.

(** A store without pairs. *)
Definition no_pairs (st : erc20_store) : Prop := er_pairs st = ∅ ∧ er_byDenom st = ∅ ∧ er_byERC20 st = ∅.

Lemma no_pairs_wf st : no_pairs st → registry_wf st.
Proof. intros (Hp & Hd & Ha). split; intros *; rewrite ?Hp, ?Hd, ?Ha; by rewrite lookup_empty. Qed.

Lemma InitGenesis_spec gs st :
  no_pairs st → Forall pair_ok (gs_TokenPairs gs) → distinct_pairs (gs_TokenPairs gs) →
  let st' := InitGenesis x gs st in
  registry_wf st' ∧ er_evm st' = er_evm st ∧ GetParams st' = gs_Params gs ∧
  ∀ id tp, er_pairs st' !! id = Some tp ↔ tp ∈ gs_TokenPairs gs ∧ id = GetID x tp.
Proof.
  intros Hn Hok Hd. pose proof Hn as (Hp & Hde & Ha). unfold InitGenesis.
  destruct (set_pairs_spec (gs_TokenPairs gs) (SetParams (gs_Params gs) st)) as (WF & He & Hg & Hl); [| done..| |].
  - by apply SetParams_wf, no_pairs_wf.
  - apply Forall_true. intros tp. split; cbn; [by rewrite Hde|by rewrite Ha].
  - split_and!; [done|by rewrite He| |].
    + rewrite Hg. by destruct (gs_Params gs).
    + intros id tp. rewrite Hl. cbn. rewrite Hp, lookup_empty. naive_solver.
Qed.

(** C34.  The registry stays consistent.  From a genesis that validates, with addresses
    in checksummed form, and through any sequence of proposals, conversions, parameter
    updates and changes of the rest of the chain: every pair is stored under its
    identifier and found by its coin and by its contract, the indices hold nothing
    else, and no two pairs share a coin or a contract. *)
Theorem registry_consistent gs st0 st :
  no_pairs st0 → Genesis_Validate x gs = Ok () → Forall canonical (gs_TokenPairs gs) →
  rtc erc20_step (InitGenesis x gs st0) st →
  registry_wf st ∧
  ∀ id id' tp tp', er_pairs st !! id = Some tp → er_pairs st !! id' = Some tp' →
    tp_Denom tp = tp_Denom tp' ∨ GetERC20Contract tp = GetERC20Contract tp' → tp = tp'.
Proof using IL GL.
  intros Hn Hv Hc Hsteps. apply validate_pairs_inv in Hv as (Hok & Hna & Hnd & _).
  destruct (InitGenesis_spec gs st0 Hn Hok) as (WF & _); [split; [done|by apply canonical_distinct]|].
  assert (registry_wf st) as WF'.
  { revert WF. induction Hsteps as [|st1 st2 st3 Hstep _ IH]; [done|]. intros WF. apply IH. by eapply erc20_step_wf. }
  split; [done|]. intros id id' tp tp' Hp Hp' Heq.
  destruct (wf_pair _ WF' _ _ Hp) as (_ & _ & Hd & Ha), (wf_pair _ WF' _ _ Hp') as (_ & _ & Hd' & Ha').
  assert (id = id') as <- by (destruct Heq as [Heq|Heq]; rewrite Heq in *; congruence). congruence.
Qed.

Lemma elem_of_GetTokenPairs st tp : tp ∈ GetTokenPairs st ↔ ∃ id, er_pairs st !! id = Some tp.
Proof.
  unfold GetTokenPairs. rewrite list_elem_of_omap. split.
  - intros (id & _ & Hl). by exists id.
  - intros (id & Hl). exists id. split; [|done]. apply elem_of_sorted_keys. by exists tp.
Qed.

(** The pairs of a list of identifiers are distinct when the identifiers are. *)
Lemma omap_pairs_distinct st ids :
  registry_wf st → NoDup ids → distinct_pairs (omap (λ id, er_pairs st !! id) ids).
Proof.
  intros WF. induction ids as [|id ids IH]; intros Hnd; [split; apply NoDup_nil_2|].
  apply NoDup_cons in Hnd as [Hni Hnd]. cbn [omap list_omap]. destruct (er_pairs st !! id) as [tp|] eqn:Hp; [|by apply IH].
  destruct (IH Hnd) as [Hd Ha]. destruct (wf_pair _ WF _ _ Hp) as (_ & _ & Hd1 & Ha1).
  split; apply NoDup_cons; (split; [|done]); intros (tp' & Heq & (id' & Hin & Hp')%list_elem_of_omap)%list_elem_of_fmap;
    destruct (wf_pair _ WF _ _ Hp') as (_ & _ & Hd2 & Ha2); rewrite <-Heq in *; congruence.
Qed.

(** Genesis round trip.  What a consistent registry exports is read back: pairs,
    indices and parameters are those of the store that was exported. *)
Theorem erc20_genesis_roundtrip st st0 :
  registry_wf st → no_pairs st0 →
  InitGenesis x (ExportGenesis st) st0 = with_evm (er_evm st0) st.
Proof using IL.
  intros WF Hn. destruct (InitGenesis_spec (ExportGenesis st) st0 Hn) as (WF' & He & Hg & Hl).
  - apply Forall_forall. intros tp (id & Hp)%elem_of_GetTokenPairs. by apply (wf_pair _ WF) in Hp as (? & _).
  - apply omap_pairs_distinct; [done|apply NoDup_sorted_keys].
  - set (st' := InitGenesis x (ExportGenesis st) st0) in *.
    assert (er_pairs st' = er_pairs st) as Hp.
    { apply map_eq. intros id. apply option_eq. intros tp. rewrite Hl. cbn [ExportGenesis gs_TokenPairs].
      rewrite elem_of_GetTokenPairs. split.
      - intros ((id' & Hp) & ->). by destruct (wf_pair _ WF _ _ Hp) as (_ & <- & _).
      - intros Hp. split; [by exists id|]. by destruct (wf_pair _ WF _ _ Hp) as (_ & ? & _). }
    destruct (registry_determined st' st WF' WF Hp) as [Hd Ha].
    destruct st'. cbn in *. unfold with_evm. subst. destruct st. cbn in *. injection Hg as -> ->. done.
Qed.

(** Registering a coin looks its name up and stores its base denomination: a base that
    is registered under another name gets a second pair, and the first one is no
    longer found by its coin. *)
Lemma coin_registered_twice md st tp id new st' :
  registry_wf st → er_pairs st !! id = Some tp → tp_Denom tp = md_Base md →
  RegisterCoin x md st = Ok (new, st') → tp_Erc20Address new ≠ tp_Erc20Address tp → pair_ok new →
  er_pairs st' !! id = Some tp ∧ GetTokenPair (GetDenomMap (tp_Denom tp) st') st' = Some new ∧ ¬ registry_wf st'.
Proof using IL.
  intros WF Hp Hd Hr Hne Hok. unfold RegisterCoin in Hr. destruct (IsDenomRegistered _ _); [done|].
  destruct (negb _); [done|]. apply bind_Ok_inv in Hr as (s & _ & Hr). apply bind_Ok_inv in Hr as ([addr s'] & _ & Hr).
  injection Hr as <- <-. destruct (wf_pair _ WF _ _ Hp) as (Hok' & Hid & _).
  assert (id ≠ GetID x (NewTokenPair addr (md_Base md) OWNER_MODULE)) as Hid'.
  { intros Heq. rewrite Hid in Heq. symmetry in Heq. apply GetID_inj in Heq as [? _]; done. }
  set (new := NewTokenPair addr (md_Base md) OWNER_MODULE) in *.
  assert (er_byDenom (set_pair x new (with_evm s' st)) !! tp_Denom tp = Some (GetID x new)) as Hby
    by (cbn; rewrite Hd; apply lookup_insert_eq).
  split_and!.
  - cbn. by rewrite lookup_insert_ne.
  - unfold GetDenomMap. rewrite Hby. cbn. by rewrite lookup_insert_eq.
  - intros WF'. destruct (wf_pair _ WF' id tp) as (_ & _ & Hd' & _); [cbn; by rewrite lookup_insert_ne|].
    rewrite Hby in Hd'. congruence.
Qed.

End Registry.

(** ** Conversions *)

(** [n] when the condition holds. *)
Definition delta (b : bool) (n : Z) : Z := if b then n else 0.

Ltac deltas :=
  cbn beta; unfold delta in *; repeat case_decide; repeat case_bool_decide; subst; try done; lia.

Section Conversions.
Context `{CL : CoinsLaws} `{EE : !EvmEnv} `{GE : Geth} `{EK : !EVMKeeper}.
Variable x : erc20_env.

(** The bank operations of the module account, which may create accounts and leave the
    others as they are. *)
Record module_bank_laws : Prop := {
  law_ToModule c a cs c' :
    x_SendToModule x c a cs = Ok c' → transferred a (x_ModuleAddress x) cs c c' ∧ kept_accounts c c';
  law_FromModule c a cs c' :
    x_SendFromModule x c a cs = Ok c' → transferred (x_ModuleAddress x) a cs c c' ∧ kept_accounts c c';
  law_Mint c cs c' : x_MintCoins x c cs = Ok c' → credited (x_ModuleAddress x) cs 1 c c' ∧ kept_accounts c c';
  law_Burn c cs c' : x_BurnCoins x c cs = Ok c' → credited (x_ModuleAddress x) cs (-1) c c' ∧ kept_accounts c c'
}.

(** The stores in which the contract of a token is deployed and in order, and there the
    balances and the supply of the token. *)
Record token_view := mkTokenView {
  tok_live : evm_store → Prop;
  tok_balance : evm_store → Address → Z;
  tok_supply : evm_store → Z
}.

(** A token that answers [balanceOf] without side effects, and whose state is its own:
    it does not change when accounts and balances do, as long as no account is lost, and
    calls of the contract leave it in order. *)
Record token_laws (contract : Address) (tok : token_view) : Prop := {
  law_balanceOf a s res s' : tok_live tok s →
    CallEVM x (x_ModuleAddress x) contract false (Call_balanceOf a) s = Ok (res, s') →
    s' = s ∧ ∀ n, x_UnpackUint256 x (res_Ret res) = Some n → n = tok_balance tok s a;
  law_stays from call s res s' : tok_live tok s →
    CallEVM x from contract true call s = Ok (res, s') → tok_live tok s';
  law_own_live c s : tok_live tok s → kept_accounts (ek_chain s) c → tok_live tok (set_chain c s);
  law_own_state c s a : tok_live tok s → kept_accounts (ek_chain s) c →
    tok_balance tok (set_chain c s) a = tok_balance tok s a;
  law_own_supply c s : tok_live tok s → kept_accounts (ek_chain s) c → tok_supply tok (set_chain c s) = tok_supply tok s
}.

(** A call that changes balances of the token by [f] and its supply by [n]. *)
Definition token_changed (tok : token_view) (f : Address → Z) (n : Z) (s s' : evm_store) : Prop :=
  same_bank (ek_chain s) (ek_chain s') ∧ tok_supply tok s' = tok_supply tok s + n ∧
  ∀ a, tok_balance tok s' a = tok_balance tok s a + f a.

(** [ERC20MinterBurnerDecimals.sol], called by its owner. *)
Record minter_laws (contract : Address) (tok : token_view) : Prop := {
  minter_token : token_laws contract tok;
  law_mint to n s res s' : tok_live tok s →
    CallEVM x (x_ModuleAddress x) contract true (Call_mint to n) s = Ok (res, s') →
    token_changed tok (λ a, delta (bool_decide (a = to)) n) n s s';
  law_burnCoins from n s res s' : tok_live tok s →
    CallEVM x (x_ModuleAddress x) contract true (Call_burnCoins from n) s = Ok (res, s') →
    token_changed tok (λ a, delta (bool_decide (a = from)) (- n)) (- n) s s'
}.

(** A token of ERC-20, with the return value of [transfer]. *)
Record transfer_laws (contract : Address) (tok : token_view) : Prop := {
  transfer_token : token_laws contract tok;
  law_transfer from to n s res s' : tok_live tok s →
    CallEVM x from contract true (Call_transfer to n) s = Ok (res, s') →
    x_UnpackBool x (res_Ret res) = Some true →
    token_changed tok (λ a, delta (bool_decide (a = to)) n - delta (bool_decide (a = from)) n) 0 s s'
}.

Variable tok : token_view.

(** From [s] to [s']: balances of [denom] change by [cb] and its supply by [cs], those
    of the token, which stays in order, by [tb] and its supply by [ts]; no other coin
    changes. *)
Record moved (denom : string) (cb : Address → Z) (cs : Z) (tb : Address → Z) (ts : Z) (s s' : evm_store) : Prop := {
  moved_coins a d : bank_GetBalance (ek_chain s') a d =
    bank_GetBalance (ek_chain s) a d + delta (bool_decide (d = denom)) (cb a);
  moved_supply d : bank_GetSupply (ek_chain s') d =
    bank_GetSupply (ek_chain s) d + delta (bool_decide (d = denom)) cs;
  moved_tokens a : tok_balance tok s' a = tok_balance tok s a + tb a;
  moved_token_supply : tok_supply tok s' = tok_supply tok s + ts;
  moved_live : tok_live tok s'
}.

(** Changes of one denomination add up. *)
Lemma moved_trans denom cb cs tb ts cb' cs' tb' ts' s s' s'' :
  moved denom cb cs tb ts s s' → moved denom cb' cs' tb' ts' s' s'' →
  moved denom (λ a, cb a + cb' a) (cs + cs') (λ a, tb a + tb' a) (ts + ts') s s''.
Proof.
  intros [H1 H2 H3 H4 _] [H1' H2' H3' H4' H5'].
  split; [..|done]; intros; rewrite ?H1', ?H2', ?H3', ?H4', ?H1, ?H2, ?H3, ?H4; deltas.
Qed.

Lemma moved_call denom f n s s' : token_changed tok f n s s' → tok_live tok s' → moved denom (λ _, 0) 0 f n s s'.
Proof.
  intros ((Hb & Hs) & Hsup & Hbal) Hl.
  split; [..|done]; intros; rewrite ?Hb, ?Hs, ?Hsup, ?Hbal; deltas.
Qed.

Lemma on_bank_inv f s s' : on_bank f s = Ok s' → ∃ c, f (ek_chain s) = Ok c ∧ s' = set_chain c s.
Proof.
  unfold on_bank. intros Hf. apply bind_Ok_inv in Hf as (c & Hc & [= <-]). exists c.
  split; [|done]. by destruct (f (ek_chain s)); simplify_eq/=.
Qed.

Section Token.
Variable contract : Address.
Hypothesis TL : token_laws contract tok.
Hypothesis BL : module_bank_laws.

Lemma moved_send denom n from to f s s' :
  0 <= n → (∀ c c', f c = Ok c' → transferred from to (NewCoin denom n) c c' ∧ kept_accounts c c') →
  tok_live tok s → on_bank f s = Ok s' →
  moved denom (λ a, delta (bool_decide (a = to)) n - delta (bool_decide (a = from)) n) 0 (λ _, 0) 0 s s'.
Proof.
  intros Hn Hf Hl (c & [[Hb Hs] Hk]%Hf & ->)%on_bank_inv.
  split; [..|by apply (law_own_live _ _ TL)]; intros; cbn [ek_chain set_chain];
    rewrite ?(law_own_state _ _ TL), ?(law_own_supply _ _ TL), ?Hb, ?Hs, ?AmountOf_NewCoin by done; deltas.
Qed.

Lemma moved_credit denom n sign f s s' :
  0 <= n → (∀ c c', f c = Ok c' → credited (x_ModuleAddress x) (NewCoin denom n) sign c c' ∧ kept_accounts c c') →
  tok_live tok s → on_bank f s = Ok s' →
  moved denom (λ a, delta (bool_decide (a = x_ModuleAddress x)) (sign * n)) (sign * n) (λ _, 0) 0 s s'.
Proof.
  intros Hn Hf Hl (c & [[Hb Hs] Hk]%Hf & ->)%on_bank_inv.
  split; [..|by apply (law_own_live _ _ TL)]; intros; cbn [ek_chain set_chain];
    rewrite ?(law_own_state _ _ TL), ?(law_own_supply _ _ TL), ?Hb, ?Hs, ?AmountOf_NewCoin by done; deltas.
Qed.

Lemma token_balance_inv account s n s' :
  tok_live tok s → token_balance x contract account s = Ok (n, s') → s' = s ∧ n = tok_balance tok s account.
Proof.
  intros Hl. unfold token_balance, BalanceOf. destruct (CallEVM _ _ _ _ _ _) as [[res s1]| |] eqn:Hc; [|done..].
  destruct (law_balanceOf _ _ TL _ _ _ _ Hl Hc) as [-> Hn].
  destruct (x_UnpackUint256 x (res_Ret res)) eqn:Hu; intros; simplify_eq. split; [done|by apply Hn].
Qed.

Lemma check_token_inv account expected s s' :
  tok_live tok s → check_token x contract account expected s = Ok s' → s' = s ∧ tok_balance tok s account = expected.
Proof.
  unfold check_token. intros Hl Hc. apply bind_Ok_inv in Hc as ([n s1] & Hb & Hc).
  apply token_balance_inv in Hb as [-> ->]; [|done]. by destruct (Z.eqb_spec (tok_balance tok s account) expected); simplify_eq.
Qed.

End Token.

Lemma moved_ext denom cb cs tb ts cb' cs' tb' ts' s s' :
  moved denom cb cs tb ts s s' → (∀ a, cb a = cb' a) → cs = cs' → (∀ a, tb a = tb' a) → ts = ts' →
  moved denom cb' cs' tb' ts' s s'.
Proof. intros [H1 H2 H3 H4 H5] Hc -> Ht ->. split; intros; rewrite <-?Hc, <-?Ht; auto. Qed.

(** [n] leaves [from] and arrives at [to]. *)
Definition sent (from to : Address) (n : Z) (a : Address) : Z :=
  delta (bool_decide (a = to)) n - delta (bool_decide (a = from)) n.

Section Specs.
Variables (contract : Address) (tp : TokenPair).
Hypothesis BL : module_bank_laws.
Hypothesis Hcontract : GetERC20Contract tp = contract.

Lemma convertCoinNativeCoin_spec msg receiver sender s s' :
  minter_laws contract tok → tok_live tok s → 0 <= cc_Amount msg → convertCoinNativeCoin x tp msg receiver sender s = Ok s' →
  moved (cc_Denom msg) (sent sender (x_ModuleAddress x) (cc_Amount msg)) 0
    (λ a, delta (bool_decide (a = receiver)) (cc_Amount msg)) (cc_Amount msg) s s'.
Proof.
  intros ML Hl Hn Hc. pose proof (minter_token _ _ ML) as TL. unfold convertCoinNativeCoin in Hc. rewrite Hcontract in Hc.
  apply bind_Ok_inv in Hc as ([b s1] & Hb & Hc). apply (token_balance_inv _ TL) in Hb as [-> _]; [|done].
  apply bind_Ok_inv in Hc as (s2 & Hs & Hc). apply bind_Ok_inv in Hc as ([res s3] & Hm & Hc).
  apply (moved_send _ TL (cc_Denom msg) (cc_Amount msg) sender (x_ModuleAddress x)) in Hs;
    [|done|intros c c'; apply (law_ToModule BL)|done].
  pose proof (law_stays _ _ TL _ _ _ _ _ (moved_live _ _ _ _ _ _ _ Hs) Hm) as Hl'.
  apply (law_mint _ _ ML), (moved_call (cc_Denom msg)) in Hm; [|done|by eapply moved_live].
  apply (check_token_inv _ TL) in Hc as [-> _]; [|by eapply moved_live].
  eapply moved_ext; [exact (moved_trans _ _ _ _ _ _ _ _ _ _ _ _ Hs Hm)|..]; intros; unfold sent; lia.
Qed.

Lemma convertERC20NativeCoin_spec msg receiver sender s s' :
  minter_laws contract tok → tok_live tok s → 0 <= ce_Amount msg → convertERC20NativeCoin x tp msg receiver sender s = Ok s' →
  moved (tp_Denom tp) (sent (x_ModuleAddress x) receiver (ce_Amount msg)) 0
    (λ a, delta (bool_decide (a = sender)) (- ce_Amount msg)) (- ce_Amount msg) s s'.
Proof.
  intros ML Hl Hn Hc. pose proof (minter_token _ _ ML) as TL. unfold convertERC20NativeCoin in Hc. rewrite Hcontract in Hc.
  apply bind_Ok_inv in Hc as ([b s1] & Hb & Hc). apply (token_balance_inv _ TL) in Hb as [-> _]; [|done].
  apply bind_Ok_inv in Hc as ([res s2] & Hm & Hc). apply bind_Ok_inv in Hc as (s3 & Hs & Hc).
  pose proof (law_stays _ _ TL _ _ _ _ _ Hl Hm) as Hl'.
  apply (law_burnCoins _ _ ML), (moved_call (tp_Denom tp)) in Hm; [|done..].
  apply (moved_send _ TL (tp_Denom tp) (ce_Amount msg) (x_ModuleAddress x) receiver) in Hs;
    [|done|intros c c'; apply (law_FromModule BL)|by eapply moved_live].
  apply bind_Ok_inv in Hc as (u & _ & Hc). apply (check_token_inv _ TL) in Hc as [-> _]; [|by eapply moved_live].
  eapply moved_ext; [exact (moved_trans _ _ _ _ _ _ _ _ _ _ _ _ Hm Hs)|..]; intros; unfold sent; lia.
Qed.

Lemma check_transfer_inv res u : check_transfer x res = Ok u → x_UnpackBool x (res_Ret res) = Some true.
Proof. unfold check_transfer. by destruct (x_UnpackBool _ _) as [[]|]. Qed.

Lemma convertERC20NativeToken_spec msg receiver sender s s' :
  transfer_laws contract tok → tok_live tok s → 0 <= ce_Amount msg → convertERC20NativeToken x tp msg receiver sender s = Ok s' →
  moved (tp_Denom tp) (λ a, delta (bool_decide (a = receiver)) (ce_Amount msg)) (ce_Amount msg)
    (sent sender (x_ModuleAddress x) (ce_Amount msg)) 0 s s'.
Proof.
  intros ML Hl Hn Hc. pose proof (transfer_token _ _ ML) as TL. unfold convertERC20NativeToken in Hc. rewrite Hcontract in Hc.
  apply bind_Ok_inv in Hc as ([b s1] & Hb & Hc). apply (token_balance_inv _ TL) in Hb as [-> _]; [|done].
  destruct (x_Pack x _) as [data|] eqn:Hp; [|done]. apply bind_Ok_inv in Hc as ([res s2] & Hm & Hc).
  apply bind_Ok_inv in Hc as (u & Hu%check_transfer_inv & Hc). apply bind_Ok_inv in Hc as (s3 & Ht & Hc).
  assert (CallEVM x sender contract true (Call_transfer (x_ModuleAddress x) (ce_Amount msg)) s = Ok (res, s2)) as Hcall
    by (unfold CallEVM; by rewrite Hp).
  pose proof (law_stays _ _ TL _ _ _ _ _ Hl Hcall) as Hl'.
  apply (law_transfer _ _ ML) in Hcall; [|done|done]. apply (moved_call (tp_Denom tp)) in Hcall; [|done].
  apply (check_token_inv _ TL) in Ht as [-> _]; [|by eapply moved_live]. apply bind_Ok_inv in Hc as (s4 & Hmint & Hc).
  apply bind_Ok_inv in Hc as (s5 & Hs & Hc). apply bind_Ok_inv in Hc as (u' & _ & Hc).
  apply bind_Ok_inv in Hc as (u'' & _ & [= <-]).
  apply (moved_credit _ TL (tp_Denom tp) (ce_Amount msg) 1) in Hmint;
    [|done|intros c c'; apply (law_Mint BL)|by eapply moved_live].
  apply (moved_send _ TL (tp_Denom tp) (ce_Amount msg) (x_ModuleAddress x) receiver) in Hs;
    [|done|intros c c'; apply (law_FromModule BL)|by eapply moved_live].
  pose proof (moved_trans _ _ _ _ _ _ _ _ _ _ _ _ Hcall (moved_trans _ _ _ _ _ _ _ _ _ _ _ _ Hmint Hs)) as Hall.
  eapply moved_ext; [exact Hall|..]; intros; unfold sent; deltas.
Qed.

Lemma convertCoinNativeERC20_spec msg receiver sender s s' :
  transfer_laws contract tok → tok_live tok s → 0 <= cc_Amount msg → convertCoinNativeERC20 x tp msg receiver sender s = Ok s' →
  moved (cc_Denom msg) (λ a, delta (bool_decide (a = sender)) (- cc_Amount msg)) (- cc_Amount msg)
    (sent (x_ModuleAddress x) receiver (cc_Amount msg)) 0 s s'.
Proof.
  intros ML Hl Hn Hc. pose proof (transfer_token _ _ ML) as TL. unfold convertCoinNativeERC20 in Hc. rewrite Hcontract in Hc.
  apply bind_Ok_inv in Hc as ([b s1] & Hb & Hc). apply (token_balance_inv _ TL) in Hb as [-> _]; [|done].
  apply bind_Ok_inv in Hc as (s2 & Hs & Hc). apply bind_Ok_inv in Hc as ([res s3] & Hm & Hc).
  apply (moved_send _ TL (cc_Denom msg) (cc_Amount msg) sender (x_ModuleAddress x)) in Hs;
    [|done|intros c c'; apply (law_ToModule BL)|done].
  apply bind_Ok_inv in Hc as (u & Hu%check_transfer_inv & Hc). apply bind_Ok_inv in Hc as (s4 & Ht & Hc).
  pose proof (law_stays _ _ TL _ _ _ _ _ (moved_live _ _ _ _ _ _ _ Hs) Hm) as Hl'.
  apply (law_transfer _ _ ML) in Hm; [|by eapply moved_live|done]. apply (moved_call (cc_Denom msg)) in Hm; [|done].
  apply (check_token_inv _ TL) in Ht as [-> _]; [|by eapply moved_live]. apply bind_Ok_inv in Hc as (s5 & Hburn & Hc).
  apply bind_Ok_inv in Hc as (u' & _ & [= <-]).
  apply (moved_credit _ TL (cc_Denom msg) (cc_Amount msg) (-1)) in Hburn;
    [|done|intros c c'; apply (law_Burn BL)|by eapply moved_live].
  pose proof (moved_trans _ _ _ _ _ _ _ _ _ _ _ _ Hs (moved_trans _ _ _ _ _ _ _ _ _ _ _ _ Hm Hburn)) as Hall.
  eapply moved_ext; [exact Hall|..]; intros; unfold sent; deltas.
Qed.

End Specs.

(** *** Handlers *)

(** The pair a message names. *)
Definition named_pair (token : string) (st : erc20_store) : option TokenPair := GetTokenPair (GetTokenPairID token st) st.

Lemma named_pair_inv token st tp id :
  GetTokenPairID token st = Some id → er_pairs st !! id = Some tp → named_pair token st = Some tp.
Proof. unfold named_pair. by intros ->. Qed.

Lemma ConvertCoin_inv msg st st' tp :
  named_pair (cc_Denom msg) st = Some tp → contract_gone x tp st = false → ConvertCoin x msg st = Ok st' →
  ∃ sender s, x_AccAddressFromBech32 x (cc_Sender msg) = Some sender ∧ st' = with_evm s st ∧
    ((tp_ContractOwner tp = OWNER_MODULE ∧
        convertCoinNativeCoin x tp msg (HexToAddress (cc_Receiver msg)) sender (er_evm st) = Ok s) ∨
     (tp_ContractOwner tp = OWNER_EXTERNAL ∧
        convertCoinNativeERC20 x tp msg (HexToAddress (cc_Receiver msg)) sender (er_evm st) = Ok s)).
Proof.
  intros Hp Hg Hc. unfold ConvertCoin, MustAccAddressFromBech32 in Hc.
  destruct (x_AccAddressFromBech32 _ _) as [sender|]; [|done]. cbn in Hc. apply bind_Ok_inv in Hc as (tp' & Hm & Hc).
  apply MintingEnabled_inv in Hm as (_ & (id & Hid & Hp') & _).
  rewrite (named_pair_inv _ _ _ _ Hid Hp') in Hp. injection Hp as ->. rewrite Hg in Hc.
  apply by_owner_inv in Hc as (s & -> & Hs). by exists sender, s.
Qed.

Lemma ConvertERC20_inv msg st st' tp :
  named_pair (ce_ContractAddress msg) st = Some tp → contract_gone x tp st = false → ConvertERC20 x msg st = Ok st' →
  ∃ receiver s, x_AccAddressFromBech32 x (ce_Receiver msg) = Some receiver ∧ st' = with_evm s st ∧
    ((tp_ContractOwner tp = OWNER_MODULE ∧
        convertERC20NativeCoin x tp msg receiver (HexToAddress (ce_Sender msg)) (er_evm st) = Ok s) ∨
     (tp_ContractOwner tp = OWNER_EXTERNAL ∧
        convertERC20NativeToken x tp msg receiver (HexToAddress (ce_Sender msg)) (er_evm st) = Ok s)).
Proof.
  intros Hp Hg Hc. unfold ConvertERC20, MustAccAddressFromBech32 in Hc.
  destruct (x_AccAddressFromBech32 _ _) as [receiver|]; [|done]. cbn in Hc. apply bind_Ok_inv in Hc as (tp' & Hm & Hc).
  apply MintingEnabled_inv in Hm as (_ & (id & Hid & Hp') & _).
  rewrite (named_pair_inv _ _ _ _ Hid Hp') in Hp. injection Hp as ->. rewrite Hg in Hc.
  apply by_owner_inv in Hc as (s & -> & Hs). by exists receiver, s.
Qed.

(** C32.  Coins of the chain as tokens.  For a pair whose contract the module owns, a
    conversion of coins moves the amount from the sender to the module account and
    mints as many tokens to the receiver; a conversion of tokens burns the amount of
    the sender and moves as many coins from the module account to the receiver.
    Nothing else changes, neither the registry nor another coin; so the coins the
    module holds less the tokens in circulation stay the same, and all tokens stay
    backed.  The contract is in order before ([tok_live]), and after, when it follows
    [minter_laws]. *)
Theorem native_coin_conversion tp :
  module_bank_laws → minter_laws (GetERC20Contract tp) tok → tp_ContractOwner tp = OWNER_MODULE →
  let backing s := bank_GetBalance (ek_chain s) (x_ModuleAddress x) (tp_Denom tp) - tok_supply tok s in
  (∀ msg st st', tok_live tok (er_evm st) → 0 <= cc_Amount msg → cc_Denom msg = tp_Denom tp → named_pair (cc_Denom msg) st = Some tp →
     contract_gone x tp st = false → ConvertCoin x msg st = Ok st' →
     ∃ sender, x_AccAddressFromBech32 x (cc_Sender msg) = Some sender ∧ st' = with_evm (er_evm st') st ∧
       let n := cc_Amount msg in
       moved (tp_Denom tp) (sent sender (x_ModuleAddress x) n) 0
         (λ a, delta (bool_decide (a = HexToAddress (cc_Receiver msg))) n) n (er_evm st) (er_evm st') ∧
       (sender ≠ x_ModuleAddress x → backing (er_evm st') = backing (er_evm st))) ∧
  (∀ msg st st', tok_live tok (er_evm st) → 0 <= ce_Amount msg → named_pair (ce_ContractAddress msg) st = Some tp →
     contract_gone x tp st = false → ConvertERC20 x msg st = Ok st' →
     ∃ receiver, x_AccAddressFromBech32 x (ce_Receiver msg) = Some receiver ∧ st' = with_evm (er_evm st') st ∧
       let n := ce_Amount msg in
       moved (tp_Denom tp) (sent (x_ModuleAddress x) receiver n) 0
         (λ a, delta (bool_decide (a = HexToAddress (ce_Sender msg))) (- n)) (- n) (er_evm st) (er_evm st') ∧
       (receiver ≠ x_ModuleAddress x → backing (er_evm st') = backing (er_evm st))).
Proof using CL.
  intros BL ML Hown backing. split.
  - intros msg st st' Hl Hn Hd Hp Hg Hc.
    destruct (ConvertCoin_inv _ _ _ _ Hp Hg Hc) as (sender & s & Hs & -> & [[_ Hs']|[? _]]); [|congruence].
    eapply convertCoinNativeCoin_spec in Hs'; [|done..]. rewrite Hd in Hs'. exists sender. cbv zeta. split_and!; [done..|].
    intros Hne. unfold backing. cbn [with_evm er_evm].
    rewrite (moved_coins _ _ _ _ _ _ _ Hs'), (moved_token_supply _ _ _ _ _ _ _ Hs'). unfold sent. deltas.
  - intros msg st st' Hl Hn Hp Hg Hc.
    destruct (ConvertERC20_inv _ _ _ _ Hp Hg Hc) as (receiver & s & Hs & -> & [[_ Hs']|[? _]]); [|congruence].
    eapply convertERC20NativeCoin_spec in Hs'; [|done..]. exists receiver. cbv zeta. split_and!; [done..|].
    intros Hne. unfold backing. cbn [with_evm er_evm].
    rewrite (moved_coins _ _ _ _ _ _ _ Hs'), (moved_token_supply _ _ _ _ _ _ _ Hs'). unfold sent. deltas.
Qed.

(** C33.  Tokens of others as coins.  For a pair whose contract is external and follows
    ERC-20, a conversion of tokens moves the amount from the sender to the module and
    mints as many coins to the receiver; a conversion of coins burns the amount of the
    sender and moves as many tokens from the module to the receiver.  Nothing else
    changes, so the tokens the module holds less the supply of the coin stay the
    same.  The contract is in order before ([tok_live]), and after. *)
Theorem external_token_conversion tp :
  module_bank_laws → transfer_laws (GetERC20Contract tp) tok → tp_ContractOwner tp = OWNER_EXTERNAL →
  let backing s := tok_balance tok s (x_ModuleAddress x) - bank_GetSupply (ek_chain s) (tp_Denom tp) in
  (∀ msg st st', tok_live tok (er_evm st) → 0 <= ce_Amount msg → named_pair (ce_ContractAddress msg) st = Some tp →
     contract_gone x tp st = false → ConvertERC20 x msg st = Ok st' →
     ∃ receiver, x_AccAddressFromBech32 x (ce_Receiver msg) = Some receiver ∧ st' = with_evm (er_evm st') st ∧
       let n := ce_Amount msg in
       moved (tp_Denom tp) (λ a, delta (bool_decide (a = receiver)) n) n
         (sent (HexToAddress (ce_Sender msg)) (x_ModuleAddress x) n) 0 (er_evm st) (er_evm st') ∧
       (HexToAddress (ce_Sender msg) ≠ x_ModuleAddress x → backing (er_evm st') = backing (er_evm st))) ∧
  (∀ msg st st', tok_live tok (er_evm st) → 0 <= cc_Amount msg → cc_Denom msg = tp_Denom tp → named_pair (cc_Denom msg) st = Some tp →
     contract_gone x tp st = false → ConvertCoin x msg st = Ok st' →
     ∃ sender, x_AccAddressFromBech32 x (cc_Sender msg) = Some sender ∧ st' = with_evm (er_evm st') st ∧
       let n := cc_Amount msg in
       moved (tp_Denom tp) (λ a, delta (bool_decide (a = sender)) (- n)) (- n)
         (sent (x_ModuleAddress x) (HexToAddress (cc_Receiver msg)) n) 0 (er_evm st) (er_evm st') ∧
       (HexToAddress (cc_Receiver msg) ≠ x_ModuleAddress x → backing (er_evm st') = backing (er_evm st))).
Proof using CL.
  intros BL ML Hown backing. split.
  - intros msg st st' Hl Hn Hp Hg Hc.
    destruct (ConvertERC20_inv _ _ _ _ Hp Hg Hc) as (receiver & s & Hs & -> & [[? _]|[_ Hs']]); [congruence|].
    eapply convertERC20NativeToken_spec in Hs'; [|done..]. exists receiver. cbv zeta. split_and!; [done..|].
    intros Hne. unfold backing. cbn [with_evm er_evm].
    rewrite (moved_tokens _ _ _ _ _ _ _ Hs'), (moved_supply _ _ _ _ _ _ _ Hs'). unfold sent. deltas.
  - intros msg st st' Hl Hn Hd Hp Hg Hc.
    destruct (ConvertCoin_inv _ _ _ _ Hp Hg Hc) as (sender & s & Hs & -> & [[? _]|[_ Hs']]); [congruence|].
    eapply convertCoinNativeERC20_spec in Hs'; [|done..]. rewrite Hd in Hs'. exists sender. cbv zeta. split_and!; [done..|].
    intros Hne. unfold backing. cbn [with_evm er_evm].
    rewrite (moved_tokens _ _ _ _ _ _ _ Hs'), (moved_supply _ _ _ _ _ _ _ Hs'). unfold sent. deltas.
Qed.

(** The pair is looked up by contract when the denomination reads as an address; the
    coins escrowed are those of the denomination all the same, whatever the coin of
    the pair. *)
Lemma coin_named_as_address msg st st' tp :
  module_bank_laws → minter_laws (GetERC20Contract tp) tok → tp_ContractOwner tp = OWNER_MODULE →
  tok_live tok (er_evm st) →
  0 <= cc_Amount msg → named_pair (cc_Denom msg) st = Some tp → cc_Denom msg ≠ tp_Denom tp →
  contract_gone x tp st = false → ConvertCoin x msg st = Ok st' →
  tok_supply tok (er_evm st') = tok_supply tok (er_evm st) + cc_Amount msg ∧
  ∀ a, bank_GetBalance (ek_chain (er_evm st')) a (tp_Denom tp) = bank_GetBalance (ek_chain (er_evm st)) a (tp_Denom tp).
Proof using CL.
  intros BL ML Hown Hl Hn Hp Hd Hg Hc.
  destruct (ConvertCoin_inv _ _ _ _ Hp Hg Hc) as (sender & s & Hs & -> & [[_ Hs']|[? _]]); [|congruence].
  eapply convertCoinNativeCoin_spec in Hs'; [|done..]. cbn [with_evm er_evm].
  rewrite (moved_token_supply _ _ _ _ _ _ _ Hs'). split; [done|]. intros a.
  rewrite (moved_coins _ _ _ _ _ _ _ Hs'). deltas.
Qed.

End Conversions.

(** ** A concrete chain

    The module account is at address 5, the token contract at address 9; a contract
    keeps the balances in its even slots and the supply in slot 1. *)

Module Erc20Toy.
Import MapCoins MapBank EvmToy GethToy.

Fixpoint string_code (s : string) : Z :=
  match s with
  | EmptyString => 1
  | String c s => Z.of_nat (Ascii.nat_of_ascii c) + 256 * string_code s
  end.

Lemma string_code_pos s : 1 <= string_code s.
Proof. induction s as [|c s IH]; cbn; lia. Qed.

Lemma string_code_inj s s' : string_code s = string_code s' → s = s'.
Proof.
  revert s'. induction s as [|c s IH]; intros [|c' s'] Heq; cbn [string_code] in Heq.
  - done.
  - pose proof (string_code_pos s'). lia.
  - pose proof (string_code_pos s). lia.
  - pose proof (Ascii.nat_ascii_bounded c). pose proof (Ascii.nat_ascii_bounded c').
    assert (string_code s = string_code s') as Hs by lia.
    assert (Ascii.nat_of_ascii c = Ascii.nat_of_ascii c') as Hc by lia.
    rewrite (IH _ Hs). f_equal. by rewrite <-(Ascii.ascii_nat_embedding c), Hc, Ascii.ascii_nat_embedding.
Qed.

Definition slots (s : evm_store) : gmap Hash (list byte) := default ∅ (ek_storage s !! 9).
Definition slot (s : evm_store) (k : Z) : Z := match slots s !! k with Some [n] => n | _ => 0 end.
Definition set_slot (k n : Z) (s : evm_store) : evm_store :=
  mkEvmStore (ek_chain s) (<[9 := <[k := [n]]> (slots s)]> (ek_storage s)) (ek_code s).

(** Adds [n] to the slot. *)
Definition bump (k n : Z) (s : evm_store) : evm_store := set_slot k (slot s k + n) s.

Lemma slot_bump k n s k' : slot (bump k n s) k' = slot s k' + if decide (k' = k) then n else 0.
Proof.
  unfold bump, slot, set_slot, slots. cbn. rewrite lookup_insert_eq. cbn.
  case_decide as Hk; [subst; by rewrite lookup_insert_eq|]. rewrite lookup_insert_ne by done. lia.
Qed.

Definition done_with (ret : list byte) : MsgEthereumTxResponse := mkResponse 0 EmptyString ret [] 0.
Definition reverted : MsgEthereumTxResponse := mkResponse 0 "execution reverted" [] [] 0.

(** The contract: its owner mints and burns, holders transfer. *)
Definition run_token (from : Address) (data : list byte) (s : evm_store) : MsgEthereumTxResponse * evm_store :=
  match data with
  | [0; a] => (done_with [slot s (2 * a)], s)
  | [1; a; n] => if from =? 5 then (done_with [], bump 1 n (bump (2 * a) n s)) else (reverted, s)
  | [2; a; n] =>
      if (from =? 5) && (n <=? slot s (2 * a)) then (done_with [], bump 1 (- n) (bump (2 * a) (- n) s)) else (reverted, s)
  | [3; a; n] =>
      if n <=? slot s (2 * from) then (done_with [1], bump (2 * a) n (bump (2 * from) (- n) s)) else (reverted, s)
  | _ => (reverted, s)
  end.

#[export] Instance token_keeper : EVMKeeper := {
  evm_ApplyMessage msg commit s :=
    let '(res, s') := run_token (m_From msg) (m_Data msg) s in Ok (res, if commit : bool then s' else s);
  evm_EstimateGasInternal _ _ s := Ok (100000, s)
}.

Definition pack (call : erc20_call) : option (list byte) :=
  match call with
  | Call_balanceOf a => Some [0; a]
  | Call_mint a n => Some [1; a; n]
  | Call_burnCoins a n => Some [2; a; n]
  | Call_transfer a n => Some [3; a; n]
  | _ => None
  end.

Definition head_of (l : list byte) : option Z := match l with [n] => Some n | _ => None end.

Definition toy_erc20 : erc20_env := {|
  x_Sum := string_code;
  x_Keccak256 _ := 99;
  x_CreateAddress a n := a + n;
  x_Pack := pack;
  x_PackConstructor _ _ _ := Some [];
  x_Bin := [];
  x_UnpackBool l := (λ n, n =? 1) <$> head_of l;
  x_UnpackUint256 := head_of;
  x_UnpackUint8 := head_of;
  x_UnpackString _ := None;
  x_ApprovalTopic := 77;
  x_ModuleAddress := 5;
  x_authority := "gov"%string;
  x_AccAddressFromBech32 s := Some (hex_read s mod 2 ^ 160);
  x_Bech32 := hex_string 40;
  x_ValidateDenom _ := true;
  x_ValidateIBCDenom _ := true;
  x_MetadataValidate _ := true;
  x_IsModuleAccount _ _ := false;
  x_BondDenom _ := "aego"%string;
  x_HasSupply _ _ := true;
  x_GetDenomMetaData _ _ := None;
  x_SetDenomMetaData c _ := c;
  x_BlockedAddr _ := false;
  x_IsSendEnabledCoin _ _ := true;
  x_MintCoins c cs := with_bank c (bank_mint (tc_bank c) 5 cs);
  x_BurnCoins c cs := with_bank c (bank_burn (tc_bank c) 5 cs);
  x_SendToModule c a cs := with_bank c (bank_send (tc_bank c) a 5 cs);
  x_SendFromModule c a cs := with_bank c (bank_send (tc_bank c) 5 a cs)
|}.

Lemma hex_no_bar s : forallb is_hex (String.list_ascii_of_string s) = true → has_bar s = false.
Proof.
  induction s as [|c s IH]; [done|]. cbn [String.list_ascii_of_string forallb has_bar].
  intros [Hc Hh]%andb_true_iff. rewrite IH by done. rewrite bool_decide_eq_false_2; [done|]. by intros ->.
Qed.

Lemma toy_id_laws : id_laws toy_erc20.
Proof.
  split.
  - apply string_code_inj.
  - intros s. apply Z.mod_pos_bound. lia.
  - intros s [[Hp _]%andb_true_iff Hh]%andb_true_iff. apply String.prefix_correct in Hp.
    destruct s as [|a [|b s]]; [discriminate Hp..|]. cbn in Hp. injection Hp as -> -> _.
    cbn [has_bar]. by rewrite (hex_no_bar s Hh).
Qed.

Lemma toy_bank_laws : module_bank_laws toy_erc20.
Proof.
  split; intros c *.
  - intros Hs. by apply toy_sent in Hs as [? ?%same_kept].
  - intros Hs. by apply toy_sent in Hs as [? ?%same_kept].
  - intros Hs. by apply toy_minted in Hs as [? ?%same_kept].
  - intros Hs. by apply toy_burned in Hs as [? ?%same_kept].
Qed.

(** The contract is there as long as its account is. *)
Definition toy_token : token_view :=
  mkTokenView (λ s, is_Some (auth_GetAccount (ek_chain s) 9)) (λ s a, slot s (2 * a)) (λ s, slot s 1).

(** A successful call of the contract is a run of it. *)
Lemma call_inv from commit call s res s' :
  CallEVM toy_erc20 from 9 commit call s = Ok (res, s') →
  ∃ data s1, pack call = Some data ∧ run_token from data s = (res, s1) ∧ res_VmError res = EmptyString ∧
    s' = if commit then s1 else s.
Proof.
  unfold CallEVM. cbn [x_Pack toy_erc20]. destruct (pack call) as [data|]; [|done]. unfold CallEVMWithData.
  intros Hc. apply bind_Ok_inv in Hc as (nonce & _ & Hc). apply bind_Ok_inv in Hc as ([gas s2] & Hg & Hc).
  assert (s2 = s) as -> by (destruct commit; cbn in Hg; by simplify_eq).
  cbn [evm_ApplyMessage token_keeper m_From m_Data] in Hc. destruct (run_token from data s) as [res1 s1] eqn:Hr.
  cbn in Hc. destruct (Failed res1) eqn:Hf; [done|]. simplify_eq. exists data, s1. split_and!; [done..| |done].
  unfold Failed in Hf. apply bool_decide_eq_false in Hf. by destruct (res_VmError res) as [|c v]; [|cbn in Hf; lia].
Qed.

Lemma run_token_chain from data s res s' : run_token from data s = (res, s') → ek_chain s' = ek_chain s.
Proof. unfold run_token. intros Hr. repeat case_match; by simplify_eq. Qed.

Lemma toy_token_laws : token_laws toy_erc20 9 toy_token.
Proof.
  split; [| |intros c s [acc Hacc] Hk; eexists; by apply Hk|done..].
  - intros a s res s' _ (data & s1 & [= <-] & Hr & _ & ->)%call_inv.
    cbn in Hr. injection Hr as <- <-. split; [done|]. by intros n [= <-].
  - intros from call s res s' Hl (data & s1 & _ & Hr & _ & ->)%call_inv. cbn.
    by rewrite (run_token_chain _ _ _ _ _ Hr).
Qed.

Lemma toy_minter_laws : minter_laws toy_erc20 9 toy_token.
Proof.
  split; [apply toy_token_laws|..].
  - intros to n s res s' Hl (data & s1 & [= <-] & Hr & _ & ->)%call_inv. cbn in Hr. injection Hr as <- <-.
    split; [by split|]. cbn. split; [rewrite !slot_bump|intros a; rewrite !slot_bump]; deltas.
  - intros from n s res s' Hl (data & s1 & [= <-] & Hr & He & ->)%call_inv. cbn in Hr.
    destruct (n <=? _); injection Hr as <- <-; [|done].
    split; [by split|]. cbn. split; [rewrite !slot_bump|intros a; rewrite !slot_bump]; deltas.
Qed.

Lemma toy_transfer_laws : transfer_laws toy_erc20 9 toy_token.
Proof.
  split; [apply toy_token_laws|]. intros from to n s res s' Hl (data & s1 & [= <-] & Hr & He & ->)%call_inv _.
  cbn in Hr. destruct (n <=? _); injection Hr as <- <-; [|done].
  split; [by split|]. cbn. split; [rewrite !slot_bump|intros a; rewrite !slot_bump]; deltas.
Qed.

(** Account 7 has 100 coins and account 8 has 40 tokens; the module holds 40 coins and
    60 tokens. *)
Definition toy_rest : evm_store :=
  mkEvmStore (mkToyChain 0 {[ 5 := (None, 0); 7 := (Some 99, 3); 8 := (Some 99, 0); 9 := (Some 33, 1) ]}
    (mkBank {[ "ucoin"%string := 140 ]} {[ 7 := {[ "ucoin"%string := 100 ]}; 5 := {[ "ucoin"%string := 40 ]} ]}))
    {[ 9 := {[ 1 := [100]; 10 := [60]; 16 := [40] ]} ]} ∅.

Definition toy_pair (owner : Owner) : TokenPair := mkTokenPair (hex_string 40 9) "ucoin" true owner.

Definition empty_registry : erc20_store := mkErc20Store toy_rest ∅ ∅ ∅ false false.

Definition toy_genesis (owner : Owner) : Erc20Genesis :=
  mkErc20Genesis (mkErc20Params true true) [toy_pair owner].

Definition toy_store (owner : Owner) : erc20_store := InitGenesis toy_erc20 (toy_genesis owner) empty_registry.

Definition coin_msg (n : Z) : MsgConvertCoin := mkMsgConvertCoin "ucoin" n (hex_string 40 8) (hex_string 40 7).
Definition token_msg (n : Z) : MsgConvertERC20 := mkMsgConvertERC20 (hex_string 40 9) n (hex_string 40 7) (hex_string 40 8).

Definition converted (o : outcome erc20_error erc20_store) : erc20_store :=
  match o with Ok st => st | _ => empty_registry end.

Lemma toy_contract owner : GetERC20Contract (toy_pair owner) = 9.
Proof. reflexivity. Qed.

Lemma toy_pair_minter : minter_laws toy_erc20 (GetERC20Contract (toy_pair OWNER_MODULE)) toy_token.
Proof. rewrite toy_contract. apply toy_minter_laws. Qed.

Lemma toy_pair_transfer : transfer_laws toy_erc20 (GetERC20Contract (toy_pair OWNER_EXTERNAL)) toy_token.
Proof. rewrite toy_contract. apply toy_transfer_laws. Qed.

Lemma registry_consistent_witness :
  registry_wf toy_erc20 (converted (ConvertCoin toy_erc20 (coin_msg 10) (toy_store OWNER_MODULE))).
Proof.
  destruct (registry_consistent toy_erc20 toy_id_laws (toy_genesis OWNER_MODULE) empty_registry
    (converted (ConvertCoin toy_erc20 (coin_msg 10) (toy_store OWNER_MODULE)))) as [WF _].
  - split; [reflexivity|split; reflexivity].
  - reflexivity.
  - constructor; [reflexivity|constructor].
  - eapply rtc_l; [|apply rtc_refl]. apply (step_ConvertCoin _ (coin_msg 10)).
    assert (is_Ok (ConvertCoin toy_erc20 (coin_msg 10) (toy_store OWNER_MODULE)) = true) as Hok by (vm_compute; reflexivity).
    unfold toy_store in Hok |- *.
    destruct (ConvertCoin toy_erc20 _ _) as [st| |]; [reflexivity|discriminate Hok..].
  - exact WF.
Defined.

Lemma erc20_genesis_roundtrip_witness :
  InitGenesis toy_erc20 (ExportGenesis (toy_store OWNER_MODULE)) empty_registry = toy_store OWNER_MODULE.
Proof.
  rewrite (erc20_genesis_roundtrip toy_erc20 toy_id_laws (toy_store OWNER_MODULE) empty_registry); [reflexivity| |].
  - destruct (InitGenesis_spec toy_erc20 toy_id_laws (toy_genesis OWNER_MODULE) empty_registry) as [WF _]; [..|exact WF].
    + split; [reflexivity|split; reflexivity].
    + repeat constructor.
    + split; repeat constructor; by intros ?%not_elem_of_nil.
  - split; [reflexivity|split; reflexivity].
Defined.

(** Account 7 converts 10 coins to tokens of account 8, which converts 15 back. *)
Lemma native_coin_conversion_witness :
  let st1 := converted (ConvertCoin toy_erc20 (coin_msg 10) (toy_store OWNER_MODULE)) in
  tok_balance toy_token (er_evm st1) 8 = 50 ∧ tok_supply toy_token (er_evm st1) = 110 ∧
  bank_GetBalance (ek_chain (er_evm st1)) 5 "ucoin" - tok_supply toy_token (er_evm st1) = 40 - 100.
Proof.
  intros st1.
  destruct (native_coin_conversion toy_erc20 toy_token (toy_pair OWNER_MODULE) toy_bank_laws toy_pair_minter eq_refl)
    as [Hcoin _].
  assert (is_Ok (ConvertCoin toy_erc20 (coin_msg 10) (toy_store OWNER_MODULE)) = true) as Hok by (vm_compute; reflexivity).
  destruct (Hcoin (coin_msg 10) (toy_store OWNER_MODULE) st1) as (sender & Hs & _ & Hm & Hb).
  - eexists. reflexivity.
  - cbn. lia.
  - reflexivity.
  - vm_compute. reflexivity.
  - vm_compute. reflexivity.
  - unfold st1. destruct (ConvertCoin _ _ _); [reflexivity|discriminate Hok..].
  - assert (sender = 7) as -> by (vm_compute in Hs; congruence).
    split; [rewrite (moved_tokens _ _ _ _ _ _ _ _ Hm 8); vm_compute; reflexivity|].
    split; [rewrite (moved_token_supply _ _ _ _ _ _ _ _ Hm); vm_compute; reflexivity|].
    etransitivity; [exact (Hb ltac:(discriminate))|vm_compute; reflexivity].
Defined.

Lemma external_token_conversion_witness :
  let st1 := converted (ConvertERC20 toy_erc20 (token_msg 15) (toy_store OWNER_EXTERNAL)) in
  tok_balance toy_token (er_evm st1) 8 = 25 ∧ bank_GetSupply (ek_chain (er_evm st1)) "ucoin" = 155.
Proof.
  intros st1.
  destruct (external_token_conversion toy_erc20 toy_token (toy_pair OWNER_EXTERNAL) toy_bank_laws toy_pair_transfer eq_refl)
    as [Htoken _].
  assert (is_Ok (ConvertERC20 toy_erc20 (token_msg 15) (toy_store OWNER_EXTERNAL)) = true) as Hok by (vm_compute; reflexivity).
  destruct (Htoken (token_msg 15) (toy_store OWNER_EXTERNAL) st1) as (receiver & Hs & _ & Hm & Hb).
  - eexists. reflexivity.
  - cbn. lia.
  - vm_compute. reflexivity.
  - vm_compute. reflexivity.
  - unfold st1. destruct (ConvertERC20 _ _ _); [reflexivity|discriminate Hok..].
  - rewrite (moved_tokens _ _ _ _ _ _ _ _ Hm 8), (moved_supply _ _ _ _ _ _ _ _ Hm).
    vm_compute. split; reflexivity.
Defined.
End Erc20Toy.
