(* ===== verification/Erc20Ibc.v ===== *)
(** * Conversions around IBC transfers: [x/erc20/keeper/ibc_callbacks.go], [x/ibc/transfer/keeper/msg_server.go], [ibc/utils.go]

    Coins that arrive over IBC are converted to tokens, tokens are converted to coins
    before they leave, and a transfer that fails or times out converts its refund.
    The callbacks of ibc-go below the middleware, its denomination traces and the
    decoding of addresses and amounts are fields of [ibc_env].  An error of a callback
    is an error acknowledgement or a failed message: in both cases the caller drops
    the writes. *)

From S2P Require Import Prelude Sdk Dec AccessList StateDB EvmKeeper EvmTx GasMeter EvmApply EvmQuery Erc20.

(** [FungibleTokenPacketData]. *)
Record packet_data := mkPacketData {
  pd_Denom : string;
  pd_Amount : string;
  pd_Sender : string;
  pd_Receiver : string
}.

(** A packet; its data is [None] when it does not decode. *)
Record Packet := mkPacket {
  pk_SourcePort : string;
  pk_SourceChannel : string;
  pk_DestinationPort : string;
  pk_DestinationChannel : string;
  pk_Data : option packet_data
}.

Inductive acknowledgement := AckResult | AckError.

(** [transfertypes.MsgTransfer], the fields the module reads, and the others. *)
Record MsgTransfer {rest : Type} := mkMsgTransfer {
  mt_Denom : string;
  mt_Amount : Z;
  mt_Sender : string;
  mt_rest : rest
}.
Arguments MsgTransfer : clear implicits.

Record DenomTrace := mkDenomTrace { dt_Path : string; dt_BaseDenom : string }.

Section Erc20Ibc.
Context `{EE : EvmEnv} `{GE : Geth} `{EK : !EVMKeeper} {rest : Type}.

Abbreviation erc20_result A := (outcome erc20_error A).

Record ibc_env := mkIbcEnv {
  ib_ReceiverChainIsSource : string → string → string → bool;
  ib_GetDenomPrefix : string → string → string;
  ib_ParseDenomTrace : string → DenomTrace;
  ib_IBCDenom : DenomTrace → string;
  ib_NewIntFromString : string → option Z;
  (** [GetFromBech32] with its prefix, and [VerifyAddressFormat] *)
  ib_GetFromBech32 : string → string → option Address;
  (** the hash in an IBC denomination, as an address *)
  ib_ParseHexHash : string → option Address;
  ib_EVMChannels : list string;
  ib_OnRecvPacket : Packet → erc20_store → erc20_result erc20_store;
  ib_OnAcknowledgementPacket : Packet → acknowledgement → erc20_store → erc20_result erc20_store;
  ib_OnTimeoutPacket : Packet → erc20_store → erc20_result erc20_store;
  (** with the sequence number of the packet *)
  ib_Transfer : MsgTransfer rest → erc20_store → erc20_result (Z * erc20_store)
}.

Variable x : erc20_env.
Variable ib : ibc_env.

(** ** Addresses and coins: [utils/utils.go], [ibc/utils.go] *)

(** [strings.SplitN(s, "1", 2)[0]]. *)
Definition one : Ascii.ascii := Ascii.ascii_of_nat 49.
Fixpoint before_one (s : string) : string :=
  match s with
  | EmptyString => EmptyString
  | String c s' => if decide (c = one) then EmptyString else String c (before_one s')
  end.

Definition GetEvmosAddressFromBech32 (address : string) : erc20_result Address :=
  let bech32Prefix := before_one address in
  if decide (bech32Prefix = address) then Err ErrErc20Address
  else
    match ib_GetFromBech32 ib address bech32Prefix with
    | None => Err ErrErc20Address
    | Some a => Ok a
    end.

Definition GetTransferSenderRecipient (packet : Packet) : erc20_result (Address * Address) :=
  match pk_Data packet with
  | None => Err ErrErc20Denom
  | Some data =>
      sender ← GetEvmosAddressFromBech32 (pd_Sender data);
      recipient ← GetEvmosAddressFromBech32 (pd_Receiver data);
      Ok (sender, recipient)
  end.

(** The denomination a received coin has on this chain. *)
Definition GetReceivedCoin (packet : Packet) (rawDenom : string) : string :=
  if ib_ReceiverChainIsSource ib (pk_SourcePort packet) (pk_SourceChannel packet) rawDenom then
    let voucherPrefix := ib_GetDenomPrefix ib (pk_SourcePort packet) (pk_SourceChannel packet) in
    let n := String.length voucherPrefix in
    let unprefixedDenom := String.substring n (String.length rawDenom - n) rawDenom in
    let denomTrace := ib_ParseDenomTrace ib unprefixedDenom in
    if decide (dt_Path denomTrace = EmptyString) then unprefixedDenom else ib_IBCDenom ib denomTrace
  else
    let sourcePrefix := ib_GetDenomPrefix ib (pk_DestinationPort packet) (pk_DestinationChannel packet) in
    ib_IBCDenom ib (ib_ParseDenomTrace ib (String.append sourcePrefix rawDenom)).

(** The amount was validated by ICS-20; one that does not parse leaves a nil integer,
    which panics when it is used. *)
Definition GetSentCoin (rawDenom rawAmt : string) : string * option Z :=
  (ib_IBCDenom ib (ib_ParseDenomTrace ib rawDenom), ib_NewIntFromString ib rawAmt).

(** [strings.TrimSpace(s) == ""], for the spaces of ASCII. *)
Fixpoint all_space (s : string) : bool :=
  match s with
  | EmptyString => true
  | String c s' =>
      let n := Z.of_nat (Ascii.nat_of_ascii c) in ((n =? 32) || ((9 <=? n) && (n <=? 13))) && all_space s'
  end.

Definition GetIBCDenomAddress (denom : string) : erc20_result Address :=
  match cut_prefix "ibc/" denom with
  | None => Err ErrErc20Denom
  | Some hash =>
      if all_space hash then Err ErrErc20Denom
      else match ib_ParseHexHash ib hash with None => Err ErrErc20Denom | Some a => Ok a end
  end.

(** The address of the token of a coin: that of its pair, or of the IBC voucher. *)
Definition GetCoinAddress (denom : string) (st : erc20_store) : erc20_result Address :=
  match GetDenomMap denom st with
  | None => GetIBCDenomAddress denom
  | Some id =>
      match GetTokenPair (Some id) st with
      | None => Err ErrTokenPairNotFound
      | Some tp => Ok (GetERC20Contract tp)
      end
  end.

(** ** Callbacks: [ibc_callbacks.go] *)

Definition IsEVMChannel (channel : string) : bool := bool_decide (channel ∈ ib_EVMChannels ib).

Definition NewMsgConvertCoin (denom : string) (amount : Z) (receiver sender : Address) : MsgConvertCoin :=
  mkMsgConvertCoin denom amount (Address_Hex receiver) (x_Bech32 x sender).

(** The acknowledgement is the original one when this succeeds. *)
Definition OnRecvPacket (packet : Packet) (st : erc20_store) : erc20_result erc20_store :=
  match pk_Data packet with
  | None => Err ErrErc20Denom
  | Some data =>
      if negb (IsERC20Enabled st) then Ok st
      else
        '(sender, recipient) ← GetTransferSenderRecipient packet;
        if bool_decide (sender = recipient) && negb (IsEVMChannel (pk_DestinationChannel packet)) then Ok st
        else if x_IsModuleAccount x (ek_chain (er_evm st)) sender then Ok st
        else
          let denom := GetReceivedCoin packet (pd_Denom data) in
          if decide (denom = x_BondDenom x (ek_chain (er_evm st))) then Ok st
          else
            match GetTokenPairID denom st with
            | None => Ok st
            | Some pairID =>
                if match GetTokenPair (Some pairID) st with Some tp => tp_Enabled tp | None => false end then
                  let balance := bank_GetBalance (ek_chain (er_evm st)) recipient denom in
                  ConvertCoin x (NewMsgConvertCoin denom balance (EthAddress recipient) recipient) st
                else Ok st
            end
  end.

Definition ConvertCoinToERC20FromPacket (data : packet_data) (st : erc20_store) : erc20_result erc20_store :=
  match x_AccAddressFromBech32 x (pd_Sender data) with
  | None => Err ErrErc20Address
  | Some sender =>
      if x_IsModuleAccount x (ek_chain (er_evm st)) sender then Ok st
      else
        let '(denom, amount) := GetSentCoin (pd_Denom data) (pd_Amount data) in
        if decide (denom = x_BondDenom x (ek_chain (er_evm st))) then Ok st
        else if negb (EnableErc20 (GetParams st)) || negb (IsDenomRegistered denom st) then Ok st
        else
          match amount with
          | None => Panic
          | Some amount => ConvertCoin x (NewMsgConvertCoin denom amount (EthAddress sender) sender) st
          end
  end.

Definition OnAcknowledgementPacket (data : packet_data) (ack : acknowledgement) (st : erc20_store) :
    erc20_result erc20_store :=
  match ack with
  | AckError => ConvertCoinToERC20FromPacket data st
  | AckResult => Ok st
  end.

Definition OnTimeoutPacket (data : packet_data) (st : erc20_store) : erc20_result erc20_store :=
  ConvertCoinToERC20FromPacket data st.

(** ** The middleware: [ibc_middleware.go] *)

Definition middleware_OnRecvPacket (packet : Packet) (st : erc20_store) : erc20_result erc20_store :=
  st ← ib_OnRecvPacket ib packet st; OnRecvPacket packet st.

Definition middleware_OnAcknowledgementPacket (packet : Packet) (ack : option acknowledgement) (st : erc20_store) :
    erc20_result erc20_store :=
  match ack, pk_Data packet with
  | Some ack, Some data =>
      st ← ib_OnAcknowledgementPacket ib packet ack st; OnAcknowledgementPacket data ack st
  | _, _ => Err ErrUnknownProposal
  end.

Definition middleware_OnTimeoutPacket (packet : Packet) (st : erc20_store) : erc20_result erc20_store :=
  match pk_Data packet with
  | None => Err ErrUnknownProposal
  | Some data => st ← ib_OnTimeoutPacket ib packet st; OnTimeoutPacket data st
  end.

(** ** Outgoing transfers: [x/ibc/transfer/keeper/msg_server.go] *)

Definition NewMsgConvertERC20 (amount : Z) (receiver contract sender : Address) : MsgConvertERC20 :=
  mkMsgConvertERC20 (Address_Hex contract) amount (x_Bech32 x receiver) (Address_Hex sender).

Definition with_denom (denom : string) (msg : MsgTransfer rest) : MsgTransfer rest :=
  mkMsgTransfer _ denom (mt_Amount msg) (mt_Sender msg) (mt_rest msg).

Definition Transfer (msg : MsgTransfer rest) (st : erc20_store) : erc20_result (Z * erc20_store) :=
  let denom := default (mt_Denom msg) (cut_prefix "erc20/" (mt_Denom msg)) in
  match GetTokenPairID denom st with
  | None => ib_Transfer ib msg st
  | Some pairID =>
      let tp := default (mkTokenPair EmptyString EmptyString false OWNER_UNSPECIFIED) (GetTokenPair (Some pairID) st) in
      if negb (tp_Enabled tp) then ib_Transfer ib msg st
      else
        sender ← MustAccAddressFromBech32 x (mt_Sender msg);
        if negb (IsERC20Enabled st) then ib_Transfer ib msg st
        else
          let msg := with_denom (tp_Denom tp) msg in
          let balance := bank_GetBalance (ek_chain (er_evm st)) sender (tp_Denom tp) in
          if mt_Amount msg <=? balance then ib_Transfer ib msg st
          else
            let difference := mt_Amount msg - balance in
            st ← ConvertERC20 x (NewMsgConvertERC20 difference sender (GetERC20Contract tp) (EthAddress sender)) st;
            ib_Transfer ib msg st
  end.

End Erc20Ibc.
