(* ===== verification/Erc20IbcSpec.v ===== *)
(** * Conversions around IBC transfers: what they guarantee

    An outgoing transfer of a registered token converts exactly what is missing; a
    refund is converted back only while its pair is enabled. *)

From S2P Require Import Prelude Sdk Dec AccessList StateDB EvmKeeper EvmKeeperSpec EvmTx GasMeter EvmApply EvmQuery Erc20 EvmTxSpec Erc20Spec Erc20Ibc.

Section Spec.
Context `{EE : EvmEnv} `{GL : GethLaws} `{EK : !EVMKeeper} {rest : Type}.
Variables (x : erc20_env) (ib : ibc_env (rest := rest)).

(** An address that was read is printed in a form that is read back. *)
Definition bech32_laws : Prop :=
  ∀ s a, x_AccAddressFromBech32 x s = Some a → x_AccAddressFromBech32 x (x_Bech32 x a) = Some a.
Hypothesis AL : bech32_laws.

Lemma check_coin_inv denom a before n s u :
  check_coin denom a before n s = Ok u → bank_GetBalance (ek_chain s) a denom = before + n.
Proof.
  unfold check_coin. destruct (_ <=? _); [done|].
  by destruct (Z.eqb_spec (bank_GetBalance (ek_chain s) a denom) (before + n)).
Qed.

(** The coins of the receiver after a conversion of tokens, by the check of the code. *)
Lemma ConvertERC20_credits tok msg st st' tp receiver :
  token_laws x (GetERC20Contract tp) tok → module_bank_laws x → tok_live tok (er_evm st) →
  named_pair (ce_ContractAddress msg) st = Some tp →
  contract_gone x tp st = false → x_AccAddressFromBech32 x (ce_Receiver msg) = Some receiver →
  ConvertERC20 x msg st = Ok st' →
  bank_GetBalance (ek_chain (er_evm st')) receiver (tp_Denom tp) =
    bank_GetBalance (ek_chain (er_evm st)) receiver (tp_Denom tp) + ce_Amount msg.
Proof.
  intros TL BL Hl Hp Hg Hr Hc. destruct (ConvertERC20_inv x _ _ _ _ Hp Hg Hc) as (r & s & Hr' & -> & Hs).
  rewrite Hr in Hr'. injection Hr' as <-. cbn [with_evm er_evm]. destruct Hs as [[_ Hs]|[_ Hs]].
  - unfold convertERC20NativeCoin in Hs. apply bind_Ok_inv in Hs as ([b s1] & Hb & Hs).
    apply (token_balance_inv x tok _ TL) in Hb as [-> _]; [|done].
    apply bind_Ok_inv in Hs as ([res s2] & Hm & Hs). apply (law_stays _ _ _ TL) in Hm; [|done].
    apply bind_Ok_inv in Hs as (s3 & (c & [_ Hk]%(law_FromModule _ BL) & ->)%on_bank_inv & Hs).
    apply bind_Ok_inv in Hs as (u & Hcoin%check_coin_inv & Hs).
    apply (check_token_inv x tok _ TL) in Hs as [-> _]; [done|by apply (law_own_live _ _ _ TL)].
  - unfold convertERC20NativeToken in Hs. apply bind_Ok_inv in Hs as ([b s1] & _ & Hs).
    destruct (x_Pack x _); [|done]. apply bind_Ok_inv in Hs as ([res s2] & _ & Hs).
    apply bind_Ok_inv in Hs as (u & _ & Hs). do 3 (apply bind_Ok_inv in Hs as (? & _ & Hs)).
    apply bind_Ok_inv in Hs as (u' & Hcoin%check_coin_inv & Hs). by apply bind_Ok_inv in Hs as (u'' & _ & [= <-]).
Qed.

(** The contract of a pair finds the pair. *)
Lemma named_by_contract st id tp :
  registry_wf x st → in_address (GetERC20Contract tp) → er_pairs st !! id = Some tp →
  named_pair (Address_Hex (GetERC20Contract tp)) st = Some tp.
Proof.
  intros WF Ha Hp. destruct (wf_pair _ _ WF _ _ Hp) as (_ & _ & _ & Hby).
  unfold named_pair, GetTokenPairID, GetERC20Map. by rewrite IsHexAddress_Hex, HexToAddress_Hex, Hby.
Qed.

(** C35.  Outgoing transfers convert the shortfall.  A transfer of a token with an
    enabled pair is handed to ICS-20 in the coin of the pair, and the sender then has
    enough of it: the store is the one the transfer started with when the balance was
    enough, and otherwise exactly the missing amount was converted for the sender, from
    the tokens of the address that go-ethereum makes of the sender's, which is the
    sender's own when that has twenty bytes.  The contract of the pair is in order
    before ([tok_live]), and stays so by [token_laws]. *)
Theorem transfer_converts_shortfall tok (msg : MsgTransfer rest) st res tp sender :
  registry_wf x st → module_bank_laws x → token_laws x (GetERC20Contract tp) tok → tok_live tok (er_evm st) → in_address (GetERC20Contract tp) →
  named_pair (default (mt_Denom msg) (cut_prefix "erc20/" (mt_Denom msg))) st = Some tp →
  tp_Enabled tp = true → er_EnableErc20 st = true → contract_gone x tp st = false →
  x_AccAddressFromBech32 x (mt_Sender msg) = Some sender → Transfer x ib msg st = Ok res →
  let balance st := bank_GetBalance (ek_chain (er_evm st)) sender (tp_Denom tp) in
  ∃ st1, ib_Transfer ib (with_denom (tp_Denom tp) msg) st1 = Ok res ∧ mt_Amount msg <= balance st1 ∧
    if mt_Amount msg <=? balance st then st1 = st
    else balance st1 = mt_Amount msg ∧
         ConvertERC20 x (NewMsgConvertERC20 x (mt_Amount msg - balance st) sender (GetERC20Contract tp) (EthAddress sender)) st = Ok st1 ∧
         (in_address sender → EthAddress sender = sender).
Proof using GL AL.
  intros WF BL TL Hl Ha Hp Hen Hparam Hg Hs Ht balance. unfold Transfer in Ht. unfold named_pair in Hp.
  destruct (GetTokenPairID _ st) as [pid|]; [|done]. rewrite Hp in Ht. cbn [default id] in Ht.
  rewrite Hen in Ht. cbn [negb] in Ht. unfold MustAccAddressFromBech32 in Ht. rewrite Hs, Ok_bind in Ht.
  unfold IsERC20Enabled in Ht. rewrite Hparam in Ht. cbn [negb] in Ht.
  change (mt_Amount (with_denom (tp_Denom tp) msg)) with (mt_Amount msg) in Ht.
  change (bank_GetBalance _ sender (tp_Denom tp)) with (balance st) in Ht.
  destruct (Z.leb_spec (mt_Amount msg) (balance st)) as [Hle|Hlt]; [by exists st|].
  apply bind_Ok_inv in Ht as (st1 & Hc & Ht). exists st1.
  assert (balance st1 = mt_Amount msg) as Hb; [|split_and!; [done|lia|done..|apply EthAddress_small]].
  unfold balance at 1. rewrite (ConvertERC20_credits tok
    (NewMsgConvertERC20 x (mt_Amount msg - balance st) sender (GetERC20Contract tp) (EthAddress sender)) st st1 tp sender TL BL Hl
    (named_by_contract _ _ _ WF Ha Hp) Hg (AL _ _ Hs) Hc).
  cbn [NewMsgConvertERC20 ce_Amount]. fold (balance st). lia.
Qed.

(** A refund fails while its pair is disabled: ICS-20 has returned the coins, the
    conversion is an error, and the message that carried the timeout fails with it. *)
Lemma disabled_pair_blocks_refund packet data st st1 id tp sender amount :
  pk_Data packet = Some data → ib_OnTimeoutPacket ib packet st = Ok st1 →
  x_AccAddressFromBech32 x (pd_Sender data) = Some sender → x_IsModuleAccount x (ek_chain (er_evm st1)) sender = false →
  let denom := ib_IBCDenom ib (ib_ParseDenomTrace ib (pd_Denom data)) in
  denom ≠ x_BondDenom x (ek_chain (er_evm st1)) → IsHexAddress denom = false → er_EnableErc20 st1 = true →
  er_byDenom st1 !! denom = Some id → er_pairs st1 !! id = Some tp → tp_Enabled tp = false →
  ib_NewIntFromString ib (pd_Amount data) = Some amount →
  middleware_OnTimeoutPacket x ib packet st = Err ErrERC20TokenPairDisabled.
Proof using AL.
  intros Hd Hin Hs Hm denom Hb Hh He Hid Hp Hdis Ha. unfold middleware_OnTimeoutPacket. rewrite Hd, Hin, Ok_bind.
  unfold OnTimeoutPacket, ConvertCoinToERC20FromPacket. rewrite Hs, Hm. unfold GetSentCoin. fold denom.
  rewrite decide_False, Ha by done. unfold GetParams, IsERC20Enabled, IsDenomRegistered. rewrite He, Hid. cbn.
  unfold ConvertCoin, MustAccAddressFromBech32. cbn [NewMsgConvertCoin cc_Sender cc_Denom cc_Receiver].
  rewrite (AL _ _ Hs). rewrite Ok_bind. unfold MintingEnabled, IsERC20Enabled, GetTokenPairID, GetDenomMap.
  rewrite He, Hh, Hid. cbn. by rewrite Hp, Hdis.
Qed.

End Spec.

Module IbcToy.
Import MapCoins MapBank EvmToy GethToy Erc20Toy.

(** The transfer below the module takes the coins of the sender away. *)
Definition toy_ibc_transfer {rest} (msg : MsgTransfer rest) (st : erc20_store) : outcome erc20_error (Z * erc20_store) :=
  match x_SendToModule toy_erc20 (ek_chain (er_evm st)) (hex_read (mt_Sender msg) mod 2 ^ 160)
          (NewCoin (mt_Denom msg) (mt_Amount msg)) with
  | Ok c => Ok (1, with_evm (set_chain c (er_evm st)) st)
  | _ => Err ErrErc20Coins
  end.

Definition toy_ibc {rest} : ibc_env (rest := rest) := {|
  ib_ReceiverChainIsSource _ _ _ := false;
  ib_GetDenomPrefix _ _ := EmptyString;
  ib_ParseDenomTrace d := mkDenomTrace EmptyString d;
  ib_IBCDenom t := dt_BaseDenom t;
  ib_NewIntFromString _ := Some 5;
  ib_GetFromBech32 s _ := Some (hex_read s);
  ib_ParseHexHash _ := None;
  ib_EVMChannels := [];
  ib_OnRecvPacket _ st := Ok st;
  ib_OnAcknowledgementPacket _ _ st := Ok st;
  ib_OnTimeoutPacket _ st := Ok st;
  ib_Transfer := toy_ibc_transfer
|}.

Lemma toy_bech32_laws : bech32_laws toy_erc20.
Proof.
  intros s a Hs. assert (in_address a) as Ha by (injection Hs as <-; apply Z.mod_pos_bound; lia).
  cbn [x_AccAddressFromBech32 x_Bech32 toy_erc20]. rewrite hex_read_string.
  change (16 ^ Z.of_nat 40) with (2 ^ 160). rewrite (Z.mod_small a) by exact Ha. by rewrite Z.mod_small by exact Ha.
Qed.

Lemma toy_registry : registry_wf toy_erc20 (toy_store OWNER_EXTERNAL).
Proof.
  apply (InitGenesis_spec toy_erc20 toy_id_laws (toy_genesis OWNER_EXTERNAL) empty_registry).
  - split; [reflexivity|split; reflexivity].
  - repeat constructor.
  - split; repeat constructor; by intros ?%not_elem_of_nil.
Qed.

(** Account 8 has 40 tokens and no coins, and sends 25. *)
Definition toy_transfer : MsgTransfer () := mkMsgTransfer () (hex_string 40 9) 25 (hex_string 40 8) ().

Lemma transfer_converts_shortfall_witness :
  ∃ st1, toy_ibc_transfer (with_denom "ucoin" toy_transfer) st1 =
    Transfer toy_erc20 toy_ibc toy_transfer (toy_store OWNER_EXTERNAL) ∧
    bank_GetBalance (ek_chain (er_evm st1)) 8 "ucoin" = 25.
Proof.
  assert (is_Ok (Transfer toy_erc20 toy_ibc toy_transfer (toy_store OWNER_EXTERNAL)) = true) as Hok
    by (vm_compute; reflexivity).
  destruct (Transfer toy_erc20 toy_ibc toy_transfer (toy_store OWNER_EXTERNAL)) as [st'| |] eqn:Ht; [|discriminate Hok..].
  destruct (transfer_converts_shortfall toy_erc20 toy_ibc toy_bech32_laws toy_token toy_transfer
    (toy_store OWNER_EXTERNAL) st' (toy_pair OWNER_EXTERNAL) 8 toy_registry) as (st1 & H1 & _ & H2).
  - exact toy_bank_laws.
  - exact (transfer_token _ _ _ toy_pair_transfer).
  - eexists. reflexivity.
  - rewrite toy_contract. split; [lia|reflexivity].
  - vm_compute. reflexivity.
  - reflexivity.
  - reflexivity.
  - vm_compute. reflexivity.
  - vm_compute. reflexivity.
  - exact Ht.
  - exists st1. split; [exact H1|].
    replace (mt_Amount toy_transfer <=? _) with false in H2 by (vm_compute; reflexivity). exact (proj1 H2).
Defined.
End IbcToy.
