(* ===== verification/Revenue.v ===== *)
(** * Sharing fees with developers: [x/revenue/v1]

    A deployer registers a contract; after a transaction that calls it, the hook of
    the EVM module sends a share of the fee to the deployer, or to the address the
    deployer chose.  The store of the module is a map of registrations with two
    indices.  Addresses, the bank and the distribution module are fields of
    [revenue_env]; events and logs are left out. *)

From S2P Require Import Prelude Sdk Dec AccessList StateDB EvmKeeper EvmTx GasMeter EvmApply.

Record Revenue := mkRevenue {
  rv_ContractAddress : string;
  rv_DeployerAddress : string;
  rv_WithdrawerAddress : string
}.

Record MsgRegisterRevenue := mkMsgRegisterRevenue {
  mr_ContractAddress : string;
  mr_DeployerAddress : string;
  mr_Nonces : list Z;
  mr_WithdrawerAddress : string
}.

Record MsgUpdateRevenue := mkMsgUpdateRevenue {
  mu_ContractAddress : string;
  mu_DeployerAddress : string;
  mu_WithdrawerAddress : string
}.

Record MsgCancelRevenue := mkMsgCancelRevenue {
  mc_ContractAddress : string;
  mc_DeployerAddress : string
}.

Section Revenue.
Context `{EE : EvmEnv} `{GE : Geth} `{LD : LegacyDec} `{GM : GasMeter}.

Record RevenueParams := mkRevenueParams {
  EnableRevenue : bool;
  DeveloperShares : dec;
  AddrDerivationCostCreate : Z
}.

(** The registrations by contract, the contracts of each deployer and of each
    withdrawer; the parameters are missing before genesis. *)
Record revenue_store := mkRevenueStore {
  rs_revenues : gmap Address Revenue;
  rs_deployers : gset (Address * Address);
  rs_withdrawers : gset (Address * Address);
  rs_params : option RevenueParams
}.

Record revenue_env := mkRevenueEnv {
  rx_AccAddressFromBech32 : string → option Address;
  rx_Bech32 : Address → string;
  rx_Keccak256 : list byte → Hash;
  rx_CreateAddress : Address → Z → Address;
  rx_authority : string;
  rx_ActivePrecompiles : list string;
  rx_SendFromFeeCollector : chain → Address → coins → outcome chain_error chain;
  rx_FundCommunityPool : chain → coins → outcome chain_error chain;
  rx_MulInt : dec → Z → partial dec
}.

Inductive revenue_error :=
| ErrRevenueDisabled
| ErrRevenueAlreadyRegistered
| ErrRevenueNoContractDeployed
| ErrRevenueContractNotRegistered
| ErrRevenueDeployerIsNotEOA
| ErrRevenueNotFound
| ErrRevenueSigner
| ErrRevenueUnauthorized
| ErrRevenueAuthority
| ErrRevenueAddress
| ErrRevenueNonces
| ErrRevenueShares
| ErrRevenueDuplicate.

Abbreviation revenue_result A := (outcome revenue_error A).

Definition of_partial {A} (o : partial A) : revenue_result A :=
  match o with Ok a => Ok a | Err e => match e with end | Panic => Panic end.

Variable x : revenue_env.

(** ** Data: [types/revenue.go], [types/params.go] *)

Definition MustAccAddress (s : string) : revenue_result Address :=
  match rx_AccAddressFromBech32 x s with None => Panic | Some a => Ok a end.

Definition NewRevenue (contract deployer : Address) (withdrawer : option Address) : Revenue :=
  mkRevenue (Address_Hex contract) (rx_Bech32 x deployer)
    (match withdrawer with None => EmptyString | Some w => rx_Bech32 x w end).

Definition GetContractAddr (fs : Revenue) : Address := HexToAddress (rv_ContractAddress fs).
Definition GetDeployerAddr (fs : Revenue) : revenue_result Address := MustAccAddress (rv_DeployerAddress fs).
Definition GetWithdrawerAddr (fs : Revenue) : revenue_result (option Address) :=
  if decide (rv_WithdrawerAddress fs = EmptyString) then Ok None
  else Some <$> MustAccAddress (rv_WithdrawerAddress fs).

Definition ValidateNonZeroAddress (address : string) : revenue_result () :=
  if HexToAddress address =? 0 then Err ErrRevenueAddress
  else if IsHexAddress address then Ok () else Err ErrRevenueAddress.

Definition check_bech32 (address : string) : revenue_result () :=
  match rx_AccAddressFromBech32 x address with None => Err ErrRevenueAddress | Some _ => Ok () end.

Definition check_withdrawer (address : string) : revenue_result () :=
  if decide (address = EmptyString) then Ok () else check_bech32 address.

Definition Revenue_Validate (fs : Revenue) : revenue_result () :=
  _ ← ValidateNonZeroAddress (rv_ContractAddress fs);
  _ ← check_bech32 (rv_DeployerAddress fs);
  check_withdrawer (rv_WithdrawerAddress fs).

(** The types of the other fields are right by construction. *)
Definition RevenueParams_Validate (p : RevenueParams) : revenue_result () :=
  if dec_IsNegative (DeveloperShares p) then Err ErrRevenueShares
  else if dec_GT (DeveloperShares p) LegacyOneDec then Err ErrRevenueShares
  else Ok ().

Definition DefaultRevenueParams : RevenueParams := mkRevenueParams true (LegacyNewDecWithPrec 50 2) 50.

(** ** Messages: [types/msg.go] *)

Definition Register_ValidateBasic (msg : MsgRegisterRevenue) : revenue_result () :=
  _ ← check_bech32 (mr_DeployerAddress msg);
  _ ← ValidateNonZeroAddress (mr_ContractAddress msg);
  _ ← check_withdrawer (mr_WithdrawerAddress msg);
  let n := Z.of_nat (length (mr_Nonces msg)) in
  if n <? 1 then Err ErrRevenueNonces
  else if 20 <? n then Err ErrRevenueNonces
  else Ok ().

Definition Update_ValidateBasic (msg : MsgUpdateRevenue) : revenue_result () :=
  _ ← check_bech32 (mu_DeployerAddress msg);
  _ ← ValidateNonZeroAddress (mu_ContractAddress msg);
  check_bech32 (mu_WithdrawerAddress msg).

Definition Cancel_ValidateBasic (msg : MsgCancelRevenue) : revenue_result () :=
  _ ← check_bech32 (mc_DeployerAddress msg);
  ValidateNonZeroAddress (mc_ContractAddress msg).

(** ** The store: [keeper/revenues.go], [keeper/params.go] *)

Definition GetRevenues (rs : revenue_store) : list Revenue :=
  omap (λ c, rs_revenues rs !! c) (sorted_keys (rs_revenues rs)).
Definition GetRevenue (contract : Address) (rs : revenue_store) : option Revenue := rs_revenues rs !! contract.
Definition IsRevenueRegistered (contract : Address) (rs : revenue_store) : bool :=
  bool_decide (is_Some (rs_revenues rs !! contract)).

Definition SetRevenue (fs : Revenue) (rs : revenue_store) : revenue_store :=
  mkRevenueStore (<[GetContractAddr fs := fs]> (rs_revenues rs)) (rs_deployers rs) (rs_withdrawers rs) (rs_params rs).
Definition DeleteRevenue (fs : Revenue) (rs : revenue_store) : revenue_store :=
  mkRevenueStore (delete (GetContractAddr fs) (rs_revenues rs)) (rs_deployers rs) (rs_withdrawers rs) (rs_params rs).
Definition SetDeployerMap (deployer contract : Address) (rs : revenue_store) : revenue_store :=
  mkRevenueStore (rs_revenues rs) ({[(deployer, contract)]} ∪ rs_deployers rs) (rs_withdrawers rs) (rs_params rs).
Definition DeleteDeployerMap (deployer contract : Address) (rs : revenue_store) : revenue_store :=
  mkRevenueStore (rs_revenues rs) (rs_deployers rs ∖ {[(deployer, contract)]}) (rs_withdrawers rs) (rs_params rs).
Definition SetWithdrawerMap (withdrawer contract : Address) (rs : revenue_store) : revenue_store :=
  mkRevenueStore (rs_revenues rs) (rs_deployers rs) ({[(withdrawer, contract)]} ∪ rs_withdrawers rs) (rs_params rs).
Definition DeleteWithdrawerMap (withdrawer contract : Address) (rs : revenue_store) : revenue_store :=
  mkRevenueStore (rs_revenues rs) (rs_deployers rs) (rs_withdrawers rs ∖ {[(withdrawer, contract)]}) (rs_params rs).
Definition IsDeployerMapSet (deployer contract : Address) (rs : revenue_store) : bool :=
  bool_decide ((deployer, contract) ∈ rs_deployers rs).
Definition IsWithdrawerMapSet (withdrawer contract : Address) (rs : revenue_store) : bool :=
  bool_decide ((withdrawer, contract) ∈ rs_withdrawers rs).

Definition GetParams (rs : revenue_store) : option RevenueParams := rs_params rs.
Definition SetParams (p : RevenueParams) (rs : revenue_store) : revenue_store :=
  mkRevenueStore (rs_revenues rs) (rs_deployers rs) (rs_withdrawers rs) (Some p).

(** The parameters, when the module is enabled. *)
Definition enabled_params (rs : revenue_store) : option RevenueParams :=
  p ← GetParams rs; if EnableRevenue p then Some p else None.

(** ** Message handlers: [keeper/msg_server.go] *)

(** The address the deployer's nonces lead to, with the gas of each step. *)
Fixpoint derive_contract (cost : Z) (nonces : list Z) (derived : Address) (m : meter) : partial (Address * meter) :=
  match nonces with
  | [] => Ok (derived, m)
  | nonce :: nonces =>
      m ← meter_ConsumeGas cost m;
      derive_contract cost nonces (rx_CreateAddress x derived nonce) m
  end.

Definition has_code (acct : option Account) : bool :=
  match acct with Some acct => IsContract (rx_Keccak256 x) acct | None => false end.

Definition set_withdrawer (w : option Address) (contract : Address) (rs : revenue_store) : revenue_store :=
  match w with None => rs | Some w => SetWithdrawerMap w contract rs end.

Definition RegisterRevenue (msg : MsgRegisterRevenue) (s : evm_store) (m : meter) (rs : revenue_store) :
    revenue_result (revenue_store * meter) :=
  match enabled_params rs with
  | None => Err ErrRevenueDisabled
  | Some params =>
      let contract := HexToAddress (mr_ContractAddress msg) in
      if IsRevenueRegistered contract rs then Err ErrRevenueAlreadyRegistered
      else
        deployer ← MustAccAddress (mr_DeployerAddress msg);
        match GetAccountWithoutBalance (EthAddress deployer) s with
        | None => Err ErrRevenueNotFound
        | Some deployerAccount =>
            if IsContract (rx_Keccak256 x) deployerAccount then Err ErrRevenueDeployerIsNotEOA
            else if negb (has_code (GetAccountWithoutBalance contract s)) then Err ErrRevenueNoContractDeployed
            else
              withdrawer ← (if decide (mr_WithdrawerAddress msg = EmptyString ∨ mr_WithdrawerAddress msg = mr_DeployerAddress msg)
                            then Ok None else Some <$> MustAccAddress (mr_WithdrawerAddress msg));
              '(derived, m) ← of_partial (derive_contract (AddrDerivationCostCreate params) (mr_Nonces msg) (EthAddress deployer) m);
              if decide (contract = derived) then
                let rs := SetDeployerMap deployer contract (SetRevenue (NewRevenue contract deployer withdrawer) rs) in
                Ok (set_withdrawer withdrawer contract rs, m)
              else Err ErrRevenueSigner
        end
  end.

(** The registration of a contract, and that the sender is its deployer. *)
Definition owned_revenue (contract : Address) (deployer : string) (rs : revenue_store) : revenue_result Revenue :=
  match enabled_params rs with
  | None => Err ErrRevenueDisabled
  | Some _ =>
      match GetRevenue contract rs with
      | None => Err ErrRevenueContractNotRegistered
      | Some revenue => if decide (deployer = rv_DeployerAddress revenue) then Ok revenue else Err ErrRevenueUnauthorized
      end
  end.

(** Removing the index entry of a withdrawer that is not the default. *)
Definition drop_withdrawer (revenue : Revenue) (contract : Address) (rs : revenue_store) : revenue_result revenue_store :=
  w ← GetWithdrawerAddr revenue;
  Ok (match w with None => rs | Some w => DeleteWithdrawerMap w contract rs end).

Definition UpdateRevenue (msg : MsgUpdateRevenue) (rs : revenue_store) : revenue_result revenue_store :=
  let contract := HexToAddress (mu_ContractAddress msg) in
  revenue ← owned_revenue contract (mu_DeployerAddress msg) rs;
  let withdrawer :=
    if decide (mu_WithdrawerAddress msg = rv_DeployerAddress revenue) then EmptyString else mu_WithdrawerAddress msg in
  if decide (withdrawer = rv_WithdrawerAddress revenue) then Err ErrRevenueAlreadyRegistered
  else
    rs ← drop_withdrawer revenue contract rs;
    let revenue := mkRevenue (rv_ContractAddress revenue) (rv_DeployerAddress revenue) withdrawer in
    w ← GetWithdrawerAddr revenue;
    Ok (SetRevenue revenue (set_withdrawer w contract rs)).

Definition CancelRevenue (msg : MsgCancelRevenue) (rs : revenue_store) : revenue_result revenue_store :=
  let contract := HexToAddress (mc_ContractAddress msg) in
  fee ← owned_revenue contract (mc_DeployerAddress msg) rs;
  let rs := DeleteRevenue fee rs in
  deployer ← GetDeployerAddr fee;
  drop_withdrawer fee contract (DeleteDeployerMap deployer contract rs).

Definition UpdateParams (authority : string) (p : RevenueParams) (rs : revenue_store) : revenue_result revenue_store :=
  if decide (rx_authority x = authority) then Ok (SetParams p rs) else Err ErrRevenueAuthority.

(** ** Genesis: [genesis.go], [types/genesis.go] *)

Record RevenueGenesis := mkRevenueGenesis { rg_Params : RevenueParams; rg_Revenues : list Revenue }.

Fixpoint validate_revenues (l : list Revenue) (seenContract : gset string) : revenue_result () :=
  match l with
  | [] => Ok ()
  | fs :: l =>
      if decide (rv_ContractAddress fs ∈ seenContract) then Err ErrRevenueDuplicate
      else _ ← Revenue_Validate fs; validate_revenues l ({[rv_ContractAddress fs]} ∪ seenContract)
  end.
Definition Genesis_Validate (gs : RevenueGenesis) : revenue_result () :=
  _ ← validate_revenues (rg_Revenues gs) ∅; RevenueParams_Validate (rg_Params gs).

(** One registration of the genesis. *)
Definition init_revenue (fs : Revenue) (rs : revenue_store) : revenue_result revenue_store :=
  let contract := GetContractAddr fs in
  deployer ← GetDeployerAddr fs;
  withdrawer ← GetWithdrawerAddr fs;
  Ok (set_withdrawer withdrawer contract (SetDeployerMap deployer contract (SetRevenue fs rs))).

Fixpoint init_revenues (l : list Revenue) (rs : revenue_store) : revenue_result revenue_store :=
  match l with
  | [] => Ok rs
  | fs :: l => rs ← init_revenue fs rs; init_revenues l rs
  end.
Definition InitGenesis (gs : RevenueGenesis) (rs : revenue_store) : revenue_result revenue_store :=
  init_revenues (rg_Revenues gs) (SetParams (rg_Params gs) rs).

Definition ExportGenesis (rs : revenue_store) : option RevenueGenesis :=
  p ← GetParams rs; Some (mkRevenueGenesis p (GetRevenues rs)).

(** ** The hook: [keeper/evm_hooks.go] *)

(** Who gets the share: the community pool for a precompile, the withdrawer or the
    deployer of a registered contract, nobody otherwise. *)
Inductive beneficiary := CommunityPool | Developer (a : Address).

Definition get_beneficiary (contract : Address) (rs : revenue_store) : partial (option beneficiary) :=
  if decide (Address_Hex contract ∈ rx_ActivePrecompiles x) then Ok (Some CommunityPool)
  else
    match GetRevenue contract rs with
    | None => Ok None
    | Some revenue =>
        match GetWithdrawerAddr revenue, GetDeployerAddr revenue with
        | Ok (Some w), _ => Ok (Some (Developer w))
        | Ok None, Ok d => Ok (Some (Developer d))
        | _, _ => Panic
        end
    end.

Definition developer_fee (shares : dec) (gasUsed gasPrice : Z) : partial Z :=
  price ← NewIntFromBigInt gasPrice;
  txFee ← NewIntFromBigInt (gasUsed * price);
  d ← rx_MulInt x shares txFee;
  dec_TruncateInt d.

Definition PostTxProcessing (rs : revenue_store) (msg : Message) (receipt : Receipt) (s : evm_store) :
    outcome chain_error evm_store :=
  match m_To msg with
  | None => Ok s
  | Some contract =>
      if m_GasPrice msg <=? 0 then Ok s
      else
        match enabled_params rs with
        | None => Ok s
        | Some params =>
            if dec_IsZero (DeveloperShares params) then Ok s
            else
              match get_beneficiary contract rs with
              | Ok None => Ok s
              | Ok (Some b) =>
                  match developer_fee (DeveloperShares params) (rc_GasUsed receipt) (m_GasPrice msg) with
                  | Ok developerFee =>
                      let fees := NewCoin EvmDenom developerFee in
                      c ← match b with
                          | CommunityPool => rx_FundCommunityPool x (ek_chain s) fees
                          | Developer a => rx_SendFromFeeCollector x (ek_chain s) a fees
                          end;
                      Ok (set_chain c s)
                  | _ => Panic
                  end
              | _ => Panic
              end
        end
  end.

(** The hook as the EVM module runs it; it does not change the receipt. *)
Definition revenue_hook (rs : revenue_store) : Hook := λ msg receipt s, (receipt, PostTxProcessing rs msg receipt s).

End Revenue.
