(* ===== verification/RevenueSpec.v ===== *)
(** * Sharing fees with developers: what the module guarantees

    The indices describe the registrations, only the deployer of a contract can
    register, change or cancel it, and the hook pays the share of the fee and nothing
    else. *)

From S2P Require Import Prelude Sdk Dec AccessList StateDB Commit EvmKeeper EvmKeeperSpec EvmTx EvmTxSpec GasMeter EvmApply EvmApplySpec Revenue.

Section Registry.
Context `{EE : EvmEnv} `{GL : GethLaws} `{LD : LegacyDec} `{GM : GasMeter}.

(** Addresses of contracts have twenty bytes; an address of an account that was read is
    printed in a form that is not empty and is read back. *)
Record address_laws (x : revenue_env) : Prop := {
  al_HexToAddress s : in_address (HexToAddress s);
  al_roundtrip s a : rx_AccAddressFromBech32 x s = Some a → rx_AccAddressFromBech32 x (rx_Bech32 x a) = Some a;
  al_nonempty s a : rx_AccAddressFromBech32 x s = Some a → rx_Bech32 x a ≠ EmptyString
}.

Variable x : revenue_env.
Hypothesis AL : address_laws x.

(** The deployer and the withdrawer of a registration, as addresses. *)
Definition deployer_of (fs : Revenue) : option Address := rx_AccAddressFromBech32 x (rv_DeployerAddress fs).
Definition withdrawer_of (fs : Revenue) : option Address :=
  if decide (rv_WithdrawerAddress fs = EmptyString) then None else rx_AccAddressFromBech32 x (rv_WithdrawerAddress fs).

(** Registrations are stored under their contract, and the indices are theirs. *)
Record revenue_wf (rs : revenue_store) : Prop := {
  wf_revenue c fs : rs_revenues rs !! c = Some fs →
    GetContractAddr fs = c ∧ is_Some (deployer_of fs) ∧
    (rv_WithdrawerAddress fs = EmptyString ∨ is_Some (withdrawer_of fs));
  wf_deployer d c : (d, c) ∈ rs_deployers rs ↔ ∃ fs, rs_revenues rs !! c = Some fs ∧ deployer_of fs = Some d;
  wf_withdrawer w c : (w, c) ∈ rs_withdrawers rs ↔ ∃ fs, rs_revenues rs !! c = Some fs ∧ withdrawer_of fs = Some w
}.

Lemma MustAccAddress_inv s a : MustAccAddress x s = Ok a ↔ rx_AccAddressFromBech32 x s = Some a.
Proof. unfold MustAccAddress. destruct (rx_AccAddressFromBech32 x s); naive_solver. Qed.

Lemma GetWithdrawerAddr_inv fs w : GetWithdrawerAddr x fs = Ok w → withdrawer_of fs = w ∧
  (rv_WithdrawerAddress fs = EmptyString ∨ is_Some w).
Proof.
  unfold GetWithdrawerAddr, withdrawer_of. case_decide; [intros [= <-]; by split; [|left]|].
  unfold MustAccAddress. destruct (rx_AccAddressFromBech32 x _); cbn; intros; simplify_eq. split; [done|right; eauto].
Qed.

(** Replacing the registration of [c], or adding or removing one, with its entries. *)
Lemma replace_wf rs rs' c new :
  revenue_wf rs →
  (∀ fs, new = Some fs → GetContractAddr fs = c ∧ is_Some (deployer_of fs) ∧
     (rv_WithdrawerAddress fs = EmptyString ∨ is_Some (withdrawer_of fs))) →
  rs_revenues rs' = partial_alter (λ _, new) c (rs_revenues rs) →
  (∀ d c', (d, c') ∈ rs_deployers rs' ↔
     if decide (c' = c) then (new ≫= deployer_of) = Some d else (d, c') ∈ rs_deployers rs) →
  (∀ w c', (w, c') ∈ rs_withdrawers rs' ↔
     if decide (c' = c) then (new ≫= withdrawer_of) = Some w else (w, c') ∈ rs_withdrawers rs) →
  revenue_wf rs'.
Proof.
  intros WF Hnew Hr Hd Hw. split.
  - intros c' fs. rewrite Hr, lookup_partial_alter_Some. intros [(<- & Hn)|(_ & Hl)];
    [by apply Hnew|by apply (wf_revenue _ WF)].
  - intros d c'. rewrite Hd, Hr. case_decide as Hc.
    + subst. rewrite lookup_partial_alter_eq. destruct new; cbn; naive_solver.
    + rewrite lookup_partial_alter_ne by done. apply (wf_deployer _ WF).
  - intros w c'. rewrite Hw, Hr. case_decide as Hc.
    + subst. rewrite lookup_partial_alter_eq. destruct new; cbn; naive_solver.
    + rewrite lookup_partial_alter_ne by done. apply (wf_withdrawer _ WF).
Qed.

(** *** Handlers *)

Lemma enabled_params_inv rs p : enabled_params rs = Some p → rs_params rs = Some p ∧ EnableRevenue p = true.
Proof. unfold enabled_params, GetParams. destruct (rs_params rs) as [q|]; [|done]. cbn. destruct (EnableRevenue q) eqn:He; naive_solver. Qed.

(** The address the nonces of the deployer lead to. *)
Definition derived_from (deployer : Address) (nonces : list Z) : Address :=
  foldl (rx_CreateAddress x) deployer nonces.

Lemma derive_contract_inv cost nonces derived m a m' :
  derive_contract x cost nonces derived m = Ok (a, m') → a = derived_from derived nonces.
Proof.
  revert derived m. induction nonces as [|n nonces IH]; intros derived m Hd; cbn in *; [by simplify_eq|].
  apply bind_Ok_inv in Hd as (m1 & _ & Hd). by apply IH in Hd.
Qed.

(** What a registration that succeeds has checked, and the store it leaves. *)
Lemma RegisterRevenue_inv msg s m rs rs' m' :
  RegisterRevenue x msg s m rs = Ok (rs', m') →
  let contract := HexToAddress (mr_ContractAddress msg) in
  ∃ deployer withdrawer, rx_AccAddressFromBech32 x (mr_DeployerAddress msg) = Some deployer ∧
    rs_revenues rs !! contract = None ∧ contract = derived_from (EthAddress deployer) (mr_Nonces msg) ∧
    has_code x (GetAccountWithoutBalance contract s) = true ∧ has_code x (GetAccountWithoutBalance (EthAddress deployer) s) = false ∧
    (∀ w, withdrawer = Some w → ∃ t, rx_AccAddressFromBech32 x t = Some w) ∧
    rs' = set_withdrawer withdrawer contract
            (SetDeployerMap deployer contract (SetRevenue (NewRevenue x contract deployer withdrawer) rs)).
Proof.
  intros Hr contract. unfold RegisterRevenue in Hr. destruct (enabled_params rs) as [p|]; [|done]. fold contract in Hr.
  destruct (IsRevenueRegistered contract rs) eqn:Hreg; [done|].
  apply bind_Ok_inv in Hr as (deployer & Hdep%MustAccAddress_inv & Hr).
  destruct (GetAccountWithoutBalance (EthAddress deployer) s) as [da|] eqn:Hda; [|done].
  destruct (IsContract _ da) eqn:Hdc; [done|]. destruct (has_code x (GetAccountWithoutBalance contract s)) eqn:Hcc; [|done].
  cbn [negb] in Hr. apply bind_Ok_inv in Hr as (w & Hw & Hr). apply bind_Ok_inv in Hr as ([derived m1] & Hd & Hr).
  case_decide as Hc; simplify_eq. exists deployer, w. split_and!; [done| | |done|by rewrite Hda| |done].
  - unfold IsRevenueRegistered in Hreg. by apply bool_decide_eq_false, eq_None_not_Some in Hreg.
  - destruct (derive_contract _ _ _ _ _) as [[a' m2]|[]|] eqn:Hdd; cbn in Hd; simplify_eq.
    by eapply derive_contract_inv.
  - intros w' ->. case_decide; [done|]. unfold MustAccAddress in Hw.
    destruct (rx_AccAddressFromBech32 x (mr_WithdrawerAddress msg)) eqn:Ha; cbn in Hw; simplify_eq. by eexists.
Qed.

Lemma RegisterRevenue_wf msg s m rs rs' m' : revenue_wf rs → RegisterRevenue x msg s m rs = Ok (rs', m') → revenue_wf rs'.
Proof.
  intros WF Hr. apply RegisterRevenue_inv in Hr as (d & w & Hd & Hnone & _ & _ & _ & Hw & ->).
  set (c := HexToAddress (mr_ContractAddress msg)) in *. pose proof (al_HexToAddress _ AL (mr_ContractAddress msg)) as Hc.
  fold c in Hc. set (fs := NewRevenue x c d w).
  assert (GetContractAddr fs = c) as Hkey by (unfold GetContractAddr; cbn; by apply HexToAddress_Hex).
  assert (deployer_of fs = Some d) as Hdep by (by eapply (al_roundtrip _ AL)).
  assert (withdrawer_of fs = w ∧ (rv_WithdrawerAddress fs = EmptyString ∨ is_Some w)) as [Hwd Hws].
  { unfold withdrawer_of. cbn. destruct w as [w|]; [|by split; [|left]].
    destruct (Hw w eq_refl) as [t Ht].
    rewrite decide_False by (by eapply (al_nonempty _ AL)). rewrite (al_roundtrip _ AL _ _ Ht). eauto. }
  assert (∀ d' c', (d', c') ∈ rs_deployers rs → c' ≠ c) as Hnd.
  { intros d' c' (fs' & Hfs & _)%(wf_deployer _ WF) ->. by rewrite Hnone in Hfs. }
  assert (∀ w' c', (w', c') ∈ rs_withdrawers rs → c' ≠ c) as Hnw.
  { intros w' c' (fs' & Hfs & _)%(wf_withdrawer _ WF) ->. by rewrite Hnone in Hfs. }
  apply (replace_wf rs _ c (Some fs) WF).
  - intros ? [= <-]. rewrite Hkey, Hdep, Hwd. eauto.
  - unfold set_withdrawer. destruct w; cbn; fold fs; by rewrite Hkey.
  - intros d' c'. cbn. rewrite Hdep. unfold set_withdrawer. destruct w; cbn; case_decide; set_solver.
  - intros w' c'. cbn. rewrite Hwd. unfold set_withdrawer. destruct w as [w|]; cbn; case_decide; set_solver.
Qed.

Lemma owned_revenue_inv c deployer rs fs :
  owned_revenue c deployer rs = Ok fs → rs_revenues rs !! c = Some fs ∧ deployer = rv_DeployerAddress fs.
Proof.
  unfold owned_revenue, GetRevenue. destruct (enabled_params rs); [|done]. destruct (rs_revenues rs !! c); [|done].
  case_decide; naive_solver.
Qed.

(** The deployer or the withdrawer a registered contract has in an index is its own. *)
Lemma indexed_own rs c fs : revenue_wf rs → rs_revenues rs !! c = Some fs →
  (∀ d, (d, c) ∈ rs_deployers rs ↔ deployer_of fs = Some d) ∧
  (∀ w, (w, c) ∈ rs_withdrawers rs ↔ withdrawer_of fs = Some w).
Proof. intros WF Hfs. split; intros; rewrite ?(wf_deployer _ WF), ?(wf_withdrawer _ WF); naive_solver. Qed.

Lemma UpdateRevenue_wf msg rs rs' : revenue_wf rs → UpdateRevenue x msg rs = Ok rs' → revenue_wf rs'.
Proof.
  intros WF Hu. unfold UpdateRevenue in Hu. set (c := HexToAddress (mu_ContractAddress msg)) in *.
  apply bind_Ok_inv in Hu as (fs & [Hfs _]%owned_revenue_inv & Hu). case_decide; [done|].
  apply bind_Ok_inv in Hu as (rs1 & Hd & Hu). apply bind_Ok_inv in Hu as (w & Hw & Hu). injection Hu as <-.
  unfold drop_withdrawer in Hd. apply bind_Ok_inv in Hd as (w0 & [Hw0 _]%GetWithdrawerAddr_inv & [= <-]).
  apply GetWithdrawerAddr_inv in Hw as [Hw Hws]. set (new := mkRevenue _ _ _) in *.
  destruct (wf_revenue _ WF _ _ Hfs) as (Hkey & Hdep & _). destruct (indexed_own _ _ _ WF Hfs) as [Hid Hiw].
  apply (replace_wf rs _ c (Some new) WF).
  - intros ? [= <-]. rewrite Hw. by split_and!.
  - destruct w, w0; cbn; fold new; change (GetContractAddr new) with (GetContractAddr fs); by rewrite Hkey.
  - intros d' c'. change (Some new ≫= deployer_of) with (deployer_of fs). 
    destruct (decide (c' = c)) as [Hcc|Hcc]; [rewrite Hcc|]; destruct w, w0; (apply Hid || done).
  - intros w' c'. cbn [mbind option_bind]. rewrite Hw. specialize (Hiw w'). rewrite Hw0 in Hiw.
    destruct (decide (c' = c)); destruct w, w0; cbn; set_solver.
Qed.

Lemma CancelRevenue_wf msg rs rs' : revenue_wf rs → CancelRevenue x msg rs = Ok rs' → revenue_wf rs'.
Proof.
  intros WF Hu. unfold CancelRevenue in Hu. set (c := HexToAddress (mc_ContractAddress msg)) in *.
  apply bind_Ok_inv in Hu as (fs & [Hfs _]%owned_revenue_inv & Hu).
  apply bind_Ok_inv in Hu as (d & Hd%MustAccAddress_inv & Hu). unfold drop_withdrawer in Hu.
  apply bind_Ok_inv in Hu as (w & [Hw _]%GetWithdrawerAddr_inv & [= <-]).
  destruct (wf_revenue _ WF _ _ Hfs) as (Hkey & _). destruct (indexed_own _ _ _ WF Hfs) as [Hid Hiw].
  apply (replace_wf rs _ c None WF).
  - done.
  - destruct w; cbn; by rewrite Hkey.
  - intros d' c'. specialize (Hid d'). change (deployer_of fs) with (rx_AccAddressFromBech32 x (rv_DeployerAddress fs)) in Hid.
    rewrite Hd in Hid. destruct w; cbn; case_decide; set_solver.
  - intros w' c'. specialize (Hiw w'). rewrite Hw in Hiw. destruct w; cbn; case_decide; set_solver.
Qed.

(** *** Genesis *)

Lemma init_revenue_wf fs rs rs' :
  revenue_wf rs → rs_revenues rs !! GetContractAddr fs = None → init_revenue x fs rs = Ok rs' →
  revenue_wf rs' ∧ rs_revenues rs' = <[GetContractAddr fs := fs]> (rs_revenues rs) ∧ rs_params rs' = rs_params rs.
Proof.
  intros WF Hnone Hi. unfold init_revenue in Hi. set (c := GetContractAddr fs) in *.
  apply bind_Ok_inv in Hi as (d & Hd%MustAccAddress_inv & Hi). apply bind_Ok_inv in Hi as (w & Hw & [= <-]).
  apply GetWithdrawerAddr_inv in Hw as [Hw Hws].
  assert (∀ d' c', (d', c') ∈ rs_deployers rs → c' ≠ c) as Hnd.
  { intros d' c' (fs' & Hfs & _)%(wf_deployer _ WF) ->. by rewrite Hnone in Hfs. }
  assert (∀ w' c', (w', c') ∈ rs_withdrawers rs → c' ≠ c) as Hnw.
  { intros w' c' (fs' & Hfs & _)%(wf_withdrawer _ WF) ->. by rewrite Hnone in Hfs. }
  split; [|by destruct w]. change (deployer_of fs = Some d) in Hd. apply (replace_wf rs _ c (Some fs) WF).
  - intros ? [= <-]. rewrite Hw, Hd. eauto.
  - by destruct w.
  - intros d' c'. cbn [mbind option_bind]. rewrite Hd. destruct (decide (c' = c)); destruct w; cbn; set_solver.
  - intros w' c'. cbn [mbind option_bind]. rewrite Hw. destruct (decide (c' = c)); destruct w; cbn; set_solver.
Qed.

(** The contract is written in checksummed form. *)
Definition canonical (fs : Revenue) : Prop := rv_ContractAddress fs = Address_Hex (GetContractAddr fs).

Lemma validate_revenues_inv l seen :
  validate_revenues x l seen = Ok () →
  NoDup (rv_ContractAddress <$> l) ∧ Forall (λ fs, rv_ContractAddress fs ∉ seen) l.
Proof.
  revert seen. induction l as [|fs l IH]; intros seen Hv; [split; [apply NoDup_nil_2|done]|].
  cbn [validate_revenues] in Hv. case_decide as Hs; [done|]. apply bind_Ok_inv in Hv as (u & _ & Hv).
  apply IH in Hv as [Hn Hf]. rewrite Forall_forall in Hf. rewrite fmap_cons. split.
  - constructor; [|done]. intros (fs' & Heq & Hin)%list_elem_of_fmap. specialize (Hf fs' Hin). set_solver.
  - constructor; [done|]. apply Forall_forall. intros fs' Hin. specialize (Hf fs' Hin). set_solver.
Qed.

Lemma init_revenues_wf l rs rs' :
  revenue_wf rs → Forall canonical l → NoDup (rv_ContractAddress <$> l) →
  Forall (λ fs, rs_revenues rs !! GetContractAddr fs = None) l → init_revenues x l rs = Ok rs' → revenue_wf rs'.
Proof.
  revert rs. induction l as [|fs l IH]; intros rs WF Hc Hn Hf Hi; [by simplify_eq/=|].
  cbn [init_revenues] in Hi. apply bind_Ok_inv in Hi as (rs1 & Hi1 & Hi).
  apply Forall_cons in Hc as [Hc1 Hc], Hf as [Hf1 Hf]. rewrite fmap_cons in Hn. apply NoDup_cons in Hn as [Hn1 Hn].
  destruct (init_revenue_wf fs rs rs1 WF Hf1 Hi1) as (WF1 & Hr & _). apply (IH rs1); [done..| |done].
  rewrite Forall_forall in *. intros fs' Hin. rewrite Hr, lookup_insert_ne; [by apply Hf|].
  intros Heq. apply Hn1. apply list_elem_of_fmap. exists fs'. split; [|done].
  rewrite (Hc1 : rv_ContractAddress fs = _), (Hc fs' Hin : rv_ContractAddress fs' = _). by rewrite Heq.
Qed.

(** ** Steps of the module *)

Inductive revenue_step : revenue_store → revenue_store → Prop :=
| step_Register msg s m rs rs' m' : RegisterRevenue x msg s m rs = Ok (rs', m') → revenue_step rs rs'
| step_Update msg rs rs' : UpdateRevenue x msg rs = Ok rs' → revenue_step rs rs'
| step_Cancel msg rs rs' : CancelRevenue x msg rs = Ok rs' → revenue_step rs rs'
| step_Params authority p rs rs' : UpdateParams x authority p rs = Ok rs' → revenue_step rs rs'.

Definition no_revenues (rs : revenue_store) : Prop :=
  rs_revenues rs = ∅ ∧ rs_deployers rs = ∅ ∧ rs_withdrawers rs = ∅.

Lemma InitGenesis_wf gs rs0 rs1 :
  no_revenues rs0 → Genesis_Validate x gs = Ok () → Forall canonical (rg_Revenues gs) →
  InitGenesis x gs rs0 = Ok rs1 → revenue_wf rs1.
Proof using AL GL.
  intros (Hr & Hd & Hw) Hv Hc Hi. unfold Genesis_Validate in Hv. apply bind_Ok_inv in Hv as ([] & Hv & _).
  apply validate_revenues_inv in Hv as [Hn _]. eapply init_revenues_wf; [|exact Hc|exact Hn| |exact Hi].
  - split; cbn; rewrite ?Hr, ?Hd, ?Hw; set_solver.
  - apply Forall_true. intros fs. cbn. by rewrite Hr.
Qed.

(** C36.  The indices of the revenue module are those of the registrations.  From a
    genesis that validates, with checksummed contract addresses, and through any
    sequence of registrations, updates, cancellations and parameter changes: each
    registration is stored under its contract and has a deployer, and a contract is
    listed under exactly its deployer and, if it has one, its withdrawer. *)
Theorem revenue_indices_consistent gs rs0 rs1 rs :
  no_revenues rs0 → Genesis_Validate x gs = Ok () → Forall canonical (rg_Revenues gs) →
  InitGenesis x gs rs0 = Ok rs1 → rtc revenue_step rs1 rs → revenue_wf rs.
Proof using AL GL.
  intros Hnone Hv Hc Hi Hsteps. pose proof (InitGenesis_wf _ _ _ Hnone Hv Hc Hi) as WF.
  clear Hi. induction Hsteps as [|rs1 rs2 rs3 Hstep _ IH]; [done|]. apply IH. destruct Hstep as [msg s m rs rs' m' H1|msg rs rs' H1|msg rs rs' H1|authority p rs rs' H1].
  - by eapply RegisterRevenue_wf.
  - by eapply UpdateRevenue_wf.
  - by eapply CancelRevenue_wf.
  - unfold UpdateParams in H1. case_decide; simplify_eq. by destruct WF.
Qed.

Lemma SetRevenue_other fs rs c : c ≠ GetContractAddr fs → rs_revenues (SetRevenue fs rs) !! c = rs_revenues rs !! c.
Proof. intros Hc. cbn. by rewrite lookup_insert_ne by done. Qed.

Lemma set_withdrawer_revenues w c rs : rs_revenues (set_withdrawer w c rs) = rs_revenues rs.
Proof. by destruct w. Qed.

Lemma drop_withdrawer_revenues fs c rs rs' : drop_withdrawer x fs c rs = Ok rs' → rs_revenues rs' = rs_revenues rs.
Proof. unfold drop_withdrawer. intros Hd. apply bind_Ok_inv in Hd as ([w|] & _ & [= <-]); done. Qed.

(** Only the deployer decides.  A registration is new, and its contract is one
    the deployer created, directly or through contracts it created; a registration
    changes or disappears only by a message of the deployer it records, which it
    keeps as long as it exists. *)
Theorem deployer_controls_revenue rs c :
  revenue_wf rs → in_address c →
  (∀ msg s m rs' m', RegisterRevenue x msg s m rs = Ok (rs', m') → rs_revenues rs' !! c ≠ rs_revenues rs !! c →
     rs_revenues rs !! c = None ∧
     ∃ deployer fs, rx_AccAddressFromBech32 x (mr_DeployerAddress msg) = Some deployer ∧
       c = derived_from (EthAddress deployer) (mr_Nonces msg) ∧ rs_revenues rs' !! c = Some fs ∧ deployer_of fs = Some deployer) ∧
  (∀ msg rs', UpdateRevenue x msg rs = Ok rs' → rs_revenues rs' !! c ≠ rs_revenues rs !! c →
     ∃ fs fs', rs_revenues rs !! c = Some fs ∧ rv_DeployerAddress fs = mu_DeployerAddress msg ∧
       rs_revenues rs' !! c = Some fs' ∧ rv_DeployerAddress fs' = rv_DeployerAddress fs) ∧
  (∀ msg rs', CancelRevenue x msg rs = Ok rs' → rs_revenues rs' !! c ≠ rs_revenues rs !! c →
     ∃ fs, rs_revenues rs !! c = Some fs ∧ rv_DeployerAddress fs = mc_DeployerAddress msg ∧ rs_revenues rs' !! c = None).
Proof using AL GL.
  intros WF Ha. split_and!.
  - intros msg s m rs' m' (d & w & Hd & Hnone & Hder & _ & _ & _ & ->)%RegisterRevenue_inv Hne.
    set (c' := HexToAddress (mr_ContractAddress msg)) in *. set (fs := NewRevenue x c' d w) in *.
    assert (GetContractAddr fs = c') as Hkey by (apply HexToAddress_Hex, (al_HexToAddress _ AL)).
    rewrite set_withdrawer_revenues in Hne |- *. cbn in Hne |- *. rewrite Hkey in Hne |- *.
    destruct (decide (c = c')) as [->|]; [|by rewrite lookup_insert_ne in Hne]. split; [done|].
    exists d, fs. rewrite lookup_insert_eq. split_and!; [done..|]. by eapply (al_roundtrip _ AL).
  - intros msg rs' Hu Hne. unfold UpdateRevenue in Hu. apply bind_Ok_inv in Hu as (fs & [Hfs Hdep]%owned_revenue_inv & Hu).
    case_decide; [done|]. apply bind_Ok_inv in Hu as (rs1 & Hd%drop_withdrawer_revenues & Hu).
    apply bind_Ok_inv in Hu as (w & _ & [= <-]). cbn in Hne |- *. rewrite set_withdrawer_revenues, Hd in Hne |- *.
    destruct (wf_revenue _ WF _ _ Hfs) as [Hkey _].
    match type of Hne with context [mkRevenue ?a ?b ?e] => set (new := mkRevenue a b e) in * end.
    change (GetContractAddr new) with (GetContractAddr fs) in Hne |- *. rewrite Hkey in Hne |- *.
    destruct (decide (c = HexToAddress (mu_ContractAddress msg))) as [Hc|]; [|by rewrite lookup_insert_ne in Hne].
    exists fs, new. rewrite Hc, lookup_insert_eq. by split_and!.
  - intros msg rs' Hu Hne. unfold CancelRevenue in Hu. apply bind_Ok_inv in Hu as (fs & [Hfs Hdep]%owned_revenue_inv & Hu).
    apply bind_Ok_inv in Hu as (d & _ & Hu%drop_withdrawer_revenues). cbn in Hu. rewrite Hu in Hne |- *.
    destruct (wf_revenue _ WF _ _ Hfs) as [Hkey _]. rewrite Hkey in Hne |- *.
    destruct (decide (c = HexToAddress (mc_ContractAddress msg))) as [Hc|]; [|by rewrite lookup_delete_ne in Hne].
    exists fs. rewrite Hc, lookup_delete_eq. by split_and!.
Qed.

End Registry.

(** ** The share of the fee *)

Section Hook.
Context `{CL : CoinsLaws} `{EE : !EvmEnv} `{GE : Geth} `{LD : LegacyDec} `{DL : !DecLaws} `{GM : GasMeter}.
Variable k : EvmModule.
Variable x : revenue_env.
Variables (collector pool : Address).

(** The transfers out of the fee collector, and [MulInt], which is exact. *)
Record hook_laws : Prop := {
  hl_Send c a cs c' : rx_SendFromFeeCollector x c a cs = Ok c' → transferred collector a cs c c' ∧
    ∀ b, is_Some (auth_GetAccount c b) → is_Some (auth_GetAccount c' b);
  hl_Fund c cs c' : rx_FundCommunityPool x c cs = Ok c' → transferred collector pool cs c c' ∧
    ∀ b, is_Some (auth_GetAccount c b) → is_Some (auth_GetAccount c' b);
  hl_MulInt a n c : rx_MulInt x a n = Ok c → raw c = raw a * n
}.

(** Who shares the fees of a contract: the community pool those of a precompile, the
    withdrawer, if there is one, or the deployer those of a registered contract. *)
Definition share_holder (rs : revenue_store) (contract : Address) : option Address :=
  if decide (Address_Hex contract ∈ rx_ActivePrecompiles x) then Some pool
  else
    fs ← rs_revenues rs !! contract;
    match withdrawer_of x fs with Some w => Some w | None => deployer_of x fs end.

Lemma get_beneficiary_inv rs contract b :
  get_beneficiary x contract rs = Ok b →
  share_holder rs contract = (λ b, match b with CommunityPool => pool | Developer a => a end) <$> b.
Proof.
  unfold get_beneficiary, share_holder, GetRevenue. case_decide; [by intros [= <-]|].
  destruct (rs_revenues rs !! contract) as [fs|]; [|by intros [= <-]]. cbn.
  destruct (GetWithdrawerAddr x fs) as [[w|]| |] eqn:Hw; [| |done..]; apply GetWithdrawerAddr_inv in Hw as [-> _].
  - by intros [= <-].
  - destruct (GetDeployerAddr x fs) as [d| |] eqn:Hd; intros; simplify_eq. by apply MustAccAddress_inv.
Qed.

(** Who shares the fee of a message, and how much: the share of the gas used times the
    gas price, rounded down. *)
Definition payout (rs : revenue_store) (msg : Message) (gasUsed : Z) : option (Address * Z) :=
  match m_To msg, enabled_params rs with
  | Some contract, Some params =>
      if (m_GasPrice msg <=? 0) || dec_IsZero (DeveloperShares params) then None
      else
        a ← share_holder rs contract;
        Some (a, raw (DeveloperShares params) * (gasUsed * m_GasPrice msg) / dec_one)
  | _, _ => None
  end.

(** The change of the balance of [a] when [p] is paid out. *)
Definition paid_out (p : option (Address * Z)) (a : Address) : Z :=
  match p with
  | None => 0
  | Some (to, n) => (if decide (a = to) then n else 0) - (if decide (a = collector) then n else 0)
  end.

Definition shares_ok (rs : revenue_store) : Prop :=
  ∀ p, rs_params rs = Some p → 0 <= raw (DeveloperShares p) <= dec_one.

Lemma developer_fee_inv shares gasUsed price n :
  hook_laws → 0 <= raw shares → 0 <= gasUsed * price → developer_fee x shares gasUsed price = Ok n →
  n = raw shares * (gasUsed * price) / dec_one.
Proof.
  intros HL Hs Hg Hd. unfold developer_fee in Hd. apply bind_Ok_inv in Hd as (p & Hp & Hd).
  apply bind_Ok_inv in Hd as (fee & Hf & Hd). apply bind_Ok_inv in Hd as (c & Hc%(hl_MulInt HL) & Hd).
  unfold NewIntFromBigInt in Hp, Hf. destruct (IsValidInt256 (Some price)); simplify_eq.
  destruct (IsValidInt256 _); simplify_eq. apply TruncateInt_inv in Hd. rewrite Hd, Hc.
  apply Z.quot_div_nonneg; [by apply Z.mul_nonneg_nonneg|done].
Qed.

(** The effect of the hook: the pay-out and nothing else. *)
Lemma PostTxProcessing_spec rs msg receipt s s' :
  hook_laws → shares_ok rs → 0 <= rc_GasUsed receipt → Revenue.PostTxProcessing x rs msg receipt s = Ok s' →
  ek_storage s' = ek_storage s ∧ ek_code s' = ek_code s ∧
  (∀ b, is_Some (auth_GetAccount (ek_chain s) b) → is_Some (auth_GetAccount (ek_chain s') b)) ∧
  ∀ a d, bank_GetBalance (ek_chain s') a d = bank_GetBalance (ek_chain s) a d +
    if decide (d = EvmDenom) then paid_out (payout rs msg (rc_GasUsed receipt)) a else 0.
Proof.
  intros HL Hsh Hg Hp. unfold Revenue.PostTxProcessing in Hp. unfold payout.
  assert (∀ s, ek_storage s = ek_storage s ∧ ek_code s = ek_code s ∧
    (∀ b, is_Some (auth_GetAccount (ek_chain s) b) → is_Some (auth_GetAccount (ek_chain s) b)) ∧
    ∀ a d, bank_GetBalance (ek_chain s) a d = bank_GetBalance (ek_chain s) a d +
      if decide (d = EvmDenom) then paid_out None a else 0) as Hsame.
  { intros s0. split_and!; [done..|]. intros a d. cbn. case_decide; lia. }
  destruct (m_To msg) as [contract|]; [|simplify_eq; apply Hsame].
  destruct (Z.leb_spec (m_GasPrice msg) 0) as [|Hprice];
    [destruct (enabled_params rs); simplify_eq; cbn [orb]; apply Hsame|].
  destruct (enabled_params rs) as [p|] eqn:He; [|simplify_eq; apply Hsame]. cbn [orb].
  destruct (dec_IsZero _); [simplify_eq; apply Hsame|].
  destruct (get_beneficiary x contract rs) as [b|[]|] eqn:Hben; [|done]. apply get_beneficiary_inv in Hben as ->.
  destruct b as [b|]; cbn [fmap option_fmap option_map mbind option_bind]; [|simplify_eq; apply Hsame].
  apply enabled_params_inv in He as [He _]. apply Hsh in He.
  destruct (developer_fee _ _ _ _) as [n|[]|] eqn:Hn; [|destruct b; done].
  assert (0 <= rc_GasUsed receipt * m_GasPrice msg) as Hfee by (apply Z.mul_nonneg_nonneg; lia).
  pose proof (developer_fee_inv _ _ _ _ HL (proj1 He) Hfee Hn) as Hval.
  assert (0 <= n) as Hpos by (rewrite Hval; apply Z.div_pos; [apply Z.mul_nonneg_nonneg; lia|done]).
  rewrite <-Hval. apply bind_Ok_inv in Hp as (c & Hc & [= <-]). cbn [set_chain ek_storage ek_code ek_chain].
  destruct b as [|dev]; [apply (hl_Fund HL) in Hc as [[Hb _] Ha]|apply (hl_Send HL) in Hc as [[Hb _] Ha]];
    (split_and!; [done|done|exact Ha|]); intros a d; rewrite Hb, AmountOf_NewCoin by lia; cbn;
    repeat case_decide; subst; try done; lia.
Qed.

Lemma post_process_ok rs ctx tx msg txConfig res tmp res' rc' s' :
  k_hooks k = Some (revenue_hook x rs) →
  post_process k msg (new_receipt k ctx tx msg txConfig res) res (ctx_store ctx) tmp = Ok (res', rc', s') →
  Failed res' = false →
  ∃ receipt, rc_GasUsed receipt = res_GasUsed res ∧ Revenue.PostTxProcessing x rs msg receipt tmp = Ok s'.
Proof.
  intros Hh Hp Hf. unfold post_process in Hp. destruct (Failed res) eqn:Hres; [congruence|].
  unfold EvmApply.PostTxProcessing in Hp. rewrite Hh in Hp. unfold revenue_hook in Hp.
  set (r := set_status _) in *. exists r. split; [done|].
  destruct (Revenue.PostTxProcessing x rs msg r tmp) as [s1|e|]; by simplify_eq.
Qed.

(** C8.  The fee of a transaction is shared, end to end.  With the hook installed, a
    transaction that succeeds ends with two movements in the denomination of the
    chain: the gas that is left is paid back to the sender at the gas price, and the
    share of the fee of the gas used goes from the fee collector to the withdrawer or
    deployer of the contract that was called, or to the community pool for a
    precompile.  No other balance changes, and the share is at most the fee, so the
    collector keeps what it was paid before. *)
Theorem fee_shared_with_developer rs ctx tx msg txConfig res tmp res' ctx' :
  fee_laws k collector → hook_laws → shares_ok rs → k_hooks k = Some (revenue_hook x rs) →
  is_Some (auth_GetAccount (ek_chain tmp) (m_From msg)) →
  0 <= res_GasUsed res <= m_Gas msg → m_Gas msg < 2 ^ 64 → 0 <= m_GasPrice msg →
  settle k ctx tx msg txConfig res tmp = Ok (res', ctx') → Failed res' = false →
  let left := (m_Gas msg - res_GasUsed res) * m_GasPrice msg in
  let shared := payout rs msg (res_GasUsed res) in
  (∀ a d, bank_GetBalance (ek_chain (ctx_store ctx')) a d = bank_GetBalance (ek_chain tmp) a d +
     if decide (d = EvmDenom) then
       paid_out shared a + (if decide (a = m_From msg) then left else 0) - (if decide (a = collector) then left else 0)
     else 0) ∧
  ∀ to n, shared = Some (to, n) → 0 <= n <= res_GasUsed res * m_GasPrice msg.
Proof using CL DL.
  intros HF HL Hsh Hh Hacc Hg Hmax Hprice Hs Hf left shared. split.
  - unfold settle in Hs. apply bind_Ok_inv in Hs as ([[res1 rc] s1] & Hp%run_inv & Hs).
    apply bind_Ok_inv in Hs as (s2 & Hr & Hs). case_match.
    apply bind_Ok_inv in Hs as (tot & _ & Hs). apply bind_Ok_inv in Hs as (m & _ & Hs). simplify_eq. cbn [ctx_store].
    pose proof (post_process_gas _ _ _ _ _ _ _ _ _ Hp) as Hgas.
    destruct (post_process_ok _ _ _ _ _ _ _ _ _ _ Hh Hp Hf) as (receipt & Hrc & Hpost).
    assert (0 <= rc_GasUsed receipt) as Hused by (rewrite Hrc; lia).
    destruct (PostTxProcessing_spec _ _ _ _ _ HL Hsh Hused Hpost) as (_ & _ & Hkeep & Hbal). rewrite Hrc in Hbal.
    rewrite Hgas, u64_small in Hr by (unfold in_u64; lia).
    assert (0 <= left) as Hleft by (apply Z.mul_nonneg_nonneg; lia).
    destruct (RefundGas_spec _ _ _ _ _ _ HF Hleft (Hkeep _ Hacc) Hr)
      as (_ & _ & _ & Hbal'). intros a d. rewrite Hbal', Hbal. unfold left, shared. repeat case_decide; lia.
  - unfold shared, payout. intros to n. destruct (m_To msg) as [c|]; [|done]. destruct (enabled_params rs) as [p|] eqn:He; [|done].
    apply enabled_params_inv in He as [He _]. apply Hsh in He. destruct (_ || _); [done|].
    set (fee := res_GasUsed res * m_GasPrice msg).
    assert (0 <= fee) as Hfee by (apply Z.mul_nonneg_nonneg; lia).
    assert (0 <= raw (DeveloperShares p) * fee / dec_one <= fee) as Hn.
    { split; [apply Z.div_pos; [apply Z.mul_nonneg_nonneg; lia|done]|].
      apply Z.div_le_upper_bound; [done|]. apply Z.mul_le_mono_nonneg_r; lia. }
    destruct (share_holder rs c); intros; simplify_eq/=; done.
Qed.
End Hook.

(** ** A registered contract *)

Module RevenueToy.
Import MapCoins MapBank EvmToy ZDec GethToy ApplyToy.

(** Addresses are printed in hexadecimal; the fee collector is at address 3, the
    community pool at address 4. *)
Definition toy_revenue : revenue_env := {|
  rx_AccAddressFromBech32 s := Some (hex_read s mod 2 ^ 160);
  rx_Bech32 := hex_string 40;
  rx_Keccak256 := evm_keccak;
  rx_CreateAddress a n := a + n;
  rx_authority := "gov";
  rx_ActivePrecompiles := [hex_string 40 9];
  rx_SendFromFeeCollector c a cs := with_bank c (bank_send (tc_bank c) 3 a cs);
  rx_FundCommunityPool c cs := with_bank c (bank_send (tc_bank c) 3 4 cs);
  rx_MulInt d n := Ok (d * n)
|}.

Lemma toy_address_laws : address_laws toy_revenue.
Proof.
  split.
  - intros s. apply Z.mod_pos_bound. lia.
  - intros s a Hs. assert (in_address a) as Ha by (injection Hs as <-; apply Z.mod_pos_bound; lia).
    cbn [rx_AccAddressFromBech32 rx_Bech32 toy_revenue]. rewrite hex_read_string.
    change (16 ^ Z.of_nat 40) with (2 ^ 160). rewrite (Z.mod_small a) by exact Ha. by rewrite Z.mod_small by exact Ha.
  - done.
Qed.

Lemma toy_hook_laws : hook_laws toy_revenue 3 4.
Proof.
  split.
  - intros c a cs c' [Hs Ha]%toy_sent. split; [done|]. intros b Hb. by rewrite Ha.
  - intros c cs c' [Hs Ha]%toy_sent. split; [done|]. intros b Hb. by rewrite Ha.
  - by intros a n c [= <-].
Qed.

(** The contract at address 8 is registered by account 7, which takes the share, and
    the one at address 10, which account 7 creates at nonce 3, is not. *)
Definition toy_revenue_genesis : RevenueGenesis :=
  mkRevenueGenesis DefaultRevenueParams [mkRevenue (hex_string 40 8) (hex_string 40 7) EmptyString].

Definition no_store : revenue_store := mkRevenueStore ∅ ∅ ∅ None.

Definition toy_revenues : revenue_store :=
  match InitGenesis toy_revenue toy_revenue_genesis no_store with Ok rs => rs | _ => no_store end.

Definition deployed_store : evm_store :=
  mkEvmStore (mkToyChain 0 {[ 7 := (Some 99, 4); 10 := (Some 50, 1) ]}
    (mkBank {[ "aego"%string := 1000000 ]} {[ 3 := {[ "aego"%string := 1000000 ]} ]})) ∅ ∅.

Definition register_10 : MsgRegisterRevenue :=
  mkMsgRegisterRevenue (hex_string 40 10) (hex_string 40 7) [3] (hex_string 40 11).

Definition toy_meter : meter := mkInfiniteMeter 0 100.

Definition toy_registered : revenue_store :=
  match RegisterRevenue toy_revenue register_10 deployed_store toy_meter toy_revenues with
  | Ok (rs, _) => rs | _ => no_store end.

Lemma toy_genesis_wf : revenue_wf toy_revenue toy_revenues.
Proof.
  apply (InitGenesis_wf toy_revenue toy_address_laws toy_revenue_genesis no_store).
  - by split_and!.
  - vm_compute. reflexivity.
  - repeat constructor.
  - reflexivity.
Qed.

(** Once registered, the contract at address 10 is listed under account 7. *)
Lemma revenue_indices_consistent_witness :
  revenue_wf toy_revenue toy_registered ∧ IsDeployerMapSet 7 10 toy_registered = true.
Proof.
  split; [|vm_compute; reflexivity].
  assert (is_Ok (RegisterRevenue toy_revenue register_10 deployed_store toy_meter toy_revenues) = true)
    as Hok by (vm_compute; reflexivity).
  destruct (RegisterRevenue toy_revenue register_10 deployed_store toy_meter toy_revenues)
    as [[rs m]| |] eqn:Hr; [|discriminate Hok..].
  apply (revenue_indices_consistent toy_revenue toy_address_laws toy_revenue_genesis no_store toy_revenues).
  - by split_and!.
  - vm_compute. reflexivity.
  - repeat constructor.
  - reflexivity.
  - apply rtc_once. unfold toy_registered. rewrite Hr. exact (step_Register _ _ _ _ _ _ _ Hr).
Defined.

(** The registration of the contract at address 10 is one of account 7. *)
Lemma deployer_controls_revenue_witness :
  match RegisterRevenue toy_revenue register_10 deployed_store toy_meter toy_revenues with
  | Ok (rs, _) => ∃ fs, rs_revenues rs !! 10 = Some fs ∧ deployer_of toy_revenue fs = Some 7
  | _ => False
  end.
Proof.
  assert (match RegisterRevenue toy_revenue register_10 deployed_store toy_meter toy_revenues with
          | Ok (rs, _) => IsRevenueRegistered 10 rs | _ => false end = true) as Hok by (vm_compute; reflexivity).
  destruct (RegisterRevenue toy_revenue register_10 deployed_store toy_meter toy_revenues)
    as [[rs m]| |] eqn:Hr; [|discriminate Hok..].
  destruct (deployer_controls_revenue toy_revenue toy_address_laws toy_revenues 10 toy_genesis_wf) as (H1 & _);
    [split; [lia|reflexivity]|].
  destruct (H1 _ _ _ _ _ Hr) as (_ & d & fs & Hd & _ & Hfs & Hdep).
  - intros Heq. unfold IsRevenueRegistered in Hok. rewrite Heq in Hok. vm_compute in Hok. discriminate Hok.
  - exists fs. split; [exact Hfs|]. rewrite Hdep, <-Hd. vm_compute. reflexivity.
Defined.

Definition sharing_module : EvmModule :=
  mkEvmModule toy_vm [1; 2] (Some (revenue_hook toy_revenue toy_revenues)) toy_fees toy_cfg (LegacyNewDecWithPrec 50 2) 11.

Definition used_20000 : MsgEthereumTxResponse := mkResponse 20000 EmptyString [] [] 0.

(** The sender 6 of a call to address 8 has used 20000 of its 30000 gas at price 12:
    it gets 120000 back, and the deployer 7 gets half of 240000. *)
Definition call_8 : Message := mkMessage 6 (Some 8) 3 0 30000 12 12 [] [].

Definition sharing_store : evm_store :=
  mkEvmStore (mkToyChain 0 {[ 6 := (Some 99, 4); 7 := (Some 99, 4) ]}
    (mkBank {[ "aego"%string := 1000000 ]} {[ 3 := {[ "aego"%string := 1000000 ]} ]})) ∅ ∅.

Lemma fee_shared_with_developer_witness :
  match settle sharing_module (toy_ctx sharing_store) (call_tx []) call_8 toy_config used_20000 sharing_store with
  | Ok (_, ctx') => bank_GetBalance (ek_chain (ctx_store ctx')) 7 EvmDenom = 120000 ∧
      bank_GetBalance (ek_chain (ctx_store ctx')) 3 EvmDenom = 1000000 - 120000 - 120000
  | _ => False
  end.
Proof.
  assert (match settle sharing_module (toy_ctx sharing_store) (call_tx []) call_8 toy_config used_20000 sharing_store with
          | Ok (res, _) => negb (Failed res) | _ => false end = true) as Hok by (vm_compute; reflexivity).
  destruct (settle _ _ _ _ _ _ _) as [[res ctx']| |] eqn:Hs; [|discriminate Hok..].
  destruct (fee_shared_with_developer sharing_module toy_revenue 3 4 toy_revenues (toy_ctx sharing_store) (call_tx [])
    call_8 toy_config used_20000 sharing_store res ctx') as [Hbal _].
  - split; [intros c a cs c'; apply toy_sent|intros c a cs c' _; apply toy_sent].
  - exact toy_hook_laws.
  - intros p [= <-]. split; vm_compute; discriminate.
  - reflexivity.
  - eexists. vm_compute. reflexivity.
  - cbn. lia.
  - reflexivity.
  - cbn. lia.
  - exact Hs.
  - by apply negb_true_iff.
  - rewrite !Hbal. split; vm_compute; reflexivity.
Defined.
End RevenueToy.
