(* ===== verification/Precompile.v ===== *)
(** * Precompiled contracts: what they share: [precompiles/common], [precompiles/authorization]

    A precompiled contract decodes its call data with an ABI of go-ethereum, runs Go code
    on the stores of the transaction and packs a result.  This file has the choice of
    the method, the minimum gas, the events, and the checks on authorizations of the
    authz module, which is the class [AuthzKeeper].  Decoded arguments are [abi_value]s.
    The gas that the stores charge is left out: what the meter says at the end of a call
    is an argument of [charge].  Logs have no block number. *)

From S2P Require Import Prelude Sdk AccessList StateDB EvmKeeper EvmTx.

(** ** Values and errors *)

(** The spend limits for one channel: [cmn.ICS20Allocation], [transfertypes.Allocation]. *)
Record allocation := mkAllocation {
  al_SourcePort : string;
  al_SourceChannel : string;
  al_SpendLimit : list (string * Z);
  al_AllowList : list string
}.

(** An argument of a call; [VOther] is one of a type that no method asks for. *)
Inductive abi_value :=
| VAddress (a : Address)
| VBig (n : Z)
| VBigs (l : list Z)
| VString (s : string)
| VStrings (l : list string)
| VDescription (Moniker Identity Website SecurityContact Details : string)
| VCommission (Rate MaxRate MaxChangeRate : Z)
| VBool (b : bool)
| VUint8 (n : Z)
| VUint32 (n : Z)
| VUint64 (n : Z)
| VCoins (l : list (string * Z))
| VPeriods (l : list (Z * list (string * Z)))
| VAllocations (l : list allocation)
| VHeight (RevisionNumber RevisionHeight : Z)
| VPage (Key : list byte) (Offset Limit : Z) (CountTotal Reverse : bool)
| VBalances (l : list (Address * Z))
| VTuple (l : list abi_value)
| VOther.

Inductive pc_error :=
| PErrArgs
| PErrMethod
| PErrUnknownMethod
| PErrUnpack
| PErrPack
| PErrTopic
| PErrWriteProtection
| PErrOutOfGas
| PErrExecutionReverted
| PErrCommit
| PErrInvalidGrantee
| PErrNegativeCoin
| PErrEmptyMethods
| PErrEmptyStringInMethods
| PErrInvalidMsgType
| PErrAuthzDoesNotExist
| PErrNoAuthorizationFound
| PErrUnknownAuthorizationType
| PErrExceededAllowance
| PErrAmountOverflow
| PErrIntegerOverflow
| PErrSpenderIsOwner
| PErrNegativeAmount
| PErrIncreaseNonPositive
| PErrDecreaseNonPositive
| PErrNoAllowanceForToken
| PErrSubtractMoreThanAllowance
| PErrDecreasedAllowanceBelowZero
| PErrInsufficientAllowance
| PErrTransferExceedsBalance
| PErrDenomTrace
| PErrBaseDenom
| PErrDisplayDenom
| PErrDecimals
| PErrDifferentOrigin
| PErrDecreaseTooBig
| PErrInvalid
| PErrChannelNotFound
| PErrNoMatchingAllocation
| PErrNotAccepted
| PErrSdk (text : string).

Abbreviation pc_result A := (outcome pc_error A).

Definition of_total {A} (x : partial A) : pc_result A :=
  match x with Ok a => Ok a | Err e => match e with end | Panic => Panic end.

(** A call into the SDK: an error is its text. *)
Definition of_sdk {A} (x : outcome string A) : pc_result A :=
  match x with Ok a => Ok a | Err e => Err (PErrSdk e) | Panic => Panic end.

(** Errors of a precompile and of the module it calls. *)
Definition of_pc {E A} (x : pc_result A) : outcome (pc_error + E) A :=
  match x with Ok a => Ok a | Err e => Err (inl e) | Panic => Panic end.

Definition of_module {E A} (x : outcome E A) : outcome (pc_error + E) A :=
  match x with Ok a => Ok a | Err e => Err (inr e) | Panic => Panic end.

Lemma of_pc_Ok {E A} (x : pc_result A) a : of_pc (E:=E) x = Ok a → x = Ok a.
Proof. by destruct x as [y| |]; [intros [= ->]|..]. Qed.

Lemma of_module_Ok {E A} (x : outcome E A) a : of_module x = Ok a → x = Ok a.
Proof. by destruct x as [y| |]; [intros [= ->]|..]. Qed.

Lemma of_sdk_Ok {A} (x : outcome string A) a : of_sdk x = Ok a → x = Ok a.
Proof. destruct x; simpl; congruence. Qed.

Lemma of_total_int n m : of_total (NewIntFromBigInt n) = Ok m → m = n.
Proof. unfold NewIntFromBigInt. case_match; cbn; congruence. Qed.

(** ** Choosing the method: [common/precompile.go] *)

Inductive method_type := Function | Fallback | Receive.
Record method := mkMethod { me_Type : method_type; me_Name : string }.

(** The parts of an ABI of go-ethereum that are used. *)
Record abi_env := mkAbiEnv {
  ab_HasReceive : bool;
  ab_HasFallback : bool;
  ab_MethodById : list byte → option string;
  ab_Unpack : string → list byte → option (list abi_value);
  ab_Pack : list abi_value → option (list byte);
  ab_EventID : string → Hash;
  ab_keccak : list byte → Hash
}.

Record Contract := mkContract {
  ct_CallerAddress : Address;
  ct_Address : Address;
  ct_Value : Z;
  ct_Input : list byte;
  ct_Gas : Z
}.

Record GasConfig := mkGasConfig {
  gc_ReadCostFlat : Z;
  gc_ReadCostPerByte : Z;
  gc_WriteCostFlat : Z;
  gc_WriteCostPerByte : Z
}.

(** [input[4:]] panics on a short input. *)
Definition RequiredGas (gc : GasConfig) (input : list byte) (isTransaction : bool) : partial Z :=
  if (length input <? 4)%nat then Panic
  else
    let n := Z.of_nat (length input - 4) in
    Ok (if isTransaction then u64 (gc_WriteCostFlat gc + u64 (gc_WriteCostPerByte gc * n))
        else u64 (gc_ReadCostFlat gc + u64 (gc_ReadCostPerByte gc * n))).

Section Setup.
Variable ab : abi_env.

Definition emptyCallData (contract : Contract) : pc_result method :=
  if (0 <? ct_Value contract) && ab_HasReceive ab then Ok (mkMethod Receive EmptyString)
  else if ab_HasFallback ab then Ok (mkMethod Fallback EmptyString)
  else Err PErrExecutionReverted.

Definition methodIDCallData : pc_result method :=
  if ab_HasFallback ab then Ok (mkMethod Fallback EmptyString) else Err PErrExecutionReverted.

Definition standardCallData (contract : Contract) : pc_result method :=
  match ab_MethodById ab (take 4 (ct_Input contract)) with
  | Some name => Ok (mkMethod Function name)
  | None => if ab_HasFallback ab then Ok (mkMethod Fallback EmptyString) else Err PErrMethod
  end.

(** The method and its arguments.  The meter of the call has the contract's gas as its
    limit and starts with the gas the context has consumed. *)
Definition RunSetup (contract : Contract) (readOnly : bool) (isTransaction : string → bool) (initialGas : Z) :
    pc_result (method * list abi_value) :=
  let input := ct_Input contract in
  m ← (if (length input =? 0)%nat then emptyCallData contract
       else if (length input <? 4)%nat then methodIDCallData
       else standardCallData contract);
  if readOnly && isTransaction (me_Name m) then Err PErrWriteProtection
  else
    args ← match me_Type m with
           | Function => match ab_Unpack ab (me_Name m) (drop 4 input) with None => Err PErrUnpack | Some l => Ok l end
           | _ => Ok []
           end;
    if ct_Gas contract <? initialGas then Err PErrOutOfGas else Ok (m, args).

Lemma RunSetup_inv ct readOnly isTransaction initialGas m args :
  RunSetup ct readOnly isTransaction initialGas = Ok (m, args) →
  (readOnly = true → isTransaction (me_Name m) = false) ∧
  (args = [] ∨ ab_Unpack ab (me_Name m) (drop 4 (ct_Input ct)) = Some args).
Proof.
  unfold RunSetup. intros Hr. apply bind_Ok_inv in Hr as (m' & _ & Hr).
  destruct (readOnly && isTransaction (me_Name m')) eqn:Hro; [done|]. apply bind_Ok_inv in Hr as (l & Hl & Hr).
  destruct (_ <? _); [done|]. injection Hr as -> ->. split.
  - intros ->. by apply andb_false_iff in Hro as [|].
  - destruct (me_Type m); [|injection Hl as <-; by left..]. case_guards Hl. injection Hl as <-. by right.
Qed.

(** A named method is the one of the first four bytes, on the arguments after them. *)
Lemma RunSetup_function ct readOnly isTransaction initialGas m args :
  RunSetup ct readOnly isTransaction initialGas = Ok (m, args) → me_Name m ≠ EmptyString →
  (4 <= length (ct_Input ct))%nat ∧ ab_MethodById ab (take 4 (ct_Input ct)) = Some (me_Name m) ∧
  ab_Unpack ab (me_Name m) (drop 4 (ct_Input ct)) = Some args.
Proof.
  unfold RunSetup, emptyCallData, methodIDCallData, standardCallData. intros Hr Hne.
  apply bind_Ok_inv in Hr as (m' & Hm & Hr). destruct (readOnly && _); [done|].
  apply bind_Ok_inv in Hr as (l & Hl & Hr). destruct (ct_Gas _ <? _); [done|]. injection Hr as -> ->.
  case_guards Hm; simplify_eq/=; try done. case_guards Hl. simplify_eq.
  match goal with H4 : (length _ <? 4)%nat = false |- _ => apply Nat.ltb_ge in H4 end. done.
Qed.

(** ** Events: [common/abi.go] *)

(** The topic of an indexed argument; a number of more than 32 bytes panics. *)
Definition MakeTopic (v : abi_value) : pc_result Hash :=
  match v with
  | VAddress a => Ok a
  | VBig n => if 2 ^ 256 <=? Z.abs n then Panic else Ok (Z.abs n)
  | VBool b => Ok (if b then 1 else 0)
  | VString s => Ok (ab_keccak ab (Z.of_nat ∘ Ascii.nat_of_ascii <$> String.list_ascii_of_string s))
  | _ => Err PErrTopic
  end.

(** A log of the contract with the event's identifier, two indexed arguments and the
    packed others. *)
Definition emit_event (contract : Address) (event : string) (first second : abi_value) (data : list abi_value)
    (sdb : StateDB) : pc_result StateDB :=
  t1 ← MakeTopic first;
  t2 ← MakeTopic second;
  match ab_Pack ab data with
  | None => Err PErrPack
  | Some packed => Ok (AddLog (mkLog contract [ab_EventID ab event; t1; t2] packed 0 0 0 0) sdb)
  end.

Definition pack (l : list abi_value) : pc_result (list byte) :=
  match ab_Pack ab l with None => Err PErrPack | Some bz => Ok bz end.

End Setup.

Fixpoint has_prefix (s t : string) : bool :=
  match s, t with
  | EmptyString, _ => true
  | String c s, String d t => bool_decide (c = d) && has_prefix s t
  | String _ _, EmptyString => false
  end.
Fixpoint str_contains (s t : string) : bool :=
  has_prefix s t || match t with EmptyString => false | String _ t => str_contains s t end.

(** [PackNum] of [common/abi.go], for a [*big.Int]. *)
Definition PackNum (n : Z) : list byte := Hash_Bytes n.

(** [SafeAdd] of [common/types.go]: the sum, and whether it needs more than 256 bits. *)
Definition SafeAdd (a b : Z) : Z * bool := (a + b, negb (IsValidInt256 (Some (a + b)))).

(** ** Authorizations *)

Inductive AuthorizationType := AuthDelegate | AuthUndelegate | AuthRedelegate | AuthCancelUnbonding.

Inductive authorization `{Coins} :=
| SendAuthorization (SpendLimit : coins) (AllowList : list Address)
| StakeAuthorization (kind : AuthorizationType) (MaxTokens : option (string * Z)) (validators : list string)
| TransferAuthorization (Allocations : list allocation)
| GenericAuthorization (Msg : string)
| OtherAuthorization (url : string).

Definition SendMsgURL : string := "/cosmos.bank.v1beta1.MsgSend".
Definition DelegateMsg : string := "/cosmos.staking.v1beta1.MsgDelegate".
Definition UndelegateMsg : string := "/cosmos.staking.v1beta1.MsgUndelegate".
Definition RedelegateMsg : string := "/cosmos.staking.v1beta1.MsgBeginRedelegate".
Definition TransferMsgURL : string := "/ibc.applications.transfer.v1.MsgTransfer".
Definition CancelUnbondingDelegationMsg : string := "/cosmos.staking.v1beta1.MsgCancelUnbondingDelegation".

(** The message type an authorization is stored under. *)
Definition stake_URL (kind : AuthorizationType) : string :=
  match kind with
  | AuthDelegate => DelegateMsg
  | AuthUndelegate => UndelegateMsg
  | AuthRedelegate => RedelegateMsg
  | AuthCancelUnbonding => CancelUnbondingDelegationMsg
  end.
Definition authorization_URL `{Coins} (a : authorization) : string :=
  match a with
  | SendAuthorization _ _ => SendMsgURL
  | StakeAuthorization kind _ _ => stake_URL kind
  | TransferAuthorization _ => TransferMsgURL
  | GenericAuthorization url => url
  | OtherAuthorization url => url
  end.

(** The authz module: grants by grantee, granter and message type, with the time they
    expire; an expired grant is not returned. *)
Class AuthzKeeper `{Coins} := {
  grants : Type;
  az_GetAuthorization : grants → Address → Address → string → option (authorization * option Z);
  az_SaveGrant : grants → Address → Address → authorization → option Z → outcome string grants;
  az_DeleteGrant : grants → Address → Address → string → outcome string grants
}.

Class AuthzLaws `{AuthzKeeper} : Prop := {
  SaveGrant_get g grantee granter a e g' : az_SaveGrant g grantee granter a e = Ok g' → ∀ x y url,
    az_GetAuthorization g' x y url =
      if decide (x = grantee ∧ y = granter ∧ url = authorization_URL a) then Some (a, e)
      else az_GetAuthorization g x y url;
  DeleteGrant_get g grantee granter u g' : az_DeleteGrant g grantee granter u = Ok g' → ∀ x y url,
    az_GetAuthorization g' x y url =
      if decide (x = grantee ∧ y = granter ∧ url = u) then None else az_GetAuthorization g x y url
}.

(** ** Checking arguments and authorizations: [authorization/types.go] *)

Definition validateMsgTypes (arg : abi_value) : pc_result (list string) :=
  match arg with
  | VStrings [] => Err PErrEmptyMethods
  | VStrings l => if decide (EmptyString ∈ l) then Err PErrEmptyStringInMethods else Ok l
  | _ => Err PErrArgs
  end.

(** A grantee other than the zero address. *)
Definition check_address (arg : abi_value) : pc_result Address :=
  match arg with
  | VAddress a => if a =? 0 then Err PErrInvalidGrantee else Ok a
  | _ => Err PErrInvalidGrantee
  end.

Definition MaxUint256 : Z := 2 ^ 256 - 1.

(** No coin stands for no limit: for the largest amount, and for one that is no number. *)
Definition approval_coin (arg : abi_value) (denom : string) : pc_result (option (string * Z)) :=
  match arg with
  | VBig amount =>
      if amount <? 0 then Err PErrNegativeCoin
      else if amount =? MaxUint256 then Ok None
      else n ← of_total (NewIntFromBigInt amount); Ok (Some (denom, n))
  | _ => Ok None
  end.

Definition CheckApprovalArgs (args : list abi_value) (denom : string) :
    pc_result (Address * option (string * Z) * list string) :=
  match args with
  | [a; b; c] =>
      grantee ← check_address a;
      coin ← approval_coin b denom;
      typeURLs ← validateMsgTypes c;
      Ok (grantee, coin, typeURLs)
  | _ => Err PErrArgs
  end.

Definition CheckRevokeArgs (args : list abi_value) : pc_result (Address * list string) :=
  match args with
  | [a; b] =>
      grantee ← check_address a;
      typeURLs ← validateMsgTypes b;
      Ok (grantee, typeURLs)
  | _ => Err PErrArgs
  end.

Definition CheckAllowanceArgs (args : list abi_value) : pc_result (Address * Address * string) :=
  match args with
  | [a; b; c] =>
      grantee ← check_address a;
      granter ← check_address b;
      match c with
      | VString url => if decide (url = EmptyString) then Err PErrEmptyMethods else Ok (grantee, granter, url)
      | _ => Err PErrArgs
      end
  | _ => Err PErrArgs
  end.

(** The gas of a contract's method; [input[:4]] panics on a short input. *)
Definition contract_RequiredGas (ab : abi_env) (gc : GasConfig) (isTransaction : string → bool) (input : list byte) :
    partial Z :=
  if (length input <? 4)%nat then Panic
  else match ab_MethodById ab (take 4 input) with
       | None => Ok 0
       | Some name => RequiredGas gc input (isTransaction name)
       end.

(** ** The end of a call *)

(** The end of [Run]: the meter reads [initialGas] before the method and [finalGas] after
    it; the result has the gas that is left to the contract. *)
Definition charge {S} (contract : Contract) (initialGas finalGas : Z) (r : pc_result (list byte * S)) :
    pc_result (list byte * S * Z) :=
  x ← r;
  let cost := u64 (finalGas - initialGas) in
  if ct_Gas contract <? cost then Err PErrOutOfGas else Ok (x, ct_Gas contract - cost).

Lemma charge_inv {S} ct g0 g1 (r : pc_result (list byte * S)) x left :
  charge ct g0 g1 r = Ok (x, left) → r = Ok x ∧ left = ct_Gas ct - u64 (g1 - g0) ∧ 0 <= left.
Proof.
  intros Hc. apply bind_Ok_inv in Hc as (y & -> & Hc). cbv zeta in Hc. destruct (_ <? _) eqn:Hg; [done|].
  injection Hc as -> <-. split_and!; [done..|lia].
Qed.

(** ** The state of a call *)

Section State.
Context `{EE : EvmEnv} `{AK : !AuthzKeeper}.

(** The state database of the call and the stores behind it. *)
Record pc_state := mkPcState {
  pc_stateDB : StateDB;
  pc_store : evm_store;
  pc_grants : grants
}.

Definition with_stateDB (sdb : StateDB) (st : pc_state) : pc_state := mkPcState sdb (pc_store st) (pc_grants st).
Definition with_grants (g : grants) (st : pc_state) : pc_state := mkPcState (pc_stateDB st) (pc_store st) g.
Definition with_chain (c : chain) (st : pc_state) : pc_state :=
  mkPcState (pc_stateDB st) (set_chain c (pc_store st)) (pc_grants st).

End State.

Section Authz.
Context `{AK : AuthzKeeper}.

Definition CheckAuthzExists (g : grants) (grantee granter : Address) (msgURL : string) :
    pc_result (authorization * option Z) :=
  match az_GetAuthorization g grantee granter msgURL with
  | None => Err PErrAuthzDoesNotExist
  | Some x => Ok x
  end.

(** The stake authorization of the grantee for an amount within its limit. *)
Definition CheckAuthzAndAllowanceForGranter (g : grants) (grantee granter : Address) (amount : Z) (msgURL : string) :
    pc_result (AuthorizationType * option (string * Z) * list string * option Z) :=
  match az_GetAuthorization g grantee granter msgURL with
  | None => Err PErrAuthzDoesNotExist
  | Some (StakeAuthorization kind max validators, expiration) =>
      match max with
      | Some (_, limit) => if limit <? amount then Err PErrExceededAllowance else Ok (kind, max, validators, expiration)
      | None => Ok (kind, max, validators, expiration)
      end
  | Some _ => Err PErrUnknownAuthorizationType
  end.

End Authz.
