(* ===== verification/PrecompileSpec.v ===== *)
(** * What the proofs about precompiled contracts share

    Grants of the authz module that a call leaves alone, and what the final commit of
    the state database does to the balance of an account. *)

From S2P Require Import Prelude Sdk AccessList StateDB Journal StateDBSpec Commit EvmKeeper EvmKeeperSpec EvmTx Precompile.

Section Grants.
Context `{AK : AuthzKeeper} `{AL : !AuthzLaws}.

(** ** Grants of others *)

(** The grants of everybody but [origin] are what they were. *)
Definition others_kept (origin : Address) (g g' : grants) : Prop :=
  ∀ grantee granter url, granter ≠ origin → az_GetAuthorization g' grantee granter url = az_GetAuthorization g grantee granter url.

#[global] Instance others_kept_preorder origin : PreOrder (others_kept origin).
Proof. split; [by intros g s o url|]. intros g1 g2 g3 H1 H2 s o url Ho. by rewrite H2, H1. Qed.

Lemma save_kept g grantee origin a e g' :
  of_sdk (az_SaveGrant g grantee origin a e) = Ok g' → others_kept origin g g'.
Proof. intros Hs%of_sdk_Ok s o url Ho. rewrite (SaveGrant_get _ _ _ _ _ _ Hs). case_decide; [naive_solver|done]. Qed.

Lemma delete_kept g grantee origin u g' :
  of_sdk (az_DeleteGrant g grantee origin u) = Ok g' → others_kept origin g g'.
Proof. intros Hs%of_sdk_Ok s o url Ho. rewrite (DeleteGrant_get _ _ _ _ _ Hs). case_decide; [naive_solver|done]. Qed.

(** An authorization is stored under its own message type. *)
Definition stored_by_type (g : grants) : Prop := ∀ grantee granter url a e,
  az_GetAuthorization g grantee granter url = Some (a, e) → authorization_URL a = url.

End Grants.

(** ** Balances after the commit *)

Section Balances.
Context `{EE : EvmEnv} `{CL : !CoinsLaws} `{EL : !EvmEnvLaws}.
Variable keccak : list byte → Hash.

(** What a commit leaves an account whose object was written. *)
Lemma committed_balance ctx s c c' a o :
  sdb_wf ctx s → sdb_stateObjects s !! a = Some o → so_suicided o = false →
  a ∈ sortedDirties (sdb_journal s) → Commit c s = Ok c' → bank_GetBalance (ek_chain c') a EvmDenom = Balance o.
Proof.
  intros Hwf Ho Hs Ha Hc.
  destruct (commit_objects_spec keccak ctx s _ c c' Hwf (NoDup_sorted_keys _) Hc) as (Hcom & _).
  specialize (Hcom a o Ha Ho). unfold commits in Hcom. rewrite Hs, (sdb_wf_address _ _ Hwf a o Ho) in Hcom.
  destruct Hcom as [Hacc _]. cbn in Hacc. rewrite GetAccount_alt in Hacc.
  by apply fmap_Some in Hacc as (x & _ & [= _ Hb _]).
Qed.

Lemma SubBalance_object c a n s o :
  sdb_stateObjects s !! a = Some o → so_address o = a →
  ∃ o', sdb_stateObjects (SubBalance keccak c a n s) !! a = Some o' ∧
    Balance o' = Balance o - n ∧ so_suicided o' = so_suicided o ∧
    ∀ ctx, sdb_wf ctx s → sdb_wf ctx (SubBalance keccak c a n s).
Proof.
  intros Ho Ha. unfold SubBalance, getOrNewStateObject, getStateObject. rewrite Ho. unfold obj_SubBalance.
  destruct (n =? 0) eqn:Hn.
  - exists o. split_and!; [done|lia|done|done].
  - exists (setBalance (Balance o - n) o). split_and!; [|done|done|].
    + cbn. rewrite Ha. apply lookup_insert_eq.
    + intros ctx Hwf. apply setStateObject_wf; [by apply (sdb_wf_same ctx s)|].
      apply setBalance_wf. by eapply sdb_wf_object.
Qed.

Lemma AddBalance_Sub c a n s : AddBalance keccak c a n s = SubBalance keccak c a (- n) s.
Proof.
  unfold AddBalance, SubBalance. destruct (getOrNewStateObject _ _ _ _) as [obj s']. unfold obj_AddBalance, obj_SubBalance.
  destruct (Z.eqb_spec n 0), (Z.eqb_spec (- n) 0); try lia; [done|]. by rewrite Z.sub_opp_r.
Qed.

End Balances.

(** ** Grants in a map *)

Module GrantMap.
Import MapCoins.

Abbreviation grant_map := (gmap (Address * Address * string) (authorization * option Z)).

#[export] Instance toy_authz : AuthzKeeper := {
  grants := grant_map;
  az_GetAuthorization g s o url := g !! (s, o, url);
  az_SaveGrant g s o a e := Ok (<[(s, o, authorization_URL a) := (a, e)]> g);
  az_DeleteGrant g s o url :=
    match g !! (s, o, url) with None => Err "authorization not found"%string | Some _ => Ok (delete (s, o, url) g) end
}.

#[export] Instance toy_authz_laws : AuthzLaws.
Proof.
  split.
  - intros g s o a e g' [= <-] x y url. cbn. rewrite lookup_insert.
    repeat case_decide; try done; exfalso; naive_solver.
  - intros g s o u g' Hd x y url. cbn in *. destruct (g !! (s, o, u)) eqn:Hg; [|done]. injection Hd as <-.
    rewrite lookup_delete. repeat case_decide; try done; exfalso; naive_solver.
Qed.

End GrantMap.
