(* ===== verification/Erc20Precompile.v ===== *)
(** * The ERC-20 precompile: [precompiles/erc20], [precompiles/werc20]

    The coin of a token pair as an ERC-20 contract: balances are those of the bank,
    allowances are send authorizations of the authz module.  The wrapped token adds
    deposits and withdrawals that do nothing.  The state is the state database of the
    call with the stores of the transaction; the message servers of the SDK and the
    ABI are fields of [token_env].  Gas is that of the table. *)

From S2P Require Import Prelude Sdk AccessList StateDB EvmKeeper EvmTx GasMeter EvmApply EvmQuery Erc20 Precompile.

Section Erc20Precompile.
Context `{EE : EvmEnv} `{GE : !Geth} `{AK : !AuthzKeeper}.

Record token_env := mkTokenEnv {
  tk_abi : abi_env;
  tk_keccak : list byte → Hash;
  tk_pair : TokenPair;
  tk_ApprovalExpiration : Z;
  tk_BlockTime : Z;
  (** the slice of a set of coins, and back *)
  tk_slice : coins → list (string * Z);
  tk_of_slice : list (string * Z) → coins;
  tk_ValidateBasic : authorization → outcome string ();
  (** [MsgSend]: its validation, the message server, and its execution for a grantee *)
  tk_SendValidateBasic : Address → Address → string → Z → outcome string ();
  tk_Send : chain → Address → Address → string → Z → outcome string chain;
  tk_DispatchActions : chain → grants → Address → Address → Address → string → Z → outcome string (chain * grants);
  tk_GetDenomMetaData : chain → string → option Metadata;
  tk_ParseHexHash : string → option Hash;
  tk_GetDenomTrace : Hash → option string
}.

Variable p : token_env.

Definition denom : string := tp_Denom (tk_pair p).
Definition token_Address : Address := GetERC20Contract (tk_pair p).

(** ** Arguments: [types.go] *)

Definition ParseTransferArgs (args : list abi_value) : pc_result (Address * Z) :=
  match args with [VAddress to; VBig amount] => Ok (to, amount) | _ => Err PErrArgs end.
Definition ParseTransferFromArgs (args : list abi_value) : pc_result (Address * Address * Z) :=
  match args with [VAddress from; VAddress to; VBig amount] => Ok (from, to, amount) | _ => Err PErrArgs end.
Definition ParseApproveArgs (args : list abi_value) : pc_result (Address * Z) :=
  match args with [VAddress spender; VBig amount] => Ok (spender, amount) | _ => Err PErrArgs end.
Definition ParseAllowanceArgs (args : list abi_value) : pc_result (Address * Address) :=
  match args with [VAddress owner; VAddress spender] => Ok (owner, spender) | _ => Err PErrArgs end.
Definition ParseBalanceOfArgs (args : list abi_value) : pc_result Address :=
  match args with [VAddress account] => Ok account | _ => Err PErrArgs end.

Fixpoint replace_coin (l : list (string * Z)) (d : string) (n : Z) : option (list (string * Z)) :=
  match l with
  | [] => None
  | (d', m) :: l => if decide (d' = d) then Some ((d, n) :: l) else cons (d', m) <$> replace_coin l d n
  end.
Definition updateOrAddCoin (cs : coins) (d : string) (n : Z) : coins :=
  match replace_coin (tk_slice p cs) d n with
  | Some l => tk_of_slice p l
  | None => coins_Add cs (NewCoin d n)
  end.

(** ** Errors: [errors.go] *)

(** The errors of this repository are told apart by constructor, those of the SDK by
    their text. *)
Definition ConvertErrToERC20Error (e : pc_error) : pc_error :=
  match e with
  | PErrSdk text =>
      if str_contains "spendable balance" text then PErrTransferExceedsBalance
      else if str_contains "requested amount is more than spend limit" text then PErrInsufficientAllowance
      else if str_contains "authorization not found" text then PErrInsufficientAllowance
      else e
  | PErrNoAuthorizationFound => PErrInsufficientAllowance
  | PErrSubtractMoreThanAllowance => PErrDecreasedAllowanceBelowZero
  | PErrIntegerOverflow | PErrDenomTrace | PErrBaseDenom | PErrDisplayDenom | PErrDecimals => PErrExecutionReverted
  | _ => e
  end.

Definition convert {A} (x : pc_result A) : pc_result A :=
  match x with Err e => Err (ConvertErrToERC20Error e) | _ => x end.

(** ** Events: [events.go] *)

Definition EmitTransferEvent (from to : Address) (value : Z) (st : pc_state) : pc_result pc_state :=
  sdb ← emit_event (tk_abi p) token_Address "Transfer" (VAddress from) (VAddress to) [VBig value] (pc_stateDB st);
  Ok (with_stateDB sdb st).

Definition EmitApprovalEvent (owner spender : Address) (value : Z) (st : pc_state) : pc_result pc_state :=
  sdb ← emit_event (tk_abi p) token_Address "Approval" (VAddress owner) (VAddress spender) [VBig value] (pc_stateDB st);
  Ok (with_stateDB sdb st).

(** ** Allowances: [approve.go], [query.go] *)

Definition GetAuthzExpirationAndAllowance (g : grants) (grantee granter : Address) (d : string) :
    pc_result (authorization * option Z * Z) :=
  '(a, e) ← CheckAuthzExists g grantee granter SendMsgURL;
  match a with
  | SendAuthorization limit _ => Ok (a, e, AmountOf limit d)
  | _ => Err PErrUnknownAuthorizationType
  end.

Definition createAuthorization (grantee granter : Address) (amount : Z) (g : grants) : pc_result grants :=
  if negb (IsValidInt256 (Some amount)) then Err PErrAmountOverflow
  else
    let a := SendAuthorization (NewCoin denom amount) [] in
    _ ← of_sdk (tk_ValidateBasic p a);
    of_sdk (az_SaveGrant g grantee granter a (Some (tk_BlockTime p + tk_ApprovalExpiration p))).

Definition updateAuthorization (grantee granter : Address) (amount : Z) (limit : coins) (allow : list Address)
    (expiration : option Z) (g : grants) : pc_result grants :=
  n ← of_total (NewIntFromBigInt amount);
  let a := SendAuthorization (updateOrAddCoin limit denom n) allow in
  _ ← of_sdk (tk_ValidateBasic p a);
  of_sdk (az_SaveGrant g grantee granter a expiration).

(** The limit without the coin of the pair; a coin is found when its amount is not
    zero. *)
Definition removeSpendLimitOrDeleteAuthorization (grantee granter : Address) (a : authorization) (expiration : option Z)
    (g : grants) : pc_result grants :=
  match a with
  | SendAuthorization limit allow =>
      let allowance := AmountOf limit denom in
      if allowance =? 0 then Err PErrNoAllowanceForToken
      else
        match coins_Sub limit (NewCoin denom allowance) with
        | Ok newSpendLimit =>
            if coins_IsZero newSpendLimit then of_sdk (az_DeleteGrant g grantee granter SendMsgURL)
            else of_sdk (az_SaveGrant g grantee granter (SendAuthorization newSpendLimit allow) expiration)
        | _ => Err PErrDecreasedAllowanceBelowZero
        end
  | _ => Err PErrUnknownAuthorizationType
  end.

Definition increaseAllowance (grantee granter : Address) (addedValue : Z) (a : authorization) (expiration : option Z)
    (g : grants) : pc_result (Z * grants) :=
  match a with
  | SendAuthorization limit allow =>
      added ← of_total (NewIntFromBigInt addedValue);
      let '(amount, overflow) := SafeAdd (AmountOf limit denom) added in
      if overflow then Err (ConvertErrToERC20Error PErrIntegerOverflow)
      else
        g ← updateAuthorization grantee granter amount limit allow expiration g;
        Ok (amount, g)
  | _ => Err PErrUnknownAuthorizationType
  end.

Definition decreaseAllowance (grantee granter : Address) (subtractedValue : Z) (a : authorization)
    (expiration : option Z) (g : grants) : pc_result (Z * grants) :=
  match a with
  | SendAuthorization limit allow =>
      let allowance := AmountOf limit denom in
      if allowance =? 0 then Err PErrNoAllowanceForToken
      else
        let amount := allowance - subtractedValue in
        if amount <? 0 then Err (ConvertErrToERC20Error PErrSubtractMoreThanAllowance)
        else
          g ← updateAuthorization grantee granter amount limit allow expiration g;
          Ok (amount, g)
  | _ => Err PErrUnknownAuthorizationType
  end.

(** An authorization that does not exist is not an error here. *)
Definition current_authz (g : grants) (grantee granter : Address) : option (authorization * option Z) :=
  match CheckAuthzExists g grantee granter SendMsgURL with Ok x => Some x | _ => None end.

Definition finish (st : pc_state) : pc_result (list byte * pc_state) :=
  bz ← pack (tk_abi p) [VBool true]; Ok (bz, st).

(** The approval event names the token as the owner. *)
Definition approved (spender : Address) (amount : Z) (g : grants) (st : pc_state) :
    pc_result (list byte * pc_state) :=
  st ← EmitApprovalEvent token_Address spender amount (with_grants g st);
  finish st.

Definition Approve (contract : Contract) (args : list abi_value) (st : pc_state) : pc_result (list byte * pc_state) :=
  '(grantee, amount) ← ParseApproveArgs args;
  let granter := ct_CallerAddress contract in
  if decide (grantee = granter) then Err PErrSpenderIsOwner
  else
    let g := pc_grants st in
    g ← match current_authz g grantee granter with
        | None =>
            if amount <? 0 then Err PErrNegativeAmount
            else if 0 <? amount then createAuthorization grantee granter amount g
            else Ok g
        | Some (a, expiration) =>
            if amount <=? 0 then removeSpendLimitOrDeleteAuthorization grantee granter a expiration g
            else match a with
                 | SendAuthorization limit allow => updateAuthorization grantee granter amount limit allow expiration g
                 | _ => Err PErrUnknownAuthorizationType
                 end
        end;
    approved grantee amount g st.

Definition IncreaseAllowance (contract : Contract) (args : list abi_value) (st : pc_state) :
    pc_result (list byte * pc_state) :=
  '(grantee, addedValue) ← ParseApproveArgs args;
  let granter := ct_CallerAddress contract in
  if decide (grantee = granter) then Err PErrSpenderIsOwner
  else
    let g := pc_grants st in
    '(amount, g) ←
      (if addedValue <=? 0 then Err PErrIncreaseNonPositive
       else match current_authz g grantee granter with
            | None => g ← createAuthorization grantee granter addedValue g; Ok (addedValue, g)
            | Some (a, expiration) => increaseAllowance grantee granter addedValue a expiration g
            end);
    approved grantee amount g st.

Definition DecreaseAllowance (contract : Contract) (args : list abi_value) (st : pc_state) :
    pc_result (list byte * pc_state) :=
  '(grantee, subtractedValue) ← ParseApproveArgs args;
  let granter := ct_CallerAddress contract in
  if decide (grantee = granter) then Err PErrSpenderIsOwner
  else
    let g := pc_grants st in
    '(amount, g) ←
      (if subtractedValue <=? 0 then Err PErrDecreaseNonPositive
       else match GetAuthzExpirationAndAllowance g grantee granter denom with
            | Ok (a, expiration, allowance) =>
                if subtractedValue <? allowance then decreaseAllowance grantee granter subtractedValue a expiration g
                else if subtractedValue =? allowance then
                  g ← removeSpendLimitOrDeleteAuthorization grantee granter a expiration g; Ok (0, g)
                else if allowance =? 0 then Err PErrNoAllowanceForToken
                else Err (ConvertErrToERC20Error PErrSubtractMoreThanAllowance)
            | Err _ => Err PErrNoAllowanceForToken
            | Panic => Panic
            end);
    approved grantee amount g st.

(** ** Transfers: [tx.go] *)

Definition transfer (isTransferFrom : bool) (spender from to : Address) (amount : Z) (st : pc_state) :
    pc_result (list byte * pc_state) :=
  n ← of_total (NewIntFromBigInt amount);
  _ ← of_sdk (tk_SendValidateBasic p from to denom n);
  '(prevAllowance, st) ←
    (if decide (spender = from) then
       c ← convert (of_sdk (tk_Send p (ek_chain (pc_store st)) from to denom n));
       Ok (0, with_chain c st)
     else
       match GetAuthzExpirationAndAllowance (pc_grants st) spender from denom with
       | Ok (_, _, prevAllowance) =>
           '(c, g) ← convert (of_sdk (tk_DispatchActions p (ek_chain (pc_store st)) (pc_grants st) spender from to denom n));
           Ok (prevAllowance, with_grants g (with_chain c st))
       | Err _ => Err (ConvertErrToERC20Error PErrNoAuthorizationFound)
       | Panic => Panic
       end);
  st ← EmitTransferEvent from to amount st;
  if isTransferFrom then
    let newAllowance := if decide (spender = from) then MaxUint256 else prevAllowance - amount in
    st ← EmitApprovalEvent from spender newAllowance st;
    finish st
  else finish st.

Definition token_Transfer (contract : Contract) (args : list abi_value) (st : pc_state) :
    pc_result (list byte * pc_state) :=
  '(to, amount) ← ParseTransferArgs args;
  transfer false (ct_CallerAddress contract) (ct_CallerAddress contract) to amount st.

Definition TransferFrom (contract : Contract) (args : list abi_value) (st : pc_state) :
    pc_result (list byte * pc_state) :=
  '(from, to, amount) ← ParseTransferFromArgs args;
  transfer true (ct_CallerAddress contract) from to amount st.

(** ** Queries: [query.go], [ibc/utils.go] *)

Definition GetDenomTrace (d : string) : pc_result string :=
  match cut_prefix "ibc/" d with
  | None => Err PErrDenomTrace
  | Some rest =>
      match tk_ParseHexHash p rest with
      | None => Err PErrInvalid
      | Some hash => match tk_GetDenomTrace p hash with None => Err PErrDenomTrace | Some base => Ok base end
      end
  end.

Definition DeriveDecimalsFromDenom (baseDenom : string) : pc_result Z :=
  match baseDenom with
  | String c _ =>
      if bool_decide (c = Ascii.ascii_of_nat 117) then Ok 6
      else if bool_decide (c = Ascii.ascii_of_nat 97) then Ok 18
      else Err PErrBaseDenom
  | EmptyString => Err PErrBaseDenom
  end.

Definition getBaseDenomFromIBCVoucher (d : string) : pc_result string :=
  base ← GetDenomTrace d;
  if (String.length base <? 3)%nat then Err PErrBaseDenom else Ok base.

(** Denominations are in ASCII. *)
Definition upper (c : Ascii.ascii) : Ascii.ascii :=
  let n := Ascii.nat_of_ascii c in
  if ((97 <=? n) && (n <=? 122))%nat then Ascii.ascii_of_nat (n - 32) else c.
Fixpoint ToUpper (s : string) : string :=
  match s with EmptyString => EmptyString | String c s => String (upper c) (ToUpper s) end.

Definition token_Name (c : chain) : pc_result string :=
  match tk_GetDenomMetaData p c denom with
  | Some metadata => Ok (md_Name metadata)
  | None =>
      base ← convert (getBaseDenomFromIBCVoucher denom);
      Ok (match base with
          | String _ (String c rest) => String (upper c) rest
          | _ => EmptyString
          end)
  end.

Definition Symbol (c : chain) : pc_result string :=
  match tk_GetDenomMetaData p c denom with
  | Some metadata => Ok (md_Symbol metadata)
  | None =>
      base ← convert (getBaseDenomFromIBCVoucher denom);
      Ok (match base with String _ rest => ToUpper rest | EmptyString => EmptyString end)
  end.

Definition display_unit (metadata : Metadata) : option DenomUnit :=
  head (filter (λ u, du_Denom u = md_Display metadata) (reverse (md_DenomUnits metadata))).

Definition Decimals (c : chain) : pc_result Z :=
  match tk_GetDenomMetaData p c denom with
  | None =>
      base ← convert (GetDenomTrace denom);
      convert (DeriveDecimalsFromDenom base)
  | Some metadata =>
      match display_unit metadata with
      | None => Err (ConvertErrToERC20Error PErrDisplayDenom)
      | Some u => if 255 <? du_Exponent u then Err (ConvertErrToERC20Error PErrDecimals) else Ok (du_Exponent u)
      end
  end.

Definition TotalSupply (c : chain) : Z := bank_GetSupply c denom.

Definition token_BalanceOf (args : list abi_value) (c : chain) : pc_result Z :=
  account ← ParseBalanceOfArgs args; Ok (bank_GetBalance c account denom).

Definition Allowance (args : list abi_value) (g : grants) : pc_result Z :=
  '(owner, spender) ← ParseAllowanceArgs args;
  if decide (owner = spender) then Ok MaxUint256
  else match GetAuthzExpirationAndAllowance g spender owner denom with
       | Ok (_, _, allowance) => Ok allowance
       | Err _ => Ok 0
       | Panic => Panic
       end.

(** ** The contract: [erc20.go] *)

Definition token_gas (name : string) : Z :=
  if decide (name = "transfer"%string) then 3000000
  else if decide (name = "transferFrom"%string) then 3000000
  else if decide (name = "approve"%string) then 30956
  else if decide (name = "increaseAllowance"%string) then 34605
  else if decide (name = "decreaseAllowance"%string) then 34519
  else if decide (name = "name"%string) then 3421
  else if decide (name = "symbol"%string) then 3464
  else if decide (name = "decimals"%string) then 427
  else if decide (name = "totalSupply"%string) then 2477
  else if decide (name = "balanceOf"%string) then 2851
  else if decide (name = "allowance"%string) then 3246
  else 0.

Definition token_RequiredGas (input : list byte) : Z :=
  if (length input <? 4)%nat then 0
  else match ab_MethodById (tk_abi p) (take 4 input) with None => 0 | Some name => token_gas name end.

Definition token_IsTransaction (name : string) : bool :=
  bool_decide (name ∈ ["transfer"; "transferFrom"; "approve"; "increaseAllowance"; "decreaseAllowance"]%string).

Definition answer (v : pc_result abi_value) (st : pc_state) : pc_result (list byte * pc_state) :=
  v ← v; bz ← pack (tk_abi p) [v]; Ok (bz, st).

Definition HandleMethod (name : string) (contract : Contract) (args : list abi_value) (st : pc_state) :
    pc_result (list byte * pc_state) :=
  let c := ek_chain (pc_store st) in
  if decide (name = "transfer"%string) then token_Transfer contract args st
  else if decide (name = "transferFrom"%string) then TransferFrom contract args st
  else if decide (name = "approve"%string) then Approve contract args st
  else if decide (name = "increaseAllowance"%string) then IncreaseAllowance contract args st
  else if decide (name = "decreaseAllowance"%string) then DecreaseAllowance contract args st
  else if decide (name = "name"%string) then answer (VString <$> token_Name c) st
  else if decide (name = "symbol"%string) then answer (VString <$> Symbol c) st
  else if decide (name = "decimals"%string) then answer (VBig <$> Decimals c) st
  else if decide (name = "totalSupply"%string) then answer (Ok (VBig (TotalSupply c))) st
  else if decide (name = "balanceOf"%string) then answer (VBig <$> token_BalanceOf args c) st
  else if decide (name = "allowance"%string) then answer (VBig <$> Allowance args (pc_grants st)) st
  else Err PErrUnknownMethod.

Definition token_Run (contract : Contract) (readOnly : bool) (initialGas finalGas : Z) (st : pc_state) :
    pc_result (list byte * pc_state * Z) :=
  '(m, args) ← RunSetup (tk_abi p) contract readOnly token_IsTransaction initialGas;
  charge contract initialGas finalGas (HandleMethod (me_Name m) contract args st).

(** ** The wrapped token: [werc20] *)

Definition createWERC20Event (event : string) (address : Address) (amount : Z) (st : pc_state) : pc_result pc_state :=
  t1 ← MakeTopic (tk_abi p) (VAddress address);
  packed ← pack (tk_abi p) [VBig amount];
  Ok (with_stateDB (AddLog (mkLog token_Address [ab_EventID (tk_abi p) event; t1] packed 0 0 0 0) (pc_stateDB st)) st).

Definition Deposit (contract : Contract) (st : pc_state) : pc_result (list byte * pc_state) :=
  let dst := ct_CallerAddress contract in
  let amount := ct_Value contract in
  st ← createWERC20Event "Deposit" dst amount st;
  let sdb := StateDB.AddBalance (tk_keccak p) (pc_store st) dst amount (pc_stateDB st) in
  let sdb := StateDB.SubBalance (tk_keccak p) (pc_store st) (ct_Address contract) amount sdb in
  Ok ([], with_stateDB sdb st).

(** [args[0]] panics without arguments. *)
Definition Withdraw (contract : Contract) (args : list abi_value) (st : pc_state) : pc_result (list byte * pc_state) :=
  match args with
  | [] => Panic
  | VBig amount :: _ =>
      st ← createWERC20Event "Withdrawal" (ct_CallerAddress contract) amount st; Ok ([], st)
  | _ => Err PErrArgs
  end.

Definition werc20_RequiredGas (input : list byte) : Z :=
  if (length input <? 4)%nat then 23878
  else match ab_MethodById (tk_abi p) (take 4 input) with
       | None => 0
       | Some name =>
           if decide (name = "deposit"%string) then 23878
           else if decide (name = "withdraw"%string) then 9207
           else token_RequiredGas input
       end.

Definition werc20_IsTransaction (name : string) : bool :=
  bool_decide (name ∈ ["deposit"; "withdraw"]%string) || token_IsTransaction name.

Definition werc20_Run (contract : Contract) (readOnly : bool) (initialGas finalGas : Z) (st : pc_state) :
    pc_result (list byte * pc_state * Z) :=
  '(m, args) ← RunSetup (tk_abi p) contract readOnly werc20_IsTransaction initialGas;
  charge contract initialGas finalGas
    (match me_Type m with
     | Fallback | Receive => Deposit contract st
     | Function =>
         if decide (me_Name m = "deposit"%string) then Deposit contract st
         else if decide (me_Name m = "withdraw"%string) then Withdraw contract args st
         else HandleMethod (me_Name m) contract args st
     end).

End Erc20Precompile.
