(* ===== verification/Erc20PrecompileSpec.v ===== *)
(** * What the ERC-20 precompile promises: [precompiles/erc20]

    An abstract token has balances, allowances and a supply.  A call of the precompile
    that succeeds does to the balances of the bank and the send authorizations what the
    abstract token does, queries answer from it, and the spend limits that are stored
    stay valid ([token_refines]).  A positive approval within 256 bits goes through
    ([approve_succeeds]). *)

From S2P Require Import Prelude Sdk AccessList StateDB StateDBSpec Commit EvmKeeper EvmKeeperSpec EvmTx EvmTxSpec GasMeter EvmApply EvmQuery Erc20 Precompile PrecompileSpec Erc20Precompile.

(** ** The abstract token *)

Record token := mkToken {
  tok_balance : Address → Z;
  tok_allowance : Address → Address → Z;
  tok_supply : Z
}.

#[export] Instance token_equiv : Equiv token := λ s t,
  (∀ a, tok_balance s a = tok_balance t a) ∧
  (∀ owner spender, tok_allowance s owner spender = tok_allowance t owner spender) ∧
  tok_supply s = tok_supply t.

#[export] Instance token_equivalence : Equivalence (≡@{token}).
Proof.
  split.
  - by repeat split.
  - intros s t (Hb & Ha & Hs). repeat split; intros; by symmetry.
  - intros s t u (Hb & Ha & Hs) (Hb' & Ha' & Hs').
    repeat split; intros; (etransitivity; [|by eauto]); eauto.
Qed.

Inductive token_call :=
| TApprove (spender : Address) (n : Z)
| TIncrease (spender : Address) (n : Z)
| TDecrease (spender : Address) (n : Z)
| TTransfer (to : Address) (n : Z)
| TTransferFrom (from to : Address) (n : Z).

Definition allow (owner spender : Address) (n : Z) (t : token) : token :=
  mkToken (tok_balance t)
    (λ o s, if decide (o = owner ∧ s = spender) then n else tok_allowance t o s) (tok_supply t).

Definition move (from to : Address) (n : Z) (t : token) : token :=
  mkToken (λ a, tok_balance t a - (if decide (a = from) then n else 0) + (if decide (a = to) then n else 0))
    (tok_allowance t) (tok_supply t).

(** Nobody approves themselves, and every amount that is moved or added is positive. *)
Definition token_step (caller : Address) (call : token_call) (t : token) : option token :=
  match call with
  | TApprove spender n => guard (spender ≠ caller);; Some (allow caller spender n t)
  | TIncrease spender n =>
      guard (spender ≠ caller ∧ 0 < n);; Some (allow caller spender (tok_allowance t caller spender + n) t)
  | TDecrease spender n =>
      guard (spender ≠ caller ∧ 0 < n <= tok_allowance t caller spender);;
      Some (allow caller spender (tok_allowance t caller spender - n) t)
  | TTransfer to n => guard (0 < n <= tok_balance t caller);; Some (move caller to n t)
  | TTransferFrom from to n =>
      guard (0 < n <= tok_balance t from);;
      if decide (caller = from) then Some (move from to n t)
      else
        guard (n <= tok_allowance t from caller);;
        Some (allow from caller (tok_allowance t from caller - n) (move from to n t))
  end.

Definition token_view (name : string) (args : list abi_value) (t : token) : option abi_value :=
  if decide (name = "totalSupply"%string) then Some (VBig (tok_supply t))
  else match args with
       | [VAddress owner; VAddress spender] =>
           guard (name = "allowance"%string);;
           Some (VBig (if decide (owner = spender) then MaxUint256 else tok_allowance t owner spender))
       | [VAddress account] => guard (name = "balanceOf"%string);; Some (VBig (tok_balance t account))
       | _ => None
       end.

Definition decode (name : string) (args : list abi_value) : option token_call :=
  match args with
  | [VAddress a; VBig n] =>
      if decide (name = "transfer"%string) then Some (TTransfer a n)
      else if decide (name = "approve"%string) then Some (TApprove a n)
      else if decide (name = "increaseAllowance"%string) then Some (TIncrease a n)
      else if decide (name = "decreaseAllowance"%string) then Some (TDecrease a n)
      else None
  | [VAddress a; VAddress b; VBig n] => guard (name = "transferFrom"%string);; Some (TTransferFrom a b n)
  | _ => None
  end.

Section Refinement.
Context `{EE : EvmEnv} `{GE : !Geth} `{CL : !CoinsLaws} `{AK : !AuthzKeeper} `{AL : !AuthzLaws}.
Variable p : token_env.

(** ** What the SDK promises *)

Definition by_denom (l : list (string * Z)) : gmap string Z := list_to_map l.

(** [Coins] is a slice with one positive amount for each of its denominations. *)
Record slice_laws := {
  slice_amounts c : coins_valid c → ∀ d, AmountOf c d = default 0 (by_denom (tk_slice p c) !! d);
  slice_positive c : coins_valid c → Forall (λ x, 0 < x.2) (tk_slice p c);
  of_slice_valid c l : coins_valid c → l.*1 = (tk_slice p c).*1 → Forall (λ x, 0 < x.2) l →
    coins_valid (tk_of_slice p l);
  of_slice_amounts l d : Forall (λ x, 0 < x.2) l → AmountOf (tk_of_slice p l) d = default 0 (by_denom l !! d)
}.

(** A send moves a positive amount that the sender has; with an authorization of the
    granter the amount is taken off the spend limit, and an empty limit is deleted. *)
Record send_laws := {
  send_positive from to d n : tk_SendValidateBasic p from to d n = Ok () → 0 < n;
  send_moves c from to d n c' : tk_Send p c from to d n = Ok c' → 0 <= n →
    n <= bank_GetBalance c from d ∧ transferred from to (NewCoin d n) c c';
  dispatch_accepts c g spender from to d n c' g' :
    tk_DispatchActions p c g spender from to d n = Ok (c', g') → spender ≠ from →
    tk_Send p c from to d n = Ok c' ∧
    ∃ limit l e rest, az_GetAuthorization g spender from SendMsgURL = Some (SendAuthorization limit l, e) ∧
      coins_Sub limit (NewCoin d n) = Ok rest ∧
      ∀ x y url, az_GetAuthorization g' x y url =
        if decide (x = spender ∧ y = from ∧ url = SendMsgURL)
        then if coins_IsZero rest then None else Some (SendAuthorization rest l, e)
        else az_GetAuthorization g x y url
}.

(** ** The state as a token *)

Definition allowance_in (g : grants) (owner spender : Address) : Z :=
  match az_GetAuthorization g spender owner SendMsgURL with
  | Some (SendAuthorization limit _, _) => AmountOf limit (denom p)
  | _ => 0
  end.

Definition token_of (st : pc_state) : token :=
  mkToken (λ a, bank_GetBalance (ek_chain (pc_store st)) a (denom p)) (allowance_in (pc_grants st))
    (bank_GetSupply (ek_chain (pc_store st)) (denom p)).

Definition grants_ok (g : grants) : Prop := ∀ grantee granter limit l e,
  az_GetAuthorization g grantee granter SendMsgURL = Some (SendAuthorization limit l, e) → coins_valid limit.

(** The grants after writing [x] for one grantee and granter. *)
Definition grants_set (grantee granter : Address) (x : option (authorization * option Z)) (g g' : grants) : Prop :=
  ∀ s o, az_GetAuthorization g' s o SendMsgURL =
    if decide (s = grantee ∧ o = granter) then x else az_GetAuthorization g s o SendMsgURL.

Definition limit_of (x : option (authorization * option Z)) : option coins :=
  match x with Some (SendAuthorization limit _, _) => Some limit | _ => None end.

(** One allowance is [n] and the others are what they were; limits stay valid. *)
Definition allowance_set (owner spender : Address) (n : Z) (g g' : grants) : Prop :=
  grants_ok g' ∧ ∀ o s, allowance_in g' o s = if decide (o = owner ∧ s = spender) then n else allowance_in g o s.

Lemma grants_set_allowance grantee granter x g g' :
  grants_ok g → grants_set grantee granter x g g' →
  (∀ limit, limit_of x = Some limit → coins_valid limit) →
  allowance_set granter grantee (match limit_of x with Some limit => AmountOf limit (denom p) | None => 0 end) g g'.
Proof.
  intros Hok Hset Hv. split.
  - intros s o limit l e. rewrite Hset. case_decide; [intros ->; by apply Hv|apply Hok].
  - intros o s. unfold allowance_in. rewrite Hset.
    destruct (decide (s = grantee ∧ o = granter)) as [[-> ->]|Hne].
    + rewrite decide_True by done. by destruct x as [[[] ]|].
    + rewrite decide_False by tauto. done.
Qed.

Lemma save_set g grantee granter limit l e g' :
  of_sdk (az_SaveGrant g grantee granter (SendAuthorization limit l) e) = Ok g' →
  grants_set grantee granter (Some (SendAuthorization limit l, e)) g g'.
Proof.
  intros Hs%of_sdk_Ok s o. rewrite (SaveGrant_get _ _ _ _ _ _ Hs). cbn [authorization_URL].
  repeat case_decide; tauto || done.
Qed.

Lemma delete_set g grantee granter g' :
  of_sdk (az_DeleteGrant g grantee granter SendMsgURL) = Ok g' → grants_set grantee granter None g g'.
Proof.
  intros Hs%of_sdk_Ok s o. rewrite (DeleteGrant_get _ _ _ _ _ Hs). repeat case_decide; tauto || done.
Qed.

(** ** Spend limits *)

Lemma replace_coin_Some l d n l' :
  replace_coin l d n = Some l' → l'.*1 = l.*1 ∧ by_denom l' = <[d := n]> (by_denom l).
Proof.
  revert l'. induction l as [|[d' m] l IH]; intros l'; cbn [replace_coin]; [done|]. case_decide as Hd.
  - intros [= <-]. subst. split; [done|]. cbn. by rewrite insert_insert_eq.
  - intros (k & [Hk1 Hk2]%IH & ->)%fmap_Some. cbn. split; [by rewrite Hk1|].
    unfold by_denom in Hk2. rewrite Hk2. by rewrite insert_insert_ne.
Qed.

Lemma replace_coin_None l d n : replace_coin l d n = None → by_denom l !! d = None.
Proof.
  induction l as [|[d' m] l IH]; cbn [replace_coin]; [done|]. case_decide as Hd; [done|].
  intros Hn%fmap_None. cbn. rewrite lookup_insert_ne by done. by apply IH.
Qed.

Lemma replace_coin_positive l d n l' :
  replace_coin l d n = Some l' → 0 < n → Forall (λ x, 0 < x.2) l → Forall (λ x, 0 < x.2) l'.
Proof.
  intros Hr Hn. revert l' Hr. induction l as [|[d' m] l IH]; intros l'; cbn [replace_coin]; [done|].
  intros Hr [Hm Hl]%Forall_cons. case_decide.
  - injection Hr as <-. by apply Forall_cons.
  - apply fmap_Some in Hr as (k & Hk & ->). apply Forall_cons. split; [done|]. by apply IH.
Qed.

Lemma update_amounts (SL : slice_laws) limit n :
  coins_valid limit → 0 < n →
  coins_valid (updateOrAddCoin p limit (denom p) n) ∧ AmountOf (updateOrAddCoin p limit (denom p) n) (denom p) = n.
Proof.
  intros Hv Hn. unfold updateOrAddCoin. destruct (replace_coin _ _ _) as [l|] eqn:Hr.
  - destruct (replace_coin_Some _ _ _ _ Hr) as [Hk Hm].
    pose proof (replace_coin_positive _ _ _ _ Hr Hn (slice_positive SL _ Hv)) as Hp.
    split; [by eapply of_slice_valid|]. rewrite of_slice_amounts by done. rewrite Hm. by rewrite lookup_insert_eq.
  - apply replace_coin_None in Hr. split; [apply Add_valid; [done|apply NewCoin_valid; lia]|].
    rewrite AmountOf_Add by (done || apply NewCoin_valid; lia). rewrite (slice_amounts SL _ Hv), Hr.
    rewrite AmountOf_NewCoin by lia. rewrite decide_True by done. cbn. lia.
Qed.

(** ** Allowances *)

Lemma create_allowance grantee granter n g g' :
  grants_ok g → 0 < n → createAuthorization p grantee granter n g = Ok g' → allowance_set granter grantee n g g'.
Proof.
  intros Hok Hn Hc. unfold createAuthorization in Hc. case_guards Hc. apply bind_Ok_inv in Hc as (_ & _ & Hc).
  apply save_set in Hc. apply grants_set_allowance in Hc; [|done|].
  - cbn in Hc. rewrite AmountOf_NewCoin, decide_True in Hc by (done || lia). done.
  - intros limit [= <-]. apply NewCoin_valid. lia.
Qed.

Lemma update_allowance (SL : slice_laws) grantee granter n limit l e g g' :
  grants_ok g → coins_valid limit → 0 < n →
  updateAuthorization p grantee granter n limit l e g = Ok g' → allowance_set granter grantee n g g'.
Proof.
  intros Hok Hv Hn Hu. unfold updateAuthorization in Hu. apply bind_Ok_inv in Hu as (m & Hm%of_total_int & Hu). subst m.
  apply bind_Ok_inv in Hu as (_ & _ & Hu). destruct (update_amounts SL limit n Hv Hn) as [Hv' Ha].
  apply save_set in Hu. apply grants_set_allowance in Hu; [|done|by intros ? [= <-]].
  cbn in Hu. by rewrite Ha in Hu.
Qed.

Lemma denom_within limit d : coins_valid limit → coins_le (NewCoin d (AmountOf limit d)) limit.
Proof.
  intros Hv d'. pose proof (valid_nonneg limit d Hv). pose proof (valid_nonneg limit d' Hv).
  rewrite AmountOf_NewCoin by done. case_decide; subst; lia.
Qed.

Lemma remove_allowance grantee granter a e g g' :
  grants_ok g → az_GetAuthorization g grantee granter SendMsgURL = Some (a, e) →
  removeSpendLimitOrDeleteAuthorization p grantee granter a e g = Ok g' → allowance_set granter grantee 0 g g'.
Proof.
  intros Hok Ha Hr. unfold removeSpendLimitOrDeleteAuthorization in Hr. destruct a as [limit l| | | |]; [|done..].
  pose proof (Hok _ _ _ _ _ Ha) as Hv. pose proof (valid_nonneg limit (denom p) Hv) as Hnn.
  destruct (Sub_ok limit (NewCoin (denom p) (AmountOf limit (denom p)))) as (rest & Hs & Hrv & Hra);
    [done|by apply NewCoin_valid|by apply denom_within|].
  rewrite Hs in Hr. case_guards Hr.
  - apply delete_set in Hr. by apply grants_set_allowance in Hr.
  - apply save_set in Hr. apply grants_set_allowance in Hr; [|done|by intros ? [= <-]].
    cbn in Hr. rewrite Hra, AmountOf_NewCoin, decide_True, Z.sub_diag in Hr by done. done.
Qed.

Lemma allowance_some g s o limit l e :
  az_GetAuthorization g s o SendMsgURL = Some (SendAuthorization limit l, e) →
  allowance_in g o s = AmountOf limit (denom p).
Proof. unfold allowance_in. by intros ->. Qed.

Lemma allowance_none g s o : az_GetAuthorization g s o SendMsgURL = None → allowance_in g o s = 0.
Proof. unfold allowance_in. by intros ->. Qed.

Lemma increased_allowance (SL : slice_laws) grantee granter n a e g m g' :
  grants_ok g → az_GetAuthorization g grantee granter SendMsgURL = Some (a, e) → 0 < n →
  increaseAllowance p grantee granter n a e g = Ok (m, g') →
  allowance_set granter grantee (allowance_in g granter grantee + n) g g'.
Proof.
  intros Hok Ha Hn Hi. unfold increaseAllowance in Hi. destruct a as [limit l| | | |]; [|done..].
  pose proof (Hok _ _ _ _ _ Ha) as Hv. pose proof (valid_nonneg limit (denom p) Hv).
  apply bind_Ok_inv in Hi as (k & Hk%of_total_int & Hi). subst k. unfold SafeAdd in Hi. case_guards Hi.
  apply bind_Ok_inv in Hi as (g1 & Hu & [= <- <-]). rewrite (allowance_some _ _ _ _ _ _ Ha).
  eapply update_allowance; [done|done|done| |exact Hu]. lia.
Qed.

Lemma decreased_allowance (SL : slice_laws) grantee granter n a e g m g' :
  grants_ok g → az_GetAuthorization g grantee granter SendMsgURL = Some (a, e) → n < allowance_in g granter grantee →
  decreaseAllowance p grantee granter n a e g = Ok (m, g') →
  allowance_set granter grantee (allowance_in g granter grantee - n) g g'.
Proof.
  intros Hok Ha Hn Hi. unfold decreaseAllowance in Hi. destruct a as [limit l| | | |]; [|done..].
  pose proof (Hok _ _ _ _ _ Ha) as Hv. rewrite (allowance_some _ _ _ _ _ _ Ha) in *. case_guards Hi.
  apply bind_Ok_inv in Hi as (g1 & Hu & [= <- <-]). eapply update_allowance; [done|done|done| |exact Hu]. lia.
Qed.

(** ** Events and results leave the stores alone *)

Definition same_stores (st st' : pc_state) : Prop :=
  pc_store st' = pc_store st ∧ pc_grants st' = pc_grants st.

Lemma transfer_event from to n st st' : EmitTransferEvent p from to n st = Ok st' → same_stores st st'.
Proof. intros He. apply bind_Ok_inv in He as (sdb & _ & [= <-]). done. Qed.

Lemma approval_event owner spender n st st' : EmitApprovalEvent p owner spender n st = Ok st' → same_stores st st'.
Proof. intros He. apply bind_Ok_inv in He as (sdb & _ & [= <-]). done. Qed.

Lemma finish_state st bz st' : finish p st = Ok (bz, st') → st' = st.
Proof. intros Hf. by apply bind_Ok_inv in Hf as (? & _ & [= _ <-]). Qed.

Lemma approved_state spender n g st bz st' :
  approved p spender n g st = Ok (bz, st') → pc_store st' = pc_store st ∧ pc_grants st' = g.
Proof. intros Ha. apply bind_Ok_inv in Ha as (st1 & [H1 H2]%approval_event & ->%finish_state). done. Qed.

(** A successful call does the step of the token and keeps the limits valid. *)
Definition implements (caller : Address) (call : token_call) (st st' : pc_state) : Prop :=
  grants_ok (pc_grants st') ∧ ∃ t, token_step caller call (token_of st) = Some t ∧ token_of st' ≡ t.

Lemma allowance_implements caller call spender n g st st' :
  allowance_set caller spender n (pc_grants st) g → pc_store st' = pc_store st ∧ pc_grants st' = g →
  token_step caller call (token_of st) = Some (allow caller spender n (token_of st)) →
  implements caller call st st'.
Proof.
  intros [Hok Hset] [Hs <-] Hstep. split; [done|]. eexists. split; [exact Hstep|].
  repeat split; intros; cbn; [by rewrite Hs|apply Hset|by rewrite Hs].
Qed.

Lemma current_authz_Some g s o a e :
  current_authz g s o = Some (a, e) → az_GetAuthorization g s o SendMsgURL = Some (a, e).
Proof. unfold current_authz, CheckAuthzExists. by destruct (az_GetAuthorization _ _ _ _); intros [= ->]. Qed.

Lemma current_authz_None g s o : current_authz g s o = None → az_GetAuthorization g s o SendMsgURL = None.
Proof. unfold current_authz, CheckAuthzExists. by destruct (az_GetAuthorization _ _ _ _). Qed.

Lemma allowance_unchanged g owner spender :
  grants_ok g → allowance_set owner spender (allowance_in g owner spender) g g.
Proof. intros Hok. split; [done|]. intros o s. case_decide as Hd; [by destruct Hd as [-> ->]|done]. Qed.

(** ** The methods *)

Lemma ParseApproveArgs_inv args a n : ParseApproveArgs args = Ok (a, n) → args = [VAddress a; VBig n].
Proof. unfold ParseApproveArgs. intros Hp. case_guards Hp. by simplify_eq. Qed.

Lemma ParseTransferArgs_inv args a n : ParseTransferArgs args = Ok (a, n) → args = [VAddress a; VBig n].
Proof. unfold ParseTransferArgs. intros Hp. case_guards Hp. by simplify_eq. Qed.

Lemma ParseTransferFromArgs_inv args a b n :
  ParseTransferFromArgs args = Ok (a, b, n) → args = [VAddress a; VAddress b; VBig n].
Proof. unfold ParseTransferFromArgs. intros Hp. case_guards Hp. by simplify_eq. Qed.

Lemma Approve_implements (SL : slice_laws) ct spender n st bz st' :
  grants_ok (pc_grants st) → 0 <= n → Approve p ct [VAddress spender; VBig n] st = Ok (bz, st') →
  implements (ct_CallerAddress ct) (TApprove spender n) st st'.
Proof.
  intros Hok Hn Ha. unfold Approve in Ha. cbn [ParseApproveArgs] in Ha. rewrite Ok_bind in Ha.
  destruct (decide _) as [|Hne]; [done|]. apply bind_Ok_inv in Ha as (g & Hg & Hst%approved_state).
  eapply allowance_implements; [|exact Hst|cbn; by case_guard].
  destruct (current_authz _ _ _) as [[a e]|] eqn:Hc.
  - apply current_authz_Some in Hc. case_guards Hg.
    + replace n with 0 by lia. by eapply remove_allowance.
    + eapply update_allowance; [done|done|by eapply Hok| |exact Hg]. lia.
  - apply current_authz_None in Hc. case_guards Hg.
    + eapply create_allowance; [done| |exact Hg]. lia.
    + injection Hg as <-. replace n with (allowance_in (pc_grants st) (ct_CallerAddress ct) spender).
      * by apply allowance_unchanged.
      * rewrite (allowance_none _ _ _ Hc). lia.
Qed.

Lemma IncreaseAllowance_implements (SL : slice_laws) ct spender n st bz st' :
  grants_ok (pc_grants st) → IncreaseAllowance p ct [VAddress spender; VBig n] st = Ok (bz, st') →
  implements (ct_CallerAddress ct) (TIncrease spender n) st st'.
Proof.
  intros Hok Ha. unfold IncreaseAllowance in Ha. cbn [ParseApproveArgs] in Ha. rewrite Ok_bind in Ha.
  destruct (decide _) as [|Hne]; [done|]. apply bind_Ok_inv in Ha as ([m g] & Hg & Hst%approved_state).
  destruct (n <=? 0) eqn:Hn; [done|]. apply Z.leb_gt in Hn.
  eapply allowance_implements; [|exact Hst|cbn; by case_guard; [|tauto]].
  destruct (current_authz _ _ _) as [[a e]|] eqn:Hc.
  - apply current_authz_Some in Hc. by eapply increased_allowance.
  - apply current_authz_None in Hc. apply bind_Ok_inv in Hg as (g1 & Hg & [= _ <-]).
    cbn. rewrite (allowance_none _ _ _ Hc). by apply create_allowance.
Qed.

Lemma authz_allowance_inv g s o a e n :
  GetAuthzExpirationAndAllowance g s o (denom p) = Ok (a, e, n) →
  az_GetAuthorization g s o SendMsgURL = Some (a, e) ∧ n = allowance_in g o s.
Proof.
  unfold GetAuthzExpirationAndAllowance, CheckAuthzExists, allowance_in.
  destruct (az_GetAuthorization _ _ _ _) as [[[] ?]|]; cbn; intros; by simplify_eq.
Qed.

Lemma DecreaseAllowance_implements (SL : slice_laws) ct spender n st bz st' :
  grants_ok (pc_grants st) → DecreaseAllowance p ct [VAddress spender; VBig n] st = Ok (bz, st') →
  implements (ct_CallerAddress ct) (TDecrease spender n) st st'.
Proof.
  intros Hok Ha. unfold DecreaseAllowance in Ha. cbn [ParseApproveArgs] in Ha. rewrite Ok_bind in Ha.
  destruct (decide _) as [|Hne]; [done|]. apply bind_Ok_inv in Ha as ([m g] & Hg & Hst%approved_state).
  destruct (n <=? 0) eqn:Hn; [done|]. apply Z.leb_gt in Hn.
  destruct (GetAuthzExpirationAndAllowance _ _ _ _) as [[[a e] k]| |] eqn:Hc; [|done..].
  apply authz_allowance_inv in Hc as [Hc ->].
  assert (n <= allowance_in (pc_grants st) (ct_CallerAddress ct) spender) as Hle.
  { case_guards Hg; lia. }
  eapply allowance_implements; [|exact Hst|cbn; by case_guard; [|tauto]].
  cbn. case_guards Hg.
  - eapply decreased_allowance; [done..| |exact Hg]. lia.
  - apply bind_Ok_inv in Hg as (g1 & Hg & [= _ <-]).
    replace (_ - n) with 0 by lia. by eapply remove_allowance.
Qed.

(** The bank moves the coins of a transfer. *)
Lemma sent_balances (NL : send_laws) c from to n c' :
  tk_Send p c from to (denom p) n = Ok c' → 0 < n →
  n <= bank_GetBalance c from (denom p) ∧
  (∀ a, bank_GetBalance c' a (denom p) = bank_GetBalance c a (denom p)
     - (if decide (a = from) then n else 0) + (if decide (a = to) then n else 0)) ∧
  bank_GetSupply c' (denom p) = bank_GetSupply c (denom p).
Proof.
  intros Hs Hn. apply (send_moves NL) in Hs as (Hle & Hb & Hsup); [|lia]. split; [done|]. split; [|by rewrite Hsup].
  intros a. rewrite Hb. by rewrite AmountOf_NewCoin, (decide_True _ _ (eq_refl (denom p))) by lia.
Qed.

Lemma convert_Ok {A} (x : pc_result A) a : convert x = Ok a → x = Ok a.
Proof. by destruct x. Qed.

Lemma SafeSub_inv a b c :
  coins_valid a → coins_valid b → coins_Sub a b = Ok c →
  coins_le b a ∧ coins_valid c ∧ ∀ d, AmountOf c d = AmountOf a d - AmountOf b d.
Proof.
  intros Ha Hb Hs. destruct (IsAllLTE b a) eqn:Hle.
  - apply IsAllLTE_spec in Hle; [|done..]. destruct (Sub_ok a b Ha Hb Hle) as (x & Hx & ? & ?).
    rewrite Hx in Hs. injection Hs as <-. by split_and!.
  - rewrite (Sub_negative a b) in Hs; [done..|]. intros Hl. apply IsAllLTE_spec in Hl; [congruence|done..].
Qed.

Lemma dispatched_allowance (NL : send_laws) c g spender from to n c' g' :
  grants_ok g → tk_DispatchActions p c g spender from to (denom p) n = Ok (c', g') → spender ≠ from → 0 < n →
  n <= allowance_in g from spender ∧ allowance_set from spender (allowance_in g from spender - n) g g'.
Proof.
  intros Hok Hd Hne Hn. apply (dispatch_accepts NL) in Hd as (_ & limit & l & e & rest & Ha & Hsub & Hg); [|done].
  pose proof (Hok _ _ _ _ _ Ha) as Hv. assert (coins_valid (NewCoin (denom p) n)) as Hcv by (apply NewCoin_valid; lia).
  destruct (SafeSub_inv _ _ _ Hv Hcv Hsub) as (Hle & Hrv & Hra).
  specialize (Hle (denom p)). specialize (Hra (denom p)).
  rewrite AmountOf_NewCoin, decide_True in Hle by (done || lia). rewrite AmountOf_NewCoin, decide_True in Hra by (done || lia).
  rewrite (allowance_some _ _ _ _ _ _ Ha).
  split; [done|]. rewrite <-Hra.
  assert (grants_set spender from (if coins_IsZero rest then None else Some (SendAuthorization rest l, e)) g g') as Hset.
  { intros s o. rewrite Hg. repeat case_decide; tauto || done. }
  destruct (coins_IsZero rest) eqn:Hz; apply grants_set_allowance in Hset; try done.
  - by rewrite (proj1 (IsZero_spec rest Hrv) Hz).
  - by intros ? [= <-].
Qed.

(** The stores after a transfer: the events change none of them. *)
Lemma transfer_stores (NL : send_laws) isTransferFrom spender from to n st bz st' :
  transfer p isTransferFrom spender from to n st = Ok (bz, st') →
  0 < n ∧ ∃ c, tk_Send p (ek_chain (pc_store st)) from to (denom p) n = Ok c ∧ ek_chain (pc_store st') = c ∧
    if decide (spender = from) then pc_grants st' = pc_grants st
    else tk_DispatchActions p (ek_chain (pc_store st)) (pc_grants st) spender from to (denom p) n = Ok (c, pc_grants st').
Proof.
  unfold transfer. intros Ht. apply bind_Ok_inv in Ht as (m & Hm%of_total_int & Ht). subst m.
  apply bind_Ok_inv in Ht as ([] & Hv%of_sdk_Ok%(send_positive NL) & Ht). split; [done|].
  apply bind_Ok_inv in Ht as ([prev st1] & Hs & Ht). apply bind_Ok_inv in Ht as (st2 & [E1 E2]%transfer_event & Ht).
  assert (same_stores st2 st') as [E3 E4].
  { destruct isTransferFrom; [|by apply finish_state in Ht as ->].
    by apply bind_Ok_inv in Ht as (st3 & Hev%approval_event & ->%finish_state). }
  rewrite E3, E4, E1, E2. destruct (decide (spender = from)) as [->|Hne].
  - apply bind_Ok_inv in Hs as (c & Hc%convert_Ok%of_sdk_Ok & [= _ <-]). by exists c.
  - destruct (GetAuthzExpirationAndAllowance _ _ _ _) as [[[a e] k]| |]; [|done..].
    apply bind_Ok_inv in Hs as ([c g] & Hc%convert_Ok%of_sdk_Ok & [= _ <-]). exists c.
    split; [by apply (dispatch_accepts NL) in Hc as [Hc _]|done].
Qed.

Lemma transfer_implements (NL : send_laws) isTransferFrom spender from to n st bz st' :
  grants_ok (pc_grants st) → transfer p isTransferFrom spender from to n st = Ok (bz, st') →
  implements spender (TTransferFrom from to n) st st'.
Proof.
  intros Hok Ht. apply (transfer_stores NL) in Ht as (Hn & c & Hs & <- & Hg).
  destruct (sent_balances NL _ _ _ _ _ Hs Hn) as (Hle & Hb & Hsup).
  unfold implements. cbn [token_step]. rewrite option_guard_True by done. destruct (decide (spender = from)) as [->|Hne].
  - rewrite Hg. split; [done|]. eexists. split; [done|].
    repeat split; intros; cbn; [apply Hb|by rewrite Hg|done].
  - destruct (dispatched_allowance NL _ _ _ _ _ _ _ _ Hok Hg Hne Hn) as (Hal & Hok' & Hset). split; [done|].
    eexists. rewrite option_guard_True by done. split; [done|].
    repeat split; intros; cbn; [apply Hb|apply Hset|done].
Qed.

Lemma own_transfer_implements caller to n st st' :
  implements caller (TTransferFrom caller to n) st st' → implements caller (TTransfer to n) st st'.
Proof.
  intros (Hok & t & Hstep & Heq). split; [done|]. exists t. split; [|done]. cbn in *.
  by rewrite (decide_True _ _ (eq_refl caller)) in Hstep.
Qed.

(** ** The contract *)

(** Amounts are decoded as unsigned integers. *)
Definition unsigned (args : list abi_value) : Prop := ∀ n, VBig n ∈ args → 0 <= n.

Lemma answer_inv v st bz st' :
  answer p v st = Ok (bz, st') → st' = st ∧ ∃ x, v = Ok x ∧ ab_Pack (tk_abi p) [x] = Some bz.
Proof.
  intros Ha. apply bind_Ok_inv in Ha as (x & -> & Ha). apply bind_Ok_inv in Ha as (b & Hb & [= <- <-]).
  split; [done|]. exists x. unfold pack in Hb. case_guards Hb. by simplify_eq.
Qed.

(** What a query answers: the token, and for the metadata of the coin what the bank and
    the denomination traces say of it. *)
Definition query_view (name : string) (args : list abi_value) (st : pc_state) : option abi_value :=
  let c := ek_chain (pc_store st) in
  let found (x : pc_result abi_value) := match x with Ok v => Some v | _ => None end in
  if decide (name = "name"%string) then found (VString <$> token_Name p c)
  else if decide (name = "symbol"%string) then found (VString <$> Symbol p c)
  else if decide (name = "decimals"%string) then found (VBig <$> Decimals p c)
  else token_view name args (token_of st).

(** What a successful call does, told by the method and its arguments. *)
Definition call_correct (caller : Address) (name : string) (args : list abi_value) (st : pc_state)
    (bz : list byte) (st' : pc_state) : Prop :=
  match decode name args with
  | Some call => implements caller call st st' ∧ ab_Pack (tk_abi p) [VBool true] = Some bz
  | None => st' = st ∧ ∃ v, query_view name args st = Some v ∧ ab_Pack (tk_abi p) [v] = Some bz
  end.

Lemma finish_returns st bz st' : finish p st = Ok (bz, st') → ab_Pack (tk_abi p) [VBool true] = Some bz.
Proof. intros Hf. apply bind_Ok_inv in Hf as (b & Hb & [= <- _]). unfold pack in Hb. case_guards Hb. by simplify_eq. Qed.

Lemma approved_returns spender n g st bz st' :
  approved p spender n g st = Ok (bz, st') → ab_Pack (tk_abi p) [VBool true] = Some bz.
Proof. intros Ha. by apply bind_Ok_inv in Ha as (st1 & _ & Hf%finish_returns). Qed.

Lemma transfer_returns isTransferFrom spender from to n st bz st' :
  transfer p isTransferFrom spender from to n st = Ok (bz, st') → ab_Pack (tk_abi p) [VBool true] = Some bz.
Proof.
  unfold transfer. intros Ht. do 2 (apply bind_Ok_inv in Ht as (? & _ & Ht)).
  apply bind_Ok_inv in Ht as ([prev st1] & _ & Ht). apply bind_Ok_inv in Ht as (st2 & _ & Ht).
  destruct isTransferFrom; [apply bind_Ok_inv in Ht as (? & _ & Ht)|]; by eapply finish_returns.
Qed.

Lemma approval_returns ct args st bz st' :
  Approve p ct args st = Ok (bz, st') ∨ IncreaseAllowance p ct args st = Ok (bz, st') ∨
  DecreaseAllowance p ct args st = Ok (bz, st') → ab_Pack (tk_abi p) [VBool true] = Some bz.
Proof.
  intros [Ha|[Ha|Ha]]; apply bind_Ok_inv in Ha as ([a n] & _ & Ha); cbv zeta in Ha;
    (destruct (decide _); [done|]).
  - apply bind_Ok_inv in Ha as (g & _ & Ha). by eapply approved_returns.
  - apply bind_Ok_inv in Ha as ([m g] & _ & Ha). by eapply approved_returns.
  - apply bind_Ok_inv in Ha as ([m g] & _ & Ha). by eapply approved_returns.
Qed.

Lemma allowance_answer args g st v :
  pc_grants st = g → VBig <$> Allowance p args g = Ok v → token_view "allowance" args (token_of st) = Some v.
Proof.
  intros <- Ha. unfold Allowance in Ha. destruct (ParseAllowanceArgs args) as [[o s]| |] eqn:Hp; [|done..].
  unfold ParseAllowanceArgs in Hp. case_guards Hp. injection Hp as -> ->. rewrite Ok_bind in Ha.
  unfold token_view. rewrite decide_False, option_guard_True by done. cbn [tok_allowance token_of].
  destruct (decide (o = s)); [by injection Ha as <-|].
  unfold GetAuthzExpirationAndAllowance, CheckAuthzExists in Ha. unfold allowance_in.
  destruct (az_GetAuthorization _ _ _ _) as [[[] ?]|]; cbn in Ha; by injection Ha as <-.
Qed.

Lemma handle_correct (SL : slice_laws) (NL : send_laws) name ct args st bz st' :
  grants_ok (pc_grants st) → unsigned args → HandleMethod p name ct args st = Ok (bz, st') →
  call_correct (ct_CallerAddress ct) name args st bz st'.
Proof.
  intros Hok Hu Hh. unfold HandleMethod in Hh.
  destruct (decide (name = "transfer"%string)) as [->|N1].
  { apply bind_Ok_inv in Hh as ([a n] & ->%ParseTransferArgs_inv & Hh).
    split; [by eapply own_transfer_implements, transfer_implements|by eapply transfer_returns]. }
  destruct (decide (name = "transferFrom"%string)) as [->|N2].
  { apply bind_Ok_inv in Hh as ([[a b] n] & ->%ParseTransferFromArgs_inv & Hh).
    split; [by eapply transfer_implements|by eapply transfer_returns]. }
  destruct (decide (name = "approve"%string)) as [->|N3].
  { pose proof Hh as Hh'. apply bind_Ok_inv in Hh' as ([a n] & ->%ParseApproveArgs_inv & _).
    split; [eapply Approve_implements; [done|done| |exact Hh]; apply Hu; set_solver|eapply approval_returns; eauto]. }
  destruct (decide (name = "increaseAllowance"%string)) as [->|N4].
  { pose proof Hh as Hh'. apply bind_Ok_inv in Hh' as ([a n] & ->%ParseApproveArgs_inv & _).
    split; [by eapply IncreaseAllowance_implements|eapply approval_returns; eauto]. }
  destruct (decide (name = "decreaseAllowance"%string)) as [->|N5].
  { pose proof Hh as Hh'. apply bind_Ok_inv in Hh' as ([a n] & ->%ParseApproveArgs_inv & _).
    split; [by eapply DecreaseAllowance_implements|eapply approval_returns; eauto]. }
  assert (decode name args = None) as Hd.
  { unfold decode. repeat case_match; try done; repeat (case_guard || case_decide); done. }
  unfold call_correct, query_view. rewrite Hd. clear N1 N2 N3 N4 N5 Hd Hu.
  repeat (destruct (decide (name = _)) as [->|];
    [apply answer_inv in Hh as (-> & x & Hx & Hpk); split; [done|]; exists x; split; [|done]|]); [..|done].
  1-3: by rewrite Hx.
  - by injection Hx as <-.
  - unfold token_BalanceOf, ParseBalanceOfArgs in Hx. destruct args as [|[] [|[] []]]; try done. by injection Hx as <-.
  - exact (allowance_answer _ _ st _ eq_refl Hx).
Qed.

Lemma handle_named ct args st : HandleMethod p EmptyString ct args st = Err PErrUnknownMethod.
Proof. done. Qed.

Lemma read_only_views name ct args st bz st' :
  token_IsTransaction name = false → HandleMethod p name ct args st = Ok (bz, st') → st' = st.
Proof.
  intros Ht%bool_decide_eq_false Hh. unfold HandleMethod in Hh.
  repeat (case_decide; [first [by apply answer_inv in Hh as [-> _]|exfalso; subst name; apply Ht; set_solver]|]). done.
Qed.

(** C9.  A call of the precompile that succeeds is a call of the token.  The input has a
    selector and arguments of a method; one that writes does the step of the abstract
    token and returns true, a query returns the answer of the token and writes nothing.
    The stored limits stay valid, and in a static call nothing is written. *)
Theorem token_refines (SL : slice_laws) (NL : send_laws) ct readOnly initialGas finalGas st bz st' left :
  (∀ name data args, ab_Unpack (tk_abi p) name data = Some args → unsigned args) →
  grants_ok (pc_grants st) →
  token_Run p ct readOnly initialGas finalGas st = Ok (bz, st', left) →
  ∃ name args,
    (4 <= length (ct_Input ct))%nat ∧ ab_MethodById (tk_abi p) (take 4 (ct_Input ct)) = Some name ∧
    ab_Unpack (tk_abi p) name (drop 4 (ct_Input ct)) = Some args ∧
    call_correct (ct_CallerAddress ct) name args st bz st' ∧
    grants_ok (pc_grants st') ∧ (readOnly = true → st' = st) ∧ 0 <= left.
Proof.
  intros Habi Hok Hr. apply bind_Ok_inv in Hr as ([m args] & Hsetup & Hr).
  apply charge_inv in Hr as (Hh & _ & Hleft). exists (me_Name m), args.
  destruct (RunSetup_function _ _ _ _ _ _ _ Hsetup) as (Hlen & Hm & Ha).
  { intros He. by rewrite He, handle_named in Hh. }
  pose proof (handle_correct SL NL _ _ _ _ _ _ Hok (Habi _ _ _ Ha) Hh) as Hc. split_and!; try done.
  - unfold call_correct in Hc. destruct (decode _ _); [by destruct Hc as [[? _] _]|by destruct Hc as [-> _]].
  - intros Hro. apply RunSetup_inv in Hsetup as [Hw _]. by eapply read_only_views; [apply Hw|].
Qed.

(** ** Approvals go through *)

(** A grant with a later expiration can be saved, positive limits are valid, and an
    amount of 256 bits and a boolean can be packed. *)
Record approval_laws := {
  save_later g s o a t : tk_BlockTime p < t → is_Ok (az_SaveGrant g s o a (Some t)) = true;
  save_forever g s o a : is_Ok (az_SaveGrant g s o a None) = true;
  limit_valid limit l : coins_valid limit → 0 < AmountOf limit (denom p) → NoDup l →
    tk_ValidateBasic p (SendAuthorization limit l) = Ok ();
  pack_amount n : 0 <= n < 2 ^ 256 → is_Some (ab_Pack (tk_abi p) [VBig n]);
  pack_true : is_Some (ab_Pack (tk_abi p) [VBool true])
}.

Definition later (e : option Z) : Prop := match e with Some t => tk_BlockTime p < t | None => True end.

Lemma save_Ok (PL : approval_laws) g s o a e : later e → ∃ g', az_SaveGrant g s o a e = Ok g'.
Proof.
  destruct e as [t|]; cbn; intros He.
  - pose proof (save_later PL g s o a t He) as Hs. destruct (az_SaveGrant _ _ _ _ _); [by eexists|done..].
  - pose proof (save_forever PL g s o a) as Hs. destruct (az_SaveGrant _ _ _ _ _); [by eexists|done..].
Qed.

Lemma approved_Ok (PL : approval_laws) spender n g st : 0 <= n < 2 ^ 256 → ∃ bz st', approved p spender n g st = Ok (bz, st').
Proof.
  intros Hn. destruct (pack_amount PL n Hn) as [x Hx], (pack_true PL) as [y Hy].
  unfold approved, EmitApprovalEvent, emit_event, finish, pack. cbn [MakeTopic]. rewrite !Ok_bind, Hx, !Ok_bind, Hy.
  by eexists _, _.
Qed.

(** The authorization an approval replaces: none, or one to send that is not over. *)
Definition replaceable (g : grants) (grantee granter : Address) : Prop :=
  match az_GetAuthorization g grantee granter SendMsgURL with
  | None => True
  | Some (SendAuthorization limit l, e) => coins_valid limit ∧ NoDup l ∧ later e
  | Some _ => False
  end.

Lemma NewInt_small n : 0 < n < 2 ^ 256 → IsValidInt256 (Some n) = true.
Proof. intros Hn. unfold IsValidInt256, maxBitLen. rewrite Z.abs_eq by lia. apply Z.ltb_lt. lia. Qed.

Lemma create_Ok (PL : approval_laws) grantee granter n g :
  0 < n < 2 ^ 256 → 0 < tk_ApprovalExpiration p → ∃ g', createAuthorization p grantee granter n g = Ok g'.
Proof.
  intros Hn He. unfold createAuthorization. rewrite NewInt_small by done. cbn [negb].
  rewrite (limit_valid PL) by
    (apply NewCoin_valid || constructor || (rewrite AmountOf_NewCoin, decide_True by (done || lia)); lia).
  cbn [of_sdk]. rewrite Ok_bind.
  destruct (save_Ok PL g grantee granter (SendAuthorization (NewCoin (denom p) n) []) (Some (tk_BlockTime p + tk_ApprovalExpiration p)))
    as [g' Hg]; [cbn; lia|].
  rewrite Hg. by exists g'.
Qed.

Lemma update_Ok (SL : slice_laws) (PL : approval_laws) grantee granter n limit l e g :
  0 < n < 2 ^ 256 → coins_valid limit → NoDup l → later e →
  ∃ g', updateAuthorization p grantee granter n limit l e g = Ok g'.
Proof.
  intros Hn Hv Hl He. unfold updateAuthorization, NewIntFromBigInt. rewrite NewInt_small by done. cbn [of_total].
  rewrite Ok_bind. assert (0 < n) as Hp by lia. destruct (update_amounts SL limit n Hv Hp) as [Hv' Ha].
  rewrite (limit_valid PL) by (done || lia). cbn [of_sdk]. rewrite Ok_bind.
  destruct (save_Ok PL g grantee granter (SendAuthorization (updateOrAddCoin p limit (denom p) n) l) e He) as [g' Hg].
  rewrite Hg. by exists g'.
Qed.

(** C17.  Approving a positive amount of 256 bits for somebody else succeeds, and the
    allowance is that amount afterwards.  The authorization it replaces, if there is one,
    is [replaceable]: one to send, whose limit is valid coins, whose list of recipients has
    no repetitions and whose expiration is later than the block. *)
Theorem approve_succeeds (SL : slice_laws) (PL : approval_laws) ct spender n st :
  spender ≠ ct_CallerAddress ct → 0 < n < 2 ^ 256 → 0 < tk_ApprovalExpiration p →
  grants_ok (pc_grants st) → replaceable (pc_grants st) spender (ct_CallerAddress ct) →
  ∃ bz st', Approve p ct [VAddress spender; VBig n] st = Ok (bz, st') ∧
    Allowance p [VAddress (ct_CallerAddress ct); VAddress spender] (pc_grants st') = Ok n.
Proof.
  intros Hne Hn Hexp Hok Hr. set (owner := ct_CallerAddress ct) in *.
  assert (∃ bz st', Approve p ct [VAddress spender; VBig n] st = Ok (bz, st')) as (bz & st' & Ha).
  { unfold Approve. cbn [ParseApproveArgs]. rewrite Ok_bind, decide_False by done. fold owner. unfold replaceable in Hr.
    unfold current_authz, CheckAuthzExists. destruct (az_GetAuthorization _ _ _ _) as [[a e]|].
    - rewrite (proj2 (Z.leb_gt n 0)) by lia. destruct a as [limit l| | | |]; [|done..]. destruct Hr as (Hv & Hl & He).
      destruct (update_Ok SL PL spender owner n limit l e (pc_grants st) Hn Hv Hl He) as [g' ->].
      rewrite Ok_bind. apply approved_Ok; [done|lia].
    - rewrite (proj2 (Z.ltb_ge n 0)), (proj2 (Z.ltb_lt 0 n)) by lia.
      destruct (create_Ok PL spender owner n (pc_grants st) Hn Hexp) as [g' ->]. rewrite Ok_bind. apply approved_Ok; [done|lia]. }
  exists bz, st'. split; [done|].
  apply Approve_implements in Ha as (_ & t & Hstep & _ & Hal & _); [|done|done|lia]. specialize (Hal owner spender).
  cbn in Hstep. case_guard; [|done]. injection Hstep as <-. cbn in Hal. rewrite decide_True in Hal by done.
  unfold Allowance. cbn [ParseAllowanceArgs]. rewrite Ok_bind, decide_False by done.
  unfold GetAuthzExpirationAndAllowance, CheckAuthzExists. unfold allowance_in in Hal.
  destruct (az_GetAuthorization _ _ _ _) as [[[] ?]|]; cbn; (by rewrite Hal) || lia.
Qed.

End Refinement.

(** ** A token on a bank of maps *)

Module TokenToy.
Import MapCoins MapBank EvmToy GethToy GrantMap.

Definition names : list string := ["transfer"; "transferFrom"; "approve"; "allowance"; "balanceOf"]%string.

Definition toy_abi : abi_env := {|
  ab_HasReceive := true;
  ab_HasFallback := true;
  ab_MethodById id := match id with k :: _ => names !! Z.to_nat k | [] => None end;
  ab_Unpack name data :=
    match data with
    | [a; n] => Some (if decide (name = "allowance"%string) then [VAddress a; VAddress n] else [VAddress a; VBig (Z.abs n)])
    | [a; b; n] => Some [VAddress a; VAddress b; VBig (Z.abs n)]
    | [a] => Some [VAddress a]
    | _ => None
    end;
  ab_Pack l := match l with [VBig n] => Some [n] | [VBool b] => Some [if b : bool then 1 else 0] | _ => None end;
  ab_EventID _ := 1;
  ab_keccak _ := 0
|}.

Definition toy_send (c : toy_chain) (from to : Address) (d : string) (n : Z) : outcome string toy_chain :=
  match with_bank c (bank_send (tc_bank c) from to (NewCoin d n)) with
  | Ok c' => Ok c'
  | Err _ => Err "spendable balance is smaller"%string
  | Panic => Panic
  end.

Definition toy_dispatch (c : toy_chain) (g : grant_map) (spender from to : Address) (d : string) (n : Z) :
    outcome string (toy_chain * grant_map) :=
  match g !! (spender, from, SendMsgURL) with
  | Some (SendAuthorization limit l, e) =>
      match coins_Sub limit (NewCoin d n) with
      | Ok rest =>
          c' ← toy_send c from to d n;
          Ok (c', if coins_IsZero rest then delete (spender, from, SendMsgURL) g
                  else <[(spender, from, SendMsgURL) := (SendAuthorization rest l, e)]> g)
      | _ => Err "requested amount is more than spend limit"%string
      end
  | _ => Err "authorization not found"%string
  end.

Definition toy_token : token_env := {|
  tk_abi := toy_abi;
  tk_keccak _ := 0;
  tk_pair := mkTokenPair "0x9" "aego" true OWNER_MODULE;
  tk_ApprovalExpiration := 365;
  tk_BlockTime := 1000;
  tk_slice := map_to_list;
  tk_of_slice := list_to_map;
  tk_ValidateBasic a := Ok ();
  tk_SendValidateBasic _ _ _ n := if 0 <? n then Ok () else Err "invalid coins"%string;
  tk_Send := toy_send;
  tk_DispatchActions := toy_dispatch;
  tk_GetDenomMetaData _ _ := None;
  tk_ParseHexHash _ := None;
  tk_GetDenomTrace _ := None
|}.

Lemma toy_slices : slice_laws toy_token.
Proof.
  split; unfold by_denom.
  - intros c _ d. cbn. by rewrite list_to_map_to_list.
  - intros c Hc. apply Forall_forall. intros [d n] Hin. cbn in Hin. apply elem_of_map_to_list in Hin.
    apply bool_decide_eq_true in Hc. by apply (Hc d n).
  - intros c l _ _ Hl. apply bool_decide_eq_true. intros d n Hd. cbn in Hd. apply elem_of_list_to_map_2 in Hd.
    rewrite Forall_forall in Hl. by apply (Hl (d, n)).
  - done.
Qed.

Lemma toy_sends : send_laws toy_token.
Proof.
  split.
  - intros from to d n. cbn. case_match eqn:Hn; [|done]. intros _. lia.
  - intros c from to d n c' Hs Hn. cbn in Hs. unfold toy_send in Hs. case_guards Hs. injection Hs as <-.
    split; [|by apply toy_sent in Hg as [? _]].
    apply with_bank_inv in Hg as (b & Hb & _ & _). unfold bank_send in Hb.
    destruct (IsValid _) eqn:Hv; [|done]. destruct (coins_Sub _ _) as [r| |] eqn:Hsub; [|done..].
    apply SafeSub_inv in Hsub as [Hle _]; [|apply holds_valid|done]. specialize (Hle d).
    by rewrite AmountOf_NewCoin, decide_True in Hle.
  - intros c g spender from to d n c' g' Hd Hne. cbn in Hd. unfold toy_dispatch in Hd.
    change grants with grant_map in g, g'.
    destruct (g !! (spender, from, SendMsgURL)) as [[[limit l| | | |] e]|] eqn:Hg; [|done..]. destruct (coins_Sub _ _) as [rest| |] eqn:Hsub; [|done..].
    apply bind_Ok_inv in Hd as (c1 & Hc & [= <- <-]). split; [done|]. exists limit, l, e, rest. split; [done|].
    split; [done|]. intros x y url. cbn.
    destruct (bool_decide _); [rewrite lookup_delete|rewrite lookup_insert];
      repeat case_decide; try done; exfalso; naive_solver.
Qed.

Lemma toy_approvals : approval_laws toy_token.
Proof. split; try done; by eexists. Qed.

(** Account 7 has 100 and lets account 8 spend 30. *)
Definition toy_grants : grant_map := {[ (8, 7, SendMsgURL) := (SendAuthorization (NewCoin "aego" 30) [], None) ]}.
Definition toy_state : pc_state := mkPcState (New toy_config) toy_evm_store toy_grants.

Lemma one_grant_ok s o limit l e :
  coins_valid limit → grants_ok ({[ (s, o, SendMsgURL) := (SendAuthorization limit l, e) ]} : grant_map).
Proof.
  intros Hv s' o' limit' l' e' Hg. unfold az_GetAuthorization, toy_authz in Hg.
  apply lookup_singleton_Some in Hg as [_ Hg]. by injection Hg as <- _ _.
Qed.

Lemma toy_grants_ok : grants_ok (pc_grants toy_state).
Proof. apply one_grant_ok, NewCoin_valid. lia. Qed.

Lemma toy_unsigned name data args : ab_Unpack (tk_abi toy_token) name data = Some args → unsigned args.
Proof.
  cbn. intros Hu n Hn. repeat case_match; simplify_eq; rewrite ?elem_of_cons, ?elem_of_nil in Hn;
    destruct_or?; simplify_eq; lia.
Qed.

(** Account 8 sends 20 of account 7's coins to account 9. *)
Definition toy_call : Contract := mkContract 8 100 0 [1; 0; 0; 0; 7; 9; 20] 5000.

(** What account 9 has and account 8 may spend afterwards. *)
Definition toy_outcome (r : pc_result (list byte * pc_state * Z)) : option (Z * Z) :=
  match r with
  | Ok (_, st', _) =>
      Some (bank_GetBalance (ek_chain (pc_store st')) 9 "aego", allowance_in toy_token (pc_grants st') 7 8)
  | _ => None
  end.

Lemma toy_outcome_inv r b a :
  toy_outcome r = Some (b, a) → ∃ bz st' left, r = Ok (bz, st', left) ∧
    bank_GetBalance (ek_chain (pc_store st')) 9 "aego" = b ∧ allowance_in toy_token (pc_grants st') 7 8 = a.
Proof. destruct r as [[[bz st'] left]| |]; [|done..]. intros Ho. unfold toy_outcome in Ho. injection Ho as <- <-. by exists bz, st', left. Qed.

Lemma toy_call_outcome : toy_outcome (token_Run toy_token toy_call false 0 10 toy_state) = Some (20, 10).
Proof. vm_compute. reflexivity. Qed.

Lemma token_refines_witness :
  ∃ bz st' left, token_Run toy_token toy_call false 0 10 toy_state = Ok (bz, st', left) ∧
    grants_ok (pc_grants st') ∧
    bank_GetBalance (ek_chain (pc_store st')) 9 "aego" = 20 ∧ allowance_in toy_token (pc_grants st') 7 8 = 10.
Proof.
  destruct (toy_outcome_inv _ _ _ toy_call_outcome) as (bz & st' & left & Hr & Hb & Ha).
  destruct (token_refines toy_token toy_slices toy_sends toy_call false 0 10 toy_state bz st' left
    toy_unsigned toy_grants_ok Hr) as (name & args & _ & _ & _ & _ & Hok & _).
  exists bz, st', left. split; [exact Hr|]. split; [exact Hok|]. split; [exact Hb|exact Ha].
Defined.

Lemma approve_succeeds_witness :
  ∃ bz st', Approve toy_token (mkContract 7 100 0 [] 5000) [VAddress 8; VBig 55] toy_state = Ok (bz, st') ∧
    Allowance toy_token [VAddress 7; VAddress 8] (pc_grants st') = Ok 55.
Proof.
  apply (approve_succeeds toy_token toy_slices toy_approvals (mkContract 7 100 0 [] 5000) 8 55 toy_state).
  - discriminate.
  - lia.
  - reflexivity.
  - exact toy_grants_ok.
  - split; [by apply NewCoin_valid|]. split; [constructor|done].
Defined.

(** The caller's frame reverts after the call: the state database is undone, logs
    included, and the coins stay where the call sent them. *)
Definition reverted_outcome : option (nat * Z) :=
  let '(id, sdb) := Snapshot (pc_stateDB toy_state) in
  match token_Run toy_token toy_call false 0 10 (with_stateDB sdb toy_state) with
  | Ok (_, st', _) =>
      match RevertToSnapshot toy_keccak toy_evm_store id (pc_stateDB st') with
      | Ok sdb => Some (length (sdb_logs sdb), bank_GetBalance (ek_chain (pc_store (with_stateDB sdb st'))) 9 "aego")
      | _ => None
      end
  | _ => None
  end.

Lemma revert_keeps_transfer : reverted_outcome = Some (0%nat, 20).
Proof. vm_compute. reflexivity. Qed.

End TokenToy.
