(* ===== verification/StakingPrecompile.v ===== *)
(** * The staking precompile: [precompiles/staking]

    Contracts delegate, undelegate, redelegate and cancel unbondings through it, with a
    stake authorization of the origin of the transaction when the caller is not the
    origin.  The message server, the keeper of the staking module and stake
    authorizations are fields of [staking_env].  A delegator is written as its address;
    the source has its Bech32 form.  Of the queries only [allowance] is here. *)

From S2P Require Import Prelude Sdk AccessList StateDB EvmKeeper EvmTx Precompile.

Inductive staking_msg :=
| MsgDelegate (delegator : Address) (validator : string) (amount : string * Z)
| MsgUndelegate (delegator : Address) (validator : string) (amount : string * Z)
| MsgBeginRedelegate (delegator : Address) (src dst : string) (amount : string * Z)
| MsgCancelUnbondingDelegation (delegator : Address) (validator : string) (amount : string * Z) (CreationHeight : Z)
| MsgCreateValidator (description : list string) (commission : list Z) (MinSelfDelegation : Z)
    (validator : Address) (pubkey : list byte) (value : string * Z).

Section StakingPrecompile.
Context `{EE : EvmEnv} `{AK : !AuthzKeeper}.

Record staking_env := mkStakingEnv {
  sp_abi : abi_env;
  sp_keccak : list byte → Hash;
  sp_GasConfig : GasConfig;
  sp_ApprovalExpiration : Z;
  sp_BlockTime : Z;
  sp_BondDenom : chain → string;
  (** the validators in the order of the store: the operator, and whether it is jailed *)
  sp_IterateValidators : chain → list (string * bool);
  sp_NewStakeAuthorization : list string → AuthorizationType → option (string * Z) → outcome string authorization;
  sp_AuthorizationValidateBasic : authorization → outcome string ();
  (** [StakeAuthorization.Accept]: the updated authorization, nothing to delete it *)
  sp_Accept : authorization → staking_msg → outcome string (option authorization);
  sp_MsgValidateBasic : staking_msg → outcome string ();
  (** the message server, with the completion time of the response *)
  sp_MsgServer : chain → staking_msg → outcome string (Z * chain);
  sp_ValAddressFromBech32 : string → outcome string Address;
  (** [GetValidator] and [SharesFromTokens] *)
  sp_SharesFromTokens : chain → Address → Z → outcome string Z
}.

Variable p : staking_env.

Definition staking_Address : Address := 0x800.

Definition pc_chain (st : pc_state) : chain := ek_chain (pc_store st).

(** ** Messages: [types.go] *)

Definition checkDelegationUndelegationArgs (args : list abi_value) : pc_result (Address * string * Z) :=
  match args with
  | [a; b; c] =>
      match a with
      | VAddress delegator =>
          if delegator =? 0 then Err PErrInvalid
          else match b, c with VString validator, VBig amount => Ok (delegator, validator, amount) | _, _ => Err PErrArgs end
      | _ => Err PErrInvalid
      end
  | _ => Err PErrArgs
  end.

(** The message after [ValidateBasic]. *)
Definition validated (msg : staking_msg) : pc_result staking_msg :=
  _ ← of_sdk (sp_MsgValidateBasic p msg); Ok msg.

Definition NewMsgDelegate (args : list abi_value) (denom : string) : pc_result (staking_msg * Address * string * Z) :=
  '(delegator, validator, amount) ← checkDelegationUndelegationArgs args;
  n ← of_total (NewIntFromBigInt amount);
  msg ← validated (MsgDelegate delegator validator (denom, n));
  Ok (msg, delegator, validator, n).

Definition NewMsgUndelegate (args : list abi_value) (denom : string) : pc_result (staking_msg * Address * string * Z) :=
  '(delegator, validator, amount) ← checkDelegationUndelegationArgs args;
  n ← of_total (NewIntFromBigInt amount);
  msg ← validated (MsgUndelegate delegator validator (denom, n));
  Ok (msg, delegator, validator, n).

Definition NewMsgRedelegate (args : list abi_value) (denom : string) :
    pc_result (staking_msg * Address * string * string * Z) :=
  match args with
  | [VAddress delegator; VString src; VString dst; VBig amount] =>
      if delegator =? 0 then Err PErrInvalid
      else
        n ← of_total (NewIntFromBigInt amount);
        msg ← validated (MsgBeginRedelegate delegator src dst (denom, n));
        Ok (msg, delegator, src, dst, n)
  | _ => Err PErrArgs
  end.

(** [creationHeight.Int64()] keeps the low 64 bits. *)
Definition NewMsgCancelUnbondingDelegation (args : list abi_value) (denom : string) :
    pc_result (staking_msg * Address * string * Z * Z) :=
  match args with
  | [VAddress delegator; VString validator; VBig amount; VBig creationHeight] =>
      if delegator =? 0 then Err PErrInvalid
      else
        n ← of_total (NewIntFromBigInt amount);
        msg ← validated (MsgCancelUnbondingDelegation delegator validator (denom, n) (i64 creationHeight));
        Ok (msg, delegator, validator, n, i64 creationHeight)
  | _ => Err PErrArgs
  end.

(** [base64.StdEncoding.DecodeString]: line breaks are skipped, the last group of four
    may end in one or two padding characters. *)
Definition base64_digit (c : Ascii.ascii) : option Z :=
  let n := Z.of_nat (Ascii.nat_of_ascii c) in
  if (65 <=? n) && (n <=? 90) then Some (n - 65)
  else if (97 <=? n) && (n <=? 122) then Some (n - 71)
  else if (48 <=? n) && (n <=? 57) then Some (n + 4)
  else if n =? 43 then Some 62
  else if n =? 47 then Some 63
  else None.
Definition is_padding (c : Ascii.ascii) : bool := (Ascii.nat_of_ascii c =? 61)%nat.
Definition is_break (c : Ascii.ascii) : bool := (Ascii.nat_of_ascii c =? 10)%nat || (Ascii.nat_of_ascii c =? 13)%nat.

Fixpoint base64_groups (l : list Ascii.ascii) : option (list byte) :=
  match l with
  | [] => Some []
  | a :: b :: c :: d :: rest =>
      x ← base64_digit a; y ← base64_digit b;
      let first := x * 4 + y / 16 in
      if is_padding c && is_padding d && bool_decide (rest = []) then Some [first]
      else
        z ← base64_digit c;
        let second := (y mod 16) * 16 + z / 4 in
        if is_padding d && bool_decide (rest = []) then Some [first; second]
        else
          w ← base64_digit d;
          tail ← base64_groups rest;
          Some (first :: second :: (z mod 4) * 64 + w :: tail)
  | _ => None
  end.
Definition DecodeString (s : string) : option (list byte) :=
  base64_groups (filter (λ c, is_break c = false) (String.list_ascii_of_string s)).

Definition PubKeySize : nat := 32.

Definition NewMsgCreateValidator (args : list abi_value) (denom : string) : pc_result (staking_msg * Address * Z) :=
  match args with
  | [VDescription moniker identity website contact details; VCommission rate maxRate maxChange; VBig minSelfDelegation;
     VAddress validator; VString pubkey; VBig value] =>
      if validator =? 0 then Err PErrInvalid
      else
        match DecodeString pubkey with
        | None => Err PErrArgs
        | Some key =>
            if negb (length key =? PubKeySize)%nat then Err PErrArgs
            else
              m ← of_total (NewIntFromBigInt minSelfDelegation);
              n ← of_total (NewIntFromBigInt value);
              msg ← validated (MsgCreateValidator [moniker; identity; website; contact; details]
                                 [rate; maxRate; maxChange] m validator key (denom, n));
              Ok (msg, validator, n)
        end
  | _ => Err PErrArgs
  end.

(** ** Events: [events.go] *)

Definition add_log (event : string) (topics : list Hash) (data : list byte) (st : pc_state) : pc_state :=
  with_stateDB (AddLog (mkLog staking_Address (ab_EventID (sp_abi p) event :: topics) data 0 0 0 0) (pc_stateDB st)) st.

Definition createStakingTxTopics (delegator validator : Address) : pc_result (list Hash) :=
  t1 ← MakeTopic (sp_abi p) (VAddress delegator);
  t2 ← MakeTopic (sp_abi p) (VAddress validator);
  Ok [t1; t2].

Definition EmitApprovalEvent (grantee granter : Address) (coin : option (string * Z)) (typeURLs : list string)
    (st : pc_state) : pc_result pc_state :=
  let value := match coin with None => MaxUint256 | Some (_, n) => n end in
  sdb ← emit_event (sp_abi p) staking_Address "Approval" (VAddress grantee) (VAddress granter)
          [VStrings typeURLs; VBig value] (pc_stateDB st);
  Ok (with_stateDB sdb st).

(** The limits the grants have now; a grant that is gone is a nil dereference. *)
Fixpoint new_values (g : grants) (grantee granter : Address) (typeURLs : list string) : pc_result (list Z) :=
  match typeURLs with
  | [] => Ok []
  | url :: rest =>
      match az_GetAuthorization g grantee granter url with
      | Some (StakeAuthorization _ max _, _) =>
          l ← new_values g grantee granter rest;
          Ok (match max with None => MaxUint256 | Some (_, n) => n end :: l)
      | _ => Panic
      end
  end.

Definition EmitAllowanceChangeEvent (grantee granter : Address) (typeURLs : list string) (st : pc_state) :
    pc_result pc_state :=
  values ← new_values (pc_grants st) grantee granter typeURLs;
  sdb ← emit_event (sp_abi p) staking_Address "AllowanceChange" (VAddress grantee) (VAddress granter)
          [VStrings typeURLs; VBigs values] (pc_stateDB st);
  Ok (with_stateDB sdb st).

Definition EmitRevocationEvent (grantee granter : Address) (typeURLs : list string) (st : pc_state) : pc_result pc_state :=
  sdb ← emit_event (sp_abi p) staking_Address "Revocation" (VAddress grantee) (VAddress granter)
          [VStrings typeURLs] (pc_stateDB st);
  Ok (with_stateDB sdb st).

Definition EmitCreateValidatorEvent (validator : Address) (value : Z) (st : pc_state) : pc_result pc_state :=
  t ← MakeTopic (sp_abi p) (VAddress validator);
  Ok (add_log "CreateValidator" [t] (PackNum value) st).

Definition EmitDelegateEvent (delegator : Address) (validator : string) (amount : Z) (st : pc_state) : pc_result pc_state :=
  valAddr ← of_sdk (sp_ValAddressFromBech32 p validator);
  newShares ← of_sdk (sp_SharesFromTokens p (pc_chain st) valAddr amount);
  topics ← createStakingTxTopics delegator valAddr;
  Ok (add_log "Delegate" topics (PackNum amount ++ PackNum newShares) st).

Definition EmitUnbondEvent (delegator : Address) (validator : string) (amount completionTime : Z) (st : pc_state) :
    pc_result pc_state :=
  valAddr ← of_sdk (sp_ValAddressFromBech32 p validator);
  topics ← createStakingTxTopics delegator valAddr;
  Ok (add_log "Unbond" topics (PackNum amount ++ PackNum completionTime) st).

Definition EmitRedelegateEvent (delegator : Address) (src dst : string) (amount completionTime : Z) (st : pc_state) :
    pc_result pc_state :=
  srcAddr ← of_sdk (sp_ValAddressFromBech32 p src);
  dstAddr ← of_sdk (sp_ValAddressFromBech32 p dst);
  topics ← createStakingTxTopics delegator srcAddr;
  t ← MakeTopic (sp_abi p) (VAddress dstAddr);
  Ok (add_log "Redelegate" (topics ++ [t]) (PackNum amount ++ PackNum completionTime) st).

Definition EmitCancelUnbondingDelegationEvent (delegator : Address) (validator : string) (amount creationHeight : Z)
    (st : pc_state) : pc_result pc_state :=
  valAddr ← of_sdk (sp_ValAddressFromBech32 p validator);
  topics ← createStakingTxTopics delegator valAddr;
  Ok (add_log "CancelUnbondingDelegation" topics (PackNum amount ++ PackNum creationHeight) st).

(** ** Authorizations: [approve.go] *)

Definition convertMsgToAuthz (url : string) : option AuthorizationType :=
  if decide (url = DelegateMsg) then Some AuthDelegate
  else if decide (url = UndelegateMsg) then Some AuthUndelegate
  else if decide (url = RedelegateMsg) then Some AuthRedelegate
  else if decide (url = CancelUnbondingDelegationMsg) then Some AuthCancelUnbonding
  else None.

(** Every validator that is not jailed is allowed. *)
Definition createStakingAuthz (grantee granter : Address) (coin : option (string * Z)) (kind : AuthorizationType)
    (c : chain) (g : grants) : pc_result grants :=
  let validators := (filter (λ v, v.2 = false) (sp_IterateValidators p c)).*1 in
  a ← of_sdk (sp_NewStakeAuthorization p validators kind coin);
  _ ← of_sdk (sp_AuthorizationValidateBasic p a);
  of_sdk (az_SaveGrant g grantee granter a (Some (sp_BlockTime p + sp_ApprovalExpiration p))).

Definition grantOrDeleteStakingAuthz (grantee granter : Address) (coin : option (string * Z)) (kind : AuthorizationType)
    (c : chain) (g : grants) : pc_result grants :=
  match coin with
  | None => createStakingAuthz grantee granter coin kind c g
  | Some (_, n) =>
      if n <=? 0 then of_sdk (az_DeleteGrant g grantee granter (stake_URL kind))
      else createStakingAuthz grantee granter coin kind c g
  end.

(** [coin] is nil for the largest amount: using it is a nil dereference. *)
Definition staking_decreaseAllowance (grantee granter : Address) (coin : option (string * Z)) (kind : AuthorizationType)
    (max : option (string * Z)) (validators : list string) (expiration : option Z) (g : grants) : pc_result grants :=
  match max with
  | None => Ok g
  | Some (d, limit) =>
      match coin with
      | None => Panic
      | Some (_, n) =>
          if limit <? n then Err PErrDecreaseTooBig
          else of_sdk (az_SaveGrant g grantee granter (StakeAuthorization kind (Some (d, limit - n)) validators) expiration)
      end
  end.

(** [Amount.Add] panics above 256 bits. *)
Definition staking_increaseAllowance (grantee granter : Address) (coin : option (string * Z)) (url : string)
    (g : grants) : pc_result grants :=
  '(a, expiration) ← CheckAuthzExists g grantee granter url;
  match a with
  | StakeAuthorization kind max validators =>
      match max with
      | None => Ok g
      | Some (d, limit) =>
          match coin with
          | None => Panic
          | Some (_, n) =>
              sum ← of_total (NewIntFromBigInt (limit + n));
              of_sdk (az_SaveGrant g grantee granter (StakeAuthorization kind (Some (d, sum)) validators) expiration)
          end
      end
  | _ => Err PErrUnknownAuthorizationType
  end.

(** The loops over the message types. *)
Fixpoint approve_all (grantee origin : Address) (coin : option (string * Z)) (typeURLs : list string) (c : chain)
    (g : grants) : pc_result grants :=
  match typeURLs with
  | [] => Ok g
  | url :: rest =>
      match convertMsgToAuthz url with
      | None => Err PErrInvalidMsgType
      | Some kind => g ← grantOrDeleteStakingAuthz grantee origin coin kind c g; approve_all grantee origin coin rest c g
      end
  end.

Fixpoint revoke_all (grantee origin : Address) (typeURLs : list string) (g : grants) : pc_result grants :=
  match typeURLs with
  | [] => Ok g
  | url :: rest =>
      match convertMsgToAuthz url with
      | None => Err PErrInvalidMsgType
      | Some _ => g ← of_sdk (az_DeleteGrant g grantee origin url); revoke_all grantee origin rest g
      end
  end.

Fixpoint decrease_all (grantee origin : Address) (coin : option (string * Z)) (typeURLs : list string) (g : grants) :
    pc_result grants :=
  match typeURLs with
  | [] => Ok g
  | url :: rest =>
      match convertMsgToAuthz url with
      | None => Err PErrInvalidMsgType
      | Some _ =>
          '(a, expiration) ← CheckAuthzExists g grantee origin url;
          match a with
          | StakeAuthorization kind max validators =>
              g ← staking_decreaseAllowance grantee origin coin kind max validators expiration g;
              decrease_all grantee origin coin rest g
          | _ => Err PErrUnknownAuthorizationType
          end
      end
  end.

(** Here the authorization to cancel an unbonding is not among the types. *)
Definition increasable (url : string) : bool := bool_decide (url ∈ [DelegateMsg; UndelegateMsg; RedelegateMsg]).
Fixpoint increase_all (grantee origin : Address) (coin : option (string * Z)) (typeURLs : list string) (g : grants) :
    pc_result grants :=
  match typeURLs with
  | [] => Ok g
  | url :: rest =>
      if increasable url then
        g ← staking_increaseAllowance grantee origin coin url g; increase_all grantee origin coin rest g
      else Err PErrInvalidMsgType
  end.

Definition success (st : pc_state) : pc_result (list byte * pc_state) :=
  bz ← pack (sp_abi p) [VBool true]; Ok (bz, st).

Definition staking_Approve (origin : Address) (args : list abi_value) (st : pc_state) : pc_result (list byte * pc_state) :=
  '(grantee, coin, typeURLs) ← CheckApprovalArgs args (sp_BondDenom p (pc_chain st));
  g ← approve_all grantee origin coin typeURLs (pc_chain st) (pc_grants st);
  st ← EmitApprovalEvent grantee origin coin typeURLs (with_grants g st);
  success st.

Definition staking_Revoke (origin : Address) (args : list abi_value) (st : pc_state) : pc_result (list byte * pc_state) :=
  '(grantee, typeURLs) ← CheckRevokeArgs args;
  g ← revoke_all grantee origin typeURLs (pc_grants st);
  st ← EmitRevocationEvent grantee origin typeURLs (with_grants g st);
  success st.

Definition staking_DecreaseAllowance (origin : Address) (args : list abi_value) (st : pc_state) :
    pc_result (list byte * pc_state) :=
  '(grantee, coin, typeURLs) ← CheckApprovalArgs args (sp_BondDenom p (pc_chain st));
  g ← decrease_all grantee origin coin typeURLs (pc_grants st);
  st ← EmitAllowanceChangeEvent grantee origin typeURLs (with_grants g st);
  success st.

Definition staking_IncreaseAllowance (origin : Address) (args : list abi_value) (st : pc_state) :
    pc_result (list byte * pc_state) :=
  '(grantee, coin, typeURLs) ← CheckApprovalArgs args (sp_BondDenom p (pc_chain st));
  g ← increase_all grantee origin coin typeURLs (pc_grants st);
  st ← EmitAllowanceChangeEvent grantee origin typeURLs (with_grants g st);
  success st.

Definition UpdateStakingAuthorization (grantee granter : Address) (a : authorization) (expiration : option Z)
    (messageType : string) (msg : staking_msg) (g : grants) : pc_result grants :=
  updated ← of_sdk (sp_Accept p a msg);
  match updated with
  | None => of_sdk (az_DeleteGrant g grantee granter messageType)
  | Some a => of_sdk (az_SaveGrant g grantee granter a expiration)
  end.

(** ** Transactions: [tx.go] *)

(** Whose grants are used: those of the origin.  A caller that names itself as the
    delegator is read as the origin from here on; the message keeps the caller. *)
Definition resolve_delegator (caller origin delegator : Address) : pc_result Address :=
  if decide (caller = delegator) then Ok origin
  else if decide (origin = delegator) then Ok delegator
  else Err PErrDifferentOrigin.

(** The authorization, unless the caller is the origin. *)
Definition check_authorization (caller origin granter : Address) (amount : Z) (url : string) (g : grants) :
    pc_result (option (authorization * option Z)) :=
  if decide (caller = origin) then Ok None
  else
    '(kind, max, validators, expiration) ← CheckAuthzAndAllowanceForGranter g caller granter amount url;
    Ok (Some (StakeAuthorization kind max validators, expiration)).

Definition update_authorization (caller granter : Address) (x : option (authorization * option Z)) (url : string)
    (msg : staking_msg) (g : grants) : pc_result grants :=
  match x with
  | None => Ok g
  | Some (a, expiration) => UpdateStakingAuthorization caller granter a expiration url msg g
  end.

(** What the four transactions share: the check, the message, the update. *)
Definition execute_staking (caller origin delegator : Address) (amount : Z) (url : string) (msg : staking_msg)
    (st : pc_state) : pc_result (Address * Z * pc_state) :=
  granter ← resolve_delegator caller origin delegator;
  x ← check_authorization caller origin granter amount url (pc_grants st);
  '(completionTime, c) ← of_sdk (sp_MsgServer p (pc_chain st) msg);
  g ← update_authorization caller granter x url msg (pc_grants st);
  Ok (granter, completionTime, with_grants g (with_chain c st)).

Definition Delegate (origin : Address) (contract : Contract) (args : list abi_value) (st : pc_state) :
    pc_result (list byte * pc_state) :=
  let caller := ct_CallerAddress contract in
  '(msg, delegator, validator, n) ← NewMsgDelegate args (sp_BondDenom p (pc_chain st));
  '(granter, _, st) ← execute_staking caller origin delegator n DelegateMsg msg st;
  st ← EmitDelegateEvent granter validator n st;
  let st := if decide (caller = delegator)
            then with_stateDB (SubBalance (sp_keccak p) (pc_store st) caller n (pc_stateDB st)) st else st in
  success st.

Definition Undelegate (origin : Address) (contract : Contract) (args : list abi_value) (st : pc_state) :
    pc_result (list byte * pc_state) :=
  '(msg, delegator, validator, n) ← NewMsgUndelegate args (sp_BondDenom p (pc_chain st));
  '(granter, completionTime, st) ← execute_staking (ct_CallerAddress contract) origin delegator n UndelegateMsg msg st;
  st ← EmitUnbondEvent granter validator n completionTime st;
  bz ← pack (sp_abi p) [VBig completionTime];
  Ok (bz, st).

Definition Redelegate (origin : Address) (contract : Contract) (args : list abi_value) (st : pc_state) :
    pc_result (list byte * pc_state) :=
  '(msg, delegator, src, dst, n) ← NewMsgRedelegate args (sp_BondDenom p (pc_chain st));
  '(granter, completionTime, st) ← execute_staking (ct_CallerAddress contract) origin delegator n RedelegateMsg msg st;
  st ← EmitRedelegateEvent granter src dst n completionTime st;
  bz ← pack (sp_abi p) [VBig completionTime];
  Ok (bz, st).

Definition CancelUnbondingDelegation (origin : Address) (contract : Contract) (args : list abi_value) (st : pc_state) :
    pc_result (list byte * pc_state) :=
  '(msg, delegator, validator, n, height) ← NewMsgCancelUnbondingDelegation args (sp_BondDenom p (pc_chain st));
  '(granter, _, st) ← execute_staking (ct_CallerAddress contract) origin delegator n CancelUnbondingDelegationMsg msg st;
  st ← EmitCancelUnbondingDelegationEvent granter validator n height st;
  success st.

Definition CreateValidator (origin : Address) (args : list abi_value) (st : pc_state) : pc_result (list byte * pc_state) :=
  '(msg, validator, n) ← NewMsgCreateValidator args (sp_BondDenom p (pc_chain st));
  if decide (origin = validator) then
    '(_, c) ← of_sdk (sp_MsgServer p (pc_chain st) msg);
    st ← EmitCreateValidatorEvent validator n (with_chain c st);
    success st
  else Err PErrDifferentOrigin.

(** ** Queries: [query.go] *)

Definition staking_Allowance (args : list abi_value) (g : grants) : pc_result Z :=
  '(grantee, granter, url) ← CheckAllowanceArgs args;
  match az_GetAuthorization g grantee granter url with
  | None => Ok 0
  | Some (StakeAuthorization _ max _, _) => Ok (match max with None => MaxUint256 | Some (_, n) => n end)
  | Some _ => Err PErrArgs
  end.

(** ** The contract: [staking.go] *)

Definition staking_IsTransaction (name : string) : bool :=
  bool_decide (name ∈ ["createValidator"; "delegate"; "undelegate"; "redelegate"; "cancelUnbondingDelegation";
                       "approve"; "revoke"; "increaseAllowance"; "decreaseAllowance"]%string).

Definition staking_RequiredGas : list byte → partial Z :=
  contract_RequiredGas (sp_abi p) (sp_GasConfig p) staking_IsTransaction.

(** The queries other than [allowance], which write nothing. *)
Variable staking_query : string → list abi_value → chain → pc_result (list byte).

Definition staking_method (name : string) (origin : Address) (contract : Contract) (args : list abi_value)
    (st : pc_state) : pc_result (list byte * pc_state) :=
  if decide (name = "approve"%string) then staking_Approve origin args st
  else if decide (name = "revoke"%string) then staking_Revoke origin args st
  else if decide (name = "increaseAllowance"%string) then staking_IncreaseAllowance origin args st
  else if decide (name = "decreaseAllowance"%string) then staking_DecreaseAllowance origin args st
  else if decide (name = "createValidator"%string) then CreateValidator origin args st
  else if decide (name = "delegate"%string) then Delegate origin contract args st
  else if decide (name = "undelegate"%string) then Undelegate origin contract args st
  else if decide (name = "redelegate"%string) then Redelegate origin contract args st
  else if decide (name = "cancelUnbondingDelegation"%string) then CancelUnbondingDelegation origin contract args st
  else if decide (name = "allowance"%string) then
    n ← staking_Allowance args (pc_grants st); bz ← pack (sp_abi p) [VBig n]; Ok (bz, st)
  else bz ← staking_query name args (pc_chain st); Ok (bz, st).

(** The state database is written to the stores before the method runs. *)
Definition committed (st : pc_state) : pc_result pc_state :=
  match StateDB.Commit (pc_store st) (pc_stateDB st) with
  | Ok s => Ok (mkPcState (pc_stateDB st) s (pc_grants st))
  | Err _ => Err PErrCommit
  | Panic => Panic
  end.

Definition staking_Run (origin : Address) (contract : Contract) (readOnly : bool) (initialGas finalGas : Z)
    (st : pc_state) : pc_result (list byte * pc_state * Z) :=
  '(m, args) ← RunSetup (sp_abi p) contract readOnly staking_IsTransaction initialGas;
  charge contract initialGas finalGas (st ← committed st; staking_method (me_Name m) origin contract args st).

End StakingPrecompile.
