(* ===== verification/StakingPrecompileSpec.v ===== *)
(** * What the staking precompile promises: [precompiles/staking]

    Only grants of the origin of the transaction are ever written
    ([only_origin_grants]).  A staking message is for the caller or for the origin, and
    one that another contract sends is covered by an authorization of the origin and
    taken off its limit ([staking_authorised]).  What the final commit of the state
    database leaves a delegator is what the database said, less the amount only when the
    delegator is the caller ([delegate_committed_balance]); an account that a contract
    delegates for keeps the amount when it was written before
    ([delegation_for_origin_mints]). *)

From S2P Require Import Prelude Sdk AccessList StateDB Journal StateDBSpec Commit EvmKeeper EvmKeeperSpec EvmTx EvmTxSpec GasMeter EvmApply EvmQuery Erc20 Precompile PrecompileSpec Erc20Precompile Erc20PrecompileSpec StakingPrecompile.

Section Authorizations.
Context `{EE : EvmEnv} `{CL : !CoinsLaws} `{AK : !AuthzKeeper} `{AL : !AuthzLaws}.
Variable p : staking_env.
Variable query : string → list abi_value → chain → pc_result (list byte).

Lemma create_kept grantee origin coin kind c g g' :
  createStakingAuthz p grantee origin coin kind c g = Ok g' → others_kept origin g g'.
Proof.
  intros Hc. apply bind_Ok_inv in Hc as (a & _ & Hc). apply bind_Ok_inv in Hc as (_ & _ & Hc). by eapply save_kept.
Qed.

Lemma grant_kept grantee origin coin kind c g g' :
  grantOrDeleteStakingAuthz p grantee origin coin kind c g = Ok g' → others_kept origin g g'.
Proof.
  unfold grantOrDeleteStakingAuthz. intros Hg. destruct coin as [[d n]|]; [case_match|];
    eauto using create_kept, delete_kept.
Qed.

Lemma approve_kept grantee origin coin urls c g g' :
  approve_all p grantee origin coin urls c g = Ok g' → others_kept origin g g'.
Proof.
  revert g. induction urls as [|url urls IH]; intros g; cbn [approve_all]; [by intros [= <-]|].
  destruct (convertMsgToAuthz url) as [ty|]; [|done]. intros Ha. apply bind_Ok_inv in Ha as (g1 & Hg%grant_kept & Ha).
  etransitivity; [exact Hg|by apply IH].
Qed.

Lemma revoke_kept grantee origin urls g g' : revoke_all grantee origin urls g = Ok g' → others_kept origin g g'.
Proof.
  revert g. induction urls as [|url urls IH]; intros g; cbn [revoke_all]; [by intros [= <-]|].
  destruct (convertMsgToAuthz url) as [ty|]; [|done]. intros Ha. apply bind_Ok_inv in Ha as (g1 & Hg%delete_kept & Ha).
  etransitivity; [exact Hg|by apply IH].
Qed.

Lemma decrease_kept grantee origin coin urls g g' :
  decrease_all grantee origin coin urls g = Ok g' → others_kept origin g g'.
Proof.
  revert g. induction urls as [|url urls IH]; intros g; cbn [decrease_all]; [by intros [= <-]|].
  destruct (convertMsgToAuthz url) as [ty|]; [|done]. intros Ha. apply bind_Ok_inv in Ha as ([a e] & _ & Ha).
  destruct a as [|kind max l| | |]; [done| |done..]. apply bind_Ok_inv in Ha as (g1 & Hg & Ha).
  transitivity g1; [|by apply IH]. unfold staking_decreaseAllowance in Hg. case_guards Hg; [by eapply save_kept|].
  by injection Hg as <-.
Qed.

Lemma increase_kept grantee origin coin urls g g' :
  increase_all grantee origin coin urls g = Ok g' → others_kept origin g g'.
Proof.
  revert g. induction urls as [|url urls IH]; intros g; cbn [increase_all]; [by intros [= <-]|].
  destruct (increasable url); [|done]. intros Ha. apply bind_Ok_inv in Ha as (g1 & Hg & Ha).
  transitivity g1; [|by apply IH]. apply bind_Ok_inv in Hg as ([a e] & _ & Hg).
  destruct a as [|kind [[d n]|] l| | |]; [done| |by injection Hg as <-|done..].
  destruct coin as [[d' m]|]; [|done]. apply bind_Ok_inv in Hg as (sum & _ & Hg). by eapply save_kept.
Qed.

Lemma resolve_origin caller origin delegator granter :
  resolve_delegator caller origin delegator = Ok granter → granter = origin ∧ (delegator = caller ∨ delegator = origin).
Proof. unfold resolve_delegator. repeat case_decide; intros [= <-]; subst; auto. Qed.

Lemma update_kept caller origin x url msg g g' :
  update_authorization p caller origin x url msg g = Ok g' → others_kept origin g g'.
Proof.
  unfold update_authorization, UpdateStakingAuthorization. intros Hu.
  destruct x as [[a e]|]; [|by injection Hu as <-]. apply bind_Ok_inv in Hu as ([a'|] & _ & Hu);
    eauto using save_kept, delete_kept.
Qed.

(** A method changes the grants of the origin only, whatever it does to the rest. *)
Definition kept (origin : Address) (st st' : pc_state) : Prop := others_kept origin (pc_grants st) (pc_grants st').

Lemma execute_kept caller origin delegator n url msg st granter t st' :
  execute_staking p caller origin delegator n url msg st = Ok (granter, t, st') → kept origin st st'.
Proof.
  intros He. apply bind_Ok_inv in He as (gr & [-> _]%resolve_origin & He). apply bind_Ok_inv in He as (x & _ & He).
  apply bind_Ok_inv in He as ([t1 c] & _ & He). apply bind_Ok_inv in He as (g & Hg%update_kept & [= _ _ <-]). exact Hg.
Qed.

(** Events leave grants and stores alone. *)
Definition only_logs (st st' : pc_state) : Prop := pc_grants st' = pc_grants st ∧ pc_store st' = pc_store st.

Lemma event_only_logs {A} (m : pc_result A) (f : A → StateDB) st st' :
  (x ← m; Ok (with_stateDB (f x) st)) = Ok st' → only_logs st st'.
Proof. intros He. by apply bind_Ok_inv in He as (x & _ & [= <-]). Qed.

Lemma success_inv st bz st' : success p st = Ok (bz, st') → st' = st.
Proof. intros Hs. by apply bind_Ok_inv in Hs as (? & _ & [= _ <-]). Qed.

Lemma delegate_event granter validator n st st' :
  EmitDelegateEvent p granter validator n st = Ok st' →
  only_logs st st' ∧ ∃ log, pc_stateDB st' = AddLog log (pc_stateDB st).
Proof.
  intros He. apply bind_Ok_inv in He as (va & _ & He). apply bind_Ok_inv in He as (sh & _ & He).
  apply bind_Ok_inv in He as (ts & _ & [= <-]). split; [done|]. by eexists.
Qed.

Lemma unbond_event granter validator n t st st' : EmitUnbondEvent p granter validator n t st = Ok st' → only_logs st st'.
Proof.
  intros He. apply bind_Ok_inv in He as (va & _ & He). by apply bind_Ok_inv in He as (ts & _ & [= <-]).
Qed.

Lemma redelegate_event granter src dst n t st st' :
  EmitRedelegateEvent p granter src dst n t st = Ok st' → only_logs st st'.
Proof.
  intros He. apply bind_Ok_inv in He as (va & _ & He). apply bind_Ok_inv in He as (vb & _ & He).
  apply bind_Ok_inv in He as (ts & _ & He). by apply bind_Ok_inv in He as (t1 & _ & [= <-]).
Qed.

Lemma cancel_event granter validator n h st st' :
  EmitCancelUnbondingDelegationEvent p granter validator n h st = Ok st' → only_logs st st'.
Proof.
  intros He. apply bind_Ok_inv in He as (va & _ & He). by apply bind_Ok_inv in He as (ts & _ & [= <-]).
Qed.

Lemma allowance_event grantee granter urls st st' :
  EmitAllowanceChangeEvent p grantee granter urls st = Ok st' → only_logs st st'.
Proof. intros He. apply bind_Ok_inv in He as (l & _ & He). by eapply event_only_logs in He. Qed.

(** ** The four staking messages *)

Definition msg_delegator (msg : staking_msg) : Address :=
  match msg with
  | MsgDelegate d _ _ | MsgUndelegate d _ _ | MsgBeginRedelegate d _ _ _ | MsgCancelUnbondingDelegation d _ _ _ => d
  | MsgCreateValidator _ _ _ d _ _ => d
  end.
Definition msg_amount (msg : staking_msg) : Z :=
  match msg with
  | MsgDelegate _ _ c | MsgUndelegate _ _ c | MsgBeginRedelegate _ _ _ c | MsgCancelUnbondingDelegation _ _ c _ => c.2
  | MsgCreateValidator _ _ _ _ _ c => c.2
  end.
Definition msg_url (msg : staking_msg) : string :=
  match msg with
  | MsgDelegate _ _ _ => DelegateMsg
  | MsgUndelegate _ _ _ => UndelegateMsg
  | MsgBeginRedelegate _ _ _ _ => RedelegateMsg
  | MsgCancelUnbondingDelegation _ _ _ _ => CancelUnbondingDelegationMsg
  | MsgCreateValidator _ _ _ _ _ _ => "/cosmos.staking.v1beta1.MsgCreateValidator"
  end.

(** The names of the methods that send a message for a delegator. *)
Definition staking_names : list string := ["delegate"; "undelegate"; "redelegate"; "cancelUnbondingDelegation"]%string.

(** A method ran one message on the stores and only logged afterwards. *)
Definition ran_message (origin caller : Address) (st st' : pc_state) : Prop :=
  ∃ msg granter t st1,
    execute_staking p caller origin (msg_delegator msg) (msg_amount msg) (msg_url msg) msg st = Ok (granter, t, st1) ∧
    only_logs st1 st'.

Lemma validated_inv msg msg' : validated p msg = Ok msg' → msg' = msg.
Proof. intros Hv. by apply bind_Ok_inv in Hv as (? & _ & [= <-]). Qed.

Lemma Delegate_ran origin ct args st bz st' :
  Delegate p origin ct args st = Ok (bz, st') → ran_message origin (ct_CallerAddress ct) st st'.
Proof.
  intros Hd. apply bind_Ok_inv in Hd as ([[[msg d] v] n] & Hm & Hd). apply bind_Ok_inv in Hd as ([[gr t] st1] & He & Hd).
  apply bind_Ok_inv in Hd as (st2 & [Hl _]%delegate_event & ->%success_inv).
  apply bind_Ok_inv in Hm as ([[d' v'] n'] & _ & Hm). apply bind_Ok_inv in Hm as (m & _ & Hm).
  apply bind_Ok_inv in Hm as (msg' & ->%validated_inv & [= <- <- <- <-]).
  eexists _, gr, t, st1. split; [exact He|]. case_decide; exact Hl.
Qed.

Lemma Undelegate_ran origin ct args st bz st' :
  Undelegate p origin ct args st = Ok (bz, st') → ran_message origin (ct_CallerAddress ct) st st'.
Proof.
  intros Hd. apply bind_Ok_inv in Hd as ([[[msg d] v] n] & Hm & Hd). apply bind_Ok_inv in Hd as ([[gr t] st1] & He & Hd).
  apply bind_Ok_inv in Hd as (st2 & Hl%unbond_event & Hd). apply bind_Ok_inv in Hd as (b & _ & [= _ <-]).
  apply bind_Ok_inv in Hm as ([[d' v'] n'] & _ & Hm). apply bind_Ok_inv in Hm as (m & _ & Hm).
  apply bind_Ok_inv in Hm as (msg' & ->%validated_inv & [= <- <- <- <-]).
  eexists _, gr, t, st1. by split; [exact He|].
Qed.

Lemma Redelegate_ran origin ct args st bz st' :
  Redelegate p origin ct args st = Ok (bz, st') → ran_message origin (ct_CallerAddress ct) st st'.
Proof.
  intros Hd. apply bind_Ok_inv in Hd as ([[[[msg d] v] w] n] & Hm & Hd).
  apply bind_Ok_inv in Hd as ([[gr t] st1] & He & Hd).
  apply bind_Ok_inv in Hd as (st2 & Hl%redelegate_event & Hd). apply bind_Ok_inv in Hd as (b & _ & [= _ <-]).
  unfold NewMsgRedelegate in Hm. case_guards Hm. apply bind_Ok_inv in Hm as (m & _ & Hm).
  apply bind_Ok_inv in Hm as (msg' & ->%validated_inv & [= <- <- <- <- <-]).
  eexists _, gr, t, st1. by split; [exact He|].
Qed.

Lemma Cancel_ran origin ct args st bz st' :
  CancelUnbondingDelegation p origin ct args st = Ok (bz, st') → ran_message origin (ct_CallerAddress ct) st st'.
Proof.
  intros Hd. apply bind_Ok_inv in Hd as ([[[[msg d] v] n] h] & Hm & Hd).
  apply bind_Ok_inv in Hd as ([[gr t] st1] & He & Hd).
  apply bind_Ok_inv in Hd as (st2 & Hl%cancel_event & ->%success_inv).
  unfold NewMsgCancelUnbondingDelegation in Hm. case_guards Hm. apply bind_Ok_inv in Hm as (m & _ & Hm).
  apply bind_Ok_inv in Hm as (msg' & ->%validated_inv & [= <- <- <- <- <-]).
  eexists _, gr, t, st1. by split; [exact He|].
Qed.

Lemma ran_kept origin caller st st' : ran_message origin caller st st' → kept origin st st'.
Proof. intros (msg & gr & t & st1 & He%execute_kept & [Hg _]). unfold kept in *. by rewrite Hg. Qed.

Lemma Approve_kept origin args st bz st' : staking_Approve p origin args st = Ok (bz, st') → kept origin st st'.
Proof.
  intros Ha. apply bind_Ok_inv in Ha as ([[grantee coin] urls] & _ & Ha). apply bind_Ok_inv in Ha as (g & Hg%approve_kept & Ha).
  apply bind_Ok_inv in Ha as (st1 & [He _]%event_only_logs & ->%success_inv). unfold kept. by rewrite He.
Qed.

Lemma Revoke_kept origin args st bz st' : staking_Revoke p origin args st = Ok (bz, st') → kept origin st st'.
Proof.
  intros Ha. apply bind_Ok_inv in Ha as ([grantee urls] & _ & Ha). apply bind_Ok_inv in Ha as (g & Hg%revoke_kept & Ha).
  apply bind_Ok_inv in Ha as (st1 & [He _]%event_only_logs & ->%success_inv). unfold kept. by rewrite He.
Qed.

Lemma Increase_kept origin args st bz st' : staking_IncreaseAllowance p origin args st = Ok (bz, st') → kept origin st st'.
Proof.
  intros Ha. apply bind_Ok_inv in Ha as ([[grantee coin] urls] & _ & Ha). apply bind_Ok_inv in Ha as (g & Hg%increase_kept & Ha).
  apply bind_Ok_inv in Ha as (st1 & [He _]%allowance_event & ->%success_inv). unfold kept. by rewrite He.
Qed.

Lemma Decrease_kept origin args st bz st' : staking_DecreaseAllowance p origin args st = Ok (bz, st') → kept origin st st'.
Proof.
  intros Ha. apply bind_Ok_inv in Ha as ([[grantee coin] urls] & _ & Ha). apply bind_Ok_inv in Ha as (g & Hg%decrease_kept & Ha).
  apply bind_Ok_inv in Ha as (st1 & [He _]%allowance_event & ->%success_inv). unfold kept. by rewrite He.
Qed.

Lemma Create_kept origin args st bz st' : CreateValidator p origin args st = Ok (bz, st') → pc_grants st' = pc_grants st.
Proof.
  intros Ha. apply bind_Ok_inv in Ha as ([[msg v] n] & _ & Ha). case_decide; [|done].
  apply bind_Ok_inv in Ha as ([t c] & _ & Ha). apply bind_Ok_inv in Ha as (st1 & He & ->%success_inv).
  by apply bind_Ok_inv in He as (tp & _ & [= <-]).
Qed.

Lemma method_kept name origin ct args st bz st' :
  staking_method p query name origin ct args st = Ok (bz, st') → kept origin st st'.
Proof.
  unfold staking_method. intros Hm.
  repeat (case_decide; [solve [eauto using Approve_kept, Revoke_kept, Increase_kept, Decrease_kept, ran_kept, Delegate_ran,
    Undelegate_ran, Redelegate_ran, Cancel_ran | unfold kept; by rewrite (Create_kept _ _ _ _ _ Hm)
    | by apply bind_Ok_inv in Hm as (n & _ & Hm); apply bind_Ok_inv in Hm as (b & _ & [= _ <-])]|]).
  by apply bind_Ok_inv in Hm as (b & _ & [= _ <-]).
Qed.

Lemma committed_grants st st' : committed st = Ok st' → pc_grants st' = pc_grants st.
Proof. unfold committed. case_match; intros [= <-]; done. Qed.

(** C11.  Whatever contract calls it, and with whatever arguments, the precompile writes no
    grant of anybody but the origin of the transaction. *)
Theorem only_origin_grants origin ct readOnly initialGas finalGas st bz st' left :
  staking_Run p query origin ct readOnly initialGas finalGas st = Ok (bz, st', left) →
  ∀ grantee granter url, granter ≠ origin →
    az_GetAuthorization (pc_grants st') grantee granter url = az_GetAuthorization (pc_grants st) grantee granter url.
Proof.
  intros Hr. apply bind_Ok_inv in Hr as ([m args] & _ & Hr). apply charge_inv in Hr as (Hr & _).
  apply bind_Ok_inv in Hr as (st1 & Hc%committed_grants & Hr%method_kept). unfold kept in Hr. by rewrite Hc in Hr.
Qed.

(** ** Limits *)

(** [Accept] takes the amount off a limit and gives up an authorization that is used up;
    one without a limit stays. *)
Definition accept_law : Prop := ∀ kind max l msg u,
  sp_Accept p (StakeAuthorization kind max l) msg = Ok u →
  match max with
  | None => u = Some (StakeAuthorization kind None l)
  | Some (d, limit) =>
      msg_amount msg <= limit ∧
      u = if limit =? msg_amount msg then None else Some (StakeAuthorization kind (Some (d, limit - msg_amount msg)) l)
  end.

(** The grant of [grantee] for a message type after [n] was used. *)
Definition used (max : option (string * Z)) (n : Z) (kind : AuthorizationType) (l : list string) (e : option Z) :
    option (authorization * option Z) :=
  match max with
  | None => Some (StakeAuthorization kind None l, e)
  | Some (d, limit) => if limit =? n then None else Some (StakeAuthorization kind (Some (d, limit - n)) l, e)
  end.

(** The caller has a stake authorization of the origin that covers the amount, and is
    charged for it; no other grant changes. *)
Definition covered (caller origin : Address) (url : string) (n : Z) (g g' : grants) : Prop :=
  ∃ kind max l e, az_GetAuthorization g caller origin url = Some (StakeAuthorization kind max l, e) ∧
    (∀ d limit, max = Some (d, limit) → n <= limit) ∧
    ∀ x y u, az_GetAuthorization g' x y u =
      if decide (x = caller ∧ y = origin ∧ u = url) then used max n kind l e else az_GetAuthorization g x y u.

Lemma authz_inv g grantee granter n url kind max l e :
  CheckAuthzAndAllowanceForGranter g grantee granter n url = Ok (kind, max, l, e) →
  az_GetAuthorization g grantee granter url = Some (StakeAuthorization kind max l, e) ∧
  (∀ d limit, max = Some (d, limit) → n <= limit).
Proof.
  unfold CheckAuthzAndAllowanceForGranter. destruct (az_GetAuthorization _ _ _ _) as [[[| k m v| | |] x]|]; [done| |done..].
  intros Hc. case_guards Hc; simplify_eq; (split; [done|]); intros; simplify_eq. lia.
Qed.

Lemma update_covers (HA : accept_law) caller origin kind max l e msg g g' :
  stored_by_type g → az_GetAuthorization g caller origin (msg_url msg) = Some (StakeAuthorization kind max l, e) →
  UpdateStakingAuthorization p caller origin (StakeAuthorization kind max l) e (msg_url msg) msg g = Ok g' →
  ∀ x y u, az_GetAuthorization g' x y u =
    if decide (x = caller ∧ y = origin ∧ u = msg_url msg) then used max (msg_amount msg) kind l e
    else az_GetAuthorization g x y u.
Proof.
  intros Hst Ha Hu x y u. pose proof (Hst _ _ _ _ _ Ha) as Hurl. cbn in Hurl.
  apply bind_Ok_inv in Hu as (upd & Hacc%of_sdk_Ok%HA & Hu). unfold used.
  destruct max as [[d limit]|]; [destruct Hacc as [_ ->]; destruct (limit =? msg_amount msg)|subst upd].
  - apply of_sdk_Ok in Hu. by rewrite (DeleteGrant_get _ _ _ _ _ Hu).
  - apply of_sdk_Ok in Hu. rewrite (SaveGrant_get _ _ _ _ _ _ Hu). cbn. by rewrite Hurl.
  - apply of_sdk_Ok in Hu. rewrite (SaveGrant_get _ _ _ _ _ _ Hu). cbn. by rewrite Hurl.
Qed.

Lemma ran_covered (HA : accept_law) origin caller st st' :
  stored_by_type (pc_grants st) → ran_message origin caller st st' →
  ∃ msg t, sp_MsgServer p (pc_chain st) msg = Ok (t, pc_chain st') ∧
    (msg_delegator msg = caller ∨ msg_delegator msg = origin) ∧
    if decide (caller = origin) then pc_grants st' = pc_grants st
    else covered caller origin (msg_url msg) (msg_amount msg) (pc_grants st) (pc_grants st').
Proof.
  intros Hst (msg & gr & t & st1 & He & Hg & Hs). exists msg, t.
  apply bind_Ok_inv in He as (o & [-> Hd]%resolve_origin & He). apply bind_Ok_inv in He as (x & Hx & He).
  apply bind_Ok_inv in He as ([t1 c] & Hm%of_sdk_Ok & He). apply bind_Ok_inv in He as (g & Hu & [= <- <- <-]).
  unfold pc_chain at 2. rewrite Hs, Hg. split; [exact Hm|]. split; [exact Hd|].
  unfold check_authorization in Hx. destruct (decide (caller = origin)) as [Ho|Ho].
  - injection Hx as <-. by injection Hu as <-.
  - apply bind_Ok_inv in Hx as ([[[kind max] l] e] & [Ha Hle]%authz_inv & [= <-]).
    exists kind, max, l, e. split; [exact Ha|]. split; [exact Hle|]. by apply update_covers.
Qed.

(** C10.  A delegation, undelegation, redelegation or cancelled unbonding that goes through
    the precompile is for the caller or the origin.  When the caller is not the origin,
    the origin has authorised the caller for the message type with a limit that covers
    the amount, the amount is taken off that limit, and no other grant changes. *)
Theorem staking_authorised origin ct name args st bz st' :
  accept_law → stored_by_type (pc_grants st) → name ∈ staking_names →
  staking_method p query name origin ct args st = Ok (bz, st') →
  ∃ msg t, sp_MsgServer p (pc_chain st) msg = Ok (t, pc_chain st') ∧
    (msg_delegator msg = ct_CallerAddress ct ∨ msg_delegator msg = origin) ∧
    if decide (ct_CallerAddress ct = origin) then pc_grants st' = pc_grants st
    else covered (ct_CallerAddress ct) origin (msg_url msg) (msg_amount msg) (pc_grants st) (pc_grants st').
Proof.
  intros HA Hst Hname Hm. apply ran_covered; [done|done|]. unfold staking_names in Hname.
  rewrite !elem_of_cons, elem_of_nil in Hname. destruct Hname as [->|[->|[->|[->|[]]]]].
  - exact (Delegate_ran _ _ _ _ _ _ Hm).
  - exact (Undelegate_ran _ _ _ _ _ _ Hm).
  - exact (Redelegate_ran _ _ _ _ _ _ Hm).
  - exact (Cancel_ran _ _ _ _ _ _ Hm).
Qed.

End Authorizations.

(** ** Balances of delegators *)

Section Balances.
Context `{EE : EvmEnv} `{CL : !CoinsLaws} `{EL : !EvmEnvLaws} `{AK : !AuthzKeeper}.
Variable p : staking_env.

(** C12.  After a delegation, committing the state database leaves the delegator the balance
    that the database had for it, less the amount when the delegator is the caller.  For
    an origin that another contract delegates for nothing is taken off. *)
Theorem delegate_committed_balance ctx origin ct delegator validator n st bz st' c' o :
  Delegate p origin ct [VAddress delegator; VString validator; VBig n] st = Ok (bz, st') →
  sdb_wf ctx (pc_stateDB st) → sdb_stateObjects (pc_stateDB st) !! delegator = Some o → so_suicided o = false →
  delegator ∈ sortedDirties (sdb_journal (pc_stateDB st')) → Commit (pc_store st') (pc_stateDB st') = Ok c' →
  bank_GetBalance (ek_chain c') delegator EvmDenom =
    Balance o - if decide (ct_CallerAddress ct = delegator) then n else 0.
Proof.
  intros Hd Hwf Ho Hs Hdirty Hc.
  apply bind_Ok_inv in Hd as ([[[msg d] v] m] & Hm & Hd). apply bind_Ok_inv in Hd as ([[gr t] st1] & He & Hd).
  assert (pc_stateDB st1 = pc_stateDB st) as Hdb.
  { apply bind_Ok_inv in He as (? & _ & He). apply bind_Ok_inv in He as (? & _ & He).
    apply bind_Ok_inv in He as ([t1 c1] & _ & He). by apply bind_Ok_inv in He as (? & _ & [= _ _ <-]). }
  apply bind_Ok_inv in Hd as (st2 & [_ [log Hlog]]%delegate_event & ->%success_inv). rewrite Hdb in Hlog.
  unfold NewMsgDelegate, checkDelegationUndelegationArgs in Hm. destruct (delegator =? 0); [done|]. rewrite Ok_bind in Hm.
  apply bind_Ok_inv in Hm as (k & Hk%of_total_int & Hm). apply bind_Ok_inv in Hm as (msg' & _ & [= _ <- _ <-]). subst k.
  assert (sdb_stateObjects (pc_stateDB st2) = sdb_stateObjects (pc_stateDB st)) as Hobj by (by rewrite Hlog).
  assert (sdb_wf ctx (pc_stateDB st2)) as Hwf2 by (by apply (sdb_wf_same ctx (pc_stateDB st))).
  rewrite <-Hobj in Ho. case_decide as Hcaller; cbn in Hdirty, Hc.
  - rewrite Hcaller in *.
    destruct (SubBalance_object (sp_keccak p) (pc_store st2) delegator n (pc_stateDB st2) o Ho (sdb_wf_address _ _ Hwf2 _ _ Ho))
      as (o' & Ho' & <- & Hs' & Hwf'). rewrite Hs in Hs'.
    by apply (committed_balance (sp_keccak p) ctx _ _ _ _ _ (Hwf' ctx Hwf2) Ho' Hs' Hdirty Hc).
  - rewrite Z.sub_0_r. by apply (committed_balance (sp_keccak p) ctx _ _ _ _ _ Hwf2 Ho Hs Hdirty Hc).
Qed.

End Balances.

(** ** A contract that delegates for the origin *)

Module StakingToy.
Import MapCoins MapBank EvmToy GrantMap TokenToy.

Definition staking_abi : abi_env := {|
  ab_HasReceive := false;
  ab_HasFallback := false;
  ab_MethodById id := match id with k :: _ => staking_names !! Z.to_nat k | [] => None end;
  ab_Unpack name data := match data with [a; n] => Some [VAddress a; VString "val"; VBig n] | _ => None end;
  ab_Pack l := match l with [VBool b] => Some [if b : bool then 1 else 0] | [VBig n] => Some [n] | _ => None end;
  ab_EventID _ := 1;
  ab_keccak _ := 0
|}.

(** Delegated coins go to the pool at address 50. *)
Definition staking_server (c : toy_chain) (msg : staking_msg) : outcome string (Z * toy_chain) :=
  match msg with
  | MsgDelegate d _ (den, n) => c' ← toy_send c d 50 den n; Ok (0, c')
  | _ => Ok (0, c)
  end.

Definition staking_accept (a : authorization) (msg : staking_msg) : outcome string (option authorization) :=
  match a with
  | StakeAuthorization kind (Some (d, limit)) l =>
      if limit <? msg_amount msg then Err "amount is more than the limit"%string
      else Ok (if limit =? msg_amount msg then None else Some (StakeAuthorization kind (Some (d, limit - msg_amount msg)) l))
  | _ => Ok (Some a)
  end.

Definition toy_staking : staking_env := {|
  sp_abi := staking_abi;
  sp_keccak := toy_keccak;
  sp_GasConfig := mkGasConfig 1000 3 2000 30;
  sp_ApprovalExpiration := 365;
  sp_BlockTime := 1000;
  sp_BondDenom _ := "aego"%string;
  sp_IterateValidators _ := [("val"%string, false)];
  sp_NewStakeAuthorization l kind coin := Ok (StakeAuthorization kind coin l);
  sp_AuthorizationValidateBasic _ := Ok ();
  sp_Accept := staking_accept;
  sp_MsgValidateBasic msg := if 0 <? msg_amount msg then Ok () else Err "invalid amount"%string;
  sp_MsgServer := staking_server;
  sp_ValAddressFromBech32 _ := Ok 60;
  sp_SharesFromTokens _ _ n := Ok n
|}.

Lemma toy_accepts : accept_law toy_staking.
Proof.
  intros kind max l msg u Ha. cbn in Ha. unfold staking_accept in Ha. destruct max as [[d limit]|]; [|by injection Ha as <-].
  destruct (limit <? msg_amount msg) eqn:Hl; [done|]. injection Ha as <-. split; [lia|done].
Qed.

Definition no_query (_ : string) (_ : list abi_value) (_ : toy_chain) : pc_result (list byte) := Err PErrUnknownMethod.

(** Account 7 has sent 10 of its 100 to contract 8, which may delegate 30 for it. *)
Definition staking_grants : grant_map :=
  {[ (8, 7, DelegateMsg) := (StakeAuthorization AuthDelegate (Some ("aego"%string, 30)) ["val"%string], None) ]}.
Definition toy_db : StateDB :=
  match run_all toy_keccak toy_evm_store [CSubBalance 7 10; CAddBalance 8 10] (New toy_config) with
  | Ok s => s
  | _ => New toy_config
  end.
Definition staking_state : pc_state := mkPcState toy_db toy_evm_store staking_grants.

Lemma one_grant_by_type s o a e : stored_by_type ({[ (s, o, authorization_URL a) := (a, e) ]} : grant_map).
Proof.
  intros s' o' url a' e' Hg. unfold az_GetAuthorization, toy_authz in Hg.
  apply lookup_singleton_Some in Hg as [Hk Hg]. injection Hk as _ _ <-. by injection Hg as <- _.
Qed.

(** The contract delegates 20 of the origin's coins. *)
Definition delegate_for_7 : Contract := mkContract 8 0x800 0 [0; 0; 0; 0; 7; 20] 100000.

Definition limit_left (g : grant_map) : option Z :=
  match g !! (8, 7, DelegateMsg) with Some (StakeAuthorization _ (Some (_, n)) _, _) => Some n | _ => None end.

(** The limit that is left, and what the pool has. *)
Definition staking_outcome (r : pc_result (list byte * pc_state * Z)) : option (option Z * Z) :=
  match r with
  | Ok (_, st', _) => Some (limit_left (pc_grants st'), bank_GetBalance (pc_chain st') 50 "aego")
  | _ => None
  end.

Lemma staking_outcome_inv r x y :
  staking_outcome r = Some (x, y) → ∃ bz st' left, r = Ok (bz, st', left) ∧
    limit_left (pc_grants st') = x ∧ bank_GetBalance (pc_chain st') 50 "aego" = y.
Proof.
  destruct r as [[[bz st'] left]| |]; [|done..]. intros Ho. unfold staking_outcome in Ho. injection Ho as <- <-.
  by exists bz, st', left.
Qed.

Lemma delegate_outcome :
  staking_outcome (staking_Run toy_staking no_query 7 delegate_for_7 false 0 10 staking_state) = Some (Some 10, 20).
Proof. vm_compute. reflexivity. Qed.

Lemma only_origin_grants_witness :
  ∃ bz st' left, staking_Run toy_staking no_query 7 delegate_for_7 false 0 10 staking_state = Ok (bz, st', left) ∧
    limit_left (pc_grants st') = Some 10 ∧
    az_GetAuthorization (pc_grants st') 8 9 DelegateMsg = az_GetAuthorization staking_grants 8 9 DelegateMsg.
Proof.
  destruct (staking_outcome_inv _ _ _ delegate_outcome) as (bz & st' & left & Hr & Hl & _).
  exists bz, st', left. split; [exact Hr|]. split; [exact Hl|].
  apply (only_origin_grants toy_staking no_query 7 delegate_for_7 false 0 10 staking_state bz st' left Hr). discriminate.
Defined.

Definition method_outcome (r : pc_result (list byte * pc_state)) : option (option Z) :=
  match r with Ok (_, st') => Some (limit_left (pc_grants st')) | _ => None end.

Lemma method_outcome_inv r x :
  method_outcome r = Some x → ∃ bz st', r = Ok (bz, st') ∧ limit_left (pc_grants st') = x.
Proof. destruct r as [[bz st']| |]; [|done..]. intros [= <-]. by exists bz, st'. Qed.

Lemma delegate_method_outcome :
  method_outcome (staking_method toy_staking no_query "delegate" 7 delegate_for_7
    [VAddress 7; VString "val"; VBig 20] staking_state) = Some (Some 10).
Proof. vm_compute. reflexivity. Qed.

Lemma staking_authorised_witness :
  ∃ bz st' msg, staking_method toy_staking no_query "delegate" 7 delegate_for_7
      [VAddress 7; VString "val"; VBig 20] staking_state = Ok (bz, st') ∧
    limit_left (pc_grants st') = Some 10 ∧
    covered 8 7 (msg_url msg) (msg_amount msg) staking_grants (pc_grants st').
Proof.
  destruct (method_outcome_inv _ _ delegate_method_outcome) as (bz & st' & Hr & Hl).
  assert ("delegate"%string ∈ staking_names) as Hname by (unfold staking_names; apply elem_of_cons; left; reflexivity).
  destruct (staking_authorised toy_staking no_query 7 delegate_for_7 "delegate" _ staking_state bz st' toy_accepts
    (one_grant_by_type 8 7 (StakeAuthorization AuthDelegate (Some ("aego"%string, 30)) ["val"%string]) None)
    Hname Hr) as (msg & t & _ & _ & Hcov).
  exists bz, st', msg. split; [exact Hr|]. split; [exact Hl|]. exact Hcov.
Defined.

Lemma toy_db_wf : sdb_wf toy_evm_store toy_db.
Proof.
  unfold toy_db. destruct (run_all _ _ _ _) as [s| |] eqn:Hr; [|split; intros a o; cbn; by rewrite lookup_empty..].
  apply reached_refines in Hr as [sp Hsp]. by apply (ref_wf _ _ _ _ _ Hsp).
Qed.

(** The state database is written to the stores, as every call starts. *)
Definition toy_committed : pc_state := match committed staking_state with Ok st => st | _ => staking_state end.

(** After the delegation and the final commit: what account 7 and the pool have, and the
    supply. *)
Definition commit_outcome (r : pc_result (list byte * pc_state)) : option (Z * Z * Z * bool) :=
  match r with
  | Ok (_, st') =>
      match Commit (pc_store st') (pc_stateDB st') with
      | Ok c' => Some (bank_GetBalance (ek_chain c') 7 "aego", bank_GetBalance (ek_chain c') 50 "aego",
                       bank_GetSupply (ek_chain c') "aego", bool_decide (7 ∈ sortedDirties (sdb_journal (pc_stateDB st'))))
      | _ => None
      end
  | _ => None
  end.

Lemma commit_outcome_inv r a b s d :
  commit_outcome r = Some (a, b, s, d) → ∃ bz st' c', r = Ok (bz, st') ∧ Commit (pc_store st') (pc_stateDB st') = Ok c' ∧
    bank_GetSupply (ek_chain c') "aego" = s ∧ bool_decide (7 ∈ sortedDirties (sdb_journal (pc_stateDB st'))) = d.
Proof.
  destruct r as [[bz st']| |]; [|done..]. unfold commit_outcome.
  destruct (Commit _ _) as [c'| |] eqn:Hc; [|done..]. intros Ho. injection Ho as _ _ <- <-. by exists bz, st', c'.
Qed.

(** Contract 8 delegates 20 for account 7, which had been written in the transaction:
    account 7 still has 90, the pool has 20, and 20 have been minted. *)
Lemma delegation_for_origin_mints :
  bank_GetSupply (pc_chain toy_committed) "aego" = 100 ∧
  commit_outcome (Delegate toy_staking 7 delegate_for_7 [VAddress 7; VString "val"; VBig 20] toy_committed) =
    Some (90, 20, 120, true).
Proof. split; vm_compute; reflexivity. Qed.

Lemma toy_object : (λ o, (Balance o, so_suicided o)) <$> sdb_stateObjects toy_db !! 7 = Some (90, false).
Proof. vm_compute. reflexivity. Qed.

Lemma toy_committed_db : pc_stateDB toy_committed = toy_db.
Proof. unfold toy_committed, committed. by destruct (Commit _ _). Qed.

Lemma delegate_committed_balance_witness :
  ∃ bz st' c', Delegate toy_staking 7 delegate_for_7 [VAddress 7; VString "val"; VBig 20] toy_committed = Ok (bz, st') ∧
    Commit (pc_store st') (pc_stateDB st') = Ok c' ∧ bank_GetBalance (ek_chain c') 7 EvmDenom = 90 ∧
    bank_GetSupply (ek_chain c') "aego" = 120.
Proof.
  destruct (commit_outcome_inv _ _ _ _ _ (proj2 delegation_for_origin_mints)) as (bz & st' & c' & Hr & Hc & Hs & Hd).
  pose proof toy_object as Ho. apply fmap_Some in Ho as (o & Ho & Hx). injection Hx as Hb Hsu.
  pose proof toy_db_wf as Hwf. rewrite <-toy_committed_db in Ho, Hwf.
  exists bz, st', c'. split; [exact Hr|]. split; [exact Hc|]. split; [|exact Hs].
  rewrite (delegate_committed_balance toy_staking toy_evm_store 7 delegate_for_7 7 "val" 20 toy_committed bz st' c' o
    Hr Hwf Ho (eq_sym Hsu) (bool_decide_eq_true_1 _ Hd) Hc), decide_False by discriminate.
  rewrite <-Hb. reflexivity.
Defined.

End StakingToy.
