(* ===== verification/VestingPrecompile.v ===== *)
(** * The vesting precompile: [precompiles/vesting]

    Contracts create, fund, claw back and convert vesting accounts through it; the work
    is done by the handlers of [VestingKeeper].  The state is that of the vesting module
    with the grants of the authz module and the state database of the call, which is
    written to the stores of the module's [world] before a method runs ([Keeper]).  An
    address is written as itself where the source has its Bech32 form in between.  The
    slices of coins of the ABI and the [sdk.Coins] of the module are related by two
    fields of [vesting_pc_env]. *)

From S2P Require Import Prelude Sdk AccessList StateDB EvmTx Precompile Schedule ClawbackAccount VestingKeeper.

Section VestingPrecompile.
Context `{VE : VestingEnv} `{P : !Periods} `{BV : !BaseVesting base} `{AK : !AuthzKeeper} `{K : !Keeper world}.

Record vesting_pc_env := mkVestingPcEnv {
  vp_abi : abi_env;
  vp_GasConfig : GasConfig;
  (** a slice of [sdk.NewCoin]s, which panic on a bad denomination or amount *)
  vp_NewCoins : list (string * Z) → partial coins;
  (** the coins of an [sdk.Coins], in its order *)
  vp_CoinsList : coins → list (string * Z)
}.

Variable p : vesting_pc_env.

Abbreviation vpc_result A := (outcome (pc_error + vesting_error) A).

Record vpc_state := mkVpcState {
  vp_stateDB : StateDB;
  vp_vesting : vesting_state;
  vp_grants : grants
}.

Definition vp_with_stateDB (sdb : StateDB) (st : vpc_state) : vpc_state := mkVpcState sdb (vp_vesting st) (vp_grants st).
Definition with_vesting (s : vesting_state) (st : vpc_state) : vpc_state := mkVpcState (vp_stateDB st) s (vp_grants st).
Definition vp_with_grants (g : grants) (st : vpc_state) : vpc_state := mkVpcState (vp_stateDB st) (vp_vesting st) g.

Definition vesting_Address : Address := 0x803.

(** ** Messages: [types.go] *)

Definition FundVestingAccountMsgURL : string := "/evmos.vesting.v2.MsgFundVestingAccount".
Definition UpdateVestingFunderMsgURL : string := "/evmos.vesting.v2.MsgUpdateVestingFunder".
Definition ClawbackMsgURL : string := "/evmos.vesting.v2.MsgClawback".

(** The error for a method that is no string reads a third argument, which panics. *)
Definition checkApprovalArgs (args : list abi_value) : vpc_result (Address * string) :=
  match args with
  | [a; b] =>
      grantee ← of_pc (check_address a);
      match b with
      | VString typeURL =>
          if decide (typeURL = EmptyString) then Err (inl PErrEmptyMethods) else Ok (grantee, typeURL)
      | _ => Panic
      end
  | _ => Err (inl PErrArgs)
  end.

Definition validateBasicArgs (args : list abi_value) (expectedLength : nat) : vpc_result (Address * Address) :=
  if negb (length args =? expectedLength)%nat then Err (inl PErrArgs)
  else match args with
       | VAddress funder :: VAddress vesting :: _ => Ok (funder, vesting)
       | _ => Err (inl PErrArgs)
       end.

Definition NewMsgCreateClawbackVestingAccount (args : list abi_value) :
    vpc_result (MsgCreateClawbackVestingAccount * Address * Address) :=
  '(funder, vesting) ← validateBasicArgs args 3;
  match args !! 2%nat with
  | Some (VBool enableGovClawback) =>
      let msg := mkMsgCreate (acc_String funder) (acc_String vesting) enableGovClawback in
      _ ← of_module (MsgCreate_ValidateBasic msg);
      Ok (msg, funder, vesting)
  | _ => Err (inl PErrArgs)
  end.

Fixpoint createCosmosPeriodsFromPeriod (input : list (Z * list (string * Z))) : vpc_result (list Period) :=
  match input with
  | [] => Ok []
  | (len, amount) :: rest =>
      c ← of_pc (of_total (vp_NewCoins p amount));
      periods ← createCosmosPeriodsFromPeriod rest;
      Ok (mkPeriod _ len c :: periods)
  end.

(** [time.Unix(int64(startTime), 0)]. *)
Definition NewMsgFundVestingAccount (args : list abi_value) :
    vpc_result (MsgFundVestingAccount * Address * Address *
                list (Z * list (string * Z)) * list (Z * list (string * Z))) :=
  '(funder, vesting) ← validateBasicArgs args 5;
  match args !! 2%nat, args !! 3%nat, args !! 4%nat with
  | Some (VUint64 startTime), Some (VPeriods lockup), Some (VPeriods vestingPeriods) =>
      vestingCosmos ← createCosmosPeriodsFromPeriod vestingPeriods;
      lockupCosmos ← createCosmosPeriodsFromPeriod lockup;
      let msg := mkMsgFund (acc_String funder) (acc_String vesting) (i64 startTime) lockupCosmos vestingCosmos in
      _ ← of_module (MsgFund_ValidateBasic msg);
      Ok (msg, funder, vesting, lockup, vestingPeriods)
  | _, _, _ => Err (inl PErrArgs)
  end.

Definition NewMsgClawback (args : list abi_value) : vpc_result (MsgClawback * Address * Address * Address) :=
  '(funder, account) ← validateBasicArgs args 3;
  match args !! 2%nat with
  | Some (VAddress dest) =>
      let msg := mkMsgClawback (acc_String funder) (acc_String account) (acc_String dest) in
      _ ← of_module (MsgClawback_ValidateBasic msg);
      Ok (msg, funder, account, dest)
  | _ => Err (inl PErrArgs)
  end.

Definition NewMsgUpdateVestingFunder (args : list abi_value) :
    vpc_result (MsgUpdateVestingFunder * Address * Address * Address) :=
  match args with
  | [VAddress funder; VAddress newFunder; VAddress vesting] =>
      let msg := mkMsgUpdateFunder (acc_String funder) (acc_String newFunder) (acc_String vesting) in
      _ ← of_module (MsgUpdateFunder_ValidateBasic msg);
      Ok (msg, funder, newFunder, vesting)
  | _ => Err (inl PErrArgs)
  end.

Definition NewMsgConvertVestingAccount (args : list abi_value) : vpc_result (MsgConvertVestingAccount * Address) :=
  match args with
  | [VAddress vesting] =>
      let msg := mkMsgConvert (acc_String vesting) in
      _ ← of_module (MsgConvert_ValidateBasic msg);
      Ok (msg, vesting)
  | _ => Err (inl PErrArgs)
  end.

Definition NewBalancesRequest (args : list abi_value) : vpc_result string :=
  match args with [VAddress address] => Ok (acc_String address) | _ => Err (inl PErrArgs) end.

(** ** Events: [events.go] *)

(** A log with its topics and the packed data; none is packed without arguments. *)
Definition vp_emit (event : string) (topics : list abi_value) (data : list abi_value) (st : vpc_state) :
    vpc_result vpc_state :=
  ts ← of_pc (mapM (MakeTopic (vp_abi p)) topics);
  packed ← match data with [] => Ok [] | _ => of_pc (pack (vp_abi p) data) end;
  Ok (vp_with_stateDB
        (AddLog (mkLog vesting_Address (ab_EventID (vp_abi p) event :: ts) packed 0 0 0 0) (vp_stateDB st)) st).

(** Its parameters are called grantee and granter. *)
Definition vp_EmitApprovalEvent (grantee granter : Address) (typeURL : string) : vpc_state → vpc_result vpc_state :=
  vp_emit "Approval" [VAddress grantee; VAddress granter] [VString typeURL].

Definition EmitCreateClawbackVestingAccountEvent (funder vesting : Address) : vpc_state → vpc_result vpc_state :=
  vp_emit "CreateClawbackVestingAccount" [VAddress funder; VAddress vesting] [].

Definition EmitFundVestingAccountEvent (msg : MsgFundVestingAccount) (funder vesting : Address)
    (lockup vestingPeriods : list (Z * list (string * Z))) : vpc_state → vpc_result vpc_state :=
  vp_emit "FundVestingAccount" [VAddress funder; VAddress vesting]
    [VUint64 (u64 (mf_StartTime msg)); VPeriods lockup; VPeriods vestingPeriods].

Definition EmitClawbackEvent (funder account dest : Address) : vpc_state → vpc_result vpc_state :=
  vp_emit "Clawback" [VAddress funder; VAddress account] [VAddress dest].

Definition EmitUpdateVestingFunderEvent (funder newFunder vesting : Address) : vpc_state → vpc_result vpc_state :=
  vp_emit "UpdateVestingFunder" [VAddress funder; VAddress vesting] [VAddress newFunder].

Definition EmitConvertVestingAccountEvent (vesting : Address) : vpc_state → vpc_result vpc_state :=
  vp_emit "ConvertVestingAccount" [VAddress vesting] [].

(** ** Approval: [approve.go] *)

(** A year, in seconds. *)
Definition DefaultExpirationDuration : Z := 3600 * 24 * 365.

Definition CreateGenericAuthz (grantee granter : Address) (msg : string) (w : world) (g : grants) : vpc_result grants :=
  of_pc (of_sdk (az_SaveGrant g grantee granter (GenericAuthorization msg)
                   (Some (BlockTime w + DefaultExpirationDuration)))).

Definition vp_success (st : vpc_state) : vpc_result (list byte * vpc_state) :=
  bz ← of_pc (pack (vp_abi p) [VBool true]); Ok (bz, st).

(** The event is given the origin as the grantee. *)
Definition vesting_Approve (origin : Address) (args : list abi_value) (st : vpc_state) :
    vpc_result (list byte * vpc_state) :=
  '(grantee, typeURL) ← checkApprovalArgs args;
  if decide (typeURL ∈ [FundVestingAccountMsgURL; ClawbackMsgURL; UpdateVestingFunderMsgURL]) then
    g ← CreateGenericAuthz grantee origin typeURL (v_world (vp_vesting st)) (vp_grants st);
    st ← vp_EmitApprovalEvent origin grantee typeURL (vp_with_grants g st);
    vp_success st
  else Err (inl PErrInvalidMsgType).

(** ** Transactions: [tx.go] *)

(** The caller is the origin and the funder, or the origin has given the caller a grant
    for the message. *)
Definition check_funder (contract : Contract) (origin funder : Address) (url : string) (g : grants) : vpc_result () :=
  let caller := ct_CallerAddress contract in
  if bool_decide (caller = origin) && negb (bool_decide (origin = funder)) then Err (inl PErrDifferentOrigin)
  else if decide (caller = origin) then Ok ()
  else _ ← of_pc (CheckAuthzExists g caller origin url); Ok ().

Definition vesting_CreateClawbackVestingAccount (origin : Address) (args : list abi_value) (st : vpc_state) :
    vpc_result (list byte * vpc_state) :=
  '(msg, funder, vesting) ← NewMsgCreateClawbackVestingAccount args;
  if decide (origin = vesting) then
    s ← of_module (CreateClawbackVestingAccount msg (vp_vesting st));
    st ← EmitCreateClawbackVestingAccountEvent funder vesting (with_vesting s st);
    vp_success st
  else Err (inl PErrDifferentOrigin).

Definition vesting_FundVestingAccount (contract : Contract) (origin : Address) (args : list abi_value) (st : vpc_state) :
    vpc_result (list byte * vpc_state) :=
  '(msg, funder, vesting, lockup, periods) ← NewMsgFundVestingAccount args;
  _ ← check_funder contract origin funder FundVestingAccountMsgURL (vp_grants st);
  s ← of_module (FundVestingAccount msg (vp_vesting st));
  st ← EmitFundVestingAccountEvent msg funder vesting lockup periods (with_vesting s st);
  vp_success st.

Definition vesting_Clawback (contract : Contract) (origin : Address) (args : list abi_value) (st : vpc_state) :
    vpc_result (list byte * vpc_state) :=
  '(msg, funder, account, dest) ← NewMsgClawback args;
  _ ← check_funder contract origin funder ClawbackMsgURL (vp_grants st);
  '(coins, s) ← of_module (Clawback msg (vp_vesting st));
  st ← EmitClawbackEvent funder account dest (with_vesting s st);
  bz ← of_pc (pack (vp_abi p) [VCoins (vp_CoinsList p coins)]);
  Ok (bz, st).

Definition vesting_UpdateVestingFunder (contract : Contract) (origin : Address) (args : list abi_value) (st : vpc_state) :
    vpc_result (list byte * vpc_state) :=
  '(msg, funder, newFunder, vesting) ← NewMsgUpdateVestingFunder args;
  _ ← check_funder contract origin funder UpdateVestingFunderMsgURL (vp_grants st);
  s ← of_module (UpdateVestingFunder msg (vp_vesting st));
  st ← EmitUpdateVestingFunderEvent funder newFunder vesting (with_vesting s st);
  vp_success st.

Definition vesting_ConvertVestingAccount (args : list abi_value) (st : vpc_state) : vpc_result (list byte * vpc_state) :=
  '(msg, vesting) ← NewMsgConvertVestingAccount args;
  s ← of_module (ConvertVestingAccount msg (vp_vesting st));
  st ← EmitConvertVestingAccountEvent vesting (with_vesting s st);
  vp_success st.

(** ** The query and the contract: [query.go], [vesting.go] *)

Definition vesting_Balances (args : list abi_value) (st : vpc_state) : vpc_result (list byte * vpc_state) :=
  address ← NewBalancesRequest args;
  '(locked, unvested, vested) ← of_module (Balances address (vp_vesting st));
  bz ← of_pc (pack (vp_abi p) (VCoins ∘ vp_CoinsList p <$> [locked; unvested; vested]));
  Ok (bz, st).

Definition vesting_IsTransaction (name : string) : bool :=
  bool_decide (name ∈ ["createClawbackVestingAccount"; "fundVestingAccount"; "clawback"; "updateVestingFunder";
                       "convertVestingAccount"; "approve"]%string).

Definition vesting_RequiredGas : list byte → partial Z :=
  contract_RequiredGas (vp_abi p) (vp_GasConfig p) vesting_IsTransaction.

(** An unknown method returns nothing and no error. *)
Definition vesting_method (name : string) (origin : Address) (contract : Contract) (args : list abi_value)
    (st : vpc_state) : vpc_result (list byte * vpc_state) :=
  if decide (name = "approve"%string) then vesting_Approve origin args st
  else if decide (name = "createClawbackVestingAccount"%string) then vesting_CreateClawbackVestingAccount origin args st
  else if decide (name = "fundVestingAccount"%string) then vesting_FundVestingAccount contract origin args st
  else if decide (name = "clawback"%string) then vesting_Clawback contract origin args st
  else if decide (name = "updateVestingFunder"%string) then vesting_UpdateVestingFunder contract origin args st
  else if decide (name = "convertVestingAccount"%string) then vesting_ConvertVestingAccount args st
  else if decide (name = "balances"%string) then vesting_Balances args st
  else Ok ([], st).

(** The state database is written to the stores before the method runs. *)
Definition vp_committed (st : vpc_state) : vpc_result vpc_state :=
  match StateDB.Commit (v_world (vp_vesting st)) (vp_stateDB st) with
  | Ok w => Ok (with_vesting (set_world w (vp_vesting st)) st)
  | Err _ => Err (inl PErrCommit)
  | Panic => Panic
  end.

Definition vesting_Run (origin : Address) (contract : Contract) (readOnly : bool) (initialGas finalGas : Z)
    (st : vpc_state) : vpc_result (list byte * vpc_state * Z) :=
  '(m, args) ← of_pc (RunSetup (vp_abi p) contract readOnly vesting_IsTransaction initialGas);
  st ← vp_committed st;
  '(bz, st) ← vesting_method (me_Name m) origin contract args st;
  of_pc (charge contract initialGas finalGas (Ok (bz, st))).
End VestingPrecompile.
