(* ===== verification/VestingPrecompileSpec.v ===== *)
(** * What the vesting precompile checks: [precompiles/vesting]

    A call runs one handler of the vesting module, and only grants of the origin are
    written ([vesting_calls_checked]).  An account is created for the origin only, and an
    origin that calls by itself must be the funder.  A contract that calls needs a grant
    of the origin, not of the funder: whoever starts a transaction can let a contract of
    its own act for any funder ([contract_acts_for_any_funder]), and take the coins that
    another one has granted ([VestingPcToy.contract_takes_grant]). *)

From S2P Require Import Prelude Sdk AccessList StateDB Journal StateDBSpec Commit EvmTx Precompile PrecompileSpec Schedule ScheduleSpec ClawbackAccount VestingKeeper VestingSafety VestingPrecompile.

Section Checks.
Context `{VE : VestingEnv} `{P : !Periods} `{BV : !BaseVesting base} `{AK : !AuthzKeeper} `{AL : !AuthzLaws} `{K : !Keeper world}.
Variable p : vesting_pc_env.

(** ** Calls of the module *)

Inductive vesting_call :=
| CallCreate (msg : MsgCreateClawbackVestingAccount)
| CallFund (msg : MsgFundVestingAccount)
| CallClawback (msg : MsgClawback)
| CallUpdateFunder (msg : MsgUpdateVestingFunder)
| CallConvert (msg : MsgConvertVestingAccount).

(** The handler runs and leaves [s']. *)
Definition runs (call : vesting_call) (s s' : vesting_state) : Prop :=
  match call with
  | CallCreate msg => CreateClawbackVestingAccount msg s = Ok s'
  | CallFund msg => FundVestingAccount msg s = Ok s'
  | CallClawback msg => ∃ c, Clawback msg s = Ok (c, s')
  | CallUpdateFunder msg => UpdateVestingFunder msg s = Ok s'
  | CallConvert msg => ConvertVestingAccount msg s = Ok s'
  end.

(** The funder is the origin that calls, or the origin has granted the caller the
    message type. *)
Definition funder_checked (origin caller : Address) (funder url : string) (g : grants) : Prop :=
  if decide (caller = origin) then funder = acc_String origin
  else is_Some (az_GetAuthorization g caller origin url).

(** What is asked of the caller: an account is created for the origin itself, without a
    grant whoever calls, and an account may be converted by anybody. *)
Definition permitted (origin caller : Address) (call : vesting_call) (g : grants) : Prop :=
  match call with
  | CallCreate msg => mc_VestingAddress msg = acc_String origin
  | CallFund msg => funder_checked origin caller (mf_FunderAddress msg) FundVestingAccountMsgURL g
  | CallClawback msg => funder_checked origin caller (mb_FunderAddress msg) ClawbackMsgURL g
  | CallUpdateFunder msg => funder_checked origin caller (mu_FunderAddress msg) UpdateVestingFunderMsgURL g
  | CallConvert _ => True
  end.

(** The message the method builds from its arguments. *)
Definition asks (name : string) (args : list abi_value) (call : vesting_call) : Prop :=
  match call with
  | CallCreate msg => name = "createClawbackVestingAccount"%string ∧
      ∃ f v, NewMsgCreateClawbackVestingAccount args = Ok (msg, f, v)
  | CallFund msg => name = "fundVestingAccount"%string ∧ ∃ f v l q, NewMsgFundVestingAccount p args = Ok (msg, f, v, l, q)
  | CallClawback msg => name = "clawback"%string ∧ ∃ f a d, NewMsgClawback args = Ok (msg, f, a, d)
  | CallUpdateFunder msg => name = "updateVestingFunder"%string ∧ ∃ f n v, NewMsgUpdateVestingFunder args = Ok (msg, f, n, v)
  | CallConvert msg => name = "convertVestingAccount"%string ∧ ∃ v, NewMsgConvertVestingAccount args = Ok (msg, v)
  end.

(** The methods that run a handler of the module. *)
Definition message_names : list string :=
  ["createClawbackVestingAccount"; "fundVestingAccount"; "clawback"; "updateVestingFunder"; "convertVestingAccount"].

(** ** Inversions *)

(** Events write a log and nothing else. *)
Lemma vp_emit_inv event topics data st st' :
  vp_emit p event topics data st = Ok st' → vp_vesting st' = vp_vesting st ∧ vp_grants st' = vp_grants st.
Proof.
  intros He. apply bind_Ok_inv in He as (ts & _ & He). by apply bind_Ok_inv in He as (bz & _ & [= <-]).
Qed.

Lemma vp_success_inv st bz st' : vp_success p st = Ok (bz, st') → st' = st.
Proof. intros Hs. by apply bind_Ok_inv in Hs as (? & _ & [= _ <-]). Qed.

Lemma check_funder_inv ct origin funder url g :
  check_funder ct origin funder url g = Ok () → funder_checked origin (ct_CallerAddress ct) (acc_String funder) url g.
Proof.
  unfold check_funder, funder_checked. destruct (decide (ct_CallerAddress ct = origin)) as [->|Hne].
  - rewrite bool_decide_true by done. case_bool_decide as Ho; [by rewrite Ho|done].
  - rewrite bool_decide_false by done. cbn [andb]. intros Hc. apply bind_Ok_inv in Hc as (x & Hx%of_pc_Ok & _).
    unfold CheckAuthzExists in Hx. by destruct (az_GetAuthorization _ _ _ _).
Qed.

(** What a method that runs a handler does. *)
Definition ran_handler (name : string) (args : list abi_value) (origin : Address) (ct : Contract) (st st' : vpc_state) :
    Prop :=
  ∃ call, asks name args call ∧ runs call (vp_vesting st) (vp_vesting st') ∧ permitted origin (ct_CallerAddress ct) call (vp_grants st) ∧
    vp_grants st' = vp_grants st.

Lemma create_ran origin ct args st bz st' :
  vesting_CreateClawbackVestingAccount p origin args st = Ok (bz, st') → ran_handler "createClawbackVestingAccount" args origin ct st st'.
Proof.
  intros Hm. apply bind_Ok_inv in Hm as ([[msg funder] vesting] & Hmsg & Hm). case_decide as Ho; [|done].
  apply bind_Ok_inv in Hm as (s & Hs%of_module_Ok & Hm).
  apply bind_Ok_inv in Hm as (st1 & [Hv Hg]%vp_emit_inv & ->%vp_success_inv). exists (CallCreate msg).
  rewrite Hv, Hg. split; [split; [done|by repeat eexists]|]. split; [done|]. split; [|done]. cbn.
  apply bind_Ok_inv in Hmsg as ([f v] & _ & Hmsg). case_guards Hmsg.
  apply bind_Ok_inv in Hmsg as (u & _ & Hmsg). injection Hmsg as <- _ ->. by rewrite Ho.
Qed.

Lemma fund_ran origin ct args st bz st' :
  vesting_FundVestingAccount p ct origin args st = Ok (bz, st') → ran_handler "fundVestingAccount" args origin ct st st'.
Proof.
  intros Hm. apply bind_Ok_inv in Hm as ([[[[msg funder] vesting] lockup] periods] & Hmsg & Hm).
  apply bind_Ok_inv in Hm as ([] & Hf%check_funder_inv & Hm). apply bind_Ok_inv in Hm as (s & Hs%of_module_Ok & Hm).
  apply bind_Ok_inv in Hm as (st1 & [Hv Hg]%vp_emit_inv & ->%vp_success_inv). exists (CallFund msg).
  rewrite Hv, Hg. split; [split; [done|by repeat eexists]|]. split; [done|]. split; [|done]. cbn.
  apply bind_Ok_inv in Hmsg as ([f v] & _ & Hmsg). case_guards Hmsg.
  apply bind_Ok_inv in Hmsg as (vc & _ & Hmsg). apply bind_Ok_inv in Hmsg as (lc & _ & Hmsg).
  apply bind_Ok_inv in Hmsg as (u & _ & Hmsg). injection Hmsg as <- -> _ _ _. exact Hf.
Qed.

Lemma clawback_ran origin ct args st bz st' :
  vesting_Clawback p ct origin args st = Ok (bz, st') → ran_handler "clawback" args origin ct st st'.
Proof.
  intros Hm. apply bind_Ok_inv in Hm as ([[[msg funder] account] dest] & Hmsg & Hm).
  apply bind_Ok_inv in Hm as ([] & Hf%check_funder_inv & Hm). apply bind_Ok_inv in Hm as ([c s] & Hs%of_module_Ok & Hm).
  apply bind_Ok_inv in Hm as (st1 & [Hv Hg]%vp_emit_inv & Hm). apply bind_Ok_inv in Hm as (out & _ & [= _ <-]).
  exists (CallClawback msg). rewrite Hv, Hg. split; [split; [done|by repeat eexists]|]. split; [by exists c|]. split; [|done]. cbn.
  apply bind_Ok_inv in Hmsg as ([f v] & _ & Hmsg). case_guards Hmsg.
  apply bind_Ok_inv in Hmsg as (u & _ & Hmsg). injection Hmsg as <- -> _ _. exact Hf.
Qed.

Lemma update_funder_ran origin ct args st bz st' :
  vesting_UpdateVestingFunder p ct origin args st = Ok (bz, st') → ran_handler "updateVestingFunder" args origin ct st st'.
Proof.
  intros Hm. apply bind_Ok_inv in Hm as ([[[msg funder] newFunder] vesting] & Hmsg & Hm).
  apply bind_Ok_inv in Hm as ([] & Hf%check_funder_inv & Hm). apply bind_Ok_inv in Hm as (s & Hs%of_module_Ok & Hm).
  apply bind_Ok_inv in Hm as (st1 & [Hv Hg]%vp_emit_inv & ->%vp_success_inv). exists (CallUpdateFunder msg).
  rewrite Hv, Hg. split; [split; [done|by repeat eexists]|]. split; [done|]. split; [|done]. cbn. unfold NewMsgUpdateVestingFunder in Hmsg. case_guards Hmsg.
  apply bind_Ok_inv in Hmsg as (u & _ & Hmsg). injection Hmsg as <- -> _ _. exact Hf.
Qed.

Lemma convert_ran origin ct args st bz st' :
  vesting_ConvertVestingAccount p args st = Ok (bz, st') → ran_handler "convertVestingAccount" args origin ct st st'.
Proof.
  intros Hm. apply bind_Ok_inv in Hm as ([msg vesting] & Hmsg & Hm).
  apply bind_Ok_inv in Hm as (s & Hs%of_module_Ok & Hm).
  apply bind_Ok_inv in Hm as (st1 & [Hv Hg]%vp_emit_inv & ->%vp_success_inv). exists (CallConvert msg).
  rewrite Hv, Hg. split; [split; [done|by eexists]|done].
Qed.

Lemma approve_inv origin args st bz st' :
  vesting_Approve p origin args st = Ok (bz, st') →
  vp_vesting st' = vp_vesting st ∧ others_kept origin (vp_grants st) (vp_grants st').
Proof.
  intros Hm. apply bind_Ok_inv in Hm as ([grantee url] & _ & Hm). case_decide; [|done].
  apply bind_Ok_inv in Hm as (g & Hg%of_pc_Ok%save_kept & Hm).
  apply bind_Ok_inv in Hm as (st1 & [Hv Hg1]%vp_emit_inv & ->%vp_success_inv). by rewrite Hv, Hg1.
Qed.

(** C13.  A call of the vesting precompile that succeeds writes no grant of anybody but
    the origin.  One of the five methods for messages builds the message from its
    arguments and runs the handler of the module on it, and grants stay as they are; the
    other methods leave the module alone.  A vesting account is created for the origin
    only, without a grant.  Funding, clawback and the change of a funder need the funder
    to be the origin when the origin calls itself; when a contract calls, the origin has
    granted it that type of message, whoever the funder is.  The conversion of an account
    is not checked. *)
Theorem vesting_calls_checked name origin ct args st bz st' :
  vesting_method p name origin ct args st = Ok (bz, st') →
  others_kept origin (vp_grants st) (vp_grants st') ∧
  if decide (name ∈ message_names) then
    ∃ call, asks name args call ∧ runs call (vp_vesting st) (vp_vesting st') ∧
      permitted origin (ct_CallerAddress ct) call (vp_grants st) ∧ vp_grants st' = vp_grants st
  else vp_vesting st' = vp_vesting st.
Proof.
  intros Hm.
  assert (name ∈ message_names → ran_handler name args origin ct st st' →
    others_kept origin (vp_grants st) (vp_grants st') ∧
    if decide (name ∈ message_names) then ran_handler name args origin ct st st' else vp_vesting st' = vp_vesting st) as Hran.
  { intros Hin Hr. rewrite decide_True by done. split; [|done]. destruct Hr as (call & _ & _ & _ & ->). reflexivity. }
  unfold vesting_method in Hm.
  destruct (decide (name = "approve"%string)) as [->|]; [by apply approve_inv in Hm as [Hv Hg]|].
  do 5 (destruct (decide (name = _)) as [->|];
    [apply Hran; [apply (bool_decide_unpack _); exact I|by eauto using create_ran, fund_ran, clawback_ran, update_funder_ran, convert_ran]|]).
  rewrite decide_False by (unfold message_names; set_solver).
  assert (st' = st) as ->; [|split; reflexivity].
  destruct (decide (name = "balances"%string)); [|by simplify_eq]. apply bind_Ok_inv in Hm as (a & _ & Hm).
  apply bind_Ok_inv in Hm as ([[l u] v] & _ & Hm). by apply bind_Ok_inv in Hm as (x & _ & [= _ <-]).
Qed.

(** Nothing is asked of the funder when a contract calls: with a grant of the origin it
    claws back what the module would pay to that funder's message. *)
Lemma contract_acts_for_any_funder ct origin funder account dest st x c s :
  ct_CallerAddress ct ≠ origin → az_GetAuthorization (vp_grants st) (ct_CallerAddress ct) origin ClawbackMsgURL = Some x →
  let msg := mkMsgClawback (acc_String funder) (acc_String account) (acc_String dest) in
  MsgClawback_ValidateBasic msg = Ok () → Clawback msg (vp_vesting st) = Ok (c, s) →
  (∀ l, is_Some (ab_Pack (vp_abi p) l)) →
  ∃ bz st', vesting_Clawback p ct origin [VAddress funder; VAddress account; VAddress dest] st = Ok (bz, st') ∧
    vp_vesting st' = s.
Proof.
  intros Hne Hg msg Hv Hc Hpack. unfold vesting_Clawback, NewMsgClawback. cbn -[Clawback].
  fold msg. rewrite Hv. cbn -[Clawback]. unfold check_funder. rewrite bool_decide_false, decide_False by done.
  unfold CheckAuthzExists. rewrite Hg. cbn -[Clawback]. rewrite Hc. cbn. unfold EmitClawbackEvent, vp_emit, pack. cbn.
  destruct (Hpack [VAddress dest]) as [d ->]. cbn. destruct (Hpack [VCoins (vp_CoinsList p c)]) as [o ->]. cbn. eauto.
Qed.
End Checks.

(** ** A contract that takes what another one granted *)

Module VestingPcToy.
Import MapCoins GrantMap Toy.

(** The state database writes balances of [aego]. *)
#[export] Instance world_keeper : Keeper toy_world := {
  keeper_error := ();
  keeper_GetAccount w a :=
    (λ _, mkAccount 0 (Some (AmountOf (default ∅ (tw_balances w !! a)) "aego")) None) <$> tw_accounts w !! a;
  keeper_GetState _ _ _ := 0;
  keeper_GetCode _ _ := None;
  keeper_Storage _ _ := [];
  keeper_SetAccount w a acc :=
    Ok (mkToyWorld (tw_accounts w) (<[a := aego (default 0 (acc_Balance acc))]> (tw_balances w)) (tw_time w));
  keeper_SetState w _ _ _ := w;
  keeper_SetCode w _ _ := w;
  keeper_DeleteAccount w a := Ok (mkToyWorld (delete a (tw_accounts w)) (tw_balances w) (tw_time w))
}.

Definition vesting_names : list string := ["approve"; "clawback"]%string.

Definition vesting_abi : abi_env := {|
  ab_HasReceive := false;
  ab_HasFallback := false;
  ab_MethodById id := match id with k :: _ => vesting_names !! Z.to_nat k | [] => None end;
  ab_Unpack _ data :=
    match data with
    | [a] => Some [VAddress a; VString ClawbackMsgURL]
    | [a; b; c] => Some [VAddress a; VAddress b; VAddress c]
    | _ => None
    end;
  ab_Pack _ := Some [];
  ab_EventID _ := 1;
  ab_keccak _ := 0
|}.

Definition toy_vesting_pc : vesting_pc_env := {|
  vp_abi := vesting_abi;
  vp_GasConfig := mkGasConfig 1000 3 2000 30;
  vp_NewCoins l := match l with [(_, n)] => if n <? 0 then Panic else Ok (aego n) | _ => Panic end;
  vp_CoinsList c := [("aego"%string, AmountOf c "aego")]
|}.

Definition no_grants : grants := ∅.
Definition toy_vpc : vpc_state := mkVpcState (New (mkTxConfig 0 0 0 0)) toy_state no_grants.

(** Account 66 lets its contract 77 claw back, and calls it: 77 names the funder 5 and the
    destination 66.  Account 5 has granted nothing. *)
Definition approve_77 : Contract := mkContract 66 0x803 0 [0; 0; 0; 0; 77] 100000.
Definition clawback_by_77 : Contract := mkContract 77 0x803 0 [1; 0; 0; 0; 5; 7; 66] 100000.

Definition taken : outcome (pc_error + vesting_error) (list byte * vpc_state * Z) :=
  '(_, st, _) ← vesting_Run toy_vesting_pc 66 approve_77 false 0 10 toy_vpc;
  vesting_Run toy_vesting_pc 66 clawback_by_77 false 0 10 st.

Definition balance_of (a : Z) (st : vpc_state) : Z := AmountOf (default ∅ (tw_balances (v_world (vp_vesting st)) !! a)) "aego".

Example contract_takes_grant :
  match taken with Ok (_, st, _) => (balance_of 66 st, balance_of 7 st, balance_of 5 st) | _ => (0, 0, 0) end = (20, 10, 100).
Proof. vm_compute. reflexivity. Qed.

(** The same with the grant given. *)
Definition granted : vpc_state :=
  mkVpcState (New (mkTxConfig 0 0 0 0)) toy_state {[ (77, 66, ClawbackMsgURL) := (GenericAuthorization ClawbackMsgURL, None) ]}.

Definition method_of_77 : outcome (pc_error + vesting_error) (list byte * vpc_state) :=
  vesting_method toy_vesting_pc "clawback" 66 clawback_by_77 [VAddress 5; VAddress 7; VAddress 66] granted.

Lemma vesting_calls_checked_witness :
  ∃ bz st', method_of_77 = Ok (bz, st') ∧ balance_of 66 st' = 20 ∧
    others_kept 66 (vp_grants granted) (vp_grants st') ∧
    ∃ call, asks toy_vesting_pc "clawback" [VAddress 5; VAddress 7; VAddress 66] call ∧
      runs call toy_state (vp_vesting st') ∧ permitted 66 77 call (vp_grants granted) ∧
      vp_grants st' = vp_grants granted.
Proof.
  assert (match method_of_77 with Ok (_, st') => balance_of 66 st' | _ => 0 end = 20) as Hb by (vm_compute; reflexivity).
  destruct method_of_77 as [[bz st']| |] eqn:Hm; [|discriminate Hb..].
  exists bz, st'. split; [reflexivity|]. split; [exact Hb|].
  exact (vesting_calls_checked toy_vesting_pc "clawback" 66 clawback_by_77 _ granted bz st' Hm).
Defined.
End VestingPcToy.
