(* ===== verification/DistributionPrecompile.v ===== *)
(** * The distribution precompile: [precompiles/distribution]

    Contracts withdraw the rewards of delegators and validators and set the address that
    gets them.  The message server, the keeper of the distribution module and what is
    read of the staking module are fields of [dist_env].  A delegator is written as its
    address; the source has its Bech32 form.  The queries, which pass a request on, are
    an argument of the contract. *)

From S2P Require Import Prelude Sdk AccessList StateDB EvmKeeper EvmTx Precompile.

Inductive dist_msg :=
| MsgSetWithdrawAddress (delegator : Address) (withdrawer : string)
| MsgWithdrawDelegatorReward (delegator : Address) (validator : string)
| MsgWithdrawValidatorCommission (validator : string).

Section DistributionPrecompile.
Context `{EE : EvmEnv} `{AK : !AuthzKeeper} `{GE : Geth}.

Record dist_env := mkDistEnv {
  dp_abi : abi_env;
  dp_keccak : list byte → Hash;
  dp_GasConfig : GasConfig;
  dp_BondDenom : chain → string;
  (** the operators of at most so many validators of a delegator *)
  dp_GetDelegatorValidators : chain → Address → Z → list string;
  dp_WithdrawDelegationRewards : chain → Address → Address → outcome string (coins * chain);
  dp_MsgValidateBasic : dist_msg → outcome string ();
  (** the message server, with the amount of the response *)
  dp_MsgServer : chain → dist_msg → outcome string (coins * chain);
  dp_ValAddressFromBech32 : string → outcome string Address;
  dp_AccAddressFromBech32 : string → option Address;
  dp_Bech32ifyAddressBytes : string → Address → outcome string string;
  (** the coins of an [sdk.Coins], in its order *)
  dp_CoinsList : coins → list (string * Z)
}.

Variable p : dist_env.

Definition distribution_Address : Address := 0x801.

Definition dp_chain (st : pc_state) : chain := ek_chain (pc_store st).

(** ** Messages: [types.go], [common/types.go] *)

Definition check_delegator (arg : abi_value) : pc_result Address :=
  match arg with VAddress a => if a =? 0 then Err PErrInvalid else Ok a | _ => Err PErrInvalid end.

(** [s, _ := arg.(string)]. *)
Definition string_or_empty (arg : abi_value) : string := match arg with VString s => s | _ => EmptyString end.

Definition parseClaimRewardsArgs (args : list abi_value) : pc_result (Address * Z) :=
  match args with
  | [a; b] =>
      delegator ← check_delegator a;
      match b with VUint32 maxRetrieve => Ok (delegator, maxRetrieve) | _ => Err PErrArgs end
  | _ => Err PErrArgs
  end.

Definition dp_validated (msg : dist_msg) : pc_result dist_msg := _ ← of_sdk (dp_MsgValidateBasic p msg); Ok msg.

Definition NewMsgSetWithdrawAddress (args : list abi_value) : pc_result (dist_msg * Address * string) :=
  match args with
  | [a; b] =>
      delegator ← check_delegator a;
      withdrawer ← (let w := string_or_empty b in
                    if IsHexAddress w then of_sdk (dp_Bech32ifyAddressBytes p "dhives" (HexToAddress w)) else Ok w);
      msg ← dp_validated (MsgSetWithdrawAddress delegator withdrawer);
      Ok (msg, delegator, withdrawer)
  | _ => Err PErrArgs
  end.

Definition NewMsgWithdrawDelegatorReward (args : list abi_value) : pc_result (dist_msg * Address * string) :=
  match args with
  | [a; b] =>
      delegator ← check_delegator a;
      let validator := string_or_empty b in
      msg ← dp_validated (MsgWithdrawDelegatorReward delegator validator);
      Ok (msg, delegator, validator)
  | _ => Err PErrArgs
  end.

(** An account that does not parse panics. *)
Definition HexAddressFromBech32String (addr : string) : pc_result Address :=
  if str_contains "val" addr then of_sdk (dp_ValAddressFromBech32 p addr)
  else match dp_AccAddressFromBech32 p addr with Some a => Ok a | None => Panic end.

Definition NewMsgWithdrawValidatorCommission (args : list abi_value) : pc_result (dist_msg * Address * string) :=
  match args with
  | [a] =>
      let validator := string_or_empty a in
      msg ← dp_validated (MsgWithdrawValidatorCommission validator);
      hex ← HexAddressFromBech32String validator;
      Ok (msg, hex, validator)
  | _ => Err PErrArgs
  end.

(** ** Events: [events.go] *)

Definition dp_log (event : string) (topics : list abi_value) (data : list byte) (st : pc_state) : pc_result pc_state :=
  ts ← mapM (MakeTopic (dp_abi p)) topics;
  Ok (with_stateDB
        (AddLog (mkLog distribution_Address (ab_EventID (dp_abi p) event :: ts) data 0 0 0 0) (pc_stateDB st)) st).

(** [coins[0].Amount] panics without coins. *)
Definition first_amount (c : coins) : pc_result Z :=
  match dp_CoinsList p c with (_, n) :: _ => Ok n | [] => Panic end.

Definition EmitClaimRewardsEvent (delegator : Address) (totalCoins : coins) (st : pc_state) : pc_result pc_state :=
  packed ← pack (dp_abi p) [VBig (AmountOf totalCoins (dp_BondDenom p (dp_chain st)))];
  dp_log "ClaimRewards" [VAddress delegator] packed st.

Definition EmitSetWithdrawAddressEvent (caller : Address) (withdrawer : string) (st : pc_state) : pc_result pc_state :=
  packed ← pack (dp_abi p) [VString withdrawer];
  dp_log "SetWithdrawerAddress" [VAddress caller] packed st.

Definition EmitWithdrawDelegatorRewardsEvent (delegator : Address) (validator : string) (c : coins) (st : pc_state) :
    pc_result pc_state :=
  valAddr ← of_sdk (dp_ValAddressFromBech32 p validator);
  n ← first_amount c;
  dp_log "WithdrawDelegatorRewards" [VAddress delegator; VAddress valAddr] (PackNum n) st.

Definition EmitWithdrawValidatorCommissionEvent (validator : string) (c : coins) (st : pc_state) : pc_result pc_state :=
  n ← first_amount c;
  dp_log "WithdrawValidatorCommission" [VString validator] (PackNum n) st.

(** ** Transactions: [tx.go] *)

Definition dp_success (st : pc_state) : pc_result (list byte * pc_state) :=
  bz ← pack (dp_abi p) [VBool true]; Ok (bz, st).

(** The account acted for is the caller or the origin. *)
Definition check_origin (contract : Contract) (origin account : Address) : pc_result () :=
  if negb (bool_decide (ct_CallerAddress contract = account)) && negb (bool_decide (origin = account))
  then Err PErrDifferentOrigin else Ok ().

(** The loop over the validators of a delegator. *)
Fixpoint claim_all (delegator : Address) (validators : list string) (totalCoins : coins) (c : chain) :
    pc_result (coins * chain) :=
  match validators with
  | [] => Ok (totalCoins, c)
  | validator :: rest =>
      valAddr ← of_sdk (dp_ValAddressFromBech32 p validator);
      '(amount, c) ← of_sdk (dp_WithdrawDelegationRewards p c delegator valAddr);
      claim_all delegator rest (coins_Add totalCoins amount) c
  end.

Definition ClaimRewards (origin : Address) (contract : Contract) (args : list abi_value) (st : pc_state) :
    pc_result (list byte * pc_state) :=
  '(delegator, maxRetrieve) ← parseClaimRewardsArgs args;
  _ ← check_origin contract origin delegator;
  let validators := dp_GetDelegatorValidators p (dp_chain st) delegator maxRetrieve in
  '(totalCoins, c) ← claim_all delegator validators NewCoins (dp_chain st);
  st ← EmitClaimRewardsEvent delegator totalCoins (with_chain c st);
  dp_success st.

Definition SetWithdrawAddress (origin : Address) (contract : Contract) (args : list abi_value) (st : pc_state) :
    pc_result (list byte * pc_state) :=
  '(msg, delegator, withdrawer) ← NewMsgSetWithdrawAddress args;
  _ ← check_origin contract origin delegator;
  '(_, c) ← of_sdk (dp_MsgServer p (dp_chain st) msg);
  st ← EmitSetWithdrawAddressEvent delegator withdrawer (with_chain c st);
  dp_success st.

(** The balance of a caller that is the delegator is mirrored in the state database. *)
Definition WithdrawDelegatorRewards (origin : Address) (contract : Contract) (args : list abi_value) (st : pc_state) :
    pc_result (list byte * pc_state) :=
  let caller := ct_CallerAddress contract in
  '(msg, delegator, validator) ← NewMsgWithdrawDelegatorReward args;
  _ ← check_origin contract origin delegator;
  '(amount, c) ← of_sdk (dp_MsgServer p (dp_chain st) msg);
  st ← EmitWithdrawDelegatorRewardsEvent delegator validator amount (with_chain c st);
  st ← (if decide (caller = delegator) then
          n ← first_amount amount;
          Ok (with_stateDB (AddBalance (dp_keccak p) (pc_store st) caller n (pc_stateDB st)) st)
        else Ok st);
  bz ← pack (dp_abi p) [VCoins (dp_CoinsList p amount)];
  Ok (bz, st).

Definition WithdrawValidatorCommission (origin : Address) (contract : Contract) (args : list abi_value) (st : pc_state) :
    pc_result (list byte * pc_state) :=
  '(msg, hex, validator) ← NewMsgWithdrawValidatorCommission args;
  _ ← check_origin contract origin hex;
  '(amount, c) ← of_sdk (dp_MsgServer p (dp_chain st) msg);
  st ← EmitWithdrawValidatorCommissionEvent validator amount (with_chain c st);
  bz ← pack (dp_abi p) [VCoins (dp_CoinsList p amount)];
  Ok (bz, st).

(** ** The contract: [distribution.go] *)

Definition distribution_IsTransaction (name : string) : bool :=
  bool_decide (name ∈ ["claimRewards"; "setWithdrawAddress"; "withdrawDelegatorRewards";
                       "withdrawValidatorCommission"]%string).

Definition distribution_RequiredGas : list byte → partial Z :=
  contract_RequiredGas (dp_abi p) (dp_GasConfig p) distribution_IsTransaction.

(** The queries, which write nothing; for an unknown method they give nothing. *)
Variable distribution_query : string → list abi_value → chain → pc_result (list byte).

Definition distribution_method (name : string) (origin : Address) (contract : Contract) (args : list abi_value)
    (st : pc_state) : pc_result (list byte * pc_state) :=
  if decide (name = "claimRewards"%string) then ClaimRewards origin contract args st
  else if decide (name = "setWithdrawAddress"%string) then SetWithdrawAddress origin contract args st
  else if decide (name = "withdrawDelegatorRewards"%string) then WithdrawDelegatorRewards origin contract args st
  else if decide (name = "withdrawValidatorCommission"%string) then WithdrawValidatorCommission origin contract args st
  else bz ← distribution_query name args (dp_chain st); Ok (bz, st).

(** The state database is not written to the stores first. *)
Definition distribution_Run (origin : Address) (contract : Contract) (readOnly : bool) (initialGas finalGas : Z)
    (st : pc_state) : pc_result (list byte * pc_state * Z) :=
  '(m, args) ← RunSetup (dp_abi p) contract readOnly distribution_IsTransaction initialGas;
  charge contract initialGas finalGas (distribution_method (me_Name m) origin contract args st).
End DistributionPrecompile.
