(* ===== verification/DistributionPrecompileSpec.v ===== *)
(** * What the distribution precompile promises: [precompiles/distribution]

    Rewards are withdrawn for the caller or the origin only, and no grant is touched.
    A delegator that the transaction has not written keeps what the module paid.  One
    that it has written is left by the final commit of the state database with what the
    database said, and the rewards besides only for a caller that withdraws its own
    ([rewards_committed_balance]).  An origin that was written in the transaction loses
    them ([DistToy.claim_for_origin_burns]), and a caller whose rewards go to another
    address gets them nevertheless ([DistToy.withdrawal_pays_twice]). *)

From S2P Require Import Prelude Sdk AccessList StateDB Journal StateDBSpec Commit EvmKeeper EvmKeeperSpec EvmTx EvmTxSpec Precompile PrecompileSpec Erc20PrecompileSpec DistributionPrecompile.

Section Rewards.
Context `{EE : EvmEnv} `{CL : !CoinsLaws} `{EL : !EvmEnvLaws} `{AK : !AuthzKeeper} `{GE : Geth}.
Variable p : dist_env.
Variable query : string → list abi_value → chain → pc_result (list byte).

Lemma check_origin_inv ct origin account :
  check_origin ct origin account = Ok () → account = ct_CallerAddress ct ∨ account = origin.
Proof.
  unfold check_origin. do 2 case_bool_decide; cbn; intros Hc; [by left|by left|by right|discriminate Hc].
Qed.

(** A log leaves the objects, the stores and the grants alone. *)
Definition logged (st st' : pc_state) : Prop :=
  sdb_stateObjects (pc_stateDB st') = sdb_stateObjects (pc_stateDB st) ∧ pc_store st' = pc_store st ∧
  pc_grants st' = pc_grants st ∧ ∀ ctx, sdb_wf ctx (pc_stateDB st) → sdb_wf ctx (pc_stateDB st').

Lemma dp_log_logged event topics data st st' : dp_log p event topics data st = Ok st' → logged st st'.
Proof.
  intros Hl. apply bind_Ok_inv in Hl as (ts & _ & [= <-]). split_and!; [done..|].
  intros ctx Hwf. by apply (sdb_wf_same ctx (pc_stateDB st)).
Qed.

Lemma dp_success_inv st bz st' : dp_success p st = Ok (bz, st') → st' = st.
Proof. intros Hs. by apply bind_Ok_inv in Hs as (? & _ & [= _ <-]). Qed.

(** ** Inversions of the transactions *)

Lemma claim_inv origin ct delegator maxRetrieve st bz st' :
  ClaimRewards p origin ct [VAddress delegator; VUint32 maxRetrieve] st = Ok (bz, st') →
  (delegator = ct_CallerAddress ct ∨ delegator = origin) ∧
  ∃ total c, claim_all p delegator (dp_GetDelegatorValidators p (dp_chain st) delegator maxRetrieve) NewCoins (dp_chain st) =
      Ok (total, c) ∧ logged (with_chain c st) st'.
Proof.
  intros Hm. apply bind_Ok_inv in Hm as ([d n] & Hargs & Hm). cbn in Hargs. destruct (delegator =? 0); [done|].
  injection Hargs as <- <-. apply bind_Ok_inv in Hm as ([] & Ho%check_origin_inv & Hm).
  apply bind_Ok_inv in Hm as ([total c] & Hc & Hm). apply bind_Ok_inv in Hm as (st1 & He & ->%dp_success_inv).
  split; [done|]. exists total, c. split; [done|]. apply bind_Ok_inv in He as (packed & _ & He%dp_log_logged). done.
Qed.

(** The state after a withdrawal: a log, and the caller's own rewards added. *)
Lemma withdraw_inv origin ct delegator validator st bz st' :
  WithdrawDelegatorRewards p origin ct [VAddress delegator; VString validator] st = Ok (bz, st') →
  (delegator = ct_CallerAddress ct ∨ delegator = origin) ∧
  ∃ amount c n st1, dp_MsgServer p (dp_chain st) (MsgWithdrawDelegatorReward delegator validator) = Ok (amount, c) ∧
    first_amount p amount = Ok n ∧ logged (with_chain c st) st1 ∧
    st' = if decide (ct_CallerAddress ct = delegator)
          then with_stateDB (AddBalance (dp_keccak p) (pc_store st1) delegator n (pc_stateDB st1)) st1 else st1.
Proof.
  intros Hm. apply bind_Ok_inv in Hm as ([[msg d] v] & Hargs & Hm). cbn in Hargs. destruct (delegator =? 0); [done|].
  rewrite Ok_bind in Hargs. apply bind_Ok_inv in Hargs as (msg' & Hmsg & [= <- <- <-]).
  apply bind_Ok_inv in Hmsg as (u & _ & [= <-]). apply bind_Ok_inv in Hm as ([] & Ho%check_origin_inv & Hm).
  apply bind_Ok_inv in Hm as ([amount c] & Hc%of_sdk_Ok & Hm). apply bind_Ok_inv in Hm as (st1 & He & Hm).
  apply bind_Ok_inv in He as (va & _ & He). apply bind_Ok_inv in He as (n & Hn & He%dp_log_logged).
  apply bind_Ok_inv in Hm as (st2 & Hb & Hm). apply bind_Ok_inv in Hm as (out & _ & [= _ <-]).
  split; [done|]. exists amount, c, n, st1. split_and!; [done..|].
  case_decide as Hd; [|by injection Hb]. rewrite Hn, Ok_bind in Hb. injection Hb as <-. by rewrite Hd.
Qed.

(** What the module paid out, and the chain it left. *)
Definition paid (name : string) (delegator : Address) (arg : abi_value) (c : chain) (amount : coins) (c' : chain) : Prop :=
  if decide (name = "claimRewards"%string)
  then ∃ maxRetrieve, arg = VUint32 maxRetrieve ∧
         claim_all p delegator (dp_GetDelegatorValidators p c delegator maxRetrieve) NewCoins c = Ok (amount, c')
  else ∃ validator, arg = VString validator ∧
         dp_MsgServer p c (MsgWithdrawDelegatorReward delegator validator) = Ok (amount, c').

(** What of it is added to the delegator's balance in the state database. *)
Definition mirrored (name : string) (caller delegator : Address) (amount : coins) : Z :=
  if bool_decide (name = "withdrawDelegatorRewards"%string) && bool_decide (caller = delegator)
  then match dp_CoinsList p amount with (_, n) :: _ => n | [] => 0 end else 0.

Definition addressed (s : StateDB) : Prop := ∀ a o, sdb_stateObjects s !! a = Some o → so_address o = a.

Lemma AddBalance_addressed c a n s : addressed s → addressed (AddBalance (dp_keccak p) c a n s).
Proof.
  intros Hs. unfold AddBalance, obj_AddBalance, getOrNewStateObject, createObject, getStateObject.
  repeat case_match; simplify_eq/=; intros b o' Hb; cbn in Hb;
    repeat (apply lookup_insert_Some in Hb as [[<- <-]|[_ Hb]]; [try done; cbn; eauto|]); by eauto.
Qed.

(** A commit leaves the balance of an account that was not written. *)
Lemma clean_balance s c c' a d :
  addressed s → a ∉ sortedDirties (sdb_journal s) → Commit c s = Ok c' →
  bank_GetBalance (ek_chain c') a d = bank_GetBalance (ek_chain c) a d.
Proof.
  intros Hs Ha Hc. destruct (commit_objects_bank s _ c c' Hs (NoDup_sorted_keys _) Hc) as [Hb _]. apply Hb. by left.
Qed.

(** C14.  Rewards are claimed and withdrawn for the caller or the origin, and no grant
    changes.  After the final commit of the state database a delegator that the journal
    has not marked as written has the balance that the module left it.  One that is
    marked, and whose object was loaded before the call and is not destructed, has the
    balance that the database had for it; the rewards are added only when a caller
    withdraws its own from one validator, and then whatever address the module paid them
    to. *)
Theorem rewards_committed_balance ctx name origin ct delegator arg st bz st' c' :
  name = "claimRewards"%string ∧ (∃ n, arg = VUint32 n) ∨
    name = "withdrawDelegatorRewards"%string ∧ (∃ v, arg = VString v) →
  distribution_method p query name origin ct [VAddress delegator; arg] st = Ok (bz, st') →
  sdb_wf ctx (pc_stateDB st) → Commit (pc_store st') (pc_stateDB st') = Ok c' →
  (delegator = ct_CallerAddress ct ∨ delegator = origin) ∧ pc_grants st' = pc_grants st ∧
  ∃ amount c, paid name delegator arg (dp_chain st) amount c ∧
    (delegator ∉ sortedDirties (sdb_journal (pc_stateDB st')) →
       bank_GetBalance (ek_chain c') delegator EvmDenom = bank_GetBalance c delegator EvmDenom) ∧
    (delegator ∈ sortedDirties (sdb_journal (pc_stateDB st')) →
     ∀ o, sdb_stateObjects (pc_stateDB st) !! delegator = Some o → so_suicided o = false →
       bank_GetBalance (ek_chain c') delegator EvmDenom =
         Balance o + mirrored name (ct_CallerAddress ct) delegator amount).
Proof.
  intros Hname Hm Hwf Hc. destruct Hname as [[-> [n ->]]|[-> [v ->]]].
  - apply claim_inv in Hm as (Hd & total & c & Hcl & Hobj & Hst & Hg & Hwf'). split; [done|]. split; [by rewrite Hg|].
    exists total, c. split; [by exists n|]. split.
    + intros Hclean. rewrite (clean_balance _ _ _ _ _ (sdb_wf_address _ _ (Hwf' ctx Hwf)) Hclean Hc). by rewrite Hst.
    + intros Hdirty o Ho Hs. cbn in Hobj. rewrite <-Hobj in Ho. rewrite Z.add_0_r.
      by apply (committed_balance (dp_keccak p) ctx _ _ _ _ _ (Hwf' ctx Hwf) Ho Hs Hdirty Hc).
  - apply withdraw_inv in Hm as (Hd & amount & c & n & st1 & Hmsg & Hn & (Hobj & Hst & Hg & Hwf') & ->).
    split; [done|]. split; [by case_decide; exact Hg|]. exists amount, c. split; [by exists v|].
    specialize (Hwf' ctx Hwf). pose proof (sdb_wf_address _ _ Hwf') as Had. split.
    + intros Hclean. destruct (decide (ct_CallerAddress ct = delegator)).
      * rewrite (clean_balance _ _ _ _ _ (AddBalance_addressed _ _ _ _ Had) Hclean Hc). cbn. by rewrite Hst.
      * rewrite (clean_balance _ _ _ _ _ Had Hclean Hc). by rewrite Hst.
    + intros Hdirty o Ho Hs. cbn in Hobj. rewrite <-Hobj in Ho. unfold mirrored.
      rewrite bool_decide_true by done. cbn [andb]. unfold first_amount in Hn.
      destruct (dp_CoinsList p amount) as [|[d m] l]; [done|]. injection Hn as ->.
      destruct (decide (ct_CallerAddress ct = delegator)) as [Hcd|Hcd].
      * rewrite bool_decide_true by done. cbn in Hdirty, Hc. rewrite AddBalance_Sub in Hdirty, Hc.
        destruct (SubBalance_object (dp_keccak p) (pc_store st1) delegator (- n) (pc_stateDB st1) o Ho (Had _ _ Ho))
          as (o' & Ho' & Hb & Hs' & Hwf''). rewrite Hs in Hs'.
        rewrite (committed_balance (dp_keccak p) ctx _ _ _ _ _ (Hwf'' ctx Hwf') Ho' Hs' Hdirty Hc). lia.
      * rewrite bool_decide_false by done. rewrite Z.add_0_r.
        by apply (committed_balance (dp_keccak p) ctx _ _ _ _ _ Hwf' Ho Hs Hdirty Hc).
Qed.
End Rewards.

(** ** Rewards that are lost and rewards that are paid twice *)

Module DistToy.
Import MapCoins MapBank EvmToy GethToy GrantMap.

Definition dist_abi : abi_env := {|
  ab_HasReceive := false;
  ab_HasFallback := false;
  ab_MethodById _ := None;
  ab_Unpack _ _ := None;
  ab_Pack _ := Some [];
  ab_EventID _ := 1;
  ab_keccak _ := 0
|}.

(** The module pays from address 60: 5 to account 7 for its own rewards, and those of
    contract 8 to its withdraw address 9. *)
Definition pay_rewards (c : toy_chain) (delegator : Address) : outcome string (coins * toy_chain) :=
  c' ← TokenToy.toy_send c 60 (if decide (delegator = 8) then 9 else delegator) "aego" 5;
  Ok (NewCoin "aego" 5, c').

Definition toy_dist : dist_env := {|
  dp_abi := dist_abi;
  dp_keccak := toy_keccak;
  dp_GasConfig := mkGasConfig 1000 3 2000 30;
  dp_BondDenom _ := "aego"%string;
  dp_GetDelegatorValidators _ _ _ := ["val"%string];
  dp_WithdrawDelegationRewards c delegator _ := pay_rewards c delegator;
  dp_MsgValidateBasic _ := Ok ();
  dp_MsgServer c msg := match msg with MsgWithdrawDelegatorReward d _ => pay_rewards c d | _ => Ok (NewCoins, c) end;
  dp_ValAddressFromBech32 _ := Ok 61;
  dp_AccAddressFromBech32 _ := None;
  dp_Bech32ifyAddressBytes _ _ := Ok "ego"%string;
  dp_CoinsList c := [("aego"%string, AmountOf c "aego")]
|}.

Definition no_dist_query (_ : string) (_ : list abi_value) (_ : toy_chain) : pc_result (list byte) := Ok [].

Definition dist_store : evm_store :=
  mkEvmStore (mkToyChain 0 {[ 7 := (Some 99, 3) ]}
                (mkBank {[ "aego"%string := 140 ]} {[ 7 := {[ "aego"%string := 100 ]}; 60 := {[ "aego"%string := 40 ]} ]}))
    ∅ ∅.

(** Account 7 has sent 10 to contract 8 and calls it. *)
Definition dist_db : StateDB :=
  match run_all toy_keccak dist_store [CSubBalance 7 10; CAddBalance 8 10] (New toy_config) with
  | Ok s => s
  | _ => New toy_config
  end.
Definition dist_state : pc_state := mkPcState dist_db dist_store (∅ : grant_map).
Definition by_8 : Contract := mkContract 8 0x801 0 [] 100000.

(** After a method and the final commit: what 7, 8 and 9 have, and the supply. *)
Definition dist_outcome (r : pc_result (list byte * pc_state)) : option (Z * Z * Z * Z) :=
  match r with
  | Ok (_, st') =>
      match Commit (pc_store st') (pc_stateDB st') with
      | Ok c' => let b a := bank_GetBalance (ek_chain c') a "aego" in Some (b 7, b 8, b 9, bank_GetSupply (ek_chain c') "aego")
      | _ => None
      end
  | _ => None
  end.

Definition claim_for_7 : pc_result (list byte * pc_state) :=
  distribution_method toy_dist no_dist_query "claimRewards" 7 by_8 [VAddress 7; VUint32 10] dist_state.
Definition withdraw_for_8 : pc_result (list byte * pc_state) :=
  distribution_method toy_dist no_dist_query "withdrawDelegatorRewards" 7 by_8 [VAddress 8; VString "val"] dist_state.

(** The 5 that the module paid to account 7 are burned by the commit. *)
Lemma claim_for_origin_burns : dist_outcome claim_for_7 = Some (90, 10, 0, 135).
Proof. vm_compute. reflexivity. Qed.

(** The 5 that the module paid to address 9 are minted again for contract 8. *)
Lemma withdrawal_pays_twice : dist_outcome withdraw_for_8 = Some (90, 15, 5, 145).
Proof. vm_compute. reflexivity. Qed.

Lemma dist_db_wf : sdb_wf dist_store dist_db.
Proof.
  unfold dist_db. destruct (run_all _ _ _ _) as [s| |] eqn:Hr; [|split; intros a o; cbn; by rewrite lookup_empty..].
  apply reached_refines in Hr as [sp Hsp]. by apply (ref_wf _ _ _ _ _ Hsp).
Qed.

Lemma dist_object : (λ o, (Balance o, so_suicided o)) <$> sdb_stateObjects dist_db !! 8 = Some (10, false).
Proof. vm_compute. reflexivity. Qed.

Lemma rewards_committed_balance_witness :
  ∃ bz st' c', withdraw_for_8 = Ok (bz, st') ∧ Commit (pc_store st') (pc_stateDB st') = Ok c' ∧
    pc_grants st' = pc_grants dist_state ∧
    ∃ amount c, paid toy_dist "withdrawDelegatorRewards" 8 (VString "val") (dp_chain dist_state) amount c ∧
      bank_GetBalance (ek_chain c') 8 EvmDenom = 10 + mirrored toy_dist "withdrawDelegatorRewards" 8 8 amount.
Proof.
  assert (match withdraw_for_8 with
          | Ok (_, st') => is_Ok (Commit (pc_store st') (pc_stateDB st')) && bool_decide (8 ∈ sortedDirties (sdb_journal (pc_stateDB st')))
          | _ => false end = true) as Hok by (vm_compute; reflexivity).
  destruct withdraw_for_8 as [[bz st']| |] eqn:Hm; [|discriminate Hok..]. apply andb_true_iff in Hok as [Hc Hd].
  destruct (Commit (pc_store st') (pc_stateDB st')) as [c'| |] eqn:Hcom; [|discriminate Hc..].
  pose proof dist_object as Ho. apply fmap_Some in Ho as (o & Ho & Hx). injection Hx as Hb Hs.
  destruct (rewards_committed_balance toy_dist no_dist_query dist_store "withdrawDelegatorRewards" 7 by_8 8 (VString "val")
    dist_state bz st' c') as (_ & Hg & amount & c & Hp & _ & Hbal).
  - right. split; [reflexivity|]. eexists. reflexivity.
  - exact Hm.
  - exact dist_db_wf.
  - exact Hcom.
  - exists bz, st', c'. split; [reflexivity|]. split; [exact Hcom|]. split; [exact Hg|]. exists amount, c.
    split; [exact Hp|]. rewrite Hb. exact (Hbal (bool_decide_eq_true_1 _ Hd) o Ho (eq_sym Hs)).
Defined.

(** An origin that the transaction has not written keeps the rewards it claims. *)
Lemma clean_origin_keeps :
  dist_outcome (distribution_method toy_dist no_dist_query "claimRewards" 7 (mkContract 7 0x801 0 [] 100000)
    [VAddress 7; VUint32 10] (mkPcState (New toy_config) dist_store (∅ : grant_map))) = Some (105, 0, 0, 140).
Proof. vm_compute. reflexivity. Qed.
End DistToy.
