(* ===== verification/Ics20Precompile.v ===== *)
(** * The ICS-20 precompile: [precompiles/ics20]

    Contracts transfer coins over IBC, with a transfer authorization of the origin when
    the caller is not the origin.  The transfer is that of [Erc20Ibc], which converts
    tokens on its way; channels, the authorization of ibc-go and the lookup and addition
    of [sdk.Coins] are fields of [ics_env].  A spend limit is a slice of coins, as the
    code cuts and writes it in place.  The queries on denomination traces, which pass a
    request on, are an argument of the contract. *)

From S2P Require Import Prelude Sdk Dec AccessList StateDB EvmKeeper EvmTx GasMeter EvmApply EvmQuery Erc20 Erc20Ibc Precompile.

(** The fields of a transfer other than token and sender. *)
Record transfer_rest := mkTransferRest {
  mr_SourcePort : string;
  mr_SourceChannel : string;
  mr_Receiver : string;
  mr_TimeoutHeight : Z * Z;
  mr_TimeoutTimestamp : Z;
  mr_Memo : string
}.

(** [authz.AcceptResponse]; an update is the list of the allocations. *)
Record accept_response := mkAccept {
  ar_Accept : bool;
  ar_Delete : bool;
  ar_Updated : option (list allocation)
}.

Section Ics20Precompile.
Context `{EE : EvmEnv} `{GE : Geth} `{EK : !EVMKeeper} `{AK : !AuthzKeeper}.

Abbreviation transfer_msg := (MsgTransfer transfer_rest).
Abbreviation ics_result A := (outcome (pc_error + erc20_error) A).

Record ics_env := mkIcsEnv {
  ic_abi : abi_env;
  ic_GasConfig : GasConfig;
  ic_ApprovalExpiration : Z;
  ic_BlockTime : Z;
  ic_HasChannel : chain → string → string → bool;
  ic_AuthorizationValidateBasic : list allocation → outcome string ();
  (** [TransferAuthorization.Accept] *)
  ic_Accept : list allocation → transfer_msg → outcome string accept_response;
  ic_MsgValidateBasic : transfer_msg → outcome string ();
  (** [Coins.Find] and [Coins.Add] *)
  ic_Find : list (string * Z) → string → option (string * Z);
  ic_Add : list (string * Z) → string * Z → partial (list (string * Z))
}.

Variable x : erc20_env.
Variable ib : ibc_env (rest := transfer_rest).
Variable p : ics_env.

Record ics_state := mkIcsState {
  ics_stateDB : StateDB;
  ics_erc20 : erc20_store;
  ics_grants : grants
}.

Definition ics_with_stateDB (sdb : StateDB) (st : ics_state) : ics_state := mkIcsState sdb (ics_erc20 st) (ics_grants st).
Definition ics_with_grants (g : grants) (st : ics_state) : ics_state := mkIcsState (ics_stateDB st) (ics_erc20 st) g.
Definition with_erc20 (e : erc20_store) (st : ics_state) : ics_state := mkIcsState (ics_stateDB st) e (ics_grants st).

Definition ics_chain (st : ics_state) : chain := ek_chain (er_evm (ics_erc20 st)).

Definition ics20_Address : Address := 0x802.

(** ** Arguments: [types.go] *)

(** The allow list of an argument is not copied. *)
Fixpoint spend_limit (l : list (string * Z)) : ics_result (list (string * Z)) :=
  match l with
  | [] => Ok []
  | (denom, amount) :: rest =>
      n ← of_pc (of_total (NewIntFromBigInt amount));
      tail ← spend_limit rest;
      Ok ((denom, n) :: tail)
  end.

Fixpoint copy_allocations (l : list allocation) : ics_result (list allocation) :=
  match l with
  | [] => Ok []
  | a :: rest =>
      limit ← spend_limit (al_SpendLimit a);
      tail ← copy_allocations rest;
      Ok (mkAllocation (al_SourcePort a) (al_SourceChannel a) limit [] :: tail)
  end.

Definition checkTransferAuthzArgs (args : list abi_value) : ics_result (Address * list allocation) :=
  match args with
  | [VAddress grantee; VAllocations input] => l ← copy_allocations input; Ok (grantee, l)
  | [VAddress _; _] => Err (inl PErrArgs)
  | [_; _] => Err (inl PErrInvalidGrantee)
  | _ => Err (inl PErrArgs)
  end.

Definition NewTransferAuthorization (args : list abi_value) : ics_result (Address * list allocation) :=
  '(grantee, allocations) ← checkTransferAuthzArgs args;
  _ ← of_pc (of_sdk (ic_AuthorizationValidateBasic p allocations));
  Ok (grantee, allocations).

Definition CreateAndValidateMsgTransfer (port channel : string) (coin : string * Z) (sender receiver : string)
    (height : Z * Z) (timestamp : Z) (memo : string) : ics_result transfer_msg :=
  let msg := mkMsgTransfer _ coin.1 coin.2 sender (mkTransferRest port channel receiver height timestamp memo) in
  _ ← of_pc (of_sdk (ic_MsgValidateBasic p msg));
  Ok msg.

Definition NewMsgTransfer (args : list abi_value) : ics_result (transfer_msg * Address) :=
  match args with
  | [VString port; VString channel; VString denom; VBig amount; VAddress sender; VString receiver;
     VHeight number height; VUint64 timestamp; VString memo] =>
      n ← of_pc (of_total (NewIntFromBigInt amount));
      msg ← CreateAndValidateMsgTransfer port channel (denom, n) (x_Bech32 x sender) receiver (number, height) timestamp memo;
      Ok (msg, sender)
  | _ => Err (inl PErrArgs)
  end.

Definition ics20_checkRevokeArgs (args : list abi_value) : ics_result Address :=
  match args with [a] => of_pc (check_address a) | _ => Err (inl PErrArgs) end.

Definition checkAllowanceArgs (args : list abi_value) : ics_result (Address * string * string * string * Z) :=
  match args with
  | [a; b; c; d; e] =>
      grantee ← of_pc (check_address a);
      match b, c, d, e with
      | VString port, VString channel, VString denom, VBig amount => Ok (grantee, port, channel, denom, amount)
      | _, _, _, _ => Err (inl PErrArgs)
      end
  | _ => Err (inl PErrArgs)
  end.

(** The first allocation of the channel decides. *)
Fixpoint checkAllocationExists (allocations : list allocation) (port channel denom : string) (i : nat) :
    ics_result (string * Z * nat) :=
  match allocations with
  | [] => Err (inl PErrNoMatchingAllocation)
  | a :: rest =>
      if bool_decide (al_SourcePort a ≠ port) || bool_decide (al_SourceChannel a ≠ channel)
      then checkAllocationExists rest port channel denom (S i)
      else match ic_Find p (al_SpendLimit a) denom with
           | None => Err (inl PErrNoMatchingAllocation)
           | Some limit => Ok (limit, i)
           end
  end.

Definition CheckOriginAndSender (contract : Contract) (origin sender : Address) : ics_result Address :=
  if decide (ct_CallerAddress contract = sender) then Ok origin
  else if decide (origin = sender) then Ok sender
  else Err (inl PErrDifferentOrigin).

(** ** Authorizations: [approve_common.go], [authorization/events.go] *)

Definition EmitIBCTransferAuthorizationEvent (grantee granter : Address) (allocations : list allocation) (st : ics_state) :
    ics_result ics_state :=
  sdb ← of_pc (emit_event (ic_abi p) ics20_Address "IBCTransferAuthorization" (VAddress grantee) (VAddress granter)
                 [VAllocations allocations] (ics_stateDB st));
  Ok (ics_with_stateDB sdb st).

Definition ics20_Approve (grantee origin : Address) (allocations : list allocation) (st : ics_state) : ics_result ics_state :=
  if forallb (λ a, ic_HasChannel p (ics_chain st) (al_SourcePort a) (al_SourceChannel a)) allocations then
    g ← of_pc (of_sdk (az_SaveGrant (ics_grants st) grantee origin (TransferAuthorization allocations)
                         (Some (ic_BlockTime p + ic_ApprovalExpiration p))));
    EmitIBCTransferAuthorizationEvent grantee origin allocations (ics_with_grants g st)
  else Err (inl PErrChannelNotFound).

(** The transfer authorization of the grantee, with its expiration. *)
Definition transfer_authorization (g : grants) (grantee granter : Address) :
    ics_result (list allocation * option Z) :=
  '(a, expiration) ← of_pc (CheckAuthzExists g grantee granter TransferMsgURL);
  match a with
  | TransferAuthorization allocations => Ok (allocations, expiration)
  | _ => Err (inl PErrUnknownAuthorizationType)
  end.

Definition ics20_Revoke (grantee origin : Address) (st : ics_state) : ics_result ics_state :=
  _ ← transfer_authorization (ics_grants st) grantee origin;
  g ← of_pc (of_sdk (az_DeleteGrant (ics_grants st) grantee origin TransferMsgURL));
  EmitIBCTransferAuthorizationEvent grantee origin [] (ics_with_grants g st).

(** Saving changed allocations and telling of them. *)
Definition save_allocations (grantee granter : Address) (allocations : list allocation) (expiration : option Z)
    (st : ics_state) : ics_result ics_state :=
  g ← of_pc (of_sdk (az_SaveGrant (ics_grants st) grantee granter (TransferAuthorization allocations) expiration));
  EmitIBCTransferAuthorizationEvent grantee granter allocations (ics_with_grants g st).

Definition with_limit (limit : list (string * Z)) (a : allocation) : allocation :=
  mkAllocation (al_SourcePort a) (al_SourceChannel a) limit (al_AllowList a).

Definition ics20_IncreaseAllowance (grantee granter : Address) (port channel denom : string) (amount : Z) (st : ics_state) :
    ics_result ics_state :=
  '(allocations, expiration) ← transfer_authorization (ics_grants st) grantee granter;
  '(limit, idx) ← checkAllocationExists allocations port channel denom 0;
  allowance ← of_pc (of_total (NewIntFromBigInt amount));
  if (SafeAdd limit.2 allowance).2 then Err (inl PErrIntegerOverflow)
  else
    match allocations !! idx with
    | None => Panic
    | Some a =>
        l ← of_pc (of_total (ic_Add p (al_SpendLimit a) (denom, allowance)));
        save_allocations grantee granter (<[idx := with_limit l a]> allocations) expiration st
    end.

(** The loop that takes an expense off a spend limit.  It ranges over the slice as it was,
    of length [i + rounds]; the slice that is cut shares its array and has the length
    [len].  A cut moves the coins behind it forward. *)
Fixpoint decrease_loop (rounds i : nat) (denom : string) (expense : Z) (array : list (string * Z)) (len : nat) :
    ics_result (list (string * Z) * nat) :=
  match rounds with
  | O => Ok (array, len)
  | S rounds =>
      match array !! i with
      | None => Panic
      | Some (d, n) =>
          if decide (d ≠ denom) then decrease_loop rounds (S i) denom expense array len
          else
            diff ← of_pc (of_total (NewIntFromBigInt (n - expense)));
            if negb (0 <? diff) then
              if (len <? S i)%nat then Panic
              else decrease_loop rounds (S i) denom expense
                     (take i array ++ drop (S i) (take len array) ++ drop (len - 1) array) (len - 1)
            else if (len <=? i)%nat then Panic
            else decrease_loop rounds (S i) denom expense (<[i := (d, diff)]> array) len
      end
  end.

Definition decreased (denom : string) (expense : Z) (limit : list (string * Z)) : ics_result (list (string * Z)) :=
  '(array, len) ← decrease_loop (length limit) 0 denom expense limit (length limit);
  Ok (take len array).

Definition ics20_DecreaseAllowance (grantee granter : Address) (port channel denom : string) (amount : Z) (st : ics_state) :
    ics_result ics_state :=
  '(allocations, expiration) ← transfer_authorization (ics_grants st) grantee granter;
  '(limit, idx) ← checkAllocationExists allocations port channel denom 0;
  expense ← of_pc (of_total (NewIntFromBigInt amount));
  if limit.2 <? expense then Err (inl PErrNegativeAmount)
  else
    match allocations !! idx with
    | None => Panic
    | Some a =>
        l ← decreased denom expense (al_SpendLimit a);
        save_allocations grantee granter (<[idx := with_limit l a]> allocations) expiration st
    end.

Definition AcceptGrant (msg : transfer_msg) (a : authorization) : ics_result accept_response :=
  match a with
  | TransferAuthorization allocations =>
      resp ← of_pc (of_sdk (ic_Accept p allocations msg));
      if ar_Accept resp then Ok resp else Err (inl PErrNotAccepted)
  | _ => Err (inl PErrUnknownAuthorizationType)
  end.

Definition UpdateGrant (grantee granter : Address) (expiration : option Z) (resp : accept_response) (g : grants) :
    ics_result grants :=
  if ar_Delete resp then of_pc (of_sdk (az_DeleteGrant g grantee granter TransferMsgURL))
  else match ar_Updated resp with
       | Some l => of_pc (of_sdk (az_SaveGrant g grantee granter (TransferAuthorization l) expiration))
       | None => Ok g
       end.

(** Nothing when the caller is the origin. *)
Definition CheckAndAcceptAuthorizationIfNeeded (contract : Contract) (origin : Address) (msg : transfer_msg) (g : grants) :
    ics_result (option (accept_response * option Z)) :=
  if decide (ct_CallerAddress contract = origin) then Ok None
  else
    '(a, expiration) ← of_pc (CheckAuthzExists g (ct_CallerAddress contract) origin TransferMsgURL);
    resp ← AcceptGrant msg a;
    Ok (Some (resp, expiration)).

Definition UpdateGrantIfNeeded (contract : Contract) (origin : Address) (r : option (accept_response * option Z)) (g : grants) :
    ics_result grants :=
  if decide (ct_CallerAddress contract = origin) then Ok g
  else match r with
       | Some (resp, expiration) => UpdateGrant (ct_CallerAddress contract) origin expiration resp g
       | None => Panic
       end.

(** ** Transactions: [tx.go], [approve.go], [events.go] *)

Definition EmitIBCTransferEvent (precompileAddr sender : Address) (msg : transfer_msg) (st : ics_state) : ics_result ics_state :=
  let r := mt_rest msg in
  sdb ← of_pc (emit_event (ic_abi p) precompileAddr "IBCTransfer" (VAddress sender) (VString (mr_Receiver r))
                 [VString (mr_SourcePort r); VString (mr_SourceChannel r); VString (mt_Denom msg); VBig (mt_Amount msg);
                  VString (mr_Memo r)] (ics_stateDB st));
  Ok (ics_with_stateDB sdb st).

Definition ics20_Transfer (origin : Address) (contract : Contract) (args : list abi_value) (st : ics_state) :
    ics_result (list byte * ics_state) :=
  '(msg, sender) ← NewMsgTransfer args;
  if negb (ic_HasChannel p (ics_chain st) (mr_SourcePort (mt_rest msg)) (mr_SourceChannel (mt_rest msg)))
  then Err (inl PErrChannelNotFound)
  else
    sender ← CheckOriginAndSender contract origin sender;
    resp ← CheckAndAcceptAuthorizationIfNeeded contract origin msg (ics_grants st);
    '(sequence, e) ← of_module (Transfer x ib msg (ics_erc20 st));
    g ← UpdateGrantIfNeeded contract origin resp (ics_grants st);
    st ← EmitIBCTransferEvent ics20_Address sender msg (ics_with_grants g (with_erc20 e st));
    bz ← of_pc (pack (ic_abi p) [VUint64 sequence]);
    Ok (bz, st).

Definition ics_success (r : ics_result ics_state) : ics_result (list byte * ics_state) :=
  st ← r; bz ← of_pc (pack (ic_abi p) [VBool true]); Ok (bz, st).

Definition Precompile_Approve (origin : Address) (args : list abi_value) (st : ics_state) :
    ics_result (list byte * ics_state) :=
  '(grantee, allocations) ← NewTransferAuthorization args;
  ics_success (ics20_Approve grantee origin allocations st).

Definition Precompile_Revoke (origin : Address) (args : list abi_value) (st : ics_state) :
    ics_result (list byte * ics_state) :=
  grantee ← ics20_checkRevokeArgs args;
  ics_success (ics20_Revoke grantee origin st).

Definition Precompile_IncreaseAllowance (origin : Address) (args : list abi_value) (st : ics_state) :
    ics_result (list byte * ics_state) :=
  '(grantee, port, channel, denom, amount) ← checkAllowanceArgs args;
  ics_success (ics20_IncreaseAllowance grantee origin port channel denom amount st).

Definition Precompile_DecreaseAllowance (origin : Address) (args : list abi_value) (st : ics_state) :
    ics_result (list byte * ics_state) :=
  '(grantee, port, channel, denom, amount) ← checkAllowanceArgs args;
  ics_success (ics20_DecreaseAllowance grantee origin port channel denom amount st).

(** ** The query of an allowance and the contract: [query.go], [ics20.go] *)

Definition ics20_Allowance (args : list abi_value) (g : grants) : ics_result (list allocation) :=
  '(grantee, granter, url) ← of_pc (CheckAllowanceArgs (args ++ [VString TransferMsgURL]));
  match az_GetAuthorization g grantee granter url with
  | None => Ok []
  | Some (TransferAuthorization l, _) => Ok l
  | Some _ => Err (inl PErrArgs)
  end.

Definition ics20_IsTransaction (name : string) : bool :=
  bool_decide (name ∈ ["transfer"; "approve"; "revoke"; "increaseAllowance"; "decreaseAllowance"]%string).

Definition ics20_RequiredGas : list byte → partial Z :=
  contract_RequiredGas (ic_abi p) (ic_GasConfig p) ics20_IsTransaction.

(** The queries on denomination traces, which write nothing; an unknown method is an
    error. *)
Variable trace_query : string → list abi_value → chain → ics_result (list byte).

Definition ics20_method (name : string) (origin : Address) (contract : Contract) (args : list abi_value) (st : ics_state) :
    ics_result (list byte * ics_state) :=
  if decide (name = "approve"%string) then Precompile_Approve origin args st
  else if decide (name = "revoke"%string) then Precompile_Revoke origin args st
  else if decide (name = "increaseAllowance"%string) then Precompile_IncreaseAllowance origin args st
  else if decide (name = "decreaseAllowance"%string) then Precompile_DecreaseAllowance origin args st
  else if decide (name = "transfer"%string) then ics20_Transfer origin contract args st
  else if decide (name = "allowance"%string) then
    l ← ics20_Allowance args (ics_grants st); bz ← of_pc (pack (ic_abi p) [VAllocations l]); Ok (bz, st)
  else bz ← trace_query name args (ics_chain st); Ok (bz, st).

(** The state database is not written to the stores first. *)
Definition ics20_Run (origin : Address) (contract : Contract) (readOnly : bool) (initialGas finalGas : Z) (st : ics_state) :
    ics_result (list byte * ics_state * Z) :=
  '(m, args) ← of_pc (RunSetup (ic_abi p) contract readOnly ics20_IsTransaction initialGas);
  '(bz, st) ← ics20_method (me_Name m) origin contract args st;
  of_pc (charge contract initialGas finalGas (Ok (bz, st))).
End Ics20Precompile.
