(* ===== verification/Ics20PrecompileSpec.v ===== *)
(** * What the ICS-20 precompile promises: [precompiles/ics20]

    What a contract transfers with a grant of the origin stays within what the origin
    has given it ([transfers_within_grants]).  The loop that lowers a spend limit in
    place removes or lowers one coin ([decreased_spec]).  Two things go wrong: the
    allow list of an approval is lost ([approval_forgets_receivers]), and the coins that
    a contract sends of its own are minted again when the state database is committed
    ([transfer_committed_balance], [IcsToy.own_transfer_mints]). *)

From S2P Require Import Prelude Sdk Dec AccessList StateDB Journal StateDBSpec Commit EvmKeeper EvmKeeperSpec EvmTx EvmTxSpec GasMeter EvmApply EvmQuery Erc20 Erc20Spec Erc20Ibc Erc20IbcSpec Precompile PrecompileSpec Erc20PrecompileSpec Ics20Precompile.

(** ** Coins and allocations *)

(** What a slice of coins has of a denomination. *)
Fixpoint amount_in (l : list (string * Z)) (denom : string) : Z :=
  match l with
  | [] => 0
  | (d, n) :: rest => if decide (d = denom) then n else amount_in rest denom
  end.

(** A valid [sdk.Coins]: sorted, without duplicates, with positive amounts of 256 bits. *)
Definition coins_ok (l : list (string * Z)) : Prop :=
  StronglySorted String.le l.*1 ∧ NoDup l.*1 ∧ Forall (λ c, 0 < c.2 < 2 ^ 256) l.

Definition matches (port channel : string) (a : allocation) : Prop := al_SourcePort a = port ∧ al_SourceChannel a = channel.
#[export] Instance matches_dec port channel a : Decision (matches port channel a).
Proof. unfold matches. apply _. Defined.

(** What the first allocation of a channel allows. *)
Fixpoint allowed (l : list allocation) (port channel denom : string) : Z :=
  match l with
  | [] => 0
  | a :: rest => if decide (matches port channel a) then amount_in (al_SpendLimit a) denom else allowed rest port channel denom
  end.

(** A valid transfer authorization: valid limits, and each channel once. *)
Definition allocations_ok (l : list allocation) : Prop :=
  Forall (λ a, coins_ok (al_SpendLimit a)) l ∧ NoDup (al_SourceChannel <$> l).

Lemma amount_in_notin l d : d ∉ l.*1 → amount_in l d = 0.
Proof.
  induction l as [|[d' n] l IH]; [done|]. rewrite fmap_cons, not_elem_of_cons. intros [Hne Hin]. cbn.
  rewrite decide_False by done. by apply IH.
Qed.

Lemma amount_in_app l l' d : d ∉ l.*1 → amount_in (l ++ l') d = amount_in l' d.
Proof.
  induction l as [|[d' n] l IH]; [done|]. rewrite fmap_cons, not_elem_of_cons. intros [Hne Hin]. cbn.
  rewrite decide_False by done. by apply IH.
Qed.

Lemma amount_in_nonneg l d : coins_ok l → 0 <= amount_in l d.
Proof.
  intros (_ & _ & Hp). induction Hp as [|[d' n] l Hn _ IH]; cbn; [lia|]. cbn in Hn. case_decide; [lia|done].
Qed.

Lemma allowed_nonneg l port channel denom : allocations_ok l → 0 <= allowed l port channel denom.
Proof. intros [Hl _]. induction Hl as [|a l Ha _ IH]; cbn; [lia|]. case_decide; [by apply amount_in_nonneg|done]. Qed.

(** A coin at its place. *)
Lemma coins_split l d : coins_ok l → d ∈ l.*1 →
  ∃ pre n post, l = pre ++ (d, n) :: post ∧ (d ∉ pre.*1) ∧ (d ∉ post.*1) ∧ amount_in l d = n ∧ 0 < n < 2 ^ 256.
Proof.
  intros (_ & Hnd & Hp) Hin. apply list_elem_of_fmap in Hin as ([d' n] & -> & Hin). cbn.
  apply list_elem_of_split in Hin as (pre & post & ->).
  rewrite fmap_app, fmap_cons in Hnd. apply NoDup_app in Hnd as (_ & Hpre & Hnd). apply NoDup_cons in Hnd as [Hpost _].
  assert (d' ∉ pre.*1) as Hd. { intros Hd. apply (Hpre d' Hd). left. }
  exists pre, n, post. split_and!; [done..| | |].
  - rewrite amount_in_app by done. cbn. by rewrite decide_True.
  - apply Forall_app in Hp as [_ Hp]. apply Forall_cons in Hp as [Hn _]. cbn in Hn. lia.
  - apply Forall_app in Hp as [_ Hp]. apply Forall_cons in Hp as [Hn _]. cbn in Hn. lia.
Qed.

(** Updates and removals keep a slice valid. *)
Lemma StronglySorted_remove {A} (R : relation A) l x l' : StronglySorted R (l ++ x :: l') → StronglySorted R (l ++ l').
Proof.
  induction l as [|y l IH]; cbn; inversion 1 as [|? ? Hs Hf]; subst; [done|]. constructor; [by apply IH|].
  rewrite Forall_app, Forall_cons in *. tauto.
Qed.

Lemma coins_ok_remove l d n l' : coins_ok (l ++ (d, n) :: l') → coins_ok (l ++ l').
Proof.
  intros (Hs & Hnd & Hp). unfold coins_ok. rewrite !fmap_app, fmap_cons in *. split; [by eapply StronglySorted_remove|].
  split; [|rewrite Forall_app, Forall_cons in *; tauto].
  apply NoDup_app in Hnd as (H1 & H2 & [_ H3]%NoDup_cons). apply NoDup_app. split_and!; [done| |done].
  intros y Hy Hin. apply (H2 y Hy). by right.
Qed.

Lemma coins_ok_update l d n m l' : coins_ok (l ++ (d, n) :: l') → 0 < m < 2 ^ 256 → coins_ok (l ++ (d, m) :: l').
Proof.
  intros (Hs & Hnd & Hp) Hm. unfold coins_ok. rewrite !fmap_app, !fmap_cons in *. split; [done|]. split; [done|].
  rewrite Forall_app, Forall_cons in *. tauto.
Qed.

(** ** Lowering a limit in place *)

Section Decrease.
Context `{EE : EvmEnv} `{GE : Geth} `{EK : !EVMKeeper}.

(** Coins of other denominations are passed over. *)
Lemma decrease_skip a rounds i denom e (array : list (string * Z)) len :
  (∀ j, (i <= j < i + a)%nat → ∃ d n, array !! j = Some (d, n) ∧ d ≠ denom) →
  decrease_loop (a + rounds) i denom e array len = decrease_loop rounds (i + a) denom e array len.
Proof.
  revert i. induction a as [|a IH]; intros i Hskip; [by rewrite Nat.add_0_r|].
  cbn [decrease_loop plus]. destruct (Hskip i) as (d & n & -> & Hne); [lia|]. rewrite decide_True by done.
  rewrite IH; [by replace (S i + a)%nat with (i + S a)%nat by lia|]. intros j Hj. apply Hskip. lia.
Qed.

Lemma others_at (l : list (string * Z)) denom (j : nat) : denom ∉ l.*1 → (j < length l)%nat → ∃ d n, l !! j = Some (d, n) ∧ d ≠ denom.
Proof.
  intros Hni Hj. destruct (lookup_lt_is_Some_2 l j Hj) as [[d n] Hl]. exists d, n. split; [done|]. intros ->.
  apply Hni. apply (list_elem_of_fmap_2 fst l (denom, n)). by eapply list_elem_of_lookup_2.
Qed.

(** The array and the length after the coin at its place is met. *)
Lemma decrease_at pre n post denom e :
  denom ∉ pre.*1 → denom ∉ post.*1 → 0 <= e <= n → 0 < n < 2 ^ 256 →
  decreased denom e (pre ++ (denom, n) :: post) =
    Ok (if n - e =? 0 then pre ++ post else pre ++ (denom, n - e) :: post).
Proof.
  intros Hpre Hpost He Hn. unfold decreased. rewrite length_app. cbn [length].
  rewrite decrease_skip.
  2: { intros j Hj. destruct (others_at pre denom j) as (d & m & Hl & Hne); [done|lia|].
       exists d, m. split; [|done]. by rewrite lookup_app_l by lia. }
  cbn [plus decrease_loop]. rewrite list_lookup_middle by done. rewrite decide_False by naive_solver.
  assert (of_pc (E := erc20_error) (of_total (NewIntFromBigInt (n - e))) = Ok (n - e)) as ->.
  { unfold NewIntFromBigInt, IsValidInt256. rewrite (proj2 (Z.ltb_lt _ _)); [done|]. change (2 ^ maxBitLen) with (2 ^ 256). lia. }
  rewrite Ok_bind. destruct (Z.eqb_spec (n - e) 0) as [H0|H0].
  - rewrite H0. cbn [Z.ltb Z.compare negb]. rewrite (proj2 (Nat.ltb_ge _ _)) by lia.
    rewrite take_app_length. rewrite (take_ge (pre ++ _)) by (rewrite length_app; cbn; lia).
    replace (drop (S (length pre)) (pre ++ (denom, n) :: post)) with post
      by (rewrite drop_app_ge by lia; by replace (S (length pre) - length pre)%nat with 1%nat by lia).
    set (array := pre ++ post ++ _).
    replace (length post) with (length post + 0)%nat by lia. rewrite decrease_skip; [|].
    + cbn [decrease_loop]. rewrite Ok_bind. unfold array. rewrite (assoc_L (++)), take_app_ge by (rewrite length_app; lia).
      rewrite length_app. replace (_ - _)%nat with 0%nat by lia. by rewrite take_0, app_nil_r.
    + intros j Hj. unfold array. rewrite lookup_app_r by lia.
      destruct (decide (j - length pre < length post)%nat) as [Hlt|Hge].
      { rewrite lookup_app_l by lia. by apply others_at. }
      destruct (others_at post denom (length post - 1)) as (d & m & Hl & Hne); [done|lia|]. exists d, m. split; [|done].
      rewrite lookup_app_r by lia. replace (j - length pre - length post)%nat with 0%nat by lia.
      rewrite lookup_drop, lookup_app_r, lookup_cons_ne_0 by lia.
      rewrite <-Hl. f_equal. lia.
  - rewrite (proj2 (Z.ltb_lt 0 (n - e))) by lia. cbn [negb]. rewrite (proj2 (Nat.leb_gt _ _)) by lia.
    rewrite insert_app_r_alt, Nat.sub_diag by lia. cbn [insert list_insert].
    replace (length post) with (length post + 0)%nat at 1 by lia. rewrite decrease_skip; [|].
    + cbn [decrease_loop]. rewrite Ok_bind. rewrite take_ge; [done|]. rewrite length_app. cbn. lia.
    + intros j Hj. destruct (others_at post denom (j - S (length pre))) as (d & m & Hl & Hne); [done|lia|].
      exists d, m. split; [|done]. rewrite lookup_app_r, lookup_cons_ne_0 by lia. rewrite <-Hl. f_equal. lia.
Qed.

(** An expense within the amount of a coin is taken off, and a coin that is used up is
    removed: nothing else of the limit changes. *)
Lemma decreased_spec l denom e :
  coins_ok l → denom ∈ l.*1 → 0 <= e <= amount_in l denom →
  ∃ l', decreased denom e l = Ok l' ∧ coins_ok l' ∧
    ∀ d, amount_in l' d = amount_in l d - if decide (d = denom) then e else 0.
Proof.
  intros Hok Hin He. destruct (coins_split l denom Hok Hin) as (pre & n & post & -> & Hpre & Hpost & Hn & Hr).
  rewrite Hn in He. rewrite decrease_at by done.
  assert (∀ mid d, d ≠ denom → amount_in (pre ++ (denom, mid) :: post) d = amount_in (pre ++ post) d) as Hother.
  { intros mid d Hd. clear -Hd. induction pre as [|[d' m] pre IH]; cbn; [by rewrite decide_False|]. by rewrite IH. }
  destruct (Z.eqb_spec (n - e) 0) as [H0|H0]; eexists; (split; [done|]).
  - split; [by eapply coins_ok_remove|]. intros d. case_decide as Hd; [|by rewrite Hother, Z.sub_0_r].
    subst d. rewrite Hn, amount_in_notin; [lia|]. rewrite fmap_app. by intros [?|?]%elem_of_app.
  - split; [apply coins_ok_update with n; [done|lia]|]. intros d. case_decide as Hd; [|by rewrite !Hother, Z.sub_0_r].
    subst d. rewrite Hn, amount_in_app by done. cbn. by rewrite decide_True.
Qed.
End Decrease.

(** ** What is relied on *)

Section Laws.
Context `{EE : EvmEnv} `{GE : Geth} `{EK : !EVMKeeper} `{AK : !AuthzKeeper}.

(** The allocations after an authorization was accepted. *)
Definition accepted (l : list allocation) (resp : accept_response) : list allocation :=
  if ar_Delete resp then [] else default l (ar_Updated resp).

(** The SDK looks up and adds to valid coins; a transfer authorization that validates has
    valid limits; accepting a transfer takes it off the limit of its channel, unless that
    is the largest number, which stands for no limit. *)
Record ics_laws (p : ics_env) : Prop := {
  law_Find l d : coins_ok l →
    match ic_Find p l d with Some c => c = (d, amount_in l d) ∧ d ∈ l.*1 | None => d ∉ l.*1 end;
  law_Add l d n : coins_ok l → 0 <= n → amount_in l d + n < 2 ^ 256 →
    ∃ l', ic_Add p l (d, n) = Ok l' ∧ coins_ok l' ∧
      ∀ d', amount_in l' d' = amount_in l d' + if decide (d' = d) then n else 0;
  law_Validate l : ic_AuthorizationValidateBasic p l = Ok () → allocations_ok l;
  law_Accept l msg resp : allocations_ok l → ic_Accept p l msg = Ok resp → ar_Accept resp = true →
    let r := mt_rest msg in
    let limit := allowed l (mr_SourcePort r) (mr_SourceChannel r) (mt_Denom msg) in
    0 <= mt_Amount msg <= limit ∧ allocations_ok (accepted l resp) ∧
    ∀ port channel denom, allowed (accepted l resp) port channel denom =
      allowed l port channel denom -
        if decide (port = mr_SourcePort r ∧ channel = mr_SourceChannel r ∧ denom = mt_Denom msg ∧ limit ≠ MaxUint256)
        then mt_Amount msg else 0
}.

(** What [grantee] may transfer for [granter]. *)
Definition transfer_allowance (g : grants) (grantee granter : Address) (port channel denom : string) : Z :=
  match az_GetAuthorization g grantee granter TransferMsgURL with
  | Some (TransferAuthorization l, _) => allowed l port channel denom
  | _ => 0
  end.

Definition grants_ok (g : grants) : Prop := ∀ grantee granter l e,
  az_GetAuthorization g grantee granter TransferMsgURL = Some (TransferAuthorization l, e) → allocations_ok l.
End Laws.

Section Allowances.
Context `{EE : EvmEnv} `{GE : Geth} `{EK : !EVMKeeper} `{AK : !AuthzKeeper} `{AL : !AuthzLaws}.
Context (x : erc20_env) (ib : ibc_env (rest := transfer_rest)) (p : ics_env) (PL : ics_laws p).

(** *** Effects on grants *)

Lemma saved_grant g s o l e g' :
  of_pc (E := erc20_error) (of_sdk (az_SaveGrant g s o (TransferAuthorization l) e)) = Ok g' → grants_ok g → allocations_ok l →
  grants_ok g' ∧ ∀ s' o' port channel denom, transfer_allowance g' s' o' port channel denom =
    if decide (s' = s ∧ o' = o) then allowed l port channel denom else transfer_allowance g s' o' port channel denom.
Proof.
  intros Hs%of_pc_Ok%of_sdk_Ok Hg Hl. pose proof (SaveGrant_get _ _ _ _ _ _ Hs) as Hget. split.
  - intros s' o' l' e' Ha. rewrite Hget in Ha. case_decide; [by injection Ha as <- _|by eapply Hg].
  - intros s' o' port channel denom. unfold transfer_allowance. rewrite Hget. cbn [authorization_URL].
    do 2 case_decide; naive_solver.
Qed.

Lemma deleted_grant g s o g' :
  of_pc (E := erc20_error) (of_sdk (az_DeleteGrant g s o TransferMsgURL)) = Ok g' → grants_ok g →
  grants_ok g' ∧ ∀ s' o' port channel denom, transfer_allowance g' s' o' port channel denom =
    if decide (s' = s ∧ o' = o) then 0 else transfer_allowance g s' o' port channel denom.
Proof.
  intros Hs%of_pc_Ok%of_sdk_Ok Hg. pose proof (DeleteGrant_get _ _ _ _ _ Hs) as Hget. split.
  - intros s' o' l' e' Ha. rewrite Hget in Ha. case_decide; [done|by eapply Hg].
  - intros s' o' port channel denom. unfold transfer_allowance. rewrite Hget. do 2 case_decide; naive_solver.
Qed.

Lemma authorization_inv g s o l e :
  transfer_authorization g s o = Ok (l, e) → az_GetAuthorization g s o TransferMsgURL = Some (TransferAuthorization l, e).
Proof.
  intros Ht. apply bind_Ok_inv in Ht as ([a e'] & Hc%of_pc_Ok & Ht). unfold CheckAuthzExists in Hc.
  destruct (az_GetAuthorization _ _ _ _) as [y|]; [|done]. injection Hc as ->. destruct a; try done. by injection Ht as -> ->.
Qed.

(** The allocation that is found is the one that counts. *)
Lemma allocation_found l port channel denom i c k :
  allocations_ok l → checkAllocationExists p l port channel denom i = Ok (c, k) →
  ∃ j a, k = (i + j)%nat ∧ l !! j = Some a ∧ matches port channel a ∧ c = (denom, amount_in (al_SpendLimit a) denom) ∧
    denom ∈ (al_SpendLimit a).*1 ∧ (∀ d, allowed l port channel d = amount_in (al_SpendLimit a) d) ∧
    (∀ limit port' channel' denom', allowed (<[j := with_limit limit a]> l) port' channel' denom' =
      if decide (port' = port ∧ channel' = channel) then amount_in limit denom' else allowed l port' channel' denom').
Proof.
  intros [Hl _]. revert i. induction Hl as [|a l Ha Hl IH]; intros i; [done|]. cbn [checkAllocationExists].
  destruct (decide (matches port channel a)) as [Hm|Hm].
  - pose proof Hm as [H1 H2]. rewrite !bool_decide_false by (intros Hn; by apply Hn). cbn [orb].
    pose proof (law_Find p PL (al_SpendLimit a) denom Ha) as Hf. destruct (ic_Find p _ _) as [c'|]; [|done].
    intros [= <- <-]. destruct Hf as [-> Hin]. exists 0%nat, a. split_and!; [lia|done|done..| |].
    + intros d. cbn. by rewrite decide_True.
    + intros limit port' channel' denom'. cbn [insert list_insert allowed].
      destruct (decide (matches port' channel' (with_limit limit a))) as [Hx|Hx], (decide (matches port' channel' a)) as [Hy|Hy],
        (decide (port' = port ∧ channel' = channel)) as [Hz|Hz]; unfold matches in *; cbn in *; naive_solver.
  - replace (bool_decide (al_SourcePort a ≠ port) || bool_decide (al_SourceChannel a ≠ channel)) with true.
    2: { symmetry. apply orb_true_iff. rewrite !bool_decide_eq_true. unfold matches in Hm.
         destruct (decide (al_SourcePort a = port)), (decide (al_SourceChannel a = channel)); tauto. }
    intros (j & a' & -> & Hj & Hma & Hc & Hin & Hal & Hins)%IH. exists (S j), a'. split_and!; [lia|done|done..| |].
    + intros d. cbn. rewrite decide_False by done. apply Hal.
    + intros limit port' channel' denom'. cbn. rewrite Hins. destruct (decide (matches port' channel' a)) as [Hm'|]; [|done].
      rewrite decide_False; [done|]. intros [-> ->]. done.
Qed.

Lemma allocations_ok_update l j a limit :
  allocations_ok l → l !! j = Some a → coins_ok limit → allocations_ok (<[j := with_limit limit a]> l).
Proof.
  intros [Hl Hnd] Hj Hc. split; [by apply Forall_insert|]. rewrite list_fmap_insert, list_insert_id; [done|].
  by rewrite list_lookup_fmap, Hj.
Qed.

Lemma event_grants s o l st st' : EmitIBCTransferAuthorizationEvent p s o l st = Ok st' → ics_grants st' = ics_grants st.
Proof. intros He. by apply bind_Ok_inv in He as (sdb & _ & [= <-]). Qed.

(** *** The five transactions *)

Definition key_is (port channel denom port' channel' denom' : string) : Prop :=
  port' = port ∧ channel' = channel ∧ denom' = denom.

(** The effect of a call on the allowances: [f] of the old one for the pair, and no other
    pair changes. *)
Definition allowance_effect (s o : Address) (f : string → string → string → Z → Z) (g g' : grants) : Prop :=
  grants_ok g' ∧ ∀ s' o' port channel denom, transfer_allowance g' s' o' port channel denom =
    if decide (s' = s ∧ o' = o) then f port channel denom (transfer_allowance g s' o' port channel denom)
    else transfer_allowance g s' o' port channel denom.

Lemma allowance_of g s o l e port channel denom :
  az_GetAuthorization g s o TransferMsgURL = Some (TransferAuthorization l, e) →
  transfer_allowance g s o port channel denom = allowed l port channel denom.
Proof. intros Ha. unfold transfer_allowance. by rewrite Ha. Qed.

Lemma approve_effect s o l st st' :
  ics20_Approve p s o l st = Ok st' → allocations_ok l → grants_ok (ics_grants st) →
  allowance_effect s o (λ port channel denom _, allowed l port channel denom) (ics_grants st) (ics_grants st').
Proof.
  unfold ics20_Approve. destruct (forallb _ _); [|done]. intros Ha Hl Hg.
  apply bind_Ok_inv in Ha as (g & Hs & He%event_grants). rewrite He. by eapply saved_grant.
Qed.

Lemma revoke_effect s o st st' :
  ics20_Revoke p s o st = Ok st' → grants_ok (ics_grants st) →
  allowance_effect s o (λ _ _ _ _, 0) (ics_grants st) (ics_grants st').
Proof.
  intros Ha Hg. apply bind_Ok_inv in Ha as (y & _ & Ha). apply bind_Ok_inv in Ha as (g & Hs & He%event_grants).
  rewrite He. by eapply deleted_grant.
Qed.

Lemma int_inv n m : of_pc (E := erc20_error) (of_total (NewIntFromBigInt n)) = Ok m → m = n ∧ Z.abs n < 2 ^ 256.
Proof.
  unfold NewIntFromBigInt, IsValidInt256. destruct (Z.ltb_spec (Z.abs n) (2 ^ maxBitLen)); [|done].
  intros [= <-]. by split.
Qed.

(** Saving a new limit for the allocation that was found. *)
Lemma limit_effect s o l e j a port channel denom delta l' st st' :
  grants_ok (ics_grants st) → az_GetAuthorization (ics_grants st) s o TransferMsgURL = Some (TransferAuthorization l, e) →
  l !! j = Some a → (∀ d, allowed l port channel d = amount_in (al_SpendLimit a) d) →
  (∀ limit port' channel' denom', allowed (<[j := with_limit limit a]> l) port' channel' denom' =
    if decide (port' = port ∧ channel' = channel) then amount_in limit denom' else allowed l port' channel' denom') →
  coins_ok l' → (∀ d, amount_in l' d = amount_in (al_SpendLimit a) d + if decide (d = denom) then delta else 0) →
  save_allocations p s o (<[j := with_limit l' a]> l) e st = Ok st' →
  allowance_effect s o
    (λ port' channel' denom' v, v + if decide (port' = port ∧ channel' = channel ∧ denom' = denom) then delta else 0)
    (ics_grants st) (ics_grants st').
Proof.
  intros Hg Ha Hj Hal Hins Hok Hamt Hs. apply bind_Ok_inv in Hs as (g & Hs & He%event_grants). rewrite He.
  destruct (saved_grant _ _ _ _ _ _ Hs Hg (allocations_ok_update _ _ _ _ (Hg _ _ _ _ Ha) Hj Hok)) as [Hg' Hall].
  split; [done|]. intros s' o' port' channel' denom'. cbn [ics_grants ics_with_grants]. rewrite Hall.
  destruct (decide (s' = s ∧ o' = o)) as [[-> ->]|]; [|done]. rewrite Hins, (allowance_of _ _ _ _ _ _ _ _ Ha), Hamt.
  destruct (decide (port' = port ∧ channel' = channel)) as [[-> ->]|Hk].
  - rewrite Hal. do 2 case_decide; naive_solver lia.
  - case_decide; naive_solver lia.
Qed.

Lemma limit_coins_ok l j a : allocations_ok l → l !! j = Some a → coins_ok (al_SpendLimit a).
Proof. intros [Hl _]. rewrite Forall_lookup in Hl. eauto. Qed.

Lemma increase_effect s o port channel denom n st st' :
  ics20_IncreaseAllowance p s o port channel denom n st = Ok st' → 0 <= n → grants_ok (ics_grants st) →
  allowance_effect s o
    (λ port' channel' denom' v, v + if decide (port' = port ∧ channel' = channel ∧ denom' = denom) then n else 0)
    (ics_grants st) (ics_grants st').
Proof.
  intros Hi Hn Hg. apply bind_Ok_inv in Hi as ([l e] & Ha%authorization_inv & Hi).
  pose proof (Hg _ _ _ _ Ha) as Hl. apply bind_Ok_inv in Hi as ([c k] & Hf & Hi).
  apply (allocation_found l port channel denom 0 c k Hl) in Hf as (j & a & -> & Hj & Hm & -> & Hin & Hal & Hins).
  apply bind_Ok_inv in Hi as (m & [-> Hmn]%int_inv & Hi). unfold SafeAdd in Hi. cbn [snd plus] in Hi.
  destruct (IsValidInt256 _) eqn:Hov in Hi; [|done]. cbn [negb] in Hi. rewrite Hj in Hi.
  unfold IsValidInt256 in Hov. apply Z.ltb_lt in Hov. change (2 ^ maxBitLen) with (2 ^ 256) in Hov.
  destruct (law_Add p PL (al_SpendLimit a) denom n (limit_coins_ok _ _ _ Hl Hj) Hn) as (l' & Hadd & Hok & Hamt); [lia|].
  rewrite Hadd in Hi. cbn [of_total of_pc] in Hi. rewrite Ok_bind in Hi. by eapply limit_effect.
Qed.

Lemma decrease_effect s o port channel denom n st st' :
  ics20_DecreaseAllowance p s o port channel denom n st = Ok st' → 0 <= n → grants_ok (ics_grants st) →
  allowance_effect s o
    (λ port' channel' denom' v, v + if decide (port' = port ∧ channel' = channel ∧ denom' = denom) then - n else 0)
    (ics_grants st) (ics_grants st').
Proof.
  intros Hi Hn Hg. apply bind_Ok_inv in Hi as ([l e] & Ha%authorization_inv & Hi).
  pose proof (Hg _ _ _ _ Ha) as Hl. apply bind_Ok_inv in Hi as ([c k] & Hf & Hi).
  apply (allocation_found l port channel denom 0 c k Hl) in Hf as (j & a & -> & Hj & Hm & -> & Hin & Hal & Hins).
  apply bind_Ok_inv in Hi as (m & [-> Hmn]%int_inv & Hi). cbn [snd plus] in Hi. destruct (Z.ltb_spec (amount_in (al_SpendLimit a) denom) n); [done|].
  rewrite Hj in Hi.
  destruct (decreased_spec (al_SpendLimit a) denom n (limit_coins_ok _ _ _ Hl Hj) Hin) as (l' & Hdec & Hok & Hamt); [lia|].
  rewrite Hdec, Ok_bind in Hi. eapply limit_effect; try done. intros d. rewrite Hamt. case_decide; lia.
Qed.

(** What a transfer leaves of the grants. *)
Lemma update_effect s o l e resp g g' :
  grants_ok g → az_GetAuthorization g s o TransferMsgURL = Some (TransferAuthorization l, e) →
  allocations_ok (accepted l resp) → UpdateGrant s o e resp g = Ok g' →
  allowance_effect s o (λ port channel denom _, allowed (accepted l resp) port channel denom) g g'.
Proof.
  unfold UpdateGrant, accepted. intros Hg Ha Hok Hu. destruct (ar_Delete resp); [by eapply deleted_grant|].
  destruct (ar_Updated resp) as [l'|]; [by eapply saved_grant|]. injection Hu as <-. split; [done|].
  intros s' o' port channel denom. case_decide as Hk; [|done]. destruct Hk as [-> ->]. by rewrite (allowance_of _ _ _ _ _ _ _ _ Ha).
Qed.

Lemma transfer_msg_inv args msg sender :
  NewMsgTransfer x p args = Ok (msg, sender) → ∃ port channel denom n receiver number height timestamp memo,
    args = [VString port; VString channel; VString denom; VBig n; VAddress sender; VString receiver;
            VHeight number height; VUint64 timestamp; VString memo] ∧
    mt_Denom msg = denom ∧ mt_Amount msg = n ∧ mr_SourcePort (mt_rest msg) = port ∧ mr_SourceChannel (mt_rest msg) = channel.
Proof.
  unfold NewMsgTransfer. intros Hm. case_guards Hm. apply bind_Ok_inv in Hm as (k & [-> _]%int_inv & Hm).
  apply bind_Ok_inv in Hm as (m & Hc & [= <- <-]). apply bind_Ok_inv in Hc as (u & _ & [= <-]).
  by eexists _, _, _, _, _, _, _, _, _.
Qed.

(** What sending [msg] does to the grants: the origin's own call needs none, another
    caller spends what the origin has granted it. *)
Definition granted (ct : Contract) (origin : Address) (msg : MsgTransfer transfer_rest) (g g' : grants) : Prop :=
  if decide (ct_CallerAddress ct = origin) then g' = g
  else
    let r := mt_rest msg in
    let limit := transfer_allowance g (ct_CallerAddress ct) origin (mr_SourcePort r) (mr_SourceChannel r) (mt_Denom msg) in
    0 <= mt_Amount msg <= limit ∧
    allowance_effect (ct_CallerAddress ct) origin
      (λ port channel denom v, v - if decide (port = mr_SourcePort r ∧ channel = mr_SourceChannel r ∧ denom = mt_Denom msg ∧
                                               limit ≠ MaxUint256) then mt_Amount msg else 0)
      g g'.

Lemma granted_transfer ct origin msg r g g' :
  CheckAndAcceptAuthorizationIfNeeded p ct origin msg g = Ok r → UpdateGrantIfNeeded ct origin r g = Ok g' → grants_ok g →
  granted ct origin msg g g'.
Proof.
  unfold CheckAndAcceptAuthorizationIfNeeded, UpdateGrantIfNeeded, granted. intros Hr Hu Hg.
  destruct (decide (ct_CallerAddress ct = origin)); [by injection Hu as <-|].
  apply bind_Ok_inv in Hr as ([a e'] & Hc%of_pc_Ok & Hr). apply bind_Ok_inv in Hr as (resp & Hacc & [= <-]).
  unfold CheckAuthzExists in Hc. destruct (az_GetAuthorization _ _ _ _) as [y|] eqn:Ha; [|done]. injection Hc as ->.
  destruct a as [| |l| |]; try done. apply bind_Ok_inv in Hacc as (resp' & Hacc%of_pc_Ok%of_sdk_Ok & Hok).
  destruct (ar_Accept resp') eqn:Hyes; [|done]. injection Hok as ->.
  destruct (law_Accept p PL l msg resp (Hg _ _ _ _ Ha) Hacc Hyes) as (Hle & Hl' & Hall).
  rewrite (allowance_of _ _ _ _ _ _ _ _ Ha). split; [done|].
  destruct (update_effect _ _ _ _ _ _ _ Hg Ha Hl' Hu) as [Hg' Heff]. split; [done|]. intros s' o' port channel denom. rewrite Heff.
  destruct (decide (s' = _ ∧ _)) as [[-> ->]|]; [|done]. by rewrite Hall, (allowance_of _ _ _ _ _ _ _ _ Ha).
Qed.

Lemma transfer_effect origin ct args st bz st' :
  ics20_Transfer x ib p origin ct args st = Ok (bz, st') → grants_ok (ics_grants st) →
  ∃ msg sender, NewMsgTransfer x p args = Ok (msg, sender) ∧ granted ct origin msg (ics_grants st) (ics_grants st').
Proof.
  intros Ht Hg. apply bind_Ok_inv in Ht as ([msg sender] & Hm & Ht). exists msg, sender. split; [done|].
  destruct (ic_HasChannel _ _ _ _); [|done]. cbn [negb] in Ht. apply bind_Ok_inv in Ht as (sender' & _ & Ht).
  apply bind_Ok_inv in Ht as (r & Hr & Ht). apply bind_Ok_inv in Ht as ([seq e] & _ & Ht).
  apply bind_Ok_inv in Ht as (g & Hu & Ht). apply bind_Ok_inv in Ht as (st1 & He & Ht).
  apply bind_Ok_inv in Ht as (out & _ & [= _ <-]). apply bind_Ok_inv in He as (sdb & _ & [= <-]).
  by apply (granted_transfer _ _ _ r).
Qed.

(** *** Runs *)

Variable query : string → list abi_value → chain → outcome (pc_error + erc20_error) (list byte).

Record ics_op := mkOp { op_name : string; op_origin : Address; op_contract : Contract; op_args : list abi_value }.

(** Calls that succeed, one after the other. *)
Inductive ics_run : list ics_op → ics_state → ics_state → Prop :=
| run_nil st : ics_run [] st st
| run_cons op ops st bz st1 st2 :
    ics20_method x ib p query (op_name op) (op_origin op) (op_contract op) (op_args op) st = Ok (bz, st1) →
    ics_run ops st1 st2 → ics_run (op :: ops) st st2.

(** The amounts of an ABI are not negative. *)
Definition amounts_ok (op : ics_op) : Prop := ∀ n, VBig n ∈ op_args op → 0 <= n.

Section Pair.
Variables (s o : Address) (port channel denom : string).

Definition at_key (port' channel' denom' : string) (n : Z) : Z :=
  if decide (port' = port ∧ channel' = channel ∧ denom' = denom) then n else 0.

(** What the origin [o] gives to [s] in a call. *)
Definition given_by (op : ics_op) : Z :=
  if decide (op_origin op = o) then
    match op_args op with
    | [VAddress grantee; VAllocations l] =>
        if decide (op_name op = "approve"%string ∧ grantee = s) then allowed l port channel denom else 0
    | [VAddress grantee; VString port'; VString channel'; VString denom'; VBig n] =>
        if decide (op_name op = "increaseAllowance"%string ∧ grantee = s) then at_key port' channel' denom' n else 0
    | _ => 0
    end
  else 0.

(** What [s] transfers with the grant of the origin [o]. *)
Definition spent_by (op : ics_op) : Z :=
  if decide (op_name op = "transfer"%string ∧ op_origin op = o ∧ ct_CallerAddress (op_contract op) = s ∧ s ≠ o) then
    match op_args op with
    | VString port' :: VString channel' :: VString denom' :: VBig n :: _ => at_key port' channel' denom' n
    | _ => 0
    end
  else 0.

Definition sum_calls (f : ics_op → Z) (ops : list ics_op) : Z := foldr (λ op n, f op + n) 0 ops.

(** One call: the allowance of the pair and what it spends stay within what it had and
    what it is given. *)
Definition within (op : ics_op) (g g' : grants) : Prop :=
  0 <= given_by op ∧ 0 <= spent_by op ∧
  (transfer_allowance g s o port channel denom + given_by op < MaxUint256 →
   spent_by op + transfer_allowance g' s o port channel denom <= transfer_allowance g s o port channel denom + given_by op).

Lemma allowance_nonneg g : grants_ok g → 0 <= transfer_allowance g s o port channel denom.
Proof.
  intros Hg. unfold transfer_allowance. destruct (az_GetAuthorization _ _ _ _) as [[[| |l| |] e]|] eqn:Ha; try done.
  by apply allowed_nonneg, (Hg _ _ _ _ Ha).
Qed.

Lemma ics_success_inv r bz st : ics_success p r = Ok (bz, st) → r = Ok st.
Proof. unfold ics_success. intros Hc. apply bind_Ok_inv in Hc as (st1 & -> & Hc). by apply bind_Ok_inv in Hc as (b & _ & [= _ <-]). Qed.

Lemma spent_other op : op_name op ≠ "transfer"%string → spent_by op = 0.
Proof. intros Hne. unfold spent_by. by rewrite decide_False by tauto. Qed.

(** An effect on another pair leaves the allowance of this one. *)
Lemma effect_within op s' f g g' :
  allowance_effect s' (op_origin op) f g g' → 0 <= given_by op → op_name op ≠ "transfer"%string →
  (s = s' → o = op_origin op →
   f port channel denom (transfer_allowance g s o port channel denom) <= transfer_allowance g s o port channel denom + given_by op) →
  within op g g'.
Proof.
  intros [_ He] Hgiven Hspent%spent_other Hf. split_and!; [done|lia|]. intros _. rewrite He, Hspent.
  destruct (decide (s = s' ∧ o = op_origin op)) as [[H1 H2]|]; [|lia]. specialize (Hf H1 H2). lia.
Qed.
End Pair.

Lemma copied_limit l l' : spend_limit l = Ok l' → l' = l.
Proof.
  revert l'. induction l as [|[d n] l IH]; intros l'; cbn [spend_limit]; [by intros [= <-]|]. intros Hc.
  apply bind_Ok_inv in Hc as (m & [-> _]%int_inv & Hc). apply bind_Ok_inv in Hc as (t & ->%IH & [= <-]). done.
Qed.

Lemma copied l l' : copy_allocations l = Ok l' → ∀ port channel denom, allowed l' port channel denom = allowed l port channel denom.
Proof.
  revert l'. induction l as [|a l IH]; intros l'; cbn [copy_allocations]; [by intros [= <-]|]. intros Hc.
  apply bind_Ok_inv in Hc as (m & ->%copied_limit & Hc). apply bind_Ok_inv in Hc as (t & Ht & [= <-]). intros port channel denom.
  cbn [allowed]. rewrite (IH t Ht). by destruct (decide (matches _ _ (mkAllocation _ _ _ _))), (decide (matches _ _ a)).
Qed.

Lemma approval_inv args s l' :
  NewTransferAuthorization p args = Ok (s, l') → ∃ l, args = [VAddress s; VAllocations l] ∧ copy_allocations l = Ok l' ∧ allocations_ok l'.
Proof.
  intros Hn. apply bind_Ok_inv in Hn as ([s1 l1] & Hc & Hn). apply bind_Ok_inv in Hn as ([] & Hv%of_pc_Ok%of_sdk_Ok & [= <- <-]).
  unfold checkTransferAuthzArgs in Hc. case_guards Hc. apply bind_Ok_inv in Hc as (lc & Hc & [= <- <-]).
  eexists. split; [done|]. split; [done|]. by apply (law_Validate p PL).
Qed.

Lemma allowance_args_inv args s port channel denom n :
  checkAllowanceArgs args = Ok (s, port, channel, denom, n) → args = [VAddress s; VString port; VString channel; VString denom; VBig n].
Proof. 
  unfold checkAllowanceArgs. intros Hc. destruct args as [|a [|b [|c [|d [|e [|]]]]]]; try done.
  apply bind_Ok_inv in Hc as (g & Ha%of_pc_Ok & Hc). case_guards Hc. unfold check_address in Ha. case_guards Ha. congruence.
 Qed.

(** *** One call *)

Section Call.
Context (s o : Address) (port channel denom : string).

Lemma approve_within op bz st st' :
  op_name op = "approve"%string → Precompile_Approve p (op_origin op) (op_args op) st = Ok (bz, st') → grants_ok (ics_grants st) →
  grants_ok (ics_grants st') ∧ within s o port channel denom op (ics_grants st) (ics_grants st').
Proof.
  intros Hname Ha Hg. apply bind_Ok_inv in Ha as ([s' l'] & (l & Hargs & Hl & Hok)%approval_inv & Ha%ics_success_inv).
  pose proof (approve_effect _ _ _ _ _ Ha Hok Hg) as He. split; [apply He|]. pose proof (allowed_nonneg l' port channel denom Hok) as Hnn.
  pose proof (allowance_nonneg s o port channel denom _ Hg) as Hpos. rewrite (copied _ _ Hl) in Hnn.
  apply (effect_within _ _ _ _ _ _ _ _ _ _ He); unfold given_by; rewrite ?Hargs, Hname.
  - by repeat case_decide.
  - done.
  - intros -> ->. rewrite !decide_True by done. rewrite (copied _ _ Hl). lia.
Qed.

Lemma revoke_within op bz st st' :
  op_name op = "revoke"%string → Precompile_Revoke p (op_origin op) (op_args op) st = Ok (bz, st') → grants_ok (ics_grants st) →
  grants_ok (ics_grants st') ∧ within s o port channel denom op (ics_grants st) (ics_grants st').
Proof.
  intros Hname Ha Hg. apply bind_Ok_inv in Ha as (s' & Hargs & Ha%ics_success_inv).
  pose proof (revoke_effect _ _ _ _ Ha Hg) as He. split; [apply He|].
  pose proof (allowance_nonneg s o port channel denom _ Hg) as Hpos.
  assert (given_by s o port channel denom op = 0) as Hz.
  { unfold given_by. case_decide; [|done]. unfold ics20_checkRevokeArgs in Hargs.
    destruct (op_args op) as [|[] [|]]; done. }
  apply (effect_within _ _ _ _ _ _ _ _ _ _ He); rewrite ?Hz, ?Hname; [done..|intros _ _; lia].
Qed.

Lemma increase_within op bz st st' :
  op_name op = "increaseAllowance"%string → Precompile_IncreaseAllowance p (op_origin op) (op_args op) st = Ok (bz, st') →
  amounts_ok op → grants_ok (ics_grants st) → grants_ok (ics_grants st') ∧ within s o port channel denom op (ics_grants st) (ics_grants st').
Proof.
  intros Hname Ha Ham Hg. apply bind_Ok_inv in Ha as ([[[[s' port'] channel'] denom'] n] & Hargs%allowance_args_inv & Ha%ics_success_inv).
  assert (0 <= n) as Hn by (apply Ham; rewrite Hargs; set_solver).
  pose proof (increase_effect _ _ _ _ _ _ _ _ Ha Hn Hg) as He. split; [apply He|].
  apply (effect_within _ _ _ _ _ _ _ _ _ _ He); unfold given_by, at_key; rewrite ?Hargs, Hname.
  - by repeat case_decide.
  - done.
  - intros -> ->. repeat case_decide; naive_solver lia.
Qed.

Lemma decrease_within op bz st st' :
  op_name op = "decreaseAllowance"%string → Precompile_DecreaseAllowance p (op_origin op) (op_args op) st = Ok (bz, st') →
  amounts_ok op → grants_ok (ics_grants st) → grants_ok (ics_grants st') ∧ within s o port channel denom op (ics_grants st) (ics_grants st').
Proof.
  intros Hname Ha Ham Hg. apply bind_Ok_inv in Ha as ([[[[s' port'] channel'] denom'] n] & Hargs%allowance_args_inv & Ha%ics_success_inv).
  assert (0 <= n) as Hn by (apply Ham; rewrite Hargs; set_solver).
  pose proof (decrease_effect _ _ _ _ _ _ _ _ Ha Hn Hg) as He. split; [apply He|].
  apply (effect_within _ _ _ _ _ _ _ _ _ _ He); unfold given_by, at_key; rewrite ?Hargs, Hname.
  - by repeat case_decide.
  - done.
  - intros -> ->. repeat case_decide; naive_solver lia.
Qed.
Lemma transfer_within op bz st st' :
  op_name op = "transfer"%string → ics20_Transfer x ib p (op_origin op) (op_contract op) (op_args op) st = Ok (bz, st') →
  amounts_ok op → grants_ok (ics_grants st) →
  grants_ok (ics_grants st') ∧ within s o port channel denom op (ics_grants st) (ics_grants st').
Proof.
  intros Hname Ht Ham Hg. destruct (transfer_effect _ _ _ _ _ _ Ht Hg) as (msg & sender & Hmsg & He). unfold granted in He.
  apply transfer_msg_inv in Hmsg as (port' & channel' & denom' & n & rc & h1 & h2 & ts & memo & Hargs & Hd & Hn & Hp & Hc).
  assert (0 <= n) as Hpos by (apply Ham; rewrite Hargs; set_solver).
  assert (given_by s o port channel denom op = 0) as Hz. { unfold given_by. rewrite Hargs. by repeat case_decide. }
  unfold within, spent_by, at_key. rewrite Hz, Hargs, Hname. cbn zeta in He. rewrite Hd, Hn, Hp, Hc in He.
  destruct (decide (ct_CallerAddress (op_contract op) = op_origin op)) as [Heq|Hne].
  - rewrite He. split; [done|]. rewrite decide_False; [lia|]. intros (_ & <- & <- & Hso). by rewrite Heq in Hso.
  - destruct He as [Hle [Hg' Hall]]. split; [done|]. rewrite Hall. split; [done|]. split; [by repeat case_decide|]. intros Hlt.
    destruct (decide (s = _ ∧ o = _)) as [[-> ->]|Hk].
    + rewrite decide_True by done. repeat case_decide; naive_solver lia.
    + rewrite decide_False by naive_solver. lia.
Qed.

Lemma query_within op g :
  op_name op ≠ "approve"%string → op_name op ≠ "increaseAllowance"%string → op_name op ≠ "transfer"%string →
  within s o port channel denom op g g.
Proof.
  intros H1 H2 H3. unfold within. rewrite spent_other by done.
  assert (given_by s o port channel denom op = 0) as ->; [|lia].
  unfold given_by. repeat case_match; naive_solver.
Qed.

Lemma call_within op bz st st' :
  ics20_method x ib p query (op_name op) (op_origin op) (op_contract op) (op_args op) st = Ok (bz, st') →
  amounts_ok op → grants_ok (ics_grants st) →
  grants_ok (ics_grants st') ∧ within s o port channel denom op (ics_grants st) (ics_grants st').
Proof.
  unfold ics20_method. intros Hm Ham Hg. destruct (decide (_ = "approve"%string)); [by eapply approve_within|].
  destruct (decide (_ = "revoke"%string)); [by eapply revoke_within|].
  destruct (decide (_ = "increaseAllowance"%string)); [by eapply increase_within|].
  destruct (decide (_ = "decreaseAllowance"%string)); [by eapply decrease_within|].
  destruct (decide (_ = "transfer"%string)); [by eapply transfer_within|].
  assert (st' = st) as ->; [|split; [done|by apply query_within]]. case_guards Hm.
  - apply bind_Ok_inv in Hm as (l & _ & Hm). by apply bind_Ok_inv in Hm as (b & _ & [= _ <-]).
  - by apply bind_Ok_inv in Hm as (b & _ & [= _ <-]).
Qed.
End Call.

Lemma run_within s o port channel denom ops st st' :
  ics_run ops st st' → Forall amounts_ok ops → grants_ok (ics_grants st) →
  let given := sum_calls (given_by s o port channel denom) ops in
  let spent := sum_calls (spent_by s o port channel denom) ops in
  let before := transfer_allowance (ics_grants st) s o port channel denom in
  grants_ok (ics_grants st') ∧ 0 <= given ∧ 0 <= spent ∧
  (before + given < MaxUint256 → spent + transfer_allowance (ics_grants st') s o port channel denom <= before + given).
Proof.
  cbn zeta. induction 1 as [st|op ops st bz st1 st2 Hm _ IH]; intros Ham Hg; cbn [sum_calls foldr]; [split_and!; [done|lia..]|].
  apply Forall_cons in Ham as [Ha Ham]. destruct (call_within s o port channel denom _ _ _ _ Hm Ha Hg) as [Hg1 (H1 & H2 & H3)].
  destruct (IH Ham Hg1) as (Hg2 & H4 & H5 & H6). unfold sum_calls in *. split_and!; [done|lia..].
Qed.

(** C15.  Over any sequence of calls of the ICS-20 precompile that succeed, what an account
    transfers with the grant of another, with what the grant is left with, is at most what
    the grant was worth and what its owner added by approvals and increases, for each
    channel and denomination.  (A limit that reaches the largest number is no limit.) *)
Theorem transfers_within_grants s o port channel denom ops st st' :
  ics_run ops st st' → Forall amounts_ok ops → grants_ok (ics_grants st) →
  let given := sum_calls (given_by s o port channel denom) ops in
  let spent := sum_calls (spent_by s o port channel denom) ops in
  let before := transfer_allowance (ics_grants st) s o port channel denom in
  let after := transfer_allowance (ics_grants st') s o port channel denom in
  before + given < MaxUint256 → 0 <= spent ∧ 0 <= after ∧ spent + after <= before + given.
Proof.
  intros Hr Ham Hg. apply (run_within s o port channel denom) in Hr as (Hg' & Hgiven & Hspent & Hle); [|done..].
  cbn. intros Hlt. split_and!; [done|by apply allowance_nonneg|by apply Hle].
Qed.

(** *** What goes wrong *)

(** The allow lists of an approval are lost: every receiver is allowed. *)
Lemma approval_forgets_receivers origin s l bz st st' :
  Precompile_Approve p origin [VAddress s; VAllocations l] st = Ok (bz, st') →
  ∃ l' e, az_GetAuthorization (ics_grants st') s origin TransferMsgURL = Some (TransferAuthorization l', e) ∧
    (al_SourceChannel <$> l') = (al_SourceChannel <$> l) ∧ Forall (λ a, al_AllowList a = []) l'.
Proof.
  intros Ha. apply bind_Ok_inv in Ha as ([s' l'] & (l0 & [= -> <-] & Hl & _)%approval_inv & Ha%ics_success_inv).
  unfold ics20_Approve in Ha. destruct (forallb _ _); [|done].
  apply bind_Ok_inv in Ha as (g & Hs%of_pc_Ok%of_sdk_Ok & He%event_grants). rewrite He. cbn [ics_grants ics_with_grants].
  pose proof (SaveGrant_get _ _ _ _ _ _ Hs) as Hget. eexists l', _. rewrite Hget, decide_True by done. split; [done|].
  clear -Hl. revert l' Hl. induction l as [|a l IH]; cbn [copy_allocations]; intros l' Hc; [by injection Hc as <-|].
  apply bind_Ok_inv in Hc as (m & _ & Hc). apply bind_Ok_inv in Hc as (t & Ht & [= <-]).
  destruct (IH t Ht) as [H1 H2]. rewrite !fmap_cons, H1. split; [done|]. by constructor.
Qed.

(** The state database does not learn of a transfer: an account that was written in the
    transaction has the coins it sent again after the final commit. *)
Lemma transfer_committed_balance (keccak : list byte → Hash) ctx origin ct args st bz st' a o c' `{CL : !CoinsLaws} `{EL : !EvmEnvLaws} :
  ics20_Transfer x ib p origin ct args st = Ok (bz, st') → sdb_wf ctx (ics_stateDB st) →
  sdb_stateObjects (ics_stateDB st) !! a = Some o → so_suicided o = false →
  a ∈ sortedDirties (sdb_journal (ics_stateDB st')) → Commit (er_evm (ics_erc20 st')) (ics_stateDB st') = Ok c' →
  bank_GetBalance (ek_chain c') a EvmDenom = Balance o.
Proof.
  intros Ht Hwf Ho Hs Hd Hc. apply bind_Ok_inv in Ht as ([msg sender] & _ & Ht). case_guards Ht.
  do 2 (apply bind_Ok_inv in Ht as (? & _ & Ht)). apply bind_Ok_inv in Ht as ([seq e] & _ & Ht).
  apply bind_Ok_inv in Ht as (g & _ & Ht). apply bind_Ok_inv in Ht as (st1 & He & Ht).
  apply bind_Ok_inv in Ht as (out & _ & [= _ <-]). apply bind_Ok_inv in He as (sdb & He & [= <-]).
  apply of_pc_Ok in He. do 2 (apply bind_Ok_inv in He as (? & _ & He)). destruct (ab_Pack _ _); [|done]. injection He as <-.
  cbn [ics_stateDB ics_with_stateDB] in Hd, Hc. set (s := AddLog _ _) in Hd, Hc.
  assert (sdb_stateObjects s !! a = Some o) as Ho' by exact Ho.
  refine (committed_balance keccak ctx _ _ _ _ _ _ Ho' Hs Hd Hc). by apply (sdb_wf_same ctx (ics_stateDB st)).
Qed.
End Allowances.

(** ** An account whose grants are used, and coins that are minted *)

Module IcsToy.
Import MapCoins MapBank EvmToy GethToy GrantMap Erc20Toy IbcToy.

#[local] Instance StronglySorted_dec {A} (R : relation A) `{∀ x y, Decision (R x y)} l : Decision (StronglySorted R l).
Proof.
  induction l as [|x l IH]; [left; constructor|]. destruct IH as [Hl|Hl], (decide (Forall (R x) l)) as [Hx|Hx].
  1: by left; constructor. all: by right; inversion 1.
Defined.
#[local] Instance coins_ok_dec l : Decision (coins_ok l).
Proof. unfold coins_ok. apply _. Defined.
#[local] Instance allocations_ok_dec l : Decision (allocations_ok l).
Proof. unfold allocations_ok. apply _. Defined.

Fixpoint insert_coin (l : list (string * Z)) (d : string) (n : Z) : list (string * Z) :=
  match l with
  | [] => [(d, n)]
  | (d', m) :: rest =>
      if decide (d = d') then (d', m + n) :: rest
      else if decide (String.le d d') then (d, n) :: l else (d', m) :: insert_coin rest d n
  end.

Definition toy_add (l : list (string * Z)) (c : string * Z) : partial (list (string * Z)) :=
  if c.2 =? 0 then Ok l else if amount_in l c.1 + c.2 <? 2 ^ 256 then Ok (insert_coin l c.1 c.2) else Panic.

Lemma coins_ok_cons d n l :
  coins_ok ((d, n) :: l) ↔ Forall (String.le d) l.*1 ∧ (d ∉ l.*1) ∧ 0 < n < 2 ^ 256 ∧ coins_ok l.
Proof.
  unfold coins_ok. rewrite fmap_cons, NoDup_cons, Forall_cons. cbn [fst snd]. split.
  - intros (Hs & Hnd & Hn). inversion Hs; subst. tauto.
  - intros (Hf & Hd & Hn & Hs & Hnd & Hp). split_and!; try tauto. by constructor.
Qed.

Lemma insert_coin_spec l d n :
  coins_ok l → 0 < n → amount_in l d + n < 2 ^ 256 →
  coins_ok (insert_coin l d n) ∧ (∀ d', d' ∈ (insert_coin l d n).*1 ↔ d' = d ∨ d' ∈ l.*1) ∧
  ∀ d', amount_in (insert_coin l d n) d' = amount_in l d' + if decide (d' = d) then n else 0.
Proof.
  intros Hok Hn. induction l as [|[d1 m] l IH]; cbn [amount_in insert_coin]; intros Hlt.
  { split; [|split; [set_solver|intros d'; cbn; repeat case_decide; congruence || lia]].
    apply coins_ok_cons. split_and!; [constructor|set_solver|lia..|done]. }
  apply coins_ok_cons in Hok as (Hf & Hd1 & Hm & Hok). destruct (decide (d = d1)) as [->|Hne].
  { rewrite decide_True in Hlt by done. split; [apply coins_ok_cons; split_and!; [done..|lia|lia|done]|].
    split; [set_solver|]. intros d'. cbn. repeat case_decide; congruence || lia. }
  rewrite decide_False in Hlt by done. destruct (decide (String.le d d1)) as [Hle|Hle].
  - assert (d ∉ d1 :: l.*1) as Hd.
    { rewrite not_elem_of_cons. split; [done|]. intros Hin. rewrite Forall_forall in Hf. by apply Hne, (anti_symm String.le), Hf. }
    split; [|split; [set_solver|]].
    + apply coins_ok_cons. rewrite fmap_cons, amount_in_notin in * by set_solver. split_and!; [|done|lia..|by apply coins_ok_cons].
      constructor; [done|]. eapply Forall_impl; [exact Hf|]. intros d' Hd'. by trans d1.
    + assert (amount_in l d = 0) as Hz by (apply amount_in_notin; set_solver).
      intros d'. cbn [amount_in]. repeat case_decide; subst; done || lia.
  - destruct (IH Hok Hlt) as (IH1 & IH2 & IH3). split; [|split].
    + apply coins_ok_cons. split_and!; [|rewrite IH2; set_solver|lia..|done]. rewrite Forall_forall in *. intros d' [->|Hd']%IH2.
      * by destruct (total String.le d d1).
      * by apply Hf.
    + intros d'. rewrite !fmap_cons, !elem_of_cons, IH2. set_solver.
    + intros d'. cbn [amount_in]. rewrite IH3. repeat case_decide; congruence || lia.
Qed.
(** [Coins.Sub] of an amount that is there. *)
Definition toy_sub (l : list (string * Z)) (d : string) (n : Z) : list (string * Z) :=
  if decide (d ∈ l.*1) then match decreased d n l with Ok l' => l' | _ => l end else l.

Lemma toy_sub_spec l d n :
  coins_ok l → 0 <= n <= amount_in l d → coins_ok (toy_sub l d n) ∧
    ∀ d', amount_in (toy_sub l d n) d' = amount_in l d' - if decide (d' = d) then n else 0.
Proof.
  intros Hok Hn. unfold toy_sub. destruct (decide (d ∈ l.*1)) as [Hin|Hin].
  - by destruct (decreased_spec l d n Hok Hin Hn) as (l' & -> & Hl').
  - rewrite (amount_in_notin l d Hin) in Hn. split; [done|]. intros d'. case_decide; lia.
Qed.

(** The allocation of the channel with a transfer taken off; one that is used up goes. *)
Fixpoint take_off (port channel denom : string) (n : Z) (l : list allocation) : option (list allocation) :=
  match l with
  | [] => None
  | a :: rest =>
      if decide (matches port channel a) then
        if (0 <=? n) && (n <=? amount_in (al_SpendLimit a) denom) then
          let limit := toy_sub (al_SpendLimit a) denom n in
          match limit with [] => Some rest | _ => Some (with_limit limit a :: rest) end
        else None
      else cons a <$> take_off port channel denom n rest
  end.

(** [TransferAuthorization.Accept] of ibc-go, without allow lists. *)
Definition toy_accept (l : list allocation) (msg : MsgTransfer transfer_rest) : outcome string accept_response :=
  let r := mt_rest msg in
  if negb ((0 <=? mt_Amount msg) && (mt_Amount msg <=? MaxUint256)) then Err "invalid amount"%string
  else if allowed l (mr_SourcePort r) (mr_SourceChannel r) (mt_Denom msg) =? MaxUint256 then Ok (mkAccept true false None)
  else match take_off (mr_SourcePort r) (mr_SourceChannel r) (mt_Denom msg) (mt_Amount msg) l with
       | None => Err "requested amount is more than spend limit"%string
       | Some [] => Ok (mkAccept true true None)
       | Some l' => Ok (mkAccept true false (Some l'))
       end.

Lemma allowed_other l port channel denom : channel ∉ al_SourceChannel <$> l → allowed l port channel denom = 0.
Proof.
  induction l as [|a l IH]; [done|]. rewrite fmap_cons, not_elem_of_cons. intros [Hne Hin]. cbn. rewrite decide_False; [by apply IH|].
  intros [_ Hc]. congruence.
Qed.

(** At the allocation of the channel. *)
Lemma taken a l denom n limit l' :
  Forall (λ a, coins_ok (al_SpendLimit a)) l → al_SourceChannel a ∉ al_SourceChannel <$> l → NoDup (al_SourceChannel <$> l) →
  coins_ok limit → (∀ d, amount_in limit d = amount_in (al_SpendLimit a) d - if decide (d = denom) then n else 0) →
  match limit with [] => Some l | _ => Some (with_limit limit a :: l) end = Some l' →
  allocations_ok l' ∧ (al_SourceChannel <$> l') ⊆ al_SourceChannel a :: (al_SourceChannel <$> l) ∧
  ∀ port channel denom', allowed l' port channel denom' =
    (if decide (matches port channel a) then amount_in (al_SpendLimit a) denom' else allowed l port channel denom') -
    if decide (port = al_SourcePort a ∧ channel = al_SourceChannel a ∧ denom' = denom) then n else 0.
Proof.
  intros Hl Hni Hnd Hok Hamt Hl'.
  assert (∀ port channel d, allowed l' port channel d =
    if decide (matches port channel a) then amount_in limit d else allowed l port channel d) as Hall.
  { intros port channel d. destruct limit as [|c limit]; injection Hl' as <-; [|done].
    case_decide as Hm; [|done]. destruct Hm as [_ <-]. by apply allowed_other. }
  split; [|split].
  - destruct limit; injection Hl' as <-; [done|]. split; [by constructor|]. by apply NoDup_cons.
  - destruct limit; injection Hl' as <-; set_solver.
  - intros port channel d. rewrite Hall, Hamt. unfold matches. repeat case_decide; naive_solver lia.
Qed.

Lemma take_off_spec port channel denom n l l' :
  allocations_ok l → take_off port channel denom n l = Some l' →
  0 <= n <= allowed l port channel denom ∧ allocations_ok l' ∧ (al_SourceChannel <$> l') ⊆ (al_SourceChannel <$> l) ∧
  ∀ port' channel' denom', allowed l' port' channel' denom' = allowed l port' channel' denom' -
    if decide (port' = port ∧ channel' = channel ∧ denom' = denom) then n else 0.
Proof.
  intros [Hl Hnd]. revert l'. induction Hl as [|a l Ha Hl IH]; intros l'; cbn [take_off allowed]; [done|].
  rewrite fmap_cons, NoDup_cons in Hnd. destruct Hnd as [Hni Hnd]. destruct (decide (matches port channel a)) as [Hm|Hm].
  - destruct (Z.leb_spec 0 n) as [H0|]; [|done]. destruct (Z.leb_spec n (amount_in (al_SpendLimit a) denom)) as [H1|]; [|done].
    cbn [andb]. intros Ht. destruct (toy_sub_spec _ denom n Ha (conj H0 H1)) as [Hok Hamt]. split; [done|].
    destruct Hm as [<- <-]. exact (taken _ _ _ _ _ _ Hl Hni Hnd Hok Hamt Ht).
  - intros Ht. apply fmap_Some in Ht as (l1 & Ht & ->). destruct (IH Hnd l1 Ht) as (Hn & [Hok Hnd1] & Hsub & Hall).
    split; [done|]. split; [split; [by constructor|]|split].
    + rewrite fmap_cons, NoDup_cons. split; [set_solver|done].
    + rewrite !fmap_cons. set_solver.
    + intros port' channel' denom'. cbn [allowed]. rewrite Hall. destruct (decide (matches port' channel' a)); [|done].
      rewrite decide_False; [lia|]. intros (-> & -> & _). done.
Qed.
Definition ics_abi : abi_env := {|
  ab_HasReceive := false;
  ab_HasFallback := false;
  ab_MethodById _ := None;
  ab_Unpack _ _ := None;
  ab_Pack _ := Some [];
  ab_EventID _ := 1;
  ab_keccak _ := 0
|}.

Definition toy_ics : ics_env := {|
  ic_abi := ics_abi;
  ic_GasConfig := mkGasConfig 1000 3 2000 30;
  ic_ApprovalExpiration := 1000;
  ic_BlockTime := 50;
  ic_HasChannel _ _ _ := true;
  ic_AuthorizationValidateBasic l := if decide (allocations_ok l) then Ok () else Err "invalid allocations"%string;
  ic_Accept := toy_accept;
  ic_MsgValidateBasic _ := Ok ();
  ic_Find l d := if decide (d ∈ l.*1) then Some (d, amount_in l d) else None;
  ic_Add := toy_add
|}.

Lemma toy_ics_laws : ics_laws toy_ics.
Proof.
  split.
  - intros l d _. cbn. by case_decide.
  - intros l d n Hok Hn Hlt. cbn [ic_Add toy_ics]. unfold toy_add. cbn [fst snd]. destruct (Z.eqb_spec n 0) as [->|Hne].
    + exists l. split_and!; [done..|]. intros d'. case_decide; lia.
    + rewrite (proj2 (Z.ltb_lt _ _)) by done. destruct (insert_coin_spec l d n Hok) as (H1 & _ & H2); [lia|done|]. by eexists.
  - intros l. cbn. by case_decide.
  - intros l msg resp Hl. cbn [ic_Accept toy_ics]. unfold toy_accept. intros Ha _. cbn zeta.
    destruct (Z.leb_spec 0 (mt_Amount msg)) as [H0|]; [|done]. destruct (Z.leb_spec (mt_Amount msg) MaxUint256) as [H1|]; [|done].
    cbn [andb negb] in Ha. destruct (Z.eqb_spec (allowed l (mr_SourcePort (mt_rest msg)) (mr_SourceChannel (mt_rest msg))
      (mt_Denom msg)) MaxUint256) as [Hmax|Hmax].
    + injection Ha as <-. cbn [accepted ar_Delete ar_Updated default]. split; [lia|]. split; [done|].
      intros port channel denom. rewrite decide_False by tauto. lia.
    + destruct (take_off _ _ _ _ _) as [l'|] eqn:Ht; [|done]. apply take_off_spec in Ht as (Hn & Hok & _ & Hall); [|done].
      assert (accepted l resp = l') as -> by (destruct l'; injection Ha as <-; done).
      split; [done|]. split; [done|]. intros port channel denom. rewrite Hall. do 2 case_decide; naive_solver.
Qed.

(** *** Calls *)

Definition no_trace_query (_ : string) (_ : list abi_value) (_ : toy_chain) : outcome (pc_error + erc20_error) (list byte) := Ok [].

Definition by_66 : Contract := mkContract 66 0x802 0 [] 100000.
Definition limit_30 (denom : string) : list allocation :=
  [mkAllocation "transfer" "channel-0" [(denom, 30)] ["cosmos1"%string]].

(** Account 7 allows contract 66 to transfer 30 coins; the contract transfers 12 of them. *)
Definition approve_66 : ics_op := mkOp "approve" 7 by_66 [VAddress 66; VAllocations (limit_30 "ucoin")].
Definition transfer_of (sender : Address) (denom : string) (n : Z) : ics_op :=
  mkOp "transfer" 7 by_66
    [VString "transfer"; VString "channel-0"; VString denom; VBig n; VAddress sender; VString "cosmos1";
     VHeight 0 0; VUint64 100; VString EmptyString].
Definition transfer_12 : ics_op := transfer_of 7 "ucoin" 12.

Definition ics_toy_call (op : ics_op) (st : ics_state) : outcome (pc_error + erc20_error) (list byte * ics_state) :=
  ics20_method toy_erc20 toy_ibc toy_ics no_trace_query (op_name op) (op_origin op) (op_contract op) (op_args op) st.

Definition ics_start : ics_state := mkIcsState (New toy_config) (toy_store OWNER_EXTERNAL) (∅ : grant_map).

Definition ics_after (op : ics_op) (st : ics_state) : ics_state := match ics_toy_call op st with Ok (_, st') => st' | _ => st end.

Lemma ics_toy_step op st : is_Ok (ics_toy_call op st) = true → ∃ bz, ics_toy_call op st = Ok (bz, ics_after op st).
Proof. unfold ics_after. destruct (ics_toy_call op st) as [[bz st']| |]; [by exists bz|done..]. Qed.

Lemma amounts_checked op : forallb (λ v, match v with VBig n => 0 <=? n | _ => true end) (op_args op) = true → amounts_ok op.
Proof. intros Hf n Hn. rewrite forallb_forall in Hf. by apply Z.leb_le, (Hf (VBig n)), list_elem_of_In. Qed.

Lemma transfers_within_grants_witness :
  ∃ st', ics_run toy_erc20 toy_ibc toy_ics no_trace_query [approve_66; transfer_12] ics_start st' ∧
    0 <= transfer_allowance (ics_grants st') 66 7 "transfer" "channel-0" "ucoin" <= 18.
Proof.
  destruct (ics_toy_step approve_66 ics_start) as [b1 H1]; [vm_compute; reflexivity|].
  destruct (ics_toy_step transfer_12 (ics_after approve_66 ics_start)) as [b2 H2]; [vm_compute; reflexivity|].
  pose proof (run_cons _ _ _ _ _ _ _ _ _ _ H1 (run_cons _ _ _ _ _ _ _ _ _ _ H2 (run_nil _ _ _ _ _))) as Hrun.
  eexists. split; [exact Hrun|].
  destruct (transfers_within_grants toy_erc20 toy_ibc toy_ics toy_ics_laws no_trace_query 66 7 "transfer" "channel-0" "ucoin"
    _ _ _ Hrun) as (_ & H3 & H4).
  - apply Forall_cons. split; [|apply Forall_singleton]; apply amounts_checked; reflexivity.
  - intros s o l e Ha. cbn in Ha. by rewrite lookup_empty in Ha.
  - vm_compute. reflexivity.
  - split; [exact H3|].
    replace (sum_calls (spent_by 66 7 "transfer" "channel-0" "ucoin") _) with 12 in H4 by (vm_compute; reflexivity).
    replace (sum_calls (given_by 66 7 "transfer" "channel-0" "ucoin") _) with 30 in H4 by (vm_compute; reflexivity).
    replace (transfer_allowance (ics_grants ics_start) _ _ _ _ _) with 0 in H4 by (vm_compute; reflexivity).
    lia.
Defined.

(** Contract 66 has 50 coins and receives 10 from account 7, and then sends 20 of its own
    to another chain. *)
Definition own_store : evm_store :=
  mkEvmStore (mkToyChain 0 {[ 7 := (Some 99, 3); 66 := (Some 33, 1) ]}
                (mkBank {[ "aego"%string := 150 ]} {[ 7 := {[ "aego"%string := 100 ]}; 66 := {[ "aego"%string := 50 ]} ]}))
    ∅ ∅.
Definition own_db : StateDB :=
  match run_all toy_keccak own_store [CSubBalance 7 10; CAddBalance 66 10] (New toy_config) with
  | Ok s => s
  | _ => New toy_config
  end.
Definition own_start : ics_state :=
  mkIcsState own_db (with_evm own_store (toy_store OWNER_EXTERNAL))
    ({[ (66, 7, TransferMsgURL) := (TransferAuthorization (limit_30 "aego"), None) ]} : grant_map).

(** After the transfer and the final commit: what 7, 66 and the channel have, and the supply. *)
Definition own_outcome : option (Z * Z * Z * Z) :=
  match ics_toy_call (transfer_of 66 "aego" 20) own_start with
  | Ok (_, st') =>
      match Commit (er_evm (ics_erc20 st')) (ics_stateDB st') with
      | Ok c' => let b a := bank_GetBalance (ek_chain c') a "aego" in Some (b 7, b 66, b 5, bank_GetSupply (ek_chain c') "aego")
      | _ => None
      end
  | _ => None
  end.

(** The 20 that left are minted again for the contract. *)
Example own_transfer_mints : own_outcome = Some (90, 60, 20, 170).
Proof. vm_compute. reflexivity. Qed.
End IcsToy.
