(* ===== verification/Outposts.v ===== *)
(** * The outposts: [precompiles/outposts/osmosis], [precompiles/outposts/stride]

    The outposts send coins to another chain with a memo that tells it what to do: swap
    them on Osmosis, or stake or redeem them on Stride.  They are built on the ICS-20
    precompile, whose grants, transfer and events they share.  The memo is the text that
    [Json] prints.  Channels and the encodings of addresses are fields of [outpost_env]. *)

From S2P Require Import Prelude Sdk Dec Decimal Json ChainID AccessList StateDB EvmKeeper EvmTx GasMeter EvmApply EvmQuery Erc20 Erc20Ibc Precompile Ics20Precompile.

(** [SwapPacketData] *)
Record swap_packet := mkSwapPacket {
  sp_ChannelID : string;
  sp_XcsContract : string;
  sp_Sender : Address;
  sp_Input : Address;
  sp_Output : Address;
  sp_Amount : Z;
  sp_SlippagePercentage : Z;
  sp_WindowSeconds : Z;
  sp_SwapReceiver : string
}.

(** The field [on_failed_delivery]: a text or a recovery address. *)
Inductive on_failed_delivery :=
| DeliveryText (s : string)
| RecoveryAddress (address : string).

(** [RawPacketMetadata] of the Osmosis outpost with what it points to. *)
Record swap_memo := mkSwapMemo {
  sm_Contract : string;
  sm_OutputDenom : string;
  sm_SlippagePercentage : string;
  sm_WindowSeconds : Z;
  sm_Receiver : string;
  sm_OnFailedDelivery : on_failed_delivery;
  sm_NextMemo : string
}.

(** [AutopilotArgs] *)
Record autopilot_args := mkAutopilotArgs {
  aa_ChannelID : string;
  aa_Sender : Address;
  aa_Receiver : Address;
  aa_Token : Address;
  aa_Amount : Z;
  aa_StrideForwarder : string
}.

(** [RawPacketMetadata] of the Stride outpost. *)
Record autopilot_memo := mkAutopilotMemo {
  am_Receiver : string;
  am_Action : string;
  am_IBCReceiver : string
}.

Definition PortID : string := "transfer".
Definition OsmosisPrefix : string := "osmo".
Definition OsmosisDenom : string := "uosmo".
Definition StrideBech32Prefix : string := "stride".
Definition DefaultOnFailedDelivery : string := "do_nothing".
Definition WasmContractAddrLen : nat := 32.
Definition MaxSlippagePercentage : Z := 20.
Definition MaxWindowSeconds : Z := 60.
Definition LiquidStakeAction : string := "LiquidStake".
Definition RedeemStakeAction : string := "RedeemStake".
Definition osmosis_Address : Address := 0x901.
Definition stride_Address : Address := 0x900.
(** Ten minutes in nanoseconds. *)
Definition DefaultTimeout : Z := 600000000000.
Definition DefaultTimeoutHeight : Z * Z := (0, 0).

(** ** The texts of memos *)

(** A field with [omitempty] is left out when it is empty. *)
Definition omit_empty (k s : string) : list (string * json) := if decide (s = EmptyString) then [] else [(k, JString s)].

Definition delivery_json (d : on_failed_delivery) : json :=
  match d with
  | DeliveryText s => JString s
  | RecoveryAddress a => JObject [("local_recovery_addr", JString a)]%string
  end.

Definition swap_json (m : swap_memo) : json :=
  JObject [("wasm", JObject [
    ("contract", JString (sm_Contract m));
    ("msg", JObject [("osmosis_swap", JObject ([
      ("output_denom", JString (sm_OutputDenom m));
      ("slippage", JObject [("twap", JObject [
        ("slippage_percentage", JString (sm_SlippagePercentage m));
        ("window_seconds", JNumber (FormatUint (sm_WindowSeconds m)))])]);
      ("receiver", JString (sm_Receiver m));
      ("on_failed_delivery", delivery_json (sm_OnFailedDelivery m))] ++
      omit_empty "next_memo" (sm_NextMemo m)))])])]%string.

(** [RawPacketMetadata.String] *)
Definition swap_text (m : swap_memo) : string := Marshal (swap_json m).

Definition autopilot_json (m : autopilot_memo) : json :=
  JObject [("autopilot", JObject [
    ("receiver", JString (am_Receiver m));
    ("stakeibc", JObject ([("action", JString (am_Action m))] ++ omit_empty "ibcreceiver" (am_IBCReceiver m)))])]%string.

Section Outposts.
Context `{EE : EvmEnv} `{GE : Geth} `{EK : !EVMKeeper} `{AK : !AuthzKeeper}.

Abbreviation transfer_msg := (MsgTransfer transfer_rest).
Abbreviation ics_result A := (outcome (pc_error + erc20_error) A).

Record outpost_env := mkOutpostEnv {
  (** the contract's ABI with the authorizations and messages of ICS-20 *)
  ou_ics : ics_env;
  ou_wevmosAddress : Address;
  (** the port and channel of the counterparty *)
  ou_GetChannel : chain → string → string → option (string * string);
  (** [bech32.DecodeAndConvert], [sdk.Bech32ifyAddressBytes] *)
  ou_DecodeAndConvert : string → option (string * list byte);
  ou_Bech32ify : string → list byte → option string;
  ou_GetPrefixedDenom : string → string → string → string;
  ou_BlockTime : Z
}.

Variable x : erc20_env.
Variable ib : ibc_env (rest := transfer_rest).
Variable p : outpost_env.

(** [ComputeIBCDenom] of [utils/utils.go] *)
Definition ComputeIBCDenomTrace (portID channelID denom : string) : DenomTrace :=
  mkDenomTrace (portID +:+ "/" +:+ channelID) denom.
Definition ComputeIBCDenom (portID channelID denom : string) : string := ib_IBCDenom ib (ComputeIBCDenomTrace portID channelID denom).

(** A log with any number of indexed arguments. *)
Definition log_event (addr : Address) (event : string) (topics data : list abi_value) (st : ics_state) : ics_result ics_state :=
  ts ← of_pc (mapM (MakeTopic (ic_abi (ou_ics p))) topics);
  packed ← of_pc (pack (ic_abi (ou_ics p)) data);
  Ok (ics_with_stateDB
        (AddLog (mkLog addr (ab_EventID (ic_abi (ou_ics p)) event :: ts) packed 0 0 0 0) (ics_stateDB st)) st).

(** The end of all three transactions, but for the last event: the message is made and
    validated, a grant is used where it is needed, and the coins are sent. *)
Definition outpost_transfer (addr : Address) (contract : Contract) (origin sender : Address) (channel : string) (coin : string * Z)
    (receiver memo : string) (st : ics_state) : ics_result ics_state :=
  msg ← CreateAndValidateMsgTransfer (ou_ics p) PortID channel coin (x_Bech32 x sender) receiver DefaultTimeoutHeight
          (u64 (ou_BlockTime p + DefaultTimeout)) memo;
  resp ← CheckAndAcceptAuthorizationIfNeeded (ou_ics p) contract origin msg (ics_grants st);
  '(_, e) ← of_module (Transfer x ib msg (ics_erc20 st));
  g ← UpdateGrantIfNeeded contract origin resp (ics_grants st);
  EmitIBCTransferEvent (ou_ics p) addr sender msg (ics_with_grants g (with_erc20 e st)).

Definition outpost_success (r : ics_result ics_state) : ics_result (list byte * ics_state) :=
  st ← r; bz ← of_pc (pack (ic_abi (ou_ics p)) [VBool true]); Ok (bz, st).

(** ** Osmosis: [types.go] *)

(** An address with another prefix is accepted when it can be converted, and is not. *)
Definition ValidateOsmosisContractAddress (contractAddress : string) : ics_result () :=
  match ou_DecodeAndConvert p contractAddress with
  | None => Err (inl PErrInvalid)
  | Some (bech32Prefix, addressBytes) =>
      if negb (bool_decide (bech32Prefix = OsmosisPrefix)) &&
         match ou_Bech32ify p OsmosisPrefix addressBytes with None => true | Some _ => false end then Err (inl PErrInvalid)
      else if (length addressBytes =? WasmContractAddrLen)%nat then Ok () else Err (inl PErrInvalid)
  end.

Definition ParseSwapPacketData (args : list abi_value) : ics_result swap_packet :=
  match args with
  | [VTuple [VString channelID; VString xcsContract; VAddress sender; VAddress input; VAddress output; VBig amount;
             VUint8 slippagePercentage; VUint64 windowSeconds; VString swapReceiver]] =>
      _ ← ValidateOsmosisContractAddress xcsContract;
      Ok (mkSwapPacket channelID xcsContract sender input output amount slippagePercentage windowSeconds swapReceiver)
  | _ => Err (inl PErrArgs)
  end.

Definition ValidateInputOutput (inputDenom outputDenom stakingDenom channelID : string) : ics_result () :=
  if decide (outputDenom = inputDenom) then Err (inl PErrInvalid)
  else
    let acceptedTokens := [stakingDenom; ComputeIBCDenom PortID channelID OsmosisDenom] in
    if negb (bool_decide (inputDenom ∈ acceptedTokens)) then Err (inl PErrInvalid)
    else if negb (bool_decide (outputDenom ∈ acceptedTokens)) then Err (inl PErrInvalid)
    else Ok ().

Definition ConvertToOsmosisRepresentation (denom stakingDenom channelID : string) (osmosisChannel : string * string) : ics_result string :=
  if decide (denom = ComputeIBCDenom PortID channelID OsmosisDenom) then Ok OsmosisDenom
  else if decide (denom = stakingDenom) then
    Ok (ib_IBCDenom ib (ib_ParseDenomTrace ib (ou_GetPrefixedDenom p osmosisChannel.1 osmosisChannel.2 denom)))
  else Err (inl PErrInvalid).

Definition CreateOnFailedDeliveryField (address : string) : on_failed_delivery :=
  match ou_DecodeAndConvert p address with
  | None => DeliveryText DefaultOnFailedDelivery
  | Some (bech32Prefix, addressBytes) =>
      if decide (bech32Prefix = OsmosisPrefix) then RecoveryAddress address
      else match ou_Bech32ify p OsmosisPrefix addressBytes with
           | None => DeliveryText DefaultOnFailedDelivery
           | Some recoveryAddress => RecoveryAddress recoveryAddress
           end
  end.

Definition CreatePacketWithMemo (outputDenom receiver contract : string) (slippagePercentage windowSeconds : Z)
    (onFailedDelivery : on_failed_delivery) (nextMemo : string) : swap_memo :=
  mkSwapMemo contract outputDenom (FormatUint slippagePercentage) windowSeconds receiver onFailedDelivery nextMemo.

Definition swap_Validate (m : swap_memo) : ics_result () :=
  if decide (sm_Contract m = EmptyString) then Err (inl PErrInvalid)
  else if match sm_OnFailedDelivery m with DeliveryText s => bool_decide (s = EmptyString) | _ => false end then Err (inl PErrInvalid)
  else match x_AccAddressFromBech32 x (sm_Receiver m) with
       | None => Err (inl PErrInvalid)
       | Some _ =>
           match ParseUint (sm_SlippagePercentage m) 8 with
           | None => Err (inl PErrInvalid)
           | Some n =>
               if (n =? 0) || (MaxSlippagePercentage <? n) then Err (inl PErrInvalid)
               else if (sm_WindowSeconds m =? 0) || (MaxWindowSeconds <? sm_WindowSeconds m) then Err (inl PErrInvalid)
               else Ok ()
           end
       end.

(** ** Osmosis: [tx.go], [events.go], [osmosis.go] *)

Definition EmitSwapEvent (sender input output : Address) (amount : Z) (receiver : string) (st : ics_state) : ics_result ics_state :=
  log_event osmosis_Address "Swap" [VAddress sender; VAddress input; VAddress output] [VBig amount; VString receiver] st.

(** The bond denomination for the wrapped token, the denomination of the pair for others. *)
Definition token_denom (token : Address) (bondDenom : string) (st : ics_state) : ics_result string :=
  if decide (token = ou_wevmosAddress p) then Ok bondDenom else of_module (GetTokenDenom token (ics_erc20 st)).

Definition Swap (origin : Address) (contract : Contract) (args : list abi_value) (st : ics_state) : ics_result (list byte * ics_state) :=
  d ← ParseSwapPacketData args;
  sender ← CheckOriginAndSender contract origin (sp_Sender d);
  let bondDenom := x_BondDenom x (ics_chain st) in
  inputDenom ← token_denom (sp_Input d) bondDenom st;
  outputDenom ← token_denom (sp_Output d) bondDenom st;
  _ ← ValidateInputOutput inputDenom outputDenom bondDenom (sp_ChannelID d);
  match ou_GetChannel p (ics_chain st) PortID (sp_ChannelID d) with
  | None => Err (inl PErrChannelNotFound)
  | Some osmosisChannel =>
      outputOnOsmosis ← ConvertToOsmosisRepresentation outputDenom bondDenom (sp_ChannelID d) osmosisChannel;
      let packet := CreatePacketWithMemo outputOnOsmosis (sp_SwapReceiver d) (sp_XcsContract d) (sp_SlippagePercentage d)
                      (sp_WindowSeconds d) (CreateOnFailedDeliveryField (x_Bech32 x sender)) EmptyString in
      _ ← swap_Validate packet;
      amount ← of_pc (of_total (NewIntFromBigInt (sp_Amount d)));
      outpost_success (
        st ← outpost_transfer osmosis_Address contract origin sender (sp_ChannelID d) (inputDenom, amount) (sp_XcsContract d)
               (swap_text packet) st;
        EmitSwapEvent sender (sp_Input d) (sp_Output d) (sp_Amount d) (sp_SwapReceiver d) st)
  end.

Definition osmosis_IsTransaction (name : string) : bool := bool_decide (name = "swap"%string).

Definition osmosis_RequiredGas (input : list byte) : partial Z :=
  contract_RequiredGas (ic_abi (ou_ics p)) (ic_GasConfig (ou_ics p)) osmosis_IsTransaction input.

Definition osmosis_Run (origin : Address) (contract : Contract) (readOnly : bool) (initialGas finalGas : Z) (st : ics_state) :
    ics_result (list byte * ics_state * Z) :=
  '(m, args) ← of_pc (RunSetup (ic_abi (ou_ics p)) contract readOnly osmosis_IsTransaction initialGas);
  '(bz, st) ← (if decide (me_Name m = "swap"%string) then Swap origin contract args st else Err (inl PErrUnknownMethod));
  of_pc (charge contract initialGas finalGas (Ok (bz, st))).

(** ** Stride: [types.go] *)

Definition CreateAccAddressFromBech32 (address prefix : string) : ics_result Address :=
  match TrimSpace (bytes_of address) with
  | [] => Err (inl PErrInvalid)
  | _ => match ib_GetFromBech32 ib address prefix with None => Err (inl PErrInvalid) | Some a => Ok a end
  end.

Definition parseAutopilotArgs (args : list abi_value) : ics_result autopilot_args :=
  match args with
  | [VTuple [VString channelID; VAddress sender; VAddress receiver; VAddress token; VBig amount; VString strideForwarder]] =>
      _ ← CreateAccAddressFromBech32 strideForwarder StrideBech32Prefix;
      if amount <=? 0 then Err (inl PErrInvalid)
      else Ok (mkAutopilotArgs channelID sender receiver token amount strideForwarder)
  | _ => Err (inl PErrArgs)
  end.

Definition autopilot_ValidateBasic (m : autopilot_memo) : ics_result () :=
  if decide (am_Action m = EmptyString) then Err (inl PErrInvalid)
  else if decide (am_Receiver m = EmptyString) then Err (inl PErrInvalid)
  else if decide (am_Action m = RedeemStakeAction ∧ am_IBCReceiver m = EmptyString) then Err (inl PErrInvalid)
  else Ok ().

Definition CreateMemo (action strideForwarder receiver : string) : ics_result string :=
  let data := mkAutopilotMemo strideForwarder action receiver in
  _ ← autopilot_ValidateBasic data;
  Ok (Marshal (autopilot_json data)).

(** ** Stride: [tx.go], [events.go], [stride.go] *)

Definition EmitLiquidStakeEvent (sender token : Address) (amount : Z) (st : ics_state) : ics_result ics_state :=
  log_event stride_Address "LiquidStake" [VAddress sender; VAddress token] [VBig amount] st.

Definition EmitRedeemStakeEvent (sender token receiver : Address) (strideForwarder : string) (amount : Z) (st : ics_state) :
    ics_result ics_state :=
  log_event stride_Address "RedeemStake" [VAddress sender; VAddress receiver; VAddress token] [VString strideForwarder; VBig amount] st.

Definition LiquidStake (origin : Address) (contract : Contract) (args : list abi_value) (st : ics_state) :
    ics_result (list byte * ics_state) :=
  a ← parseAutopilotArgs args;
  sender ← CheckOriginAndSender contract origin (aa_Sender a);
  if negb (aa_Token a =? ou_wevmosAddress p) then Err (inl PErrInvalid)
  else
    amount ← of_pc (of_total (NewIntFromBigInt (aa_Amount a)));
    memo ← CreateMemo LiquidStakeAction (aa_StrideForwarder a) (x_Bech32 x (aa_Receiver a));
    outpost_success (
      st ← outpost_transfer stride_Address contract origin sender (aa_ChannelID a) (x_BondDenom x (ics_chain st), amount)
             (aa_StrideForwarder a) memo st;
      EmitLiquidStakeEvent sender (aa_Token a) (aa_Amount a) st).

Definition RedeemStake (origin : Address) (contract : Contract) (args : list abi_value) (st : ics_state) :
    ics_result (list byte * ics_state) :=
  a ← parseAutopilotArgs args;
  sender ← CheckOriginAndSender contract origin (aa_Sender a);
  let stToken := "st" +:+ x_BondDenom x (ics_chain st) in
  let ibcDenom := ComputeIBCDenom PortID (aa_ChannelID a) stToken in
  match GetTokenPair (GetDenomMap ibcDenom (ics_erc20 st)) (ics_erc20 st) with
  | None => Err (inl PErrInvalid)
  | Some tokenPair =>
      if negb (aa_Token a =? GetERC20Contract tokenPair) then Err (inl PErrInvalid)
      else
        amount ← of_pc (of_total (NewIntFromBigInt (aa_Amount a)));
        memo ← CreateMemo RedeemStakeAction (aa_StrideForwarder a) (x_Bech32 x (aa_Receiver a));
        outpost_success (
          st ← outpost_transfer stride_Address contract origin sender (aa_ChannelID a) (tp_Denom tokenPair, amount)
                 (aa_StrideForwarder a) memo st;
          EmitRedeemStakeEvent sender (aa_Token a) (aa_Receiver a) (aa_StrideForwarder a) (aa_Amount a) st)
  end.

Definition stride_IsTransaction (name : string) : bool := bool_decide (name ∈ ["liquidStake"; "redeemStake"]%string).

Definition stride_RequiredGas (input : list byte) : partial Z :=
  contract_RequiredGas (ic_abi (ou_ics p)) (ic_GasConfig (ou_ics p)) stride_IsTransaction input.

Definition stride_method (name : string) (origin : Address) (contract : Contract) (args : list abi_value) (st : ics_state) :
    ics_result (list byte * ics_state) :=
  if decide (name = "liquidStake"%string) then LiquidStake origin contract args st
  else if decide (name = "redeemStake"%string) then RedeemStake origin contract args st
  else Err (inl PErrUnknownMethod).

Definition stride_Run (origin : Address) (contract : Contract) (readOnly : bool) (initialGas finalGas : Z) (st : ics_state) :
    ics_result (list byte * ics_state * Z) :=
  '(m, args) ← of_pc (RunSetup (ic_abi (ou_ics p)) contract readOnly stride_IsTransaction initialGas);
  '(bz, st) ← stride_method (me_Name m) origin contract args st;
  of_pc (charge contract initialGas finalGas (Ok (bz, st))).
End Outposts.
