(* ===== verification/OutpostsSpec.v ===== *)
(** * What the outposts promise: [precompiles/outposts]

    A call of an outpost that succeeds sends coins of the origin, and of nobody else, under
    a grant of the origin where another contract calls it, in the denomination of the token
    that was named; and what the other chain reads from the memo is what was asked for
    ([outposts_send_requested]).  The check of the contract's address accepts one that is not of Osmosis ([foreign_contract_accepted]). *)

From S2P Require Import Prelude Sdk Dec Decimal Json ChainID AccessList StateDB Journal StateDBSpec Commit EvmKeeper EvmKeeperSpec EvmTx EvmTxSpec GasMeter EvmApply EvmQuery Erc20 Erc20Spec Erc20Ibc Erc20IbcSpec Precompile PrecompileSpec Erc20PrecompileSpec Ics20Precompile Ics20PrecompileSpec Outposts.

(** ** Memos *)

(** The value at a path of names. *)
Fixpoint at_path (j : json) (path : list string) : option json :=
  match path with
  | [] => Some j
  | k :: path =>
      match j with
      | JObject m => '(_, v) ← list_find (λ e, e.1 = k) m; at_path v.2 path
      | _ => None
      end
  end.

Lemma span_digits l : Forall (λ d, 0 <= d < 10) l →
  span_string number_char (String.string_of_list_ascii (map digit_char l)) = (String.string_of_list_ascii (map digit_char l), EmptyString).
Proof.
  induction 1 as [|d l Hd _ IH]; [done|]. cbn [map String.string_of_list_ascii span_string].
  assert (number_char (digit_char d) = true) as ->; [|by rewrite IH].
  assert (forallb (λ d, number_char (digit_char d)) (seqZ 0 10) = true) as Hall by reflexivity.
  rewrite forallb_forall in Hall. by apply Hall, list_elem_of_In, elem_of_seqZ.
Qed.

Lemma format_number n : 0 <= n → numbers_ok (JNumber (FormatUint n)) = true.
Proof.
  intros Hn. cbn [numbers_ok]. unfold FormatUint. apply andb_true_iff. split.
  - apply negb_true_iff, bool_decide_eq_false. cbn [digits_rev]. rewrite reverse_cons, map_app.
    destruct (map digit_char (reverse _)); discriminate.
  - apply bool_decide_eq_true, span_digits, Forall_reverse, digits_rev_range, Hn.
Qed.

Lemma omitted_numbers k s : forallb (λ e, numbers_ok e.2) (omit_empty k s) = true.
Proof. unfold omit_empty. by case_decide. Qed.

Lemma swap_numbers m : 0 <= sm_WindowSeconds m → numbers_ok (swap_json m) = true.
Proof.
  intros Hn. pose proof (format_number _ Hn) as Hf. cbn -[FormatUint] in *. rewrite Hf, omitted_numbers.
  by destruct (sm_OnFailedDelivery m).
Qed.

Lemma autopilot_numbers m : numbers_ok (autopilot_json m) = true.
Proof. cbn. by rewrite omitted_numbers. Qed.

(** The whole text is read. *)
Definition reads (text : string) (j : json) : Prop := read_value (S (json_depth j)) text = Some (j, EmptyString).

Lemma append_nil_r s : s +:+ EmptyString = s.
Proof. induction s as [|c s IH]; [done|]. rewrite append_cons. by rewrite IH. Qed.

Lemma reads_Marshal j : numbers_ok j = true → reads (Marshal j) j.
Proof. intros Hn. unfold reads. rewrite <-(append_nil_r (Marshal j)). apply read_print; [lia|done|done]. Qed.

(** ** Calls *)

Inductive outpost := OsmosisSwap | StrideLiquidStake | StrideRedeemStake.

Definition action (o : outpost) : string := match o with StrideRedeemStake => RedeemStakeAction | _ => LiquidStakeAction end.

Section Calls.
Context `{EE : EvmEnv} `{GE : Geth} `{EK : !EVMKeeper} `{AK : !AuthzKeeper} `{AL : !AuthzLaws}.
Context (x : erc20_env) (ib : ibc_env (rest := transfer_rest)) (p : outpost_env) (PL : ics_laws (ou_ics p)).

Definition outpost_call (o : outpost) :=
  match o with OsmosisSwap => Swap x ib p | StrideLiquidStake => LiquidStake x ib p | StrideRedeemStake => RedeemStake x ib p end.

(** The coin of a token: the staking coin for the wrapped token, and that of the
    registered pair for others. *)
Definition coin_of (token : Address) (st : ics_state) : option string :=
  if decide (token = ou_wevmosAddress p) then Some (x_BondDenom x (ics_chain st))
  else tp_Denom <$> GetTokenPair (GetERC20Map token (ics_erc20 st)) (ics_erc20 st).

(** The coin of Osmosis as it is known here, when it came over [channel]. *)
Definition osmo_here (channel : string) : string := ComputeIBCDenom ib PortID channel OsmosisDenom.

(** A coin that is sent back over [channel] as Osmosis knows it: its own coin by its name,
    ours by the denomination it has over the other end of the channel. *)
Definition on_osmosis (channel : string) (far : string * string) (denom : string) : string :=
  if decide (denom = osmo_here channel) then OsmosisDenom
  else ib_IBCDenom ib (ib_ParseDenomTrace ib (ou_GetPrefixedDenom p far.1 far.2 denom)).

(** What the arguments ask for, of the message and of the memo as the other chain reads it. *)
Definition requested (o : outpost) (origin caller : Address) (st : ics_state) (args : list abi_value)
    (msg : MsgTransfer transfer_rest) (j : json) : Prop :=
  let r := mt_rest msg in
  let bond := x_BondDenom x (ics_chain st) in
  match o, args with
  | OsmosisSwap, [VTuple [VString channel; VString xcs; VAddress sender; VAddress input; VAddress output; VBig amount;
                          VUint8 slippage; VUint64 window; VString receiver]] =>
      let swap (k : list string) := at_path j ("wasm" :: "msg" :: "osmosis_swap" :: k)%string in
      (sender = caller ∨ sender = origin) ∧
      mr_SourceChannel r = channel ∧ mt_Amount msg = amount ∧ mr_Receiver r = xcs ∧
      coin_of input st = Some (mt_Denom msg) ∧ mt_Denom msg ∈ [bond; osmo_here channel] ∧
      (∃ out far, coin_of output st = Some out ∧ out ∈ [bond; osmo_here channel] ∧ out ≠ mt_Denom msg ∧
         ou_GetChannel p (ics_chain st) PortID channel = Some far ∧
         swap ["output_denom"]%string = Some (JString (on_osmosis channel far out))) ∧
      at_path j ["wasm"; "contract"]%string = Some (JString xcs) ∧
      swap ["receiver"]%string = Some (JString receiver) ∧
      swap ["slippage"; "twap"; "slippage_percentage"]%string = Some (JString (FormatUint slippage)) ∧
      swap ["slippage"; "twap"; "window_seconds"]%string = Some (JNumber (FormatUint window)) ∧
      swap ["on_failed_delivery"]%string = Some (delivery_json (CreateOnFailedDeliveryField p (x_Bech32 x origin))) ∧
      is_Some (x_AccAddressFromBech32 x receiver) ∧ 0 < slippage <= MaxSlippagePercentage ∧ 0 < window <= MaxWindowSeconds
  | (StrideLiquidStake | StrideRedeemStake),
    [VTuple [VString channel; VAddress sender; VAddress receiver; VAddress token; VBig amount; VString forwarder]] =>
      (sender = caller ∨ sender = origin) ∧
      mr_SourceChannel r = channel ∧ mt_Amount msg = amount ∧ 0 < amount ∧ mr_Receiver r = forwarder ∧
      match o with
      | StrideRedeemStake => ∃ pair,
          GetTokenPair (GetDenomMap (ComputeIBCDenom ib PortID channel ("st" +:+ bond)) (ics_erc20 st)) (ics_erc20 st) = Some pair ∧
          token = GetERC20Contract pair ∧ mt_Denom msg = tp_Denom pair
      | _ => token = ou_wevmosAddress p ∧ mt_Denom msg = bond
      end ∧
      at_path j ["autopilot"; "receiver"]%string = Some (JString forwarder) ∧
      at_path j ["autopilot"; "stakeibc"; "action"]%string = Some (JString (action o)) ∧
      default (JString EmptyString) (at_path j ["autopilot"; "stakeibc"; "ibcreceiver"]%string) = JString (x_Bech32 x receiver)
  | _, _ => False
  end.

(** The integers of the arguments fit their types. *)
Definition widths_ok (args : list abi_value) : Prop :=
  ∀ l, VTuple l ∈ args → (∀ n, VUint8 n ∈ l → 0 <= n < 2 ^ 8) ∧ (∀ n, VUint64 n ∈ l → 0 <= n < 2 ^ 64).

Lemma sender_is_origin ct origin sender sender' :
  CheckOriginAndSender ct origin sender = Ok sender' →
  sender' = origin ∧ (sender = ct_CallerAddress ct ∨ sender = origin).
Proof. unfold CheckOriginAndSender. intros Hc. repeat case_decide; naive_solver. Qed.

Lemma token_denom_coin token st denom :
  token_denom p token (x_BondDenom x (ics_chain st)) st = Ok denom → coin_of token st = Some denom.
Proof.
  unfold token_denom, coin_of. destruct (decide _); [by intros [= ->]|]. intros Hd%of_module_Ok.
  unfold GetTokenDenom in Hd. case_guards Hd. by simplify_eq.
Qed.

Lemma tokens_validated_inv input output staking channel :
  ValidateInputOutput ib input output staking channel = Ok () →
  output ≠ input ∧ input ∈ [staking; osmo_here channel] ∧ output ∈ [staking; osmo_here channel].
Proof.
  unfold ValidateInputOutput. fold (osmo_here channel). intros Hv. case_decide; [done|].
  destruct (bool_decide (input ∈ _)) eqn:Hi; [|done]. destruct (bool_decide (output ∈ _)) eqn:Ho; [|done].
  by apply bool_decide_eq_true in Hi, Ho.
Qed.

Lemma converted_inv denom staking channel far r :
  ConvertToOsmosisRepresentation ib p denom staking channel far = Ok r → r = on_osmosis channel far denom.
Proof.
  unfold ConvertToOsmosisRepresentation, on_osmosis. fold (osmo_here channel). intros Hc.
  repeat case_decide; by simplify_eq.
Qed.

(** The message that is sent, the module's state after it, and the grants. *)
Lemma sent addr ct origin sender channel coin receiver memo st st' :
  outpost_transfer x ib p addr ct origin sender channel coin receiver memo st = Ok st' → grants_ok (ics_grants st) →
  ∃ msg seq, Transfer x ib msg (ics_erc20 st) = Ok (seq, ics_erc20 st') ∧
    granted ct origin msg (ics_grants st) (ics_grants st') ∧
    mt_Sender msg = x_Bech32 x sender ∧ mt_Denom msg = coin.1 ∧ mt_Amount msg = coin.2 ∧
    mr_SourcePort (mt_rest msg) = PortID ∧ mr_SourceChannel (mt_rest msg) = channel ∧
    mr_Receiver (mt_rest msg) = receiver ∧ mr_Memo (mt_rest msg) = memo.
Proof.
  intros Ho Hg. apply bind_Ok_inv in Ho as (msg & Hm & Ho). apply bind_Ok_inv in Ho as (r & Hr & Ho).
  apply bind_Ok_inv in Ho as ([seq e] & Ht%of_module_Ok & Ho). apply bind_Ok_inv in Ho as (g & Hu & Ho).
  apply bind_Ok_inv in Ho as (sdb & _ & [= <-]). apply bind_Ok_inv in Hm as (u & _ & [= <-]).
  eexists _, seq. split; [exact Ht|]. split; [eapply granted_transfer; [exact PL|exact Hr|exact Hu|exact Hg]|]. split_and!; reflexivity.
Qed.

Lemma log_event_same addr event topics data st st' :
  log_event p addr event topics data st = Ok st' → ics_erc20 st' = ics_erc20 st ∧ ics_grants st' = ics_grants st.
Proof.
  intros Hl. apply bind_Ok_inv in Hl as (ts & _ & Hl). apply bind_Ok_inv in Hl as (bz & _ & [= <-]). done.
Qed.

(** The two events and the output do not change what was sent. *)
Lemma sent_logged addr ct origin sender channel coin receiver memo st bz st' event topics data :
  outpost_success p (st ← outpost_transfer x ib p addr ct origin sender channel coin receiver memo st;
                     log_event p addr event topics data st) = Ok (bz, st') →
  ∃ st1, outpost_transfer x ib p addr ct origin sender channel coin receiver memo st = Ok st1 ∧
    ics_erc20 st' = ics_erc20 st1 ∧ ics_grants st' = ics_grants st1.
Proof.
  intros Hs. apply bind_Ok_inv in Hs as (st2 & Hs & Hp). apply bind_Ok_inv in Hp as (out & _ & [= _ <-]).
  apply bind_Ok_inv in Hs as (st1 & Ht & Hl). exists st1. by apply log_event_same in Hl.
Qed.

Lemma swap_valid m : swap_Validate x m = Ok () → is_Some (x_AccAddressFromBech32 x (sm_Receiver m)) ∧
  (∃ n, ParseUint (sm_SlippagePercentage m) 8 = Some n ∧ n ≠ 0 ∧ n <= MaxSlippagePercentage) ∧
  sm_WindowSeconds m ≠ 0 ∧ sm_WindowSeconds m <= MaxWindowSeconds.
Proof.
  unfold swap_Validate. intros Hv. case_decide; [done|]. destruct (sm_OnFailedDelivery m) as [t|]; cbn iota in Hv.
  1: destruct (bool_decide (t = EmptyString)); [done|].
  all: destruct (x_AccAddressFromBech32 x _) as [a|]; [|done]; destruct (ParseUint _ _) as [n|]; [|done];
    destruct (Z.eqb_spec n 0); [done|]; destruct (Z.ltb_spec MaxSlippagePercentage n); [done|]; cbn [orb] in Hv;
    destruct (Z.eqb_spec (sm_WindowSeconds m) 0); [done|]; destruct (Z.ltb_spec MaxWindowSeconds (sm_WindowSeconds m)); [done|];
    (split; [done|]; split; [by exists n|done]).
Qed.

(** What every call has in common: one message of the origin, and its memo. *)
Definition sends (o : outpost) (origin : Address) (ct : Contract) (args : list abi_value) (st st' : ics_state) : Prop :=
  ∃ msg seq j, Transfer x ib msg (ics_erc20 st) = Ok (seq, ics_erc20 st') ∧ mt_Sender msg = x_Bech32 x origin ∧
    mr_SourcePort (mt_rest msg) = PortID ∧ granted ct origin msg (ics_grants st) (ics_grants st') ∧
    reads (mr_Memo (mt_rest msg)) j ∧ requested o origin (ct_CallerAddress ct) st args msg j.

Lemma swap_requested origin ct args st bz st' :
  Swap x ib p origin ct args st = Ok (bz, st') → grants_ok (ics_grants st) → widths_ok args →
  sends OsmosisSwap origin ct args st st'.
Proof.
  intros Hs Hg Hw. apply bind_Ok_inv in Hs as (d & Hd & Hs). apply bind_Ok_inv in Hs as (sender & [-> Hsnd]%sender_is_origin & Hs).
  cbn zeta in Hs. apply bind_Ok_inv in Hs as (input & Hin%token_denom_coin & Hs).
  apply bind_Ok_inv in Hs as (output & Hout%token_denom_coin & Hs).
  apply bind_Ok_inv in Hs as ([] & (Hne & Hina & Houta)%tokens_validated_inv & Hs).
  destruct (ou_GetChannel _ _ _ _) as [far|] eqn:Hfar; [|done].
  apply bind_Ok_inv in Hs as (denom & ->%converted_inv & Hs). apply bind_Ok_inv in Hs as ([] & Hv%swap_valid & Hs).
  apply bind_Ok_inv in Hs as (n & [-> _]%int_inv & Hs). apply sent_logged in Hs as (st1 & Ht & Hst1 & Hgr1).
  apply sent in Ht as (msg & seq & Ht & Hgr & Hsender & Hdenom & Hn & Hport & Hch & Hrecv & Hmemo); [|done].
  unfold ParseSwapPacketData in Hd. case_guards Hd. apply bind_Ok_inv in Hd as (u' & _ & [= <-]). cbn [fst snd] in *.
  destruct (Hw _ (list_elem_of_here _ _)) as [H8 H64]. destruct Hv as (Hrec & (k & Hk & Hk0 & Hkm) & Hw0 & Hwm).
  cbn -[FormatUint ParseUint] in Hrec, Hk, Hw0, Hwm, Hin, Hout, Hfar, Hina, Houta.
  match type of Hk with ParseUint (FormatUint ?s) _ = _ => assert (0 <= s < 2 ^ 8) by (apply H8; repeat (apply list_elem_of_here || apply list_elem_of_further)) end.
  match type of Hw0 with ?w ≠ 0 => assert (0 <= w < 2 ^ 64) by (apply H64; repeat (apply list_elem_of_here || apply list_elem_of_further)) end.
  rewrite ParseUint_FormatUint in Hk by lia. injection Hk as <-.
  eexists msg, seq, _. rewrite Hst1, Hgr1. split_and!; [done..| |].
  - rewrite Hmemo. apply reads_Marshal, swap_numbers. cbn. lia.
  - cbn -[FormatUint]. rewrite Hdenom. split_and!; try done; try lia.
    by exists output, far.
Qed.

Lemma memo_reads action forwarder receiver memo : CreateMemo action forwarder receiver = Ok memo →
  reads memo (autopilot_json (mkAutopilotMemo forwarder action receiver)).
Proof. intros Hm. apply bind_Ok_inv in Hm as (u & _ & [= <-]). apply reads_Marshal, autopilot_numbers. Qed.

Lemma ibcreceiver_at m :
  default (JString EmptyString) (at_path (autopilot_json m) ["autopilot"; "stakeibc"; "ibcreceiver"]%string) = JString (am_IBCReceiver m).
Proof. unfold autopilot_json, omit_empty. case_decide as H0; [by rewrite H0|done]. Qed.

(** The coin that a call of Stride is about. *)
Definition stride_coin (o : outpost) (a : autopilot_args) (denom : string) (st : ics_state) : Prop :=
  match o with
  | StrideRedeemStake => ∃ pair,
      GetTokenPair (GetDenomMap (ComputeIBCDenom ib PortID (aa_ChannelID a) ("st" +:+ x_BondDenom x (ics_chain st))) (ics_erc20 st))
        (ics_erc20 st) = Some pair ∧ aa_Token a = GetERC20Contract pair ∧ denom = tp_Denom pair
  | _ => aa_Token a = ou_wevmosAddress p ∧ denom = x_BondDenom x (ics_chain st)
  end.

(** The two calls of Stride differ in the token and in the action. *)
Lemma autopilot_requested o origin ct args a denom memo st bz st' event topics data :
  o ≠ OsmosisSwap → parseAutopilotArgs ib args = Ok a → aa_Sender a = ct_CallerAddress ct ∨ aa_Sender a = origin →
  stride_coin o a denom st →
  CreateMemo (action o) (aa_StrideForwarder a) (x_Bech32 x (aa_Receiver a)) = Ok memo →
  outpost_success p (st ← outpost_transfer x ib p stride_Address ct origin origin (aa_ChannelID a) (denom, aa_Amount a)
                            (aa_StrideForwarder a) memo st;
                     log_event p stride_Address event topics data st) = Ok (bz, st') → grants_ok (ics_grants st) →
  sends o origin ct args st st'.
Proof.
  intros Ho Ha Hsnd Hcoin Hm%memo_reads Hs Hg. apply sent_logged in Hs as (st1 & Ht & Hst1 & Hgr1).
  apply sent in Ht as (msg & seq & Ht & Hgr & Hsender & Hdenom & Hn & Hport & Hch & Hrecv & Hmemo); [|done].
  unfold parseAutopilotArgs in Ha. case_guards Ha; apply bind_Ok_inv in Ha as (u & _ & Ha); [done|]. injection Ha as <-.
  cbn [fst snd] in *. cbn in Hcoin, Hsnd.
  eexists msg, seq, _. rewrite Hst1, Hgr1. split_and!; [done..|by rewrite Hmemo|].
  destruct o; [done|..]; cbn [requested]; rewrite Hdenom; (split_and!; [done|done|done|lia|done|apply Hcoin..|done|done|apply ibcreceiver_at]).
Qed.

Lemma liquid_requested origin ct args st bz st' :
  LiquidStake x ib p origin ct args st = Ok (bz, st') → grants_ok (ics_grants st) →
  sends StrideLiquidStake origin ct args st st'.
Proof.
  intros Hs Hg. apply bind_Ok_inv in Hs as (a & Ha & Hs). apply bind_Ok_inv in Hs as (sender & [-> Hsnd]%sender_is_origin & Hs).
  destruct (Z.eqb_spec (aa_Token a) (ou_wevmosAddress p)); [|done]. cbn [negb] in Hs.
  apply bind_Ok_inv in Hs as (n & [-> _]%int_inv & Hs). apply bind_Ok_inv in Hs as (memo & Hm & Hs).
  by eapply (autopilot_requested StrideLiquidStake).
Qed.

Lemma redeem_requested origin ct args st bz st' :
  RedeemStake x ib p origin ct args st = Ok (bz, st') → grants_ok (ics_grants st) →
  sends StrideRedeemStake origin ct args st st'.
Proof.
  intros Hs Hg. apply bind_Ok_inv in Hs as (a & Ha & Hs). apply bind_Ok_inv in Hs as (sender & [-> Hsnd]%sender_is_origin & Hs).
  cbn zeta in Hs. destruct (GetTokenPair _ _) as [tokenPair|] eqn:Hpair; [|done].
  destruct (Z.eqb_spec (aa_Token a) (GetERC20Contract tokenPair)); [|done]. cbn [negb] in Hs.
  apply bind_Ok_inv in Hs as (n & [-> _]%int_inv & Hs). apply bind_Ok_inv in Hs as (memo & Hm & Hs).
  eapply (autopilot_requested StrideRedeemStake); try done. by exists tokenPair.
Qed.

(** C16.  A call of an outpost that succeeds has sent exactly one message, and the module's
    state is what that message makes of it.  The coins are the origin's, in the
    denomination of the token that was named: the input of a swap, the wrapped token for
    staking, the registered token of staked coins for redeeming.  A caller that is not the
    origin spends a grant of the origin, which covers the amount and goes down by it; and
    the channel, the amount and the receiver are those of the arguments.  The memo reads
    back as one JSON value that says what the arguments ask for, so no text in them can
    change another field: for a swap the other of the two accepted coins as Osmosis knows
    it, and the slippage and the window, which are within their limits. *)
Theorem outposts_send_requested o origin ct args st bz st' :
  outpost_call o origin ct args st = Ok (bz, st') → grants_ok (ics_grants st) → widths_ok args →
  ∃ msg seq j, Transfer x ib msg (ics_erc20 st) = Ok (seq, ics_erc20 st') ∧ mt_Sender msg = x_Bech32 x origin ∧
    mr_SourcePort (mt_rest msg) = PortID ∧ granted ct origin msg (ics_grants st) (ics_grants st') ∧
    reads (mr_Memo (mt_rest msg)) j ∧ requested o origin (ct_CallerAddress ct) st args msg j.
Proof. destruct o; intros Hc Hg Hw; [by eapply swap_requested|by eapply liquid_requested|by eapply redeem_requested]. Qed.

(** An output that passes the first check has a representation on Osmosis. *)
Lemma validated_converts input output staking channel osmosis :
  ValidateInputOutput ib input output staking channel = Ok () →
  ∃ denom, ConvertToOsmosisRepresentation ib p output staking channel osmosis = Ok denom.
Proof.
  unfold ValidateInputOutput, ConvertToOsmosisRepresentation. intros Hv. case_decide; [done|].
  destruct (negb (bool_decide (input ∈ _))); [done|]. destruct (bool_decide (output ∈ _)) eqn:Hout; [|done].
  apply bool_decide_eq_true in Hout. repeat case_decide; [by eexists..|set_solver].
Qed.

(** The address of a contract of another chain is accepted as it is: what it would be on
    Osmosis is computed and dropped. *)
Lemma foreign_contract_accepted address prefix bz osmo :
  ou_DecodeAndConvert p address = Some (prefix, bz) → prefix ≠ OsmosisPrefix → ou_Bech32ify p OsmosisPrefix bz = Some osmo →
  length bz = WasmContractAddrLen → ValidateOsmosisContractAddress p address = Ok ().
Proof.
  intros Hd Hp Hb Hl. unfold ValidateOsmosisContractAddress. rewrite Hd, Hb, Hl, Nat.eqb_refl, andb_false_r. done.
Qed.
End Calls.

(** ** An instance *)

Module OutpostToy.
Import MapCoins MapBank EvmToy GethToy GrantMap Erc20Toy IbcToy IcsToy.

Definition toy_outpost : outpost_env := {|
  ou_ics := toy_ics;
  ou_wevmosAddress := 0xaa;
  ou_GetChannel _ _ _ := Some ("transfer", "channel-204")%string;
  ou_DecodeAndConvert _ := Some ("osmo"%string, replicate 32 0);
  ou_Bech32ify _ _ := Some "osmo1"%string;
  ou_GetPrefixedDenom port channel denom := port +:+ "/" +:+ channel +:+ "/" +:+ denom;
  ou_BlockTime := 1000
|}.

(** Contract 66 stakes 20 coins of account 7, which has allowed it 30. *)
Definition stake_args : list abi_value :=
  [VTuple [VString "channel-0"; VAddress 7; VAddress 7; VAddress 0xaa; VBig 20; VString "stride1"]].
Definition stake_20 : outcome (pc_error + erc20_error) (list byte * ics_state) :=
  outpost_call toy_erc20 toy_ibc toy_outpost StrideLiquidStake 7 by_66 stake_args own_start.
Definition staked : ics_state := match stake_20 with Ok (_, st) => st | _ => own_start end.

Lemma outposts_send_requested_witness : ∃ (msg : MsgTransfer transfer_rest) seq,
  Transfer toy_erc20 toy_ibc msg (ics_erc20 own_start) = Ok (seq, ics_erc20 staked) ∧ mt_Amount msg = 20 ∧
  mt_Denom msg = x_BondDenom toy_erc20 (ics_chain own_start) ∧ mt_Sender msg = hex_string 40 7.
Proof.
  assert (∃ bz, stake_20 = Ok (bz, staked)) as [bz Hs].
  { assert (is_Ok stake_20 = true) as Hok by (vm_compute; reflexivity). unfold staked.
    destruct stake_20 as [[bz st]| |]; [by exists bz|discriminate Hok..]. }
  destruct (outposts_send_requested toy_erc20 toy_ibc toy_outpost toy_ics_laws StrideLiquidStake 7 by_66 stake_args own_start bz staked Hs)
    as (msg & seq & j & Ht & Hsender & _ & _ & _ & Hreq).
  - intros s o l e Ha. cbn in Ha. apply lookup_singleton_Some in Ha as [_ [= <- _]]. apply (law_Validate toy_ics toy_ics_laws). vm_compute. reflexivity.
  - intros l Hl. apply list_elem_of_singleton in Hl as [= ->]. split; intros n Hn%list_elem_of_In; cbn [In] in Hn; intuition discriminate.
  - exists msg, seq. split; [exact Ht|]. destruct Hreq as (_ & _ & Hn & _ & _ & [_ Hd] & _).
    split; [exact Hn|]. split; [exact Hd|exact Hsender].
Defined.
End OutpostToy.
