(* ===== verification/QueryPrecompiles.v ===== *)
(** * The precompiles that only answer: [precompiles/bank], [precompiles/bech32], [precompiles/p256]

    The bank precompile lists the coins of the chain under the addresses of their tokens;
    its gas configuration is empty, so what it charges is what its code asks for, and is
    modelled.  The bech32 precompile converts addresses; the encoding is the record
    [bech32_env].  The p256 precompile verifies a signature ([crypto/secp256r1]); the curve
    and the verification of Go's [crypto/elliptic] and [crypto/ecdsa] are written out in
    Jacobian coordinates. *)

From S2P Require Import Prelude Sdk Dec ChainID AccessList StateDB EvmKeeper EvmTx GasMeter EvmApply EvmQuery Erc20 Erc20Ibc LogFilter RpcTypes Precompile.

(** ** The bank *)

Definition GasBalanceOf : Z := 2851.
Definition GasTotalSupply : Z := 2477.
Definition GasSupplyOf : Z := 2477.

Section Bank.
Context `{EE : EvmEnv} `{GE : Geth} `{EK : !EVMKeeper} {rest : Type}.

Abbreviation bank_result A := (outcome (pc_error + erc20_error) A).

Record bank_env := mkBankEnv {
  bk_abi : abi_env;
  (** the coins that the iterators of the bank visit, in their order *)
  bk_AccountBalances : chain → Address → list (string * Z);
  bk_TotalSupply : chain → list (string * Z);
  (** [ConsumeGas] of a meter with a limit and what it has consumed; running out of gas
      is the error that [HandleGasError] makes of the panic *)
  bk_ConsumeGas : Z → Z → Z → pc_result Z
}.

Variable ib : ibc_env (rest := rest).
Variable p : bank_env.

Definition ParseBalancesArgs (args : list abi_value) : bank_result Address :=
  match args with [VAddress account] => Ok account | _ => Err (inl PErrArgs) end.

Definition ParseSupplyOfArgs (args : list abi_value) : bank_result Address :=
  match args with [VAddress erc20Address] => Ok erc20Address | _ => Err (inl PErrArgs) end.

(** The callback of both iterations: gas for every coin but the first, and an entry for a
    coin that has an address. *)
Fixpoint collect (cost limit : Z) (i : nat) (l : list (string * Z)) (st : erc20_store) (gas : Z) :
    bank_result (list (Address * Z) * Z) :=
  match l with
  | [] => Ok ([], gas)
  | (denom, amount) :: l =>
      gas ← (if (0 <? i)%nat then of_pc (bk_ConsumeGas p limit gas cost) else Ok gas);
      match GetCoinAddress ib denom st with
      | Panic => Panic
      | Err _ => collect cost limit (S i) l st gas
      | Ok contractAddress =>
          '(balances, gas) ← collect cost limit (S i) l st gas;
          Ok ((contractAddress, amount) :: balances, gas)
      end
  end.

Definition bank_Balances (contract : Contract) (args : list abi_value) (st : erc20_store) (gas : Z) : bank_result (list byte * Z) :=
  account ← ParseBalancesArgs args;
  '(balances, gas) ← collect GasBalanceOf (ct_Gas contract) 0 (bk_AccountBalances p (ek_chain (er_evm st)) account) st gas;
  bz ← of_pc (pack (bk_abi p) [VBalances balances]);
  Ok (bz, gas).

Definition bank_TotalSupply (contract : Contract) (st : erc20_store) (gas : Z) : bank_result (list byte * Z) :=
  '(totalSupply, gas) ← collect GasTotalSupply (ct_Gas contract) 0 (bk_TotalSupply p (ek_chain (er_evm st))) st gas;
  bz ← of_pc (pack (bk_abi p) [VBalances totalSupply]);
  Ok (bz, gas).

Definition bank_SupplyOf (args : list abi_value) (st : erc20_store) (gas : Z) : bank_result (list byte * Z) :=
  erc20ContractAddress ← ParseSupplyOfArgs args;
  let supply :=
    match GetTokenPair (GetERC20Map erc20ContractAddress st) st with
    | None => 0
    | Some tokenPair => bank_GetSupply (ek_chain (er_evm st)) (tp_Denom tokenPair)
    end in
  bz ← of_pc (pack (bk_abi p) [VBig supply]);
  Ok (bz, gas).

Definition bank_RequiredGas (input : list byte) : partial Z :=
  if (length input <? 4)%nat then Panic
  else match ab_MethodById (bk_abi p) (take 4 input) with
       | None => Ok 0
       | Some name =>
           Ok (if decide (name = "balances"%string) then GasBalanceOf
               else if decide (name = "totalSupply"%string) then GasTotalSupply
               else if decide (name = "supplyOf"%string) then GasSupplyOf
               else 0)
       end.

Definition bank_method (name : string) (contract : Contract) (args : list abi_value) (st : erc20_store) (gas : Z) :
    bank_result (list byte * Z) :=
  if decide (name = "balances"%string) then bank_Balances contract args st gas
  else if decide (name = "totalSupply"%string) then bank_TotalSupply contract st gas
  else if decide (name = "supplyOf"%string) then bank_SupplyOf args st gas
  else Err (inl PErrUnknownMethod).

(** The result and the gas that is left. *)
Definition bank_Run (contract : Contract) (readOnly : bool) (initialGas : Z) (st : erc20_store) : bank_result (list byte * Z) :=
  '(m, args) ← of_pc (RunSetup (bk_abi p) contract readOnly (λ _, false) initialGas);
  '(bz, finalGas) ← bank_method (me_Name m) contract args st initialGas;
  '(bz, _, remaining) ← of_pc (charge contract initialGas finalGas (Ok (bz, tt)));
  Ok (bz, remaining).
End Bank.

(** ** Bech32 *)

Record bech32_env := mkBech32Env {
  bh_abi : abi_env;
  bh_baseGas : Z;
  bh_VerifyAddressFormat : list byte → outcome string ();
  bh_Bech32ifyAddressBytes : string → list byte → outcome string string;
  bh_GetFromBech32 : string → string → outcome string (list byte)
}.

Section Bech32.
Variable p : bech32_env.

(** A prefix that is not a string is read as the empty one. *)
Definition HexToBech32 (args : list abi_value) : pc_result (list byte) :=
  match args with
  | [VAddress address; v] =>
      let prefix := match v with VString s => s | _ => EmptyString end in
      match TrimSpace (bytes_of prefix) with
      | [] => Err PErrInvalid
      | _ =>
          _ ← of_sdk (bh_VerifyAddressFormat p (Address_Bytes address));
          bech32Str ← of_sdk (bh_Bech32ifyAddressBytes p prefix (Address_Bytes address));
          pack (bh_abi p) [VString bech32Str]
      end
  | _ => Err PErrArgs
  end.

Definition Bech32ToHex (args : list abi_value) : pc_result (list byte) :=
  match args with
  | [VString address] =>
      if decide (address = EmptyString) then Err PErrInvalid
      else
        let bech32Prefix := before_one address in
        if decide (bech32Prefix = address) then Err PErrInvalid
        else
          addressBz ← of_sdk (bh_GetFromBech32 p address bech32Prefix);
          _ ← of_sdk (bh_VerifyAddressFormat p addressBz);
          pack (bh_abi p) [VAddress (BytesToAddress addressBz)]
  | _ => Err PErrArgs
  end.

Definition bech32_RequiredGas (input : list byte) : Z := bh_baseGas p.

(** A method of another name has an empty result. *)
Definition bech32_Run (contract : Contract) : pc_result (list byte) :=
  let input := ct_Input contract in
  if (length input <? 4)%nat then Panic
  else
    match ab_MethodById (bh_abi p) (take 4 input) with
    | None => Err PErrMethod
    | Some name =>
        match ab_Unpack (bh_abi p) name (drop 4 input) with
        | None => Err PErrUnpack
        | Some args =>
            if decide (name = "hexToBech32"%string) then HexToBech32 args
            else if decide (name = "bech32ToHex"%string) then Bech32ToHex args
            else Ok []
        end
    end.
End Bech32.

(** ** P-256: [crypto/elliptic], [crypto/ecdsa] *)

Module P256.
Definition P : Z := 0xffffffff00000001000000000000000000000000ffffffffffffffffffffffff.
Definition N : Z := 0xffffffff00000000ffffffffffffffffbce6faada7179e84f3b9cac2fc632551.
Definition B : Z := 0x5ac635d8aa3a93e7b3ebbd55769886bc651d06b0cc53b0f63bce3c3e27d2604b.
Definition Gx : Z := 0x6b17d1f2e12c4247f8bce6e563a440f277037d812deb33a0f4a13945d898c296.
Definition Gy : Z := 0x4fe342e2fe1a7f9b8ee7eb4a7c0f9e162bce33576b315ececbb6406837bf51f5.

Fixpoint pow_mod (m b : Z) (e : positive) : Z :=
  match e with
  | xH => b mod m
  | xO e => let h := pow_mod m b e in (h * h) mod m
  | xI e => let h := pow_mod m b e in (h * h) mod m * b mod m
  end.

(** The inverse modulo a prime. *)
Definition inverse (m a : Z) : Z := pow_mod m a (Z.to_pos (m - 2)).

(** A point [(X, Y, Z)] stands for [(X / Z^2, Y / Z^3)], and with [Z = 0] for infinity. *)
Definition point : Type := Z * Z * Z.
Definition infinity : point := (1, 1, 0).

Definition double (q : point) : point :=
  let '(x, y, z) := q in
  if (z =? 0) || (y =? 0) then infinity
  else
    let yy := y * y mod P in
    let s := 4 * x * yy mod P in
    let zz := z * z mod P in
    let m := 3 * (x - zz) * (x + zz) mod P in
    let x' := (m * m - 2 * s) mod P in
    (x', (m * (s - x') - 8 * yy * yy) mod P, 2 * y * z mod P).

Definition add (q r : point) : point :=
  let '(x1, y1, z1) := q in
  let '(x2, y2, z2) := r in
  if z1 =? 0 then r
  else if z2 =? 0 then q
  else
    let zz1 := z1 * z1 mod P in
    let zz2 := z2 * z2 mod P in
    let u1 := x1 * zz2 mod P in
    let u2 := x2 * zz1 mod P in
    let s1 := y1 * z2 * zz2 mod P in
    let s2 := y2 * z1 * zz1 mod P in
    if u1 =? u2 then (if s1 =? s2 then double q else infinity)
    else
      let h := (u2 - u1) mod P in
      let r := (s2 - s1) mod P in
      let hh := h * h mod P in
      let hhh := h * hh mod P in
      let v := u1 * hh mod P in
      let x' := (r * r - hhh - 2 * v) mod P in
      (x', (r * (v - x') - s1 * hhh) mod P, h * z1 * z2 mod P).

Fixpoint mult_pos (k : positive) (q : point) : point :=
  match k with
  | xH => q
  | xO k => double (mult_pos k q)
  | xI k => add (double (mult_pos k q)) q
  end.

Definition mult (k : Z) (q : point) : point := match k with Zpos k => mult_pos k q | _ => infinity end.

(** Coordinates out of range are not on the curve. *)
Definition IsOnCurve (x y : Z) : bool :=
  (0 <=? x) && (x <? P) && (0 <=? y) && (y <? P) && (y * y mod P =? (x * x * x - 3 * x + B) mod P).

(** [ecdsa.Verify] with a hash of 32 bytes. *)
Definition ecdsa_Verify (x y : Z) (hash : list byte) (r s : Z) : bool :=
  if (r <=? 0) || (s <=? 0) || (N <=? r) || (N <=? s) then false
  else
    let w := inverse N s in
    let '(X, _, z) := add (mult (SetBytes hash * w mod N) (Gx, Gy, 1)) (mult (r * w mod N) (x, y, 1)) in
    if z =? 0 then false
    else let i := inverse P z in (X * (i * i mod P) mod P) mod N =? r.
End P256.

(** [crypto/secp256r1] *)
Definition newECDSAPublicKey (x y : Z) : option (Z * Z) :=
  if ((x =? 0) && (y =? 0)) || negb (P256.IsOnCurve x y) then None else Some (x, y).

Definition secp256r1_Verify (hash : list byte) (r s x y : Z) : bool :=
  match newECDSAPublicKey x y with
  | None => false
  | Some (x, y) => P256.ecdsa_Verify x y hash r s
  end.

Definition VerifyGas : Z := 3450.
Definition VerifyInputLength : nat := 160.

Definition p256_RequiredGas (input : list byte) : Z := VerifyGas.

Definition slice (i j : nat) (l : list byte) : list byte := take (j - i) (drop i l).

(** An empty result for a signature that is not valid. *)
Definition p256_Run (contract : Contract) : list byte :=
  let input := ct_Input contract in
  if negb (length input =? VerifyInputLength)%nat then []
  else
    let hash := slice 0 32 input in
    let r := SetBytes (slice 32 64 input) in
    let s := SetBytes (slice 64 96 input) in
    let x := SetBytes (slice 96 128 input) in
    let y := SetBytes (slice 128 160 input) in
    if secp256r1_Verify hash r s x y then replicate 31 0 ++ [1] else [].
