(* ===== verification/QueryPrecompilesSpec.v ===== *)
(** * What the bank, bech32 and p256 precompiles promise

    The bank lists each coin that has an address, once and in order, and charges for every
    coin of the account, whether it is listed or not ([balances_listed_and_charged]).  What
    it lists for a registered coin is what the query for that coin's contract answers
    ([listed_supply_agrees]).  Converting an address to bech32 and back gives it again
    ([bech32_round_trip]), unless there is a "1" in the prefix ([prefix_with_one_rejected]);
    a longer address is cut to twenty bytes ([long_address_cut]).  The p256 precompile
    accepts only points of the curve and scalars in range ([p256_accepts_inv]). *)

From S2P Require Import Prelude Sdk Dec ChainID AccessList StateDB Journal StateDBSpec Commit EvmKeeper EvmKeeperSpec EvmTx EvmTxSpec GasMeter EvmApply EvmQuery Erc20 Erc20Spec Erc20Ibc Erc20IbcSpec LogFilter Json RpcTypes Precompile QueryPrecompiles.

Section Bank.
Context `{EE : EvmEnv} `{GE : Geth} `{EK : !EVMKeeper} {rest : Type}.
Context (x : erc20_env) (ib : ibc_env (rest := rest)) (p : bank_env).

(** A meter adds what is consumed, up to its limit. *)
Record bank_laws : Prop := {
  law_ConsumeGas limit gas n gas' : bk_ConsumeGas p limit gas n = Ok gas' → gas' = gas + n ∧ gas' <= limit;
  law_TotalSupply c d n : (d, n) ∈ bk_TotalSupply p c → bank_GetSupply c d = n
}.
Hypothesis BL : bank_laws.

(** The coins with an address. *)
Definition addressed (st : erc20_store) (l : list (string * Z)) : list (Address * Z) :=
  omap (λ c, match GetCoinAddress ib c.1 st with Ok a => Some (a, c.2) | _ => None end) l.

(** The charges in the loop: all coins but the first of an iteration. *)
Definition charged (i : nat) (l : list (string * Z)) : Z := Z.of_nat (length l) - (if (0 <? i)%nat then 0 else Z.min 1 (Z.of_nat (length l))).

Lemma collect_spec cost limit i l st gas balances gas' :
  collect ib p cost limit i l st gas = Ok (balances, gas') →
  balances = addressed st l ∧ gas' = gas + charged i l * cost.
Proof.
  revert i gas balances gas'. induction l as [|[d n] l IH]; intros i gas balances gas' Hc; cbn [collect] in Hc.
  { injection Hc as <- <-. split; [done|]. unfold charged. cbn. case_match; lia. }
  apply bind_Ok_inv in Hc as (gas1 & Hg & Hc).
  assert (gas1 = gas + (if (0 <? i)%nat then cost else 0)) as ->.
  { destruct (0 <? i)%nat; [|injection Hg as <-; lia]. apply of_pc_Ok, (law_ConsumeGas BL) in Hg as [-> _]. done. }
  assert (charged i ((d, n) :: l) * cost = (if (0 <? i)%nat then cost else 0) + charged (S i) l * cost) as ->.
  { unfold charged. change (0 <? S i)%nat with true. cbn [length]. rewrite Z.min_l by lia.
    destruct (0 <? i)%nat; rewrite Nat2Z.inj_succ; unfold Z.succ; ring. }
  unfold addressed. cbn [omap list_omap fst snd]. destruct (GetCoinAddress ib d st) as [a|e|]; [| |done].
  - apply bind_Ok_inv in Hc as ([bs g] & Hc & [= <- <-]). apply IH in Hc as [-> ->]. split; [done|lia].
  - apply IH in Hc as [-> ->]. split; [done|lia].
Qed.

(** What [balances] answers and costs: an entry for each coin of the account that has a
    token, with its amount and in the bank's order, and no other.  Together with the gas
    taken before the call it costs one [balanceOf] for each coin that the account has, and
    at least one. *)
Theorem balances_listed_and_charged ct args st gas bz gas' :
  bank_Balances ib p ct args st gas = Ok (bz, gas') →
  ∃ account, args = [VAddress account] ∧
    let l := bk_AccountBalances p (ek_chain (er_evm st)) account in
    ab_Pack (bk_abi p) [VBalances (addressed st l)] = Some bz ∧
    gas' - gas + GasBalanceOf = Z.max 1 (Z.of_nat (length l)) * GasBalanceOf.
Proof.
  intros Hb. apply bind_Ok_inv in Hb as (account & Ha & Hb). apply bind_Ok_inv in Hb as ([balances g] & Hc & Hb).
  apply bind_Ok_inv in Hb as (out & Hp%of_pc_Ok & [= <- <-]). apply collect_spec in Hc as [-> ->].
  exists account. unfold ParseBalancesArgs in Ha. case_guards Ha. injection Ha as <-. split; [done|]. cbn zeta. split.
  - unfold pack in Hp. case_guards Hp. by injection Hp as <-.
  - unfold charged. cbn [Nat.ltb Nat.leb]. lia.
Qed.

(** The supply that is listed for a registered coin is that of its contract. *)
Lemma listed_supply_agrees st d n id tp gas :
  registry_wf x st → er_byDenom st !! d = Some id → er_pairs st !! id = Some tp →
  (d, n) ∈ bk_TotalSupply p (ek_chain (er_evm st)) →
  (GetERC20Contract tp, n) ∈ addressed st (bk_TotalSupply p (ek_chain (er_evm st))) ∧
  bank_SupplyOf p [VAddress (GetERC20Contract tp)] st gas = (bz ← of_pc (pack (bk_abi p) [VBig n]); Ok (bz, gas)).
Proof.
  intros WF Hd Hp Hin. destruct (wf_pair _ _ WF _ _ Hp) as (_ & _ & _ & Hby).
  destruct (wf_denom _ _ WF _ _ Hd) as (tp' & Hp' & Hdn). rewrite Hp in Hp'. injection Hp' as <-. split.
  - apply list_elem_of_omap. exists (d, n). split; [done|]. cbn [fst snd].
    unfold GetCoinAddress, GetDenomMap, GetTokenPair. rewrite Hd. cbn. by rewrite Hp.
  - unfold bank_SupplyOf, ParseSupplyOfArgs, GetERC20Map, GetTokenPair. rewrite Ok_bind, Hby. cbn. rewrite Hp, Hdn.
    by rewrite (law_TotalSupply BL _ _ _ Hin).
Qed.
End Bank.

(** ** Bech32 *)

(** A prefix of BIP-173 in lower case. *)
Definition hrp_char (c : Ascii.ascii) : bool :=
  let n := Z.of_nat (Ascii.nat_of_ascii c) in (33 <=? n) && (n <=? 126) && negb ((65 <=? n) && (n <=? 90)).
Definition hrp_ok (s : string) : bool :=
  forallb hrp_char (String.list_ascii_of_string s) && (1 <=? String.length s)%nat && (String.length s <=? 83)%nat.

(** Encoding puts the prefix and a "1" before data without one, and decoding inverts it.
    The prefix of an address ends at its last "1", and decoding asks for that one. *)
Record conversion_laws (p : bech32_env) : Prop := {
  law_Bech32ify prefix bz s : bh_Bech32ifyAddressBytes p prefix bz = Ok s →
    ∃ data, s = prefix +:+ String one data ∧ one ∉ String.list_ascii_of_string data;
  law_inverse prefix bz s : hrp_ok prefix = true → bh_Bech32ifyAddressBytes p prefix bz = Ok s → bh_GetFromBech32 p s prefix = Ok bz;
  law_prefix hrp data prefix bz : one ∉ String.list_ascii_of_string data →
    bh_GetFromBech32 p (hrp +:+ String one data) prefix = Ok bz → prefix = hrp
}.

Lemma SetBytes_app l l' : SetBytes (l ++ l') = SetBytes l * 256 ^ Z.of_nat (length l') + SetBytes l'.
Proof.
  induction l' as [|b l' IH] using rev_ind; [rewrite app_nil_r; cbn; lia|]. rewrite app_assoc. unfold SetBytes in *.
  rewrite !foldl_app. cbn [foldl]. rewrite <-foldl_app, IH, length_app, Nat2Z.inj_add, Z.pow_add_r by lia. cbn. lia.
Qed.

Lemma before_one_app prefix data : one ∉ String.list_ascii_of_string prefix → before_one (prefix +:+ String one data) = prefix.
Proof.
  induction prefix as [|c prefix IH]; intros Hn; [by vm_compute|]. rewrite append_cons. cbn [before_one].
  cbn in Hn. apply not_elem_of_cons in Hn as [Hc Hn]. rewrite decide_False by congruence. by rewrite IH.
Qed.

Lemma append_longer prefix data : prefix +:+ String one data ≠ prefix.
Proof. induction prefix as [|c prefix IH]; [done|]. rewrite append_cons. intros [= He]. done. Qed.

Section Bech32.
Context (p : bech32_env) (BL : conversion_laws p).

(** What [HexToBech32] packs. *)
Lemma HexToBech32_inv a prefix bz : HexToBech32 p [VAddress a; VString prefix] = Ok bz →
  ∃ s, bh_VerifyAddressFormat p (Address_Bytes a) = Ok () ∧ bh_Bech32ifyAddressBytes p prefix (Address_Bytes a) = Ok s ∧
    ab_Pack (bh_abi p) [VString s] = Some bz.
Proof.
  unfold HexToBech32. intros Hh. destruct (TrimSpace _); [done|]. apply bind_Ok_inv in Hh as ([] & Hv%of_sdk_Ok & Hh).
  apply bind_Ok_inv in Hh as (s & Hs%of_sdk_Ok & Hh). exists s. split_and!; [done..|]. unfold pack in Hh. case_guards Hh. by injection Hh as <-.
Qed.

(** The two conversions are inverse: what [hexToBech32] makes of an address with a
    prefix in lower case that has no "1" in it, [bech32ToHex] turns into that address. *)
Theorem bech32_round_trip a prefix bz :
  in_address a → hrp_ok prefix = true → one ∉ String.list_ascii_of_string prefix →
  HexToBech32 p [VAddress a; VString prefix] = Ok bz →
  ∃ s, ab_Pack (bh_abi p) [VString s] = Some bz ∧ Bech32ToHex p [VString s] = pack (bh_abi p) [VAddress a].
Proof.
  intros Ha Hp H1 Hh. apply HexToBech32_inv in Hh as (s & Hv & Hs & Hb). exists s. split; [done|].
  pose proof (law_inverse p BL _ _ _ Hp Hs) as Hg. destruct (law_Bech32ify p BL _ _ _ Hs) as (data & -> & _). unfold Bech32ToHex.
  rewrite decide_False by (destruct prefix; discriminate). rewrite before_one_app by done.
  rewrite decide_False by (intros He; by apply (append_longer prefix data)). rewrite Hg. cbn [of_sdk]. rewrite Ok_bind, Hv.
  cbn [of_sdk]. rewrite Ok_bind. unfold BytesToAddress, Address_Bytes. rewrite SetBytes_be_bytes.
  change (256 ^ Z.of_nat 20) with (2 ^ 160). rewrite (Z.mod_small a) by exact Ha. by rewrite Z.mod_small by exact Ha.
Qed.

(** With a "1" in the prefix the address cannot be read back. *)
Lemma prefix_with_one_rejected addr a b bz : one ∉ String.list_ascii_of_string a →
  HexToBech32 p [VAddress addr; VString (a +:+ String one b)] = Ok bz →
  ∃ s, ab_Pack (bh_abi p) [VString s] = Some bz ∧ ∀ out, Bech32ToHex p [VString s] ≠ Ok out.
Proof.
  intros H1 (s & _ & Hs & Hb)%HexToBech32_inv. exists s. split; [done|]. intros out Ho.
  destruct (law_Bech32ify p BL _ _ _ Hs) as (data & -> & Hd). unfold Bech32ToHex in Ho.
  assert (before_one ((a +:+ String one b) +:+ String one data) = a) as Heq.
  { rewrite <-append_assoc, append_cons. by apply before_one_app. }
  rewrite Heq in Ho. do 2 (case_decide; [done|]). apply bind_Ok_inv in Ho as (bz' & Hg%of_sdk_Ok & _).
  apply (law_prefix p BL) in Hg; [|done]. by apply (append_longer a b).
Qed.

(** An address of more than twenty bytes loses the first ones. *)
Lemma long_address_cut s bz extra a : before_one s ≠ s → s ≠ EmptyString → bh_GetFromBech32 p s (before_one s) = Ok bz →
  bh_VerifyAddressFormat p bz = Ok () → in_address a → bz = extra ++ Address_Bytes a →
  Bech32ToHex p [VString s] = pack (bh_abi p) [VAddress a].
Proof.
  intros Hb Hs Hg Hv Ha ->. unfold Bech32ToHex. rewrite !decide_False by done. rewrite Hg. cbn [of_sdk]. rewrite Ok_bind, Hv.
  cbn [of_sdk]. rewrite Ok_bind. do 3 f_equal. unfold BytesToAddress, Address_Bytes. rewrite SetBytes_app, length_be_bytes, SetBytes_be_bytes.
  change (256 ^ Z.of_nat 20) with (2 ^ 160). rewrite Z.add_comm, Z.mod_add by lia. rewrite (Z.mod_small a) by exact Ha. by rewrite Z.mod_small by exact Ha.
Qed.
End Bech32.

(** ** P-256 *)

(** What an input that is accepted has: a length of 160 bytes, a key on the curve and two
    scalars in range.  Its result is the number one. *)
Lemma p256_accepts_inv ct : p256_Run ct ≠ [] →
  let input := ct_Input ct in
  length input = VerifyInputLength ∧ p256_Run ct = be_bytes 32 1 ∧
  P256.IsOnCurve (SetBytes (slice 96 128 input)) (SetBytes (slice 128 160 input)) = true ∧
  0 < SetBytes (slice 32 64 input) < P256.N ∧ 0 < SetBytes (slice 64 96 input) < P256.N.
Proof.
  unfold p256_Run. cbn zeta. destruct (Nat.eqb_spec (length (ct_Input ct)) VerifyInputLength) as [Hl|]; [|done].
  cbn [negb]. destruct (secp256r1_Verify _ _ _ _ _) eqn:Hv; [|done]. intros _. unfold secp256r1_Verify, newECDSAPublicKey in Hv.
  destruct ((_ =? 0) && (_ =? 0)); [done|]. destruct (P256.IsOnCurve _ _); [|done]. cbn [negb orb] in Hv.
  unfold P256.ecdsa_Verify in Hv. destruct (_ || _) eqn:Hr; [done|]. clear Hv. rewrite !orb_false_iff in Hr.
  split_and!; [done|done|done|lia..].
Qed.

Example base_on_curve : P256.IsOnCurve P256.Gx P256.Gy = true.
Proof. vm_compute. reflexivity. Qed.

(** ** Instances *)

Module QueryToy.
Import MapCoins MapBank EvmToy GethToy Erc20Toy IbcToy.

Definition open_abi : abi_env := {|
  ab_HasReceive := false;
  ab_HasFallback := false;
  ab_MethodById _ := None;
  ab_Unpack _ _ := None;
  ab_Pack l := match l with [VBalances l] => Some (l.*1 ++ l.*2) | [VString s] => Some (Z.of_N <$> bytes_of s) | _ => Some [] end;
  ab_EventID _ := 1;
  ab_keccak _ := 0
|}.

(** An account with a registered coin and one without a token. *)
Definition listing_bank : bank_env := {|
  bk_abi := open_abi;
  bk_AccountBalances _ _ := [("other", 4); ("ucoin", 30)]%string;
  bk_TotalSupply _ := [];
  bk_ConsumeGas limit gas n := if gas + n <=? limit then Ok (gas + n) else Err PErrOutOfGas
|}.

Lemma listing_bank_laws : bank_laws listing_bank.
Proof.
  split.
  - intros limit gas n gas'. cbn. destruct (Z.leb_spec (gas + n) limit); [|done]. intros [= <-]. lia.
  - intros c d n Hin. by apply elem_of_nil in Hin.
Qed.

Definition bank_ct : Contract := mkContract 7 0x804 0 [] 100000.

Definition answer {E A} (r : outcome E A) : option A := match r with Ok v => Some v | _ => None end.
Lemma answer_Ok {E A} (r : outcome E A) v : answer r = Some v → r = Ok v.
Proof. destruct r; [by intros [= ->]|done..]. Qed.

(** One entry, and two charges. *)
Lemma balances_listed_and_charged_witness :
  answer (bank_Balances (rest := ()) toy_ibc listing_bank bank_ct [VAddress 7] (toy_store OWNER_EXTERNAL) 0) = Some ([9; 30], 2851) ∧
  2851 - 0 + GasBalanceOf = 2 * GasBalanceOf.
Proof.
  assert (answer (bank_Balances (rest := ()) toy_ibc listing_bank bank_ct [VAddress 7] (toy_store OWNER_EXTERNAL) 0) =
          Some ([9; 30], 2851)) as Hb by (vm_compute; reflexivity).
  split; [exact Hb|]. apply answer_Ok in Hb.
  destruct (balances_listed_and_charged toy_ibc listing_bank listing_bank_laws _ _ _ _ _ _ Hb) as (account & _ & _ & Hgas). exact Hgas.
Defined.

(** The data are a letter for each byte. *)
Definition letter (b : Z) : Ascii.ascii := Ascii.ascii_of_nat (97 + Z.to_nat (b mod 16)).
Fixpoint letters (l : list byte) : string :=
  match l with [] => EmptyString | b :: l => String (letter (b / 16)) (String (letter b) (letters l)) end.
Definition unletter (c : Ascii.ascii) : Z := Z.of_nat (Ascii.nat_of_ascii c) - 97.
Fixpoint unletters (s : string) : list byte :=
  match s with String c (String d s) => (unletter c * 16 + unletter d) :: unletters s | _ => [] end.

Fixpoint after_last (s : string) : option (string * string) :=
  match s with
  | EmptyString => None
  | String c s =>
      match after_last s with
      | Some (h, d) => Some (String c h, d)
      | None => if decide (c = one) then Some (EmptyString, s) else None
      end
  end.

Definition letter_bech32 : bech32_env := {|
  bh_abi := open_abi;
  bh_baseGas := 6000;
  bh_VerifyAddressFormat _ := Ok ();
  bh_Bech32ifyAddressBytes prefix bz :=
    if forallb (λ b, (0 <=? b) && (b <? 256)) bz then Ok (prefix +:+ String one (letters bz)) else Err "byte"%string;
  bh_GetFromBech32 s prefix :=
    match after_last s with
    | Some (h, d) => if decide (h = prefix) then Ok (unletters d) else Err "prefix"%string
    | None => Err "separator"%string
    end
|}.

Lemma after_last_none d : one ∉ String.list_ascii_of_string d → after_last d = None.
Proof.
  induction d as [|c d IH]; intros Hn; [done|]. cbn in Hn. apply not_elem_of_cons in Hn as [Hc Hn]. cbn [after_last].
  rewrite IH by done. by rewrite decide_False by congruence.
Qed.

Lemma after_last_app h d : one ∉ String.list_ascii_of_string d → after_last (h +:+ String one d) = Some (h, d).
Proof.
  intros Hn. induction h as [|c h IH]; [|by rewrite append_cons; cbn [after_last]; rewrite IH].
  change (EmptyString +:+ ?u) with u. cbn [after_last]. rewrite after_last_none by done. by rewrite decide_True.
Qed.

Lemma letter_range b : ∃ n, (n < 16)%nat ∧ letter b = Ascii.ascii_of_nat (97 + n) ∧ Z.of_nat n = b mod 16.
Proof. exists (Z.to_nat (b mod 16)). pose proof (Z.mod_pos_bound b 16 ltac:(lia)). split_and!; [lia|done|lia]. Qed.

Lemma letter_spec b : letter b ≠ one ∧ unletter (letter b) = b mod 16.
Proof.
  destruct (letter_range b) as (n & Hn & -> & <-). unfold unletter. rewrite Ascii.nat_ascii_embedding by lia. split; [|lia].
  intros He%(f_equal Ascii.nat_of_ascii). rewrite Ascii.nat_ascii_embedding in He by lia. vm_compute in He. lia.
Qed.

Lemma letters_spec bz : Forall (λ b, 0 <= b < 256) bz →
  (one ∉ String.list_ascii_of_string (letters bz)) ∧ unletters (letters bz) = bz.
Proof.
  induction 1 as [|b bz Hb _ [Hn Hu]]; [split; [apply not_elem_of_nil|done]|].
  cbn [letters String.list_ascii_of_string unletters]. destruct (letter_spec (b / 16)) as [H1 ->], (letter_spec b) as [H2 ->]. split.
  - rewrite !not_elem_of_cons. split_and!; [congruence..|done].
  - rewrite Hu. f_equal. rewrite (Z.mod_small (b / 16)) by (split; [apply Z.div_pos|apply Z.div_lt_upper_bound]; lia).
    pose proof (Z.div_mod b 16). lia.
Qed.

Lemma toy_encoded prefix bz s : bh_Bech32ifyAddressBytes letter_bech32 prefix bz = Ok s →
  s = prefix +:+ String one (letters bz) ∧ Forall (λ b, 0 <= b < 256) bz.
Proof.
  cbn. destruct (forallb _ bz) eqn:Hf; [|done]. intros [= <-]. split; [done|]. apply Forall_forall. intros b Hb.
  rewrite forallb_forall in Hf. specialize (Hf b). rewrite <-list_elem_of_In in Hf. specialize (Hf Hb). lia.
Qed.

Lemma letter_bech32_laws : conversion_laws letter_bech32.
Proof.
  split.
  - intros prefix bz s [-> Hf]%toy_encoded. exists (letters bz). split; [done|]. by apply letters_spec.
  - intros prefix bz s _ [-> Hf]%toy_encoded. apply letters_spec in Hf as [Hn Hu]. cbn. rewrite after_last_app by done.
    by rewrite decide_True, Hu.
  - intros hrp data prefix bz Hd. cbn. rewrite after_last_app by done. by case_decide.
Qed.

Lemma bech32_round_trip_witness : ∃ s, Bech32ToHex letter_bech32 [VString s] = Precompile.pack open_abi [VAddress 0xabc].
Proof.
  assert (∃ bz, HexToBech32 letter_bech32 [VAddress 0xabc; VString "evmos"] = Ok bz) as [bz Hh] by (eexists; vm_compute; reflexivity).
  destruct (bech32_round_trip letter_bech32 letter_bech32_laws 0xabc "evmos" bz) as (s & _ & Hs).
  - split; vm_compute; congruence.
  - vm_compute. reflexivity.
  - apply (bool_decide_eq_true_1 (one ∉ String.list_ascii_of_string "evmos")). vm_compute. reflexivity.
  - exact Hh.
  - exists s. exact Hs.
Defined.
End QueryToy.
